(* ===== verification/_CoqProject ===== *)
-Q . S2P
Prelude.v
Monad.v
Machine.v
State.v
Spinlock.v
LockSteps.v
CString.v
Kalloc.v
Riscv.v
Vm.v
PageTable.v
UserMem.v
Unmap.v
Uvmcopy.v
Lazy.v
AddressSpace.v
Sched.v
SchedSpec.v
SleepLock.v
SleepSpec.v
Uart.v
Printf.v
PrintfSpec.v
Console.v
Virtio.v
Device.v
DeviceSpec.v
Bio.v
BufRing.v
Crash.v
Cache.v
Log.v
LogSpec.v
Commit.v
Recovery.v
LogOps.v
WalMachine.v
CacheSpec.v
CrashSafety.v
Fs.v
DiskFormat.v
Mkfs.v
MkfsSpec.v
FsRead.v
InodeSpec.v
FsTx.v
FsGrow.v
FsBmap.v
FsWrite.v
FsFiles.v
DirSpec.v
NameSpec.v
Pipe.v
PipeSpec.v
File.v
FileSpec.v
FileWrite.v
Proc.v
ProcSpace.v
ProcSlot.v
ForkSpec.v
Asm.v
Exec.v
Syscall.v
Sysfile.v
Trap.v
User.v
Ulib.v
Uprintf.v
Grep.v
GrepSpec.v
Commands.v
Stress.v
CommandsSpec.v
Umalloc.v
UmallocSpec.v
Sh.v
ShSpec.v
