(* ===== verification/Prelude.v ===== *)
(** xv6 on RISC-V: a verification development.

    The program is the operating system under src/: the kernel (src/kernel), the
    programs and the library of its users (src/user) and the builder of the disk
    image (src/mkfs).  This library models it as a shallow embedding: every C
    function is a definition with the name it has in C, written in a monad whose
    outcomes are a result, a panic, or a wait that nothing has ended yet.

    ** How the model corresponds to the code

    - Integers are [Z], with the wrap-around of their C type written out ([u8],
      [u32], [u64], [i32] ...).  Memory is a finite map from addresses to bytes;
      page tables, the free list of pages, user heaps and directory entries live
      in it as bytes.  Pointers into the fixed tables of the kernel are indices.
    - Monad.v: a computation runs on one hart from a state, and consumes a list of
      moves of the rest of the machine (other harts, devices, interrupts), one
      each time it spins, polls or sleeps.  When the list is empty the computation
      is [Stuck] where it waits: theorems about power failures and about sleeping
      processes speak of these states.  Loops without a bound wait in every round
      or have a fuel computed from their arguments; the theorems show that it is
      enough, because they state the result and not only its properties.
    - State.v: the structures of the kernel as records, its globals as the record
      [kstate].  The class [Layout] gives the addresses that the linker and the
      compiler choose; the class [VirtioDevice] of Device.v says what a virtio
      disk does with a request.  Both have concrete instances in the witnesses.
    - User.v: a user program runs on the memory of its process; a system call
      records its arguments and waits for the kernel's answer.

    ** The files

    - Prelude, Monad, Machine, State: integers, bytes, memory, lists; the monad;
      param.h, memlayout.h, riscv.h; the kernel's data.
    - Spinlock (spinlock.c), LockSteps: locks on one hart; their pieces
      interleaved on [NCPU] harts.
    - CString (string.c), Kalloc (kalloc.c), Riscv (riscv.h), Vm (vm.c): the
      functions; PageTable, UserMem, Unmap, Uvmcopy, Lazy: page tables as maps and
      what each function does to them; AddressSpace: the promises of vm.c.
    - Sched (proc.c: sched, sleep, wakeup, scheduler), SleepLock (sleeplock.c);
      SchedSpec and SleepSpec: their equations and promises.
    - Uart, Printf, Console (uart.c, printf.c, console.c); PrintfSpec.
    - Virtio (virtio_disk.c), Device, DeviceSpec: the driver, the device,
      one request from call to return.
    - Bio (bio.c), BufRing, Crash, Cache, CacheSpec: the buffer cache as blocks
      that are on disk, pinned or held; [cwp], runs that a power failure may cut.
    - Log (log.c), LogSpec, Commit, Recovery, LogOps, WalMachine,
      CrashSafety: the write-ahead log and its crash safety.
    - Fs (fs.c): inodes, directories and paths.  DiskFormat, Mkfs (mkfs.c),
      MkfsSpec: the disk layout, the image builder and the image it builds.
      FsRead, InodeSpec: reading a file through the cache; FsTx, FsGrow, FsBmap,
      FsWrite: one write inside a transaction (allocation, block map, inode);
      FsFiles: a disk as a map from inode numbers to files; DirSpec, NameSpec: path
      elements, directory lookup, path walks.
    - Pipe (pipe.c), File (file.c), FileSpec and FileWrite ([fileread] and
      [filewrite] on a file of the disk), Proc (proc.c: processes), Exec
      (exec.c), Syscall (syscall.c, sysproc.c), Sysfile (sysfile.c), Trap (trap.c,
      plic.c, start.c, main.c): the functions; PipeSpec: pipes as queues;
      ProcSpace, ProcSlot, ForkSpec: page tables of processes, slots, [kfork].
    - Asm (trampoline.S, swtch.S, kernelvec.S, entry.S): the instructions, run on
      registers and memory behind a page table.
    - User (usys.pl, user.h), Ulib (ulib.c), Uprintf (user/printf.c), Umalloc
      (umalloc.c), Grep (grep.c), Sh (sh.c), Commands (cat.c, wc.c, ls.c and the
      other small commands), Stress (stressfs.c, forktest.c, grind.c ...):
      user space; UmallocSpec, GrepSpec, CommandsSpec, ShSpec:
      its theorems.

    ** What the theorems show

    - Crash safety (CrashSafety, LogOps): a transaction of up to [MAXOPBLOCKS]
      block updates is atomic however the power fails, recovery included, and the
      log never overflows; a transaction that fills the log panics for want of a
      buffer ([NBUF = LOGBLOCKS]).
    - Files (FileWrite, FileSpec, NameSpec): [filewrite] on a file of the disk
      writes the bytes of the process at the offset, growing the file, and a power
      failure leaves a prefix of whole transactions of it ([filewrite_atomic]);
      each of these transactions fits the log ([writei_budget]); [fileread] reads
      the bytes of the file; [namex] finds the inode that the path names; mkfs
      writes an image with the root directory and the files it was given
      (MkfsSpec); a disk inode is read back from its block (FsFiles).
    - Buffer cache and disk (CacheSpec): readers get what was last written, the
      cache recycles the least recently used buffer, a request does what it says.
    - Locks (LockSteps): mutual exclusion, progress, nesting of interrupt
      disabling, and the panics on misuse.  Sleeping (SleepSpec): no lost wakeup.
    - Memory (Kalloc, AddressSpace): the allocator refines a set of pages; page
      tables map what they were asked to map; [copyin] and [copyout] move exactly
      the bytes of the process, lazily allocated pages included; [uvmcopy] copies;
      [uvmfree] returns every page.
    - Processes (ForkSpec): [kfork] makes a copy of the parent in an address space
      of its own, or gives back everything it took.
    - Assembly (Asm): traps from user space and in the kernel are transparent to the
      code they interrupt; [swtch] resumes the thread whose context was saved.
    - Pipes (PipeSpec): a FIFO queue that loses and duplicates nothing.
    - Formatted output (PrintfSpec, Uprintf): what the format stands for.
    - User library and programs: [memmove] (Ulib), [malloc] and [free]
      (UmallocSpec), the matcher and the loop of [grep] (Grep, GrepSpec), [cat],
      [wc] and the generator of grind (CommandsSpec), the parser of the shell (ShSpec: it terminates; it reads back what is printed).

    ** Bounds and fuel

    [cwp] bounds the number of disk requests; the heap of UmallocSpec ends below
    64 GB and a request below 2 GB; the fuel of the parser of the shell is four
    calls per character and eight more; string functions have one round for each
    byte in memory and one more, enough for every string that ends.

    ** Not modelled

    Linker scripts and prototypes: the addresses are fields of [Layout].  The C code
    and the assembly are separate models: in the former [swtch] is a move of the
    rest of the machine.  Memory is sequentially consistent: fences have no effect.  usertests.c: some sixty drivers that print
    a verdict on the calls modelled here, with no behaviour of their own.

    The theorems on [filewrite] and [fileread] speak of one system call: the pages
    it copies are mapped, the disk has the free blocks it needs, and no other
    process changes the kernel's data where the call waits for the disk. *)

From stdpp Require Export prelude list gmap strings.
From Stdlib Require Export ZArith Lia.

#[global] Open Scope Z_scope.

(** ** Functional record update *)

(** [Eta R] exhibits a record as its constructor applied to its projections;
    [Setter] instances are computed from it. *)
Class Eta (R : Type) := eta : R → R.
Class Setter {R T : Type} (proj : R → T) := set : (T → T) → R → R.
Arguments set {R T} proj {_} _ _.

Ltac build_setter :=
  match goal with
  | |- @Setter ?R ?T ?proj =>
      let e := constr:(_ : Eta R) in
      let e := eval hnf in e in
      let f := fresh "f" in
      let r := fresh "r" in
      unfold Setter; intros f r;
      let b := eval cbv beta in (e r) in
      match b with
      | context C [proj r] => let b' := context C [f (proj r)] in exact b'
      end
  end.

#[global] Hint Extern 1 (Setter _) => build_setter : typeclass_instances.

Declare Scope xv6_scope.
#[global] Open Scope xv6_scope.
Notation "s <| f := v |>" := (set f (fun _ => v) s)
  (at level 1, left associativity, f at level 9, v at level 200,
   format "s <| f  :=  v |>") : xv6_scope.
Notation "s <| f ::= g |>" := (set f g s)
  (at level 1, left associativity, f at level 9, g at level 200,
   format "s <| f  ::=  g |>") : xv6_scope.


(** ** Machine integers

    A C object of width [w] is an integer kept in range by an explicit wrap. *)

Definition u8 (z : Z) : Z := z mod 256.
Definition u16 (z : Z) : Z := z mod 65536.
Definition u32 (z : Z) : Z := z mod 4294967296.
Definition u64 (z : Z) : Z := z mod 18446744073709551616.
Definition i16 (z : Z) : Z := (z + 32768) mod 65536 - 32768.
Definition i32 (z : Z) : Z := (z + 2147483648) mod 4294967296 - 2147483648.
Definition i64 (z : Z) : Z :=
  (z + 9223372036854775808) mod 18446744073709551616 - 9223372036854775808.

(** [lia] for goals with division and remainder by constants. *)
Ltac zlia := Z.to_euclidean_division_equations; lia.

(** C truth values. *)
Definition b2z (b : bool) : Z := if b then 1 else 0.

Lemma u8_range z : 0 <= u8 z < 256.
Proof. unfold u8. zlia. Qed.
Lemma u16_range z : 0 <= u16 z < 65536.
Proof. unfold u16. zlia. Qed.
Lemma u32_range z : 0 <= u32 z < 4294967296.
Proof. unfold u32. zlia. Qed.
Lemma u64_range z : 0 <= u64 z < 18446744073709551616.
Proof. unfold u64. zlia. Qed.

Lemma u8_small z : 0 <= z < 256 → u8 z = z.
Proof. intros. by apply Z.mod_small. Qed.
Lemma u16_small z : 0 <= z < 65536 → u16 z = z.
Proof. intros. by apply Z.mod_small. Qed.
Lemma u32_small z : 0 <= z < 4294967296 → u32 z = z.
Proof. intros. by apply Z.mod_small. Qed.
Lemma u64_small z : 0 <= z < 18446744073709551616 → u64 z = z.
Proof. intros. by apply Z.mod_small. Qed.
Lemma i32_small z : -2147483648 <= z < 2147483648 → i32 z = z.
Proof. intros. unfold i32. rewrite Z.mod_small; lia. Qed.
Lemma i16_small z : -32768 <= z < 32768 → i16 z = z.
Proof. intros. unfold i16. rewrite Z.mod_small; lia. Qed.

(** Closes range and wrap-around goals about machine integers. *)
Ltac mach := unfold u8, u16, u32, u64, i16, i32, i64 in *; zlia.

(** ** Little-endian byte sequences *)

Fixpoint le_bytes (n : nat) (v : Z) : list Z :=
  match n with
  | O => []
  | S n' => v mod 256 :: le_bytes n' (v / 256)
  end.

Fixpoint le_val (bs : list Z) : Z :=
  match bs with
  | [] => 0
  | b :: bs' => b + 256 * le_val bs'
  end.

(** A byte list: every element is an unsigned char. *)
Definition bytes_ok (bs : list Z) : Prop := Forall (λ b, 0 <= b < 256) bs.

Lemma length_le_bytes n v : length (le_bytes n v) = n.
Proof. revert v. induction n as [|n IH]; intros v; simpl; [done|]. by rewrite IH. Qed.

Lemma le_bytes_ok n v : bytes_ok (le_bytes n v).
Proof.
  revert v. induction n as [|n IH]; intros v; simpl; constructor; [zlia|apply IH].
Qed.

Lemma le_val_bytes n v : le_val (le_bytes n v) = v mod 256 ^ Z.of_nat n.
Proof.
  revert v. induction n as [|n IH]; intros v; [simpl; by rewrite Z.mod_1_r|].
  cbn [le_bytes le_val]. rewrite IH.
  replace (Z.of_nat (S n)) with (1 + Z.of_nat n) by lia.
  rewrite Z.pow_add_r, Z.pow_1_r by lia.
  rewrite Z.rem_mul_r by (try apply Z.pow_pos_nonneg; lia). lia.
Qed.

Lemma le_val_range bs : bytes_ok bs → 0 <= le_val bs < 256 ^ Z.of_nat (length bs).
Proof.
  induction 1 as [|b bs Hb _ IH]; [simpl; lia|].
  cbn [le_val length]. rewrite Nat2Z.inj_succ, Z.pow_succ_r by lia. lia.
Qed.

Lemma le_bytes_val bs : bytes_ok bs → le_bytes (length bs) (le_val bs) = bs.
Proof.
  induction 1 as [|b bs Hb Hbs IH]; [done|]. cbn [le_val length le_bytes].
  replace (b + 256 * le_val bs) with (b + le_val bs * 256) by lia.
  rewrite Z.mod_add, Z.div_add by lia.
  rewrite Z.mod_small, Z.div_small by lia. by rewrite Z.add_0_l, IH.
Qed.

(** ** Byte-addressed memory *)

Abbreviation memory := (gmap Z Z).

(** A byte that was never written reads as zero. *)
Definition ld8 (m : memory) (a : Z) : Z := default 0 (m !! a).
Definition st8 (m : memory) (a v : Z) : memory := <[a := u8 v]> m.

Fixpoint ldn (m : memory) (a : Z) (n : nat) : list Z :=
  match n with
  | O => []
  | S n' => ld8 m a :: ldn m (a + 1) n'
  end.

Fixpoint stn (m : memory) (a : Z) (bs : list Z) : memory :=
  match bs with
  | [] => m
  | b :: bs' => stn (st8 m a b) (a + 1) bs'
  end.

Definition ld32 (m : memory) (a : Z) : Z := le_val (ldn m a 4).
Definition st32 (m : memory) (a v : Z) : memory := stn m a (le_bytes 4 v).
Definition ld64 (m : memory) (a : Z) : Z := le_val (ldn m a 8).
Definition st64 (m : memory) (a v : Z) : memory := stn m a (le_bytes 8 v).

Definition mem_ok (m : memory) : Prop := map_Forall (λ _ b, 0 <= b < 256) m.

Lemma ld8_st8 m a v x : ld8 (st8 m a v) x = if decide (a = x) then u8 v else ld8 m x.
Proof. unfold ld8, st8. rewrite lookup_insert. by case_decide. Qed.

Lemma ld8_range m a : mem_ok m → 0 <= ld8 m a < 256.
Proof.
  intros H. unfold ld8. destruct (m !! a) as [b|] eqn:E; simpl; [|lia].
  by apply (H a).
Qed.

Lemma st8_ok m a v : mem_ok m → mem_ok (st8 m a v).
Proof. intros H. apply map_Forall_insert_2; [apply u8_range|done]. Qed.

Lemma stn_ok m a bs : mem_ok m → mem_ok (stn m a bs).
Proof.
  revert m a. induction bs as [|b bs IH]; intros m a H; simpl; [done|].
  by apply IH, st8_ok.
Qed.

Lemma length_ldn m a n : length (ldn m a n) = n.
Proof. revert a. induction n as [|n IH]; intros a; simpl; [done|]. by rewrite IH. Qed.

Lemma ldn_app m a n k : ldn m a (n + k) = ldn m a n ++ ldn m (a + Z.of_nat n) k.
Proof.
  revert a. induction n as [|n IH]; intros a; cbn [Nat.add ldn app]; [by rewrite Z.add_0_r|].
  rewrite IH. do 3 f_equal. lia.
Qed.

Lemma ldn_ok m a n : mem_ok m → bytes_ok (ldn m a n).
Proof.
  intros H. revert a. induction n as [|n IH]; intros a; constructor; [|apply IH].
  by apply ld8_range.
Qed.

(** Reading one byte after writing a block. *)
Lemma ld8_stn m a bs x :
  ld8 (stn m a bs) x =
    if decide (a <= x < a + Z.of_nat (length bs))
    then u8 (bs !!! Z.to_nat (x - a)) else ld8 m x.
Proof.
  revert m a. induction bs as [|b bs IH]; intros m a; cbn [stn length].
  { rewrite decide_False; [done|lia]. }
  rewrite IH. destruct (decide (a = x)) as [->|Hne].
  - rewrite decide_False, decide_True by lia. rewrite ld8_st8, decide_True by done.
    by replace (x - x) with 0 by lia.
  - destruct (decide (a + 1 <= x < a + 1 + Z.of_nat (length bs))).
    + rewrite decide_True by lia.
      replace (Z.to_nat (x - a)) with (S (Z.to_nat (x - (a + 1)))) by lia. done.
    + rewrite decide_False by lia. by rewrite ld8_st8, decide_False.
Qed.

Lemma ld8_stn_ne m a bs x :
  x < a ∨ a + Z.of_nat (length bs) <= x → ld8 (stn m a bs) x = ld8 m x.
Proof. intros H. rewrite ld8_stn, decide_False; [done|lia]. Qed.

(** Two memories with the same bytes on a range read the same block there. *)
Lemma ldn_ext m1 m2 a n :
  (∀ x, a <= x < a + Z.of_nat n → ld8 m1 x = ld8 m2 x) → ldn m1 a n = ldn m2 a n.
Proof.
  revert a. induction n as [|n IH]; intros a H; simpl; [done|].
  f_equal; [apply H; lia|]. apply IH. intros; apply H; lia.
Qed.

Lemma ldn_stn_ne m a bs b n :
  b + Z.of_nat n <= a ∨ a + Z.of_nat (length bs) <= b →
  ldn (stn m a bs) b n = ldn m b n.
Proof. intros H. apply ldn_ext. intros x Hx. apply ld8_stn_ne. lia. Qed.

Lemma lookup_ldn m a n i :
  (i < n)%nat → ldn m a n !! i = Some (ld8 m (a + Z.of_nat i)).
Proof.
  revert a i. induction n as [|n IH]; intros a i Hi; [lia|].
  destruct i as [|i]; simpl.
  - by rewrite Z.add_0_r.
  - rewrite IH by lia. do 2 f_equal. lia.
Qed.

Lemma ldn_stn_eq m a bs : bytes_ok bs → ldn (stn m a bs) a (length bs) = bs.
Proof.
  intros Hok. apply list_eq. intros i.
  destruct (decide (i < length bs)%nat) as [Hi|Hi].
  - rewrite lookup_ldn by done. rewrite ld8_stn, decide_True by lia.
    replace (Z.to_nat (a + Z.of_nat i - a)) with i by lia.
    destruct (lookup_lt_is_Some_2 bs i Hi) as [b Hb].
    rewrite (list_lookup_total_correct _ _ _ Hb), Hb. f_equal.
    apply u8_small. eapply Forall_lookup_1 in Hb; [|done]. done.
  - rewrite !lookup_ge_None_2; [done| |]; rewrite ?length_ldn; lia.
Qed.

Lemma ld64_st64_eq m a v : ld64 (st64 m a v) a = u64 v.
Proof.
  unfold ld64, st64.
  pose proof (ldn_stn_eq m a (le_bytes 8 v) (le_bytes_ok 8 v)) as H.
  rewrite length_le_bytes in H. rewrite H. rewrite le_val_bytes. done.
Qed.

Lemma ld64_st64_ne m a v b :
  b + 8 <= a ∨ a + 8 <= b → ld64 (st64 m a v) b = ld64 m b.
Proof.
  intros H. unfold ld64, st64. rewrite ldn_stn_ne; [done|].
  rewrite length_le_bytes. lia.
Qed.

Lemma ld64_stn_ne m a bs b :
  b + 8 <= a ∨ a + Z.of_nat (length bs) <= b → ld64 (stn m a bs) b = ld64 m b.
Proof. intros H. unfold ld64. rewrite ldn_stn_ne; [done|lia]. Qed.

Lemma ld64_range m a : mem_ok m → 0 <= ld64 m a < 18446744073709551616.
Proof.
  intros H. unfold ld64.
  pose proof (le_val_range _ (ldn_ok m a 8 H)) as R. by rewrite length_ldn in R.
Qed.

(** Memories that read the same everywhere. *)
Definition mem_equiv (m1 m2 : memory) : Prop := ∀ a, ld8 m1 a = ld8 m2 a.
Infix "≡ₘ" := mem_equiv (at level 70) : xv6_scope.

#[export] Instance mem_equiv_equivalence : Equivalence mem_equiv.
Proof.
  split.
  - intros m a. done.
  - intros m1 m2 H a. by rewrite H.
  - intros m1 m2 m3 H1 H2 a. by rewrite H1, H2.
Qed.

#[export] Instance ld8_proper : Proper (mem_equiv ==> eq ==> eq) ld8.
Proof. intros m1 m2 H a ? <-. apply H. Qed.

#[export] Instance ldn_proper : Proper (mem_equiv ==> eq ==> eq ==> eq) ldn.
Proof. intros m1 m2 H a ? <- n ? <-. apply ldn_ext. intros x _. apply H. Qed.

#[export] Instance ld64_proper : Proper (mem_equiv ==> eq ==> eq) ld64.
Proof. intros m1 m2 H a ? <-. unfold ld64. by rewrite H. Qed.

#[export] Instance st8_proper : Proper (mem_equiv ==> eq ==> eq ==> mem_equiv) st8.
Proof. intros m1 m2 H a ? <- v ? <- x. rewrite !ld8_st8. by case_decide. Qed.

#[export] Instance stn_proper : Proper (mem_equiv ==> eq ==> eq ==> mem_equiv) stn.
Proof. intros m1 m2 H a ? <- bs ? <- x. rewrite !ld8_stn. by case_decide. Qed.

(** ** Bits *)

(** Clearing the low [k] bits rounds down to a multiple of [2 ^ k]. *)
Lemma land_lnot_ones x k : 0 <= k → Z.land x (Z.lnot (Z.ones k)) = x - x mod 2 ^ k.
Proof.
  intros Hk. rewrite <- Z.ldiff_land, Z.ldiff_ones_r by done.
  rewrite Z.shiftl_mul_pow2, Z.shiftr_div_pow2 by done.
  pose proof (Z.div_mod x (2 ^ k)). assert (2 ^ k ≠ 0) by (apply Z.pow_nonzero; lia).
  lia.
Qed.

(** Or-ing values whose bits do not overlap adds them. *)
Lemma lor_add_disjoint a b k :
  0 <= k → 0 <= b < 2 ^ k → Z.lor (a * 2 ^ k) b = a * 2 ^ k + b.
Proof.
  intros Hk Hb. symmetry. rewrite <- Z.shiftl_mul_pow2 by done.
  rewrite <- Z.add_lor_land.
  assert (Z.land (a ≪ k) b = 0) as ->; [|lia].
  apply Z.bits_inj'. intros n Hn. rewrite Z.land_spec, Z.bits_0.
  destruct (decide (n < k)).
  - by rewrite Z.shiftl_spec_low.
  - destruct (decide (b = 0)) as [->|]; [by rewrite Z.bits_0, andb_false_r|].
    rewrite (Z.bits_above_log2 b n), andb_false_r; [done|lia|].
    apply Z.log2_lt_pow2; [lia|]. eapply Z.lt_le_trans; [apply Hb|].
    apply Z.pow_le_mono_r; lia.
Qed.

(** ** Lists *)

Lemma insert_id_total `{Inhabited A} (l : list A) i : <[i := l !!! i]> l = l.
Proof.
  destruct (decide (i < length l)%nat) as [Hi|Hi].
  - destruct (lookup_lt_is_Some_2 l i Hi) as [x Hx].
    rewrite (list_lookup_total_correct _ _ _ Hx). by apply list_insert_id.
  - apply list_insert_ge. lia.
Qed.

Lemma total_insert_eq `{Inhabited A} (l : list A) i x :
  (i < length l)%nat → <[i := x]> l !!! i = x.
Proof. intros. by rewrite list_lookup_total_insert_eq. Qed.

Lemma total_insert_ne `{Inhabited A} (l : list A) i j x :
  i ≠ j → <[i := x]> l !!! j = l !!! j.
Proof. intros. by rewrite list_lookup_total_insert_ne. Qed.

(** Overwriting part of a buffer, and 16- and 32-bit fields in one. *)
Definition splice (l : list Z) (off : nat) (bs : list Z) : list Z :=
  take off l ++ bs ++ drop (off + length bs) l.
Definition get16 (l : list Z) (off : nat) : Z := le_val (take 2 (drop off l)).
Definition get32 (l : list Z) (off : nat) : Z := le_val (take 4 (drop off l)).
Definition put16 (l : list Z) (off : nat) (v : Z) : list Z := splice l off (le_bytes 2 v).
Definition put32 (l : list Z) (off : nat) (v : Z) : list Z := splice l off (le_bytes 4 v).

Lemma length_splice l off bs :
  (off + length bs <= length l)%nat → length (splice l off bs) = length l.
Proof. intros. unfold splice. rewrite !length_app, length_take, length_drop. lia. Qed.

(** A window of a spliced buffer: the new bytes, or the old ones outside it. *)
Lemma take_drop_splice_eq l off bs :
  (off <= length l)%nat → take (length bs) (drop off (splice l off bs)) = bs.
Proof.
  intros. unfold splice. rewrite drop_app_length' by (rewrite length_take; lia).
  by rewrite take_app_length.
Qed.

Lemma lookup_splice l off bs i :
  (off <= length l)%nat →
  splice l off bs !! i =
  if decide (off <= i < off + length bs)%nat then bs !! (i - off)%nat else l !! i.
Proof.
  intros. unfold splice. case_decide as Hd.
  - rewrite lookup_app_r by (rewrite length_take; lia).
    rewrite lookup_app_l by (rewrite length_take; lia).
    f_equal. rewrite length_take. lia.
  - destruct (decide (i < off)%nat).
    + rewrite lookup_app_l by (rewrite length_take; lia). by apply lookup_take_lt.
    + rewrite !lookup_app_r by (rewrite ?length_take; lia).
      rewrite length_take, lookup_drop. f_equal. lia.
Qed.

Lemma take_drop_splice_ne l off bs o n :
  (off + length bs <= length l)%nat → (o + n <= off \/ off + length bs <= o)%nat →
  take n (drop o (splice l off bs)) = take n (drop o l).
Proof.
  intros Hl Hd. apply list_eq. intros i. destruct (decide (i < n)%nat).
  - rewrite !lookup_take_lt, !lookup_drop, lookup_splice by lia.
    rewrite decide_False by lia. done.
  - rewrite !lookup_take_ge by lia. done.
Qed.

(** Fields of a buffer. *)
Lemma length_put32 l off v : (off + 4 <= length l)%nat → length (put32 l off v) = length l.
Proof. intros. unfold put32. by apply length_splice. Qed.

Lemma get32_put32_eq l off v : (off + 4 <= length l)%nat → get32 (put32 l off v) off = u32 v.
Proof.
  intros. unfold get32, put32. change 4%nat with (length (le_bytes 4 v)) at 1.
  rewrite take_drop_splice_eq by lia. by rewrite le_val_bytes.
Qed.

Lemma get32_put32_ne l off v o :
  (off + 4 <= length l)%nat → (o + 4 <= off ∨ off + 4 <= o)%nat → get32 (put32 l off v) o = get32 l o.
Proof. intros. unfold get32, put32. rewrite take_drop_splice_ne; [done|done|done]. Qed.

Lemma i32_u32 v : - 2147483648 <= v < 2147483648 → i32 (u32 v) = v.
Proof. intros. unfold i32, u32. zlia. Qed.

(** Hints shared by the components. *)
Create HintDb xv6.
Create Rewrite HintDb len.
#[export] Hint Resolve u8_range u16_range u32_range u64_range le_bytes_ok ldn_ok
  ld8_range st8_ok stn_ok : xv6.
#[export] Hint Rewrite length_le_bytes length_ldn @length_insert @length_app
  @length_replicate @length_fmap : len.

Ltac len := autorewrite with len in *; simpl length in *; lia.

(** ** String literals *)

(** The bytes of a C string literal, without the terminating NUL. *)
Fixpoint bytes_of (s : string) : list Z :=
  match s with
  | EmptyString => []
  | String c s' => Z.of_N (Ascii.N_of_ascii c) :: bytes_of s'
  end.
