(* ===== verification/Monad.v ===== *)
(** The monad in which the C code is written: explicit state, panics, and
    waiting.

    A computation runs on one hart (or in one process) from a state [s].  The
    list [e] holds what the rest of the machine does while the computation
    waits: each time the code spins on a lock, polls a device or sleeps, it
    consumes one element, a state transformer.  A computation that waits when
    [e] is empty never returns ([Stuck]). *)

From S2P Require Export Prelude.

Inductive outcome (S A : Type) :=
| Ok (a : A) (s : S) (e : list (S → S))
| Panic (msg : string) (s : S)
| Stuck (s : S).
Arguments Ok {S A} a s e.
Arguments Panic {S A} msg s.
Arguments Stuck {S A} s.

Definition M (S A : Type) : Type := S → list (S → S) → outcome S A.

#[global] Instance M_ret S : MRet (M S) := λ A a s e, Ok a s e.
#[global] Instance M_bind S : MBind (M S) := λ A B k m s e,
  match m s e with
  | Ok a s' e' => k a s' e'
  | Panic msg s' => Panic msg s'
  | Stuck s' => Stuck s'
  end.

Section ops.
Context {S : Type}.

Definition gets {A} (f : S → A) : M S A := λ s e, Ok (f s) s e.
Definition modify (f : S → S) : M S unit := λ s e, Ok tt (f s) e.
Definition panic {A} (msg : string) : M S A := λ s _, Panic msg s.
Definition stuck {A} : M S A := λ s _, Stuck s.

(** Let the rest of the machine make its next move. *)
Definition interfere : M S unit := λ s e,
  match e with
  | [] => Stuck s
  | f :: e' => Ok tt (f s) e'
  end.

Definition when (b : bool) (m : M S unit) : M S unit := if b then m else mret ().

(** [for(i = i0; n times; i++) body] with no early exit. *)
Fixpoint for_each (n i : nat) (body : nat → M S unit) : M S unit :=
  match n with
  | O => mret ()
  | Datatypes.S n' => body i;; for_each n' (Datatypes.S i) body
  end.

(** [for(i = i0; n times; i++) body], where [Some a] leaves the loop. *)
Fixpoint for_break {A} (n i : nat) (body : nat → M S (option A)) : M S (option A) :=
  match n with
  | O => mret None
  | Datatypes.S n' =>
      r ← body i;
      match r with
      | Some a => mret (Some a)
      | None => for_break n' (Datatypes.S i) body
      end
  end.

(** A loop with local state [x]: [inl] goes round again, [inr] leaves. *)
Fixpoint loop {X A} (fuel : nat) (body : X → M S (X + A)) (x : X) : M S A :=
  match fuel with
  | O => stuck
  | Datatypes.S fuel' =>
      r ← body x;
      match r with
      | inl x' => loop fuel' body x'
      | inr a => mret a
      end
  end.

(** A loop each of whose rounds waits: there are at most as many rounds as the
    rest of the machine has moves left. *)
Definition wait_loop {A} (body : M S (option A)) : M S A := λ s e,
  loop (Datatypes.S (length e))
    (λ _ : unit, r ← body; mret match r with Some a => inr a | None => inl () end)
    () s e.

(** A loop with local state, at most [n] of whose rounds do not wait. *)
Definition loop_wait {X A} (n : nat) (body : X → M S (X + A)) (x : X) : M S A := λ s e,
  loop (Datatypes.S (n + length e)) body x s e.

(** Total correctness: [m] returns, without panicking, and satisfies [Q]. *)
Definition wp {A} (m : M S A) (s : S) (e : list (S → S))
    (Q : A → S → list (S → S) → Prop) : Prop :=
  match m s e with
  | Ok a s' e' => Q a s' e'
  | _ => False
  end.

Lemma wp_ret {A} (a : A) s e (Q : A → S → list (S → S) → Prop) : Q a s e → wp (mret a) s e Q.
Proof. done. Qed.

Lemma wp_bind {A B} (m : M S A) (k : A → M S B) s e (Q : B → S → list (S → S) → Prop) :
  wp m s e (λ a s' e', wp (k a) s' e' Q) → wp (m ≫= k) s e Q.
Proof. unfold wp, mbind, M_bind. by destruct (m s e). Qed.

Lemma wp_mono {A} (m : M S A) s e (P Q : A → S → list (S → S) → Prop) :
  wp m s e P → (∀ a s' e', P a s' e' → Q a s' e') → wp m s e Q.
Proof. unfold wp. intros H HPQ. destruct (m s e); eauto. Qed.

Lemma wp_Ok {A} (m : M S A) s e (Q : A → S → list (S → S) → Prop) :
  wp m s e Q ↔ ∃ a s' e', m s e = Ok a s' e' ∧ Q a s' e'.
Proof.
  unfold wp. split.
  - destruct (m s e) as [a s' e'| |]; [|done..]. eauto.
  - intros (a & s' & e' & -> & H). done.
Qed.

Lemma bind_Ok {A B} (m : M S A) (k : A → M S B) s e a s' e' :
  m s e = Ok a s' e' → (m ≫= k) s e = k a s' e'.
Proof. unfold mbind, M_bind. by intros ->. Qed.

Lemma bind_Panic {A B} (m : M S A) (k : A → M S B) s e msg s' :
  m s e = Panic msg s' → (m ≫= k) s e = Panic msg s'.
Proof. unfold mbind, M_bind. by intros ->. Qed.

Lemma bind_ret {A B} (a : A) (k : A → M S B) s e : (mret a ≫= k) s e = k a s e.
Proof. done. Qed.

Lemma bind_gets {A B} (f : S → A) (k : A → M S B) s e : (gets f ≫= k) s e = k (f s) s e.
Proof. done. Qed.

Lemma bind_modify {B} (f : S → S) (k : unit → M S B) s e :
  (modify f ≫= k) s e = k () (f s) e.
Proof. done. Qed.

Lemma bind_assoc {A B C} (m : M S A) (f : A → M S B) (g : B → M S C) s e :
  ((m ≫= f) ≫= g) s e = (m ≫= λ a, f a ≫= g) s e.
Proof. unfold mbind, M_bind. by destruct (m s e). Qed.

Lemma bind_panic {A B} msg (k : A → M S B) s e : (panic msg ≫= k) s e = Panic msg s.
Proof. done. Qed.

(** Loop rules: an invariant indexed by the loop counter. *)
Lemma wp_for_each n i body s e (I : nat → S → list (S → S) → Prop) :
  I i s e →
  (∀ j s e, (i <= j < i + n)%nat → I j s e →
     wp (body j) s e (λ _ s' e', I (Datatypes.S j) s' e')) →
  wp (for_each n i body) s e (λ _ s' e', I (i + n)%nat s' e').
Proof.
  revert i s e. induction n as [|n IH]; intros i s e HI Hb; cbn [for_each].
  - apply wp_ret. by rewrite Nat.add_0_r.
  - apply wp_bind. eapply wp_mono; [apply Hb; [lia|done]|].
    intros ? s' e' H. rewrite <- Nat.add_succ_comm. apply IH; [done|].
    intros j s1 e1 Hj. apply Hb. lia.
Qed.

Lemma wp_for_break {A} n i body s e (I : nat → S → list (S → S) → Prop)
    (Q : option A → S → list (S → S) → Prop) :
  I i s e →
  (∀ j s e, (i <= j < i + n)%nat → I j s e →
     wp (body j) s e (λ r s' e',
       match r with Some a => Q (Some a) s' e' | None => I (Datatypes.S j) s' e' end)) →
  (∀ s e, I (i + n)%nat s e → Q None s e) →
  wp (for_break n i body) s e Q.
Proof.
  revert i s e. induction n as [|n IH]; intros i s e HI Hb HQ; cbn [for_break].
  - apply wp_ret, HQ. by rewrite Nat.add_0_r.
  - apply wp_bind. eapply wp_mono; [apply Hb; [lia|done]|].
    intros [a|] s' e' H; [done|]. apply IH; [done| |].
    + intros j s1 e1 Hj. apply Hb. lia.
    + intros s1 e1. rewrite Nat.add_succ_comm. apply HQ.
Qed.

(** A loop whose measure decreases on every round leaves within its fuel. *)
Lemma wp_loop {X A} (body : X → M S (X + A)) (mu : X → nat) (I : X → S → list (S → S) → Prop)
    fuel x s e (Q : A → S → list (S → S) → Prop) :
  (mu x < fuel)%nat → I x s e →
  (∀ x s e, I x s e →
     wp (body x) s e (λ r s' e',
       match r with
       | inl x' => (mu x' < mu x)%nat ∧ I x' s' e'
       | inr a => Q a s' e'
       end)) →
  wp (loop fuel body x) s e Q.
Proof.
  intros Hmu HI Hb. revert Hmu HI. revert x s e.
  induction fuel as [|fuel IH]; intros x s e Hmu HI; [lia|].
  cbn [loop]. apply wp_bind. eapply wp_mono; [by apply Hb|].
  intros [x'|a] s' e'; [|done]. intros [Hlt HI']. apply IH; [lia|done].
Qed.

Lemma wait_loop_now {A} (body : M S (option A)) s e a s' e' :
  body s e = Ok (Some a) s' e' → wait_loop body s e = Ok a s' e'.
Proof. intros H. unfold wait_loop. cbn [loop]. unfold mbind, M_bind. by rewrite H. Qed.

Lemma wait_loop_again {A} (body : M S (option A)) s s1 f e :
  body s (f :: e) = Ok None s1 e → wait_loop body s (f :: e) = wait_loop body s1 e.
Proof. intros H. unfold wait_loop. cbn [loop length]. unfold mbind, M_bind. by rewrite H. Qed.

Lemma wait_loop_stuck {A} (body : M S (option A)) s e s' :
  body s e = Stuck s' → wait_loop body s e = Stuck s'.
Proof. intros H. unfold wait_loop. cbn [loop]. unfold mbind, M_bind. by rewrite H. Qed.

Lemma bind_Stuck {A B} (m : M S A) (k : A → M S B) s e s' :
  m s e = Stuck s' → (m ≫= k) s e = Stuck s'.
Proof. intros H. unfold mbind, M_bind. by rewrite H. Qed.

Lemma bind_ext {A B} (m : M S A) (k k' : A → M S B) s e :
  (∀ a s' e', k a s' e' = k' a s' e') → (m ≫= k) s e = (m ≫= k') s e.
Proof. intros H. unfold mbind, M_bind. destruct (m s e); [apply H|done..]. Qed.

End ops.

(** Reduce the head of a monadic computation that only reads or writes. *)
Ltac mred :=
  repeat first
    [ rewrite bind_assoc | rewrite bind_gets | rewrite bind_modify | rewrite bind_ret
    | rewrite bind_panic ].
