(* ===== verification/Machine.v ===== *)
(** Constants and address arithmetic: kernel/param.h, kernel/memlayout.h, the
    page-table macros of kernel/riscv.h, and the constants that the kernel shares
    with user programs. *)

From S2P Require Export Prelude.

(** ** kernel/param.h *)

Definition NPROC : nat := 64.
Definition NCPU : nat := 8.
Definition NOFILE : nat := 16.
Definition NFILE : nat := 100.
Definition NINODE : nat := 50.
Definition NDEV : Z := 10.
Definition ROOTDEV : Z := 1.
Definition MAXARG : Z := 32.
Definition MAXOPBLOCKS : Z := 10.
Definition LOGBLOCKS : Z := MAXOPBLOCKS * 3.
Definition NBUF : nat := 30.
Definition FSSIZE : Z := 2000.
Definition MAXPATH : Z := 128.
Definition USERSTACK : Z := 1.

(** ** kernel/fcntl.h, kernel/stat.h, kernel/vm.h, kernel/fs.h *)

Definition O_RDONLY : Z := 0.
Definition O_WRONLY : Z := 1.
Definition O_RDWR : Z := 2.
Definition O_CREATE : Z := 512.
Definition O_TRUNC : Z := 1024.

Definition T_DIR : Z := 1.
Definition T_FILE : Z := 2.
Definition T_DEVICE : Z := 3.

Definition SBRK_EAGER : Z := 1.
Definition SBRK_LAZY : Z := 2.
Definition DIRSIZ : Z := 14.

(** ** kernel/riscv.h: pages and page-table entries *)

Definition PGSIZE : Z := 4096.
Definition PGSHIFT : Z := 12.

(** The operands are 64-bit: the addition wraps, and [~(PGSIZE-1)], an [int],
    is sign-extended. *)
Definition PGROUNDUP (sz : Z) : Z := Z.land (u64 (sz + PGSIZE - 1)) (u64 (Z.lnot (PGSIZE - 1))).
Definition PGROUNDDOWN (a : Z) : Z := Z.land a (u64 (Z.lnot (PGSIZE - 1))).

Definition PTE_V : Z := Z.shiftl 1 0.
Definition PTE_R : Z := Z.shiftl 1 1.
Definition PTE_W : Z := Z.shiftl 1 2.
Definition PTE_X : Z := Z.shiftl 1 3.
Definition PTE_U : Z := Z.shiftl 1 4.

Definition PA2PTE (pa : Z) : Z := u64 (Z.shiftl (Z.shiftr pa 12) 10).
Definition PTE2PA (pte : Z) : Z := u64 (Z.shiftl (Z.shiftr pte 10) 12).
Definition PTE_FLAGS (pte : Z) : Z := Z.land pte 1023.

Definition PXMASK : Z := 511.
Definition PXSHIFT (level : Z) : Z := PGSHIFT + 9 * level.
Definition PX (level va : Z) : Z := Z.land (Z.shiftr va (PXSHIFT level)) PXMASK.

Definition MAXVA : Z := Z.shiftl 1 (9 + 9 + 9 + 12 - 1).

Definition SATP_SV39 : Z := Z.shiftl 8 60.
Definition MAKE_SATP (pagetable : Z) : Z := Z.lor SATP_SV39 (Z.shiftr pagetable 12).

(** ** kernel/riscv.h: control register bits *)

Definition MSTATUS_MPP_MASK : Z := Z.shiftl 3 11.
Definition MSTATUS_MPP_M : Z := Z.shiftl 3 11.
Definition MSTATUS_MPP_S : Z := Z.shiftl 1 11.
Definition MSTATUS_MPP_U : Z := Z.shiftl 0 11.
Definition SSTATUS_SPP : Z := Z.shiftl 1 8.
Definition SSTATUS_SPIE : Z := Z.shiftl 1 5.
Definition SSTATUS_UPIE : Z := Z.shiftl 1 4.
Definition SSTATUS_SIE : Z := Z.shiftl 1 1.
Definition SSTATUS_UIE : Z := Z.shiftl 1 0.
Definition SIE_SEIE : Z := Z.shiftl 1 9.
Definition SIE_STIE : Z := Z.shiftl 1 5.
Definition MIE_STIE : Z := Z.shiftl 1 5.

(** ** kernel/memlayout.h *)

Definition UART0 : Z := 268435456.
Definition UART0_IRQ : Z := 10.
Definition VIRTIO0 : Z := 268439552.
Definition VIRTIO0_IRQ : Z := 1.
Definition PLIC : Z := 201326592.
Definition PLIC_PRIORITY : Z := PLIC + 0.
Definition PLIC_PENDING : Z := PLIC + 4096.
Definition PLIC_SENABLE (hart : Z) : Z := PLIC + 8320 + hart * 256.
Definition PLIC_SPRIORITY (hart : Z) : Z := PLIC + 2101248 + hart * 8192.
Definition PLIC_SCLAIM (hart : Z) : Z := PLIC + 2101252 + hart * 8192.
Definition KERNBASE : Z := 2147483648.
Definition PHYSTOP : Z := KERNBASE + 128 * 1024 * 1024.
Definition TRAMPOLINE : Z := MAXVA - PGSIZE.
Definition KSTACK (p : Z) : Z := TRAMPOLINE - (p + 1) * 2 * PGSIZE.
Definition TRAPFRAME : Z := TRAMPOLINE - PGSIZE.

(** ** Arithmetic facts *)

Lemma PGSIZE_val : PGSIZE = 4096.
Proof. done. Qed.
Lemma MAXVA_val : MAXVA = 274877906944.
Proof. done. Qed.
Lemma PHYSTOP_val : PHYSTOP = 2281701376.
Proof. done. Qed.
Lemma KERNBASE_val : KERNBASE = 2147483648.
Proof. done. Qed.
Lemma TRAMPOLINE_val : TRAMPOLINE = 274877902848.
Proof. done. Qed.
Lemma TRAPFRAME_val : TRAPFRAME = 274877898752.
Proof. done. Qed.

(** Replaces the layout constants by their values. *)
Ltac consts :=
  rewrite ?PGSIZE_val, ?MAXVA_val, ?PHYSTOP_val, ?KERNBASE_val, ?TRAMPOLINE_val,
    ?TRAPFRAME_val in *.

(** Masking with the sign-extended page mask rounds down to a page. *)
Lemma land_pagemask x :
  0 <= x < 18446744073709551616 → Z.land x (u64 (Z.lnot (PGSIZE - 1))) = x - x mod 4096.
Proof.
  intros Hx.
  replace (u64 (Z.lnot (PGSIZE - 1))) with (Z.land (Z.lnot (Z.ones 12)) (Z.ones 64))
    by reflexivity.
  rewrite Z.land_assoc, land_lnot_ones by lia. change (2 ^ 12) with 4096.
  rewrite Z.land_ones by lia. apply Z.mod_small. change (2 ^ 64) with 18446744073709551616.
  zlia.
Qed.

Lemma PGROUNDDOWN_spec a :
  0 <= a < 18446744073709551616 → PGROUNDDOWN a = a - a mod 4096.
Proof. apply land_pagemask. Qed.

Lemma PGROUNDUP_spec sz :
  0 <= sz < 18446744073709551616 - 4095 →
  PGROUNDUP sz = (sz + 4095) - (sz + 4095) mod 4096.
Proof.
  intros H. unfold PGROUNDUP. rewrite land_pagemask by apply u64_range.
  rewrite u64_small; consts; [|lia]. by replace (sz + 4096 - 1) with (sz + 4095) by lia.
Qed.

(** A size in the last, partial page of the address space wraps to zero. *)
Lemma PGROUNDUP_wrap sz :
  18446744073709551616 - 4095 <= sz < 18446744073709551616 → PGROUNDUP sz = 0.
Proof.
  intros H. unfold PGROUNDUP. rewrite land_pagemask by apply u64_range.
  assert (u64 (sz + PGSIZE - 1) = sz + 4095 - 18446744073709551616) as ->
    by (consts; mach). zlia.
Qed.

Lemma PX_spec level va :
  0 <= level → 0 <= va → PX level va = (va / 2 ^ (12 + 9 * level)) mod 512.
Proof.
  intros Hl Hv. unfold PX, PXSHIFT, PXMASK, PGSHIFT.
  rewrite Z.shiftr_div_pow2 by lia. change 511 with (Z.ones 9). by rewrite Z.land_ones.
Qed.

Lemma PX_range level va : 0 <= PX level va < 512.
Proof.
  unfold PX, PXMASK. change 511 with (Z.ones 9). rewrite Z.land_ones by lia.
  change (2 ^ 9) with 512. zlia.
Qed.

(** The three indices and the page offset determine a virtual address. *)
Lemma va_decompose va :
  0 <= va < MAXVA →
  va = PX 2 va * 1073741824 + PX 1 va * 2097152 + PX 0 va * 4096 + va mod 4096.
Proof.
  intros H. consts. rewrite !PX_spec by lia. simpl (2 ^ _). zlia.
Qed.

Lemma PX_inj va1 va2 :
  0 <= va1 < MAXVA → 0 <= va2 < MAXVA → va1 mod 4096 = 0 → va2 mod 4096 = 0 →
  PX 2 va1 = PX 2 va2 → PX 1 va1 = PX 1 va2 → PX 0 va1 = PX 0 va2 → va1 = va2.
Proof.
  intros H1 H2 A1 A2 E2 E1 E0.
  rewrite (va_decompose va1 H1), (va_decompose va2 H2). congruence.
Qed.

Lemma PA2PTE_spec pa : 0 <= pa < 2 ^ 56 → PA2PTE pa = (pa / 4096) * 1024.
Proof.
  intros H. unfold PA2PTE. rewrite Z.shiftl_mul_pow2, Z.shiftr_div_pow2 by lia.
  change (2 ^ 12) with 4096. change (2 ^ 10) with 1024. apply u64_small.
  change (2 ^ 56) with 72057594037927936 in H. zlia.
Qed.

Lemma PTE2PA_spec pte : 0 <= pte < 2 ^ 54 → PTE2PA pte = (pte / 1024) * 4096.
Proof.
  intros H. unfold PTE2PA. rewrite Z.shiftl_mul_pow2, Z.shiftr_div_pow2 by lia.
  change (2 ^ 12) with 4096. change (2 ^ 10) with 1024. apply u64_small.
  change (2 ^ 54) with 18014398509481984 in H. zlia.
Qed.

(** A leaf entry built from a page address and flag bits. *)
Lemma pte_lor pa flags :
  0 <= pa < 2 ^ 56 → 0 <= flags < 1024 →
  Z.lor (PA2PTE pa) flags = (pa / 4096) * 1024 + flags.
Proof.
  intros Hpa Hf. rewrite PA2PTE_spec by done. by apply (lor_add_disjoint _ _ 10).
Qed.

Lemma PTE2PA_lor pa flags :
  0 <= pa < 2 ^ 56 → pa mod 4096 = 0 → 0 <= flags < 1024 →
  PTE2PA (Z.lor (PA2PTE pa) flags) = pa.
Proof.
  intros Hpa Ha Hf. rewrite pte_lor by done.
  change (2 ^ 56) with 72057594037927936 in Hpa.
  rewrite PTE2PA_spec by (change (2 ^ 54) with 18014398509481984; zlia). zlia.
Qed.

Lemma PTE_FLAGS_lor pa flags :
  0 <= pa < 2 ^ 56 → 0 <= flags < 1024 → PTE_FLAGS (Z.lor (PA2PTE pa) flags) = flags.
Proof.
  intros Hpa Hf. rewrite pte_lor by done. unfold PTE_FLAGS.
  change 1023 with (Z.ones 10). rewrite Z.land_ones by lia. change (2 ^ 10) with 1024. zlia.
Qed.

(** Testing a flag of an entry looks at its low ten bits only. *)
Lemma land_flag pte f :
  0 <= f < 1024 → Z.land pte f = Z.land (PTE_FLAGS pte) f.
Proof.
  intros Hf. unfold PTE_FLAGS. rewrite <- Z.land_assoc. f_equal.
  rewrite Z.land_comm. change 1023 with (Z.ones 10). rewrite Z.land_ones by lia.
  rewrite Z.mod_small; [done|]. by change (2 ^ 10) with 1024.
Qed.
