(* ===== verification/State.v ===== *)
(** The kernel's data: the structures of kernel/*.h as records, the tables and
    globals of kernel/*.c as one state [kstate], and the monad [K] of kernel
    code over it.

    Pointers into the fixed tables ([proc], [bcache.buf], [itable.inode],
    [ftable.file], [cpus]) are table indices, with [None] for the null pointer.
    Addresses of RAM are integers into [k_mem].  Spin locks are kept in one
    table indexed by the object they are embedded in. *)

From S2P Require Export Monad Machine.

(** ** Locks (spinlock.h, sleeplock.h) *)

Record spinlock := mk_spinlock {
  sl_locked : Z;
  sl_name : string;
  sl_cpu : option nat;
}.
#[global] Instance eta_spinlock : Eta spinlock := λ l,
  mk_spinlock (sl_locked l) (sl_name l) (sl_cpu l).
#[global] Instance spinlock_inhabited : Inhabited spinlock :=
  populate (mk_spinlock 0 "" None).

(** Where a spin lock lives. *)
Inductive lockid :=
| Lkmem | Lbcache | Llog | Litable | Lftable | Lpid | Lwait | Lcons | Ltx | Lticks
| Lpr | Lvdisk
| Lproc (i : nat) | Lbuf (i : nat) | Linode (i : nat) | Lpipe (pa : Z).

#[global] Instance lockid_eq_dec : EqDecision lockid.
Proof. solve_decision. Defined.

Definition lockid_code (l : lockid) : nat * Z :=
  match l with
  | Lkmem => (0%nat, 0) | Lbcache => (1%nat, 0) | Llog => (2%nat, 0) | Litable => (3%nat, 0)
  | Lftable => (4%nat, 0) | Lpid => (5%nat, 0) | Lwait => (6%nat, 0) | Lcons => (7%nat, 0)
  | Ltx => (8%nat, 0) | Lticks => (9%nat, 0) | Lpr => (10%nat, 0) | Lvdisk => (11%nat, 0)
  | Lproc i => (12%nat, Z.of_nat i) | Lbuf i => (13%nat, Z.of_nat i)
  | Linode i => (14%nat, Z.of_nat i) | Lpipe pa => (15%nat, pa)
  end.

Definition lockid_decode (c : nat * Z) : lockid :=
  match c with
  | (0%nat, _) => Lkmem | (1%nat, _) => Lbcache | (2%nat, _) => Llog | (3%nat, _) => Litable
  | (4%nat, _) => Lftable | (5%nat, _) => Lpid | (6%nat, _) => Lwait | (7%nat, _) => Lcons
  | (8%nat, _) => Ltx | (9%nat, _) => Lticks | (10%nat, _) => Lpr | (11%nat, _) => Lvdisk
  | (12%nat, z) => Lproc (Z.to_nat z) | (13%nat, z) => Lbuf (Z.to_nat z)
  | (14%nat, z) => Linode (Z.to_nat z) | (_, z) => Lpipe z
  end.

#[global] Instance lockid_countable : Countable lockid.
Proof.
  refine (inj_countable' lockid_code lockid_decode _).
  intros []; simpl; by rewrite ?Nat2Z.id.
Defined.

Record sleeplock := mk_sleeplock {
  slk_locked : Z;
  slk_name : string;
  slk_pid : Z;
}.
#[global] Instance eta_sleeplock : Eta sleeplock := λ l,
  mk_sleeplock (slk_locked l) (slk_name l) (slk_pid l).
#[global] Instance sleeplock_inhabited : Inhabited sleeplock :=
  populate (mk_sleeplock 0 "" 0).

(** The objects whose addresses are used as sleep channels. *)
Inductive channel :=
| ChLog | ChCons | ChTx | ChTicks | ChDiskFree
| ChProc (i : nat) | ChBuf (i : nat) | ChBufLock (i : nat) | ChInodeLock (i : nat)
| ChPipeRead (pa : Z) | ChPipeWrite (pa : Z).
#[global] Instance channel_eq_dec : EqDecision channel.
Proof. solve_decision. Defined.

(** ** Processes and CPUs (proc.h) *)

Record context := mk_context {
  ctx_ra : Z;
  ctx_sp : Z;
  ctx_s : list Z;  (* s0 .. s11 *)
}.
#[global] Instance eta_context : Eta context := λ c,
  mk_context (ctx_ra c) (ctx_sp c) (ctx_s c).
Definition context0 : context := mk_context 0 0 (replicate 12 0).
#[global] Instance context_inhabited : Inhabited context := populate context0.

Record cpu := mk_cpu {
  c_proc : option nat;
  c_context : context;
  c_noff : Z;
  c_intena : bool;
}.
#[global] Instance eta_cpu : Eta cpu := λ c,
  mk_cpu (c_proc c) (c_context c) (c_noff c) (c_intena c).
#[global] Instance cpu_inhabited : Inhabited cpu := populate (mk_cpu None context0 0 false).

Inductive procstate := UNUSED | USED | SLEEPING | RUNNABLE | RUNNING | ZOMBIE.
#[global] Instance procstate_eq_dec : EqDecision procstate.
Proof. solve_decision. Defined.

Record proc := mk_proc {
  p_state : procstate;
  p_chan : option channel;
  p_killed : Z;
  p_xstate : Z;
  p_pid : Z;
  p_parent : option nat;
  p_kstack : Z;
  p_sz : Z;
  p_pagetable : Z;
  p_trapframe : Z;
  p_context : context;
  p_ofile : list (option nat);
  p_cwd : option nat;
  p_name : list Z;
}.
#[global] Instance eta_proc : Eta proc := λ p,
  mk_proc (p_state p) (p_chan p) (p_killed p) (p_xstate p) (p_pid p) (p_parent p)
    (p_kstack p) (p_sz p) (p_pagetable p) (p_trapframe p) (p_context p) (p_ofile p)
    (p_cwd p) (p_name p).
Definition proc0 : proc :=
  mk_proc UNUSED None 0 0 0 None 0 0 0 0 context0 (replicate NOFILE None) None
    (replicate 16 0).
#[global] Instance proc_inhabited : Inhabited proc := populate proc0.

(** Offsets of the saved registers in a trap frame page (struct trapframe). *)
Definition TF_kernel_satp : Z := 0.
Definition TF_kernel_sp : Z := 8.
Definition TF_kernel_trap : Z := 16.
Definition TF_epc : Z := 24.
Definition TF_kernel_hartid : Z := 32.
Definition TF_sp : Z := 48.
Definition TF_a0 : Z := 112.
Definition TF_a1 : Z := 120.
Definition TF_a2 : Z := 128.
Definition TF_a3 : Z := 136.
Definition TF_a4 : Z := 144.
Definition TF_a5 : Z := 152.
Definition TF_a7 : Z := 168.
Definition TF_size : Z := 288.

(** ** The buffer cache and the log (buf.h, bio.c, log.c) *)

Definition BSIZE : Z := 1024.

Record buf := mk_buf {
  b_valid : Z;
  b_disk : Z;
  b_dev : Z;
  b_blockno : Z;
  b_lock : sleeplock;
  b_refcnt : Z;
  b_prev : nat;
  b_next : nat;
  b_data : list Z;
}.
#[global] Instance eta_buf : Eta buf := λ b,
  mk_buf (b_valid b) (b_disk b) (b_dev b) (b_blockno b) (b_lock b) (b_refcnt b)
    (b_prev b) (b_next b) (b_data b).
Definition buf0 : buf :=
  mk_buf 0 0 0 0 inhabitant 0 0 0 (replicate (Z.to_nat BSIZE) 0).
#[global] Instance buf_inhabited : Inhabited buf := populate buf0.

Record log_t := mk_log {
  l_start : Z;
  l_outstanding : Z;
  l_committing : Z;
  l_dev : Z;
  l_n : Z;
  l_block : list Z;
}.
#[global] Instance eta_log : Eta log_t := λ l,
  mk_log (l_start l) (l_outstanding l) (l_committing l) (l_dev l) (l_n l) (l_block l).
Definition log0 : log_t := mk_log 0 0 0 0 0 (replicate (Z.to_nat LOGBLOCKS) 0).

(** ** The file system (fs.h, file.h, stat.h) *)

Record superblock := mk_superblock {
  sb_magic : Z;
  sb_size : Z;
  sb_nblocks : Z;
  sb_ninodes : Z;
  sb_nlog : Z;
  sb_logstart : Z;
  sb_inodestart : Z;
  sb_bmapstart : Z;
}.
Definition sb0 : superblock := mk_superblock 0 0 0 0 0 0 0 0.

Definition NDIRECT : nat := 12.

Record inode := mk_inode {
  i_dev : Z;
  i_inum : Z;
  i_ref : Z;
  i_lock : sleeplock;
  i_valid : Z;
  i_type : Z;
  i_major : Z;
  i_minor : Z;
  i_nlink : Z;
  i_size : Z;
  i_addrs : list Z;
}.
#[global] Instance eta_inode : Eta inode := λ i,
  mk_inode (i_dev i) (i_inum i) (i_ref i) (i_lock i) (i_valid i) (i_type i) (i_major i)
    (i_minor i) (i_nlink i) (i_size i) (i_addrs i).
Definition inode0 : inode :=
  mk_inode 0 0 0 inhabitant 0 0 0 0 0 0 (replicate (S NDIRECT) 0).
#[global] Instance inode_inhabited : Inhabited inode := populate inode0.

Inductive filetype := FD_NONE | FD_PIPE | FD_INODE | FD_DEVICE.
#[global] Instance filetype_eq_dec : EqDecision filetype.
Proof. solve_decision. Defined.

Record file := mk_file {
  f_type : filetype;
  f_ref : Z;
  f_readable : Z;
  f_writable : Z;
  f_pipe : Z;
  f_ip : option nat;
  f_off : Z;
  f_major : Z;
}.
#[global] Instance eta_file : Eta file := λ f,
  mk_file (f_type f) (f_ref f) (f_readable f) (f_writable f) (f_pipe f) (f_ip f)
    (f_off f) (f_major f).
Definition file0 : file := mk_file FD_NONE 0 0 0 0 None 0 0.
#[global] Instance file_inhabited : Inhabited file := populate file0.

(** Device switch entries hold driver functions. *)
Inductive devfun := Fconsoleread | Fconsolewrite.
Record devsw_t := mk_devsw {
  ds_read : option devfun;
  ds_write : option devfun;
}.
#[global] Instance devsw_inhabited : Inhabited devsw_t := populate (mk_devsw None None).

Definition PIPESIZE : Z := 512.

Record pipe := mk_pipe {
  pi_data : list Z;
  pi_nread : Z;
  pi_nwrite : Z;
  pi_readopen : Z;
  pi_writeopen : Z;
}.
#[global] Instance eta_pipe : Eta pipe := λ p,
  mk_pipe (pi_data p) (pi_nread p) (pi_nwrite p) (pi_readopen p) (pi_writeopen p).
#[global] Instance pipe_inhabited : Inhabited pipe :=
  populate (mk_pipe (replicate (Z.to_nat PIPESIZE) 0) 0 0 0 0).

(** ** Devices (console.c, uart.c, virtio.h, virtio_disk.c) *)

Definition INPUT_BUF_SIZE : Z := 128.

Record cons_t := mk_cons {
  cons_buf : list Z;
  cons_r : Z;
  cons_w : Z;
  cons_e : Z;
}.
#[global] Instance eta_cons : Eta cons_t := λ c,
  mk_cons (cons_buf c) (cons_r c) (cons_w c) (cons_e c).
Definition cons0 : cons_t := mk_cons (replicate (Z.to_nat INPUT_BUF_SIZE) 0) 0 0 0.

(** The UART as the driver sees it: whether the transmitter is idle, the bytes
    written to the transmit register so far, the bytes waiting in the receive
    register, and the writes made to the control registers. *)
Record uart_t := mk_uart {
  u_tx_busy : Z;
  u_idle : bool;
  u_out : list Z;
  u_in : list Z;
  u_ctl : list (Z * Z);
  u_panicking : Z;
  u_panicked : Z;
}.
#[global] Instance eta_uart : Eta uart_t := λ u,
  mk_uart (u_tx_busy u) (u_idle u) (u_out u) (u_in u) (u_ctl u) (u_panicking u)
    (u_panicked u).
Definition uart0 : uart_t := mk_uart 0 true [] [] [] 0 0.

Definition NUM : nat := 8.

(** Addresses the driver puts in descriptors. *)
Inductive daddr := DAnull | DAops (i : nat) | DAdata (b : nat) | DAstatus (i : nat).

Record virtq_desc := mk_desc {
  d_addr : daddr;
  d_len : Z;
  d_flags : Z;
  d_next : Z;
}.
#[global] Instance eta_desc : Eta virtq_desc := λ d,
  mk_desc (d_addr d) (d_len d) (d_flags d) (d_next d).
#[global] Instance desc_inhabited : Inhabited virtq_desc := populate (mk_desc DAnull 0 0 0).

Record virtio_blk_req := mk_req {
  rq_type : Z;
  rq_reserved : Z;
  rq_sector : Z;
}.
#[global] Instance req_inhabited : Inhabited virtio_blk_req := populate (mk_req 0 0 0).

Record vinfo := mk_vinfo {
  vi_b : option nat;
  vi_status : Z;
}.
#[global] Instance eta_vinfo : Eta vinfo := λ i, mk_vinfo (vi_b i) (vi_status i).
#[global] Instance vinfo_inhabited : Inhabited vinfo := populate (mk_vinfo None 0).

(** The driver's bookkeeping, the rings it shares with the device, the device's
    registers, and the blocks the device stores. *)
Record disk_t := mk_disk {
  vd_desc : list virtq_desc;
  vd_avail_ring : list Z;
  vd_avail_idx : Z;
  vd_used_ring : list Z;
  vd_dev_used_idx : Z;
  vd_free : list Z;
  vd_used_idx : Z;
  vd_info : list vinfo;
  vd_ops : list virtio_blk_req;
  vd_regs : gmap Z Z;
  vd_mmio : list (Z * Z);
  vd_blocks : gmap Z (list Z);
}.
#[global] Instance eta_disk : Eta disk_t := λ d,
  mk_disk (vd_desc d) (vd_avail_ring d) (vd_avail_idx d) (vd_used_ring d)
    (vd_dev_used_idx d) (vd_free d) (vd_used_idx d) (vd_info d) (vd_ops d) (vd_regs d)
    (vd_mmio d) (vd_blocks d).
Definition disk0 : disk_t :=
  mk_disk (replicate NUM inhabitant) (replicate NUM 0) 0 (replicate NUM 0) 0
    (replicate NUM 0) 0 (replicate NUM inhabitant) (replicate NUM inhabitant) ∅ [] ∅.

(** The interrupt controller: the requests it has pending, in the order it will
    hand them out, and the writes made to its registers. *)
Record plic_t := mk_plic {
  pl_pending : list Z;
  pl_writes : list (Z * Z);
}.
#[global] Instance eta_plic : Eta plic_t := λ p, mk_plic (pl_pending p) (pl_writes p).

(** ** The whole state *)

(** What a lock operation touches: this hart's thread pointer and status
    register, the per-CPU structures, and the spin locks. *)
Record xstate := mk_xstate {
  x_tp : Z;
  x_sstatus : Z;
  x_cpus : list cpu;
  x_locks : gmap lockid spinlock;
}.
#[global] Instance eta_xstate : Eta xstate := λ x,
  mk_xstate (x_tp x) (x_sstatus x) (x_cpus x) (x_locks x).

(** Control and status registers other than [sstatus]. *)
Inductive csr :=
| mhartid | mstatus | mepc | sip | sie | mie | sepc | medeleg | mideleg | stvec
| stimecmp | menvcfg | pmpcfg0 | pmpaddr0 | satp | scause | stval | mcounteren | time
| sp | ra.
#[global] Instance csr_eq_dec : EqDecision csr.
Proof. solve_decision. Defined.

Record kstate := mk_kstate {
  k_x : xstate;
  k_csr : csr → Z;
  k_mem : memory;
  k_freelist : Z;
  k_kpgtbl : Z;
  k_procs : list proc;
  k_initproc : option nat;
  k_nextpid : Z;
  k_first : Z;
  k_started : Z;
  k_ticks : Z;
  k_bufs : list buf;
  k_disk : disk_t;
  k_log : log_t;
  k_sb : superblock;
  k_inodes : list inode;
  k_files : list file;
  k_devsw : list devsw_t;
  k_pipes : gmap Z pipe;
  k_cons : cons_t;
  k_uart : uart_t;
  k_plic : plic_t;
}.
#[global] Instance eta_kstate : Eta kstate := λ s,
  mk_kstate (k_x s) (k_csr s) (k_mem s) (k_freelist s) (k_kpgtbl s) (k_procs s)
    (k_initproc s) (k_nextpid s) (k_first s) (k_started s) (k_ticks s) (k_bufs s)
    (k_disk s) (k_log s) (k_sb s) (k_inodes s) (k_files s) (k_devsw s) (k_pipes s)
    (k_cons s) (k_uart s) (k_plic s).

(** Statically allocated storage is zero; execution starts on hart 0. *)
Definition x0 : xstate := mk_xstate 0 0 (replicate NCPU inhabitant) ∅.
Definition kstate0 : kstate :=
  mk_kstate x0 (λ _, 0) ∅ 0 0 (replicate NPROC proc0) None 1 1 0 0
    (replicate (S NBUF) buf0) disk0 log0 sb0 (replicate NINODE inode0)
    (replicate NFILE file0) (replicate (Z.to_nat NDEV) inhabitant) ∅ cons0 uart0 (mk_plic [] []).

(** Kernel code. *)
Abbreviation K := (M kstate).

Abbreviation env := (list (kstate → kstate)).

(** Addresses that the linker fixes (kernel.ld, trampoline.S, kernelvec.S). *)
Class Layout := {
  end_ : Z;
  etext : Z;
  trampoline : Z;
  uservec : Z;
  userret : Z;
  kernelvec : Z;
  forkret_addr : Z;
  usertrap_addr : Z;
  main_addr : Z;
  end_range : KERNBASE < end_ <= PHYSTOP;
  etext_range : KERNBASE < etext < end_;
  etext_aligned : etext mod PGSIZE = 0;
  trampoline_range : KERNBASE < trampoline < end_;
  trampoline_aligned : trampoline mod PGSIZE = 0;
}.

(** A layout like the one the linker produces, for concrete runs. *)
Definition layout0 : Layout.
Proof.
  refine {| end_ := 2147631104; etext := 2147520512; trampoline := 2147512320;
            uservec := 2147512320; userret := 2147512484; kernelvec := 2147505056;
            forkret_addr := 2147490000; usertrap_addr := 2147491000;
            main_addr := 2147487000 |}; (reflexivity || (split; reflexivity) ||
            (split; [reflexivity|discriminate])).
Defined.

(** ** Access to table entries *)

Definition proc_at (s : kstate) (p : nat) : proc := k_procs s !!! p.
Definition buf_at (s : kstate) (b : nat) : buf := k_bufs s !!! b.
Definition inode_at (s : kstate) (i : nat) : inode := k_inodes s !!! i.
Definition file_at (s : kstate) (f : nat) : file := k_files s !!! f.

Definition upd_proc (p : nat) (f : proc → proc) : K unit :=
  modify (λ s, s <| k_procs := <[p := f (proc_at s p)]> (k_procs s) |>).
Definition upd_buf (b : nat) (f : buf → buf) : K unit :=
  modify (λ s, s <| k_bufs := <[b := f (buf_at s b)]> (k_bufs s) |>).
Definition upd_inode (i : nat) (f : inode → inode) : K unit :=
  modify (λ s, s <| k_inodes := <[i := f (inode_at s i)]> (k_inodes s) |>).
Definition upd_file (i : nat) (f : file → file) : K unit :=
  modify (λ s, s <| k_files := <[i := f (file_at s i)]> (k_files s) |>).
Definition upd_log (f : log_t → log_t) : K unit := modify (λ s, s <| k_log ::= f |>).
Definition upd_mem (f : memory → memory) : K unit := 
  modify (λ s, s <| k_mem := f (k_mem s) |>).
