(* ===== verification/Spinlock.v ===== *)
(** Interrupt enabling, the per-CPU structure and spin locks: kernel/spinlock.c,
    [intr_on]/[intr_off]/[intr_get]/[r_tp] of kernel/riscv.h, and
    [cpuid]/[mycpu]/[myproc] of kernel/proc.c. *)

From S2P Require Export State.

(** ** riscv.h *)

Definition r_sstatus : K Z := gets (λ s, x_sstatus (k_x s)).
Definition w_sstatus (v : Z) : K unit := modify (λ s, s <| k_x ::= set x_sstatus (λ _, v) |>).
Definition r_tp : K Z := gets (λ s, x_tp (k_x s)).
Definition w_tp (v : Z) : K unit := modify (λ s, s <| k_x ::= set x_tp (λ _, v) |>).

Definition intr_on : K unit :=
  x ← r_sstatus; w_sstatus (Z.lor x SSTATUS_SIE).
Definition intr_off : K unit :=
  x ← r_sstatus; w_sstatus (Z.land x (Z.lnot SSTATUS_SIE)).
Definition intr_get : K bool :=
  x ← r_sstatus; mret (negb (Z.land x SSTATUS_SIE =? 0)).

(** ** proc.c *)

Definition cpuid : K Z := x ← r_tp; mret (i32 x).
Definition mycpu : K nat := id ← cpuid; mret (Z.to_nat id).

Definition get_cpu (c : nat) : K cpu := gets (λ s, x_cpus (k_x s) !!! c).
Definition upd_cpu (c : nat) (f : cpu → cpu) : K unit :=
  modify (λ s, s <| k_x ::= set x_cpus (λ l, <[c := f (l !!! c)]> l) |>).

Definition get_lock (lk : lockid) : K spinlock :=
  gets (λ s, default inhabitant (x_locks (k_x s) !! lk)).
Definition put_lock (lk : lockid) (l : spinlock) : K unit :=
  modify (λ s, s <| k_x ::= set x_locks (λ m, <[lk := l]> m) |>).

(** ** spinlock.c *)

Definition initlock (lk : lockid) (name : string) : K unit :=
  l ← get_lock lk;
  put_lock lk (l <| sl_name := name |> <| sl_locked := 0 |> <| sl_cpu := None |>).

Definition holding (lk : lockid) : K bool :=
  l ← get_lock lk;
  c ← mycpu;
  mret (negb (sl_locked l =? 0) && bool_decide (sl_cpu l = Some c)).

Definition push_off : K unit :=
  old ← intr_get;
  intr_off;;
  c ← mycpu;
  cp ← get_cpu c;
  when (c_noff cp =? 0) (upd_cpu c (set c_intena (λ _, old)));;
  upd_cpu c (set c_noff (λ n, n + 1)).

Definition pop_off : K unit :=
  c ← mycpu;
  i ← intr_get;
  if (i : bool) then panic "pop_off - interruptible" else
  cp ← get_cpu c;
  if c_noff cp <? 1 then panic "pop_off" else
  upd_cpu c (set c_noff (λ n, n - 1));;
  cp ← get_cpu c;
  when ((c_noff cp =? 0) && c_intena cp) intr_on.

(** [while(__sync_lock_test_and_set(&lk->locked, 1) != 0) ;]: the atomic swap
    stores 1 and returns the old value; while that is not zero, the holder on
    another hart is waited for. *)
Definition test_and_set (lk : lockid) : K Z :=
  l ← get_lock lk;
  put_lock lk (l <| sl_locked := 1 |>);;
  mret (sl_locked l).

Definition spin (lk : lockid) : K unit :=
  wait_loop (
    old ← test_and_set lk;
    if old =? 0 then mret (Some ()) else interfere;; mret None).

Definition acquire (lk : lockid) : K unit :=
  push_off;;
  h ← holding lk;
  if (h : bool) then panic "acquire" else
  spin lk;;
  c ← mycpu;
  l ← get_lock lk;
  put_lock lk (l <| sl_cpu := Some c |>).

Definition release (lk : lockid) : K unit :=
  h ← holding lk;
  if negb h then panic "release" else
  l ← get_lock lk;
  put_lock lk (l <| sl_cpu := None |>);;
  l ← get_lock lk;
  put_lock lk (l <| sl_locked := 0 |>);;
  pop_off.

(** proc.c: the process running on this CPU. *)
Definition myproc : K (option nat) :=
  push_off;;
  c ← mycpu;
  cp ← get_cpu c;
  pop_off;;
  mret (c_proc cp).

(** ** The effect of the lock operations on the machine state *)

Definition hart (x : xstate) : nat := Z.to_nat (i32 (x_tp x)).
Definition this_cpu (x : xstate) : cpu := x_cpus x !!! hart x.
Definition sie_on (x : xstate) : bool := negb (Z.land (x_sstatus x) SSTATUS_SIE =? 0).
Definition lock_at (x : xstate) (lk : lockid) : spinlock := default inhabitant (x_locks x !! lk).

(** Invariant of the interrupt bookkeeping: the hart number indexes [cpus], the
    nesting depth is not negative, and interrupts are off inside a
    [push_off] section. *)
Record xwf (x : xstate) : Prop := {
  xwf_hart : (hart x < length (x_cpus x))%nat;
  xwf_noff : 0 <= c_noff (this_cpu x);
  xwf_off : 0 < c_noff (this_cpu x) → sie_on x = false;
}.

Definition with_cpu (f : cpu → cpu) (x : xstate) : xstate :=
  x <| x_cpus ::= λ l, <[hart x := f (l !!! hart x)]> l |>.

(** State after [push_off]. *)
Definition pushed (x : xstate) : xstate :=
  with_cpu (λ c, c <| c_intena := if c_noff c =? 0 then sie_on x else c_intena c |>
                   <| c_noff ::= λ n, n + 1 |>)
    (x <| x_sstatus ::= λ v, Z.land v (Z.lnot SSTATUS_SIE) |>).

(** State after a balanced [push_off]/[pop_off]: only the remembered interrupt
    flag of an outermost section may differ. *)
Definition settle (x : xstate) : xstate :=
  with_cpu (λ c, c <| c_intena := if c_noff c =? 0 then sie_on x else c_intena c |>) x.

Definition locked_by (c : nat) (l : spinlock) : spinlock :=
  l <| sl_locked := 1 |> <| sl_cpu := Some c |>.

(** State after [acquire lk]. *)
Definition acquired (lk : lockid) (x : xstate) : xstate :=
  (pushed x) <| x_locks ::= λ m, <[lk := locked_by (hart x) (lock_at x lk)]> m |>.

(** The lock is initialised and not held. *)
Definition lock_free (lk : lockid) (x : xstate) : Prop :=
  ∃ name, x_locks x !! lk = Some (mk_spinlock 0 name None).

Definition popped (x : xstate) : xstate :=
  let c := this_cpu x in
  let x' := with_cpu (λ c, c <| c_noff ::= λ n, n - 1 |>) x in
  if (c_noff c - 1 =? 0) && c_intena c
  then x' <| x_sstatus ::= λ v, Z.lor v SSTATUS_SIE |> else x'.

Definition released (lk : lockid) (x : xstate) : xstate :=
  popped (x <| x_locks ::= λ m,
    <[lk := (lock_at x lk) <| sl_cpu := None |> <| sl_locked := 0 |>]> m |>).

(** ** Bits of the status register *)

Lemma sie_cleared v : Z.land (Z.land v (Z.lnot SSTATUS_SIE)) SSTATUS_SIE = 0.
Proof.
  rewrite <- Z.land_assoc. replace (Z.land (Z.lnot SSTATUS_SIE) SSTATUS_SIE) with 0
    by reflexivity. apply Z.land_0_r.
Qed.

Lemma sie_set v : Z.land (Z.lor v SSTATUS_SIE) SSTATUS_SIE = SSTATUS_SIE.
Proof. rewrite Z.land_lor_distr_l. apply Z.bits_inj'. intros n Hn.
  rewrite Z.lor_spec, !Z.land_spec. destruct (Z.testbit v n), (Z.testbit SSTATUS_SIE n); done.
Qed.

Lemma testbit_SIE n : 0 <= n → Z.testbit SSTATUS_SIE n = bool_decide (n = 1).
Proof.
  intros Hn. change SSTATUS_SIE with (2 ^ 1). rewrite Z.pow2_bits_eqb by lia.
  destruct (Z.eqb_spec 1 n); symmetry; [apply bool_decide_true|apply bool_decide_false]; lia.
Qed.

Lemma sie_bit v : Z.land v SSTATUS_SIE = if Z.testbit v 1 then 2 else 0.
Proof.
  apply Z.bits_inj'. intros n Hn. rewrite Z.land_spec, testbit_SIE by done.
  case_bool_decide as E.
  - subst n. destruct (Z.testbit v 1); done.
  - rewrite andb_false_r. destruct (Z.testbit v 1); [|by rewrite Z.bits_0].
    change 2 with (2 ^ 1). rewrite Z.pow2_bits_eqb by lia. symmetry. apply Z.eqb_neq. lia.
Qed.

Lemma sie_restore v :
  Z.testbit v 1 = true → Z.lor (Z.land v (Z.lnot SSTATUS_SIE)) SSTATUS_SIE = v.
Proof.
  intros H. apply Z.bits_inj'. intros n Hn.
  rewrite Z.lor_spec, Z.land_spec, Z.lnot_spec, testbit_SIE by done.
  case_bool_decide as E; [subst; rewrite H; done|].
  by rewrite andb_true_r, orb_false_r.
Qed.

Lemma sie_already_off v :
  Z.testbit v 1 = false → Z.land v (Z.lnot SSTATUS_SIE) = v.
Proof.
  intros H. apply Z.bits_inj'. intros n Hn.
  rewrite Z.land_spec, Z.lnot_spec, testbit_SIE by done.
  case_bool_decide as E; [subst; by rewrite H|]. by rewrite andb_true_r.
Qed.

Lemma sie_on_bit x : sie_on x = Z.testbit (x_sstatus x) 1.
Proof. unfold sie_on. rewrite sie_bit. by destruct (Z.testbit _ 1). Qed.

(** ** Step lemmas *)

Lemma with_cpu_compose f g x :
  (hart x < length (x_cpus x))%nat →
  with_cpu g (with_cpu f x) = with_cpu (λ c, g (f c)) x.
Proof.
  intros H. unfold with_cpu. destruct x as [tp st cs ls].
  unfold hart, set in *; cbn in *.
  rewrite total_insert_eq by done. by rewrite list_insert_insert_eq.
Qed.

Lemma this_cpu_with f x :
  (hart x < length (x_cpus x))%nat → this_cpu (with_cpu f x) = f (this_cpu x).
Proof.
  intros H. unfold this_cpu, with_cpu. destruct x as [tp st cs ls].
  unfold hart in *; cbn in *. by rewrite total_insert_eq.
Qed.

Lemma push_off_ok s e :
  (hart (k_x s) < length (x_cpus (k_x s)))%nat →
  push_off s e = Ok tt (s <| k_x ::= pushed |>) e.
Proof.
  intros H. unfold push_off, intr_get, intr_off, r_sstatus, w_sstatus, mycpu, cpuid, r_tp,
    get_cpu, upd_cpu. mred. simpl.
  unfold pushed, with_cpu, this_cpu, sie_on, hart, set in *; cbn in *.
  destruct (c_noff (x_cpus (k_x s) !!! Z.to_nat (i32 (x_tp (k_x s)))) =? 0) eqn:E; unfold when; mred; unfold modify; cbn.
  - rewrite total_insert_eq by done. by rewrite list_insert_insert_eq.
  - by destruct (x_cpus (k_x s) !!! Z.to_nat (i32 (x_tp (k_x s)))).
Qed.

Lemma pop_off_ok s e :
  (hart (k_x s) < length (x_cpus (k_x s)))%nat →
  sie_on (k_x s) = false → 1 <= c_noff (this_cpu (k_x s)) →
  pop_off s e = Ok tt (s <| k_x ::= popped |>) e.
Proof.
  intros H Hs Hn. unfold pop_off, intr_get, intr_on, r_sstatus, w_sstatus, mycpu, cpuid,
    r_tp, get_cpu, upd_cpu. mred. unfold sie_on in Hs. rewrite Hs. mred. simpl.
  unfold popped, with_cpu, this_cpu, sie_on, hart, set in *; cbn in *.
  destruct (Z.ltb_spec (c_noff (x_cpus (k_x s) !!! Z.to_nat (i32 (x_tp (k_x s))))) 1); [lia|]. mred. cbn.
  rewrite total_insert_eq by done. cbn.
  by destruct ((c_noff (x_cpus (k_x s) !!! Z.to_nat (i32 (x_tp (k_x s)))) - 1 =? 0)
    && c_intena (x_cpus (k_x s) !!! Z.to_nat (i32 (x_tp (k_x s))))).
Qed.

(** ** Balance *)

Lemma pushed_hart x : hart (pushed x) = hart x.
Proof. done. Qed.
Lemma pushed_locks x : x_locks (pushed x) = x_locks x.
Proof. done. Qed.
Lemma pushed_len x : length (x_cpus (pushed x)) = length (x_cpus x).
Proof. unfold pushed, with_cpu. cbn. by rewrite length_insert. Qed.
Lemma pushed_sie x : sie_on (pushed x) = false.
Proof. unfold sie_on, pushed, with_cpu. cbn. by rewrite sie_cleared. Qed.
Lemma pushed_cpu x :
  xwf x → this_cpu (pushed x) =
    (this_cpu x) <| c_intena := if c_noff (this_cpu x) =? 0 then sie_on x
                              else c_intena (this_cpu x) |>
               <| c_noff ::= λ n, n + 1 |>.
Proof.
  intros [H _ _]. unfold pushed. rewrite this_cpu_with by done. done.
Qed.

Lemma popped_pushed x : xwf x → popped (pushed x) = settle x.
Proof.
  intros W. pose proof (pushed_cpu x W) as Hc. destruct W as [Hh Hn Ho].
  unfold popped. rewrite Hc. cbn.
  replace (c_noff (this_cpu x) + 1 - 1) with (c_noff (this_cpu x)) by lia.
  unfold pushed at 1 2. rewrite with_cpu_compose by done.
  assert (∀ v, x_sstatus x = v → with_cpu
     (λ c, c <| c_intena := if c_noff c =? 0 then sie_on x else c_intena c |>
             <| c_noff ::= λ n, n + 1 |> <| c_noff ::= λ n, n - 1 |>)
     (x <| x_sstatus := v |>) = settle x) as Heq.
  { intros v <-. unfold settle, with_cpu, set. destruct x as [tp st cs ls]. cbn.
    do 3 f_equal. lia. }
  destruct (Z.eqb_spec (c_noff (this_cpu x)) 0) as [E|E]; cbn.
  - destruct (sie_on x) eqn:Es.
    + rewrite <- (Heq (Z.lor (Z.land (x_sstatus x) (Z.lnot SSTATUS_SIE)) SSTATUS_SIE)).
      { rewrite sie_on_bit in Es. done. }
      rewrite sie_restore; [done|]. by rewrite sie_on_bit in Es.
    + rewrite <- (Heq (Z.land (x_sstatus x) (Z.lnot SSTATUS_SIE))); [done|].
      rewrite sie_already_off; [done|]. by rewrite sie_on_bit in Es.
  - rewrite <- (Heq (Z.land (x_sstatus x) (Z.lnot SSTATUS_SIE))).
    { destruct (c_intena (this_cpu x)); done. }
    rewrite sie_already_off; [done|]. rewrite <- sie_on_bit. apply Ho. lia.
Qed.

Lemma settle_id x : c_noff (this_cpu x) ≠ 0 → settle x = x.
Proof.
  intros H. unfold settle, with_cpu, this_cpu, set in *. destruct x as [tp st cs ls].
  unfold hart in *; cbn in *. apply Z.eqb_neq in H. rewrite H.
  assert (∀ c : cpu, mk_cpu (c_proc c) (c_context c) (c_noff c) (c_intena c) = c) as ->
    by (by intros []).
  by rewrite insert_id_total.
Qed.

Lemma settle_hart x : hart (settle x) = hart x.
Proof. done. Qed.
Lemma settle_locks x : x_locks (settle x) = x_locks x.
Proof. done. Qed.
Lemma settle_sie x : sie_on (settle x) = sie_on x.
Proof. done. Qed.
Lemma settle_len x : length (x_cpus (settle x)) = length (x_cpus x).
Proof. unfold settle, with_cpu. simpl. by rewrite length_insert. Qed.

Lemma settle_cpu x :
  (hart x < length (x_cpus x))%nat →
  this_cpu (settle x) =
    (this_cpu x) <| c_intena := if c_noff (this_cpu x) =? 0 then sie_on x
                                else c_intena (this_cpu x) |>.
Proof. intros H. unfold settle. by rewrite this_cpu_with. Qed.

Lemma xwf_settle x : xwf x → xwf (settle x).
Proof.
  intros [H1 H2 H3]. pose proof (settle_cpu x H1) as Hc. split.
  - by rewrite settle_hart, settle_len.
  - by rewrite Hc.
  - rewrite Hc, settle_sie. done.
Qed.

Lemma settle_idem x : xwf x → settle (settle x) = settle x.
Proof.
  intros [H1 H2 H3]. unfold settle at 1. rewrite settle_sie. unfold settle.
  rewrite with_cpu_compose by done. unfold with_cpu, set. destruct x as [tp st cs ls].
  cbn. do 3 f_equal. by destruct (c_noff _ =? 0).
Qed.

Lemma settle_set_locks f x : settle (x <| x_locks ::= f |>) = (settle x) <| x_locks ::= f |>.
Proof. done. Qed.

Lemma lock_free_settle lk x : lock_free lk (settle x) ↔ lock_free lk x.
Proof. done. Qed.

Lemma acquired_cpu lk x : this_cpu (acquired lk x) = this_cpu (pushed x).
Proof. done. Qed.

Lemma xwf_acquired lk x : xwf x → xwf (acquired lk x).
Proof.
  intros W. pose proof (pushed_cpu x W) as Hc. destruct W as [H1 H2 H3]. split.
  - change (x_cpus (acquired lk x)) with (x_cpus (pushed x)). rewrite pushed_len. done.
  - rewrite acquired_cpu, Hc. simpl. lia.
  - intros _. apply pushed_sie.
Qed.

Lemma acquired_noff lk x :
  xwf x → c_noff (this_cpu (acquired lk x)) = c_noff (this_cpu x) + 1.
Proof. intros W. by rewrite acquired_cpu, pushed_cpu. Qed.

Lemma lock_free_acquired lk lk' x :
  lk ≠ lk' → lock_free lk' (acquired lk x) ↔ lock_free lk' x.
Proof.
  intros H. unfold lock_free, acquired. simpl. by rewrite lookup_insert_ne.
Qed.

Lemma acquire_ok lk s e :
  xwf (k_x s) → lock_free lk (k_x s) →
  acquire lk s e = Ok tt (s <| k_x ::= acquired lk |>) e.
Proof.
  intros [Hh _ _] [name Hl]. unfold acquire.
  rewrite (bind_Ok _ _ _ _ _ _ _ (push_off_ok s e Hh)).
  unfold holding, get_lock, mycpu, cpuid, r_tp. mred. simpl. rewrite Hl. simpl. mred.
  unfold spin. erewrite bind_Ok.
  2:{ apply wait_loop_now. unfold test_and_set, get_lock, put_lock. mred. simpl.
      rewrite Hl. simpl. reflexivity. }
  unfold put_lock, modify. mred. simpl. rewrite lookup_insert_eq. simpl.
  unfold acquired, lock_at, set. rewrite Hl. simpl. rewrite insert_insert_eq. done.
Qed.

Lemma acquire_held lk s e l :
  xwf (k_x s) → x_locks (k_x s) !! lk = Some l → sl_locked l ≠ 0 →
  sl_cpu l = Some (hart (k_x s)) →
  acquire lk s e = Panic "acquire" (s <| k_x ::= pushed |>).
Proof.
  intros [Hh _ _] Hl H0 Hc. unfold acquire.
  rewrite (bind_Ok _ _ _ _ _ _ _ (push_off_ok s e Hh)).
  unfold holding, get_lock, mycpu, cpuid, r_tp. mred. simpl. rewrite Hl. simpl.
  rewrite (proj2 (Z.eqb_neq _ _) H0), bool_decide_true by done. done.
Qed.

Lemma release_ok lk s e l :
  xwf (k_x s) → 1 <= c_noff (this_cpu (k_x s)) →
  x_locks (k_x s) !! lk = Some l → sl_locked l ≠ 0 → sl_cpu l = Some (hart (k_x s)) →
  release lk s e = Ok tt (s <| k_x ::= released lk |>) e.
Proof.
  intros [Hh Hn Hs] Hn1 Hl H0 Hc. unfold release, holding, get_lock, put_lock, mycpu, cpuid,
    r_tp. mred. rewrite Hl. simpl. rewrite (proj2 (Z.eqb_neq _ _) H0). simpl.
  rewrite bool_decide_true by done. simpl. mred. simpl. rewrite lookup_insert_eq. simpl.
  erewrite pop_off_ok by (simpl; auto with lia).
  unfold released, lock_at, set; simpl. rewrite Hl, insert_insert_eq. done.
Qed.

Lemma release_not_held lk s e :
  sl_cpu (lock_at (k_x s) lk) ≠ Some (hart (k_x s)) →
  release lk s e = Panic "release" s.
Proof.
  intros H. unfold release, holding, get_lock, mycpu, cpuid, r_tp. mred.
  rewrite bool_decide_false by done. by rewrite andb_false_r.
Qed.

Lemma popped_locks f x :
  popped (x <| x_locks ::= f |>) = (popped x) <| x_locks ::= f |>.
Proof. unfold popped. simpl. by destruct (_ && _). Qed.

Lemma released_acquired lk x : xwf x → lock_free lk x → released lk (acquired lk x) = settle x.
Proof.
  intros W [name Hl]. unfold released, acquired, lock_at. simpl.
  rewrite lookup_insert_eq. simpl. rewrite !popped_locks, popped_pushed by done.
  rewrite Hl. simpl. unfold set. simpl. rewrite insert_insert_eq, insert_id by done.
  by destruct x.
Qed.

(** A critical section that leaves the locks alone only settles the machine
    state. *)
Lemma release_after lk s x e :
  k_x s = acquired lk x → xwf x → lock_free lk x →
  release lk s e = Ok tt (s <| k_x := settle x |>) e.
Proof.
  intros Hx W F. pose proof (xwf_acquired lk x W) as W'.
  pose proof (acquired_noff lk x W) as N. pose proof (xwf_noff x W) as Hn.
  erewrite release_ok; rewrite ?Hx; [|done|lia| | |].
  - f_equal. unfold set. by rewrite Hx, released_acquired.
  - unfold acquired; simpl. apply lookup_insert_eq.
  - unfold locked_by. simpl. lia.
  - done.
Qed.

Lemma myproc_ok s e :
  xwf (k_x s) →
  myproc s e = Ok (c_proc (this_cpu (k_x s))) (s <| k_x ::= settle |>) e.
Proof.
  intros W. pose proof (pushed_cpu (k_x s) W) as Hc. pose proof W as [Hh Hn Hs]. unfold myproc.
  rewrite (bind_Ok _ _ _ _ _ _ _ (push_off_ok s e Hh)).
  unfold mycpu, cpuid, r_tp, get_cpu. mred.
  erewrite bind_Ok.
  2:{ apply pop_off_ok; change (k_x (s <| k_x ::= pushed |>)) with (pushed (k_x s)).
      - by rewrite pushed_len.
      - apply pushed_sie.
      - rewrite Hc. simpl. lia. }
  unfold mret, M_ret. f_equal.
  - change (x_cpus _ !!! _) with (this_cpu (pushed (k_x s))). by rewrite Hc.
  - unfold set. simpl. by rewrite popped_pushed.
Qed.

(** Between operations that enable or disable interrupts themselves, the
    remembered flag of this CPU is up to date, and balanced lock operations
    leave the machine state as it was. *)
Definition settled (x : xstate) : Prop := settle x = x.

Lemma settle_settled x : xwf x → settled (settle x).
Proof. intros W. by apply settle_idem. Qed.

Lemma settled_locks f x : settled x → settled (x <| x_locks ::= f |>).
Proof. destruct x. unfold settled, settle, with_cpu. simpl. intros H. injection H as H. by rewrite <- H at 2. Qed.

Lemma myproc_settled s e :
  xwf (k_x s) → settled (k_x s) → myproc s e = Ok (c_proc (this_cpu (k_x s))) s e.
Proof.
  intros W Hs. rewrite myproc_ok by done. f_equal.
  unfold set. rewrite Hs. by destruct s.
Qed.

(** The machine at power-on. *)
Lemma xwf_x0 : xwf x0.
Proof. split; vm_compute; (lia || discriminate). Qed.

Lemma settled_x0 : settled x0.
Proof. vm_compute. reflexivity. Qed.

#[global] Opaque pushed popped settle acquired released.
