(* ===== verification/LockSteps.v ===== *)
(** Spin locks on several harts: [acquire] and [release] of Spinlock.v cut at
    their accesses to shared memory, and the interleavings of these pieces on
    [NCPU] harts. *)

From S2P Require Export Spinlock.

(** ** The pieces of acquire and release *)

Definition acquire_begin (lk : lockid) : K unit :=
  push_off;;
  h ← holding lk;
  if (h : bool) then panic "acquire" else mret ().

Definition acquire_end (lk : lockid) : K unit :=
  c ← mycpu;
  l ← get_lock lk;
  put_lock lk (l <| sl_cpu := Some c |>).

Definition release_begin (lk : lockid) : K unit :=
  h ← holding lk;
  if negb h then panic "release" else
  l ← get_lock lk;
  put_lock lk (l <| sl_cpu := None |>).

Definition release_end (lk : lockid) : K unit :=
  l ← get_lock lk;
  put_lock lk (l <| sl_locked := 0 |>);;
  pop_off.

(** Run one after the other, the pieces are the functions. *)
Lemma acquire_pieces lk s e : acquire lk s e = (acquire_begin lk;; spin lk;; acquire_end lk) s e.
Proof.
  unfold acquire, acquire_begin. rewrite !bind_assoc. unfold mbind, M_bind.
  destruct (push_off s e) as [? s1 e1| |]; [|done..]. destruct (holding lk s1 e1) as [[] ? ?| |]; done.
Qed.

Lemma release_pieces lk s e : release lk s e = (release_begin lk;; release_end lk) s e.
Proof.
  unfold release, release_begin. rewrite !bind_assoc. unfold mbind, M_bind.
  destruct (holding lk s e) as [[] ? ?| |]; done.
Qed.

(** ** Several harts *)

(** Where a hart is: outside, spinning in [acquire], past the atomic swap, in
    the critical section, and past the first half of [release]. *)
Inductive pc := Out | Spin | Got | Crit | Rel.
#[global] Instance pc_eq_dec : EqDecision pc.
Proof. solve_decision. Defined.
#[global] Instance pc_inhabited : Inhabited pc := populate Out.

(** Memory, shared; a status register and a place in the code for each hart. *)
Record machine := mk_machine {
  mc_s : kstate;
  mc_st : list Z;
  mc_pc : list pc;
}.

(** The state as hart [h] sees it. *)
Definition on_hart (h : nat) (M : machine) : kstate :=
  (mc_s M) <| k_x ::= λ x, x <| x_tp := Z.of_nat h |> <| x_sstatus := mc_st M !!! h |> |>.

Definition back (h : nat) (s : kstate) (p : pc) (M : machine) : machine :=
  mk_machine s (<[h := x_sstatus (k_x s)]> (mc_st M)) (<[h := p]> (mc_pc M)).

(** The next piece that hart [h] runs. *)
Definition piece (lk : lockid) (p : pc) : K pc :=
  match p with
  | Out => acquire_begin lk;; mret Spin
  | Spin => old ← test_and_set lk; mret (if old =? 0 then Got else Spin)
  | Got => acquire_end lk;; mret Crit
  | Crit => release_begin lk;; mret Rel
  | Rel => release_end lk;; mret Out
  end.

Definition next (lk : lockid) (M : machine) (h : nat) : outcome kstate pc :=
  piece lk (mc_pc M !!! h) (on_hart h M) [].

Inductive mstep (lk : lockid) (M : machine) : machine → Prop :=
| hart_moves h p s' : (h < NCPU)%nat → next lk M h = Ok p s' [] → mstep lk M (back h s' p M).

(** The lock is initialised and every hart is outside. *)
Record boot (lk : lockid) (M : machine) : Prop := {
  bt_lock : lock_free lk (k_x (mc_s M));
  bt_cpus : length (x_cpus (k_x (mc_s M))) = NCPU;
  bt_st : length (mc_st M) = NCPU;
  bt_pc : mc_pc M = replicate NCPU Out;
  bt_noff : ∀ h, (h < NCPU)%nat → c_noff (x_cpus (k_x (mc_s M)) !!! h) = 0;
}.

(** ** The invariant *)

(** A hart between the atomic swap and the end of [release]. *)
Definition owning (p : pc) : bool := match p with Got | Crit | Rel => true | _ => false end.

(** The word of the lock, from its owner. *)
Definition word (o : option nat) : Z := match o with Some _ => 1 | None => 0 end.

Record lock_inv (lk : lockid) (M : machine) (o : option nat) : Prop := {
  li_cpus : length (x_cpus (k_x (mc_s M))) = NCPU;
  li_st : length (mc_st M) = NCPU;
  li_pc : length (mc_pc M) = NCPU;
  li_lock : ∃ name, x_locks (k_x (mc_s M)) !! lk =
    Some (mk_spinlock (word o) name
            (match o with Some h => if decide (mc_pc M !!! h = Crit) then Some h else None | None => None end));
  li_owner : ∀ h, (h < NCPU)%nat → owning (mc_pc M !!! h) = bool_decide (o = Some h);
  li_range : ∀ h, o = Some h → (h < NCPU)%nat;
  li_noff : ∀ h, (h < NCPU)%nat → c_noff (x_cpus (k_x (mc_s M)) !!! h) = if decide (mc_pc M !!! h = Out) then 0 else 1;
  li_sie : ∀ h, (h < NCPU)%nat → mc_pc M !!! h ≠ Out → Z.land (mc_st M !!! h) SSTATUS_SIE = 0;
}.

Lemma lock_inv_boot lk M : boot lk M → lock_inv lk M None.
Proof.
  intros [[name Hl] Hc Hst Hpc Hn]. split; try done.
  - by rewrite Hpc.
  - by exists name.
  - intros h Hh. rewrite Hpc, lookup_total_replicate_2 by done. by rewrite bool_decide_false.
  - intros h Hh. rewrite Hpc, lookup_total_replicate_2 by done. by apply Hn.
  - intros h Hh. by rewrite Hpc, lookup_total_replicate_2.
Qed.

Section steps.
Context (lk : lockid).

Lemma hart_on h M : (h < NCPU)%nat → hart (k_x (on_hart h M)) = h.
Proof. intros Hh. unfold hart. simpl. change NCPU with 8%nat in Hh. rewrite i32_small by lia. lia. Qed.

Lemma on_wf h M o : lock_inv lk M o → (h < NCPU)%nat →
  (hart (k_x (on_hart h M)) < length (x_cpus (k_x (on_hart h M))))%nat.
Proof. intros Hi Hh. rewrite hart_on by done. simpl. by rewrite (li_cpus _ _ _ Hi). Qed.

Lemma cpu_on h M : (h < NCPU)%nat → this_cpu (k_x (on_hart h M)) = x_cpus (k_x (mc_s M)) !!! h.
Proof. intros Hh. unfold this_cpu. by rewrite hart_on. Qed.

(** [holding], from the contents of the lock. *)
Lemma holding_run s e l :
  x_locks (k_x s) !! lk = Some l →
  holding lk s e = Ok (negb (sl_locked l =? 0) && bool_decide (sl_cpu l = Some (hart (k_x s)))) s e.
Proof.
  intros Hl. unfold holding, get_lock. rewrite bind_gets, Hl. unfold mycpu, cpuid, r_tp. mred. done.
Qed.

Lemma get_lock_run {A} s e l (k : spinlock → K A) :
  x_locks (k_x s) !! lk = Some l → (get_lock lk ≫= k) s e = k l s e.
Proof. intros Hl. unfold get_lock. by rewrite bind_gets, Hl. Qed.

Lemma holding_on M o h : lock_inv lk M o → (h < NCPU)%nat →
  holding lk (on_hart h M) [] = Ok (bool_decide (mc_pc M !!! h = Crit)) (on_hart h M) [].
Proof.
  intros Hi Hh. destruct (li_lock _ _ _ Hi) as [name Hl]. rewrite (holding_run (on_hart h M) [] _ Hl).
  rewrite hart_on by done. simpl. f_equal. pose proof (li_owner _ _ _ Hi h Hh) as Ho.
  destruct o as [h0|]; simpl.
  - destruct (decide (mc_pc M !!! h0 = Crit)) as [E|E].
    + destruct (decide (h = h0)) as [->|N]; [by rewrite !bool_decide_true|].
      rewrite (bool_decide_false (Some h0 = Some h)) in * by congruence.
      rewrite bool_decide_false; [done|]. intros E'. by rewrite E' in Ho.
    + rewrite (bool_decide_false (None = Some h)) by done. rewrite bool_decide_false; [done|].
      intros E'. rewrite E' in Ho. symmetry in Ho. apply bool_decide_eq_true in Ho. by simplify_eq.
  - rewrite bool_decide_false; [done|]. intros E'. by rewrite E' in Ho.
Qed.

(** A step of hart [h] that leaves the CPU bookkeeping alone and stores [l] in
    the lock. *)
Definition put (l : spinlock) (s : kstate) : kstate := s <| k_x ::= set x_locks (λ m, <[lk := l]> m) |>.

(** What a piece does to the lock, in each place. *)
Lemma next_run M o h : lock_inv lk M o → (h < NCPU)%nat →
  ∃ l, x_locks (k_x (mc_s M)) !! lk = Some l ∧
  next lk M h =
    match mc_pc M !!! h with
    | Out => Ok Spin ((on_hart h M) <| k_x ::= pushed |>) []
    | Spin => Ok (match o with Some _ => Spin | None => Got end) (put (l <| sl_locked := 1 |>) (on_hart h M)) []
    | Got => Ok Crit (put (l <| sl_cpu := Some h |>) (on_hart h M)) []
    | Crit => Ok Rel (put (l <| sl_cpu := None |>) (on_hart h M)) []
    | Rel => Ok Out ((put (l <| sl_locked := 0 |>) (on_hart h M)) <| k_x ::= popped |>) []
    end.
Proof.
  intros Hi Hh. destruct (li_lock _ _ _ Hi) as [name Hl]. eexists. split; [exact Hl|].
  pose proof (on_wf h M o Hi Hh) as Hwf. pose proof (holding_on M o h Hi Hh) as Hho.
  unfold next. destruct (mc_pc M !!! h) eqn:Epc; simpl.
  - unfold acquire_begin. rewrite bind_assoc. erewrite bind_Ok by (by apply push_off_ok).
    rewrite bind_assoc. erewrite bind_Ok.
    2:{ apply holding_run. simpl. rewrite pushed_locks. exact Hl. }
    change (hart (k_x ((on_hart h M) <| k_x ::= pushed |>))) with (hart (pushed (k_x (on_hart h M)))).
    rewrite pushed_hart, hart_on by done. simpl.
    pose proof (li_owner _ _ _ Hi h Hh) as Ho. rewrite Epc in Ho. destruct o as [h0|]; [|done].
    destruct (decide (mc_pc M !!! h0 = Crit)) as [E|E]; [|done].
    rewrite (bool_decide_false (Some h0 = Some h)); [done|]. intros [= ->]. congruence.
  - unfold test_and_set. rewrite bind_assoc. erewrite get_lock_run by exact Hl.
    unfold put_lock. rewrite bind_assoc, bind_modify. by destruct o.
  - unfold acquire_end, mycpu, cpuid, r_tp. mred. erewrite get_lock_run by exact Hl.
    unfold put_lock. rewrite bind_modify. change (Z.to_nat (i32 (x_tp (k_x (on_hart h M))))) with
      (hart (k_x (on_hart h M))). by rewrite hart_on.
  - unfold release_begin. rewrite bind_assoc. erewrite bind_Ok by exact Hho. simpl.
    rewrite bind_assoc. erewrite get_lock_run by exact Hl. unfold put_lock. by rewrite bind_modify.
  - unfold release_end. rewrite bind_assoc. erewrite get_lock_run by exact Hl. rewrite bind_assoc.
    unfold put_lock. rewrite bind_modify. erewrite bind_Ok; [reflexivity|]. apply pop_off_ok.
    + exact Hwf.
    + unfold sie_on. simpl. by rewrite (li_sie _ _ _ Hi h Hh) by (by rewrite Epc).
    + change (this_cpu _) with (this_cpu (k_x (on_hart h M))). rewrite cpu_on by done.
      rewrite (li_noff _ _ _ Hi h Hh), Epc. simpl. lia.
Qed.

Lemma pc_back M h p h' : length (mc_pc M) = NCPU → (h < NCPU)%nat →
  <[h := p]> (mc_pc M) !!! h' = if decide (h' = h) then p else mc_pc M !!! h'.
Proof.
  intros Hl Hh. case_decide as E; [subst; apply list_lookup_total_insert_eq; lia|].
  by apply list_lookup_total_insert_ne.
Qed.

(** The invariant after a step of [h], from what the step did to memory. *)
Lemma lock_inv_back M o h s p o' name :
  lock_inv lk M o → (h < NCPU)%nat → length (x_cpus (k_x s)) = NCPU →
  (∀ h', h' ≠ h → x_cpus (k_x s) !!! h' = x_cpus (k_x (mc_s M)) !!! h') →
  c_noff (x_cpus (k_x s) !!! h) = (if decide (p = Out) then 0 else 1) →
  (p ≠ Out → Z.land (x_sstatus (k_x s)) SSTATUS_SIE = 0) →
  x_locks (k_x s) !! lk = Some (mk_spinlock (word o') name
    (match o' with
     | Some h0 => if decide ((if decide (h0 = h) then p else mc_pc M !!! h0) = Crit) then Some h0 else None
     | None => None end)) →
  (∀ h', (h' < NCPU)%nat → owning (if decide (h' = h) then p else mc_pc M !!! h') = bool_decide (o' = Some h')) →
  (∀ h0, o' = Some h0 → (h0 < NCPU)%nat) →
  lock_inv lk (back h s p M) o'.
Proof.
  intros [H1 H2 H3 H4 H5 H6 H7 H8] Hh Hc Hoth Hn Hsie Hl Ho Hr. split; simpl; try done.
  - by rewrite length_insert.
  - by rewrite length_insert.
  - exists name. rewrite Hl. destruct o' as [h0|]; [|done]. by rewrite pc_back.
  - intros h' Hh'. rewrite pc_back by done. by apply Ho.
  - intros h' Hh'. rewrite pc_back by done. destruct (decide (h' = h)) as [->|N]; [done|].
    rewrite Hoth by done. auto.
  - intros h' Hh'. rewrite pc_back by done. destruct (decide (h' = h)) as [->|N].
    + rewrite list_lookup_total_insert_eq by lia. auto.
    + rewrite list_lookup_total_insert_ne by done. auto.
Qed.

(** The effect of [push_off] and [pop_off] on the CPUs. *)
#[local] Transparent pushed popped.

Lemma pushed_on h M o : lock_inv lk M o → (h < NCPU)%nat → mc_pc M !!! h = Out →
  let x := pushed (k_x (on_hart h M)) in
  length (x_cpus x) = NCPU ∧ (∀ h', h' ≠ h → x_cpus x !!! h' = x_cpus (k_x (mc_s M)) !!! h') ∧
  c_noff (x_cpus x !!! h) = 1 ∧ Z.land (x_sstatus x) SSTATUS_SIE = 0 ∧
  x_locks x = x_locks (k_x (mc_s M)).
Proof.
  intros Hi Hh Epc x. pose proof (li_cpus _ _ _ Hi) as Hc. pose proof (li_noff _ _ _ Hi h Hh) as Hn.
  rewrite Epc in Hn. subst x. unfold pushed, with_cpu, set, hart; cbn.
  pose proof (hart_on h M Hh) as Eh. unfold hart in Eh. cbn in Eh. rewrite !Eh.
  split_and!; [by rewrite length_insert|intros h' N; by apply list_lookup_total_insert_ne| |apply sie_cleared|done].
  rewrite list_lookup_total_insert_eq by lia. cbn. by rewrite Hn.
Qed.

Lemma popped_on h M o l : lock_inv lk M o → (h < NCPU)%nat → mc_pc M !!! h ≠ Out →
  let x := popped (k_x (put l (on_hart h M))) in
  length (x_cpus x) = NCPU ∧ (∀ h', h' ≠ h → x_cpus x !!! h' = x_cpus (k_x (mc_s M)) !!! h') ∧
  c_noff (x_cpus x !!! h) = 0 ∧ x_locks x !! lk = Some l.
Proof.
  intros Hi Hh Epc x. pose proof (li_cpus _ _ _ Hi) as Hc. pose proof (li_noff _ _ _ Hi h Hh) as Hn.
  rewrite decide_False in Hn by done. subst x. unfold popped, with_cpu, this_cpu, set, hart; cbn.
  pose proof (hart_on h M Hh) as Eh. unfold hart in Eh. cbn in Eh. rewrite !Eh.
  assert (∀ h', h' ≠ h → ∀ c, <[h := c]> (x_cpus (k_x (mc_s M))) !!! h' = x_cpus (k_x (mc_s M)) !!! h') as Hoth
    by (intros; by apply list_lookup_total_insert_ne).
  destruct (_ && _); cbn; rewrite length_insert, list_lookup_total_insert_eq, lookup_insert_eq by lia;
    cbn; rewrite Hn; split_and!; auto.
Qed.

#[local] Opaque pushed popped.

Lemma lock_inv_step M o M' : lock_inv lk M o → mstep lk M M' → ∃ o', lock_inv lk M' o'.
Proof.
  intros Hi [h p s' Hh Hrun]. destruct (next_run M o h Hi Hh) as (l & Hl & Hnext).
  destruct (li_lock _ _ _ Hi) as [name Hl']. rewrite Hl in Hl'. injection Hl' as ->.
  rewrite Hnext in Hrun. pose proof (li_owner _ _ _ Hi) as Ho.
  pose proof (Ho h Hh) as Hoh. pose proof (li_noff _ _ _ Hi h Hh) as Hn.
  pose proof (li_sie _ _ _ Hi h Hh) as Hsie.
  assert (∀ q o', o' = o ∨ o = None ∧ o' = Some h ∨ o = Some h ∧ o' = None →
    owning q = bool_decide (o' = Some h) →
    ∀ h', (h' < NCPU)%nat → owning (if decide (h' = h) then q else mc_pc M !!! h') = bool_decide (o' = Some h')) as Hown.
  { intros q o' Hcase Hq h' Hh'. destruct (decide (h' = h)) as [->|N]; [exact Hq|]. rewrite Ho by done.
    apply bool_decide_ext. destruct Hcase as [->|[[-> ->]|[-> ->]]]; naive_solver. }
  destruct (mc_pc M !!! h) eqn:Epc; injection Hrun as <- <-; simpl in Hoh.
  - exists o. destruct (pushed_on h M o Hi Hh Epc) as (P1 & P2 & P3 & P4 & P5).
    apply (lock_inv_back M o h _ _ o name Hi Hh); [exact P1|exact P2|exact P3|by intros _| |by apply Hown; auto|apply Hi].
    etrans; [exact (f_equal (lookup lk) P5)|]. rewrite Hl. destruct o as [h0|]; [|done]. do 2 f_equal.
    destruct (decide (h0 = h)) as [->|]; [|done]. by rewrite Epc.
  - destruct o as [h0|].
    + exists (Some h0). assert (h0 ≠ h) by (intros ->; by rewrite bool_decide_true in Hoh).
      apply (lock_inv_back M (Some h0) h _ _ (Some h0) name Hi Hh); try done; [apply Hi| | |apply Hi].
      { rewrite (decide_False (P := h0 = h)) by done. simpl. by rewrite lookup_insert_eq. }
      apply Hown; auto.
    + exists (Some h).
      apply (lock_inv_back M None h _ _ (Some h) name Hi Hh); try done; [apply Hi|by intros _; apply Hsie|..].
      * rewrite (decide_True (P := h = h)) by done. simpl. by rewrite lookup_insert_eq.
      * apply Hown; [auto|by rewrite bool_decide_true].
      * by intros ? [= <-].
  - symmetry in Hoh. apply bool_decide_eq_true in Hoh as ->. exists (Some h).
    apply (lock_inv_back M (Some h) h _ _ (Some h) name Hi Hh); try done; [apply Hi|by intros _; apply Hsie|..|apply Hi].
    + rewrite (decide_True (P := h = h)) by done. simpl. by rewrite lookup_insert_eq.
    + apply Hown; [auto|by rewrite bool_decide_true].
  - symmetry in Hoh. apply bool_decide_eq_true in Hoh as ->. exists (Some h).
    apply (lock_inv_back M (Some h) h _ _ (Some h) name Hi Hh); try done; [apply Hi|by intros _; apply Hsie|..|apply Hi].
    + rewrite (decide_True (P := h = h)) by done. simpl. by rewrite lookup_insert_eq.
    + apply Hown; [auto|by rewrite bool_decide_true].
  - symmetry in Hoh. apply bool_decide_eq_true in Hoh as ->. exists None.
    destruct (popped_on h M (Some h) (mk_spinlock 0 name None) Hi Hh) as (P1 & P2 & P3 & P4); [congruence|].
    rewrite decide_False by congruence.
    apply (lock_inv_back M (Some h) h _ _ None name Hi Hh);
      [exact P1|exact P2|exact P3|done|exact P4|by apply Hown; auto|done].
Qed.

Lemma lock_inv_steps M o M' : lock_inv lk M o → rtc (mstep lk) M M' → ∃ o', lock_inv lk M' o'.
Proof.
  intros Hi Hs. revert o Hi. induction Hs as [|M1 M2 M3 Hstep _ IH]; intros o Hi; [eauto|].
  destruct (lock_inv_step _ _ _ Hi Hstep) as [o' Hi']. by eapply IH.
Qed.

End steps.

(** ** Properties *)

(** C8: mutual exclusion on [NCPU] harts.  However the pieces of [acquire] and
    [release] interleave, at most one hart is between the atomic swap and the
    end of [release]; no piece panics; [holding] is true exactly on the hart in
    the critical section; and a hart that is inside either function, or in the
    critical section, has interrupts off. *)
Theorem spinlock_mutual_exclusion lk M0 M :
  boot lk M0 → rtc (mstep lk) M0 M →
  (∀ h1 h2, (h1 < NCPU)%nat → (h2 < NCPU)%nat → owning (mc_pc M !!! h1) = true →
     owning (mc_pc M !!! h2) = true → h1 = h2) ∧
  (∀ h, (h < NCPU)%nat → ∃ p s', next lk M h = Ok p s' []) ∧
  (∀ h, (h < NCPU)%nat →
     holding lk (on_hart h M) [] = Ok (bool_decide (mc_pc M !!! h = Crit)) (on_hart h M) []) ∧
  (∀ h, (h < NCPU)%nat → mc_pc M !!! h ≠ Out → sie_on (k_x (on_hart h M)) = false).
Proof.
  intros Hb Hs. destruct (lock_inv_steps lk M0 None M (lock_inv_boot lk M0 Hb) Hs) as [o Hi].
  split_and!.
  - intros h1 h2 Hh1 Hh2. rewrite !(li_owner _ _ _ Hi) by done.
    intros ->%bool_decide_eq_true ?%bool_decide_eq_true. congruence.
  - intros h Hh. destruct (next_run lk M o h Hi Hh) as (l & _ & ->). destruct (mc_pc M !!! h); eauto.
  - intros h Hh. by eapply holding_on.
  - intros h Hh Hp. unfold sie_on. simpl. by rewrite (li_sie _ _ _ Hi h Hh Hp).
Qed.

(** C9: progress.  Whenever no hart owns the lock, the next try of any spinning
    hart takes it. *)
Theorem spinlock_progress lk M0 M h :
  boot lk M0 → rtc (mstep lk) M0 M → (h < NCPU)%nat → mc_pc M !!! h = Spin →
  (∀ h', (h' < NCPU)%nat → owning (mc_pc M !!! h') = false) →
  ∃ M', mstep lk M M' ∧ mc_pc M' !!! h = Got.
Proof.
  intros Hb Hs Hh Hp Hfree.
  destruct (lock_inv_steps lk M0 None M (lock_inv_boot lk M0 Hb) Hs) as [o Hi].
  destruct (next_run lk M o h Hi Hh) as (l & _ & Hn). rewrite Hp in Hn.
  assert (o = None) as ->.
  { destruct o as [h0|]; [|done]. pose proof (li_range _ _ _ Hi h0 eq_refl) as Hr.
    pose proof (Hfree h0 Hr) as Hx. by rewrite (li_owner _ _ _ Hi), bool_decide_true in Hx. }
  eexists. split; [by apply hart_moves|]. simpl. apply list_lookup_total_insert_eq.
  by rewrite (li_pc _ _ _ Hi).
Qed.

(** [n] nested sections. *)
Fixpoint nested (n : nat) : K unit :=
  match n with
  | O => mret ()
  | S n' => push_off;; nested n';; pop_off
  end.

Lemma xwf_pushed x : xwf x → xwf (pushed x).
Proof.
  intros W. pose proof (pushed_cpu x W) as Hc. destruct W as [H1 H2 H3]. split.
  - rewrite pushed_hart, pushed_len. done.
  - rewrite Hc. cbn. lia.
  - intros _. apply pushed_sie.
Qed.

(** Interrupt sections nest.  However many [push_off]s are nested, the
    matching [pop_off]s do not panic and leave the interrupt-enable bit as it was
    before the first one: interrupts come back on with the last [pop_off] only
    if they were on. *)
Theorem push_pop_nest n s e :
  xwf (k_x s) →
  ∃ x, nested n s e = Ok tt (s <| k_x := x |>) e ∧ x_sstatus x = x_sstatus (k_x s) ∧
    settle x = settle (k_x s).
Proof.
  intros W. destruct n as [|n].
  { exists (k_x s). split_and!; try done. by destruct s. }
  exists (settle (k_x s)). split_and!; [|done|by apply settle_idem].
  revert s W. induction n as [|n IH]; intros s W.
  - simpl. pose proof W as [Hh Hn Ho]. erewrite bind_Ok by (by apply push_off_ok). rewrite bind_ret.
    rewrite pop_off_ok.
    + unfold set. simpl. by rewrite popped_pushed.
    + apply (xwf_pushed _ W).
    + apply pushed_sie.
    + change (k_x (s <| k_x ::= pushed |>)) with (pushed (k_x s)). rewrite pushed_cpu by done. cbn. lia.
  - cbn [nested]. erewrite bind_Ok by (apply push_off_ok, W).
    pose proof (xwf_pushed _ W) as W'. erewrite bind_Ok by (by apply IH).
    assert (settle (pushed (k_x s)) = pushed (k_x s)) as E.
    { apply settle_id. rewrite pushed_cpu by done. cbn. destruct W. lia. }
    rewrite pop_off_ok; simpl; rewrite ?E.
    + unfold set. simpl. rewrite popped_pushed by done. done.
    + apply W'.
    + apply pushed_sie.
    + rewrite pushed_cpu by done. cbn. destruct W. lia.
Qed.

(** [acquire] of a lock that this CPU holds panics, and so does [release] of
    one that it does not hold. *)
Theorem lock_misuse_panics lk s e l :
  xwf (k_x s) → x_locks (k_x s) !! lk = Some l →
  (sl_locked l ≠ 0 ∧ sl_cpu l = Some (hart (k_x s)) →
     acquire lk s e = Panic "acquire" (s <| k_x ::= pushed |>)) ∧
  (sl_locked l = 0 ∨ sl_cpu l ≠ Some (hart (k_x s)) → release lk s e = Panic "release" s).
Proof.
  intros W Hl. split.
  - intros [H1 H2]. unfold acquire. erewrite bind_Ok by (apply push_off_ok, W).
    erewrite bind_Ok.
    2:{ apply (holding_run lk _ _ l). simpl. by rewrite pushed_locks. }
    change (hart (k_x (s <| k_x ::= pushed |>))) with (hart (pushed (k_x s))).
    rewrite pushed_hart, (proj2 (Z.eqb_neq _ _)), bool_decide_true by done. done.
  - intros H. unfold release. erewrite bind_Ok by (by apply (holding_run lk _ _ l)).
    destruct H as [->|H]; [done|]. rewrite bool_decide_false by done. by rewrite andb_false_r.
Qed.

(** ** Concrete runs *)

(** All harts outside, the allocator's lock free. *)
Definition harts0 : machine :=
  mk_machine (kstate0 <| k_x := mk_xstate 0 0 (replicate NCPU inhabitant)
                                  {[ Lkmem := mk_spinlock 0 "kmem" None ]} |>)
    (replicate NCPU 2) (replicate NCPU Out).

Lemma boot_harts0 : boot Lkmem harts0.
Proof.
  split; try done; [by eexists|]. intros h Hh. change NCPU with 8%nat in Hh.
  do 8 (destruct h as [|h]; [done|]). lia.
Qed.

(** Let the harts of a list move, one after the other. *)
Fixpoint schedule (lk : lockid) (hs : list nat) (M : machine) : machine :=
  match hs with
  | [] => M
  | h :: hs' =>
      match next lk M h with
      | Ok p s' [] => schedule lk hs' (back h s' p M)
      | _ => M
      end
  end.

Lemma schedule_steps lk hs M : Forall (λ h, (h < NCPU)%nat) hs → rtc (mstep lk) M (schedule lk hs M).
Proof.
  intros H. revert M. induction H as [|h hs Hh _ IH]; intros M; simpl; [done|].
  destruct (next lk M h) as [p s' [|]| |] eqn:E; try done.
  eapply rtc_l; [by apply hart_moves|apply IH].
Qed.

(** Hart 1 is in the critical section, hart 2 spins. *)
Definition harts1 : machine := schedule Lkmem [1; 1; 1; 2; 2; 2]%nat harts0.
(** Hart 1 has left again. *)
Definition harts2 : machine := schedule Lkmem [1; 1; 1; 2; 2; 2; 1; 1]%nat harts0.

Lemma harts1_pc : mc_pc harts1 = [Out; Crit; Spin; Out; Out; Out; Out; Out].
Proof. vm_compute. reflexivity. Qed.
Lemma harts2_pc : mc_pc harts2 = [Out; Out; Spin; Out; Out; Out; Out; Out].
Proof. vm_compute. reflexivity. Qed.

Lemma spinlock_mutual_exclusion_witness :
  mc_pc harts1 = [Out; Crit; Spin; Out; Out; Out; Out; Out] ∧
  (∀ h1 h2, (h1 < NCPU)%nat → (h2 < NCPU)%nat → owning (mc_pc harts1 !!! h1) = true →
     owning (mc_pc harts1 !!! h2) = true → h1 = h2) ∧
  (∀ h, (h < NCPU)%nat → ∃ p s', next Lkmem harts1 h = Ok p s' []) ∧
  (∀ h, (h < NCPU)%nat →
     holding Lkmem (on_hart h harts1) [] =
       Ok (bool_decide (mc_pc harts1 !!! h = Crit)) (on_hart h harts1) []) ∧
  (∀ h, (h < NCPU)%nat → mc_pc harts1 !!! h ≠ Out → sie_on (k_x (on_hart h harts1)) = false).
Proof.
  split; [apply harts1_pc|]. apply (spinlock_mutual_exclusion Lkmem harts0); [apply boot_harts0|].
  apply schedule_steps. change NCPU with 8%nat. repeat constructor; lia.
Defined.

Lemma spinlock_progress_witness : ∃ M', mstep Lkmem harts2 M' ∧ mc_pc M' !!! 2%nat = Got.
Proof.
  apply (spinlock_progress Lkmem harts0); [apply boot_harts0| |change NCPU with 8%nat; lia|..].
  - apply schedule_steps. change NCPU with 8%nat. repeat constructor; lia.
  - by rewrite harts2_pc.
  - intros h' Hh'. rewrite harts2_pc. change NCPU with 8%nat in Hh'.
    do 8 (destruct h' as [|h']; [done|]). lia.
Defined.

Lemma push_pop_nest_witness :
  ∃ x, nested 3 kstate0 [] = Ok tt (kstate0 <| k_x := x |>) [] ∧
    x_sstatus x = x_sstatus (k_x kstate0) ∧ settle x = settle (k_x kstate0).
Proof. apply (push_pop_nest 3 kstate0 []). apply xwf_x0. Defined.

(** A lock that hart 0 holds, and one that it does not. *)
Definition misuse : kstate :=
  kstate0 <| k_x ::= set x_locks (λ _, {[ Lkmem := mk_spinlock 1 "kmem" (Some 0%nat) ]}) |>.

Lemma lock_misuse_panics_witness :
  acquire Lkmem misuse [] = Panic "acquire" (misuse <| k_x ::= pushed |>).
Proof.
  apply (proj1 (lock_misuse_panics Lkmem misuse [] (mk_spinlock 1 "kmem" (Some 0%nat))
    ltac:(split; vm_compute; (lia || discriminate)) ltac:(reflexivity))). done.
Defined.
