(* ===== verification/CString.v ===== *)
(** kernel/string.c.

    The [mem*] functions act on byte-addressed memory.  The [str*] functions
    act on byte buffers: a [char *] argument is the list of bytes from the
    pointer on (a byte past the end of the list reads as NUL), and a
    destination is the list of bytes of the object written to. *)

From S2P Require Export Prelude.

(** ** Definitions *)

(** [for(i = 0; i < n; i++) cdst[i] = c;] *)
Fixpoint memset_loop (m : memory) (cdst c : Z) (i : Z) (n : nat) : memory :=
  match n with
  | O => m
  | S n' => memset_loop (st8 m (cdst + i) c) cdst c (i + 1) n'
  end.
Definition memset (m : memory) (dst c n : Z) : memory :=
  memset_loop m dst c 0 (Z.to_nat n).

Fixpoint memcmp_loop (m : memory) (s1 s2 : Z) (n : nat) : Z :=
  match n with
  | O => 0
  | S n' =>
      if ld8 m s1 =? ld8 m s2 then memcmp_loop m (s1 + 1) (s2 + 1) n'
      else ld8 m s1 - ld8 m s2
  end.
Definition memcmp (m : memory) (v1 v2 n : Z) : Z := memcmp_loop m v1 v2 (Z.to_nat n).

(** [while(n-- > 0) *--d = *--s;] *)
Fixpoint copy_backward (m : memory) (d s : Z) (n : nat) : memory :=
  match n with
  | O => m
  | S n' => copy_backward (st8 m (d - 1) (ld8 m (s - 1))) (d - 1) (s - 1) n'
  end.

(** [while(n-- > 0) *d++ = *s++;] *)
Fixpoint copy_forward (m : memory) (d s : Z) (n : nat) : memory :=
  match n with
  | O => m
  | S n' => copy_forward (st8 m d (ld8 m s)) (d + 1) (s + 1) n'
  end.

Definition memmove (m : memory) (dst src n : Z) : memory :=
  if n =? 0 then m else
  if (src <? dst) && (src + n >? dst)
  then copy_backward m (dst + n) (src + n) (Z.to_nat n)
  else copy_forward m dst src (Z.to_nat n).

Definition memcpy (m : memory) (dst src n : Z) : memory := memmove m dst src n.

Definition char_at (p : list Z) : Z := hd 0 p.

Fixpoint strncmp (p q : list Z) (n : nat) : Z :=
  match n with
  | O => 0
  | S n' =>
      if negb (char_at p =? 0) && (char_at p =? char_at q)
      then strncmp (tl p) (tl q) n'
      else char_at p - char_at q
  end.

(** [while(n-- > 0) *s++ = 0;] from index [i]. *)
Fixpoint zero_fill (s : list Z) (i n : nat) : list Z :=
  match n with
  | O => s
  | S n' => zero_fill (<[i := 0]> s) (S i) n'
  end.

(** [while(n-- > 0 && ( *s++ = *t++ ) != 0) ;] from index [i], then the padding. *)
Fixpoint strncpy_loop (s : list Z) (i : nat) (t : list Z) (n : nat) : list Z :=
  match n with
  | O => s
  | S n' =>
      let s' := <[i := char_at t]> s in
      if char_at t =? 0 then zero_fill s' (S i) n' else strncpy_loop s' (S i) (tl t) n'
  end.
Definition strncpy (s t : list Z) (n : Z) : list Z := strncpy_loop s 0 t (Z.to_nat n).

(** [while(--n > 0 && ( *s++ = *t++ ) != 0) ; *s = 0;] from index [i].  After a
    NUL has been copied [s] points past it, and the store zeroes one more byte. *)
Fixpoint safestrcpy_loop (s : list Z) (i : nat) (t : list Z) (n : nat) : list Z :=
  match n with
  | O => <[i := 0]> s
  | S n' =>
      let s' := <[i := char_at t]> s in
      if char_at t =? 0 then <[S i := 0]> s' else safestrcpy_loop s' (S i) (tl t) n'
  end.
Definition safestrcpy (s t : list Z) (n : Z) : list Z :=
  if n <=? 0 then s else safestrcpy_loop s 0 t (Z.to_nat (n - 1)).

Fixpoint strlen (s : list Z) : Z :=
  match s with
  | [] => 0
  | c :: s' => if c =? 0 then 0 else 1 + strlen s'
  end.

(** ** Reference definitions *)

(** The C string at the front of a buffer: the bytes before the first NUL. *)
Fixpoint cstr (s : list Z) : list Z :=
  match s with
  | [] => []
  | c :: s' => if c =? 0 then [] else c :: cstr s'
  end.

(** The first [n] bytes of [l], padded with NULs. *)
Definition pad (n : nat) (l : list Z) : list Z := take n l ++ replicate (n - length l) 0.

(** ** memory *)

Lemma ld8_memset_loop m dst c i n x :
  ld8 (memset_loop m dst c i n) x =
    if decide (dst + i <= x < dst + i + Z.of_nat n) then u8 c else ld8 m x.
Proof.
  revert m i. induction n as [|n IH]; intros m i; cbn [memset_loop].
  - rewrite decide_False by lia. done.
  - rewrite IH, ld8_st8. repeat case_decide; try lia; done.
Qed.

Lemma ld8_memset m dst c n x :
  0 <= n → ld8 (memset m dst c n) x = if decide (dst <= x < dst + n) then u8 c else ld8 m x.
Proof.
  intros Hn. unfold memset. rewrite ld8_memset_loop.
  repeat case_decide; try lia; done.
Qed.

Lemma memset_loop_ok m dst c i n : mem_ok m → mem_ok (memset_loop m dst c i n).
Proof.
  revert m i. induction n as [|n IH]; intros m i H; cbn [memset_loop]; [done|].
  by apply IH, st8_ok.
Qed.

Lemma memset_ok m dst c n : mem_ok m → mem_ok (memset m dst c n).
Proof. unfold memset. apply memset_loop_ok. Qed.

Lemma copy_forward_ok m d s n : mem_ok m → mem_ok (copy_forward m d s n).
Proof.
  revert m d s. induction n as [|n IH]; intros m d s H; cbn [copy_forward]; [done|].
  by apply IH, st8_ok.
Qed.

Lemma copy_backward_ok m d s n : mem_ok m → mem_ok (copy_backward m d s n).
Proof.
  revert m d s. induction n as [|n IH]; intros m d s H; cbn [copy_backward]; [done|].
  by apply IH, st8_ok.
Qed.

Lemma memmove_ok m d s n : mem_ok m → mem_ok (memmove m d s n).
Proof.
  intros H. unfold memmove. repeat case_match; try done.
  - by apply copy_backward_ok.
  - by apply copy_forward_ok.
Qed.

Lemma ld8_copy_forward m d s n x :
  mem_ok m → d <= s ∨ s + Z.of_nat n <= d →
  ld8 (copy_forward m d s n) x =
    if decide (d <= x < d + Z.of_nat n) then ld8 m (s + (x - d)) else ld8 m x.
Proof.
  revert m d s. induction n as [|n IH]; intros m d s Hm Hds; cbn [copy_forward].
  - rewrite decide_False by lia. done.
  - rewrite IH; [|by apply st8_ok|lia]. pose proof (ld8_range m s Hm).
    repeat case_decide; rewrite ld8_st8; case_decide; try lia; try done.
    + f_equal; lia.
    + subst. replace (s + (x - x)) with s by lia. by apply u8_small.
Qed.

Lemma ld8_copy_backward m d s n x :
  mem_ok m → s <= d →
  ld8 (copy_backward m d s n) x =
    if decide (d - Z.of_nat n <= x < d) then ld8 m (s - (d - x)) else ld8 m x.
Proof.
  revert m d s. induction n as [|n IH]; intros m d s Hm Hds; cbn [copy_backward].
  - rewrite decide_False by lia. done.
  - rewrite IH; [|by apply st8_ok|lia]. pose proof (ld8_range m (s - 1) Hm).
    repeat case_decide; rewrite ld8_st8; case_decide; try lia; try done.
    + f_equal; lia.
    + subst. replace (s - (d - (d - 1))) with (s - 1) by lia. by apply u8_small.
Qed.

(** [memmove] copies as if through a temporary buffer, whatever the overlap. *)
Lemma ld8_memmove m dst src n x :
  mem_ok m → 0 <= n →
  ld8 (memmove m dst src n) x =
    if decide (dst <= x < dst + n) then ld8 m (src + (x - dst)) else ld8 m x.
Proof.
  intros Hm Hn. unfold memmove.
  destruct (Z.eqb_spec n 0); [rewrite decide_False by lia; done|].
  destruct (Z.ltb_spec src dst); cbn [andb].
  - destruct (Z.gtb_spec (src + n) dst).
    + rewrite ld8_copy_backward by (done || lia).
      repeat case_decide; first [lia|f_equal; lia|done].
    + rewrite ld8_copy_forward by (done || lia). repeat case_decide; try lia; done.
  - rewrite ld8_copy_forward by (done || lia). repeat case_decide; try lia; done.
Qed.

Lemma memmove_equiv m dst src n :
  mem_ok m → 0 <= n → memmove m dst src n ≡ₘ stn m dst (ldn m src (Z.to_nat n)).
Proof.
  intros Hm Hn x. rewrite ld8_memmove by done. rewrite ld8_stn, length_ldn.
  rewrite Z2Nat.id by done. case_decide; [|done].
  assert (Hi : (Z.to_nat (x - dst) < Z.to_nat n)%nat) by lia.
  rewrite (list_lookup_total_correct _ _ _ (lookup_ldn m src _ _ Hi)).
  rewrite Z2Nat.id by lia. rewrite u8_small; [done|]. by apply ld8_range.
Qed.

Lemma memcmp_loop_zero m s1 s2 n :
  memcmp_loop m s1 s2 n = 0 ↔ ldn m s1 n = ldn m s2 n.
Proof.
  revert s1 s2. induction n as [|n IH]; intros s1 s2; cbn [memcmp_loop ldn]; [done|].
  destruct (Z.eqb_spec (ld8 m s1) (ld8 m s2)) as [E|E].
  - rewrite IH, E. split; [by intros ->|by intros [= ->]].
  - split; [lia|]. intros [= H _]. done.
Qed.

(** ** strings *)

Lemma char_at_cstr p : char_at p = 0 ↔ cstr p = [].
Proof. destruct p as [|c p]; simpl; [done|]. destruct (Z.eqb_spec c 0); naive_solver. Qed.

Lemma cstr_cons p : char_at p ≠ 0 → cstr p = char_at p :: cstr (tl p).
Proof. destruct p as [|c p]; simpl; [done|]. intros H. by rewrite (proj2 (Z.eqb_neq _ _) H). Qed.

Lemma cstr_nonzero s : Forall (λ c, c ≠ 0) (cstr s).
Proof.
  induction s as [|c s IH]; simpl; [constructor|].
  destruct (Z.eqb_spec c 0); constructor; done.
Qed.

Lemma cstr_app_nul s t : Forall (λ c, c ≠ 0) s → cstr (s ++ 0 :: t) = s.
Proof.
  induction 1 as [|c s Hc _ IH]; simpl; [done|].
  by rewrite (proj2 (Z.eqb_neq _ _) Hc), IH.
Qed.

Lemma strlen_cstr s : strlen s = Z.of_nat (length (cstr s)).
Proof. induction s as [|c s IH]; cbn; [done|]. case_match; cbn [length]; lia. Qed.

(** Two strings compare equal exactly when their first [n] characters agree. *)
Lemma strncmp_zero p q n : strncmp p q n = 0 ↔ take n (cstr p) = take n (cstr q).
Proof.
  revert p q. induction n as [|n IH]; intros p q; [done|].
  cbn [strncmp]. destruct (Z.eqb_spec (char_at p) 0) as [Ep|Ep]; cbn [negb andb].
  - rewrite Ep, (proj1 (char_at_cstr p) Ep). split.
    + intros H. assert (Hq : char_at q = 0) by lia. by rewrite (proj1 (char_at_cstr q) Hq).
    + intros H. destruct (decide (char_at q = 0)) as [->|Hq]; [lia|].
      rewrite (cstr_cons q Hq) in H. done.
  - rewrite (cstr_cons p Ep). destruct (Z.eqb_spec (char_at p) (char_at q)) as [E|E].
    + rewrite IH, (cstr_cons q) by congruence. simpl. rewrite E.
      split; [by intros ->|by intros [= ->]].
    + split; [lia|]. intros H. exfalso. destruct (decide (char_at q = 0)) as [Hq|Hq].
      * rewrite (proj1 (char_at_cstr q) Hq) in H. done.
      * rewrite (cstr_cons q Hq) in H. by injection H.
Qed.

Lemma length_zero_fill s i n : length (zero_fill s i n) = length s.
Proof.
  revert s i. induction n as [|n IH]; intros s i; simpl; [done|].
  by rewrite IH, length_insert.
Qed.

Lemma zero_fill_spec s i n :
  (i + n <= length s)%nat →
  zero_fill s i n = take i s ++ replicate n 0 ++ drop (i + n) s.
Proof.
  revert s i. induction n as [|n IH]; intros s i Hn; simpl.
  - rewrite Nat.add_0_r. by rewrite take_drop.
  - rewrite IH by (rewrite length_insert; lia).
    rewrite (insert_take_drop s i 0) by lia.
    assert (length (take i s) = i) as Hl by (rewrite length_take; lia).
    rewrite (app_assoc _ [0] (drop (S i) s)), take_app_length' by (rewrite length_app, Hl; simpl; lia).
    rewrite <- app_assoc. simpl. do 2 f_equal.
    rewrite drop_app_ge by (rewrite length_app, Hl; simpl; lia).
    rewrite length_app, Hl, drop_drop. simpl. f_equal. f_equal. lia.
Qed.

Lemma strncpy_loop_spec s i t n :
  (i + n <= length s)%nat →
  strncpy_loop s i t n = take i s ++ pad n (cstr t) ++ drop (i + n) s.
Proof.
  revert s i t. induction n as [|n IH]; intros s i t Hn; cbn [strncpy_loop].
  - unfold pad. simpl. rewrite Nat.add_0_r. by rewrite take_drop.
  - assert (length (take i s) = i) as Hl by (rewrite length_take; lia).
    assert (∀ x, take (S i) (<[i := x]> s) = take i s ++ [x]) as Htake.
    { intros x. rewrite insert_take_drop by lia.
      rewrite cons_middle, app_assoc, take_app_length' by (rewrite length_app, Hl; simpl; lia). done. }
    assert (∀ x k, (S i <= k)%nat → drop k (<[i := x]> s) = drop k s) as Hdrop.
    { intros x k Hk. by rewrite drop_insert_lt by lia. }
    destruct (Z.eqb_spec (char_at t) 0) as [E|E].
    + rewrite zero_fill_spec by (rewrite length_insert; lia).
      rewrite Htake, Hdrop, E, (proj1 (char_at_cstr t) E) by lia.
      unfold pad. simpl. rewrite <- app_assoc. simpl. do 4 f_equal. lia.
    + rewrite IH by (rewrite length_insert; lia).
      rewrite Htake, Hdrop, (cstr_cons t E) by lia. unfold pad. simpl.
      rewrite <- !app_assoc. simpl. do 5 f_equal. lia.
Qed.

(** [strncpy] stores exactly [n] bytes: the string, cut or padded with NULs. *)
Lemma strncpy_spec s t n :
  0 <= n <= Z.of_nat (length s) →
  strncpy s t n = pad (Z.to_nat n) (cstr t) ++ drop (Z.to_nat n) s.
Proof. intros H. unfold strncpy. rewrite strncpy_loop_spec by lia. done. Qed.

Lemma take_cstr_nonzero n s : Forall (λ c, c ≠ 0) (take n (cstr s)).
Proof. apply Forall_take, cstr_nonzero. Qed.

Lemma safestrcpy_loop_cstr s i t n pre :
  (i + n < length s)%nat → take i s = pre → Forall (λ c, c ≠ 0) pre →
  cstr (safestrcpy_loop s i t n) = pre ++ take n (cstr t).
Proof.
  revert s i t pre. induction n as [|n IH]; intros s i t pre Hn Hp Hpre; cbn [safestrcpy_loop].
  - rewrite insert_take_drop by lia. rewrite Hp, cstr_app_nul by done. by rewrite app_nil_r.
  - destruct (Z.eqb_spec (char_at t) 0) as [E|E].
    + rewrite (proj1 (char_at_cstr t) E), take_nil, app_nil_r, E.
      rewrite list_insert_insert_ne by lia.
      rewrite insert_take_drop by (rewrite length_insert; lia).
      rewrite take_insert_ge by lia. rewrite Hp. by apply cstr_app_nul.
    + rewrite (IH _ _ _ (pre ++ [char_at t])).
      * rewrite (cstr_cons t E). simpl. by rewrite <- app_assoc.
      * rewrite length_insert. lia.
      * rewrite insert_take_drop by lia. rewrite Hp.
        assert (length pre = i) as Hl by (rewrite <- Hp, length_take; lia).
        rewrite cons_middle, app_assoc, take_app_length' by (rewrite length_app, Hl; simpl; lia).
        done.
      * apply Forall_app. split; [done|]. by constructor.
Qed.

Lemma length_safestrcpy s t n : length (safestrcpy s t n) = length s.
Proof.
  unfold safestrcpy. case_match; [done|]. generalize (Z.to_nat (n - 1)), 0%nat. clear.
  intros n. revert s t. induction n as [|n IH]; intros s t i; cbn [safestrcpy_loop].
  - by rewrite length_insert.
  - case_match; rewrite ?length_insert; [done|]. by rewrite IH, length_insert.
Qed.

(** [safestrcpy] leaves the first [n-1] characters of [t], NUL-terminated. *)
Lemma safestrcpy_spec s t n :
  0 < n <= Z.of_nat (length s) →
  cstr (safestrcpy s t n) = take (Z.to_nat (n - 1)) (cstr t).
Proof.
  intros H. unfold safestrcpy. rewrite (proj2 (Z.leb_gt n 0)) by lia.
  by rewrite (safestrcpy_loop_cstr _ _ _ _ []) by (done || lia || constructor).
Qed.

#[export] Hint Resolve memset_ok memmove_ok : xv6.

#[global] Opaque memset memmove memcmp.
