(* ===== verification/Kalloc.v ===== *)
(** The physical page allocator: kernel/kalloc.c.

    The free list is the C one: [k_freelist] is the address of the first free
    page (0 when there is none), and the first eight bytes of a free page hold
    the address of the next. *)

From S2P Require Export Spinlock CString.

Section kalloc.
Context `{L : Layout}.

(** ** Definitions *)

Definition kfree (pa : Z) : K unit :=
  if negb (pa mod PGSIZE =? 0) || (pa <? end_) || (PHYSTOP <=? pa)
  then panic "kfree" else
  upd_mem (λ m, memset m pa 1 PGSIZE);;
  acquire Lkmem;;
  next ← gets k_freelist;
  upd_mem (λ m, st64 m pa next);;
  modify (set k_freelist (λ _, pa));;
  release Lkmem.

Definition kalloc : K Z :=
  acquire Lkmem;;
  r ← gets k_freelist;
  when (negb (r =? 0)) (modify (λ s, s <| k_freelist := ld64 (k_mem s) r |>));;
  release Lkmem;;
  when (negb (r =? 0)) (upd_mem (λ m, memset m r 5 PGSIZE));;
  mret r.

(** [for(; p + PGSIZE <= pa_end; p += PGSIZE) kfree(p);]; each round moves [p]
    up by a page, which bounds the number of rounds. *)
Definition freerange (pa_start pa_end : Z) : K unit :=
  loop (S (Z.to_nat ((pa_end - pa_start) / PGSIZE)))
    (λ p, if p + PGSIZE <=? pa_end then kfree p;; mret (inl (p + PGSIZE)) else mret (inr ()))
    (PGROUNDUP pa_start).

Definition kinit : K unit :=
  initlock Lkmem "kmem";;
  freerange end_ PHYSTOP.

(** ** The free list *)

(** Pages that [kfree] accepts. *)
Definition page_ok (p : Z) : Prop := p mod 4096 = 0 ∧ end_ <= p < PHYSTOP.

(** [l] is the list threaded through memory from [head]. *)
Fixpoint flist (m : memory) (head : Z) (l : list Z) : Prop :=
  match l with
  | [] => head = 0
  | p :: l' => head = p ∧ flist m (ld64 m p) l'
  end.

(** The allocator's invariant, with the free pages as a ghost list. *)
Record kmem_inv (m : memory) (head : Z) (fl : list Z) : Prop := {
  km_mem : mem_ok m;
  km_list : flist m head fl;
  km_pages : Forall page_ok fl;
  km_nodup : NoDup fl;
}.

(** The machine state in which the allocator can be called, and to which it
    returns. *)
Record kready (x : xstate) : Prop := {
  kr_xwf : xwf x;
  kr_settled : settled x;
  kr_lock : lock_free Lkmem x;
}.

(** The part of the state that the allocator changes. *)
Definition with_mem (s : kstate) (m : memory) (head : Z) : kstate :=
  s <| k_mem := m |> <| k_freelist := head |>.

(** Two memories that agree outside the page at [p]. *)
Definition same_except (p : Z) (m m' : memory) : Prop :=
  ∀ a, a < p ∨ p + PGSIZE <= a → ld8 m' a = ld8 m a.

(** ** Lemmas *)

Lemma page_ok_nonzero p : page_ok p → 0 < p.
Proof. intros [_ H]. pose proof end_range. consts. lia. Qed.

Lemma page_ok_range p : page_ok p → 0 <= p < 2 ^ 56.
Proof. intros H. pose proof (page_ok_nonzero p H). destruct H as [_ H]. consts. lia. Qed.

(** Distinct pages do not overlap. *)
Lemma page_disjoint p q :
  p mod 4096 = 0 → q mod 4096 = 0 → p ≠ q → p + PGSIZE <= q ∨ q + PGSIZE <= p.
Proof. consts. zlia. Qed.

Lemma flist_ext m m' head l :
  (∀ p, p ∈ l → ld64 m' p = ld64 m p) → flist m head l → flist m' head l.
Proof.
  revert head. induction l as [|p l IH]; intros head H Hl; simpl in *; [done|].
  destruct Hl as [-> Hl]. split; [done|]. rewrite H by set_solver.
  apply IH; [|done]. intros q Hq. apply H. set_solver.
Qed.

Lemma flist_same_except m m' p head l :
  p mod 4096 = 0 → Forall page_ok l → p ∉ l → same_except p m m' →
  flist m head l → flist m' head l.
Proof.
  intros Hp Hl Hni Hs. apply flist_ext. intros q Hq.
  unfold ld64. f_equal. apply ldn_ext. intros x Hx. apply Hs.
  rewrite Forall_forall in Hl. destruct (Hl q Hq) as [Ha _].
  assert (q ≠ p) by (intros ->; done).
  pose proof (page_disjoint q p Ha Hp H). consts. lia.
Qed.

Lemma ld8_fill m p c a :
  ld8 (memset m p c PGSIZE) a = if decide (p <= a < p + PGSIZE) then u8 c else ld8 m a.
Proof. apply ld8_memset. consts. lia. Qed.

Lemma same_except_memset m p c : same_except p m (memset m p c PGSIZE).
Proof. intros a Ha. rewrite ld8_fill, decide_False by lia. done. Qed.

Lemma same_except_st64 m p a v :
  p <= a → a + 8 <= p + PGSIZE → same_except p m (st64 m a v).
Proof. intros H1 H2 x Hx. unfold st64. apply ld8_stn_ne. rewrite length_le_bytes. lia. Qed.

Lemma same_except_trans p m1 m2 m3 :
  same_except p m1 m2 → same_except p m2 m3 → same_except p m1 m3.
Proof. intros H1 H2 a Ha. by rewrite H2, H1. Qed.

Lemma st64_ok m a v : mem_ok m → mem_ok (st64 m a v).
Proof. apply stn_ok. Qed.

Lemma kfree_ok pa s e :
  page_ok pa → xwf (k_x s) → lock_free Lkmem (k_x s) →
  kfree pa s e =
    Ok tt (s <| k_mem := st64 (memset (k_mem s) pa 1 PGSIZE) pa (k_freelist s) |>
             <| k_freelist := pa |> <| k_x ::= settle |>) e.
Proof.
  intros [Ha Hr] W F. unfold kfree. change (pa mod PGSIZE) with (pa mod 4096).
  rewrite Ha. simpl.
  rewrite (proj2 (Z.ltb_ge _ _)), (proj2 (Z.leb_gt _ _)) by lia. simpl.
  unfold upd_mem. mred.
  erewrite bind_Ok by (apply acquire_ok; done). mred.
  by erewrite (release_after _ _ (k_x s)).
Qed.

Lemma kfree_panics pa s e :
  ~ page_ok pa → kfree pa s e = Panic "kfree" s.
Proof.
  intros H. unfold kfree. change (pa mod PGSIZE) with (pa mod 4096).
  destruct (Z.eqb_spec (pa mod 4096) 0); simpl; [|done].
  destruct (Z.ltb_spec pa end_); simpl; [done|].
  destruct (Z.leb_spec PHYSTOP pa); [done|]. exfalso. apply H. unfold page_ok. lia.
Qed.

Lemma kalloc_eq s e :
  xwf (k_x s) → lock_free Lkmem (k_x s) →
  kalloc s e =
    Ok (k_freelist s)
      (if k_freelist s =? 0 then s <| k_x ::= settle |>
       else s <| k_mem := memset (k_mem s) (k_freelist s) 5 PGSIZE |>
              <| k_freelist := ld64 (k_mem s) (k_freelist s) |> <| k_x ::= settle |>) e.
Proof.
  intros W F. unfold kalloc.
  erewrite bind_Ok by (apply acquire_ok; done). mred.
  unfold upd_mem. destruct (k_freelist s =? 0) eqn:E; simpl; rewrite E; unfold when; simpl; mred.
  - erewrite bind_Ok by (by apply (release_after _ _ (k_x s))). done.
  - erewrite bind_Ok by (by apply (release_after _ _ (k_x s))). mred.
    unfold mret, M_ret, set. reflexivity.
Qed.

Lemma set_settled s f : settled (k_x s) → f = settle → s <| k_x ::= f |> = s.
Proof. intros H ->. unfold set. rewrite H. by destruct s. Qed.

(** Freeing a page that is not free puts it at the front of the free list. *)
Lemma kfree_inv s fl pa e :
  kready (k_x s) → kmem_inv (k_mem s) (k_freelist s) fl → page_ok pa → pa ∉ fl →
  ∃ m', kfree pa s e = Ok tt (with_mem s m' pa) e ∧ kmem_inv m' pa (pa :: fl) ∧
    same_except pa (k_mem s) m'.
Proof.
  intros [W St F] [Hm Hl Hp Hn] Hok Hni. rewrite kfree_ok by done.
  rewrite set_settled by done.
  exists (st64 (memset (k_mem s) pa 1 PGSIZE) pa (k_freelist s)). split; [reflexivity|].
  assert (same_except pa (k_mem s) (st64 (memset (k_mem s) pa 1 PGSIZE) pa (k_freelist s)))
    as Hse.
  { eapply same_except_trans; [apply same_except_memset|].
    apply same_except_st64; consts; lia. }
  split; [|done]. split.
  - by apply st64_ok, memset_ok.
  - split; [done|]. rewrite ld64_st64_eq. rewrite u64_small.
    + eapply flist_same_except; try done. apply Hok.
    + destruct fl as [|q fl]; simpl in Hl; [lia|]. destruct Hl as [-> _].
      apply Forall_cons in Hp as [[_ Hq] _]. pose proof end_range. consts. lia.
  - by constructor.
  - by constructor.
Qed.

(** [kalloc] takes the first free page, if there is one, and fills it with 5. *)
Lemma kalloc_inv s p fl e :
  kready (k_x s) → kmem_inv (k_mem s) (k_freelist s) (p :: fl) →
  ∃ m' h', kalloc s e = Ok p (with_mem s m' h') e ∧ kmem_inv m' h' fl ∧
    same_except p (k_mem s) m' ∧ (∀ a, p <= a < p + PGSIZE → ld8 m' a = 5).
Proof.
  intros [W St F] [Hm [Hh Hl] Hp Hn].
  apply Forall_cons in Hp as [Hok Hp]. apply NoDup_cons in Hn as [Hni Hn].
  pose proof (page_ok_nonzero p Hok).
  rewrite kalloc_eq by done. rewrite Hh, (proj2 (Z.eqb_neq p 0)) by lia.
  rewrite set_settled by done.
  exists (memset (k_mem s) p 5 PGSIZE), (ld64 (k_mem s) p).
  split; [reflexivity|]. split; [split|split].
  - by apply memset_ok.
  - eapply flist_same_except; [..|exact Hl]; [apply Hok|done|done|apply same_except_memset].
  - done.
  - done.
  - apply same_except_memset.
  - intros a Ha. by rewrite ld8_fill, decide_True.
Qed.

(** With no free page, [kalloc] returns the null pointer. *)
Lemma kalloc_empty s e :
  kready (k_x s) → kmem_inv (k_mem s) (k_freelist s) [] → kalloc s e = Ok 0 s e.
Proof.
  intros [W St F] [_ Hl _ _]. simpl in Hl. rewrite kalloc_eq by done. rewrite Hl. simpl.
  by rewrite set_settled.
Qed.

(** The pages that [freerange] frees, in the order it frees them. *)
Fixpoint pages_from (p : Z) (n : nat) : list Z :=
  match n with
  | O => []
  | S n' => p :: pages_from (p + PGSIZE) n'
  end.

Lemma elem_of_pages_from p n q :
  q ∈ pages_from p n ↔ ∃ i, 0 <= i < Z.of_nat n ∧ q = p + i * PGSIZE.
Proof.
  revert p. induction n as [|n IH]; intros p; cbn [pages_from].
  - split; [by intros H%elem_of_nil|]. intros (i & Hi & _). lia.
  - rewrite elem_of_cons, IH. split.
    + intros [->|(i & Hi & ->)]; [exists 0|exists (i + 1)]; lia.
    + intros (i & Hi & ->). destruct (decide (i = 0)) as [->|]; [left; lia|].
      right. exists (i - 1). lia.
Qed.

Lemma freerange_loop n p fuel pa_end s fl e :
  (n < fuel)%nat → kready (k_x s) → kmem_inv (k_mem s) (k_freelist s) fl →
  p mod 4096 = 0 → end_ <= p → pa_end <= PHYSTOP →
  p + Z.of_nat n * PGSIZE <= pa_end < p + (Z.of_nat n + 1) * PGSIZE →
  (∀ q, q ∈ fl → q < p) →
  ∃ m' h', loop fuel
    (λ p, if p + PGSIZE <=? pa_end then kfree p;; mret (inl (p + PGSIZE)) else mret (inr ()))
    p s e = Ok tt (with_mem s m' h') e ∧ kmem_inv m' h' (reverse (pages_from p n) ++ fl).
Proof.
  revert p fuel s fl. induction n as [|n IH]; intros p fuel s fl Hf Hk Hinv Ha He Hp Hr Hlt.
  - destruct fuel as [|fuel]; [lia|]. cbn [loop]. exists (k_mem s), (k_freelist s).
    rewrite (proj2 (Z.leb_gt _ _)) by (consts; lia). split; [by destruct s|done].
  - destruct fuel as [|fuel]; [lia|]. cbn [loop].
    rewrite (proj2 (Z.leb_le _ _)) by (consts; lia).
    assert (page_ok p) as Hok by (split; [done|consts; lia]).
    assert (p ∉ fl) as Hni by (intros Hin%Hlt; lia).
    destruct (kfree_inv s fl p e Hk Hinv Hok Hni) as (m1 & Hf1 & Hinv1 & _).
    mred. erewrite bind_Ok by exact Hf1. mred.
    destruct (IH (p + PGSIZE) fuel (with_mem s m1 p) (p :: fl)) as (m2 & h2 & Hl & Hinv2);
      [lia|done|done|consts; zlia|consts; lia|done|consts; lia| |].
    { intros q [->|Hq]%elem_of_cons; [consts; lia|]. apply Hlt in Hq. consts. lia. }
    exists m2, h2. split; [done|]. cbn [pages_from]. by rewrite reverse_cons, <- app_assoc.
Qed.

(** The number of whole pages between the kernel's end and [PHYSTOP]. *)
Definition boot_pages : nat := Z.to_nat ((PHYSTOP - PGROUNDUP end_) / PGSIZE).

Lemma boot_pages_spec :
  let p := PGROUNDUP end_ in
  p mod 4096 = 0 ∧ end_ <= p ∧ (boot_pages <= Z.to_nat ((PHYSTOP - end_) / PGSIZE))%nat ∧
  p + Z.of_nat boot_pages * PGSIZE <= PHYSTOP < p + (Z.of_nat boot_pages + 1) * PGSIZE.
Proof.
  pose proof end_range as H. unfold boot_pages. consts.
  rewrite PGROUNDUP_spec by lia. simpl.
  set (q := end_ + 4095 - (end_ + 4095) mod 4096).
  assert (q mod 4096 = 0 ∧ end_ <= q < end_ + 4096) as [Hq1 Hq2] by (subst q; zlia).
  clearbody q. split_and!; [done|lia|zlia..].
Qed.

(** After [kinit] the free list holds every whole page above the kernel. *)
Lemma kinit_inv s e :
  xwf (k_x s) → settled (k_x s) → mem_ok (k_mem s) → k_freelist s = 0 →
  ∃ s', kinit s e = Ok tt s' e ∧ kready (k_x s') ∧
    kmem_inv (k_mem s') (k_freelist s') (reverse (pages_from (PGROUNDUP end_) boot_pages)).
Proof.
  intros W St Hm Hf. unfold kinit, initlock, put_lock, get_lock. mred.
  set (s1 := s <| k_x ::= _ |>).
  assert (kready (k_x s1)) as Hk.
  { destruct W. split; [split; done| |].
    - unfold settled, s1 in *. simpl. rewrite settle_set_locks. by rewrite St.
    - eexists. simpl. rewrite lookup_insert_eq. reflexivity. }
  assert (kmem_inv (k_mem s1) (k_freelist s1) []) as Hinv by (split; simpl; try done; constructor).
  destruct boot_pages_spec as (Hb1 & Hb2 & Hb3 & Hb4). unfold freerange.
  destruct (freerange_loop boot_pages (PGROUNDUP end_) (S (Z.to_nat ((PHYSTOP - end_) / PGSIZE)))
    PHYSTOP s1 [] e) as (m2 & h2 & Hl & Hinv2); try done; [lia|by intros q Hq%elem_of_nil|].
  eexists. split; [exact Hl|]. split; [done|]. by rewrite app_nil_r in Hinv2.
Qed.

Lemma elem_of_boot_pages q : q ∈ pages_from (PGROUNDUP end_) boot_pages ↔ page_ok q.
Proof.
  destruct boot_pages_spec as (Hb1 & Hb2 & _ & Hb4).
  assert (PGROUNDUP end_ < end_ + 4096) as Hb5.
  { pose proof end_range. consts. rewrite PGROUNDUP_spec by lia. zlia. }
  rewrite elem_of_pages_from. unfold page_ok. set (p := PGROUNDUP end_) in *. clearbody p.
  change PGSIZE with 4096 in *. change PHYSTOP with 2281701376 in *. split.
  - intros (i & Hi & ->). split; [zlia|lia].
  - intros [Ha Hr]. exists ((q - p) / 4096). zlia.
Qed.

(** ** The allocator as a component *)

(** A client's history: take a page, or give back one of the pages it holds. *)
Inductive kop := OpAlloc | OpFree (i : nat).

(** The code run on a history; [out] are the pages held, in the order taken. *)
Fixpoint run_kops (ops : list kop) (out : list Z) : K (list Z) :=
  match ops with
  | [] => mret out
  | OpAlloc :: ops' =>
      p ← kalloc;
      run_kops ops' (if p =? 0 then out else out ++ [p])
  | OpFree i :: ops' =>
      match out !! i with
      | Some p => kfree p;; run_kops ops' (delete i out)
      | None => run_kops ops' out
      end
  end.

(** The specification: a stack of free pages. *)
Fixpoint spec_kops (ops : list kop) (fl out : list Z) : list Z * list Z :=
  match ops with
  | [] => (fl, out)
  | OpAlloc :: ops' =>
      match fl with
      | [] => spec_kops ops' [] out
      | p :: fl' => spec_kops ops' fl' (out ++ [p])
      end
  | OpFree i :: ops' =>
      match out !! i with
      | Some p => spec_kops ops' (p :: fl) (delete i out)
      | None => spec_kops ops' fl out
      end
  end.

Lemma run_kops_refines ops s fl out e :
  kready (k_x s) → kmem_inv (k_mem s) (k_freelist s) fl →
  Forall page_ok out → NoDup (out ++ fl) →
  ∃ m' h', run_kops ops out s e = Ok (spec_kops ops fl out).2 (with_mem s m' h') e ∧
    kmem_inv m' h' (spec_kops ops fl out).1 ∧
    Forall page_ok (spec_kops ops fl out).2 ∧
    NoDup ((spec_kops ops fl out).2 ++ (spec_kops ops fl out).1) ∧
    (spec_kops ops fl out).2 ++ (spec_kops ops fl out).1 ≡ₚ out ++ fl.
Proof.
  revert s fl out. induction ops as [|[|i] ops IH]; intros s fl out Hk Hi Hout Hnd.
  - exists (k_mem s), (k_freelist s). split_and!; try done. by destruct s.
  - cbn [run_kops spec_kops]. destruct fl as [|p fl].
    + erewrite bind_Ok by (by apply kalloc_empty). by apply IH.
    + destruct (kalloc_inv s p fl e Hk Hi) as (m1 & h1 & Hrun & Hi1 & _).
      assert (page_ok p) as Hp by (by pose proof (km_pages _ _ _ Hi) as [? _]%Forall_cons).
      pose proof (page_ok_nonzero p Hp). erewrite bind_Ok by exact Hrun.
      rewrite (proj2 (Z.eqb_neq p 0)) by lia.
      destruct (IH (with_mem s m1 h1) fl (out ++ [p])) as (m2 & h2 & H1 & H2 & H3 & H4 & H5);
        [done|done|by apply Forall_app_2; [|apply Forall_singleton]|by rewrite <- app_assoc|].
      exists m2, h2. split_and!; try done. by rewrite H5, <- app_assoc.
  - cbn [run_kops spec_kops]. destruct (out !! i) as [p|] eqn:Hp; [|by apply IH].
    assert (page_ok p) as Hok by (by eapply Forall_lookup_1).
    pose proof (delete_Permutation out i p Hp) as Hperm.
    assert (p :: delete i out ++ fl ≡ₚ out ++ fl) as Hperm'
      by (change (p :: ?l ++ fl) with ((p :: l) ++ fl); by rewrite <- Hperm).
    assert (NoDup (p :: delete i out ++ fl)) as Hnd' by (by rewrite Hperm').
    assert (p ∉ fl) as Hni by (apply NoDup_cons in Hnd' as [? _]; set_solver).
    destruct (kfree_inv s fl p e Hk Hi Hok Hni) as (m1 & Hrun & Hi1 & _).
    erewrite bind_Ok by exact Hrun.
    destruct (IH (with_mem s m1 p) (p :: fl) (delete i out)) as (m2 & h2 & H1 & H2 & H3 & H4 & H5);
      [done|done|by rewrite Hperm in Hout; apply Forall_cons in Hout as [_ ?]| |].
    { by rewrite <- Permutation_middle. }
    exists m2, h2. split_and!; try done. by rewrite H5, <- Permutation_middle, Hperm'.
Qed.

(** ** Properties *)

(** C24: after [kinit] the free list holds every page that [kfree] accepts (page
    aligned, between the end of the kernel and PHYSTOP), each exactly once, and
    nothing else; the initialisation returns, and leaves the lock free. *)
Theorem kinit_frees_all_memory s e :
  xwf (k_x s) → settled (k_x s) → mem_ok (k_mem s) → k_freelist s = 0 →
  ∃ s' fl, kinit s e = Ok tt s' e ∧ kready (k_x s') ∧
    kmem_inv (k_mem s') (k_freelist s') fl ∧ NoDup fl ∧ ∀ p, p ∈ fl ↔ page_ok p.
Proof.
  intros W St Hm Hf. destruct (kinit_inv s e W St Hm Hf) as (s' & Hr & Hk & Hi).
  exists s', (reverse (pages_from (PGROUNDUP end_) boot_pages)). split_and!; try done.
  - apply Hi.
  - intros p. by rewrite elem_of_reverse, elem_of_boot_pages.
Qed.

(** C25: the allocator refines a stack of free pages.  Any history of [kalloc]
    calls and of [kfree] calls on pages the client holds runs without a panic;
    the pages held are those the specification hands out; pages held and pages
    free are always distinct, so that no page is handed out twice, and together
    they are the pages there were at the start, so that none is lost. *)
Theorem allocator_refines ops s fl e :
  kready (k_x s) → kmem_inv (k_mem s) (k_freelist s) fl →
  ∃ m' h' fl' out, spec_kops ops fl [] = (fl', out) ∧
    run_kops ops [] s e = Ok out (with_mem s m' h') e ∧ kmem_inv m' h' fl' ∧
    NoDup (out ++ fl') ∧ out ++ fl' ≡ₚ fl.
Proof.
  intros Hk Hi. destruct (run_kops_refines ops s fl [] e) as (m' & h' & H); try done.
  { apply Hi. }
  exists m', h', (spec_kops ops fl []).1, (spec_kops ops fl []).2.
  destruct H as (H1 & H2 & _ & H3 & H4). by destruct (spec_kops ops fl []).
Qed.

(** [kfree] panics on every address that is not a page of the allocator. *)
Theorem kfree_rejects pa s e : ~ page_ok pa → kfree pa s e = Panic "kfree" s.
Proof. apply kfree_panics. Qed.

End kalloc.

(** ** Concrete runs *)

#[local] Existing Instance layout0.

Lemma kinit_frees_all_memory_witness :
  ∃ s' fl, kinit kstate0 [] = Ok tt s' [] ∧ kready (k_x s') ∧
    kmem_inv (k_mem s') (k_freelist s') fl ∧ NoDup fl ∧ ∀ p, p ∈ fl ↔ page_ok p.
Proof.
  apply (kinit_frees_all_memory kstate0 []).
  - apply xwf_x0.
  - apply settled_x0.
  - apply map_Forall_empty.
  - reflexivity.
Defined.

(** A machine with two free pages, the first linked to the second. *)
Definition two_pages : kstate :=
  kstate0 <| k_x := x0 <| x_locks := {[ Lkmem := mk_spinlock 0 "kmem" None ]} |> |>
          <| k_freelist := 2147635200 |> <| k_mem := st64 ∅ 2147635200 2147639296 |>.

Lemma kready_two_pages : kready (k_x two_pages).
Proof.
  split; [split; [apply xwf_x0..]| |by eexists].
  unfold settled. simpl. rewrite settle_set_locks. by rewrite settled_x0.
Qed.

Lemma kmem_two_pages :
  kmem_inv (k_mem two_pages) (k_freelist two_pages) [2147635200; 2147639296].
Proof.
  split.
  - apply st64_ok, map_Forall_empty.
  - vm_compute. done.
  - repeat constructor; vm_compute; (discriminate || done).
  - apply (bool_decide_unpack _). vm_compute. done.
Qed.

Lemma allocator_refines_witness :
  ∃ m' h' fl' out,
    spec_kops [OpAlloc; OpAlloc; OpAlloc; OpFree 0] [2147635200; 2147639296] [] = (fl', out) ∧
    run_kops [OpAlloc; OpAlloc; OpAlloc; OpFree 0] [] two_pages [] =
      Ok out (with_mem two_pages m' h') [] ∧
    kmem_inv m' h' fl' ∧ NoDup (out ++ fl') ∧
    out ++ fl' ≡ₚ [2147635200; 2147639296].
Proof.
  apply allocator_refines; [apply kready_two_pages|apply kmem_two_pages].
Defined.

Lemma kfree_rejects_witness : kfree 2147635201 kstate0 [] = Panic "kfree" kstate0.
Proof. apply kfree_rejects. intros [H _]. vm_compute in H. discriminate. Defined.
