(* ===== verification/Riscv.v ===== *)
(** Access to the control and status registers: the [csrr]/[csrw] wrappers of
    kernel/riscv.h (those of [sstatus] and [tp] are in Spinlock). *)

From S2P Require Export Spinlock.

Definition csr_read (c : csr) : K Z := gets (λ s, k_csr s c).
Definition csr_write (c : csr) (v : Z) : K unit :=
  modify (λ s, s <| k_csr ::= λ f c', if decide (c = c') then v else f c' |>).

Definition r_mhartid : K Z := csr_read mhartid.
Definition r_mstatus : K Z := csr_read mstatus.
Definition w_mstatus (x : Z) : K unit := csr_write mstatus x.
Definition w_mepc (x : Z) : K unit := csr_write mepc x.
Definition r_sip : K Z := csr_read sip.
Definition w_sip (x : Z) : K unit := csr_write sip x.
Definition r_sie : K Z := csr_read sie.
Definition w_sie (x : Z) : K unit := csr_write sie x.
Definition r_mie : K Z := csr_read mie.
Definition w_mie (x : Z) : K unit := csr_write mie x.
Definition w_sepc (x : Z) : K unit := csr_write sepc x.
Definition r_sepc : K Z := csr_read sepc.
Definition r_medeleg : K Z := csr_read medeleg.
Definition w_medeleg (x : Z) : K unit := csr_write medeleg x.
Definition r_mideleg : K Z := csr_read mideleg.
Definition w_mideleg (x : Z) : K unit := csr_write mideleg x.
Definition w_stvec (x : Z) : K unit := csr_write stvec x.
Definition r_stvec : K Z := csr_read stvec.
Definition r_stimecmp : K Z := csr_read stimecmp.
Definition w_stimecmp (x : Z) : K unit := csr_write stimecmp x.
Definition r_menvcfg : K Z := csr_read menvcfg.
Definition w_menvcfg (x : Z) : K unit := csr_write menvcfg x.
Definition w_pmpcfg0 (x : Z) : K unit := csr_write pmpcfg0 x.
Definition w_pmpaddr0 (x : Z) : K unit := csr_write pmpaddr0 x.
Definition w_satp (x : Z) : K unit := csr_write satp x.
Definition r_satp : K Z := csr_read satp.
Definition r_scause : K Z := csr_read scause.
Definition r_stval : K Z := csr_read stval.
Definition w_mcounteren (x : Z) : K unit := csr_write mcounteren x.
Definition r_mcounteren : K Z := csr_read mcounteren.
Definition r_time : K Z := csr_read time.
Definition r_sp : K Z := csr_read sp.
Definition r_ra : K Z := csr_read ra.

(** Flushing the TLB: translations are always read from memory in this model. *)
Definition sfence_vma : K unit := mret ().
