(* ===== verification/Vm.v ===== *)
(** Virtual memory: kernel/vm.c, and [proc_mapstacks] of kernel/proc.c.

    A page table is the physical address of its root page; entries are the
    64-bit little-endian words in memory.  Pointers to entries are their
    addresses, 0 for the null pointer.  Addresses and sizes are 64-bit and wrap
    where the C arithmetic does. *)

From S2P Require Export Kalloc Riscv.

(** The current process; dereferencing a null [myproc()] traps in the kernel,
    and [kerneltrap] panics. *)
Definition curproc : K nat :=
  o ← myproc;
  match o with Some p => mret p | None => panic "kerneltrap" end.

Definition get_proc (p : nat) : K proc := gets (λ s, proc_at s p).

Section vm.
Context `{L : Layout}.

Definition load64 (a : Z) : K Z := gets (λ s, ld64 (k_mem s) a).
Definition store64 (a v : Z) : K unit := upd_mem (λ m, st64 m a v).

Definition has (pte flag : Z) : bool := negb (Z.land pte flag =? 0).

(** One round of the loop of [walk]: [None] is [return 0]. *)
Definition walk_step (va : Z) (alloc : bool) (level pagetable : Z) : K (option Z) :=
  let pte := pagetable + 8 * PX level va in
  v ← load64 pte;
  if has v PTE_V then mret (Some (PTE2PA v)) else
  if negb alloc then mret None else
  pg ← kalloc;
  if pg =? 0 then mret None else
  upd_mem (λ m, memset m pg 0 PGSIZE);;
  store64 pte (Z.lor (PA2PTE pg) PTE_V);;
  mret (Some pg).

Definition walk (pagetable va : Z) (alloc : bool) : K Z :=
  if MAXVA <=? va then panic "walk" else
  r2 ← walk_step va alloc 2 pagetable;
  match r2 with
  | None => mret 0
  | Some t1 =>
      r1 ← walk_step va alloc 1 t1;
      match r1 with
      | None => mret 0
      | Some t0 => mret (t0 + 8 * PX 0 va)
      end
  end.

Definition walkaddr (pagetable va : Z) : K Z :=
  if MAXVA <=? va then mret 0 else
  pte ← walk pagetable va false;
  if pte =? 0 then mret 0 else
  v ← load64 pte;
  if negb (has v PTE_V) then mret 0 else
  if negb (has v PTE_U) then mret 0 else
  mret (PTE2PA v).

(** The loop of [mappages], from [a] (mapped to [pa]) up to [last]. *)
Definition mappages_loop (pagetable last perm : Z) (x : Z * Z) : K ((Z * Z) + Z) :=
  let '(a, pa) := x in
  pte ← walk pagetable a true;
  if pte =? 0 then mret (inr (-1)) else
  v ← load64 pte;
  if has v PTE_V then panic "mappages: remap" else
  store64 pte (Z.lor (Z.lor (PA2PTE pa) perm) PTE_V);;
  if a =? last then mret (inr 0) else
  mret (inl (u64 (a + PGSIZE), u64 (pa + PGSIZE))).

Definition mappages (pagetable va size pa perm : Z) : K Z :=
  if negb (va mod PGSIZE =? 0) then panic "mappages: va not aligned" else
  if negb (size mod PGSIZE =? 0) then panic "mappages: size not aligned" else
  if size =? 0 then panic "mappages: size" else
  let last := u64 (va + size - PGSIZE) in
  loop (S (Z.to_nat (size / PGSIZE))) (mappages_loop pagetable last perm) (va, pa).

Definition kvmmap (kpgtbl va pa sz perm : Z) : K unit :=
  r ← mappages kpgtbl va sz pa perm;
  if negb (r =? 0) then panic "kvmmap" else mret ().

Definition proc_mapstacks (kpgtbl : Z) : K unit :=
  for_each NPROC 0 (λ p,
    pa ← kalloc;
    if pa =? 0 then panic "kalloc" else
    let va := KSTACK (Z.of_nat p) in
    kvmmap kpgtbl va pa PGSIZE (Z.lor PTE_R PTE_W)).

Definition kvmmake : K Z :=
  kpgtbl ← kalloc;
  upd_mem (λ m, memset m kpgtbl 0 PGSIZE);;
  kvmmap kpgtbl UART0 UART0 PGSIZE (Z.lor PTE_R PTE_W);;
  kvmmap kpgtbl VIRTIO0 VIRTIO0 PGSIZE (Z.lor PTE_R PTE_W);;
  kvmmap kpgtbl PLIC PLIC 67108864 (Z.lor PTE_R PTE_W);;
  kvmmap kpgtbl KERNBASE KERNBASE (etext - KERNBASE) (Z.lor PTE_R PTE_X);;
  kvmmap kpgtbl etext etext (PHYSTOP - etext) (Z.lor PTE_R PTE_W);;
  kvmmap kpgtbl TRAMPOLINE trampoline PGSIZE (Z.lor PTE_R PTE_X);;
  proc_mapstacks kpgtbl;;
  mret kpgtbl.

Definition kvminit : K unit :=
  t ← kvmmake; modify (set k_kpgtbl (λ _, t)).

Definition kvminithart : K unit :=
  sfence_vma;;
  t ← gets k_kpgtbl;
  w_satp (MAKE_SATP t);;
  sfence_vma.

Definition uvmcreate : K Z :=
  pagetable ← kalloc;
  if pagetable =? 0 then mret 0 else
  upd_mem (λ m, memset m pagetable 0 PGSIZE);;
  mret pagetable.

(** The body of the loop of [uvmunmap] for one page. *)
Definition uvmunmap_page (pagetable : Z) (do_free : bool) (a : Z) : K unit :=
  pte ← walk pagetable a false;
  if pte =? 0 then mret () else
  v ← load64 pte;
  if negb (has v PTE_V) then mret () else
  when do_free (kfree (PTE2PA v));;
  store64 pte 0.

Definition uvmunmap (pagetable va npages : Z) (do_free : bool) : K unit :=
  if negb (va mod PGSIZE =? 0) then panic "uvmunmap: not aligned" else
  let stop := u64 (va + npages * PGSIZE) in
  loop (S (Z.to_nat npages))
    (λ a, if a <? stop then uvmunmap_page pagetable do_free a;; mret (inl (u64 (a + PGSIZE)))
          else mret (inr ()))
    va.

Definition uvmdealloc (pagetable oldsz newsz : Z) : K Z :=
  if oldsz <=? newsz then mret oldsz else
  when (PGROUNDUP newsz <? PGROUNDUP oldsz) (
    let npages := i32 ((PGROUNDUP oldsz - PGROUNDUP newsz) / PGSIZE) in
    uvmunmap pagetable (PGROUNDUP newsz) (u64 npages) true);;
  mret newsz.

Definition uvmalloc_loop (pagetable oldsz newsz xperm : Z) (a : Z) : K (Z + Z) :=
  if newsz <=? a then mret (inr newsz) else
  mem ← kalloc;
  if mem =? 0 then uvmdealloc pagetable a oldsz;; mret (inr 0) else
  upd_mem (λ m, memset m mem 0 PGSIZE);;
  r ← mappages pagetable a PGSIZE mem (Z.lor (Z.lor PTE_R PTE_U) xperm);
  if negb (r =? 0) then kfree mem;; uvmdealloc pagetable a oldsz;; mret (inr 0) else
  mret (inl (u64 (a + PGSIZE))).

Definition uvmalloc (pagetable oldsz newsz xperm : Z) : K Z :=
  if newsz <? oldsz then mret oldsz else
  let oldsz := PGROUNDUP oldsz in
  loop (S (Z.to_nat ((newsz - oldsz) / PGSIZE + 1)))
    (uvmalloc_loop pagetable oldsz newsz xperm) oldsz.

(** Recursion follows the levels of the table; [fuel] bounds its depth. *)
Fixpoint freewalk (fuel : nat) (pagetable : Z) : K unit :=
  match fuel with
  | O => stuck
  | S fuel' =>
      for_each 512 0 (λ i,
        pte ← load64 (pagetable + 8 * Z.of_nat i);
        if has pte PTE_V && negb (has pte (Z.lor (Z.lor PTE_R PTE_W) PTE_X)) then
          freewalk fuel' (PTE2PA pte);;
          store64 (pagetable + 8 * Z.of_nat i) 0
        else if has pte PTE_V then panic "freewalk: leaf" else mret ());;
      kfree pagetable
  end.

(** Sv39 tables have three levels. *)
Definition LEVELS : nat := 3.

Definition uvmfree (pagetable sz : Z) : K unit :=
  when (0 <? sz) (uvmunmap pagetable 0 (PGROUNDUP sz / PGSIZE) true);;
  freewalk LEVELS pagetable.

Definition uvmcopy_loop (old new sz : Z) (i : Z) : K (Z + Z) :=
  let err := uvmunmap new 0 (i / PGSIZE) true;; mret (inr (-1)) in
  if sz <=? i then mret (inr 0) else
  let next := mret (inl (u64 (i + PGSIZE))) in
  pte ← walk old i false;
  if pte =? 0 then next else
  v ← load64 pte;
  if negb (has v PTE_V) then next else
  let pa := PTE2PA v in
  let flags := PTE_FLAGS v in
  mem ← kalloc;
  if mem =? 0 then err else
  upd_mem (λ m, memmove m mem pa PGSIZE);;
  r ← mappages new i PGSIZE mem flags;
  if negb (r =? 0) then kfree mem;; err else next.

Definition uvmcopy (old new sz : Z) : K Z :=
  loop (S (Z.to_nat (sz / PGSIZE + 1))) (uvmcopy_loop old new sz) 0.

Definition uvmclear (pagetable va : Z) : K unit :=
  pte ← walk pagetable va false;
  if pte =? 0 then panic "uvmclear" else
  v ← load64 pte;
  store64 pte (Z.land v (Z.lnot PTE_U)).

Definition ismapped (pagetable va : Z) : K bool :=
  pte ← walk pagetable va false;
  if pte =? 0 then mret false else
  v ← load64 pte;
  mret (has v PTE_V).

Definition vmfault (pagetable va : Z) (read : bool) : K Z :=
  p ← curproc;
  pr ← get_proc p;
  if p_sz pr <=? va then mret 0 else
  let va := PGROUNDDOWN va in
  im ← ismapped pagetable va;
  if (im : bool) then mret 0 else
  mem ← kalloc;
  if mem =? 0 then mret 0 else
  upd_mem (λ m, memset m mem 0 PGSIZE);;
  r ← mappages (p_pagetable pr) va PGSIZE mem (Z.lor (Z.lor PTE_W PTE_U) PTE_R);
  if negb (r =? 0) then kfree mem;; mret 0 else
  mret mem.

(** The physical page behind a user address, faulting it in if need be. *)
Definition user_page (pagetable va0 : Z) : K Z :=
  pa0 ← walkaddr pagetable va0;
  if pa0 =? 0 then vmfault pagetable va0 false else mret pa0.

(** [src] holds the bytes to copy; [len] is their number. *)
Definition copyout_loop (pagetable : Z) (x : Z * list Z) : K ((Z * list Z) + Z) :=
  let '(dstva, src) := x in
  let len := Z.of_nat (length src) in
  if len =? 0 then mret (inr 0) else
  let va0 := PGROUNDDOWN dstva in
  if MAXVA <=? va0 then mret (inr (-1)) else
  pa0 ← user_page pagetable va0;
  if pa0 =? 0 then mret (inr (-1)) else
  pte ← walk pagetable va0 false;
  if pte =? 0 then panic "kerneltrap" else
  v ← load64 pte;
  if negb (has v PTE_W) then mret (inr (-1)) else
  let n := Z.min (PGSIZE - (dstva - va0)) len in
  upd_mem (λ m, stn m (pa0 + (dstva - va0)) (take (Z.to_nat n) src));;
  mret (inl (u64 (va0 + PGSIZE), drop (Z.to_nat n) src)).

Definition copyout (pagetable dstva : Z) (src : list Z) : K Z :=
  loop (S (length src)) (copyout_loop pagetable) (dstva, src).

(** The bytes stored at [dst] so far are accumulated; they are what the
    destination holds also when the copy fails half way. *)
Definition copyin_loop (pagetable : Z) (x : Z * Z * list Z) : K ((Z * Z * list Z) + (list Z * Z)) :=
  let '(srcva, len, dst) := x in
  if len =? 0 then mret (inr (dst, 0)) else
  let va0 := PGROUNDDOWN srcva in
  pa0 ← user_page pagetable va0;
  if pa0 =? 0 then mret (inr (dst, -1)) else
  let n := Z.min (PGSIZE - (srcva - va0)) len in
  bs ← gets (λ s, ldn (k_mem s) (pa0 + (srcva - va0)) (Z.to_nat n));
  mret (inl (u64 (va0 + PGSIZE), len - n, dst ++ bs)).

Definition copyin (pagetable srcva len : Z) : K (list Z * Z) :=
  loop (S (Z.to_nat len)) (copyin_loop pagetable) (srcva, len, []).

(** The inner loop of [copyinstr]: bytes of a page up to a NUL, [n] at most. *)
Fixpoint scan_nul (bs : list Z) : list Z * bool :=
  match bs with
  | [] => ([], false)
  | b :: bs' =>
      if b =? 0 then ([0], true)
      else let '(r, g) := scan_nul bs' in (b :: r, g)
  end.

Definition copyinstr_loop (pagetable : Z) (x : Z * Z * list Z) : K ((Z * Z * list Z) + (list Z * Z)) :=
  let '(srcva, max, dst) := x in
  if max =? 0 then mret (inr (dst, -1)) else
  let va0 := PGROUNDDOWN srcva in
  pa0 ← walkaddr pagetable va0;
  if pa0 =? 0 then mret (inr (dst, -1)) else
  let n := Z.min (PGSIZE - (srcva - va0)) max in
  bs ← gets (λ s, ldn (k_mem s) (pa0 + (srcva - va0)) (Z.to_nat n));
  let '(r, got_null) := scan_nul bs in
  if (got_null : bool) then mret (inr (dst ++ r, 0)) else
  mret (inl (u64 (va0 + PGSIZE), max - n, dst ++ r)).

Definition copyinstr (pagetable srcva max : Z) : K (list Z * Z) :=
  loop (S (Z.to_nat max)) (copyinstr_loop pagetable) (srcva, max, []).

End vm.
