(* ===== verification/PageTable.v ===== *)
(** Page tables as finite maps, and what the functions of Vm.v do to them.

    A page table in memory is described by the map [T] from paths to table
    pages: the root page is at the empty path, and the page that entry [i] of the
    page at path [π] points to is at [i :: π].  Pages at paths of length two
    hold the leaf entries; [leaf m T va] is the entry of a virtual address.  As
    [MAXVA] is half of what Sv39 allows, only the first 256 entries of the root
    are used. *)

From S2P Require Export Vm.

Section pt.
Context `{L : Layout}.

(** ** The representation *)

Abbreviation ptmap := (gmap (list Z) Z).

(** The entry that points to a table page. *)
Definition child_entry (o : option Z) : Z :=
  match o with Some p => Z.lor (PA2PTE p) PTE_V | None => 0 end.

Record pt_rep (m : memory) (T : ptmap) : Prop := {
  pt_page : ∀ π p, T !! π = Some p → page_ok p;
  pt_inj : ∀ π1 π2 p, T !! π1 = Some p → T !! π2 = Some p → π1 = π2;
  pt_closed : ∀ i π, is_Some (T !! (i :: π)) → is_Some (T !! π);
  pt_range : ∀ i π, is_Some (T !! (i :: π)) → 0 <= i < 512 ∧ (π = [] → i < 256);
  pt_depth : ∀ π, is_Some (T !! π) → (length π <= 2)%nat;
  pt_entry : ∀ π p i, T !! π = Some p → (length π < 2)%nat → 0 <= i < 512 →
    ld64 m (p + 8 * i) = child_entry (T !! (i :: π));
}.

(** The leaf entry of a virtual address, 0 where there is no leaf page. *)
Definition leaf (m : memory) (T : ptmap) (va : Z) : Z :=
  match T !! [PX 1 va; PX 2 va] with
  | Some q => ld64 m (q + 8 * PX 0 va)
  | None => 0
  end.

(** Address [a] lies in a page of the table. *)
Definition in_table (T : ptmap) (a : Z) : Prop :=
  ∃ π p, T !! π = Some p ∧ p <= a < p + PGSIZE.

(** The two memories agree outside the table. *)
Definition frame (T : ptmap) (m m' : memory) : Prop :=
  ∀ a, ~ in_table T a → ld8 m' a = ld8 m a.

(** The table grew by pages taken from the front of the free list. *)
Definition extends (T : ptmap) (fl : list Z) (T' : ptmap) (fl' : list Z) : Prop :=
  T ⊆ T' ∧ ∃ new, fl = new ++ fl' ∧
    (∀ π p, T' !! π = Some p → T !! π = Some p ∨ p ∈ new) ∧
    (∀ p, p ∈ new → ∃ π, T' !! π = Some p).

(** A state in which the table [T] and the free pages [fl] are disjoint. *)
Record vm_ok (s : kstate) (T : ptmap) (fl : list Z) : Prop := {
  vo_ready : kready (k_x s);
  vo_kmem : kmem_inv (k_mem s) (k_freelist s) fl;
  vo_pt : pt_rep (k_mem s) T;
  vo_disj : ∀ π p, T !! π = Some p → p ∉ fl;
}.

(** ** Entries *)

Lemma has_child p : page_ok p → has (child_entry (Some p)) PTE_V = true.
Proof.
  intros Hp%page_ok_range. unfold has, child_entry. rewrite land_flag by (vm_compute; intuition discriminate).
  rewrite PTE_FLAGS_lor by (done || vm_compute; intuition discriminate). done.
Qed.

Lemma child_PA p : page_ok p → PTE2PA (child_entry (Some p)) = p.
Proof.
  intros Hp. pose proof (page_ok_range p Hp). destruct Hp as [Ha _]. unfold child_entry.
  by rewrite PTE2PA_lor by (done || vm_compute; intuition discriminate).
Qed.

Lemma child_range p : page_ok p → 0 <= child_entry (Some p) < 18446744073709551616.
Proof.
  intros Hp%page_ok_range. unfold child_entry.
  rewrite pte_lor by (done || vm_compute; intuition discriminate).
  change (2 ^ 56) with 72057594037927936 in Hp. change PTE_V with 1. zlia.
Qed.

(** ** Memory *)

Lemma kmem_inv_ext m m' head fl :
  mem_ok m' → (∀ p a, p ∈ fl → p <= a < p + PGSIZE → ld8 m' a = ld8 m a) →
  kmem_inv m head fl → kmem_inv m' head fl.
Proof.
  intros Hok Hs [H1 H2 H3 H4]. split; [done| |done|done].
  eapply flist_ext; [|exact H2]. intros p Hp. unfold ld64. f_equal. apply ldn_ext.
  intros x Hx. apply (Hs p); [done|]. change PGSIZE with 4096. lia.
Qed.

(** Words in different pages, or at different indices of one page. *)
Lemma ld64_same_except m m' p q i :
  p mod 4096 = 0 → q mod 4096 = 0 → p ≠ q → 0 <= i < 512 → same_except p m m' →
  ld64 m' (q + 8 * i) = ld64 m (q + 8 * i).
Proof.
  intros Hp Hq Hne Hi Hs. unfold ld64. f_equal. apply ldn_ext. intros x Hx. apply Hs.
  destruct (page_disjoint p q Hp Hq Hne); change PGSIZE with 4096 in *; lia.
Qed.

Lemma ld64_st64_entry m p i j v :
  i ≠ j → ld64 (st64 m (p + 8 * i) v) (p + 8 * j) = ld64 m (p + 8 * j).
Proof. intros. apply ld64_st64_ne. lia. Qed.

Lemma ld64_zero_page m p i :
  0 <= i < 512 → ld64 (memset m p 0 PGSIZE) (p + 8 * i) = 0.
Proof.
  intros Hi. unfold ld64.
  assert (∀ n a, p <= a → a + Z.of_nat n <= p + 4096 →
    ldn (memset m p 0 PGSIZE) a n = replicate n 0) as H.
  { induction n as [|n IH]; intros a H1 H2; [done|]. cbn [ldn replicate]. rewrite IH by lia.
    rewrite ld8_fill, decide_True by (change PGSIZE with 4096; lia). done. }
  rewrite H by lia. done.
Qed.

(** ** Growing the table *)

(** What one allocation of a table page does: page [q], zeroed, becomes the
    child [i] of the page [p] at [π]. *)
Lemma pt_rep_grow m m1 m2 T π p q i :
  pt_rep m T → T !! π = Some p → (length π < 2)%nat → 0 <= i < 512 → (π = [] → i < 256) →
  T !! (i :: π) = None → page_ok q → (∀ π' p', T !! π' = Some p' → p' ≠ q) →
  same_except q m m1 → (∀ j, 0 <= j < 512 → ld64 m1 (q + 8 * j) = 0) →
  m2 = st64 m1 (p + 8 * i) (child_entry (Some q)) →
  pt_rep m2 (<[i :: π := q]> T).
Proof.
  intros [H1 H2 H3 HR H4 H5] Hp Hlen Hi Hi' Hnone Hq Hfresh Hs Hz ->. split.
  - intros π' p'. rewrite lookup_insert. case_decide; [intros [= <-]; done|apply H1].
  - intros π1 π2 p'. rewrite !lookup_insert. repeat case_decide; subst; try done.
    + intros [= <-] ?%Hfresh. done.
    + intros ?%Hfresh [= <-]. done.
    + apply H2.
  - intros j π'. rewrite !lookup_insert. case_decide as E.
    + injection E as -> ->. intros _. rewrite decide_False by (intros E'; apply (f_equal length) in E'; simpl in E'; lia). eauto.
    + intros Hj%H3. case_decide; [eauto|done].
  - intros j π'. rewrite lookup_insert. case_decide as E; [|apply HR].
    injection E as <- <-. done.
  - intros π'. rewrite lookup_insert. case_decide; subst; [simpl; lia|apply H4].
  - intros π' p' j. rewrite lookup_insert. destruct (H1 _ _ Hp) as [Ap _]. destruct Hq as [Aq Rq].
    pose proof (child_range q (conj Aq Rq)) as Hcr.
    case_decide as E.
    + intros [= <-] Hl Hj. subst π'. rewrite lookup_insert_ne by (intros E'; apply (f_equal length) in E'; simpl in E'; lia).
      rewrite ld64_st64_ne.
      2:{ pose proof (Hfresh _ _ Hp) as Hne.
          destruct (page_disjoint p q Ap Aq Hne); change PGSIZE with 4096 in *; lia. }
      rewrite Hz by done. destruct (T !! (j :: i :: π)) eqn:E2; [|done].
      exfalso. destruct (H3 j (i :: π)) as [? ?]; [eauto|]. congruence.
    + intros Hp' Hl Hj. rewrite lookup_insert. case_decide as E2.
      * injection E2 as -> ->. assert (p' = p) as -> by congruence.
        rewrite ld64_st64_eq. by rewrite u64_small.
      * destruct (H1 _ _ Hp') as [Ap' _].
        destruct (decide (p = p')) as [->|Hne].
        -- assert (π = π') as -> by eauto. rewrite ld64_st64_entry by congruence.
           rewrite (ld64_same_except m m1 q) by eauto using not_eq_sym. by apply H5.
        -- rewrite ld64_st64_ne.
           2:{ destruct (page_disjoint p p' Ap Ap' Hne); change PGSIZE with 4096 in *; lia. }
           rewrite (ld64_same_except m m1 q) by eauto using not_eq_sym. by apply H5.
Qed.

(** Growing the table leaves every leaf entry as it was. *)
Lemma leaf_grow m m1 T π p q i va :
  pt_rep m T → T !! π = Some p → (length π < 2)%nat → 0 <= i < 512 →
  T !! (i :: π) = None → page_ok q → (∀ π' p', T !! π' = Some p' → p' ≠ q) →
  same_except q m m1 → (∀ j, 0 <= j < 512 → ld64 m1 (q + 8 * j) = 0) →
  leaf (st64 m1 (p + 8 * i) (child_entry (Some q))) (<[i :: π := q]> T) va = leaf m T va.
Proof.
  intros [H1 H2 H3 HR H4 H5] Hp Hlen Hi Hnone Hq Hfresh Hs Hz. unfold leaf.
  pose proof (PX_range 0 va) as Hx. destruct (H1 _ _ Hp) as [Ap _]. destruct Hq as [Aq Rq].
  rewrite lookup_insert. case_decide as E.
  - rewrite <- E, Hnone. rewrite ld64_st64_ne; [by rewrite Hz|].
    pose proof (Hfresh _ _ Hp) as Hne.
    destruct (page_disjoint p q Ap Aq Hne); change PGSIZE with 4096 in *; lia.
  - destruct (T !! [PX 1 va; PX 2 va]) as [q'|] eqn:E'; [|done].
    destruct (H1 _ _ E') as [Aq' _].
    assert (p ≠ q') as Hne.
    { intros <-. pose proof (H2 _ _ _ Hp E') as ->. simpl in Hlen. lia. }
    rewrite ld64_st64_ne.
    2:{ destruct (page_disjoint p q' Ap Aq' Hne); change PGSIZE with 4096 in *; lia. }
    apply (ld64_same_except m m1 q); eauto using not_eq_sym.
Qed.

Lemma extends_refl T fl : extends T fl T fl.
Proof. split; [done|]. exists []. split_and!; [done|by left|by intros p ?%elem_of_nil]. Qed.

Lemma extends_trans T1 f1 T2 f2 T3 f3 :
  extends T1 f1 T2 f2 → extends T2 f2 T3 f3 → extends T1 f1 T3 f3.
Proof.
  intros [S1 (n1 & -> & H1 & I1)] [S2 (n2 & -> & H2 & I2)]. split; [by etrans|].
  exists (n1 ++ n2). split_and!; [by rewrite app_assoc| |].
  - intros π p [Hp|Hp]%H2; [apply H1 in Hp as [?|?]; [by left|]|]; set_solver.
  - intros p [[π Hp]%I1|?]%elem_of_app; [|by apply I2]. exists π. by eapply lookup_weaken.
Qed.

Lemma frame_refl T m : frame T m m.
Proof. done. Qed.

Lemma frame_trans T1 T2 m1 m2 m3 :
  T1 ⊆ T2 → frame T1 m1 m2 → frame T2 m2 m3 → frame T2 m1 m3.
Proof.
  intros HT H1 H2 a Ha. rewrite H2 by done. apply H1. intros (π & p & Hp & Hr).
  apply Ha. exists π, p. split; [|done]. by eapply lookup_weaken.
Qed.

(** ** walk *)

(** The result of a step of the walk: the child page, if there is one now. *)
Definition step_post (s : kstate) (T : ptmap) (fl : list Z) (alloc : bool) (path : list Z)
    (r : option Z) (m' : memory) (h' : Z) (T' : ptmap) (fl' : list Z) : Prop :=
  vm_ok (with_mem s m' h') T' fl' ∧ extends T fl T' fl' ∧ frame T' (k_mem s) m' ∧
  (∀ va', leaf m' T' va' = leaf (k_mem s) T va') ∧
  match r with
  | Some q => T' !! path = Some q
  | None => T' = T ∧ T !! path = None ∧ (alloc = true → fl' = [])
  end ∧ (alloc = false → m' = k_mem s ∧ h' = k_freelist s ∧ T' = T ∧ fl' = fl).

Lemma with_mem_id s : with_mem s (k_mem s) (k_freelist s) = s.
Proof. by destruct s. Qed.

(** The allocating branch: page [q], taken from the free list, becomes a child. *)
Lemma grow_ok s T q fl π pt i m1 h1 :
  vm_ok s T (q :: fl) → T !! π = Some pt → (length π < 2)%nat → 0 <= i < 512 →
  (π = [] → i < 256) → T !! (i :: π) = None → kmem_inv m1 h1 fl → same_except q (k_mem s) m1 →
  let m2 := memset m1 q 0 PGSIZE in
  let m3 := st64 m2 (pt + 8 * i) (child_entry (Some q)) in
  step_post s T (q :: fl) true (i :: π) (Some q) m3 h1 (<[i :: π := q]> T) fl.
Proof.
  intros [Hk Hm Ht Hd] Hp Hlen Hi Hi' Hnone Hm1 Hs1 m2 m3.
  pose proof (km_pages _ _ _ Hm) as [Hok Hpages]%Forall_cons.
  pose proof (km_nodup _ _ _ Hm) as [Hni _]%NoDup_cons.
  assert (same_except q (k_mem s) m2) as Hs2.
  { eapply same_except_trans; [exact Hs1|apply same_except_memset]. }
  assert (∀ π' p', T !! π' = Some p' → p' ≠ q) as Hfresh.
  { intros π' p' Hp' ->. apply (Hd _ _ Hp'). by left. }
  assert (∀ j, 0 <= j < 512 → ld64 m2 (q + 8 * j) = 0) as Hz by (intros; by apply ld64_zero_page).
  assert (same_except pt m2 m3) as Hs3.
  { apply same_except_st64; change PGSIZE with 4096; lia. }
  pose proof (pt_page _ _ Ht _ _ Hp) as [Apt _].
  split_and!; [split; [done| | |]|split| | |apply lookup_insert_eq|done].
  - simpl. eapply kmem_inv_ext; [apply st64_ok, memset_ok, Hm1| |exact Hm1].
    intros p a Hin Ha. rewrite Forall_forall in Hpages. destruct (Hpages p Hin) as [Ap _].
    assert (q ≠ p) as N1 by (by intros ->).
    assert (pt ≠ p) as N2 by (intros ->; apply (Hd _ _ Hp); by right).
    destruct Hok as [Aq _].
    rewrite Hs3 by (destruct (page_disjoint pt p Apt Ap N2); lia).
    unfold m2. rewrite ld8_fill, decide_False; [done|].
    destruct (page_disjoint q p Aq Ap N1); lia.
  - eapply (pt_rep_grow (k_mem s) m2); eauto.
  - intros π' p'. rewrite lookup_insert. case_decide; [by intros [= <-]|].
    intros Hp' Hin. apply (Hd _ _ Hp'). by right.
  - by apply insert_subseteq.
  - exists [q]. split_and!; [done| |].
    + intros π' p'. rewrite lookup_insert. case_decide; [intros [= <-]; right; by left|by left].
    + intros p ->%list_elem_of_singleton. exists (i :: π). apply lookup_insert_eq.
  - intros a Ha. rewrite Hs3.
    + apply Hs2. destruct (decide (a < q ∨ q + PGSIZE <= a)); [done|]. exfalso. apply Ha.
      exists (i :: π), q. split; [apply lookup_insert_eq|lia].
    + destruct (decide (a < pt ∨ pt + PGSIZE <= a)); [done|]. exfalso. apply Ha.
      exists π, pt. split; [|lia].
      rewrite lookup_insert_ne; [done|]. intros E. apply (f_equal length) in E. simpl in E. lia.
  - intros va'. eapply leaf_grow; eauto.
Qed.

(** A step that changes nothing. *)
Lemma step_post_same s T fl alloc path r :
  vm_ok s T fl →
  match r with Some q => T !! path = Some q | None => T !! path = None ∧ (alloc = true → fl = []) end →
  step_post s T fl alloc path r (k_mem s) (k_freelist s) T fl.
Proof.
  intros Hv Hr. split_and!; [by rewrite with_mem_id|apply extends_refl|apply frame_refl|done| |done].
  destruct r; [done|]. by destruct Hr.
Qed.

Lemma walk_step_ok s T fl va alloc level π pt e :
  vm_ok s T fl → T !! π = Some pt → (length π < 2)%nat → (π = [] → PX level va < 256) →
  ∃ r m' h' T' fl', walk_step va alloc level pt s e = Ok r (with_mem s m' h') e ∧
    step_post s T fl alloc (PX level va :: π) r m' h' T' fl'.
Proof.
  intros Hv Hp Hlen Hi'. pose proof Hv as [Hk Hm Ht Hd]. pose proof (PX_range level va) as Hi.
  set (i := PX level va) in *. unfold walk_step, load64. fold i. rewrite bind_gets.
  rewrite (pt_entry _ _ Ht _ _ _ Hp Hlen Hi).
  destruct (T !! (i :: π)) as [q|] eqn:Hq.
  { pose proof (pt_page _ _ Ht _ _ Hq) as Hok. rewrite has_child, child_PA by done.
    exists (Some q), (k_mem s), (k_freelist s), T, fl.
    split; [by rewrite with_mem_id|by apply step_post_same]. }
  change (has (child_entry None) PTE_V) with false. cbv iota.
  destruct alloc; cbn [negb]; cbv iota.
  2:{ exists None, (k_mem s), (k_freelist s), T, fl.
      split; [by rewrite with_mem_id|by apply step_post_same]. }
  destruct fl as [|q fl].
  { erewrite bind_Ok by (by apply kalloc_empty). cbn.
    exists None, (k_mem s), (k_freelist s), T, [].
    split; [by rewrite with_mem_id|by apply step_post_same]. }
  destruct (kalloc_inv s q fl e Hk Hm) as (m1 & h1 & Hrun & Hm1 & Hs1 & _).
  pose proof (km_pages _ _ _ Hm) as [Hok _]%Forall_cons.
  pose proof (page_ok_nonzero q Hok) as Hpos.
  erewrite bind_Ok by exact Hrun. rewrite (proj2 (Z.eqb_neq q 0)) by lia.
  unfold upd_mem, store64, upd_mem. rewrite !bind_modify.
  eexists (Some q), _, h1, _, fl. split; [unfold with_mem; reflexivity|].
  by apply grow_ok.
Qed.

(** What [walk] does: on success the leaf page exists, and the result is the
    address of the entry; with [alloc] it fails only when memory is exhausted. *)
Definition walk_post (s : kstate) (T : ptmap) (fl : list Z) (alloc : bool) (va r : Z)
    (m' : memory) (h' : Z) (T' : ptmap) (fl' : list Z) : Prop :=
  vm_ok (with_mem s m' h') T' fl' ∧ extends T fl T' fl' ∧ frame T' (k_mem s) m' ∧
  (∀ va', leaf m' T' va' = leaf (k_mem s) T va') ∧
  match T' !! [PX 1 va; PX 2 va] with
  | Some q => r = q + 8 * PX 0 va
  | None => r = 0 ∧ (alloc = true → fl' = [])
  end ∧ (alloc = false → m' = k_mem s ∧ h' = k_freelist s ∧ T' = T ∧ fl' = fl).

Lemma PX2_range va : 0 <= va < MAXVA → PX 2 va < 256.
Proof.
  intros H. rewrite PX_spec by lia. change (2 ^ (12 + 9 * 2)) with 1073741824.
  change MAXVA with 274877906944 in H. zlia.
Qed.

Lemma with_mem_twice s m1 h1 m2 h2 : with_mem (with_mem s m1 h1) m2 h2 = with_mem s m2 h2.
Proof. done. Qed.

Lemma walk_ok s T fl va alloc root e :
  vm_ok s T fl → T !! [] = Some root → 0 <= va < MAXVA →
  ∃ r m' h' T' fl', walk root va alloc s e = Ok r (with_mem s m' h') e ∧
    walk_post s T fl alloc va r m' h' T' fl'.
Proof.
  intros Hv Hroot Hva. unfold walk. rewrite (proj2 (Z.leb_gt _ _)) by lia.
  destruct (walk_step_ok s T fl va alloc 2 [] root e Hv Hroot)
    as (r1 & m1 & h1 & T1 & fl1 & Hrun1 & Hv1 & He1 & Hf1 & Hl1 & Hr1 & Hn1);
    [simpl; lia|by intros _; apply PX2_range|].
  erewrite bind_Ok by exact Hrun1. destruct r1 as [t1|].
  2:{ destruct Hr1 as (-> & Hnone & Hfl). exists 0, m1, h1, T, fl1. split; [done|].
      split_and!; try done. destruct (T !! [PX 1 va; PX 2 va]) eqn:E; [|done]. exfalso.
      destruct (pt_closed _ _ (vo_pt _ _ _ Hv) (PX 1 va) [PX 2 va]) as [? ?]; [eauto|congruence]. }
  destruct (walk_step_ok (with_mem s m1 h1) T1 fl1 va alloc 1 [PX 2 va] t1 e Hv1 Hr1)
    as (r2 & m2 & h2 & T2 & fl2 & Hrun2 & Hv2 & He2 & Hf2 & Hl2 & Hr2 & Hn2);
    [simpl; lia|done|].
  erewrite bind_Ok by exact Hrun2. rewrite !with_mem_twice in *.
  assert (∀ va', leaf m2 T2 va' = leaf (k_mem s) T va') as Hl by (intros; by rewrite Hl2, <- Hl1).
  assert (frame T2 (k_mem s) m2) as Hf by (eapply frame_trans; [apply He2|done|exact Hf2]).
  assert (alloc = false → m2 = k_mem s ∧ h2 = k_freelist s ∧ T2 = T ∧ fl2 = fl) as Hn.
  { intros ->. destruct Hn1 as (-> & -> & -> & ->); [done|]. by apply Hn2. }
  destruct r2 as [t0|]; eexists _, m2, h2, T2, fl2.
  - split; [reflexivity|]. split_and!; try done; [by eapply extends_trans|by rewrite Hr2].
  - split; [reflexivity|]. destruct Hr2 as (-> & Hnone & Hfl).
    split_and!; try done; [by eapply extends_trans|by rewrite Hnone].
Qed.

(** ** Writing a leaf entry *)

Lemma PX_same va va' :
  0 <= va < MAXVA → 0 <= va' < MAXVA → va / 4096 = va' / 4096 → ∀ l, 0 <= l → PX l va = PX l va'.
Proof.
  intros H1 H2 E l Hl. rewrite !PX_spec by lia. f_equal.
  rewrite Z.pow_add_r by lia. change (2 ^ 12) with 4096.
  assert (0 < 2 ^ (9 * l)) by (apply Z.pow_pos_nonneg; lia).
  by rewrite <- (Z.div_div va 4096 (2 ^ (9 * l))), <- (Z.div_div va' 4096 (2 ^ (9 * l))), E by lia.
Qed.

Lemma same_page va va' :
  0 <= va < MAXVA → 0 <= va' < MAXVA →
  PX 2 va = PX 2 va' → PX 1 va = PX 1 va' → PX 0 va = PX 0 va' → va / 4096 = va' / 4096.
Proof.
  intros H1 H2 E2 E1 E0. pose proof (va_decompose va H1). pose proof (va_decompose va' H2).
  rewrite E2, E1, E0 in *. zlia.
Qed.

Lemma leaf_set m T va q v :
  pt_rep m T → T !! [PX 1 va; PX 2 va] = Some q → 0 <= v < 18446744073709551616 →
  0 <= va < MAXVA →
  let m' := st64 m (q + 8 * PX 0 va) v in
  pt_rep m' T ∧ same_except q m m' ∧
  ∀ va', 0 <= va' < MAXVA →
    leaf m' T va' = if decide (va' / 4096 = va / 4096) then v else leaf m T va'.
Proof.
  intros [H1 H2 H3 HR H4 H5] Hq Hv Hva m'. pose proof (PX_range 0 va) as Hx.
  assert (same_except q m m') as Hs.
  { apply same_except_st64; change PGSIZE with 4096; lia. }
  destruct (H1 _ _ Hq) as [Aq _]. split; [|split; [done|]].
  - split; try done. intros π p i Hp Hl Hi. rewrite <- (H5 π p i) by done.
    destruct (H1 _ _ Hp) as [Ap _]. apply (ld64_same_except m m' q); try done.
    intros <-. pose proof (H2 _ _ _ Hp Hq) as ->. simpl in Hl. lia.
  - intros va' Hva'. unfold leaf. case_decide as E.
    + pose proof (PX_same va' va Hva' Hva E) as EPX.
      rewrite !EPX, Hq by lia. unfold m'. by rewrite ld64_st64_eq, u64_small.
    + destruct (T !! [PX 1 va'; PX 2 va']) as [q'|] eqn:E'; [|done].
      destruct (H1 _ _ E') as [Aq' _]. pose proof (PX_range 0 va').
      destruct (decide (q = q')) as [<-|Hne].
      * apply ld64_st64_entry. intros E0. apply E.
        pose proof (H2 _ _ _ Hq E') as [= E1 E2]. by apply same_page.
      * apply (ld64_same_except m m' q); done.
Qed.

Lemma vm_set_leaf s T fl va q v :
  vm_ok s T fl → T !! [PX 1 va; PX 2 va] = Some q → 0 <= v < 18446744073709551616 →
  0 <= va < MAXVA →
  let m' := st64 (k_mem s) (q + 8 * PX 0 va) v in
  vm_ok (with_mem s m' (k_freelist s)) T fl ∧ frame T (k_mem s) m' ∧
  ∀ va', 0 <= va' < MAXVA →
    leaf m' T va' = if decide (va' / 4096 = va / 4096) then v else leaf (k_mem s) T va'.
Proof.
  intros [Hk Hm Ht Hd] Hq Hv Hva m'.
  destruct (leaf_set _ _ _ _ v Ht Hq Hv Hva) as (Hrep & Hs & Hl). fold m' in Hrep, Hs, Hl.
  destruct (pt_page _ _ Ht _ _ Hq) as [Aq _]. split; [|split; [|done]].
  - split; [done| |done|done]. simpl. eapply kmem_inv_ext; [by apply st64_ok, Hm| |exact Hm].
    intros p a Hin Ha. pose proof (km_pages _ _ _ Hm) as Hpg. rewrite Forall_forall in Hpg.
    destruct (Hpg p Hin) as [Ap _]. apply Hs.
    assert (q ≠ p) as N by (intros ->; by apply (Hd _ _ Hq)).
    destruct (page_disjoint q p Aq Ap N); lia.
  - intros a Ha. apply Hs. destruct (decide (a < q ∨ q + PGSIZE <= a)); [done|]. exfalso.
    apply Ha. eexists _, q. split; [exact Hq|lia].
Qed.

(** ** mappages *)

(** The leaf entry that maps [pa] with permissions [perm]. *)
Definition mk_pte (pa perm : Z) : Z := Z.lor (Z.lor (PA2PTE pa) perm) PTE_V.

Lemma lor_flags perm : 0 <= perm < 1024 → 0 <= Z.lor perm PTE_V < 1024.
Proof.
  intros H. assert (Z.lor perm PTE_V = Z.lor perm PTE_V mod 2 ^ 10) as ->; [|zlia].
  rewrite <- Z.land_ones, Z.land_lor_distr_l, Z.land_ones by lia.
  by rewrite (Z.mod_small perm).
Qed.

Lemma mk_pte_val pa perm :
  0 <= pa < 2 ^ 56 → 0 <= perm < 1024 →
  mk_pte pa perm = pa / 4096 * 1024 + Z.lor perm PTE_V.
Proof. intros. unfold mk_pte. rewrite <- Z.lor_assoc. apply pte_lor; [done|by apply lor_flags]. Qed.

Lemma mk_pte_range pa perm :
  0 <= pa < 2 ^ 56 → 0 <= perm < 1024 → 0 <= mk_pte pa perm < 18446744073709551616.
Proof.
  intros H1 H2. rewrite mk_pte_val by done. pose proof (lor_flags perm H2).
  change (2 ^ 56) with 72057594037927936 in H1. zlia.
Qed.

(** The leaf entries after [k] pages from [va] are mapped to [pa]. *)
Definition mapped (m : memory) (T : ptmap) (m' : memory) (T' : ptmap) (va pa perm k : Z) : Prop :=
  ∀ va', 0 <= va' < MAXVA →
    leaf m' T' va' =
    if decide (va <= va' < va + k * 4096) then mk_pte (pa + (va' - va) / 4096 * 4096) perm
    else leaf m T va'.

(** One page. *)
Lemma map_one s T fl root last perm a pa e :
  vm_ok s T fl → T !! [] = Some root → 0 <= a < MAXVA → 0 <= pa < 2 ^ 56 → 0 <= perm < 1024 →
  has (leaf (k_mem s) T a) PTE_V = false →
  ∃ r m' h' T' fl', mappages_loop root last perm (a, pa) s e = Ok r (with_mem s m' h') e ∧
    vm_ok (with_mem s m' h') T' fl' ∧ extends T fl T' fl' ∧ frame T' (k_mem s) m' ∧
    ((r = inr (-1) ∧ fl' = [] ∧ ∀ va', leaf m' T' va' = leaf (k_mem s) T va') ∨
     (r = (if a =? last then inr 0 else inl (u64 (a + PGSIZE), u64 (pa + PGSIZE))) ∧
      ∀ va', 0 <= va' < MAXVA → leaf m' T' va' =
        if decide (va' / 4096 = a / 4096) then mk_pte pa perm else leaf (k_mem s) T va')).
Proof.
  intros Hv Hroot Ha Hpa Hperm Hfree. unfold mappages_loop.
  destruct (walk_ok s T fl a true root e Hv Hroot Ha)
    as (r & m1 & h1 & T1 & fl1 & Hrun & Hv1 & He & Hf & Hl & Hr & _).
  erewrite bind_Ok by exact Hrun. destruct (T1 !! [PX 1 a; PX 2 a]) as [q|] eqn:Hq.
  2:{ destruct Hr as [-> Hfl]. exists (inr (-1)), m1, h1, T1, fl1.
      split_and!; try done. left. eauto. }
  subst r. pose proof (pt_page _ _ (vo_pt _ _ _ Hv1) _ _ Hq) as Hok.
  pose proof (page_ok_nonzero q Hok). pose proof (PX_range 0 a).
  rewrite (proj2 (Z.eqb_neq (q + 8 * PX 0 a) 0)) by lia.
  unfold load64. rewrite bind_gets. cbn [k_mem with_mem].
  assert (leaf m1 T1 a = ld64 m1 (q + 8 * PX 0 a)) as El by (unfold leaf; by rewrite Hq).
  change (k_mem (with_mem s m1 h1)) with m1. rewrite <- El, Hl, Hfree.
  unfold store64, upd_mem. rewrite bind_modify.
  destruct (vm_set_leaf (with_mem s m1 h1) T1 fl1 a q (mk_pte pa perm) Hv1 Hq)
    as (Hv2 & Hf2 & Hl2); [by apply mk_pte_range|done|].
  exists (if a =? last then inr 0 else inl (u64 (a + PGSIZE), u64 (pa + PGSIZE))),
    (st64 m1 (q + 8 * PX 0 a) (mk_pte pa perm)), h1, T1, fl1.
  split; [by destruct (a =? last)|].
  split_and!; [exact Hv2|done|by eapply frame_trans|]. right. split; [done|].
  intros va' Hva'. change (k_mem (with_mem s m1 h1)) with m1 in Hl2.
  rewrite Hl2 by done. case_decide; [done|apply Hl].
Qed.

Lemma mapped_cons m T m1 T1 m2 T2 a pa perm k :
  0 <= a → a mod 4096 = 0 → 0 <= k →
  (∀ va', 0 <= va' < MAXVA → leaf m1 T1 va' =
     if decide (va' / 4096 = a / 4096) then mk_pte pa perm else leaf m T va') →
  mapped m1 T1 m2 T2 (a + 4096) (pa + 4096) perm k →
  mapped m T m2 T2 a pa perm (k + 1).
Proof.
  intros Ha Al Hk H1 H2 va' Hva'. rewrite H2 by done. case_decide as E1.
  - rewrite decide_True by lia. f_equal. zlia.
  - rewrite H1 by done. case_decide as E2.
    + rewrite decide_True by zlia. f_equal. zlia.
    + rewrite decide_False; [done|]. intros ?. apply E2. zlia.
Qed.

Lemma map_loop n fuel s T fl root last perm a pa e :
  vm_ok s T fl → T !! [] = Some root → 0 <= a → a mod 4096 = 0 →
  (n < fuel)%nat → a + (Z.of_nat n + 1) * 4096 <= MAXVA →
  0 <= pa → pa + (Z.of_nat n + 1) * 4096 <= 2 ^ 56 → 0 <= perm < 1024 →
  (∀ va', a <= va' < a + (Z.of_nat n + 1) * 4096 → has (leaf (k_mem s) T va') PTE_V = false) →
  last = a + Z.of_nat n * 4096 →
  ∃ r m' h' T' fl' k, loop fuel (mappages_loop root last perm) (a, pa) s e =
      Ok r (with_mem s m' h') e ∧
    vm_ok (with_mem s m' h') T' fl' ∧ extends T fl T' fl' ∧ frame T' (k_mem s) m' ∧
    mapped (k_mem s) T m' T' a pa perm k ∧
    ((r = 0 ∧ k = Z.of_nat n + 1) ∨ (r = -1 ∧ 0 <= k < Z.of_nat n + 1 ∧ fl' = [])).
Proof.
  revert fuel s T fl a pa. induction n as [|n IH];
    intros fuel s T fl a pa Hv Hroot Ha Al Hfuel Hmax Hpa Hpm Hperm Hfree Hlast;
    (destruct fuel as [|fuel]; [lia|]); cbn [loop].
  all: destruct (map_one s T fl root last perm a pa e Hv Hroot)
    as (r & m1 & h1 & T1 & fl1 & Hrun & Hv1 & He1 & Hf1 & Hr);
    [lia|lia|done|apply Hfree; lia|]; erewrite bind_Ok by exact Hrun;
    destruct Hr as [(-> & Hfl & Hl)|(-> & Hl)];
    [exists (-1), m1, h1, T1, fl1, 0; split_and!; try done; [|right; lia || (split_and!; (lia || done))];
     intros va' Hva'; rewrite Hl, decide_False by lia; done|].
  - rewrite (proj2 (Z.eqb_eq a last)) by lia.
    exists 0, m1, h1, T1, fl1, 1. split_and!; try done; [|left; lia].
    intros va' Hva'. rewrite Hl by done. case_decide as E.
    + rewrite decide_True by zlia. f_equal. zlia.
    + rewrite decide_False; [done|]. intros ?. apply E. zlia.
  - rewrite (proj2 (Z.eqb_neq a last)) by lia. change PGSIZE with 4096.
    change MAXVA with 274877906944 in *. change (2 ^ 56) with 72057594037927936 in *.
    rewrite !u64_small by lia.
    destruct (IH fuel (with_mem s m1 h1) T1 fl1 (a + 4096) (pa + 4096))
      as (r & m2 & h2 & T2 & fl2 & k & Hrun2 & Hv2 & He2 & Hf2 & Hm2 & Hr2); try done; try lia.
    + eapply lookup_weaken; [exact Hroot|apply He1].
    + zlia.
    + intros va' Hva'. change (k_mem (with_mem s m1 h1)) with m1. rewrite Hl by lia.
      rewrite decide_False by zlia. apply Hfree. lia.
    + exists r, m2, h2, T2, fl2, (k + 1). rewrite with_mem_twice in *.
      split_and!; try done.
      * by eapply extends_trans.
      * eapply frame_trans; [apply He2|exact Hf1|exact Hf2].
      * eapply mapped_cons; [done|done| |exact Hl|exact Hm2]. destruct Hr2; lia.
      * destruct Hr2 as [[-> ->]|(-> & ? & ->)]; [left|right]; split_and!; (lia || done).
Qed.

(** [mappages], with every branch that does not panic. *)
Lemma mappages_ok s T fl root va size pa perm e :
  vm_ok s T fl → T !! [] = Some root → 0 <= va → va mod 4096 = 0 →
  0 < size → size mod 4096 = 0 → va + size <= MAXVA →
  0 <= pa → pa + size <= 2 ^ 56 → 0 <= perm < 1024 →
  (∀ va', va <= va' < va + size → has (leaf (k_mem s) T va') PTE_V = false) →
  ∃ r m' h' T' fl' k, mappages root va size pa perm s e = Ok r (with_mem s m' h') e ∧
    vm_ok (with_mem s m' h') T' fl' ∧ extends T fl T' fl' ∧ frame T' (k_mem s) m' ∧
    mapped (k_mem s) T m' T' va pa perm k ∧
    ((r = 0 ∧ k * 4096 = size) ∨ (r = -1 ∧ 0 <= k ∧ k * 4096 < size ∧ fl' = [])).
Proof.
  intros Hv Hroot Hva Al Hs As Hmax Hpa Hpm Hperm Hfree. unfold mappages.
  change (va mod PGSIZE) with (va mod 4096). change (size mod PGSIZE) with (size mod 4096).
  rewrite Al, As, (proj2 (Z.eqb_neq size 0)) by lia. cbn [negb Z.eqb].
  destruct (map_loop (Z.to_nat (size / 4096 - 1)) (S (Z.to_nat (size / PGSIZE))) s T fl root
    (u64 (va + size - PGSIZE)) perm va pa e) as (r & m' & h' & T' & fl' & k & H); try done;
    change PGSIZE with 4096; change MAXVA with 274877906944 in *; try zlia.
  - intros va' Hva'. apply Hfree. zlia.
  - rewrite u64_small by zlia. zlia.
  - exists r, m', h', T', fl', k. destruct H as (H1 & H2 & H3 & H4 & H5 & H6).
    split_and!; try done. destruct H6 as [[-> ->]|(-> & ? & ->)]; [left|right]; split_and!; (zlia || done).
Qed.

End pt.
