(* ===== verification/UserMem.v ===== *)
(** User memory: what the address space of a page table holds, and the copying
    functions of Vm.v between the kernel and it. *)

From S2P Require Export PageTable.

Section umem.
Context `{L : Layout}.

Implicit Types T : gmap (list Z) Z.

(** The physical page that a leaf entry points to. *)
Definition frame_of (m : memory) T (va : Z) : Z := PTE2PA (leaf m T va).

Definition is_mapped (m : memory) T (va : Z) : bool := has (leaf m T va) PTE_V.
Definition is_user (m : memory) T (va : Z) : bool := is_mapped m T va && has (leaf m T va) PTE_U.
Definition is_writable (m : memory) T (va : Z) : bool := is_user m T va && has (leaf m T va) PTE_W.

(** The byte that a virtual address refers to. *)
Definition ubyte (m : memory) T (va : Z) : Z := ld8 m (frame_of m T va + va mod 4096).
Fixpoint ubytes (m : memory) T (va : Z) (n : nat) : list Z :=
  match n with
  | O => []
  | S n' => ubyte m T va :: ubytes m T (va + 1) n'
  end.

(** The pages mapped below [B] belong to this address space alone: they are
    allocated pages, no two virtual pages share one, and none of them is part of
    the page table or free. *)
Record owns (m : memory) T (fl : list Z) (B : Z) : Prop := {
  ow_bound : 0 <= B <= MAXVA;
  ow_page : ∀ va, 0 <= va < B → is_mapped m T va = true → page_ok (frame_of m T va);
  ow_fl : ∀ va, 0 <= va < B → is_mapped m T va = true → frame_of m T va ∉ fl;
  ow_pt : ∀ va π, 0 <= va < B → is_mapped m T va = true → T !! π ≠ Some (frame_of m T va);
  ow_inj : ∀ va va', 0 <= va < B → 0 <= va' < B → is_mapped m T va = true →
    is_mapped m T va' = true → frame_of m T va = frame_of m T va' → va / 4096 = va' / 4096;
}.

Lemma is_user_mapped m T va : is_user m T va = true → is_mapped m T va = true.
Proof. unfold is_user. by intros [? _]%andb_true_iff. Qed.
Lemma is_writable_user m T va : is_writable m T va = true → is_user m T va = true.
Proof. unfold is_writable. by intros [? _]%andb_true_iff. Qed.
#[local] Hint Resolve is_user_mapped is_writable_user : xv6.

(** ** Leaves depend only on the virtual page *)

Lemma leaf_page m T va va' :
  0 <= va < MAXVA → 0 <= va' < MAXVA → va / 4096 = va' / 4096 → leaf m T va = leaf m T va'.
Proof.
  intros H1 H2 E. pose proof (PX_same va va' H1 H2 E) as EPX. unfold leaf.
  by rewrite !EPX by lia.
Qed.

(** ** Writing into a data page *)

Lemma leaf_data m m' T p va :
  pt_rep m T → p mod 4096 = 0 → (∀ π, T !! π ≠ Some p) → same_except p m m' →
  leaf m' T va = leaf m T va.
Proof.
  intros Ht Ap Hni Hs. unfold leaf. destruct (T !! _) as [q|] eqn:E; [|done].
  apply (ld64_same_except m m' p); try done; [apply (pt_page _ _ Ht _ _ E)| |apply PX_range].
  intros ->. by apply (Hni [PX 1 va; PX 2 va]).
Qed.

Lemma vm_data_write s T fl p m' :
  vm_ok s T fl → p mod 4096 = 0 → p ∉ fl → (∀ π, T !! π ≠ Some p) →
  same_except p (k_mem s) m' → mem_ok m' →
  vm_ok (with_mem s m' (k_freelist s)) T fl.
Proof.
  intros [Hk Hm Ht Hd] Ap Hfl Hpt Hs Hok. split; [done| | |done]; simpl.
  - eapply kmem_inv_ext; [done| |exact Hm]. intros q a Hq Ha. apply Hs.
    pose proof (km_pages _ _ _ Hm) as Hpg. rewrite Forall_forall in Hpg.
    destruct (Hpg q Hq) as [Aq _].
    assert (p ≠ q) as N by (by intros ->). destruct (page_disjoint p q Ap Aq N); lia.
  - destruct Ht as [H1 H2 H3 HR H4 H5]. split; try done. intros π q i Hq Hl Hi.
    rewrite <- (H5 π q i) by done. destruct (H1 _ _ Hq) as [Aq _].
    apply (ld64_same_except (k_mem s) m' p); try done. intros ->. by apply (Hpt π).
Qed.

(** ** walkaddr *)

Lemma walk_noalloc s T fl root va e :
  vm_ok s T fl → T !! [] = Some root → 0 <= va < MAXVA →
  walk root va false s e =
    Ok (match T !! [PX 1 va; PX 2 va] with Some q => q + 8 * PX 0 va | None => 0 end) s e.
Proof.
  intros Hv Hr Hva. destruct (walk_ok s T fl va false root e Hv Hr Hva)
    as (r & m' & h' & T' & fl' & Hrun & _ & _ & _ & _ & Hres & Hsame).
  destruct Hsame as (-> & -> & -> & ->); [done|]. rewrite Hrun, with_mem_id.
  destruct (T !! [PX 1 va; PX 2 va]); [by rewrite Hres|by destruct Hres as [-> _]].
Qed.

(** The address of the leaf entry, where there is one, is not null. *)
Lemma leaf_addr_nonzero s T fl π q va :
  vm_ok s T fl → T !! π = Some q → q + 8 * PX 0 va ≠ 0.
Proof.
  intros Hv Hq. pose proof (page_ok_nonzero q (pt_page _ _ (vo_pt _ _ _ Hv) _ _ Hq)).
  pose proof (PX_range 0 va). lia.
Qed.

Lemma has_0 f : has 0 f = false.
Proof. done. Qed.

Lemma walkaddr_ok s T fl root va e :
  vm_ok s T fl → T !! [] = Some root → 0 <= va < MAXVA →
  walkaddr root va s e =
    Ok (if is_user (k_mem s) T va then frame_of (k_mem s) T va else 0) s e.
Proof.
  intros Hv Hr Hva. unfold walkaddr. rewrite (proj2 (Z.leb_gt _ _)) by lia.
  erewrite bind_Ok by (by eapply walk_noalloc). unfold is_user, is_mapped, frame_of, leaf.
  destruct (T !! [PX 1 va; PX 2 va]) as [q|] eqn:Hq; [|done].
  rewrite (proj2 (Z.eqb_neq _ _)) by (by eapply leaf_addr_nonzero).
  unfold load64. rewrite bind_gets. destruct (has _ PTE_V), (has _ PTE_U); done.
Qed.

Lemma user_page_ok s T fl B root va e :
  vm_ok s T fl → owns (k_mem s) T fl B → T !! [] = Some root → 0 <= va < B →
  is_user (k_mem s) T va = true →
  user_page root va s e = Ok (frame_of (k_mem s) T va) s e.
Proof.
  intros Hv Ho Hr Hva Hu. pose proof (ow_bound _ _ _ _ Ho). unfold user_page.
  erewrite bind_Ok by (eapply walkaddr_ok; eauto; lia). rewrite Hu.
  pose proof (ow_page _ _ _ _ Ho va Hva (is_user_mapped _ _ _ Hu)) as Hp%page_ok_nonzero.
  by rewrite (proj2 (Z.eqb_neq _ _)) by lia.
Qed.

(** ** copyout *)

(** The physical address of a virtual one. *)
Definition phys (m : memory) T (va : Z) : Z := frame_of m T va + va mod 4096.

Lemma phys_ext m m' T va :
  (∀ va', leaf m' T va' = leaf m T va') → phys m' T va = phys m T va.
Proof. intros H. unfold phys, frame_of. by rewrite H. Qed.

Lemma owns_ext m m' T fl B :
  (∀ va', leaf m' T va' = leaf m T va') → owns m T fl B → owns m' T fl B.
Proof.
  intros H [H0 H1 H2 H3 H4]. unfold is_mapped, frame_of in *.
  split; unfold is_mapped, frame_of; try done; intros va.
  - rewrite H. apply H1.
  - rewrite H. apply H2.
  - intros π. rewrite H. apply H3.
  - intros va'. rewrite !H. apply H4.
Qed.

Lemma phys_inj m T fl B va va' :
  owns m T fl B → 0 <= va < B → 0 <= va' < B → is_mapped m T va = true →
  is_mapped m T va' = true → phys m T va = phys m T va' → va = va'.
Proof.
  intros Ho H1 H2 M1 M2 E. unfold phys in E.
  destruct (ow_page _ _ _ _ Ho va H1 M1) as [A1 _].
  destruct (ow_page _ _ _ _ Ho va' H2 M2) as [A2 _].
  assert (va / 4096 = va' / 4096); [|zlia]. apply (ow_inj _ _ _ _ Ho); try done. zlia.
Qed.

(** Bytes of one virtual page are consecutive in memory. *)
Lemma phys_same_page m T va va' :
  0 <= va < MAXVA → 0 <= va' < MAXVA → va / 4096 = va' / 4096 →
  phys m T va' = phys m T va + (va' - va).
Proof.
  intros H1 H2 E. unfold phys, frame_of. rewrite (leaf_page m T va' va) by done. zlia.
Qed.

(** [bs] was stored at the virtual addresses from [dst], and nothing else. *)
Record stored (m m' : memory) T (dst : Z) (bs : list Z) : Prop := {
  st_in : ∀ i b, bs !! i = Some b → ld8 m' (phys m T (dst + Z.of_nat i)) = b;
  st_out : ∀ a, (∀ va, dst <= va < dst + Z.of_nat (length bs) → a ≠ phys m T va) →
    ld8 m' a = ld8 m a;
}.

(** Storing [bs] at the start of a page's rest. *)
Lemma stored_stn m T dst bs :
  0 <= dst → dst + Z.of_nat (length bs) <= MAXVA → bytes_ok bs →
  dst mod 4096 + Z.of_nat (length bs) <= 4096 →
  stored m (stn m (phys m T dst) bs) T dst bs.
Proof.
  intros Hd Hb Hok Hp. split.
  - intros i b Hi. pose proof (lookup_lt_Some _ _ _ Hi) as Hlt.
    rewrite (phys_same_page m T dst (dst + Z.of_nat i)) by (lia || zlia).
    rewrite ld8_stn, decide_True by lia.
    replace (Z.to_nat _) with i by lia. rewrite (list_lookup_total_correct _ _ _ Hi).
    apply u8_small. by eapply (Forall_lookup_1 _ _ _ _ Hok).
  - intros a Ha. apply ld8_stn_ne. destruct (decide (phys m T dst <= a < phys m T dst +
      Z.of_nat (length bs))) as [Hin|]; [|lia]. exfalso.
    apply (Ha (dst + (a - phys m T dst))); [lia|].
    rewrite (phys_same_page m T dst (dst + _)) by (lia || zlia). lia.
Qed.

Lemma stored_app m m1 m2 T fl B dst bs1 bs2 :
  owns m T fl B → 0 <= dst → dst + Z.of_nat (length (bs1 ++ bs2)) <= B →
  (∀ va, dst <= va < dst + Z.of_nat (length (bs1 ++ bs2)) → is_mapped m T va = true) →
  (∀ va', leaf m1 T va' = leaf m T va') →
  stored m m1 T dst bs1 → stored m1 m2 T (dst + Z.of_nat (length bs1)) bs2 →
  stored m m2 T dst (bs1 ++ bs2).
Proof.
  intros Ho Hd Hb Hmap Hl [I1 O1] [I2 O2]. rewrite length_app in *. split.
  - intros i b [Hi|[Hlen Hi]]%lookup_app_Some.
    + pose proof (lookup_lt_Some _ _ _ Hi). rewrite O2; [by apply I1|].
      intros va Hva E. rewrite (phys_ext m m1) in E by done.
      eapply (phys_inj _ _ _ _ _ _ Ho) in E; [lia|lia|lia|apply Hmap; lia|apply Hmap; lia].
    + rewrite <- (phys_ext m m1) by done.
      replace (dst + Z.of_nat i) with
        (dst + Z.of_nat (length bs1) + Z.of_nat (i - length bs1)) by lia.
      by apply I2.
  - rewrite length_app. intros a Ha. rewrite O2.
    + apply O1. intros va Hva. apply Ha. lia.
    + intros va Hva. rewrite (phys_ext m m1) by done. apply Ha. lia.
Qed.

(** The start of a virtual page has the leaf entry of the whole page. *)
Lemma page_start va : 0 <= va < MAXVA → PGROUNDDOWN va = va - va mod 4096 ∧
  0 <= va - va mod 4096 < MAXVA ∧ (va - va mod 4096) / 4096 = va / 4096.
Proof.
  intros H. change MAXVA with 274877906944 in *. rewrite PGROUNDDOWN_spec by lia.
  split_and!; zlia.
Qed.

Definition chunk (va len : Z) : Z := Z.min (PGSIZE - va mod 4096) len.

(** One round of [copyout], after [user_page] went from [s0] to [s]. *)
Lemma copyout_after s0 s T fl B root dst src e :
  user_page root (dst - dst mod 4096) s0 e = Ok (frame_of (k_mem s) T dst) s e →
  vm_ok s T fl → owns (k_mem s) T fl B → T !! [] = Some root → src ≠ [] →
  0 <= dst < B → is_writable (k_mem s) T dst = true →
  let n := Z.to_nat (chunk dst (Z.of_nat (length src))) in
  copyout_loop root (dst, src) s0 e =
    Ok (inl (dst - dst mod 4096 + 4096, drop n src))
      (with_mem s (stn (k_mem s) (phys (k_mem s) T dst) (take n src)) (k_freelist s)) e.
Proof.
  intros Hup Hv Ho Hr Hne Hd Hw n. pose proof (ow_bound _ _ _ _ Ho) as HB.
  destruct (page_start dst) as (E1 & E2 & E3); [lia|]. unfold copyout_loop.
  rewrite (proj2 (Z.eqb_neq _ 0)) by (destruct src; [done|simpl; lia]).
  rewrite E1. set (va0 := dst - dst mod 4096) in *.
  rewrite (proj2 (Z.leb_gt _ _)) by lia.
  assert (leaf (k_mem s) T va0 = leaf (k_mem s) T dst) as El by (apply leaf_page; lia).
  erewrite bind_Ok by exact Hup.
  pose proof (is_user_mapped _ _ _ (is_writable_user _ _ _ Hw)) as Hm.
  pose proof (ow_page _ _ _ _ Ho dst Hd Hm) as Hp%page_ok_nonzero.
  rewrite (proj2 (Z.eqb_neq _ _)) by lia.
  erewrite bind_Ok by (by eapply walk_noalloc).
  destruct (T !! [PX 1 va0; PX 2 va0]) as [q|] eqn:Hq.
  2:{ unfold is_mapped in Hm. rewrite <- El in Hm. unfold leaf in Hm. by rewrite Hq in Hm. }
  rewrite (proj2 (Z.eqb_neq _ _)) by (by eapply leaf_addr_nonzero).
  unfold load64. rewrite bind_gets.
  assert (ld64 (k_mem s) (q + 8 * PX 0 va0) = leaf (k_mem s) T dst) as ->.
  { rewrite <- El. unfold leaf. by rewrite Hq. }
  apply andb_true_iff in Hw as [_ Hw]. rewrite Hw. cbn [negb].
  unfold upd_mem. rewrite bind_modify.
  assert (dst - va0 = dst mod 4096) as -> by (subst va0; lia).
  change MAXVA with 274877906944 in *. rewrite u64_small by (change PGSIZE with 4096; lia). done.
Qed.

Lemma user_page_start s T fl B root va e :
  vm_ok s T fl → owns (k_mem s) T fl B → T !! [] = Some root → 0 <= va < B →
  is_user (k_mem s) T va = true →
  user_page root (va - va mod 4096) s e = Ok (frame_of (k_mem s) T va) s e.
Proof.
  intros Hv Ho Hr Hva Hu. pose proof (ow_bound _ _ _ _ Ho) as HB.
  assert (leaf (k_mem s) T (va - va mod 4096) = leaf (k_mem s) T va) as El by (apply leaf_page; zlia).
  assert (is_user (k_mem s) T (va - va mod 4096) = true) as Hu0
    by (unfold is_user, is_mapped in *; by rewrite El).
  rewrite (user_page_ok s T fl B root (va - va mod 4096) e Hv Ho Hr ltac:(zlia) Hu0).
  unfold frame_of. by rewrite El.
Qed.

Lemma chunk_spec va len :
  0 <= va → 0 < len → 0 < chunk va len <= len ∧ va mod 4096 + chunk va len <= 4096 ∧
  (chunk va len < len → va - va mod 4096 + 4096 = va + chunk va len).
Proof. intros. unfold chunk. change PGSIZE with 4096. zlia. Qed.

(** One chunk of a copy, within the page of [dst]. *)
Lemma chunk_stored s T fl B dst bs :
  vm_ok s T fl → owns (k_mem s) T fl B → bytes_ok bs → 0 <= dst < B →
  is_mapped (k_mem s) T dst = true → dst mod 4096 + Z.of_nat (length bs) <= 4096 →
  dst + Z.of_nat (length bs) <= B →
  let m1 := stn (k_mem s) (phys (k_mem s) T dst) bs in
  vm_ok (with_mem s m1 (k_freelist s)) T fl ∧ (∀ va', leaf m1 T va' = leaf (k_mem s) T va') ∧
  stored (k_mem s) m1 T dst bs.
Proof.
  intros Hv Ho Hok Hd Hm Hp Hb m1. pose proof (ow_bound _ _ _ _ Ho) as HB.
  destruct (ow_page _ _ _ _ Ho dst) as [Ap _]; [lia|done|].
  assert (same_except (frame_of (k_mem s) T dst) (k_mem s) m1) as Hs1.
  { intros a Ha. apply ld8_stn_ne. unfold phys. change PGSIZE with 4096 in Ha. zlia. }
  split_and!.
  - eapply vm_data_write; eauto; [eapply ow_fl; eauto|intros π; eapply ow_pt; eauto|].
    apply stn_ok, Hv.
  - intros va'. eapply leaf_data; [apply Hv|done| |done]. intros π. eapply ow_pt; eauto.
  - apply stored_stn; [lia|lia|done|lia].
Qed.

Lemma copyout_loop_ok fuel s T fl B root dst src e :
  vm_ok s T fl → owns (k_mem s) T fl B → T !! [] = Some root → bytes_ok src →
  (length src < fuel)%nat → 0 <= dst → dst + Z.of_nat (length src) <= B →
  (∀ va, dst <= va < dst + Z.of_nat (length src) → is_writable (k_mem s) T va = true) →
  ∃ m', loop fuel (copyout_loop root) (dst, src) s e =
      Ok 0 (with_mem s m' (k_freelist s)) e ∧
    vm_ok (with_mem s m' (k_freelist s)) T fl ∧
    (∀ va', leaf m' T va' = leaf (k_mem s) T va') ∧ stored (k_mem s) m' T dst src.
Proof.
  revert s dst src. induction fuel as [|fuel IH]; intros s dst src Hv Ho Hr Hok Hf Hd Hb Hw; [lia|].
  cbn [loop]. destruct (decide (src = [])) as [->|Hne].
  { exists (k_mem s). rewrite with_mem_id. split_and!; done. }
  assert (0 < Z.of_nat (length src)) as Hpos by (destruct src; [done|simpl; lia]).
  erewrite bind_Ok by (apply (copyout_after s s T fl B); try done; [|lia|apply Hw; lia];
    apply (user_page_start s T fl B); try done; [lia|apply is_writable_user, Hw; lia]).
  destruct (chunk_spec dst (Z.of_nat (length src))) as (Hc1 & Hc2 & Hc3); [lia..|].
  set (n := Z.to_nat (chunk dst (Z.of_nat (length src)))).
  assert (length (take n src) = n) as Hlt by (rewrite length_take; lia).
  assert (∀ va, dst <= va < dst + Z.of_nat (length src) → is_mapped (k_mem s) T va = true) as Hmap
    by (intros; apply is_user_mapped, is_writable_user, Hw; lia).
  destruct (chunk_stored s T fl B dst (take n src)) as (Hv1 & Hl1 & Hst1); try done;
    [by apply Forall_take|lia|apply Hmap; lia|lia..|].
  set (m1 := stn _ _ _) in *.
  destruct (decide (chunk dst (Z.of_nat (length src)) = Z.of_nat (length src))) as [Heq|Hlt'].
  - assert (n = length src) as -> by lia. rewrite drop_ge, take_ge in * by lia.
    exists m1. split_and!; try done. by destruct fuel; [lia|].
  - destruct (IH (with_mem s m1 (k_freelist s)) (dst + Z.of_nat n) (drop n src))
      as (m2 & Hrun & Hv2 & Hl2 & Hst2); try done; rewrite ?length_drop; try lia.
    + by eapply owns_ext.
    + by apply Forall_drop.
    + intros va Hva. unfold is_writable, is_user, is_mapped.
      change (k_mem (with_mem s m1 (k_freelist s))) with m1. rewrite Hl1. apply Hw. lia.
    + exists m2. rewrite with_mem_twice in *. rewrite Hc3 by lia.
      replace (chunk dst (Z.of_nat (length src))) with (Z.of_nat n) by lia.
      split_and!; try done.
      * intros va'. by rewrite Hl2, <- Hl1.
      * rewrite <- (take_drop n src). eapply stored_app; try done; rewrite ?take_drop; try done.
        by rewrite Hlt.
Qed.

Lemma copyout_ok s T fl B root dst src e :
  vm_ok s T fl → owns (k_mem s) T fl B → T !! [] = Some root → bytes_ok src →
  0 <= dst → dst + Z.of_nat (length src) <= B →
  (∀ va, dst <= va < dst + Z.of_nat (length src) → is_writable (k_mem s) T va = true) →
  ∃ m', copyout root dst src s e = Ok 0 (with_mem s m' (k_freelist s)) e ∧
    vm_ok (with_mem s m' (k_freelist s)) T fl ∧
    (∀ va', leaf m' T va' = leaf (k_mem s) T va') ∧ stored (k_mem s) m' T dst src.
Proof. intros. eapply copyout_loop_ok; eauto. Qed.

(** ** copyin *)

Lemma length_ubytes m T va n : length (ubytes m T va n) = n.
Proof. revert va. induction n; intros; simpl; auto. Qed.

Lemma ubytes_app m T va n1 n2 :
  ubytes m T va (n1 + n2) = ubytes m T va n1 ++ ubytes m T (va + Z.of_nat n1) n2.
Proof.
  revert va. induction n1 as [|n1 IH]; intros va; simpl; [f_equal; lia|].
  rewrite IH. do 3 f_equal. lia.
Qed.

Lemma lookup_ubytes m T va n i :
  (i < n)%nat → ubytes m T va n !! i = Some (ubyte m T (va + Z.of_nat i)).
Proof.
  revert va i. induction n as [|n IH]; intros va i Hi; [lia|]. destruct i as [|i]; simpl.
  - do 2 f_equal. lia.
  - rewrite IH by lia. do 2 f_equal. lia.
Qed.

Lemma ldn_ubytes m T va n :
  0 <= va → va + Z.of_nat n <= MAXVA → va mod 4096 + Z.of_nat n <= 4096 →
  ldn m (phys m T va) n = ubytes m T va n.
Proof.
  intros H1 H2 H3. apply list_eq. intros i. destruct (decide (i < n)%nat) as [Hi|Hi].
  - rewrite lookup_ldn, lookup_ubytes by done. f_equal.
    unfold ubyte. fold (phys m T (va + Z.of_nat i)).
    rewrite (phys_same_page m T va (va + Z.of_nat i)) by (lia || zlia). f_equal. lia.
  - rewrite !lookup_ge_None_2; [done|rewrite length_ubytes; lia|rewrite length_ldn; lia].
Qed.

Lemma copyin_after s0 s T fl B root src len acc e :
  user_page root (src - src mod 4096) s0 e = Ok (frame_of (k_mem s) T src) s e →
  vm_ok s T fl → owns (k_mem s) T fl B → T !! [] = Some root → 0 < len →
  0 <= src → src + len <= B → is_user (k_mem s) T src = true →
  copyin_loop root (src, len, acc) s0 e =
    Ok (inl (src - src mod 4096 + 4096, len - chunk src len,
             acc ++ ubytes (k_mem s) T src (Z.to_nat (chunk src len)))) s e.
Proof.
  intros Hup Hv Ho Hr Hlen Hs Hb Hu. pose proof (ow_bound _ _ _ _ Ho) as HB.
  destruct (page_start src) as (E1 & E2 & E3); [lia|]. unfold copyin_loop.
  rewrite (proj2 (Z.eqb_neq _ 0)) by lia. rewrite E1. set (va0 := src - src mod 4096) in *.
  erewrite bind_Ok by exact Hup.
  pose proof (ow_page _ _ _ _ Ho src ltac:(lia) (is_user_mapped _ _ _ Hu)) as Hp%page_ok_nonzero.
  rewrite (proj2 (Z.eqb_neq _ _)) by lia. rewrite bind_gets.
  assert (src - va0 = src mod 4096) as -> by (subst va0; lia).
  fold (chunk src len). destruct (chunk_spec src len) as (Hc1 & Hc2 & _); [lia..|].
  change (frame_of (k_mem s) T src + src mod 4096) with (phys (k_mem s) T src).
  rewrite ldn_ubytes by (change MAXVA with 274877906944 in *; lia).
  change MAXVA with 274877906944 in *. rewrite u64_small by (change PGSIZE with 4096; lia). done.
Qed.

Lemma copyin_loop_ok fuel s T fl B root src len acc e :
  vm_ok s T fl → owns (k_mem s) T fl B → T !! [] = Some root →
  (Z.to_nat len < fuel)%nat → 0 <= len → 0 <= src → src + len <= B →
  (∀ va, src <= va < src + len → is_user (k_mem s) T va = true) →
  loop fuel (copyin_loop root) (src, len, acc) s e =
    Ok (acc ++ ubytes (k_mem s) T src (Z.to_nat len), 0) s e.
Proof.
  intros Hv Ho Hr. revert src len acc. induction fuel as [|fuel IH];
    intros src len acc Hf Hl Hs Hb Hu; [lia|]. cbn [loop].
  destruct (decide (len = 0)) as [->|Hne]; [simpl; by rewrite app_nil_r|].
  erewrite bind_Ok by (apply (copyin_after s s T fl B); try done; [|lia|apply Hu; lia];
    apply (user_page_start s T fl B); try done; [lia|apply Hu; lia]).
  destruct (chunk_spec src len) as (Hc1 & Hc2 & Hc3); [lia..|].
  destruct (decide (chunk src len = len)) as [->|Hlt].
  - rewrite Z.sub_diag. by destruct fuel; [lia|].
  - rewrite Hc3, IH by (lia || (intros; apply Hu; lia)). rewrite <- app_assoc. do 3 f_equal.
    replace (Z.to_nat len) with (Z.to_nat (chunk src len) + Z.to_nat (len - chunk src len))%nat by lia.
    rewrite ubytes_app. do 2 f_equal. lia.
Qed.

Lemma copyin_ok s T fl B root src len e :
  vm_ok s T fl → owns (k_mem s) T fl B → T !! [] = Some root →
  0 <= len → 0 <= src → src + len <= B →
  (∀ va, src <= va < src + len → is_user (k_mem s) T va = true) →
  copyin root src len s e = Ok (ubytes (k_mem s) T src (Z.to_nat len), 0) s e.
Proof. intros. unfold copyin. erewrite copyin_loop_ok by eauto. done. Qed.

Lemma stored_ubytes m m' T dst bs :
  (∀ va', leaf m' T va' = leaf m T va') → stored m m' T dst bs →
  ubytes m' T dst (length bs) = bs.
Proof.
  intros Hl [Hin _]. apply list_eq. intros i. destruct (bs !! i) as [b|] eqn:Hb.
  - pose proof (lookup_lt_Some _ _ _ Hb). rewrite lookup_ubytes by done. f_equal.
    rewrite <- (Hin i b Hb), <- (phys_ext m m') by done. done.
  - apply lookup_ge_None in Hb. apply lookup_ge_None. by rewrite length_ubytes.
Qed.

End umem.
