(* ===== verification/Unmap.v ===== *)
(** Taking mappings away: [uvmunmap], [freewalk] and [uvmfree] of Vm.v return
    every page of an address space to the allocator. *)

From S2P Require Export UserMem.

Section unmap.
Context `{L : Layout}.

Implicit Types T : gmap (list Z) Z.

(** The pages mapped at [n] consecutive virtual pages. *)
Fixpoint frames (m : memory) T (va : Z) (n : nat) : list Z :=
  match n with
  | O => []
  | S n' => (if is_mapped m T va then [frame_of m T va] else []) ++ frames m T (va + 4096) n'
  end.

(** The contents of the pages still mapped below [B] did not change, and nothing
    did outside the address space. *)
Record keeps (m m' : memory) T (B : Z) : Prop := {
  kp_bytes : ∀ va, 0 <= va < B → is_mapped m' T va = true → ubyte m' T va = ubyte m T va;
  kp_spared : ∀ b, ~ in_table T b →
    (∀ va, 0 <= va < B → is_mapped m T va = true →
       ~ (frame_of m T va <= b < frame_of m T va + PGSIZE)) → ld8 m' b = ld8 m b;
}.

Lemma keeps_refl m T B : keeps m m T B.
Proof. by split. Qed.

(** Freeing a page of the address space and clearing its entry. *)
Lemma unmap_mapped s T fl B a q e :
  vm_ok s T fl → owns (k_mem s) T fl B → 0 <= a < B → is_mapped (k_mem s) T a = true →
  T !! [PX 1 a; PX 2 a] = Some q →
  ∃ m1 m' h', kfree (frame_of (k_mem s) T a) s e = Ok tt (with_mem s m1 h') e ∧
    m' = st64 m1 (q + 8 * PX 0 a) 0 ∧
    vm_ok (with_mem s m' h') T (frame_of (k_mem s) T a :: fl) ∧
    (∀ va', 0 <= va' < MAXVA → leaf m' T va' =
       if decide (va' / 4096 = a / 4096) then 0 else leaf (k_mem s) T va') ∧
    (∀ b, ~ in_table T b → b < frame_of (k_mem s) T a ∨ frame_of (k_mem s) T a + PGSIZE <= b →
       ld8 m' b = ld8 (k_mem s) b).
Proof.
  intros Hv Ho Ha Hm Hq. pose proof Hv as [Hk Hmem Ht Hd]. pose proof (ow_bound _ _ _ _ Ho).
  pose proof (ow_page _ _ _ _ Ho a Ha Hm) as Hok. pose proof (ow_fl _ _ _ _ Ho a Ha Hm) as Hfl.
  pose proof (ow_pt _ _ _ _ Ho a) as Hpt.
  set (f := frame_of (k_mem s) T a) in *.
  destruct (kfree_inv s fl f e Hk Hmem Hok Hfl) as (m1 & Hrun & Hmem1 & Hs1).
  assert (vm_ok (with_mem s m1 f) T (f :: fl)) as Hv1.
  { destruct Hok as [Af _]. split; [done|done| |].
    - destruct Ht as [H1 H2 H3 HR H4 H5]. split; try done. intros π p i Hp Hl Hi.
      rewrite <- (H5 π p i) by done. destruct (H1 _ _ Hp) as [Ap _].
      apply (ld64_same_except (k_mem s) m1 f); try done. intros <-. by apply (Hpt π).
    - intros π p Hp [->|Hin]%elem_of_cons; [by apply (Hpt π)|by apply (Hd π p)]. }
  destruct (vm_set_leaf (with_mem s m1 f) T (f :: fl) a q 0 Hv1 Hq) as (Hv2 & Hf2 & Hl2);
    [lia|lia|].
  exists m1, (st64 m1 (q + 8 * PX 0 a) 0), f. split_and!; try done.
  - intros va' Hva'. change (k_mem (with_mem s m1 f)) with m1 in Hl2. rewrite Hl2 by done.
    case_decide; [done|]. apply (leaf_data (k_mem s) m1 T f); [done|apply Hok| |done].
    intros π. by apply Hpt.
  - intros b Hb Hout. rewrite Hf2 by done. by apply Hs1.
Qed.

Lemma phys_not_in_table m T fl B va :
  pt_rep m T → owns m T fl B → 0 <= va < B → is_mapped m T va = true → ~ in_table T (phys m T va).
Proof.
  intros Ht Ho Hva Hm (π & p & Hp & Hr). destruct (ow_page _ _ _ _ Ho va Hva Hm) as [Af _].
  destruct (pt_page _ _ Ht _ _ Hp) as [Ap _].
  apply (ow_pt _ _ _ _ Ho va π Hva Hm). rewrite Hp. f_equal.
  unfold phys in Hr. change PGSIZE with 4096 in Hr. zlia.
Qed.

(** The address space after the page of [a] is gone. *)
Lemma owns_clear m m' T fl B a :
  owns m T fl B → 0 <= a < B → is_mapped m T a = true →
  (∀ va', 0 <= va' < MAXVA → leaf m' T va' =
     if decide (va' / 4096 = a / 4096) then 0 else leaf m T va') →
  owns m' T (frame_of m T a :: fl) B.
Proof.
  intros Ho Ha Hm Hl. pose proof (ow_bound _ _ _ _ Ho) as HB.
  assert (∀ va, 0 <= va < B → is_mapped m' T va = true →
    va / 4096 ≠ a / 4096 ∧ is_mapped m T va = true ∧ frame_of m' T va = frame_of m T va) as Hx.
  { intros va Hva. unfold is_mapped, frame_of. rewrite Hl by lia. case_decide; [done|auto]. }
  split; [done|..]; intros va.
  - intros Hva (_ & H1 & ->)%Hx; [|done]. by eapply ow_page.
  - intros Hva (Hne & H1 & ->)%Hx; [|done]. intros [E|Hin]%elem_of_cons.
    + apply Hne. by eapply (ow_inj _ _ _ _ Ho).
    + by eapply (ow_fl _ _ _ _ Ho va).
  - intros π Hva (_ & H1 & ->)%Hx; [|done]. by eapply ow_pt.
  - intros va' Hva Hva' (_ & H1 & ->)%Hx (_ & H2 & ->)%Hx; [|done..]. by eapply (ow_inj _ _ _ _ Ho).
Qed.

Lemma keeps_clear m m' T fl B a :
  pt_rep m T → owns m T fl B → 0 <= a < B → is_mapped m T a = true →
  (∀ va', 0 <= va' < MAXVA → leaf m' T va' =
     if decide (va' / 4096 = a / 4096) then 0 else leaf m T va') →
  (∀ b, ~ in_table T b → b < frame_of m T a ∨ frame_of m T a + PGSIZE <= b →
     ld8 m' b = ld8 m b) →
  keeps m m' T B.
Proof.
  intros Ht Ho Ha Hm Hl Hf. split; [|intros b Hb Hout; apply Hf; [done|];
    pose proof (Hout a Ha Hm); lia].
  intros va Hva. pose proof (ow_bound _ _ _ _ Ho) as HB. unfold is_mapped, ubyte, frame_of at 1. rewrite Hl by lia. case_decide as E; [done|].
  intros Hmv. fold (frame_of m T va). apply Hf.
  - by eapply (phys_not_in_table m T fl B va).
  - destruct (ow_page _ _ _ _ Ho va Hva Hmv) as [A1 _]. destruct (ow_page _ _ _ _ Ho a Ha Hm) as [A2 _].
    assert (frame_of m T a ≠ frame_of m T va) as N.
    { intros Eq. apply E. by eapply (ow_inj _ _ _ _ Ho). }
    destruct (page_disjoint _ _ A2 A1 N); change PGSIZE with 4096 in *; zlia.
Qed.

Lemma unmap_page_ok s T fl B root a e :
  vm_ok s T fl → owns (k_mem s) T fl B → T !! [] = Some root → 0 <= a < B →
  ∃ m' h', uvmunmap_page root true a s e = Ok tt (with_mem s m' h') e ∧
    let fl' := (if is_mapped (k_mem s) T a then [frame_of (k_mem s) T a] else []) ++ fl in
    vm_ok (with_mem s m' h') T fl' ∧ owns m' T fl' B ∧ keeps (k_mem s) m' T B ∧
    (∀ va', 0 <= va' < MAXVA → leaf m' T va' =
       if decide (va' / 4096 = a / 4096 ∧ is_mapped (k_mem s) T va' = true) then 0
       else leaf (k_mem s) T va').
Proof.
  intros Hv Ho Hr Ha. pose proof (ow_bound _ _ _ _ Ho) as HB. unfold uvmunmap_page.
  erewrite bind_Ok by (eapply walk_noalloc; eauto; lia).
  assert (is_mapped (k_mem s) T a = false → ∀ va', 0 <= va' < MAXVA → leaf (k_mem s) T va' =
       if decide (va' / 4096 = a / 4096 ∧ is_mapped (k_mem s) T va' = true) then 0
       else leaf (k_mem s) T va') as Hsame.
  { intros E va' Hva'. rewrite decide_False; [done|]. intros [E1 E2]. unfold is_mapped in *.
    rewrite (leaf_page _ _ va' a) in E2 by (done || lia). congruence. }
  assert (∀ fl', fl' = fl → is_mapped (k_mem s) T a = false →
    ∃ m' h', (mret () : K unit) s e = Ok tt (with_mem s m' h') e ∧
      vm_ok (with_mem s m' h') T fl' ∧ owns m' T fl' B ∧ keeps (k_mem s) m' T B ∧
      (∀ va', 0 <= va' < MAXVA → leaf m' T va' =
       if decide (va' / 4096 = a / 4096 ∧ is_mapped (k_mem s) T va' = true) then 0
       else leaf (k_mem s) T va')) as Hskip.
  { intros ? -> E. exists (k_mem s), (k_freelist s). rewrite with_mem_id. split_and!; auto using keeps_refl. }
  destruct (T !! [PX 1 a; PX 2 a]) as [q|] eqn:Hq.
  2:{ assert (is_mapped (k_mem s) T a = false) as E by (unfold is_mapped, leaf; by rewrite Hq).
      rewrite E. by apply Hskip. }
  rewrite (proj2 (Z.eqb_neq _ _)) by (by eapply leaf_addr_nonzero).
  unfold load64. rewrite bind_gets.
  assert (ld64 (k_mem s) (q + 8 * PX 0 a) = leaf (k_mem s) T a) as -> by (unfold leaf; by rewrite Hq).
  fold (is_mapped (k_mem s) T a). destruct (is_mapped (k_mem s) T a) eqn:Hm; cbn [negb];
    [|by apply Hskip].
  fold (frame_of (k_mem s) T a). unfold when.
  destruct (unmap_mapped s T fl B a q e Hv Ho Ha Hm Hq) as (m1 & m' & h' & Hrun & -> & Hv' & Hl & Hf).
  erewrite bind_Ok by exact Hrun. eexists _, h'. split; [reflexivity|]. cbn [app].
  split_and!; [done|by eapply owns_clear|eapply keeps_clear; eauto; apply Hv|].
  intros va' Hva'. rewrite Hl by done. case_decide as E.
  - rewrite decide_True; [done|]. split; [done|]. unfold is_mapped in *.
    by rewrite (leaf_page _ _ va' a) by (done || lia).
  - rewrite decide_False; [done|]. by intros [? _].
Qed.

Lemma frames_ext m m' T va n :
  (∀ i, 0 <= i < Z.of_nat n → leaf m' T (va + i * 4096) = leaf m T (va + i * 4096)) →
  frames m' T va n = frames m T va n.
Proof.
  revert va. induction n as [|n IH]; intros va H; simpl; [done|].
  pose proof (H 0 ltac:(lia)) as H0. rewrite Z.mul_0_l, Z.add_0_r in H0.
  unfold is_mapped, frame_of. rewrite H0. f_equal. apply IH. intros i Hi.
  pose proof (H (i + 1) ltac:(lia)) as Hi1.
  replace (va + 4096 + i * 4096) with (va + (i + 1) * 4096) by lia. done.
Qed.

Lemma elem_of_frames m T va n q :
  q ∈ frames m T va n ↔ ∃ j, 0 <= j < Z.of_nat n ∧ is_mapped m T (va + j * 4096) = true ∧
    frame_of m T (va + j * 4096) = q.
Proof.
  revert va. induction n as [|n IH]; intros va; cbn [frames].
  - split; [by intros ?%elem_of_nil|]. intros (j & ? & _). lia.
  - rewrite elem_of_app, IH. split.
    + intros [H|(j & Hj & H)].
      * exists 0. rewrite Z.add_0_r. destruct (is_mapped m T va); [|by apply elem_of_nil in H].
        apply list_elem_of_singleton in H as ->. split_and!; (lia || done).
      * exists (j + 1). replace (va + (j + 1) * 4096) with (va + 4096 + j * 4096) by lia.
        split; [lia|done].
    + intros (j & Hj & Hm & Hf). destruct (decide (j = 0)) as [->|].
      * left. rewrite Z.add_0_r in *. rewrite Hm, Hf. by left.
      * right. exists (j - 1). replace (va + 4096 + (j - 1) * 4096) with (va + j * 4096) by lia.
        split; [lia|done].
Qed.

Lemma keeps_trans m1 m2 m3 T B :
  (∀ va, 0 <= va < B → leaf m2 T va = leaf m1 T va ∨ leaf m2 T va = 0) →
  (∀ va, 0 <= va < B → leaf m3 T va = leaf m2 T va ∨ leaf m3 T va = 0) →
  keeps m1 m2 T B → keeps m2 m3 T B → keeps m1 m3 T B.
Proof.
  intros L2 L3 [K1 S1] [K2 S2]. unfold is_mapped, frame_of in *.
  split; unfold is_mapped, frame_of.
  - intros va Hva Hm. rewrite K2 by done. apply K1; [done|].
    destruct (L3 va Hva) as [E|E]; rewrite E in Hm; done.
  - intros b Hb Hout. rewrite S2; [by apply S1|done|]. intros va Hva Hm.
    destruct (L2 va Hva) as [E|E]; rewrite E in *; [by apply Hout|done].
Qed.

(** What unmapping [n] pages from [va] leaves: the entries of mapped pages in
    the range are 0, and their pages are at the front of the free list. *)
Definition unmapped (s : kstate) T (fl : list Z) (B va : Z) (n : nat) (m' : memory) (h' : Z) : Prop :=
  let fl' := reverse (frames (k_mem s) T va n) ++ fl in
  vm_ok (with_mem s m' h') T fl' ∧ owns m' T fl' B ∧ keeps (k_mem s) m' T B ∧
  (∀ va', 0 <= va' < MAXVA → leaf m' T va' =
     if decide (va <= va' < va + Z.of_nat n * 4096 ∧ is_mapped (k_mem s) T va' = true) then 0
     else leaf (k_mem s) T va').

(** Clearing the first page of the range and then the rest clears the range. *)
Lemma clear_first m m1 m2 T va n va' :
  0 <= va → va mod 4096 = 0 → 0 <= va' →
  leaf m1 T va' = (if decide (va' / 4096 = va / 4096 ∧ is_mapped m T va' = true) then 0
                   else leaf m T va') →
  leaf m2 T va' = (if decide (va + 4096 <= va' < va + 4096 + Z.of_nat n * 4096 ∧
                              is_mapped m1 T va' = true) then 0 else leaf m1 T va') →
  leaf m2 T va' = if decide (va <= va' < va + Z.of_nat (S n) * 4096 ∧ is_mapped m T va' = true)
                  then 0 else leaf m T va'.
Proof.
  intros Hva Al Hva' H1 ->. unfold is_mapped in *.
  destruct (decide (va' / 4096 = va / 4096)) as [E|E].
  - rewrite decide_False by (intros [? _]; zlia). rewrite H1.
    assert (va <= va' < va + Z.of_nat (S n) * 4096) by zlia.
    destruct (has (leaf m T va') PTE_V); [by rewrite !decide_True by auto|].
    by rewrite !decide_False by (by intros [_ ?]).
  - rewrite (decide_False (P := _ ∧ _)) in H1 by (by intros [? _]). rewrite H1.
    apply decide_ext. split; intros [? ?]; (split; [|done]); zlia.
Qed.

Lemma unmap_loop n fuel s T fl B root stop va e :
  vm_ok s T fl → owns (k_mem s) T fl B → T !! [] = Some root → 0 <= va → va mod 4096 = 0 →
  (n < fuel)%nat → stop = va + Z.of_nat n * 4096 → stop <= B →
  ∃ m' h', loop fuel (λ a, if a <? stop
      then uvmunmap_page root true a;; mret (inl (u64 (a + PGSIZE))) else mret (inr ())) va s e =
      Ok tt (with_mem s m' h') e ∧ unmapped s T fl B va n m' h'.
Proof.
  revert fuel s fl va. induction n as [|n IH]; intros fuel s fl va Hv Ho Hr Hva Al Hf Hst Hb;
    (destruct fuel as [|fuel]; [lia|]); cbn [loop].
  - rewrite (proj2 (Z.ltb_ge _ _)) by lia. exists (k_mem s), (k_freelist s).
    rewrite with_mem_id. split; [done|]. unfold unmapped. simpl. rewrite with_mem_id.
    split_and!; try done. intros va' _. rewrite decide_False; [done|lia].
  - rewrite (proj2 (Z.ltb_lt _ _)) by lia. pose proof (ow_bound _ _ _ _ Ho) as HB.
    destruct (unmap_page_ok s T fl B root va e Hv Ho Hr) as (m1 & h1 & Hrun & Hv1 & Ho1 & Hk1 & Hl1);
      [lia|].
    rewrite bind_assoc. erewrite bind_Ok by exact Hrun. rewrite bind_ret.
    change PGSIZE with 4096. change MAXVA with 274877906944 in *. rewrite u64_small by lia.
    destruct (IH fuel (with_mem s m1 h1) _ (va + 4096) Hv1 Ho1 Hr)
      as (m2 & h2 & Hrun2 & Hv2 & Ho2 & Hk2 & Hl2); [lia|zlia|lia..|].
    exists m2, h2. rewrite with_mem_twice in *. split; [exact Hrun2|].
    change (k_mem (with_mem s m1 h1)) with m1 in *.
    assert (frames m1 T (va + 4096) n = frames (k_mem s) T (va + 4096) n) as Efr.
    { apply frames_ext. intros i Hi. rewrite Hl1 by lia. rewrite decide_False; [done|].
      intros [E _]. zlia. }
    assert (∀ va', 0 <= va' < 274877906944 → leaf m2 T va' =
      if decide (va <= va' < va + Z.of_nat (S n) * 4096 ∧ is_mapped (k_mem s) T va' = true) then 0
      else leaf (k_mem s) T va') as Hleaf.
    { intros va' Hva'. eapply clear_first; [done|done|lia|by apply Hl1|by apply Hl2]. }
    unfold unmapped. cbn [frames]. rewrite Efr in *. rewrite reverse_app, <- app_assoc.
    assert (reverse (if is_mapped (k_mem s) T va then [frame_of (k_mem s) T va] else []) =
      (if is_mapped (k_mem s) T va then [frame_of (k_mem s) T va] else [])) as ->
      by (by destruct (is_mapped _ _ _)).
    split_and!; try done. eapply keeps_trans; [| |done|done]; intros va' Hva';
      rewrite ?Hl2, ?Hl1 by (change MAXVA with 274877906944; lia); case_decide; auto.
Qed.

Lemma uvmunmap_ok s T fl B root va npages e :
  vm_ok s T fl → owns (k_mem s) T fl B → T !! [] = Some root → 0 <= va → va mod 4096 = 0 →
  0 <= npages → va + npages * 4096 <= B →
  ∃ m' h', uvmunmap root va npages true s e = Ok tt (with_mem s m' h') e ∧
    unmapped s T fl B va (Z.to_nat npages) m' h'.
Proof.
  intros Hv Ho Hr Hva Al Hn Hb. pose proof (ow_bound _ _ _ _ Ho) as HB. unfold uvmunmap.
  change (va mod PGSIZE) with (va mod 4096). rewrite Al. cbn [negb Z.eqb].
  apply unmap_loop; try done; change PGSIZE with 4096; change MAXVA with 274877906944 in *; try lia.
  all: rewrite u64_small by lia; lia.
Qed.

(** ** freewalk *)

(** The table pages at and below a path, in the order [freewalk] frees them;
    [d] is the number of levels below. *)
Fixpoint subtree T (d : nat) (π : list Z) : list Z :=
  match T !! π with
  | None => []
  | Some p =>
      match d with
      | O => []
      | S d' => (seq 0 512 ≫= λ i, subtree T d' (Z.of_nat i :: π))
      end ++ [p]
  end.

(** The table page [p] at [π] and those below it are in memory, and no leaf
    entry is valid. *)
Fixpoint no_leaves (m : memory) T (d : nat) (π : list Z) (p : Z) : Prop :=
  match d with
  | O => ∀ i, 0 <= i < 512 → has (ld64 m (p + 8 * i)) PTE_V = false
  | S d' => ∀ i, 0 <= i < 512 →
      ld64 m (p + 8 * i) = child_entry (T !! (i :: π)) ∧
      ∀ q, T !! (i :: π) = Some q → page_ok q ∧ no_leaves m T d' (i :: π) q
  end.

(** Two memories agree on a set of pages. *)
Definition agree_on (ps : list Z) (m m' : memory) : Prop :=
  ∀ p a, p ∈ ps → p <= a < p + PGSIZE → ld8 m' a = ld8 m a.

Lemma agree_ld64 ps m m' p i :
  agree_on ps m m' → p ∈ ps → 0 <= i < 512 → ld64 m' (p + 8 * i) = ld64 m (p + 8 * i).
Proof.
  intros H Hp Hi. unfold ld64. f_equal. apply ldn_ext. intros x Hx. apply (H p); [done|].
  change PGSIZE with 4096. lia.
Qed.

Lemma subtree_self T d π p : T !! π = Some p → p ∈ subtree T d π.
Proof. intros H. destruct d; cbn [subtree]; rewrite H; apply elem_of_app; right; by left. Qed.

Lemma subtree_none T d π : T !! π = None → subtree T d π = [].
Proof. intros H. destruct d; cbn [subtree]; by rewrite H. Qed.

Lemma subtree_S T d π p :
  T !! π = Some p →
  subtree T (S d) π = (seq 0 512 ≫= λ i, subtree T d (Z.of_nat i :: π)) ++ [p].
Proof. intros H. cbn [subtree]. by rewrite H. Qed.

Lemma subtree_O T π p : T !! π = Some p → subtree T 0 π = [p].
Proof. intros H. cbn [subtree]. by rewrite H. Qed.

Lemma subtree_child T d π p i q :
  T !! π = Some p → (i < 512)%nat → q ∈ subtree T d (Z.of_nat i :: π) → q ∈ subtree T (S d) π.
Proof.
  intros Hp Hi Hq. rewrite (subtree_S _ _ _ _ Hp). apply elem_of_app. left.
  apply list_elem_of_bind. exists i. split; [exact Hq|]. apply elem_of_seq. lia.
Qed.

Lemma subtree_child' T d π p i q :
  T !! π = Some p → 0 <= i < 512 → q ∈ subtree T d (i :: π) → q ∈ subtree T (S d) π.
Proof.
  intros Hp Hi Hq. replace i with (Z.of_nat (Z.to_nat i)) in Hq by lia.
  eapply subtree_child; [exact Hp| |exact Hq]. lia.
Qed.

Lemma no_leaves_ext m m' T d π p :
  T !! π = Some p → agree_on (subtree T d π) m m' → no_leaves m T d π p → no_leaves m' T d π p.
Proof.
  revert π p. induction d as [|d IH]; intros π p Hp Ha Hn; cbn [no_leaves] in *; intros i Hi.
  - rewrite (agree_ld64 _ _ _ _ _ Ha) by (done || by apply subtree_self). by apply Hn.
  - destruct (Hn i Hi) as [H1 H2].
    rewrite (agree_ld64 _ _ _ _ _ Ha) by (done || by apply subtree_self).
    split; [done|]. intros q Hq. destruct (H2 q Hq) as [H3 H4]. split; [done|].
    apply IH; [done| |done]. intros r a Hr. apply Ha.
    replace i with (Z.of_nat (Z.to_nat i)) in Hr by lia.
    eapply subtree_child; [exact Hp| |exact Hr]. lia.
Qed.

#[local] Opaque subtree.

Lemma child_not_leaf p : page_ok p →
  has (child_entry (Some p)) (Z.lor (Z.lor PTE_R PTE_W) PTE_X) = false.
Proof.
  intros Hp%page_ok_range. unfold has, child_entry.
  rewrite land_flag by (vm_compute; intuition discriminate).
  rewrite PTE_FLAGS_lor by (done || vm_compute; intuition discriminate). done.
Qed.

(** Two memories agree outside a set of pages. *)
Definition outside (ps : list Z) (m m' : memory) : Prop :=
  ∀ a, (∀ q, q ∈ ps → ~ (q <= a < q + PGSIZE)) → ld8 m' a = ld8 m a.

Lemma outside_agree ps qs m m' :
  outside ps m m' → (∀ p, p ∈ ps → page_ok p) → (∀ q, q ∈ qs → page_ok q) →
  (∀ q, q ∈ qs → q ∉ ps) → agree_on qs m m'.
Proof.
  intros Ho Hps Hqs Hd q a Hq Ha. apply Ho. intros p Hp.
  destruct (Hps p Hp) as [Ap _], (Hqs q Hq) as [Aq _].
  assert (p ≠ q) as N by (intros ->; by eapply Hd).
  destruct (page_disjoint p q Ap Aq N); lia.
Qed.

Lemma outside_weaken ps qs m m' :
  outside ps m m' → (∀ p, p ∈ ps → p ∈ qs) → outside qs m m'.
Proof. intros Ho Hi a Ha. apply Ho. intros q Hq. apply Ha. by apply Hi. Qed.

Lemma outside_trans ps m1 m2 m3 : outside ps m1 m2 → outside ps m2 m3 → outside ps m1 m3.
Proof. intros H1 H2 a Ha. rewrite H2 by done. by apply H1. Qed.

Lemma outside_same_except p m m' : same_except p m m' → outside [p] m m'.
Proof. intros H a Ha. apply H. pose proof (Ha p (list_elem_of_here _ _)). lia. Qed.

Lemma kmem_inv_outside ps m m' head fl :
  mem_ok m' → outside ps m m' → (∀ p, p ∈ ps → page_ok p) → (∀ p, p ∈ ps → p ∉ fl) →
  kmem_inv m head fl → kmem_inv m' head fl.
Proof.
  intros Hok Ho Hps Hd Hi. eapply kmem_inv_ext; [done| |exact Hi].
  pose proof (km_pages _ _ _ Hi) as Hp. rewrite Forall_forall in Hp.
  intros q a Hq. apply (outside_agree ps fl m m'); eauto. intros x Hx Hx'. by apply (Hd x).
Qed.

Section walkdown.
Context T (HT : ∀ π p, T !! π = Some p → page_ok p).

Lemma subtree_ok d π q : q ∈ subtree T d π → page_ok q.
Proof.
  revert π. induction d as [|d IH]; intros π;
    (destruct (T !! π) as [p|] eqn:E; [|rewrite subtree_none by done; by intros ?%elem_of_nil]).
  - rewrite (subtree_O _ _ _ E). intros ->%list_elem_of_singleton. by eapply HT.
  - rewrite (subtree_S _ _ _ _ E). intros [(i & Hq & _)%list_elem_of_bind|[->|?%elem_of_nil]%elem_of_cons]%elem_of_app;
      [by eapply IH|by eapply HT|done].
Qed.

(** What freeing a list of table pages does. *)
Definition frees (s : kstate) (fl ps touched : list Z) (m' : memory) (h' : Z) : Prop :=
  kmem_inv m' h' (reverse ps ++ fl) ∧ outside touched (k_mem s) m'.

Definition freewalk_spec (d : nat) : Prop := ∀ π p s fl e,
  T !! π = Some p → kready (k_x s) → kmem_inv (k_mem s) (k_freelist s) fl →
  no_leaves (k_mem s) T d π p → NoDup (subtree T d π ++ fl) →
  ∃ m' h', freewalk (S d) p s e = Ok tt (with_mem s m' h') e ∧
    frees s fl (subtree T d π) (subtree T d π) m' h'.

(** The body of the loop of [freewalk]. *)
Definition freewalk_body (d : nat) (p : Z) (i : nat) : K unit :=
  pte ← load64 (p + 8 * Z.of_nat i);
  if has pte PTE_V && negb (has pte (Z.lor (Z.lor PTE_R PTE_W) PTE_X)) then
    freewalk d (PTE2PA pte);;
    store64 (p + 8 * Z.of_nat i) 0
  else if has pte PTE_V then panic "freewalk: leaf" else mret ().

(** One child. *)
Lemma freewalk_child d π p i s fl e :
  freewalk_spec d → T !! π = Some p → (i < 512)%nat → kready (k_x s) →
  kmem_inv (k_mem s) (k_freelist s) fl →
  ld64 (k_mem s) (p + 8 * Z.of_nat i) = child_entry (T !! (Z.of_nat i :: π)) →
  (∀ q, T !! (Z.of_nat i :: π) = Some q → no_leaves (k_mem s) T d (Z.of_nat i :: π) q) →
  NoDup (subtree T d (Z.of_nat i :: π) ++ p :: fl) →
  ∃ m' h', freewalk_body (S d) p i s e = Ok tt (with_mem s m' h') e ∧
    frees s fl (subtree T d (Z.of_nat i :: π)) (p :: subtree T d (Z.of_nat i :: π)) m' h' ∧
    (∀ j, j ≠ Z.of_nat i → 0 <= j < 512 → ld64 m' (p + 8 * j) = ld64 (k_mem s) (p + 8 * j)).
Proof.
  intros Hspec Hp Hi Hk Hm He Hn Hnd. unfold freewalk_body, load64. rewrite bind_gets, He.
  set (c := Z.of_nat i :: π) in *. destruct (T !! c) as [q|] eqn:Hq.
  2:{ exists (k_mem s), (k_freelist s). rewrite with_mem_id. split; [done|].
      rewrite (subtree_none _ _ _ Hq). done. }
  pose proof (HT _ _ Hq) as Hok. rewrite has_child, child_not_leaf, child_PA by done. cbn [andb negb].
  apply NoDup_app in Hnd as (Hnd1 & Hnd2 & Hnd3).
  apply NoDup_cons in Hnd3 as [Hpfl Hnd3].
  destruct (Hspec c q s fl e Hq Hk Hm (Hn q eq_refl)) as (m1 & h1 & Hrun & Hm1 & Ho1).
  { apply NoDup_app. split_and!; [done| |done]. intros x Hx Hxf. apply (Hnd2 x Hx). by right. }
  erewrite bind_Ok by exact Hrun. unfold store64, upd_mem.
  assert (p ∉ subtree T d c) as Hpc by (intros Hin; apply (Hnd2 p Hin); by left).
  assert (same_except p m1 (st64 m1 (p + 8 * Z.of_nat i) 0)) as Hs.
  { apply same_except_st64; change PGSIZE with 4096; lia. }
  exists (st64 m1 (p + 8 * Z.of_nat i) 0), h1. split; [reflexivity|]. split; [split|].
  - eapply (kmem_inv_outside [p]); [apply st64_ok, Hm1|by apply outside_same_except| | |exact Hm1].
    + intros x ->%list_elem_of_singleton. by eapply HT.
    + intros x ->%list_elem_of_singleton. rewrite elem_of_app, elem_of_reverse. by intros [?|?].
  - eapply outside_trans; eapply outside_weaken; [exact Ho1|by right|
      by apply outside_same_except|intros x ->%list_elem_of_singleton; by left].
  - intros j Hj Hj'. rewrite ld64_st64_entry by congruence.
    eapply (agree_ld64 [p]); [|by left|done].
    eapply outside_agree; [exact Ho1|apply subtree_ok| |].
    + intros x ->%list_elem_of_singleton. by eapply HT.
    + intros x ->%list_elem_of_singleton. done.
Qed.

(** The table pages below entries [i .. i + n). *)
Definition children (d : nat) (π : list Z) (i n : nat) : list Z :=
  seq i n ≫= λ j, subtree T d (Z.of_nat j :: π).

Lemma children_S d π i n :
  children d π i (S n) = subtree T d (Z.of_nat i :: π) ++ children d π (S i) n.
Proof. done. Qed.

Lemma children_elem d π i n q j :
  (i <= j < i + n)%nat → q ∈ subtree T d (Z.of_nat j :: π) → q ∈ children d π i n.
Proof. intros Hj Hq. apply list_elem_of_bind. exists j. split; [done|]. apply elem_of_seq. lia. Qed.

Lemma children_ok d π i n q : q ∈ children d π i n → page_ok q.
Proof. intros (j & Hq & _)%list_elem_of_bind. by eapply subtree_ok. Qed.

Lemma subtree_children d π p :
  T !! π = Some p → subtree T (S d) π = children d π 0 512 ++ [p].
Proof. apply subtree_S. Qed.

#[local] Opaque children.

Lemma freewalk_children d π p n i s fl e :
  freewalk_spec d → T !! π = Some p → (i + n = 512)%nat → kready (k_x s) →
  kmem_inv (k_mem s) (k_freelist s) fl →
  (∀ j, Z.of_nat i <= j < 512 → ld64 (k_mem s) (p + 8 * j) = child_entry (T !! (j :: π))) →
  (∀ j q, Z.of_nat i <= j < 512 → T !! (j :: π) = Some q → no_leaves (k_mem s) T d (j :: π) q) →
  NoDup (children d π i n ++ p :: fl) →
  ∃ m' h', for_each n i (freewalk_body (S d) p) s e = Ok tt (with_mem s m' h') e ∧
    frees s fl (children d π i n) (p :: children d π i n) m' h'.
Proof.
  intros Hspec Hp. revert i s fl. induction n as [|n IH]; intros i s fl Hin Hk Hm He Hn Hnd.
  - exists (k_mem s), (k_freelist s). rewrite with_mem_id. done.
  - cbn [for_each]. rewrite children_S in *.
    rewrite <- app_assoc in Hnd. apply NoDup_app in Hnd as (Hnd1 & Hnd2 & Hnd3).
    pose proof Hnd3 as (Hnd4 & Hnd5 & Hnd6)%NoDup_app.
    destruct (freewalk_child d π p i s fl e) as (m1 & h1 & Hrun & [Hm1 Ho1] & He1); try done;
      [lia|apply He; lia|intros q; apply Hn; lia| |].
    { apply NoDup_app. split_and!; [done| |done]. intros x Hx Hx'. apply (Hnd2 x Hx).
      apply elem_of_app. by right. }
    erewrite bind_Ok by exact Hrun.
    assert (∀ x, x ∈ children d π (S i) n → x ∉ p :: subtree T d (Z.of_nat i :: π)) as Hdis.
    { intros x Hx [->|Hx']%elem_of_cons; [apply (Hnd5 p Hx); by left|].
      apply (Hnd2 x Hx'), elem_of_app. by left. }
    assert (agree_on (children d π (S i) n) (k_mem s) m1) as Hag.
    { eapply outside_agree; [exact Ho1| |apply children_ok|done].
      intros x [->|Hx]%elem_of_cons; [by eapply HT|by eapply subtree_ok]. }
    destruct (IH (S i) (with_mem s m1 h1) (reverse (subtree T d (Z.of_nat i :: π)) ++ fl))
      as (m2 & h2 & Hrun2 & Hm2 & Ho2); try done; [lia|..].
    + intros j Hj. change (k_mem (with_mem s m1 h1)) with m1. rewrite He1 by lia. apply He. lia.
    + intros j q Hj Hq. eapply (no_leaves_ext (k_mem s)); [done| |apply Hn; [lia|done]].
      intros x a Hx. apply Hag. replace j with (Z.of_nat (Z.to_nat j)) in Hx by lia.
      eapply children_elem; [|exact Hx]. lia.
    + apply NoDup_app. split_and!; [done| |].
      * intros x Hx [->|[Hx'%(proj1 (elem_of_reverse _ _))|Hx']%elem_of_app]%elem_of_cons.
        -- apply (Hnd5 p Hx). by left.
        -- apply (Hnd2 x Hx'), elem_of_app. by left.
        -- apply (Hnd5 x Hx). by right.
      * apply NoDup_cons in Hnd6 as [Hpf Hnf]. apply NoDup_cons. split.
        -- intros [Hx%(proj1 (elem_of_reverse _ _))|Hx]%elem_of_app; [|done].
           apply (Hnd2 p Hx), elem_of_app. right. by left.
        -- apply NoDup_app. split_and!; [by rewrite reverse_Permutation| |done].
           intros x Hx%(proj1 (elem_of_reverse _ _)) Hx'. apply (Hnd2 x Hx), elem_of_app. right. by right.
    + exists m2, h2. rewrite with_mem_twice in *. split; [exact Hrun2|]. split.
      * by rewrite reverse_app, <- app_assoc.
      * eapply outside_trans; eapply outside_weaken; [exact Ho1| |exact Ho2|];
          intros x [->|Hx]%elem_of_cons; apply elem_of_cons; rewrite ?elem_of_app; auto.
Qed.

Lemma freewalk_ok d : freewalk_spec d.
Proof.
  induction d as [|d IH]; intros π p s fl e Hp Hk Hm Hn Hnd; pose proof (HT _ _ Hp) as Hok.
  - rewrite (subtree_O _ _ _ Hp) in *. apply NoDup_cons in Hnd as [Hpf _].
    cbn [freewalk]. fold (freewalk_body 0 p).
    assert (for_each 512 0 (freewalk_body 0 p) s e = Ok tt s e) as Hloop.
    { assert (∀ n i, (i + n = 512)%nat → for_each n i (freewalk_body 0 p) s e = Ok tt s e) as H;
        [|by apply H].
      induction n as [|n IHn]; intros i Hi; cbn [for_each]; [done|].
      erewrite bind_Ok; [apply IHn; lia|]. unfold freewalk_body, load64. rewrite bind_gets.
      cbn [no_leaves] in Hn. by rewrite Hn by lia. }
    erewrite bind_Ok by exact Hloop.
    destruct (kfree_inv s fl p e Hk Hm Hok Hpf) as (m' & Hrun & Hm' & Hs).
    exists m', p. split; [exact Hrun|]. split; [done|]. by apply outside_same_except.
  - rewrite (subtree_children _ _ _ Hp) in *.
    rewrite <- app_assoc in Hnd. cbn [app] in Hnd.
    destruct (freewalk_children d π p 512 0 s fl e IH Hp) as (m1 & h1 & Hrun & Hm1 & Ho1);
      try done; [intros j Hj; apply Hn; lia|intros j q Hj Hq; apply (Hn j); [lia|done]|].
    change (freewalk (S (S d)) p) with
      (for_each 512 0 (freewalk_body (S d) p);; kfree p).
    erewrite bind_Ok by exact Hrun.
    destruct (kfree_inv (with_mem s m1 h1) (reverse (children d π 0 512) ++ fl) p e Hk Hm1 Hok)
      as (m2 & Hrun2 & Hm2 & Hs2).
    { apply NoDup_app in Hnd as (_ & Hd & [? _]%NoDup_cons).
      intros [Hx%(proj1 (elem_of_reverse _ _))|Hx]%elem_of_app; [|done]. apply (Hd p Hx). by left. }
    exists m2, p. split; [exact Hrun2|]. split.
    + by rewrite reverse_snoc.
    + eapply outside_trans; eapply outside_weaken; [exact Ho1| |by apply outside_same_except|].
      * intros x [->|Hx]%elem_of_cons; apply elem_of_app; [right; by left|by left].
      * intros x ->%list_elem_of_singleton. apply elem_of_app. right. by left.
Qed.

(** The pages of a subtree are at paths that end in its own. *)
Lemma subtree_path d π q : q ∈ subtree T d π → ∃ l, T !! (l ++ π) = Some q.
Proof.
  revert π. induction d as [|d IH]; intros π;
    (destruct (T !! π) as [p|] eqn:E; [|rewrite subtree_none by done; by intros ?%elem_of_nil]).
  - rewrite (subtree_O _ _ _ E). intros ->%list_elem_of_singleton. by exists [].
  - rewrite (subtree_S _ _ _ _ E). intros [(i & Hq & _)%list_elem_of_bind|Hq]%elem_of_app.
    + apply IH in Hq as [l Hl]. exists (l ++ [Z.of_nat i]). by rewrite <- app_assoc.
    + apply list_elem_of_singleton in Hq as ->. by exists [].
Qed.

Lemma NoDup_subtree d π :
  (∀ π1 π2 p, T !! π1 = Some p → T !! π2 = Some p → π1 = π2) → NoDup (subtree T d π).
Proof.
  intros Hinj. revert π. induction d as [|d IH]; intros π;
    (destruct (T !! π) as [p|] eqn:E; [|rewrite subtree_none by done; constructor]).
  - rewrite (subtree_O _ _ _ E). apply NoDup_singleton.
  - rewrite (subtree_S _ _ _ _ E). apply NoDup_app. split_and!; [| |apply NoDup_singleton].
    + apply NoDup_bind; [|by intros; apply IH|apply NoDup_seq].
      intros i j q _ _ [l1 H1]%subtree_path [l2 H2]%subtree_path.
      pose proof (Hinj _ _ _ H1 H2) as Eq. apply app_inj_2 in Eq as [_ Eq]; [|done].
      injection Eq. lia.
    + intros q (i & [l Hl]%subtree_path & _)%list_elem_of_bind ->%list_elem_of_singleton.
      pose proof (Hinj _ _ _ Hl E) as Eq. apply (f_equal length) in Eq.
      rewrite length_app in Eq. simpl in Eq. lia.
Qed.

End walkdown.

Lemma PX_of i2 i1 j :
  0 <= i2 < 256 → 0 <= i1 < 512 → 0 <= j < 512 →
  let va := i2 * 1073741824 + i1 * 2097152 + j * 4096 in
  0 <= va < MAXVA ∧ PX 2 va = i2 ∧ PX 1 va = i1 ∧ PX 0 va = j.
Proof.
  intros H2 H1 H0 va. change MAXVA with 274877906944.
  assert (0 <= va) by (subst va; lia). rewrite !PX_spec by lia.
  change (2 ^ (12 + 9 * 2)) with 1073741824. change (2 ^ (12 + 9 * 1)) with 2097152.
  change (2 ^ (12 + 9 * 0)) with 4096. subst va. split_and!; zlia.
Qed.

Lemma no_leaves_intro m T root :
  pt_rep m T → T !! [] = Some root → (∀ va, 0 <= va < MAXVA → is_mapped m T va = false) →
  no_leaves m T 2 [] root.
Proof.
  intros [H1 H2 H3 HR H4 H5] Hr Hn i2 Hi2. split; [by apply H5; [|simpl; lia|]|].
  intros q2 Hq2. split; [by eapply H1|]. intros i1 Hi1.
  split; [by apply H5; [|simpl; lia|]|]. intros q1 Hq1. split; [by eapply H1|]. intros j Hj.
  destruct (HR i2 []) as [_ Hlow]; [eauto|].
  destruct (PX_of i2 i1 j) as (Hva & E2 & E1 & E0); [auto with lia..|].
  specialize (Hn _ Hva). unfold is_mapped, leaf in Hn. by rewrite E2, E1, E0, Hq1 in Hn.
Qed.

(** The pages of the whole table. *)
Definition table_pages T : list Z := subtree T 2 [].

Lemma elem_of_table_pages m T π p : pt_rep m T → T !! π = Some p → p ∈ table_pages T.
Proof.
  intros Ht Hp. pose proof (pt_depth _ _ Ht π ltac:(eauto)) as Hd. unfold table_pages.
  assert (∀ i π', is_Some (T !! (i :: π')) → 0 <= i < 512 ∧ ∃ q, T !! π' = Some q) as Hpar.
  { intros i π' H. split; [by destruct (pt_range _ _ Ht _ _ H)|by apply (pt_closed _ _ Ht) in H]. }
  destruct π as [|i [|j [|]]]; [by apply subtree_self| | |simpl in Hd; lia].
  - destruct (Hpar i [] ltac:(eauto)) as (Hi & r & Hr).
    apply (subtree_child' T 1 [] r i); [done..|]. by apply subtree_self.
  - destruct (Hpar i [j] ltac:(eauto)) as (Hi & q & Hq).
    destruct (Hpar j [] ltac:(eauto)) as (Hj & r & Hr).
    apply (subtree_child' T 1 [] r j); [done..|]. apply (subtree_child' T 0 [j] q i); [done..|].
    by apply subtree_self.
Qed.

Lemma uvmfree_ok s T fl B root sz e :
  vm_ok s T fl → owns (k_mem s) T fl B → T !! [] = Some root →
  0 <= sz <= B → PGROUNDUP sz <= B →
  (∀ va, PGROUNDUP sz <= va < MAXVA → is_mapped (k_mem s) T va = false) →
  ∃ m' h', uvmfree root sz s e = Ok tt (with_mem s m' h') e ∧
    kmem_inv m' h' (reverse (table_pages T) ++
                    reverse (frames (k_mem s) T 0 (Z.to_nat (PGROUNDUP sz / 4096))) ++ fl) ∧
    (∀ b, ~ in_table T b → (∀ va, 0 <= va < B → is_mapped (k_mem s) T va = true →
       ~ (frame_of (k_mem s) T va <= b < frame_of (k_mem s) T va + PGSIZE)) →
       ld8 m' b = ld8 (k_mem s) b).
Proof.
  intros Hv Ho Hr Hsz HB Hhigh. pose proof (ow_bound _ _ _ _ Ho) as HB'.
  change MAXVA with 274877906944 in HB'. unfold uvmfree.
  assert (0 <= PGROUNDUP sz ∧ PGROUNDUP sz mod 4096 = 0) as [Hup0 Hup1] by (rewrite PGROUNDUP_spec by lia; zlia).
  assert (∃ m1 h1, when (0 <? sz) (uvmunmap root 0 (PGROUNDUP sz / PGSIZE) true) s e =
      Ok tt (with_mem s m1 h1) e ∧
    vm_ok (with_mem s m1 h1) T (reverse (frames (k_mem s) T 0 (Z.to_nat (PGROUNDUP sz / 4096))) ++ fl) ∧
    keeps (k_mem s) m1 T B ∧
    ∀ va, 0 <= va < MAXVA → is_mapped m1 T va = false) as (m1 & h1 & Hrun & Hv1 & [_ Hkp] & Hnone).
  { unfold when. destruct (Z.ltb_spec 0 sz) as [Hpos|Hz].
    - destruct (uvmunmap_ok s T fl B root 0 (PGROUNDUP sz / PGSIZE) e Hv Ho Hr)
        as (m1 & h1 & Hrun & Hv1 & _ & Hkp & Hl); [lia|done|change PGSIZE with 4096; zlia..|].
      change PGSIZE with 4096 in *.
      exists m1, h1. split_and!; try done. intros va Hva. unfold is_mapped. rewrite Hl by done.
      case_decide as Hd; [done|]. destruct (has (leaf (k_mem s) T va) PTE_V) eqn:E; [|done].
      exfalso. destruct (decide (va < PGROUNDUP sz)).
      + apply Hd. split; [zlia|done].
      + specialize (Hhigh va ltac:(lia)). unfold is_mapped in Hhigh. congruence.
    - assert (sz = 0) as -> by lia. change (PGROUNDUP 0) with 0 in *.
      exists (k_mem s), (k_freelist s). rewrite with_mem_id. split_and!; (done || apply keeps_refl). }
  erewrite bind_Ok by exact Hrun.
  destruct (freewalk_ok T (pt_page _ _ (vo_pt _ _ _ Hv)) 2 [] root (with_mem s m1 h1) _ e Hr
    (vo_ready _ _ _ Hv1) (vo_kmem _ _ _ Hv1)) as (m2 & h2 & Hrun2 & Hm2 & Hout).
  { by apply no_leaves_intro; [apply Hv1|..]. }
  { apply NoDup_app. split_and!; [apply NoDup_subtree, (vo_pt _ _ _ Hv)| |apply (vo_kmem _ _ _ Hv1)].
    intros x [l Hl]%subtree_path. by apply (vo_disj _ _ _ Hv1 _ _ Hl). }
  exists m2, h2. rewrite with_mem_twice in *. split_and!; [done..|]. intros b Hb Hf.
  rewrite <- Hkp by done. apply Hout. intros q [l Hl]%subtree_path Hq. apply Hb. by exists (l ++ []), q.
Qed.

End unmap.
