(* ===== verification/Uvmcopy.v ===== *)
(** Copying an address space: [uvmcopy] of Vm.v, which [kfork] uses to give the
    child its memory. *)

From S2P Require Export Unmap.

Section uvmcopy.
Context `{L : Layout}.

Implicit Types T : gmap (list Z) Z.

(** ** Address spaces *)

(** The pages of an address space: those of its table, and those mapped below
    [B]. *)
Definition held (m : memory) T (B p : Z) : Prop :=
  (∃ π, T !! π = Some p) ∨
  ∃ va, 0 <= va < B ∧ is_mapped m T va = true ∧ frame_of m T va = p.

(** A well-formed address space next to the free list [fl]. *)
Record space (m : memory) T (fl : list Z) (B : Z) : Prop := {
  sp_rep : pt_rep m T;
  sp_owns : owns m T fl B;
  sp_disj : ∀ π p, T !! π = Some p → p ∉ fl;
}.

Lemma held_ok m T fl B p : space m T fl B → held m T B p → page_ok p ∧ p ∉ fl.
Proof.
  intros [Hr Ho Hd] [[π Hp]|(va & Hva & Hm & <-)].
  - split; [by eapply (pt_page _ _ Hr)|by eapply Hd].
  - split; [by eapply (ow_page _ _ _ _ Ho)|by eapply (ow_fl _ _ _ _ Ho)].
Qed.

(** An address space does not change when its pages do not. *)
Lemma leaf_agree m m' T B va :
  pt_rep m T → (∀ p a, held m T B p → p <= a < p + PGSIZE → ld8 m' a = ld8 m a) →
  leaf m' T va = leaf m T va.
Proof.
  intros Hr Ha. unfold leaf. destruct (T !! _) as [q|] eqn:E; [|done].
  unfold ld64. f_equal. apply ldn_ext. intros x Hx. apply (Ha q); [left; eauto|].
  pose proof (PX_range 0 va). change PGSIZE with 4096. lia.
Qed.

Lemma space_agree m m' T fl fl' B :
  space m T fl B → (∀ p, held m T B p → p ∉ fl') →
  (∀ p a, held m T B p → p <= a < p + PGSIZE → ld8 m' a = ld8 m a) →
  space m' T fl' B ∧ (∀ va, leaf m' T va = leaf m T va) ∧
  (∀ va, 0 <= va < B → is_mapped m T va = true → ubyte m' T va = ubyte m T va).
Proof.
  intros [Hr Ho Hd] Hfl Ha.
  assert (∀ va, leaf m' T va = leaf m T va) as Hl by (intros; by eapply leaf_agree).
  split_and!; [split|done|].
  - destruct Hr as [H1 H2 H3 HR H4 H5]. split; try done. intros π p i Hp Hlen Hi.
    rewrite <- (H5 π p i) by done. unfold ld64. f_equal. apply ldn_ext. intros x Hx.
    apply (Ha p); [left; eauto|]. change PGSIZE with 4096. lia.
  - apply (owns_ext m m') in Ho; [|done]. destruct Ho as [H0 H1 H2 H3 H4]. split; try done.
    intros va Hva Hm. apply Hfl. right. exists va. split; [done|].
    unfold is_mapped, frame_of in *. by rewrite <- Hl.
  - intros π p Hp. apply Hfl. left. eauto.
  - intros va Hva Hm. unfold ubyte, frame_of. rewrite Hl. fold (frame_of m T va).
    apply (Ha (frame_of m T va)); [right; eauto|]. change PGSIZE with 4096. zlia.
Qed.

Lemma held_leaf m m' T B p :
  (∀ va, leaf m' T va = leaf m T va) → held m' T B p ↔ held m T B p.
Proof.
  intros Hl. unfold held, is_mapped, frame_of. by setoid_rewrite Hl.
Qed.

(** Two address spaces that share nothing. *)
Record two_spaces (s : kstate) To Tn (fl : list Z) (B : Z) : Prop := {
  ts_ready : kready (k_x s);
  ts_kmem : kmem_inv (k_mem s) (k_freelist s) fl;
  ts_old : space (k_mem s) To fl B;
  ts_new : space (k_mem s) Tn fl B;
  ts_disj : ∀ p, held (k_mem s) To B p → ~ held (k_mem s) Tn B p;
}.

Lemma ts_vm_new s To Tn fl B : two_spaces s To Tn fl B → vm_ok s Tn fl.
Proof. intros [H1 H2 H3 [H4 H5 H6] H7]. by split. Qed.
Lemma ts_vm_old s To Tn fl B : two_spaces s To Tn fl B → vm_ok s To fl.
Proof. intros [H1 H2 [H4 H5 H6] H3 H7]. by split. Qed.

(** Pages that are neither free nor in the space stay so, with their contents. *)
Definition spared (m : memory) T (fl : list Z) (m' : memory) T' (fl' : list Z) (B : Z) : Prop :=
  ∀ q, page_ok q → q ∉ fl → ~ held m T B q →
    q ∉ fl' ∧ ~ held m' T' B q ∧ ∀ a, q <= a < q + PGSIZE → ld8 m' a = ld8 m a.

Lemma spared_refl m T fl B : spared m T fl m T fl B.
Proof. by intros q _ Hfl Hq. Qed.

Lemma spared_trans m1 T1 f1 m2 T2 f2 m3 T3 f3 B :
  spared m1 T1 f1 m2 T2 f2 B → spared m2 T2 f2 m3 T3 f3 B → spared m1 T1 f1 m3 T3 f3 B.
Proof.
  intros H1 H2 q Hq Hf Hh. destruct (H1 q Hq Hf Hh) as (F2 & N2 & E2).
  destruct (H2 q Hq F2 N2) as (F3 & N3 & E3). split_and!; [done|done|].
  intros a Ha. by rewrite E3, E2.
Qed.

(** Writes to one page that was free, and stays out of the space. *)
Lemma spared_page m T fl m' fl' B p :
  p ∈ fl → page_ok p → same_except p m m' → (∀ q, q ∈ fl' → q ∈ fl) →
  (∀ va, leaf m' T va = leaf m T va) → spared m T fl m' T fl' B.
Proof.
  intros Hp [Ap _] Hs Hfl Hl q [Aq _] Hq Hh. split_and!; [by intros ?%Hfl|by rewrite (held_leaf m m')|].
  intros a Ha. apply Hs. assert (p ≠ q) as N by (by intros ->). destruct (page_disjoint p q Ap Aq N); lia.
Qed.

(** A step of the new space that spares the pages of the old one. *)
Lemma ts_step s To Tn fl B m' h' Tn' fl' :
  two_spaces s To Tn fl B → spared (k_mem s) Tn fl m' Tn' fl' B → kmem_inv m' h' fl' →
  space m' Tn' fl' B →
  two_spaces (with_mem s m' h') To Tn' fl' B ∧ (∀ va, leaf m' To va = leaf (k_mem s) To va) ∧
  (∀ va, 0 <= va < B → is_mapped (k_mem s) To va = true → ubyte m' To va = ubyte (k_mem s) To va).
Proof.
  intros [Hk Hm Hso Hsn Hd] Hsp Hm' Hn'.
  assert (∀ q, held (k_mem s) To B q → q ∉ fl' ∧ ~ held m' Tn' B q ∧
    ∀ a, q <= a < q + PGSIZE → ld8 m' a = ld8 (k_mem s) a) as Hh.
  { intros q Hq. destruct (held_ok _ _ _ _ _ Hso Hq). apply Hsp; auto. }
  destruct (space_agree (k_mem s) m' To fl fl' B Hso) as (So & Lo & Uo);
    [by intros q (? & _)%Hh|intros q a (_ & _ & Ha)%Hh; apply Ha|].
  split_and!; [split; try done|done|done]. intros q. change (k_mem (with_mem _ _ _)) with m'.
  rewrite (held_leaf (k_mem s) m' To) by done. by intros (_ & ? & _)%Hh.
Qed.

(** Memory outside the two spaces and the free list may change. *)
Lemma ts_write s To Tn fl B p m' :
  two_spaces s To Tn fl B → page_ok p → p ∉ fl → ~ held (k_mem s) To B p →
  ~ held (k_mem s) Tn B p → same_except p (k_mem s) m' → mem_ok m' →
  two_spaces (with_mem s m' (k_freelist s)) To Tn fl B ∧
  (∀ T va, T = To ∨ T = Tn → leaf m' T va = leaf (k_mem s) T va) ∧
  (∀ T va, T = To ∨ T = Tn → 0 <= va < B → is_mapped (k_mem s) T va = true →
     ubyte m' T va = ubyte (k_mem s) T va).
Proof.
  intros Hts [Ap Rp] Hfl Ho Hn Hs Hok. pose proof Hts as [Hk Hm Hso Hsn Hd].
  assert (∀ T, T = To ∨ T = Tn → ∀ q a, held (k_mem s) T B q → q <= a < q + PGSIZE →
    ld8 m' a = ld8 (k_mem s) a) as Hag.
  { intros T HT q a Hq Ha. apply Hs.
    assert (page_ok q) as [Aq _] by (destruct HT as [->| ->]; by eapply held_ok in Hq as [? _]).
    assert (p ≠ q) as N by (intros ->; by destruct HT as [->| ->]).
    destruct (page_disjoint p q Ap Aq N); lia. }
  assert (∀ T, T = To ∨ T = Tn → space (k_mem s) T fl B → space m' T fl B ∧
    (∀ va, leaf m' T va = leaf (k_mem s) T va) ∧
    (∀ va, 0 <= va < B → is_mapped (k_mem s) T va = true → ubyte m' T va = ubyte (k_mem s) T va))
    as Hsp.
  { intros T HT Hspc. eapply space_agree; [done| |by apply Hag].
    intros q Hq. by eapply held_ok in Hq as [_ ?]. }
  destruct (Hsp To (or_introl eq_refl) Hso) as (So & Lo & Uo).
  destruct (Hsp Tn (or_intror eq_refl) Hsn) as (Sn & Ln & Un).
  split_and!; [split; try done| |].
  - simpl. eapply (kmem_inv_outside [p]); [done|by apply outside_same_except| | |exact Hm];
      by intros q ->%list_elem_of_singleton.
  - intros q. change (k_mem (with_mem _ _ _)) with m'.
    rewrite (held_leaf (k_mem s) m' To), (held_leaf (k_mem s) m' Tn) by done. apply Hd.
  - intros T va [->| ->]; auto.
  - intros T va [->| ->]; auto.
Qed.

Lemma ts_kalloc s To Tn p fl B e :
  two_spaces s To Tn (p :: fl) B →
  ∃ m' h', kalloc s e = Ok p (with_mem s m' h') e ∧
    two_spaces (with_mem s m' h') To Tn fl B ∧ page_ok p ∧ (p ∉ fl) ∧
    ~ held m' To B p ∧ ~ held m' Tn B p ∧
    (∀ T va, T = To ∨ T = Tn → leaf m' T va = leaf (k_mem s) T va) ∧
    (∀ T va, T = To ∨ T = Tn → 0 <= va < B → is_mapped (k_mem s) T va = true →
       ubyte m' T va = ubyte (k_mem s) T va) ∧
    same_except p (k_mem s) m'.
Proof.
  intros Hts. pose proof Hts as [Hk Hm Hso Hsn Hd].
  destruct (kalloc_inv s p fl e Hk Hm) as (m' & h' & Hrun & Hm' & Hs & _).
  pose proof (km_pages _ _ _ Hm) as [Hok _]%Forall_cons.
  pose proof (km_nodup _ _ _ Hm) as [Hni _]%NoDup_cons.
  assert (∀ T, T = To ∨ T = Tn → space (k_mem s) T (p :: fl) B → ~ held (k_mem s) T B p ∧
    space m' T fl B ∧ (∀ va, leaf m' T va = leaf (k_mem s) T va) ∧
    (∀ va, 0 <= va < B → is_mapped (k_mem s) T va = true → ubyte m' T va = ubyte (k_mem s) T va))
    as Hsp.
  { intros T HT Hspc.
    assert (∀ q, held (k_mem s) T B q → page_ok q ∧ q ∉ p :: fl) as Hh by (intros; by eapply held_ok).
    split; [intros (_ & H)%Hh; apply H; by left|]. eapply space_agree; [done| |].
    - intros q [_ H]%Hh Hq. apply H. by right.
    - intros q a Hq Ha. apply Hh in Hq as [[Aq _] Hne]. apply Hs. destruct Hok as [Ap _].
      assert (p ≠ q) as N by (intros ->; apply Hne; by left).
      destruct (page_disjoint p q Ap Aq N); lia. }
  destruct (Hsp To (or_introl eq_refl) Hso) as (No & So & Lo & Uo).
  destruct (Hsp Tn (or_intror eq_refl) Hsn) as (Nn & Sn & Ln & Un).
  exists m', h'. split_and!; try done.
  - split; try done. intros q. change (k_mem (with_mem _ _ _)) with m'.
    rewrite (held_leaf (k_mem s) m' To), (held_leaf (k_mem s) m' Tn) by done. apply Hd.
  - by rewrite (held_leaf (k_mem s) m' To).
  - by rewrite (held_leaf (k_mem s) m' Tn).
  - intros T va [->| ->]; auto.
  - intros T va [->| ->]; auto.
Qed.

(** ** Mapping a fresh page *)

Lemma mk_pte_PA p perm : page_ok p → 0 <= perm < 1024 → PTE2PA (mk_pte p perm) = p.
Proof.
  intros Hp Hperm. pose proof (page_ok_range p Hp). destruct Hp as [Ap _]. unfold mk_pte.
  rewrite <- Z.lor_assoc. apply PTE2PA_lor; [done|done|by apply lor_flags].
Qed.

Lemma mk_pte_flags p perm :
  page_ok p → 0 <= perm < 1024 → PTE_FLAGS (mk_pte p perm) = Z.lor perm PTE_V.
Proof.
  intros Hp Hperm. pose proof (page_ok_range p Hp). unfold mk_pte.
  rewrite <- Z.lor_assoc. apply PTE_FLAGS_lor; [done|by apply lor_flags].
Qed.

Lemma has_lor_V perm : Z.land (Z.lor perm PTE_V) PTE_V = PTE_V.
Proof.
  apply Z.bits_inj'. intros n Hn. rewrite Z.land_spec, Z.lor_spec.
  by destruct (Z.testbit perm n), (Z.testbit PTE_V n).
Qed.

Lemma mk_pte_valid p perm : page_ok p → 0 <= perm < 1024 → has (mk_pte p perm) PTE_V = true.
Proof.
  intros Hp Hperm. unfold has. rewrite land_flag by (by vm_compute).
  by rewrite mk_pte_flags, has_lor_V.
Qed.

(** Entries after mapping at most one page [i]. *)
Lemma mapped_cases m T m' T' B i p perm k va :
  mapped m T m' T' i p perm k → B <= MAXVA → 0 <= k <= 1 → i mod 4096 = 0 → 0 <= va < B →
  page_ok p → 0 <= perm < 1024 → is_mapped m' T' va = true →
  (k = 1 ∧ va / 4096 = i / 4096 ∧ frame_of m' T' va = p) ∨
  (is_mapped m T va = true ∧ leaf m' T' va = leaf m T va).
Proof.
  intros Hm HB Hk Ai Hva Hp Hperm. unfold is_mapped, frame_of. rewrite Hm by lia.
  case_decide as E; [|by right]. left. split_and!; [lia|zlia|].
  replace ((va - i) / 4096 * 4096) with 0 by zlia. rewrite Z.add_0_r. by apply mk_pte_PA.
Qed.

Lemma owns_map m T fl B m' T' fl' i p perm k :
  owns m T fl B → extends T fl T' fl' → NoDup fl → mapped m T m' T' i p perm k →
  0 <= k <= 1 → 0 <= i → i mod 4096 = 0 → i + 4096 <= B →
  page_ok p → p ∉ fl → ~ held m T B p → 0 <= perm < 1024 → is_mapped m T i = false →
  owns m' T' fl' B.
Proof.
  intros Ho (Hsub & new & -> & Hnew & _) Hnd Hmap Hk Hi Ai HiB Hp Hpfl Hph Hperm Hun.
  pose proof (ow_bound _ _ _ _ Ho) as HB.
  assert (∀ va, 0 <= va < B → is_mapped m' T' va = true →
    (va / 4096 = i / 4096 ∧ frame_of m' T' va = p) ∨
    (is_mapped m T va = true ∧ frame_of m' T' va = frame_of m T va)) as Hx.
  { intros va Hva Hv. destruct (mapped_cases m T m' T' B i p perm k va) as [(_ & H1 & H2)|[H1 H2]];
      try done; [lia|by left|right]. split; [done|]. unfold frame_of. by rewrite H2. }
  assert (∀ va, 0 <= va < B → is_mapped m T va = true → frame_of m T va ≠ p) as Hne.
  { intros va Hva Hv E. apply Hph. right. eauto. }
  split; [done|..].
  - intros va Hva Hv. destruct (Hx va Hva Hv) as [[_ ->]|[H1 ->]]; [done|by eapply ow_page].
  - intros va Hva Hv Hin. destruct (Hx va Hva Hv) as [[_ E]|[H1 E]]; rewrite E in Hin.
    + apply Hpfl, elem_of_app. by right.
    + apply (ow_fl _ _ _ _ Ho va Hva H1), elem_of_app. by right.
  - intros va π Hva Hv Hin.
    destruct (Hx va Hva Hv) as [[_ E]|[H1 E]]; rewrite E in Hin;
      destruct (Hnew _ _ Hin) as [Hq|Hq].
    + apply Hph. left. eauto.
    + apply Hpfl, elem_of_app. by left.
    + by apply (ow_pt _ _ _ _ Ho va π Hva H1).
    + apply (ow_fl _ _ _ _ Ho va Hva H1), elem_of_app. by left.
  - intros va va' Hva Hva' Hv Hv'. destruct (Hx va Hva Hv) as [[? ->]|[H1 ->]],
      (Hx va' Hva' Hv') as [[? ->]|[H2 ->]]; intros E.
    + lia.
    + by destruct (Hne va' Hva' H2).
    + by destruct (Hne va Hva H1).
    + by eapply (ow_inj _ _ _ _ Ho).
Qed.

(** A page that is not in the table keeps its contents. *)
Lemma frame_page T m m' q a :
  frame T m m' → (∀ π p, T !! π = Some p → page_ok p) → page_ok q → (∀ π, T !! π ≠ Some q) →
  q <= a < q + PGSIZE → ld8 m' a = ld8 m a.
Proof.
  intros Hf HT [Aq _] Hne Ha. apply Hf. intros (π & p & Hp & Hr).
  destruct (HT _ _ Hp) as [Ap _]. apply (Hne π). rewrite Hp. f_equal.
  change PGSIZE with 4096 in *. zlia.
Qed.

(** The entries and bytes of a space below [B] are the same in both memories. *)
Definition same_space (m : memory) T (m' : memory) T' (B : Z) : Prop :=
  (∀ va, 0 <= va < B → leaf m' T' va = leaf m T va) ∧
  (∀ va, 0 <= va < B → is_mapped m T va = true → ubyte m' T' va = ubyte m T va).

Lemma ts_map s To Tn fl B root i p perm e :
  two_spaces s To Tn fl B → page_ok p → p ∉ fl → ~ held (k_mem s) To B p →
  ~ held (k_mem s) Tn B p → Tn !! [] = Some root → 0 <= i → i mod 4096 = 0 → i + 4096 <= B →
  is_mapped (k_mem s) Tn i = false → 0 <= perm < 1024 →
  ∃ r m' h' Tn' fl' k, mappages root i PGSIZE p perm s e = Ok r (with_mem s m' h') e ∧
    two_spaces (with_mem s m' h') To Tn' fl' B ∧ extends Tn fl Tn' fl' ∧
    (∀ va, leaf m' To va = leaf (k_mem s) To va) ∧ same_space (k_mem s) To m' To B ∧
    (∀ q a, page_ok q → q ∉ fl → (∀ π, Tn !! π ≠ Some q) → q <= a < q + PGSIZE →
       ld8 m' a = ld8 (k_mem s) a) ∧
    mapped (k_mem s) Tn m' Tn' i p perm k ∧ ((r = 0 ∧ k = 1) ∨ (r = -1 ∧ k = 0 ∧ fl' = [])).
Proof.
  intros Hts Hp Hpfl Hpo Hpn Hr Hi Ai HiB Hun Hperm.
  pose proof Hts as [Hk Hm Hso Hsn Hd]. pose proof (ow_bound _ _ _ _ (sp_owns _ _ _ _ Hsn)) as HB.
  pose proof (page_ok_range p Hp) as Rp. change (2 ^ 56) with 72057594037927936 in Rp.
  destruct (mappages_ok s Tn fl root i PGSIZE p perm e) as
    (r & m' & h' & Tn' & fl' & k & Hrun & Hv & Hext & Hfr & Hmap & Hres); try done;
    [by eapply ts_vm_new|change PGSIZE with 4096 in *; change (2 ^ 56) with 72057594037927936; try lia..].
  { destruct Hp as [_ [_ H]]. revert H. change PHYSTOP with 2281701376. lia. }
  { intros va' Hva'. rewrite (leaf_page _ _ va' i) by (change PGSIZE with 4096 in Hva'; zlia).
    exact Hun. }
  exists r, m', h', Tn', fl', k. change PGSIZE with 4096 in Hres.
  assert (Hk01 : (r = 0 ∧ k = 1) ∨ (r = -1 ∧ k = 0 ∧ fl' = [])).
  { destruct Hres as [?|(? & ? & ? & ?)]; [left|right]; split_and!; (lia || done). }
  pose proof Hext as (Hsub & new & Efl & Hnew & _).
  assert (∀ q a, page_ok q → q ∉ fl → (∀ π, Tn !! π ≠ Some q) → q <= a < q + PGSIZE →
    ld8 m' a = ld8 (k_mem s) a) as Hpg.
  { intros q a Hq Hqfl HqT Ha. apply (frame_page Tn' _ _ q); try done.
    - intros π x. apply (pt_page _ _ (vo_pt _ _ _ Hv)).
    - intros π Hx. destruct (Hnew _ _ Hx); [by eapply HqT|].
      apply Hqfl. rewrite Efl. apply elem_of_app. by left. }
  assert (∀ q, held (k_mem s) To B q → page_ok q ∧ q ∉ fl) as Hh by (intros q Hq; by apply (held_ok (k_mem s) To fl B)).
  destruct (space_agree (k_mem s) m' To fl fl' B Hso) as (So & Lo & Uo).
  { intros q [_ Hq]%Hh Hin. apply Hq. rewrite Efl. apply elem_of_app. by right. }
  { intros q a Hq Ha. apply Hh in Hq as Hq'. apply (Hpg q); [apply Hq'|apply Hq'| |done].
    intros π Hx. eapply Hd; [exact Hq|left; eauto]. }
  split_and!; try done.
  split; [done|apply Hv|done| |].
  - split; [apply Hv| |apply Hv]. eapply owns_map; eauto; [apply Hsn|apply Hm|lia].
  - intros q Hq Hq'. change (k_mem (with_mem _ _ _)) with m' in *.
    rewrite (held_leaf (k_mem s)) in Hq by done. destruct (Hh _ Hq) as [_ Hqfl].
    destruct Hq' as [[π Hx]|(va & Hva & Hvm & Hf)].
    + destruct (Hnew _ _ Hx); [eapply Hd; [exact Hq|left; eauto]|].
      apply Hqfl. rewrite Efl. apply elem_of_app. by left.
    + destruct (mapped_cases (k_mem s) Tn m' Tn' B i p perm k va) as [(_ & _ & H2)|[H1 H2]];
        try done; [lia|lia|congruence|].
      apply (Hd q Hq). right. exists va. split; [done|]. split; [done|]. rewrite <- Hf.
      unfold frame_of. by rewrite H2.
Qed.

(** ** Taking the new space down again *)

(** Pages that are free or belong to the space stay so. *)
Definition no_leak (m : memory) T (fl : list Z) (m' : memory) T' (fl' : list Z) (B : Z) : Prop :=
  ∀ q, q ∈ fl ∨ held m T B q → q ∈ fl' ∨ held m' T' B q.

Lemma ts_unmap s To Tn fl B root n e :
  two_spaces s To Tn fl B → Tn !! [] = Some root → 0 <= n → n * 4096 <= B →
  ∃ m' h' fl', uvmunmap root 0 n true s e = Ok tt (with_mem s m' h') e ∧
    two_spaces (with_mem s m' h') To Tn fl' B ∧ same_space (k_mem s) To m' To B ∧
    no_leak (k_mem s) Tn fl m' Tn fl' B ∧
    (∀ va, 0 <= va < MAXVA → leaf m' Tn va =
       if decide (va < n * 4096 ∧ is_mapped (k_mem s) Tn va = true) then 0
       else leaf (k_mem s) Tn va) ∧
    spared (k_mem s) Tn fl m' Tn fl' B.
Proof.
  intros Hts Hr Hn HnB. pose proof Hts as [Hk Hm Hso Hsn Hd].
  pose proof (ow_bound _ _ _ _ (sp_owns _ _ _ _ Hsn)) as HB.
  destruct (uvmunmap_ok s Tn fl B root 0 n e) as (m' & h' & Hrun & Hv & Ho & [_ Hkp] & Hl); try done;
    [by eapply ts_vm_new|apply Hsn|].
  set (fl' := reverse _ ++ fl) in *.
  assert (Hleaf : ∀ va, 0 <= va < MAXVA → leaf m' Tn va =
       if decide (va < n * 4096 ∧ is_mapped (k_mem s) Tn va = true) then 0
       else leaf (k_mem s) Tn va).
  { intros va Hva. rewrite Hl by done. apply decide_ext. rewrite Z2Nat.id by lia.
    split; intros [? ?]; (split; [lia|done]). }
  assert (∀ va, 0 <= va < B → is_mapped m' Tn va = true →
    is_mapped (k_mem s) Tn va = true ∧ frame_of m' Tn va = frame_of (k_mem s) Tn va) as Hmp.
  { intros va Hva. unfold is_mapped, frame_of. rewrite Hleaf by lia. by case_decide. }
  assert (∀ q, q ∈ fl' → q ∈ fl ∨ held (k_mem s) Tn B q) as Hfl'.
  { intros q [(j & Hj & H1 & H2)%elem_of_reverse%elem_of_frames|]%elem_of_app; [|by left].
    right. right. exists (0 + j * 4096). split; [lia|done]. }
  assert (spared (k_mem s) Tn fl m' Tn fl' B) as Hsp.
  { intros q [Aq Rq] Hq Hh. split_and!; [by intros [?|?]%Hfl'| |].
    - intros [?|(va & Hva & [H1 H2]%Hmp & <-)]; [by apply Hh; left|apply Hh; right; eauto|done].
    - intros a Ha. apply Hkp.
      + intros (π & x & Hx & Hax). destruct (pt_page _ _ (sp_rep _ _ _ _ Hsn) _ _ Hx) as [Ax _].
        assert (x = q) as -> by (change PGSIZE with 4096 in *; zlia). apply Hh. left. eauto.
      + intros va Hva Hvm Hax. destruct (ow_page _ _ _ _ (sp_owns _ _ _ _ Hsn) va Hva Hvm) as [Ax _].
        assert (frame_of (k_mem s) Tn va = q) as E by (change PGSIZE with 4096 in *; zlia).
        apply Hh. right. eauto. }
  destruct (ts_step s To Tn fl B m' h' Tn fl') as (Hts' & Lo & Uo); try done;
    [apply Hv|split; [apply Hv|done|apply Hv]|].
  exists m', h', fl'. split_and!; try done.
  - intros q [Hq|[Hq|(va & Hva & Hvm & Hf)]]; [left; apply elem_of_app; by right|right; by left|].
    destruct (decide (va < n * 4096)).
    + left. apply elem_of_app. left. apply elem_of_reverse, elem_of_frames.
      exists (va / 4096). unfold is_mapped, frame_of in *.
      rewrite (leaf_page _ _ (0 + va / 4096 * 4096) va) by zlia. split; [zlia|done].
    + right. right. exists va. split; [done|]. unfold is_mapped, frame_of in *.
      rewrite Hleaf by lia. rewrite decide_False by lia. done.
Qed.

(** Giving a page back that neither space uses. *)
Lemma ts_kfree s To Tn fl B p e :
  two_spaces s To Tn fl B → page_ok p → p ∉ fl → ~ held (k_mem s) To B p →
  ~ held (k_mem s) Tn B p →
  ∃ m', kfree p s e = Ok tt (with_mem s m' p) e ∧
    two_spaces (with_mem s m' p) To Tn (p :: fl) B ∧
    (∀ T va, T = To ∨ T = Tn → leaf m' T va = leaf (k_mem s) T va) ∧
    (∀ T, T = To ∨ T = Tn → same_space (k_mem s) T m' T B) ∧ same_except p (k_mem s) m'.
Proof.
  intros Hts Hp Hfl Ho Hn. pose proof Hts as [Hk Hm Hso Hsn Hd].
  destruct (kfree_inv s fl p e Hk Hm Hp Hfl) as (m' & Hrun & Hm' & Hs).
  destruct (ts_write s To Tn fl B p m') as ([H1 _ [R1 O1 D1] [R2 O2 D2] H5] & Hl & Hu);
    try done; [apply Hm'|].
  assert (∀ T, T = To ∨ T = Tn → pt_rep m' T → owns m' T fl B →
    (∀ π q, T !! π = Some q → q ∉ fl) → space m' T (p :: fl) B) as Hsp.
  { intros T HT R O D. destruct O as [O0 O1' O2' O3 O4]. split; [done|split; try done|].
    - intros va Hva Hvm [E|Hin]%elem_of_cons; [|by eapply O2'].
      assert (held (k_mem s) T B p) as Hh.
      { right. exists va. unfold is_mapped, frame_of in *. by rewrite Hl in E, Hvm. }
      by destruct HT as [->| ->].
    - intros π q Hq [->|Hin]%elem_of_cons; [|by eapply D].
      assert (held (k_mem s) T B p) by (left; eauto). by destruct HT as [->| ->]. }
  exists m'. split_and!; [done| |done|intros T HT; split; intros; [apply Hl|apply Hu]; auto|done].
  split; [done|done|by apply Hsp; auto|by apply Hsp; auto|done].
Qed.

(** ** The copy *)

(** The first [i] bytes of the new space are a copy of those of the old one; the
    rest, up to [B], is not mapped yet. *)
Record copied (m : memory) To Tn (i B : Z) : Prop := {
  cp_mapped : ∀ va, 0 <= va < i → is_mapped m Tn va = is_mapped m To va;
  cp_flags : ∀ va, 0 <= va < i → is_mapped m To va = true →
    PTE_FLAGS (leaf m Tn va) = PTE_FLAGS (leaf m To va);
  cp_bytes : ∀ va, 0 <= va < i → is_mapped m To va = true → ubyte m Tn va = ubyte m To va;
  cp_rest : ∀ va, i <= va < B → is_mapped m Tn va = false;
}.

(** What every round keeps. *)
Record cstep (s : kstate) To Tn (fl : list Z) (B : Z) (m' : memory) (h' : Z) Tn' (fl' : list Z) : Prop := {
  cs_ts : two_spaces (with_mem s m' h') To Tn' fl' B;
  cs_old : same_space (k_mem s) To m' To B;
  cs_leak : no_leak (k_mem s) Tn fl m' Tn' fl' B;
  cs_sub : Tn ⊆ Tn';
  cs_high : ∀ va, B <= va < MAXVA → leaf m' Tn' va = leaf (k_mem s) Tn va;
  cs_spared : spared (k_mem s) Tn fl m' Tn' fl' B;
}.

Lemma same_space_trans m1 T1 m2 T2 m3 T3 B :
  same_space m1 T1 m2 T2 B → same_space m2 T2 m3 T3 B → same_space m1 T1 m3 T3 B.
Proof.
  intros [L1 U1] [L2 U2]. split.
  - intros va Hva. by rewrite L2, L1.
  - intros va Hva Hm. rewrite U2, U1; try done. unfold is_mapped in *. by rewrite L1.
Qed.

Lemma cstep_refl s To Tn fl B :
  two_spaces s To Tn fl B → cstep s To Tn fl B (k_mem s) (k_freelist s) Tn fl.
Proof. intros H. split; [by rewrite with_mem_id|done|by intros q|done|done|apply spared_refl]. Qed.

Lemma cstep_trans s To T1 f1 B m2 h2 T2 f2 m3 h3 T3 f3 :
  cstep s To T1 f1 B m2 h2 T2 f2 → cstep (with_mem s m2 h2) To T2 f2 B m3 h3 T3 f3 →
  cstep s To T1 f1 B m3 h3 T3 f3.
Proof.
  intros [A1 A2 A3 A4 A5 A6] [B1 B2 B3 B4 B5 B6]. change (k_mem (with_mem s m2 h2)) with m2 in *.
  split; [by rewrite with_mem_twice in B1|by eapply same_space_trans| |by etrans| |].
  - intros q Hq. by apply B3, A3.
  - intros va Hva. by rewrite B5, A5.
  - by eapply spared_trans.
Qed.

(** Undoing the copy. *)
Lemma copy_err s To Tn fl B root i e :
  two_spaces s To Tn fl B → Tn !! [] = Some root → 0 <= i <= B → i mod 4096 = 0 →
  (∀ va, i <= va < B → is_mapped (k_mem s) Tn va = false) →
  ∃ m' h' fl', uvmunmap root 0 (i / PGSIZE) true s e = Ok tt (with_mem s m' h') e ∧
    cstep s To Tn fl B m' h' Tn fl' ∧ ∀ va, 0 <= va < B → is_mapped m' Tn va = false.
Proof.
  intros Hts Hr Hi Ai Hrest. change PGSIZE with 4096.
  pose proof (ow_bound _ _ _ _ (sp_owns _ _ _ _ (ts_new _ _ _ _ _ Hts))) as HB.
  destruct (ts_unmap s To Tn fl B root (i / 4096) e) as (m' & h' & fl' & Hrun & H1 & H2 & H3 & H4 & H5);
    [done|done|zlia..|].
  exists m', h', fl'. split_and!; [done|split; try done|].
  - intros va Hva. rewrite H4 by lia. rewrite decide_False; [done|]. zlia.
  - intros va Hva. unfold is_mapped. rewrite H4 by lia. case_decide as E; [done|].
    destruct (decide (va < i)) as [Hlt|]; [|apply Hrest; lia].
    destruct (has (leaf (k_mem s) Tn va) PTE_V) eqn:Em; [|done]. destruct E. split; [zlia|done].
Qed.

(** A fresh page with the contents of the old page at [i]. *)
Record fresh_copy (s : kstate) To Tn (fl : list Z) (B i p : Z) (m2 : memory) (h2 : Z) : Prop := {
  fc_ts : two_spaces (with_mem s m2 h2) To Tn fl B;
  fc_page : page_ok p;
  fc_fl : p ∉ fl;
  fc_held : ~ held m2 To B p ∧ ~ held m2 Tn B p;
  fc_leaf : ∀ T va, T = To ∨ T = Tn → leaf m2 T va = leaf (k_mem s) T va;
  fc_byte : ∀ T va, T = To ∨ T = Tn → 0 <= va < B → is_mapped (k_mem s) T va = true →
    ubyte m2 T va = ubyte (k_mem s) T va;
  fc_rest : same_except p (k_mem s) m2;
  fc_copy : ∀ off, 0 <= off < 4096 → ld8 m2 (p + off) = ubyte (k_mem s) To (i + off);
}.

Lemma alloc_copy s To Tn p fl B i e :
  two_spaces s To Tn (p :: fl) B → 0 <= i → i mod 4096 = 0 → i + 4096 <= B →
  is_mapped (k_mem s) To i = true →
  ∃ m1 h1, kalloc s e = Ok p (with_mem s m1 h1) e ∧
    fresh_copy s To Tn fl B i p (memmove m1 p (frame_of (k_mem s) To i) PGSIZE) h1.
Proof.
  intros Hts Hi Ai HiB Hmi. destruct (ts_kalloc s To Tn p fl B e Hts) as
    (m1 & h1 & Hrun & Hts1 & Hp & Hfl & Ho & Hn & Hl & Hu & Hse).
  exists m1, h1. split; [done|]. pose proof (km_mem _ _ _ (ts_kmem _ _ _ _ _ Hts1)) as Hok.
  change (mem_ok m1) in Hok. pose proof (ow_bound _ _ _ _ (sp_owns _ _ _ _ (ts_old _ _ _ _ _ Hts))) as HB.
  set (m2 := memmove m1 p _ PGSIZE).
  assert (∀ x, ld8 m2 x = if decide (p <= x < p + PGSIZE)
    then ld8 m1 (frame_of (k_mem s) To i + (x - p)) else ld8 m1 x) as Hm2.
  { intros x. by apply ld8_memmove. }
  destruct (ts_write (with_mem s m1 h1) To Tn fl B p m2) as (Hts2 & Hl2 & Hu2); try done.
  { intros x Hx. rewrite Hm2, decide_False; [done|lia]. }
  { by apply memmove_ok. }
  change (k_mem (with_mem s m1 h1)) with m1 in *. split; try done.
  - split; rewrite (held_leaf m1 m2) by auto; done.
  - intros T va HT. by rewrite Hl2, Hl.
  - intros T va HT Hva Hm. rewrite Hu2, Hu; try done. unfold is_mapped in *. by rewrite Hl.
  - intros a Ha. rewrite Hm2, decide_False by lia. by apply Hse.
  - intros off Hoff. rewrite Hm2, decide_True by (change PGSIZE with 4096; lia).
    assert (leaf (k_mem s) To (i + off) = leaf (k_mem s) To i) as Hlf by (apply leaf_page; zlia).
    rewrite <- Hu; [|by left|lia|unfold is_mapped in *; by rewrite Hlf].
    unfold ubyte, frame_of. rewrite Hl, Hlf by (by left). f_equal. zlia.
Qed.

Lemma flags_V v : has v PTE_V = true → Z.lor (PTE_FLAGS v) PTE_V = PTE_FLAGS v.
Proof.
  intros Hv. apply Z.bits_inj'. intros n Hn. rewrite Z.lor_spec.
  destruct (Z.testbit PTE_V n) eqn:E; [|by rewrite orb_false_r].
  rewrite orb_true_r. unfold PTE_V, PTE_FLAGS, has in *.
  destruct (decide (n = 0)) as [->|N].
  - apply negb_true_iff, Z.eqb_neq in Hv. symmetry. rewrite Z.land_spec.
    change (Z.testbit 1023 0) with true. rewrite andb_true_r.
    destruct (Z.testbit v 0) eqn:Ev; [done|]. destruct Hv.
    change (Z.land v (1 ≪ 0)) with (Z.land v (Z.ones 1)). rewrite Z.land_ones by lia. change (2 ^ 1) with 2.
    rewrite <- Z.bit0_mod, Ev. done.
  - exfalso. change (1 ≪ 0) with (2 ^ 0) in E. by rewrite Z.pow2_bits_false in E by lia.
Qed.

Lemma PTE_FLAGS_range v : 0 <= PTE_FLAGS v < 1024.
Proof.
  unfold PTE_FLAGS. change 1023 with (Z.ones 10). rewrite Z.land_ones by lia.
  change (2 ^ 10) with 1024. zlia.
Qed.

(** Mapping the fresh copy at page [i] extends the copy by a page. *)
Lemma copied_map m m' To Tn Tn' B i p :
  copied m To Tn i B → 0 <= i → i mod 4096 = 0 → i + 4096 <= B → B <= MAXVA → page_ok p →
  is_mapped m To i = true → mapped m Tn m' Tn' i p (PTE_FLAGS (leaf m To i)) 1 →
  same_space m To m' To B →
  (∀ va, 0 <= va < B → is_mapped m Tn va = true → ld8 m' (phys m Tn va) = ubyte m Tn va) →
  (∀ off, 0 <= off < 4096 → ld8 m' (p + off) = ubyte m To (i + off)) →
  copied m' To Tn' (i + 4096) B.
Proof.
  intros [C1 C2 C3 C4] Hi Ai HiB HB Hp Hmi Hmap [HL U] Hb Hcopy.
  assert (0 <= PTE_FLAGS (leaf m To i) < 1024) as Hfl by apply PTE_FLAGS_range.
  assert (∀ va, 0 <= va < MAXVA → va < i ∨ i + 4096 <= va → leaf m' Tn' va = leaf m Tn va) as Hout.
  { intros va Hva Ho. rewrite Hmap by done. rewrite decide_False; [done|lia]. }
  assert (∀ va, i <= va < i + 4096 → leaf m' Tn' va = mk_pte p (PTE_FLAGS (leaf m To i)) ∧
    leaf m To va = leaf m To i) as Hin.
  { intros va Hva. rewrite Hmap by lia. rewrite decide_True by lia. split; [|apply leaf_page; zlia].
    f_equal. zlia. }
  split; intros va Hva; unfold is_mapped in *.
  - rewrite HL by lia. destruct (decide (va < i)).
    + rewrite Hout by lia. apply C1. lia.
    + destruct (Hin va) as [-> ->]; [lia|]. by rewrite mk_pte_valid.
  - rewrite HL by lia. intros Hm. destruct (decide (va < i)).
    + rewrite Hout by lia. apply C2; [lia|done].
    + destruct (Hin va) as [-> ->]; [lia|]. by rewrite mk_pte_flags, flags_V.
  - rewrite HL by lia. intros Hm. rewrite U by (lia || done). destruct (decide (va < i)).
    + rewrite <- C3 by (lia || done). rewrite <- Hb by (rewrite ?C1; lia || done).
      unfold ubyte, phys, frame_of. by rewrite Hout by lia.
    + unfold ubyte at 1, frame_of at 1. destruct (Hin va) as [-> _]; [lia|].
      rewrite mk_pte_PA by done. rewrite Hcopy by zlia. f_equal. zlia.
  - rewrite Hout by lia. apply C4. lia.
Qed.

(** A change that spares the pages of a space outside its table keeps its
    bytes. *)
Lemma frames_kept m m' T fl B va :
  owns m T fl B →
  (∀ q a, page_ok q → q ∉ fl → (∀ π, T !! π ≠ Some q) → q <= a < q + PGSIZE → ld8 m' a = ld8 m a) →
  0 <= va < B → is_mapped m T va = true → ld8 m' (phys m T va) = ubyte m T va.
Proof.
  intros Ho Hpg Hva Hm. unfold ubyte. fold (phys m T va).
  eapply (Hpg (frame_of m T va)); [by eapply ow_page|by eapply ow_fl| |].
  - intros π. by eapply ow_pt.
  - change PGSIZE with 4096. unfold phys. zlia.
Qed.

(** The end of a round: go on with the next page, or give up with nothing
    mapped. *)
Definition round_post (s : kstate) To Tn (fl : list Z) (B i : Z) (r : Z + Z) (m' : memory) (h' : Z)
    Tn' (fl' : list Z) : Prop :=
  cstep s To Tn fl B m' h' Tn' fl' ∧
  ((r = inl (i + 4096) ∧ copied m' To Tn' (i + 4096) B) ∨
   (r = inr (-1) ∧ ∀ va, 0 <= va < B → is_mapped m' Tn' va = false)).

(** Growing the new space by the fresh page spares everything else. *)
Lemma spared_map s To Tn p fl B i m2 h2 m3 Tn' fl' :
  fresh_copy s To Tn fl B i p m2 h2 → extends Tn fl Tn' fl' →
  (∀ q a, page_ok q → q ∉ fl → (∀ π, Tn !! π ≠ Some q) → q <= a < q + PGSIZE →
     ld8 m3 a = ld8 m2 a) →
  (∀ va, 0 <= va < B → is_mapped m3 Tn' va = true → frame_of m3 Tn' va = p ∨
     is_mapped (k_mem s) Tn va = true ∧ frame_of m3 Tn' va = frame_of (k_mem s) Tn va) →
  spared (k_mem s) Tn (p :: fl) m3 Tn' fl' B.
Proof.
  intros Hfc (_ & new & -> & Hnew & _) Hpg Hm q Hq [Np Nq]%not_elem_of_cons Hh.
  apply not_elem_of_app in Nq as [Nn Nf].
  assert (∀ π, Tn !! π ≠ Some q) as HT by (intros π E; apply Hh; left; eauto).
  split_and!; [done| |].
  - intros [[π E]|(va & Hva & Hvm & E)]; [by destruct (Hnew _ _ E) as [?%HT|?]|].
    destruct (Hm va Hva Hvm) as [?|[? E']]; [congruence|]. apply Hh. right. exists va. by rewrite <- E'.
  - intros a Ha. rewrite (Hpg q) by (done || by apply not_elem_of_app).
    apply (fc_rest _ _ _ _ _ _ _ _ _ Hfc). destruct (fc_page _ _ _ _ _ _ _ _ _ Hfc) as [Ap _], Hq as [Aq _].
    destruct (page_disjoint p q Ap Aq); [done|lia..].
Qed.

(** Mapping the fresh page succeeds ... *)
Lemma map_done s To Tn p fl B i m2 h2 m3 h3 Tn' fl' :
  copied (k_mem s) To Tn i B → 0 <= i → i mod 4096 = 0 → i + 4096 <= B → B <= MAXVA →
  is_mapped (k_mem s) To i = true → fresh_copy s To Tn fl B i p m2 h2 →
  two_spaces (with_mem s m3 h3) To Tn' fl' B → extends Tn fl Tn' fl' →
  same_space m2 To m3 To B →
  (∀ q a, page_ok q → q ∉ fl → (∀ π, Tn !! π ≠ Some q) → q <= a < q + PGSIZE →
     ld8 m3 a = ld8 m2 a) →
  mapped m2 Tn m3 Tn' i p (PTE_FLAGS (leaf (k_mem s) To i)) 1 →
  round_post s To Tn (p :: fl) B i (inl (i + 4096)) m3 h3 Tn' fl'.
Proof.
  intros Hc Hi Ai HiB HB Hmi Hfc Hts3 Hext Hsame Hpg Hmap.
  pose proof Hfc as [Hts2 Hp Hpfl [Hpo Hpn] Hl Hu Hse Hcopy].
  pose proof (ts_new _ _ _ _ _ Hts2) as [_ Ho2 _]. change (k_mem (with_mem s m2 h2)) with m2 in *.
  assert (same_space (k_mem s) To m2 To B) as Hs2.
  { split; intros; [apply Hl|apply Hu]; auto. }
  assert (mapped (k_mem s) Tn m3 Tn' i p (PTE_FLAGS (leaf (k_mem s) To i)) 1) as Hmap'.
  { intros va Hva. rewrite Hmap by done. by rewrite Hl by auto. }
  assert (∀ va, 0 <= va < B → is_mapped (k_mem s) Tn va = true →
    ld8 m3 (phys (k_mem s) Tn va) = ubyte (k_mem s) Tn va) as Hb.
  { intros va Hva Hm. rewrite <- (Hu Tn va) by auto. rewrite <- (phys_ext (k_mem s) m2) by auto.
    eapply frames_kept; eauto. unfold is_mapped in *. by rewrite Hl by auto. }
  assert (leaf m3 Tn' i = mk_pte p (PTE_FLAGS (leaf (k_mem s) To i))) as E.
  { rewrite Hmap by lia. rewrite decide_True by lia. f_equal. zlia. }
  assert (0 <= PTE_FLAGS (leaf (k_mem s) To i) < 1024) by apply PTE_FLAGS_range.
  split.
  - split; [done|by eapply same_space_trans| |apply Hext| |].
    + intros q [[->|Hq]%elem_of_cons|Hq].
      * right. right. exists i. unfold is_mapped, frame_of. rewrite E, mk_pte_valid, mk_pte_PA by done. done || lia.
      * destruct Hext as (_ & new & -> & _ & Hin). apply elem_of_app in Hq as [Hq|]; [|by left].
        right. left. by apply Hin.
      * right. destruct Hq as [[π Hq]|(va & Hva & Hm & Hf)].
        { left. exists π. eapply lookup_weaken; [done|apply Hext]. }
        right. exists va. split; [done|]. unfold is_mapped, frame_of in *. rewrite Hmap' by lia.
        rewrite decide_False; [done|]. intros Hr. pose proof (cp_rest _ _ _ _ _ Hc va) as Hx.
        unfold is_mapped in Hx. rewrite Hx in Hm by lia. done.
    + intros va Hva. rewrite Hmap' by lia. rewrite decide_False; [done|lia].
    + eapply spared_map; eauto. intros va Hva. unfold is_mapped, frame_of. rewrite Hmap' by lia.
      case_decide as Hin; [|by right]. left. rewrite mk_pte_PA; [|by replace ((va - i) / 4096) with 0 by zlia; rewrite Z.mul_0_l, Z.add_0_r|done].
      zlia.
  - left. split; [done|]. eapply (copied_map (k_mem s)); eauto; [by eapply same_space_trans|].
    intros off Hoff. rewrite <- Hcopy by done. apply (Hpg p); [done..| |change PGSIZE with 4096; lia].
    intros π Hπ. apply Hpn. left. eauto.
Qed.

(** ... or fails, and the page and the copy so far are given back. *)
Lemma map_failed s To Tn p fl B i m2 h2 m3 h3 Tn' fl' rn e :
  copied (k_mem s) To Tn i B → 0 <= i → i mod 4096 = 0 → i + 4096 <= B → B <= MAXVA →
  Tn !! [] = Some rn → fresh_copy s To Tn fl B i p m2 h2 →
  two_spaces (with_mem s m3 h3) To Tn' fl' B → extends Tn fl Tn' fl' →
  same_space m2 To m3 To B → (∀ va, leaf m3 To va = leaf m2 To va) →
  (∀ va, 0 <= va < MAXVA → leaf m3 Tn' va = leaf m2 Tn va) →
  (∀ q a, page_ok q → q ∉ fl → (∀ π, Tn !! π ≠ Some q) → q <= a < q + PGSIZE →
     ld8 m3 a = ld8 m2 a) →
  ∃ m' h' fl'', (kfree p;; uvmunmap rn 0 (i / PGSIZE) true) (with_mem s m3 h3) e =
      Ok tt (with_mem s m' h') e ∧
    round_post s To Tn (p :: fl) B i (inr (-1)) m' h' Tn' fl''.
Proof.
  intros Hc Hi Ai HiB HB Hrn Hfc Hts3 Hext Hsame Hlo Hln Hpg.
  pose proof Hfc as [Hts2 Hp Hpfl [Hpo Hpn] Hl Hu Hse Hcopy].
  change (k_mem (with_mem s m2 h2)) with m2 in *.
  pose proof Hext as (Hsub & new & Efl & Hnew & Hin).
  assert (∀ va, 0 <= va < MAXVA → leaf m3 Tn' va = leaf (k_mem s) Tn va) as Hln'.
  { intros va Hva. rewrite Hln by done. by rewrite Hl by auto. }
  assert (~ held m3 Tn' B p) as Hpn3.
  { intros [[π Hπ]|(va & Hva & Hm & Hf)].
    - destruct (Hnew _ _ Hπ) as [?|Hq]; [apply Hpn; left; eauto|].
      apply Hpfl. rewrite Efl. apply elem_of_app. by left.
    - apply Hpn. right. exists va. unfold is_mapped, frame_of in *.
      rewrite Hln in Hm, Hf by lia. done. }
  destruct (ts_kfree (with_mem s m3 h3) To Tn' fl' B p e) as (m4 & Hrun4 & Hts4 & Hl4 & Hs4 & Hse4);
    [done|done| | |done|].
  { intros Hq. apply Hpfl. rewrite Efl. apply elem_of_app. by right. }
  { change (k_mem (with_mem s m3 h3)) with m3. by rewrite (held_leaf m2 m3). }
  change (k_mem (with_mem s m3 h3)) with m3 in *. rewrite with_mem_twice in *.
  destruct (copy_err (with_mem s m4 p) To Tn' (p :: fl') B rn i e) as
    (m5 & h5 & fl5 & Hrun5 & Hcs5 & Hnone); [done|by eapply lookup_weaken|lia|done| |].
  { intros va Hva. change (k_mem (with_mem s m4 p)) with m4. unfold is_mapped.
    rewrite Hl4, Hln' by (lia || auto). apply (cp_rest _ _ _ _ _ Hc). lia. }
  exists m5, h5, fl5. rewrite with_mem_twice in *. split.
  { erewrite bind_Ok by exact Hrun4. exact Hrun5. }
  split; [|by right]. eapply cstep_trans; [|exact Hcs5]. split; [done| | |done| |].
  - eapply same_space_trans; [|by apply Hs4; left]. eapply same_space_trans; [|exact Hsame].
    split; intros; [apply Hl|apply Hu]; auto.
  - intros q [[->|Hq]%elem_of_cons|[[π Hq]|(va & Hva & Hm & Hf)]].
    + left. by left.
    + rewrite Efl in Hq. apply elem_of_app in Hq as [Hq|Hq]; [right; left; by apply Hin|].
      left. by right.
    + right. left. exists π. by eapply lookup_weaken.
    + right. right. exists va. unfold is_mapped, frame_of in *. by rewrite Hl4, Hln' by (lia || auto).
  - intros va Hva. rewrite Hl4, Hln' by (lia || auto). done.
  - intros q Hq Nq Hh. destruct (spared_map s To Tn p fl B i m2 h2 m3 Tn' fl' Hfc Hext Hpg) with (q := q)
      as (F3 & N3 & E3); try done.
    { intros va Hva Hm. right. unfold is_mapped, frame_of in *. by rewrite Hln' in Hm |- * by lia. }
    apply not_elem_of_cons in Nq as [Np _]. split_and!; [by apply not_elem_of_cons| |].
    + by rewrite (held_leaf m3) by auto.
    + intros a Ha. rewrite <- E3 by done. apply Hse4. destruct Hp as [Ap _], Hq as [Aq _].
      destruct (page_disjoint p q Ap Aq); [done|lia..].
Qed.

Lemma copied_skip m To Tn i B :
  copied m To Tn i B → 0 <= i → i mod 4096 = 0 → i + 4096 <= B → B <= MAXVA →
  is_mapped m To i = false → copied m To Tn (i + 4096) B.
Proof.
  intros [C1 C2 C3 C4] Hi Ai HiB HB Hun.
  assert (∀ va, i <= va < i + 4096 → is_mapped m To va = false) as Hpage.
  { intros va Hva. unfold is_mapped in *. by rewrite (leaf_page _ _ va i) by zlia. }
  split; intros va Hva; [| | |apply C4; lia]; (destruct (decide (va < i)); [auto with lia|]).
  - rewrite Hpage, C4 by lia. done.
  - by rewrite Hpage by lia.
  - by rewrite Hpage by lia.
Qed.

(** One round of the loop. *)
Lemma copy_round s To Tn fl B ro rn sz i e :
  two_spaces s To Tn fl B → copied (k_mem s) To Tn i B → To !! [] = Some ro → Tn !! [] = Some rn →
  0 <= i → i mod 4096 = 0 → i + 4096 <= B → i < sz →
  ∃ r m' h' Tn' fl', uvmcopy_loop ro rn sz i s e = Ok r (with_mem s m' h') e ∧
    round_post s To Tn fl B i r m' h' Tn' fl'.
Proof.
  intros Hts Hc Hro Hrn Hi Ai HiB Hsz.
  pose proof (ow_bound _ _ _ _ (sp_owns _ _ _ _ (ts_old _ _ _ _ _ Hts))) as HB.
  unfold uvmcopy_loop. rewrite (proj2 (Z.leb_gt _ _)) by lia.
  assert (u64 (i + PGSIZE) = i + 4096) as ->.
  { change PGSIZE with 4096. change MAXVA with 274877906944 in HB. apply u64_small. lia. }
  erewrite bind_Ok by (eapply walk_noalloc; [by eapply ts_vm_old|done|lia]).
  assert (is_mapped (k_mem s) To i = false → ∃ r m' h' Tn' fl',
    (mret (inl (i + 4096)) : K (Z + Z)) s e = Ok r (with_mem s m' h') e ∧
    round_post s To Tn fl B i r m' h' Tn' fl') as Hskip.
  { intros Hun. exists (inl (i + 4096)), (k_mem s), (k_freelist s), Tn, fl. rewrite with_mem_id.
    split; [done|]. split; [by apply cstep_refl|left]. split; [done|].
    apply copied_skip; try done. lia. }
  destruct (To !! [PX 1 i; PX 2 i]) as [q|] eqn:Eq.
  2:{ apply Hskip. unfold is_mapped, leaf. by rewrite Eq. }
  rewrite (proj2 (Z.eqb_neq _ _)) by (eapply leaf_addr_nonzero; [by eapply ts_vm_old|exact Eq]).
  unfold load64 at 1. rewrite bind_gets.
  assert (ld64 (k_mem s) (q + 8 * PX 0 i) = leaf (k_mem s) To i) as -> by (unfold leaf; by rewrite Eq).
  fold (is_mapped (k_mem s) To i). destruct (is_mapped (k_mem s) To i) eqn:Hmi; cbn [negb];
    [|by apply Hskip]. clear Hskip.
  fold (frame_of (k_mem s) To i). destruct fl as [|p fl].
  { erewrite bind_Ok by (apply kalloc_empty; apply Hts). cbn [Z.eqb].
    destruct (copy_err s To Tn [] B rn i e) as (m' & h' & fl' & Hrun & Hcs & Hnone); try done;
      [lia|apply Hc|].
    exists (inr (-1)), m', h', Tn, fl'. split; [|split; [done|by right]].
    by erewrite bind_Ok by exact Hrun. }
  destruct (alloc_copy s To Tn p fl B i e) as (m1 & h1 & Hrun1 & Hfc); try done.
  erewrite bind_Ok by exact Hrun1. pose proof (page_ok_nonzero p (fc_page _ _ _ _ _ _ _ _ _ Hfc)).
  rewrite (proj2 (Z.eqb_neq p 0)) by lia. unfold upd_mem at 1. rewrite bind_modify.
  change (k_mem (with_mem s m1 h1)) with m1. set (m2 := memmove m1 p _ PGSIZE) in *.
  change ((with_mem s m1 h1) <|k_mem := m2|>) with (with_mem s m2 h1).
  pose proof Hfc as [Hts2 Hp Hpfl [Hpo Hpn] Hl _ _ _].
  destruct (ts_map (with_mem s m2 h1) To Tn fl B rn i p (PTE_FLAGS (leaf (k_mem s) To i)) e)
    as (r & m3 & h3 & Tn' & fl' & k & Hrun & Hts3 & Hext & Hlo & Hsame & Hpg & Hmap & Hr);
    try done; try apply PTE_FLAGS_range.
  { change (k_mem (with_mem s m2 h1)) with m2. unfold is_mapped. rewrite Hl by auto. apply Hc. lia. }
  rewrite with_mem_twice in *. erewrite bind_Ok by exact Hrun.
  destruct Hr as [[-> ->]|(-> & -> & _)]; cbn [Z.eqb negb].
  - exists (inl (i + 4096)), m3, h3, Tn', fl'. split; [done|]. eapply map_done; eauto. lia.
  - destruct (map_failed s To Tn p fl B i m2 h1 m3 h3 Tn' fl' rn e) as (m' & h' & fl'' & Hrun' & Hpost);
      try done.
    { lia. }
    { intros va Hva. change (k_mem (with_mem s m2 h1)) with m2 in Hmap. rewrite Hmap by done.
      rewrite decide_False; [done|lia]. }
    exists (inr (-1)), m', h', Tn', fl''. split; [|done].
    rewrite <- bind_assoc. by erewrite bind_Ok by exact Hrun'.
Qed.

(** The result of the copy: everything, or nothing. *)
Definition copy_post (s : kstate) To Tn (fl : list Z) (B r : Z) (m' : memory) (h' : Z) Tn' (fl' : list Z)
    : Prop :=
  cstep s To Tn fl B m' h' Tn' fl' ∧
  ((r = 0 ∧ copied m' To Tn' B B) ∨ (r = -1 ∧ ∀ va, 0 <= va < B → is_mapped m' Tn' va = false)).

Lemma copy_loop n fuel s To Tn fl B ro rn sz i e :
  two_spaces s To Tn fl B → copied (k_mem s) To Tn i B → To !! [] = Some ro → Tn !! [] = Some rn →
  0 <= i → i mod 4096 = 0 → i + Z.of_nat n * 4096 = B → B - 4096 < sz <= B → (n < fuel)%nat →
  ∃ r m' h' Tn' fl', loop fuel (uvmcopy_loop ro rn sz) i s e = Ok r (with_mem s m' h') e ∧
    copy_post s To Tn fl B r m' h' Tn' fl'.
Proof.
  revert fuel s Tn fl i. induction n as [|n IH];
    intros fuel s Tn fl i Hts Hc Hro Hrn Hi Ai Hn Hsz Hf; (destruct fuel as [|fuel]; [lia|]); cbn [loop].
  - exists 0, (k_mem s), (k_freelist s), Tn, fl. rewrite with_mem_id. split.
    + erewrite bind_Ok; [|unfold uvmcopy_loop; rewrite (proj2 (Z.leb_le sz i)) by lia; done]. done.
    + split; [by apply cstep_refl|left]. split; [done|]. by replace B with i at 1 by lia.
  - destruct (copy_round s To Tn fl B ro rn sz i e) as (r & m1 & h1 & T1 & fl1 & Hrun & Hcs & Hr);
      try done; [lia..|]. erewrite bind_Ok by exact Hrun. destruct Hr as [[-> Hc1]|[-> Hnone]].
    + destruct (IH fuel (with_mem s m1 h1) T1 fl1 (i + 4096)) as
        (r & m2 & h2 & T2 & fl2 & Hrun2 & Hcs2 & Hr2); try done; try lia; [apply Hcs| |zlia|].
      { eapply lookup_weaken; [done|apply Hcs]. }
      exists r, m2, h2, T2, fl2. rewrite with_mem_twice in Hrun2. split; [done|].
      split; [by eapply cstep_trans|done].
    + exists (-1), m1, h1, T1, fl1. split; [done|]. split; [done|by right].
Qed.

Lemma uvmcopy_ok s To Tn fl B ro rn sz e :
  two_spaces s To Tn fl B → To !! [] = Some ro → Tn !! [] = Some rn →
  0 <= sz <= B → PGROUNDUP sz = B → (∀ va, 0 <= va < B → is_mapped (k_mem s) Tn va = false) →
  ∃ r m' h' Tn' fl', uvmcopy ro rn sz s e = Ok r (with_mem s m' h') e ∧
    copy_post s To Tn fl B r m' h' Tn' fl'.
Proof.
  intros Hts Hro Hrn Hsz HB Hnone. unfold uvmcopy.
  pose proof (ow_bound _ _ _ _ (sp_owns _ _ _ _ (ts_old _ _ _ _ _ Hts))) as HB'.
  change MAXVA with 274877906944 in HB'. change PGSIZE with 4096.
  rewrite PGROUNDUP_spec in HB by lia.
  apply (copy_loop (Z.to_nat (B / 4096))); try done; try zlia.
  split; [lia..|done].
Qed.

End uvmcopy.
