(* ===== verification/Lazy.v ===== *)
(** Memory allocated on demand: [vmfault] of Vm.v, and the copies between the
    kernel and a process whose pages may not be there yet. *)

From S2P Require Export Uvmcopy.

Section lazy.
Context `{L : Layout}.

Implicit Types T : gmap (list Z) Z.

#[local] Opaque memset.

(** The byte a process sees: an address below its size that is not mapped yet
    reads as 0. *)
Definition view (m : memory) T (va : Z) : Z := if is_mapped m T va then ubyte m T va else 0.

(** The current process [p] runs on the address space [T], which starts at
    [root]; all of its addresses are below the page boundary [B]. *)
Record user_ok (s : kstate) T (fl : list Z) (B root : Z) (p : nat) : Prop := {
  uo_spaces : two_spaces s ∅ T fl B;
  uo_root : T !! [] = Some root;
  uo_cur : c_proc (this_cpu (k_x s)) = Some p;
  uo_pt : p_pagetable (proc_at s p) = root;
  uo_sz : p_sz (proc_at s p) <= B;
  uo_B : B mod 4096 = 0;
}.

Lemma curproc_ok s T fl B root p e : user_ok s T fl B root p → curproc s e = Ok p s e.
Proof.
  intros [[[W St _] _ _ _ _] _ Hc _ _ _]. unfold curproc.
  erewrite bind_Ok by (by apply myproc_settled). by rewrite Hc.
Qed.

Lemma ismapped_ok s T fl root va e :
  vm_ok s T fl → T !! [] = Some root → 0 <= va < MAXVA →
  ismapped root va s e = Ok (is_mapped (k_mem s) T va) s e.
Proof.
  intros Hv Hr Hva. unfold ismapped. erewrite bind_Ok by (by eapply walk_noalloc).
  unfold is_mapped, leaf. destruct (T !! [PX 1 va; PX 2 va]) as [q|] eqn:Hq; [|done].
  by rewrite (proj2 (Z.eqb_neq _ _)) by (by eapply leaf_addr_nonzero).
Qed.

Lemma user_ok_mem s T fl B root p m' h' T' fl' :
  user_ok s T fl B root p → two_spaces (with_mem s m' h') ∅ T' fl' B → T ⊆ T' →
  user_ok (with_mem s m' h') T' fl' B root p.
Proof. intros [H1 H2 H3 H4 H5 H6] Hts Hsub. split; try done. by eapply lookup_weaken. Qed.

(** An access to the bytes from [lo] up to [hi] of the address space leaves
    entries of mapped pages as they were, maps new pages writable, and changes
    no other byte that the process sees. *)
Record touched (m : memory) T (m' : memory) T' (B lo hi : Z) : Prop := {
  to_leaf : ∀ va, 0 <= va < MAXVA → is_mapped m T va = true → leaf m' T' va = leaf m T va;
  to_new : ∀ va, 0 <= va < MAXVA → is_mapped m T va = false → is_mapped m' T' va = true →
    is_writable m' T' va = true;
  to_view : ∀ va, 0 <= va < B → ~ (lo <= va < hi) → view m' T' va = view m T va;
}.

(** A fault changes nothing that the process sees. *)
Definition faulted (m : memory) T (m' : memory) T' (B : Z) : Prop := touched m T m' T' B 0 0.

Lemma faulted_refl m T B : faulted m T m T B.
Proof. split; try done. intros va _ E. by rewrite E. Qed.

Lemma touched_trans m1 T1 m2 T2 m3 T3 B lo hi lo1 hi1 lo2 hi2 :
  touched m1 T1 m2 T2 B lo1 hi1 → touched m2 T2 m3 T3 B lo2 hi2 →
  (∀ va, lo1 <= va < hi1 → lo <= va < hi) → (∀ va, lo2 <= va < hi2 → lo <= va < hi) →
  touched m1 T1 m3 T3 B lo hi.
Proof.
  intros [L1 N1 V1] [L2 N2 V2] H1 H2. split.
  - intros va Hva Hm. rewrite L2, L1; try done. unfold is_mapped in *. by rewrite L1.
  - intros va Hva Hm Hm3. destruct (is_mapped m2 T2 va) eqn:E; [|by apply N2].
    pose proof (N1 va Hva Hm E) as Hw. unfold is_writable, is_user, is_mapped in *.
    by rewrite L2 by done.
  - intros va Hva Ho. rewrite V2, V1; auto.
Qed.

Lemma mk_pte_rwu p : page_ok p → has (mk_pte p 22) PTE_U = true ∧ has (mk_pte p 22) PTE_W = true.
Proof.
  intros Hp. unfold has. rewrite !(land_flag (mk_pte p 22)) by (by vm_compute).
  by rewrite mk_pte_flags.
Qed.

(** Mapping a zeroed page at the page of [va]. *)
Lemma fault_mapped m m2 m' T T' B i p :
  0 <= i → i mod 4096 = 0 → i + 4096 <= B → B <= MAXVA → page_ok p →
  is_mapped m T i = false →
  (∀ va, leaf m2 T va = leaf m T va) →
  (∀ va, 0 <= va < B → is_mapped m T va = true → ld8 m' (phys m T va) = ubyte m T va) →
  (∀ off, 0 <= off < 4096 → ld8 m' (p + off) = 0) →
  mapped m2 T m' T' i p 22 1 →
  faulted m T m' T' B ∧ leaf m' T' i = mk_pte p 22.
Proof.
  intros Hi Ai HiB HB Hp Hun Hl Hb Hz Hmap.
  assert (∀ va, i <= va < i + 4096 → leaf m' T' va = mk_pte p 22 ∧ is_mapped m T va = false) as Hin.
  { intros va Hva. rewrite Hmap by lia. rewrite decide_True by lia. split.
    - f_equal. zlia.
    - unfold is_mapped in *. by rewrite (leaf_page _ _ va i) by zlia. }
  assert (∀ va, 0 <= va < MAXVA → va < i ∨ i + 4096 <= va → leaf m' T' va = leaf m T va) as Hout.
  { intros va Hva Ho. rewrite Hmap by done. rewrite decide_False by lia. apply Hl. }
  split; [split|apply Hin; lia].
  2:{ intros va Hva Hm Hm'. unfold is_writable, is_user. rewrite Hm'.
      destruct (decide (i <= va < i + 4096)) as [Hx|Hx].
      - destruct (Hin va Hx) as [-> _], (mk_pte_rwu p Hp) as [-> ->]. done.
      - unfold is_mapped in *. rewrite Hout in Hm' by lia. congruence. }
  - intros va Hva Hm. destruct (decide (i <= va < i + 4096)) as [Hx|Hx]; [|apply Hout; lia].
    destruct (Hin va Hx) as [_ E]. congruence.
  - intros va Hva _. destruct (decide (i <= va < i + 4096)) as [Hx|Hx].
    + destruct (Hin va Hx) as [E1 E2]. unfold view. rewrite E2. unfold is_mapped, ubyte, frame_of.
      rewrite E1, mk_pte_valid, mk_pte_PA by done. apply Hz. zlia.
    + unfold view. unfold is_mapped at 1. rewrite Hout by lia. fold (is_mapped m T va).
      destruct (is_mapped m T va) eqn:E; [|done]. rewrite <- Hb by done.
      unfold ubyte, phys, frame_of. by rewrite Hout by lia.
Qed.

(** The outcome of [vmfault]: no page, with a reason, or a fresh one. *)
Definition fault_post (s : kstate) T (fl : list Z) (B root : Z) (p : nat) (va r : Z)
    (m' : memory) (h' : Z) T' (fl' : list Z) : Prop :=
  user_ok (with_mem s m' h') T' fl' B root p ∧ faulted (k_mem s) T m' T' B ∧
  ((r = 0 ∧ (∀ va', 0 <= va' < MAXVA → leaf m' T' va' = leaf (k_mem s) T va') ∧
      (p_sz (proc_at s p) <= va ∨ is_mapped (k_mem s) T va = true ∨ (length fl' <= 1)%nat)) ∨
   (va < p_sz (proc_at s p) ∧ is_mapped (k_mem s) T va = false ∧
      page_ok r ∧ ∃ pg, pg = PGROUNDDOWN va ∧ leaf m' T' pg = mk_pte r 22)).

Lemma fault_none s T fl B root p va :
  user_ok s T fl B root p →
  p_sz (proc_at s p) <= va ∨ is_mapped (k_mem s) T va = true ∨ (length fl <= 1)%nat →
  fault_post s T fl B root p va 0 (k_mem s) (k_freelist s) T fl.
Proof.
  intros Hu Hr. split_and!; [by rewrite with_mem_id|apply faulted_refl|]. left. by split_and!.
Qed.

Lemma held_none m B q : ~ held m ∅ B q.
Proof. intros [[π H]|(va & _ & H & _)]; done. Qed.

(** Allocating the page and clearing it. *)
Lemma fault_alloc s T q fl B root p e :
  user_ok s T (q :: fl) B root p →
  ∃ m1 h1, kalloc s e = Ok q (with_mem s m1 h1) e ∧
    let m2 := memset m1 q 0 PGSIZE in
    two_spaces (with_mem s m2 h1) ∅ T fl B ∧ page_ok q ∧ (q ∉ fl) ∧ ~ held m2 T B q ∧
    (∀ va, leaf m2 T va = leaf (k_mem s) T va) ∧
    (∀ va, 0 <= va < B → is_mapped (k_mem s) T va = true → ubyte m2 T va = ubyte (k_mem s) T va) ∧
    (∀ off, 0 <= off < 4096 → ld8 m2 (q + off) = 0).
Proof.
  intros [Hts _ _ _ _ _]. destruct (ts_kalloc s ∅ T q fl B e Hts) as
    (m1 & h1 & Hrun & Hts1 & Hq & Hfl & _ & Hn & Hl & Hu & _).
  exists m1, h1. split; [done|]. intros m2.
  assert (same_except q m1 m2) as Hs by apply same_except_memset.
  destruct (ts_write (with_mem s m1 h1) ∅ T fl B q m2 Hts1 Hq Hfl (held_none _ _ _) Hn Hs)
    as (Hts2 & Hl2 & Hu2); [apply memset_ok, Hts1|].
  change (k_mem (with_mem s m1 h1)) with m1 in *. split_and!; try done.
  - by rewrite (held_leaf m1 m2) by auto.
  - intros va. by rewrite Hl2, Hl by auto.
  - intros va Hva Hm. rewrite Hu2, Hu; auto. unfold is_mapped in *. by rewrite Hl by auto.
  - intros off Hoff. unfold m2. rewrite ld8_fill, decide_True; [done|].
    change PGSIZE with 4096. lia.
Qed.

(** Giving the page back when it cannot be mapped. *)
Lemma fault_failed s T fl B root p va q m2 m3 h3 T' i e :
  user_ok s T (q :: fl) B root p → page_ok q → (q ∉ fl) → ~ held m2 T B q → B <= MAXVA →
  (∀ va, leaf m2 T va = leaf (k_mem s) T va) →
  two_spaces (with_mem s m3 h3) ∅ T' [] B → extends T fl T' [] → mapped m2 T m3 T' i q 22 0 →
  (∀ va, 0 <= va < B → is_mapped (k_mem s) T va = true →
    ld8 m3 (phys (k_mem s) T va) = ubyte (k_mem s) T va) →
  ∃ r m' h' T'' fl'', (kfree q;; mret 0) (with_mem s m3 h3) e = Ok r (with_mem s m' h') e ∧
    fault_post s T (q :: fl) B root p va r m' h' T'' fl''.
Proof.
  intros Hu Hq Hqfl Hnh HB Hl2 Hts3 Hext Hmap Hkept.
  pose proof Hext as (Hsub & new & Efl & Hnew & _).
  assert (∀ va', 0 <= va' < MAXVA → leaf m3 T' va' = leaf (k_mem s) T va') as Hl3.
  { intros va' Hva'. rewrite Hmap by done. rewrite decide_False by lia. apply Hl2. }
  destruct (ts_kfree (with_mem s m3 h3) ∅ T' [] B q e Hts3 Hq) as (m4 & Hrun & Hts4 & Hl4 & (Hs4 & _));
    [by intros ?%elem_of_nil|apply held_none| |].
  { change (k_mem (with_mem s m3 h3)) with m3. intros [[π Hπ]|(va' & Hva' & Hm & Hf)].
    - destruct (Hnew _ _ Hπ) as [?|Hin]; [apply Hnh; left; eauto|].
      apply Hqfl. rewrite Efl, app_nil_r. done.
    - apply Hnh. right. exists va'. unfold is_mapped, frame_of in *. rewrite Hl2.
      rewrite Hl3 in Hm, Hf by lia. done. }
  rewrite with_mem_twice in *. change (k_mem (with_mem s m3 h3)) with m3 in *.
  exists 0, m4, q, T', [q]. split; [by erewrite bind_Ok by exact Hrun|].
  assert (∀ va', 0 <= va' < MAXVA → leaf m4 T' va' = leaf (k_mem s) T va') as Hleaf.
  { intros va' Hva'. rewrite Hl4 by auto. by apply Hl3. }
  split_and!; [by eapply user_ok_mem|split|left; split_and!; auto; right; right; simpl; lia].
  - intros va' Hva' _. by apply Hleaf.
  - intros va' Hva' E. unfold is_mapped in *. rewrite Hleaf by done. congruence.
  - intros va' Hva' _. unfold view. unfold is_mapped at 1. rewrite Hleaf by lia.
    fold (is_mapped (k_mem s) T va'). destruct (is_mapped (k_mem s) T va') eqn:Hm; [|done].
    destruct (Hs4 T') as [_ Hu4]; [auto|].
    rewrite Hu4 by (done || unfold is_mapped in *; rewrite Hl3 by lia; done).
    rewrite <- Hkept by done. unfold ubyte, phys, frame_of. by rewrite Hl3 by lia.
Qed.

Lemma vmfault_ok s T fl B root p va read e :
  user_ok s T fl B root p → 0 <= va →
  ∃ r m' h' T' fl', vmfault root va read s e = Ok r (with_mem s m' h') e ∧
    fault_post s T fl B root p va r m' h' T' fl'.
Proof.
  intros Hu Hva. pose proof Hu as [Hts Hr Hcur Hpt Hsz AB].
  pose proof (ow_bound _ _ _ _ (sp_owns _ _ _ _ (ts_new _ _ _ _ _ Hts))) as HB.
  unfold vmfault. erewrite bind_Ok by (by eapply curproc_ok). unfold get_proc. rewrite bind_gets.
  destruct (Z.leb_spec (p_sz (proc_at s p)) va) as [Hge|Hlt].
  { exists 0, (k_mem s), (k_freelist s), T, fl. rewrite with_mem_id. split; [reflexivity|].
    apply fault_none; auto. }
  destruct (page_start va) as (E1 & E2 & E3); [lia|]. rewrite E1.
  set (i := va - va mod 4096) in *.
  assert (0 <= i ∧ i mod 4096 = 0 ∧ i + 4096 <= B) as (Hi & Ai & HiB) by (subst i; zlia).
  assert (leaf (k_mem s) T i = leaf (k_mem s) T va) as El by (apply leaf_page; lia).
  erewrite bind_Ok by (eapply ismapped_ok; [by eapply ts_vm_new|done|lia]).
  assert (is_mapped (k_mem s) T i = is_mapped (k_mem s) T va) as Em by (unfold is_mapped; by rewrite El).
  destruct (is_mapped (k_mem s) T i) eqn:Hm.
  { exists 0, (k_mem s), (k_freelist s), T, fl. rewrite with_mem_id. split; [reflexivity|].
    apply fault_none; auto. }
  destruct fl as [|q fl].
  { erewrite bind_Ok by (apply kalloc_empty; apply Hts).
    exists 0, (k_mem s), (k_freelist s), T, []. rewrite with_mem_id. split; [reflexivity|].
    apply fault_none; [done|]. right. right. simpl. lia. }
  destruct (fault_alloc s T q fl B root p e Hu) as (m1 & h1 & Hrun & Hts2 & Hq & Hqfl & Hnh & Hl2 & Hb2 & Hz).
  erewrite bind_Ok by exact Hrun. pose proof (page_ok_nonzero q Hq).
  rewrite (proj2 (Z.eqb_neq q 0)) by lia. unfold upd_mem. rewrite bind_modify.
  change (k_mem (with_mem s m1 h1)) with m1. set (m2 := memset m1 q 0 PGSIZE) in *.
  change ((with_mem s m1 h1) <|k_mem := m2|>) with (with_mem s m2 h1). rewrite Hpt.
  destruct (ts_map (with_mem s m2 h1) ∅ T fl B root i q 22 e) as
    (r & m3 & h3 & T' & fl' & k & Hrun3 & Hts3 & Hext & _ & _ & Hpg & Hmap & Hres); try done;
    [apply held_none|change (k_mem (with_mem s m2 h1)) with m2; unfold is_mapped; rewrite Hl2; exact Hm|].
  change (Z.lor (Z.lor PTE_W PTE_U) PTE_R) with 22. erewrite bind_Ok by exact Hrun3.
  rewrite with_mem_twice in *. change (k_mem (with_mem s m2 h1)) with m2 in *.
  pose proof (sp_owns _ _ _ _ (ts_new _ _ _ _ _ Hts2)) as Ho2.
  assert (∀ va, 0 <= va < B → is_mapped (k_mem s) T va = true →
    ld8 m3 (phys (k_mem s) T va) = ubyte (k_mem s) T va) as Hkept.
  { intros va' Hva' Hm'. rewrite <- (Hb2 va') by auto. rewrite <- (phys_ext (k_mem s) m2) by auto.
    apply (frames_kept m2 m3 T fl B va' Ho2 Hpg Hva'). unfold is_mapped in *. by rewrite Hl2. }
  destruct Hres as [[-> ->]|(-> & -> & ->)]; cbn [Z.eqb negb].
  - exists q, m3, h3, T', fl'. split; [reflexivity|].
    destruct (fault_mapped (k_mem s) m2 m3 T T' B i q Hi Ai HiB (proj2 HB) Hq Hm Hl2 Hkept)
      as [Hfa Hli]; [|exact Hmap|].
    { intros off Hoff. rewrite <- (Hz off Hoff). apply (Hpg q _ Hq Hqfl);
        [|change PGSIZE with 4096; lia]. intros π Hπ. apply Hnh. left. eauto. }
    split_and!; [eapply user_ok_mem; [done|done|apply Hext]|done|]. right.
    split_and!; [exact Hlt|by rewrite <- Em|exact Hq|]. exists i. by rewrite E1.
  - by apply (fault_failed s T fl B root p va q m2 m3 h3 T' i e Hu Hq Hqfl Hnh (proj2 HB) Hl2 Hts3).
Qed.

(** ** Copies that may fault *)

Lemma ts_single s T fl B : vm_ok s T fl → owns (k_mem s) T fl B → two_spaces s ∅ T fl B.
Proof.
  intros [H1 H2 H3 H4] Ho. pose proof (ow_bound _ _ _ _ Ho) as HB. split; [done|done| |by split|].
  - split; [|split; try done|done]. split; try done; [by intros i π []..|by intros π []].
  - intros q Hq. by apply held_none in Hq.
Qed.

Lemma user_vm s T fl B root p : user_ok s T fl B root p → vm_ok s T fl.
Proof. intros [H _ _ _ _ _]. by eapply ts_vm_new. Qed.
Lemma user_owns s T fl B root p : user_ok s T fl B root p → owns (k_mem s) T fl B.
Proof. intros [H _ _ _ _ _]. apply H. Qed.

Lemma user_page_view s T fl B root p va e :
  user_ok s T fl B root p → 0 <= va < p_sz (proc_at s p) →
  (is_mapped (k_mem s) T va = true → is_user (k_mem s) T va = true) →
  ∃ r m' h' T' fl', user_page root (va - va mod 4096) s e = Ok r (with_mem s m' h') e ∧
    user_ok (with_mem s m' h') T' fl' B root p ∧ faulted (k_mem s) T m' T' B ∧
    ((r = 0 ∧ (length fl' <= 1)%nat) ∨ (r = frame_of m' T' va ∧ is_user m' T' va = true)).
Proof.
  intros Hu Hva Hmu. pose proof (user_vm _ _ _ _ _ _ Hu) as Hv.
  pose proof (user_owns _ _ _ _ _ _ Hu) as Ho. pose proof (ow_bound _ _ _ _ Ho) as HB.
  pose proof (uo_sz _ _ _ _ _ _ Hu) as Hsz. pose proof (uo_root _ _ _ _ _ _ Hu) as Hr.
  destruct (is_mapped (k_mem s) T va) eqn:Hm.
  { exists (frame_of (k_mem s) T va), (k_mem s), (k_freelist s), T, fl. rewrite with_mem_id.
    split_and!; [|done|apply faulted_refl|right; auto].
    apply (user_page_start s T fl B); auto. lia. }
  destruct (page_start va) as (E1 & E2 & E3); [lia|]. set (va0 := va - va mod 4096) in *.
  assert (leaf (k_mem s) T va0 = leaf (k_mem s) T va) as El by (apply leaf_page; lia).
  assert (is_mapped (k_mem s) T va0 = false) as Hm0 by (unfold is_mapped in *; by rewrite El).
  destruct (vmfault_ok s T fl B root p va0 false e Hu) as (r & m' & h' & T' & fl' & Hrun & Hu' & Hfa & Hres);
    [lia|].
  exists r, m', h', T', fl'. split_and!; [|done|done|].
  { unfold user_page. erewrite bind_Ok by (apply (walkaddr_ok s T fl); try done; lia).
    unfold is_user. rewrite Hm0. exact Hrun. }
  destruct Hres as [(-> & _ & Hwhy)|(_ & _ & Hpg & pg & Epg & Hl)].
  - left. split; [done|]. destruct Hwhy as [?|[?|?]]; [subst va0; zlia|congruence|done].
  - right. destruct (page_start va0) as (F1 & F2 & F3); [lia|].
    assert (leaf m' T' va = mk_pte r 22) as E.
    { rewrite <- Hl. apply leaf_page; [lia|lia|]. rewrite Epg, F1, F3. done. }
    unfold is_user, is_mapped, frame_of. destruct (mk_pte_rwu r Hpg) as [HU _].
    rewrite E, mk_pte_PA, mk_pte_valid, HU by done. done.
Qed.

(** Bytes stored through the table show in the view. *)
Lemma stored_view m m1 T fl B dst bs :
  owns m T fl B → (∀ va, leaf m1 T va = leaf m T va) → stored m m1 T dst bs →
  0 <= dst → dst + Z.of_nat (length bs) <= B →
  (∀ va, dst <= va < dst + Z.of_nat (length bs) → is_mapped m T va = true) →
  touched m T m1 T B dst (dst + Z.of_nat (length bs)) ∧
  ∀ i b, bs !! i = Some b → view m1 T (dst + Z.of_nat i) = b.
Proof.
  intros Ho Hl [Hin Hout] Hd Hb Hm.
  assert (∀ va, is_mapped m1 T va = is_mapped m T va) as Hmm by (intros; unfold is_mapped; by rewrite Hl).
  assert (∀ va, ubyte m1 T va = ld8 m1 (phys m T va)) as Hub.
  { intros va. unfold ubyte. fold (phys m1 T va). by rewrite (phys_ext m m1). }
  split; [split|].
  - done.
  - intros va _ E. rewrite Hmm. congruence.
  - intros va Hva Hne. unfold view. rewrite Hmm. destruct (is_mapped m T va) eqn:E; [|done].
    rewrite Hub. apply Hout. intros va' Hva' Eq. apply Hne.
    by rewrite (phys_inj m T fl B va va' Ho Hva ltac:(lia) E (Hm va' Hva') Eq).
  - intros i b Hi. pose proof (lookup_lt_Some _ _ _ Hi). unfold view.
    rewrite Hmm, Hm, Hub by lia. by apply Hin.
Qed.

Lemma touched_writable m T m' T' B lo hi va :
  touched m T m' T' B lo hi → 0 <= va < MAXVA →
  (is_mapped m T va = true → is_writable m T va = true) →
  is_mapped m' T' va = true → is_writable m' T' va = true.
Proof.
  intros [Hl Hn _] Hva Hw Hm'. destruct (is_mapped m T va) eqn:Hm; [|by apply Hn].
  specialize (Hw eq_refl). unfold is_writable, is_user, is_mapped in *. by rewrite Hl.
Qed.

(** The outcome of [copyout]: every byte is there, or memory ran out. *)
Definition copyout_post (s : kstate) T (B root : Z) (p : nat) (dst : Z) (src : list Z) (r : Z)
    (m' : memory) (h' : Z) T' (fl' : list Z) : Prop :=
  user_ok (with_mem s m' h') T' fl' B root p ∧
  touched (k_mem s) T m' T' B dst (dst + Z.of_nat (length src)) ∧
  ((r = 0 ∧ ∀ i b, src !! i = Some b → view m' T' (dst + Z.of_nat i) = b ∧
      is_writable m' T' (dst + Z.of_nat i) = true) ∨
   (r = -1 ∧ (length fl' <= 1)%nat)).

(** A round that finds, or makes, the page. *)
Lemma copyout_chunk s0 s T fl B root p dst src e :
  user_page root (dst - dst mod 4096) s0 e = Ok (frame_of (k_mem s) T dst) s e →
  user_ok s T fl B root p → bytes_ok src → src ≠ [] → 0 <= dst →
  dst + Z.of_nat (length src) <= B → is_writable (k_mem s) T dst = true →
  let c := chunk dst (Z.of_nat (length src)) in
  ∃ m1, copyout_loop root (dst, src) s0 e =
      Ok (inl (dst - dst mod 4096 + 4096, drop (Z.to_nat c) src)) (with_mem s m1 (k_freelist s)) e ∧
    user_ok (with_mem s m1 (k_freelist s)) T fl B root p ∧
    touched (k_mem s) T m1 T B dst (dst + c) ∧
    (∀ i b, take (Z.to_nat c) src !! i = Some b →
       view m1 T (dst + Z.of_nat i) = b ∧ is_writable m1 T (dst + Z.of_nat i) = true).
Proof.
  intros Hup Hu Hok Hne Hd Hb Hw c. pose proof (user_vm _ _ _ _ _ _ Hu) as Hv.
  pose proof (user_owns _ _ _ _ _ _ Hu) as Ho. pose proof (ow_bound _ _ _ _ Ho) as HB.
  assert (0 < Z.of_nat (length src)) as Hpos by (destruct src; [done|simpl; lia]).
  destruct (chunk_spec dst (Z.of_nat (length src))) as (Hc1 & Hc2 & _); [lia..|]. fold c in Hc1, Hc2.
  assert (length (take (Z.to_nat c) src) = Z.to_nat c) as Hlt by (rewrite length_take; lia).
  assert (∀ va, dst <= va < dst + c → leaf (k_mem s) T va = leaf (k_mem s) T dst) as Hpage
    by (intros; apply leaf_page; zlia).
  assert (is_mapped (k_mem s) T dst = true) as Hm by (by apply is_user_mapped, is_writable_user).
  destruct (chunk_stored s T fl B dst (take (Z.to_nat c) src)) as (Hv1 & Hl1 & Hst1); try done;
    [by apply Forall_take|lia..|].
  set (m1 := stn _ _ _) in *. exists m1.
  destruct (stored_view (k_mem s) m1 T fl B dst (take (Z.to_nat c) src)) as [Hto Hview]; try done;
    [lia| |].
  { intros va Hva. unfold is_mapped. rewrite Hpage by lia. done. }
  split_and!.
  - apply (copyout_after s0 s T fl B); try done; [apply Hu|lia].
  - eapply user_ok_mem; [done| |done]. apply ts_single; [done|]. by apply (owns_ext (k_mem s)).
  - by replace (dst + c) with (dst + Z.of_nat (length (take (Z.to_nat c) src))) by lia.
  - intros i b Hi. split; [by apply Hview|]. pose proof (lookup_lt_Some _ _ _ Hi).
    unfold is_writable, is_user, is_mapped in *. by rewrite Hl1, Hpage by lia.
Qed.

Lemma copyout_none root dst src s0 s e :
  src ≠ [] → 0 <= dst < MAXVA → user_page root (dst - dst mod 4096) s0 e = Ok 0 s e →
  copyout_loop root (dst, src) s0 e = Ok (inr (-1)) s e.
Proof.
  intros Hne Hd Hup. destruct (page_start dst) as (E1 & E2 & E3); [lia|]. unfold copyout_loop.
  rewrite (proj2 (Z.eqb_neq _ 0)) by (destruct src; [done|simpl; lia]).
  rewrite E1, (proj2 (Z.leb_gt _ _)) by lia. by erewrite bind_Ok by exact Hup.
Qed.

Lemma touched_refl m T B lo hi : touched m T m T B lo hi.
Proof. split; try done. intros va _ E. by rewrite E. Qed.

Lemma touched_mapped m T m' T' B lo hi va :
  touched m T m' T' B lo hi → 0 <= va < MAXVA → is_writable m T va = true →
  is_writable m' T' va = true.
Proof.
  intros [Hl _ _] Hva Hw. pose proof (is_user_mapped _ _ _ (is_writable_user _ _ _ Hw)) as Hm.
  unfold is_writable, is_user, is_mapped in *. by rewrite Hl.
Qed.

Lemma copyout_loop_view fuel s T fl B root p dst src e :
  user_ok s T fl B root p → bytes_ok src → (length src < fuel)%nat → 0 <= dst →
  dst + Z.of_nat (length src) <= p_sz (proc_at s p) →
  (∀ va, dst <= va < dst + Z.of_nat (length src) → is_mapped (k_mem s) T va = true →
     is_writable (k_mem s) T va = true) →
  ∃ r m' h' T' fl', loop fuel (copyout_loop root) (dst, src) s e = Ok r (with_mem s m' h') e ∧
    copyout_post s T B root p dst src r m' h' T' fl'.
Proof.
  revert s T fl dst src. induction fuel as [|fuel IH]; intros s T fl dst src Hu Hok Hf Hd Hb Hw; [lia|].
  cbn [loop]. destruct (decide (src = [])) as [->|Hne].
  { exists 0, (k_mem s), (k_freelist s), T, fl. rewrite with_mem_id. split; [done|].
    split_and!; [by rewrite with_mem_id|apply touched_refl|left]. by split. }
  assert (0 < Z.of_nat (length src)) as Hpos by (destruct src; [done|simpl; lia]).
  pose proof (ow_bound _ _ _ _ (user_owns _ _ _ _ _ _ Hu)) as HB.
  pose proof (uo_sz _ _ _ _ _ _ Hu) as Hsz.
  destruct (user_page_view s T fl B root p dst e Hu) as (r & m1 & h1 & T1 & fl1 & Hrun & Hu1 & Hfa & Hr);
    [lia|intros; by apply is_writable_user, Hw; [lia|]|].
  destruct Hr as [[-> Hfl]|[-> Huser]].
  { exists (-1), m1, h1, T1, fl1. erewrite bind_Ok by (apply copyout_none; [done|lia|exact Hrun]).
    split; [done|]. split_and!; [done| |by right]. eapply (touched_trans _ _ _ _ m1 T1);
      [exact Hfa|apply (touched_refl m1 T1 B 0 0)|lia..]. }
  assert (∀ va, dst <= va < dst + Z.of_nat (length src) → is_mapped m1 T1 va = true →
    is_writable m1 T1 va = true) as Hw1.
  { intros va Hva. eapply touched_writable; [exact Hfa|lia|]. intros. by apply Hw. }
  destruct (copyout_chunk s (with_mem s m1 h1) T1 fl1 B root p dst src e) as
    (m2 & Hrun2 & Hu2 & Hto2 & Hview2); try done; [lia|by apply Hw1; [lia|apply is_user_mapped]|].
  erewrite bind_Ok by exact Hrun2. change (k_mem (with_mem s m1 h1)) with m1 in *.
  change (k_freelist (with_mem s m1 h1)) with h1 in *. rewrite with_mem_twice in *.
  destruct (chunk_spec dst (Z.of_nat (length src))) as (Hc1 & Hc2 & Hc3); [lia..|].
  set (c := chunk dst (Z.of_nat (length src))) in *.
  assert (touched (k_mem s) T m2 T1 B dst (dst + c)) as Hto.
  { eapply touched_trans; [exact Hfa|exact Hto2|lia..]. }
  destruct (decide (c = Z.of_nat (length src))) as [Heq|Hlt].
  { exists 0, m2, h1, T1, fl1. rewrite Heq, Nat2Z.id, drop_ge, take_ge in * by lia.
    split; [by destruct fuel; [lia|]|]. split_and!; [done|done|by left]. }
  assert (Hcn : Z.of_nat (Z.to_nat c) = c) by lia.
  destruct (IH (with_mem s m2 h1) T1 fl1 (dst + c) (drop (Z.to_nat c) src)) as
    (r & m3 & h3 & T3 & fl3 & Hrun3 & Hu3 & Hto3 & Hr3); try done; rewrite ?length_drop; try lia.
  { by apply Forall_drop. }
  { change (proc_at (with_mem s m2 h1) p) with (proc_at s p). lia. }
  { intros va Hva. change (k_mem (with_mem s m2 h1)) with m2. eapply touched_writable; [exact Hto2|lia|].
    intros. apply Hw1; [lia|done]. }
  exists r, m3, h3, T3, fl3. change (k_mem (with_mem s m2 h1)) with m2 in *.
  rewrite with_mem_twice, Hc3 in * by lia. rewrite length_drop in Hto3. split; [done|].
  split_and!; [done|eapply touched_trans; [exact Hto|exact Hto3|lia..]|].
  destruct Hr3 as [[-> Hbytes]|?]; [left|by right]. split; [done|]. intros i b Hi.
  destruct (decide (i < Z.to_nat c)%nat) as [Hic|Hic].
  - destruct (Hview2 i b) as [Hv Hwr]; [by rewrite lookup_take_lt|].
    split; [|eapply touched_mapped; [exact Hto3|lia|exact Hwr]].
    rewrite (to_view _ _ _ _ _ _ _ Hto3) by lia. done.
  - destruct (Hbytes (i - Z.to_nat c)%nat b) as [Hv Hwr].
    { rewrite lookup_drop. by replace (Z.to_nat c + (i - Z.to_nat c))%nat with i by lia. }
    by replace (dst + Z.of_nat i) with (dst + c + Z.of_nat (i - Z.to_nat c)) by lia.
Qed.

(** ** Copying in *)

Definition views (m : memory) T (va : Z) (n : nat) : list Z :=
  (λ i, view m T (va + Z.of_nat i)) <$> seq 0 n.

Lemma views_app m T va n1 n2 :
  views m T va (n1 + n2) = views m T va n1 ++ views m T (va + Z.of_nat n1) n2.
Proof.
  unfold views. rewrite seq_app, fmap_app. f_equal. apply list_eq. intros i.
  rewrite !list_lookup_fmap. destruct (decide (i < n2)%nat).
  - rewrite !lookup_seq_lt by done. simpl. do 2 f_equal. lia.
  - by rewrite !lookup_seq_ge by lia.
Qed.

Lemma views_ext m T m' T' va n :
  (∀ i, (i < n)%nat → view m' T' (va + Z.of_nat i) = view m T (va + Z.of_nat i)) →
  views m' T' va n = views m T va n.
Proof.
  intros H. unfold views. apply list_fmap_ext. intros i x Hx.
  apply lookup_seq in Hx as [-> Hi]. apply H. lia.
Qed.

Lemma views_ubytes m T va n :
  (∀ i, (i < n)%nat → is_mapped m T (va + Z.of_nat i) = true) → views m T va n = ubytes m T va n.
Proof.
  intros H. apply list_eq. intros i. destruct (decide (i < n)%nat) as [Hi|Hi].
  - rewrite lookup_ubytes by done. unfold views. rewrite list_lookup_fmap, lookup_seq_lt by done.
    simpl. unfold view. by rewrite H.
  - rewrite !lookup_ge_None_2; [done|rewrite length_ubytes; lia|].
    unfold views. rewrite length_fmap, length_seq. lia.
Qed.

Lemma views_src m T dst src :
  (∀ i b, src !! i = Some b → view m T (dst + Z.of_nat i) = b) → views m T dst (length src) = src.
Proof.
  intros Hv. apply list_eq. intros i. unfold views. rewrite list_lookup_fmap.
  destruct (src !! i) as [b|] eqn:Hi.
  - rewrite lookup_seq_lt by (by eapply lookup_lt_Some). simpl. f_equal. by apply Hv.
  - by rewrite lookup_seq_ge by (by apply lookup_ge_None).
Qed.

Lemma touched_user m T m' T' B lo hi va :
  touched m T m' T' B lo hi → 0 <= va < MAXVA →
  (is_mapped m T va = true → is_user m T va = true) →
  is_mapped m' T' va = true → is_user m' T' va = true.
Proof.
  intros [Hl Hn _] Hva Hw Hm'. destruct (is_mapped m T va) eqn:Hm.
  - specialize (Hw eq_refl). unfold is_user, is_mapped in *. by rewrite Hl.
  - by apply is_writable_user, Hn.
Qed.

(** The outcome of [copyin]: the bytes the process sees, or memory ran out. *)
Definition copyin_post (s : kstate) T (B root : Z) (p : nat) (acc : list Z) (src len : Z)
    (r : list Z * Z) (m' : memory) (h' : Z) T' (fl' : list Z) : Prop :=
  user_ok (with_mem s m' h') T' fl' B root p ∧ faulted (k_mem s) T m' T' B ∧
  (r = (acc ++ views (k_mem s) T src (Z.to_nat len), 0) ∨
   (r.2 = -1 ∧ (length fl' <= 1)%nat)).

Lemma copyin_none root src len acc s0 s e :
  0 < len → 0 <= src < MAXVA → user_page root (src - src mod 4096) s0 e = Ok 0 s e →
  copyin_loop root (src, len, acc) s0 e = Ok (inr (acc, -1)) s e.
Proof.
  intros Hl Hd Hup. destruct (page_start src) as (E1 & E2 & E3); [lia|]. unfold copyin_loop.
  rewrite (proj2 (Z.eqb_neq _ 0)) by lia. rewrite E1. by erewrite bind_Ok by exact Hup.
Qed.

Lemma copyin_loop_view fuel s T fl B root p src len acc e :
  user_ok s T fl B root p → (Z.to_nat len < fuel)%nat → 0 <= len → 0 <= src →
  src + len <= p_sz (proc_at s p) →
  (∀ va, src <= va < src + len → is_mapped (k_mem s) T va = true → is_user (k_mem s) T va = true) →
  ∃ r m' h' T' fl', loop fuel (copyin_loop root) (src, len, acc) s e = Ok r (with_mem s m' h') e ∧
    copyin_post s T B root p acc src len r m' h' T' fl'.
Proof.
  revert s T fl src len acc. induction fuel as [|fuel IH];
    intros s T fl src len acc Hu Hf Hl Hs Hb Hus; [lia|]. cbn [loop].
  destruct (decide (len = 0)) as [->|Hne].
  { exists (acc, 0), (k_mem s), (k_freelist s), T, fl. rewrite with_mem_id. split; [done|].
    split_and!; [by rewrite with_mem_id|apply faulted_refl|left]. simpl. by rewrite app_nil_r. }
  pose proof (ow_bound _ _ _ _ (user_owns _ _ _ _ _ _ Hu)) as HB.
  pose proof (uo_sz _ _ _ _ _ _ Hu) as Hsz.
  destruct (user_page_view s T fl B root p src e Hu) as (r & m1 & h1 & T1 & fl1 & Hrun & Hu1 & Hfa & Hr);
    [lia|intros; by apply Hus; [lia|]|].
  destruct Hr as [[-> Hfl]|[-> Huser]].
  { exists (acc, -1), m1, h1, T1, fl1.
    erewrite bind_Ok by (apply copyin_none; [lia|lia|exact Hrun]).
    split; [done|]. split_and!; [done|done|by right]. }
  pose proof (user_vm _ _ _ _ _ _ Hu1) as Hv1. pose proof (user_owns _ _ _ _ _ _ Hu1) as Ho1.
  change (k_mem (with_mem s m1 h1)) with m1 in *.
  erewrite bind_Ok by (apply (copyin_after s (with_mem s m1 h1) T1 fl1 B); try done; [apply Hu1|lia..]).
  change (k_mem (with_mem s m1 h1)) with m1.
  destruct (chunk_spec src len) as (Hc1 & Hc2 & Hc3); [lia..|]. set (c := chunk src len) in *.
  assert (ubytes m1 T1 src (Z.to_nat c) = views (k_mem s) T src (Z.to_nat c)) as ->.
  { rewrite <- views_ubytes.
    - apply views_ext. intros i Hi. apply (to_view _ _ _ _ _ _ _ Hfa); lia.
    - intros i Hi. apply is_user_mapped in Huser. unfold is_mapped in *.
      by rewrite (leaf_page _ _ (src + Z.of_nat i) src) by zlia. }
  destruct (decide (c = len)) as [Heq|Hlt].
  { exists (acc ++ views (k_mem s) T src (Z.to_nat len), 0), m1, h1, T1, fl1.
    rewrite Heq, Z.sub_diag. split; [by destruct fuel; [lia|]|]. split_and!; [done|done|by left]. }
  destruct (IH (with_mem s m1 h1) T1 fl1 (src + c) (len - c) (acc ++ views (k_mem s) T src (Z.to_nat c)))
    as (r & m3 & h3 & T3 & fl3 & Hrun3 & Hu3 & Hto3 & Hr3); try done; try lia.
  { change (proc_at (with_mem s m1 h1) p) with (proc_at s p). lia. }
  { intros va Hva. eapply touched_user; [exact Hfa|lia|]. intros. by apply Hus; [lia|]. }
  exists r, m3, h3, T3, fl3. change (k_mem (with_mem s m1 h1)) with m1 in *.
  rewrite with_mem_twice in *. rewrite Hc3 by lia. split; [done|].
  split_and!; [done|eapply touched_trans; [exact Hfa|exact Hto3|lia..]|]. destruct Hr3 as [->|?]; [left|by right].
  rewrite <- app_assoc. do 2 f_equal.
  replace (Z.to_nat len) with (Z.to_nat c + Z.to_nat (len - c))%nat by lia.
  rewrite views_app, Z2Nat.id by lia. f_equal. apply views_ext. intros i Hi.
  apply (to_view _ _ _ _ _ _ _ Hfa); lia.
Qed.

End lazy.
