(* ===== verification/AddressSpace.v ===== *)
(** What the kernel's page-table code promises about address spaces: the
    theorems on Vm.v that its callers rely on, and a small concrete machine on
    which they are run. *)

From S2P Require Export Lazy.

Section address_space.
Context `{L : Layout}.

Implicit Types T : gmap (list Z) Z.

(** Where [vmfault] has nothing to do, it returns 0 and changes nothing. *)
Lemma vmfault_refuses s T fl B root p va read e :
  user_ok s T fl B root p → 0 <= va < MAXVA →
  p_sz (proc_at s p) <= va ∨ is_mapped (k_mem s) T va = true →
  vmfault root va read s e = Ok 0 s e.
Proof.
  intros Hu Hva Hwhy. unfold vmfault. erewrite bind_Ok by (by eapply curproc_ok).
  unfold get_proc. rewrite bind_gets. destruct (Z.leb_spec (p_sz (proc_at s p)) va); [done|].
  destruct Hwhy as [?|Hm]; [lia|]. destruct (page_start va) as (E1 & E2 & E3); [lia|]. rewrite E1.
  erewrite bind_Ok by (apply (ismapped_ok s T fl); [by eapply user_vm|apply Hu|lia]).
  unfold is_mapped in *. by rewrite (leaf_page _ _ _ va), Hm by lia.
Qed.

(** ** Properties *)

(** [mappages] on a range that is not mapped never panics.  It returns 0 with
    every page of the range mapped to consecutive physical pages with the
    permissions asked for, or -1 when the allocator ran out of pages, with a
    strict prefix of the range mapped.  Entries outside the range are the same,
    and nothing outside the page table was written. *)
Theorem mappages_maps s T fl root va size pa perm e :
  vm_ok s T fl → T !! [] = Some root → 0 <= va → va mod 4096 = 0 →
  0 < size → size mod 4096 = 0 → va + size <= MAXVA →
  0 <= pa → pa + size <= 2 ^ 56 → 0 <= perm < 1024 →
  (∀ va', va <= va' < va + size → is_mapped (k_mem s) T va' = false) →
  ∃ r m' h' T' fl' k, mappages root va size pa perm s e = Ok r (with_mem s m' h') e ∧
    vm_ok (with_mem s m' h') T' fl' ∧ extends T fl T' fl' ∧ frame T' (k_mem s) m' ∧
    (∀ va', 0 <= va' < MAXVA → leaf m' T' va' =
       if decide (va <= va' < va + k * 4096) then mk_pte (pa + (va' - va) / 4096 * 4096) perm
       else leaf (k_mem s) T va') ∧
    ((r = 0 ∧ k * 4096 = size) ∨ (r = -1 ∧ 0 <= k ∧ k * 4096 < size ∧ fl' = [])).
Proof. intros. by apply mappages_ok. Qed.

(** C26: [vmfault] is invisible to the process: whatever it does, every byte below
    the size of the process reads as before, entries of mapped pages are the
    same, and no page is shared or lost.  It returns 0 only for an address
    outside the process, one that is mapped already, or when at most one page
    is left; otherwise the page of the address is mapped, writable, at the
    physical page it returns. *)
Theorem vmfault_invisible s T fl B root p va read e :
  user_ok s T fl B root p → 0 <= va →
  ∃ r m' h' T' fl', vmfault root va read s e = Ok r (with_mem s m' h') e ∧
    user_ok (with_mem s m' h') T' fl' B root p ∧ faulted (k_mem s) T m' T' B ∧
    ((r = 0 ∧ (p_sz (proc_at s p) <= va ∨ is_mapped (k_mem s) T va = true ∨ (length fl' <= 1)%nat)) ∨
     (va < p_sz (proc_at s p) ∧ is_mapped (k_mem s) T va = false ∧ r ≠ 0 ∧
      frame_of m' T' va = r ∧ is_writable m' T' va = true)).
Proof.
  intros Hu Hva. destruct (vmfault_ok s T fl B root p va read e Hu Hva)
    as (r & m' & h' & T' & fl' & Hrun & Hu' & Hfa & Hr).
  exists r, m', h', T', fl'. split_and!; [done..|].
  destruct Hr as [(-> & _ & ?)|(Hlt & Hm & Hp & pg & -> & Hl)]; [by left|right].
  pose proof (ow_bound _ _ _ _ (user_owns _ _ _ _ _ _ Hu)) as HB.
  pose proof (uo_sz _ _ _ _ _ _ Hu) as Hsz.
  destruct (page_start va) as (E1 & E2 & E3); [lia|]. rewrite E1 in Hl.
  rewrite (leaf_page _ _ _ va) in Hl by lia.
  destruct (mk_pte_rwu r Hp) as [HU HW]. pose proof (page_ok_nonzero r Hp).
  unfold is_writable, is_user, is_mapped, frame_of.
  rewrite Hl, mk_pte_PA, mk_pte_valid, HU, HW by done. split_and!; (done || lia).
Qed.

(** C27: [copyout] into the process, pages still to be allocated included: it
    returns 0 with exactly the bytes asked for changed, or -1 when memory ran
    out; no byte outside the range changes either way. *)
Theorem copyout_writes s T fl B root p dst src e :
  user_ok s T fl B root p → bytes_ok src → 0 <= dst →
  dst + Z.of_nat (length src) <= p_sz (proc_at s p) →
  (∀ va, dst <= va < dst + Z.of_nat (length src) → is_mapped (k_mem s) T va = true →
     is_writable (k_mem s) T va = true) →
  ∃ r m' h' T' fl', copyout root dst src s e = Ok r (with_mem s m' h') e ∧
    user_ok (with_mem s m' h') T' fl' B root p ∧
    (∀ va, 0 <= va < B → ~ (dst <= va < dst + Z.of_nat (length src)) →
       view m' T' va = view (k_mem s) T va) ∧
    ((r = 0 ∧ views m' T' dst (length src) = src) ∨ (r = -1 ∧ (length fl' <= 1)%nat)).
Proof.
  intros Hu Hok Hd Hb Hw. destruct (copyout_loop_view (S (length src)) s T fl B root p dst src e)
    as (r & m' & h' & T' & fl' & Hrun & Hu' & Hto & Hr); try done; [lia|].
  exists r, m', h', T', fl'. split_and!; [done|done|apply Hto|].
  destruct Hr as [[-> Hv]|?]; [left|by right]. split; [done|]. apply views_src. intros. by apply Hv.
Qed.

(** C28: what [copyout] put into a process, [copyin] reads back. *)
Theorem copyout_copyin s T fl B root p dst src e s' :
  user_ok s T fl B root p → bytes_ok src → 0 <= dst →
  dst + Z.of_nat (length src) <= p_sz (proc_at s p) →
  (∀ va, dst <= va < dst + Z.of_nat (length src) → is_mapped (k_mem s) T va = true →
     is_writable (k_mem s) T va = true) →
  copyout root dst src s e = Ok 0 s' e →
  copyin root dst (Z.of_nat (length src)) s' e = Ok (src, 0) s' e.
Proof.
  intros Hu Hok Hd Hb Hw Hrun. destruct (copyout_loop_view (S (length src)) s T fl B root p dst src e)
    as (r & m' & h' & T' & fl' & Hrun' & Hu' & Hto & Hr); try done; [lia|].
  unfold copyout in Hrun. rewrite Hrun' in Hrun. simplify_eq.
  destruct Hr as [[_ Hv]|[? _]]; [|done]. pose proof (uo_sz _ _ _ _ _ _ Hu) as Hsz.
  assert (∀ va, dst <= va < dst + Z.of_nat (length src) → is_writable m' T' va = true) as Hwr.
  { intros va Hva. destruct (lookup_lt_is_Some_2 src (Z.to_nat (va - dst))) as [b Hi]; [lia|].
    apply Hv in Hi as [_ Hi]. by replace (dst + Z.of_nat (Z.to_nat (va - dst))) with va in Hi by lia. }
  rewrite (copyin_ok _ T' fl' B root); [|by eapply user_vm|by eapply user_owns|apply Hu'|lia..|].
  2:{ intros va Hva. by apply is_writable_user, Hwr. }
  do 2 f_equal. rewrite Nat2Z.id. change (k_mem (with_mem s m' h')) with m'.
  rewrite <- views_ubytes by (intros; apply is_user_mapped, is_writable_user, Hwr; lia).
  apply views_src. intros. by apply Hv.
Qed.

(** [copyin] returns the bytes that the process sees, pages still to be
    allocated included (they read as 0), or -1 when memory ran out; it changes
    no byte of the process. *)
Theorem copyin_reads s T fl B root p src len e :
  user_ok s T fl B root p → 0 <= len → 0 <= src → src + len <= p_sz (proc_at s p) →
  (∀ va, src <= va < src + len → is_mapped (k_mem s) T va = true → is_user (k_mem s) T va = true) →
  ∃ r m' h' T' fl', copyin root src len s e = Ok r (with_mem s m' h') e ∧
    user_ok (with_mem s m' h') T' fl' B root p ∧ faulted (k_mem s) T m' T' B ∧
    (r = (views (k_mem s) T src (Z.to_nat len), 0) ∨ (r.2 = -1 ∧ (length fl' <= 1)%nat)).
Proof.
  intros Hu Hl Hs Hb Hus. destruct (copyin_loop_view (S (Z.to_nat len)) s T fl B root p src len [] e)
    as (r & m' & h' & T' & fl' & Hrun & Hu' & Hto & Hr); try done; [lia|]. eauto 10.
Qed.

(** C29: [copyout] to an address that the process may not write (the page is
    mapped without PTE_U or PTE_W, or is neither mapped nor below the size of
    the process, or the address is beyond MAXVA) returns -1 and changes nothing. *)
Theorem copyout_refuses s T fl B root p dst src e :
  user_ok s T fl B root p → src ≠ [] → 0 <= dst < 2 ^ 64 - 4096 →
  (dst < MAXVA → if is_mapped (k_mem s) T dst then is_writable (k_mem s) T dst = false
                 else p_sz (proc_at s p) <= dst - dst mod 4096) →
  copyout root dst src s e = Ok (-1) s e.
Proof.
  intros Hu Hne Hd Hwhy. unfold copyout. cbn [loop].
  assert (copyout_loop root (dst, src) s e = Ok (inr (-1)) s e) as H; [|by erewrite bind_Ok by exact H].
  unfold copyout_loop. rewrite (proj2 (Z.eqb_neq _ 0)) by (destruct src; [done|simpl; lia]).
  change (2 ^ 64) with 18446744073709551616 in Hd.
  rewrite PGROUNDDOWN_spec by lia. set (va0 := dst - dst mod 4096).
  destruct (Z.leb_spec MAXVA va0) as [|Hlt]; [done|].
  assert (0 <= va0 ∧ dst < MAXVA ∧ va0 / 4096 = dst / 4096) as (H0 & HM & E3)
    by (subst va0; change MAXVA with 274877906944 in *; zlia).
  pose proof (user_vm _ _ _ _ _ _ Hu) as Hv. pose proof (uo_root _ _ _ _ _ _ Hu) as Hr.
  assert (leaf (k_mem s) T va0 = leaf (k_mem s) T dst) as El by (apply leaf_page; lia).
  specialize (Hwhy HM). unfold user_page. rewrite bind_assoc.
  erewrite bind_Ok by (apply (walkaddr_ok s T fl); try done; lia).
  assert (∀ X (k : Z → K X), is_user (k_mem s) T va0 = false ∨ frame_of (k_mem s) T va0 = 0 →
    (vmfault root va0 false ≫= k) s e = k 0 s e) as Hfault.
  { intros X k Hk. erewrite bind_Ok; [done|]. apply (vmfault_refuses s T fl B root p); [done|lia|].
    unfold is_user, is_writable, is_mapped in *. rewrite El in *.
    destruct (has (leaf (k_mem s) T dst) PTE_V) eqn:Em; [by right|by left]. }
  destruct (is_user (k_mem s) T va0) eqn:Hus; [|cbn [Z.eqb]; rewrite Hfault by auto; done].
  destruct (Z.eqb_spec (frame_of (k_mem s) T va0) 0) as [E0|N0]; [rewrite Hfault by auto; done|].
  rewrite bind_ret, (proj2 (Z.eqb_neq _ _)) by done.
  erewrite bind_Ok by (apply (walk_noalloc s T fl); try done; lia).
  unfold is_user, is_writable, is_mapped in *. rewrite El in *.
  apply andb_true_iff in Hus as [HV HU]. rewrite HV in Hwhy. unfold is_user, is_mapped in Hwhy.
  rewrite HV, HU in Hwhy. simpl in Hwhy.
  destruct (T !! [PX 1 va0; PX 2 va0]) as [q|] eqn:Hq.
  2:{ unfold leaf in El at 1. rewrite Hq in El. by rewrite <- El in HV. }
  rewrite (proj2 (Z.eqb_neq _ _)) by (by eapply leaf_addr_nonzero).
  unfold load64. rewrite bind_gets.
  assert (ld64 (k_mem s) (q + 8 * PX 0 va0) = leaf (k_mem s) T dst) as ->.
  { rewrite <- El. unfold leaf. by rewrite Hq. }
  by rewrite Hwhy.
Qed.

(** C30: [uvmfree] gives back every page of an address space: the pages of its
    page table and those mapped below its size are added to the free list, each
    once, and nothing is lost. *)
Theorem uvmfree_frees s T fl B root sz e :
  vm_ok s T fl → owns (k_mem s) T fl B → T !! [] = Some root →
  0 <= sz <= B → PGROUNDUP sz <= B →
  (∀ va, PGROUNDUP sz <= va < MAXVA → is_mapped (k_mem s) T va = false) →
  ∃ m' h' fl', uvmfree root sz s e = Ok tt (with_mem s m' h') e ∧ kmem_inv m' h' fl' ∧ NoDup fl' ∧
    ∀ q, q ∈ fl ∨ held (k_mem s) T (PGROUNDUP sz) q → q ∈ fl'.
Proof.
  intros Hv Ho Hr Hsz HB Hhigh.
  destruct (uvmfree_ok s T fl B root sz e) as (m' & h' & Hrun & Hm & _); try done.
  pose proof (ow_bound _ _ _ _ Ho) as HB'. change MAXVA with 274877906944 in HB'.
  eexists m', h', _. split_and!; [done|exact Hm|apply Hm|].
  intros q [Hq|[[π Hq]|(va & Hva & Hvm & <-)]]; rewrite !elem_of_app, !elem_of_reverse.
  - auto.
  - left. by eapply elem_of_table_pages; [apply Hv|].
  - right. left. apply elem_of_frames. exists (va / 4096). unfold is_mapped, frame_of in *.
    rewrite PGROUNDUP_spec in Hva by lia.
    rewrite (leaf_page _ _ (0 + va / 4096 * 4096) va) by (change MAXVA with 274877906944; zlia).
    rewrite PGROUNDUP_spec by lia. split; [zlia|done].
Qed.

(** [uvmcopy] copies an address space or fails cleanly.  On success the new
    space has the same pages mapped with the same permissions and contents; on
    failure nothing is left mapped in it.  Either way the two spaces stay
    disjoint, the parent's entries and bytes are what they were, entries of the
    new space above the size are untouched, and no page is lost. *)
Theorem uvmcopy_copies s To Tn fl B ro rn sz e :
  two_spaces s To Tn fl B → To !! [] = Some ro → Tn !! [] = Some rn →
  0 <= sz <= B → PGROUNDUP sz = B → (∀ va, 0 <= va < B → is_mapped (k_mem s) Tn va = false) →
  ∃ r m' h' Tn' fl', uvmcopy ro rn sz s e = Ok r (with_mem s m' h') e ∧
    two_spaces (with_mem s m' h') To Tn' fl' B ∧ same_space (k_mem s) To m' To B ∧
    no_leak (k_mem s) Tn fl m' Tn' fl' B ∧
    (∀ va, B <= va < MAXVA → leaf m' Tn' va = leaf (k_mem s) Tn va) ∧
    ((r = 0 ∧ ∀ va, 0 <= va < B → is_mapped m' Tn' va = is_mapped m' To va ∧
        (is_mapped m' To va = true →
           PTE_FLAGS (leaf m' Tn' va) = PTE_FLAGS (leaf m' To va) ∧
           ubyte m' Tn' va = ubyte m' To va)) ∨
     (r = -1 ∧ ∀ va, 0 <= va < B → is_mapped m' Tn' va = false)).
Proof.
  intros Hts Hro Hrn Hsz HB Hnone.
  destruct (uvmcopy_ok s To Tn fl B ro rn sz e) as (r & m' & h' & Tn' & fl' & Hrun & Hcs & Hr); try done.
  exists r, m', h', Tn', fl'. split_and!; [done|apply Hcs..|].
  destruct Hr as [[-> Hc]|?]; [left|by right]. split; [done|]. intros va Hva.
  split; [by apply Hc|]. intros Hm. split; [by apply Hc|by apply Hc].
Qed.

End address_space.

(** ** A concrete machine *)

#[local] Existing Instance layout0.

(** The [k]th page after the kernel image. *)
Definition toy_page (k : Z) : Z := 2147635200 + 4096 * k.

(** A process of two virtual pages, of which only the first is allocated; an
    empty second page table; three free pages. *)
Definition toy_table : gmap (list Z) Z :=
  list_to_map [([], toy_page 0); ([0], toy_page 1); ([0; 0], toy_page 2)].
Definition toy_child : gmap (list Z) Z := {[ [] := toy_page 5 ]}.
Definition toy_free : list Z := [toy_page 6; toy_page 7; toy_page 8].

Definition toy_mem : memory :=
  st64 (st64 (st64 (st64 (st64 ∅ (toy_page 0) (child_entry (Some (toy_page 1))))
    (toy_page 1) (child_entry (Some (toy_page 2))))
    (toy_page 2) (mk_pte (toy_page 3) 22))
    (toy_page 6) (toy_page 7)) (toy_page 7) (toy_page 8).

Definition toy : kstate :=
  kstate0 <| k_x := mk_xstate 0 0 (<[0%nat := (inhabitant : cpu) <| c_proc := Some 0%nat |>]> (replicate NCPU inhabitant))
                      {[ Lkmem := mk_spinlock 0 "kmem" None ]} |>
          <| k_procs := <[0%nat := proc0 <| p_pagetable := toy_page 0 |> <| p_sz := 8192 |>]> (replicate NPROC proc0) |>
          <| k_freelist := toy_page 6 |> <| k_mem := toy_mem |>.

Lemma toy_ready : kready (k_x toy).
Proof.
  split; [split; vm_compute; (lia || discriminate || done)|by vm_compute|by eexists].
Qed.

Lemma toy_mem_ok : mem_ok toy_mem.
Proof. unfold toy_mem. repeat apply st64_ok. apply map_Forall_empty. Qed.

Lemma toy_kmem : kmem_inv (k_mem toy) (k_freelist toy) toy_free.
Proof.
  split; [apply toy_mem_ok|by vm_compute| |].
  - repeat constructor; vm_compute; (discriminate || done).
  - apply (bool_decide_unpack _). by vm_compute.
Qed.

Lemma toy_table_elem π q :
  toy_table !! π = Some q → (π, q) ∈ [([], toy_page 0); ([0], toy_page 1); ([0; 0], toy_page 2)].
Proof. intros H. by apply elem_of_list_to_map_2 in H. Qed.

Lemma toy_table_cases π q :
  toy_table !! π = Some q →
  (π = [] ∧ q = toy_page 0) ∨ (π = [0] ∧ q = toy_page 1) ∨ (π = [0; 0] ∧ q = toy_page 2).
Proof.
  intros H%toy_table_elem. repeat (apply elem_of_cons in H as [H|H]; [simplify_eq; auto|]).
  by apply elem_of_nil in H.
Qed.

(** Checking all 512 entries of a table page. *)
Definition entries_ok (T : gmap (list Z) Z) (π : list Z) (p : Z) : bool :=
  forallb (λ i, ld64 toy_mem (p + 8 * i) =? child_entry (T !! (i :: π))) (seqZ 0 512).

Lemma entries_ok_spec T π p i :
  entries_ok T π p = true → 0 <= i < 512 → ld64 toy_mem (p + 8 * i) = child_entry (T !! (i :: π)).
Proof.
  intros H Hi. apply Z.eqb_eq. unfold entries_ok in H. rewrite forallb_forall in H. apply H.
  apply list_elem_of_In, elem_of_seqZ. lia.
Qed.

Lemma toy_page_ok k : 0 <= k < 9 → page_ok (toy_page k).
Proof.
  intros Hk. unfold page_ok, toy_page. split; [zlia|]. change end_ with (end_ (Layout := layout0)).
  change PHYSTOP with 2281701376. assert (end_ <= 2147635200) by (vm_compute; discriminate). lia.
Qed.

Lemma toy_rep : pt_rep (k_mem toy) toy_table.
Proof.
  split.
  - intros π q [[_ ->]|[[_ ->]|[_ ->]]]%toy_table_cases; apply toy_page_ok; lia.
  - intros π1 π2 q H1%toy_table_cases H2%toy_table_cases. unfold toy_page in *.
    destruct H1 as [[-> ?]|[[-> ?]|[-> ?]]], H2 as [[-> ?]|[[-> ?]|[-> ?]]]; (done || lia).
  - intros i π [q Hq]. apply toy_table_cases in Hq. destruct Hq as [[? _]|[[? _]|[? _]]]; simplify_eq;
      by eexists.
  - intros i π [q Hq]. apply toy_table_cases in Hq. destruct Hq as [[? _]|[[? _]|[? _]]]; simplify_eq;
      (split; [lia|intros; lia]).
  - intros π [q Hq]. apply toy_table_cases in Hq. destruct Hq as [[-> _]|[[-> _]|[-> _]]]; simpl; lia.
  - intros π q i Hq Hl Hi. apply toy_table_cases in Hq. destruct Hq as [[-> ->]|[[-> ->]|[-> _]]].
    + apply entries_ok_spec; [by vm_compute|done].
    + apply entries_ok_spec; [by vm_compute|done].
    + simpl in Hl. lia.
Qed.

Lemma toy_leaf va : 0 <= va < 8192 →
  leaf toy_mem toy_table va = if va <? 4096 then mk_pte (toy_page 3) 22 else 0.
Proof.
  intros Hva. destruct (Z.ltb_spec va 4096).
  - rewrite (leaf_page _ _ va 0) by (change MAXVA with 274877906944; zlia). by vm_compute.
  - rewrite (leaf_page _ _ va 4096) by (change MAXVA with 274877906944; zlia). by vm_compute.
Qed.

Lemma toy_mapped va : 0 <= va < 8192 → is_mapped toy_mem toy_table va = true →
  va < 4096 ∧ frame_of toy_mem toy_table va = toy_page 3.
Proof.
  intros Hva. unfold is_mapped, frame_of. rewrite toy_leaf by done.
  destruct (Z.ltb_spec va 4096); [|done]. intros _. split; [done|by vm_compute].
Qed.

Lemma toy_owns : owns (k_mem toy) toy_table toy_free 8192.
Proof.
  split; [change MAXVA with 274877906944; lia|..]; change (k_mem toy) with toy_mem.
  - intros va Hva [_ ->]%toy_mapped; [|done]. apply toy_page_ok. lia.
  - intros va Hva [_ ->]%toy_mapped; [|done]. apply (bool_decide_unpack _). by vm_compute.
  - intros va π Hva [_ ->]%toy_mapped; [|done]. intros H%toy_table_cases. unfold toy_page in H. lia.
  - intros va va' Hva Hva' [H1 _]%toy_mapped [H2 _]%toy_mapped _; [|done..]. zlia.
Qed.

Lemma toy_vm : vm_ok toy toy_table toy_free.
Proof.
  split; [apply toy_ready|apply toy_kmem|apply toy_rep|].
  intros π q [[_ ->]|[[_ ->]|[_ ->]]]%toy_table_cases; apply (bool_decide_unpack _); by vm_compute.
Qed.

Lemma toy_user : user_ok toy toy_table toy_free 8192 (toy_page 0) 0.
Proof. split; [by apply ts_single; [apply toy_vm|apply toy_owns]|done|done|done|by vm_compute|done]. Qed.

Lemma toy_child_unmapped va : is_mapped toy_mem toy_child va = false.
Proof. unfold is_mapped, leaf, toy_child. by rewrite lookup_singleton_ne. Qed.

Lemma toy_child_elem π q : toy_child !! π = Some q → [] = π ∧ toy_page 5 = q.
Proof. unfold toy_child. apply lookup_singleton_Some. Qed.

Lemma toy_spaces : two_spaces toy toy_table toy_child toy_free 8192.
Proof.
  split; [apply toy_ready|apply toy_kmem| | |].
  - split; [apply toy_rep|apply toy_owns|apply toy_vm].
  - split; [split| |].
    + intros π q [<- <-]%toy_child_elem. apply toy_page_ok. lia.
    + intros π1 π2 q [<- _]%toy_child_elem [<- _]%toy_child_elem. done.
    + intros i π [q [? _]%toy_child_elem]. done.
    + intros i π [q [? _]%toy_child_elem]. done.
    + intros π [q [<- _]%toy_child_elem]. simpl. lia.
    + intros π q i [<- <-]%toy_child_elem _ Hi. apply entries_ok_spec; [by vm_compute|done].
    + split; [change MAXVA with 274877906944; lia|..]; intros va; change (k_mem toy) with toy_mem;
        rewrite ?toy_child_unmapped; try done.
    + intros π q [<- <-]%toy_child_elem. apply (bool_decide_unpack _). by vm_compute.
  - intros q [[π Hq]|(va & Hva & Hm & Hf)] [[π' Hq']|(va' & _ & Hm' & _)];
      try (by rewrite toy_child_unmapped in Hm');
      apply toy_child_elem in Hq' as [_ <-]; unfold toy_page in *.
    + apply toy_table_cases in Hq. unfold toy_page in Hq. lia.
    + apply toy_mapped in Hm as [_ E]; [|done]. change (k_mem toy) with toy_mem in Hf.
      unfold toy_page in E. lia.
Qed.

Lemma mappages_maps_witness :
  ∃ r m' h' T' fl' k, mappages (toy_page 0) 4096 4096 (toy_page 6) 22 toy [] = Ok r (with_mem toy m' h') [] ∧
    vm_ok (with_mem toy m' h') T' fl' ∧ extends toy_table toy_free T' fl' ∧ frame T' (k_mem toy) m' ∧
    (∀ va', 0 <= va' < MAXVA → leaf m' T' va' =
       if decide (4096 <= va' < 4096 + k * 4096) then mk_pte (toy_page 6 + (va' - 4096) / 4096 * 4096) 22
       else leaf (k_mem toy) toy_table va') ∧
    ((r = 0 ∧ k * 4096 = 4096) ∨ (r = -1 ∧ 0 <= k ∧ k * 4096 < 4096 ∧ fl' = [])).
Proof.
  apply mappages_maps; [apply toy_vm|done|lia|done|lia|done|by vm_compute|by vm_compute|by vm_compute|lia|].
  intros va' Hva'. unfold is_mapped. change (k_mem toy) with toy_mem. rewrite toy_leaf by lia.
  destruct (Z.ltb_spec va' 4096); [lia|done].
Defined.

Lemma vmfault_invisible_witness :
  ∃ r m' h' T' fl', vmfault (toy_page 0) 5000 false toy [] = Ok r (with_mem toy m' h') [] ∧
    user_ok (with_mem toy m' h') T' fl' 8192 (toy_page 0) 0 ∧ faulted (k_mem toy) toy_table m' T' 8192 ∧
    ((r = 0 ∧ (p_sz (proc_at toy 0) <= 5000 ∨ is_mapped (k_mem toy) toy_table 5000 = true ∨
               (length fl' <= 1)%nat)) ∨
     (5000 < p_sz (proc_at toy 0) ∧ is_mapped (k_mem toy) toy_table 5000 = false ∧ r ≠ 0 ∧
      frame_of m' T' 5000 = r ∧ is_writable m' T' 5000 = true)).
Proof. apply (vmfault_invisible toy toy_table toy_free); [apply toy_user|lia]. Defined.

Lemma toy_writable va : 0 <= va < 8192 → is_mapped toy_mem toy_table va = true →
  is_writable toy_mem toy_table va = true.
Proof.
  intros Hva Hm. unfold is_writable, is_user. rewrite Hm. apply toy_mapped in Hm as [Hlt _]; [|done].
  rewrite toy_leaf by done. rewrite (proj2 (Z.ltb_lt _ _)) by done. by vm_compute.
Qed.

(** Four bytes across the boundary to the page that is not there yet. *)
Lemma copyout_writes_witness :
  ∃ r m' h' T' fl', copyout (toy_page 0) 4094 [1; 2; 3; 4] toy [] = Ok r (with_mem toy m' h') [] ∧
    user_ok (with_mem toy m' h') T' fl' 8192 (toy_page 0) 0 ∧
    (∀ va, 0 <= va < 8192 → ~ (4094 <= va < 4098) → view m' T' va = view (k_mem toy) toy_table va) ∧
    ((r = 0 ∧ views m' T' 4094 4 = [1; 2; 3; 4]) ∨ (r = -1 ∧ (length fl' <= 1)%nat)).
Proof.
  apply (copyout_writes toy toy_table toy_free); [apply toy_user| |lia|by vm_compute|].
  - repeat constructor; lia.
  - intros va Hva. apply toy_writable. simpl in Hva. lia.
Defined.

Lemma copyout_copyin_witness :
  ∃ s', copyout (toy_page 0) 4094 [1; 2; 3; 4] toy [] = Ok 0 s' [] ∧
    copyin (toy_page 0) 4094 4 s' [] = Ok ([1; 2; 3; 4], 0) s' [].
Proof.
  assert (match copyout (toy_page 0) 4094 [1; 2; 3; 4] toy [] with
          | Ok r _ e => bool_decide (r = 0 ∧ length e = 0%nat) | _ => false end = true) as H
    by (vm_compute; reflexivity).
  destruct (copyout (toy_page 0) 4094 [1; 2; 3; 4] toy []) as [r s' e| |] eqn:E; [|discriminate..].
  apply bool_decide_eq_true in H as [-> He]. destruct e; [|discriminate].
  exists s'. split; [reflexivity|].
  apply (copyout_copyin toy toy_table toy_free 8192 (toy_page 0) 0 4094 [1; 2; 3; 4]);
    [apply toy_user| |lia|by vm_compute| |exact E].
  - repeat constructor; lia.
  - intros va Hva. apply toy_writable. simpl in Hva. lia.
Defined.

Lemma copyin_reads_witness :
  ∃ r m' h' T' fl', copyin (toy_page 0) 4094 4 toy [] = Ok r (with_mem toy m' h') [] ∧
    user_ok (with_mem toy m' h') T' fl' 8192 (toy_page 0) 0 ∧ faulted (k_mem toy) toy_table m' T' 8192 ∧
    (r = (views (k_mem toy) toy_table 4094 4, 0) ∨ (r.2 = -1 ∧ (length fl' <= 1)%nat)).
Proof.
  apply (copyin_reads toy toy_table toy_free 8192 (toy_page 0) 0 4094 4);
    [apply toy_user|lia|lia|by vm_compute|].
  intros va Hva Hm. apply is_writable_user, toy_writable; [lia|done].
Defined.

(** Beyond the size of the process. *)
Lemma copyout_refuses_witness : copyout (toy_page 0) 8192 [1] toy [] = Ok (-1) toy [].
Proof.
  apply (copyout_refuses toy toy_table toy_free 8192 (toy_page 0) 0);
    [apply toy_user|done|by vm_compute|]. intros _. by vm_compute.
Defined.

Lemma toy_high_unmapped va : 8192 <= va < MAXVA → is_mapped toy_mem toy_table va = false.
Proof.
  intros Hva. unfold is_mapped, leaf. destruct (toy_table !! [PX 1 va; PX 2 va]) as [q|] eqn:E; [|done].
  apply toy_table_cases in E as [[? _]|[[? _]|[E ->]]]; [done..|]. injection E as E1 E2.
  assert (PX 0 va = va / 4096 mod 512 ∧ va / 4096 < 512 ∧ 2 <= va / 4096) as (-> & H1 & H2).
  { change MAXVA with 274877906944 in *. rewrite PX_spec in * by lia. simpl in *. zlia. }
  rewrite Z.mod_small by lia. apply negb_true_iff.
  assert (forallb (λ i, negb (has (ld64 toy_mem (toy_page 2 + 8 * i)) PTE_V)) (seqZ 2 510) = true) as H
    by (vm_compute; reflexivity).
  rewrite forallb_forall in H. apply H, list_elem_of_In, elem_of_seqZ. lia.
Qed.

Lemma uvmfree_frees_witness :
  ∃ m' h' fl', uvmfree (toy_page 0) 8192 toy [] = Ok tt (with_mem toy m' h') [] ∧ kmem_inv m' h' fl' ∧
    NoDup fl' ∧ ∀ q, q ∈ toy_free ∨ held (k_mem toy) toy_table (PGROUNDUP 8192) q → q ∈ fl'.
Proof.
  apply (uvmfree_frees toy toy_table toy_free 8192); [apply toy_vm|apply toy_owns|done|lia|by vm_compute|].
  intros va Hva. apply toy_high_unmapped. by change (PGROUNDUP 8192) with 8192 in Hva.
Defined.

Lemma uvmcopy_copies_witness :
  ∃ r m' h' Tn' fl', uvmcopy (toy_page 0) (toy_page 5) 8192 toy [] = Ok r (with_mem toy m' h') [] ∧
    two_spaces (with_mem toy m' h') toy_table Tn' fl' 8192 ∧
    same_space (k_mem toy) toy_table m' toy_table 8192 ∧
    no_leak (k_mem toy) toy_child toy_free m' Tn' fl' 8192 ∧
    (∀ va, 8192 <= va < MAXVA → leaf m' Tn' va = leaf (k_mem toy) toy_child va) ∧
    ((r = 0 ∧ ∀ va, 0 <= va < 8192 → is_mapped m' Tn' va = is_mapped m' toy_table va ∧
        (is_mapped m' toy_table va = true →
           PTE_FLAGS (leaf m' Tn' va) = PTE_FLAGS (leaf m' toy_table va) ∧
           ubyte m' Tn' va = ubyte m' toy_table va)) ∨
     (r = -1 ∧ ∀ va, 0 <= va < 8192 → is_mapped m' Tn' va = false)).
Proof.
  apply (uvmcopy_copies toy toy_table toy_child toy_free); [apply toy_spaces|done|done|lia|by vm_compute|].
  intros va _. apply toy_child_unmapped.
Defined.
