(* ===== verification/Sched.v ===== *)
(** Scheduling and the sleep/wakeup mechanism: the part of kernel/proc.c that
    moves processes between states, and [either_copyout]/[either_copyin].

    [swtch] gives the CPU to the scheduler; everything that happens until this
    kernel thread runs again is one move of the rest of the machine
    ([interfere]). *)

From S2P Require Export Vm.

Definition procinit : K unit :=
  initlock Lpid "nextpid";;
  initlock Lwait "wait_lock";;
  for_each NPROC 0 (λ p,
    initlock (Lproc p) "proc";;
    upd_proc p (λ pr, pr <| p_state := UNUSED |>);;
    upd_proc p (λ pr, pr <| p_kstack := KSTACK (Z.of_nat p) |>)).

Definition allocpid : K Z :=
  acquire Lpid;;
  pid ← gets k_nextpid;
  modify (set k_nextpid (λ n, i32 (n + 1)));;
  release Lpid;;
  mret pid.

Definition swtch : K unit := interfere.

Definition sched : K unit :=
  p ← curproc;
  h ← holding (Lproc p);
  if negb h then panic "sched p->lock" else
  c ← mycpu;
  cp ← get_cpu c;
  if negb (c_noff cp =? 1) then panic "sched locks" else
  pr ← get_proc p;
  if bool_decide (p_state pr = RUNNING) then panic "sched RUNNING" else
  i ← intr_get;
  if (i : bool) then panic "sched interruptible" else
  let intena := c_intena cp in
  swtch;;
  c' ← mycpu;
  upd_cpu c' (set c_intena (λ _, intena)).

Definition yield : K unit :=
  p ← curproc;
  acquire (Lproc p);;
  upd_proc p (λ pr, pr <| p_state := RUNNABLE |>);;
  sched;;
  release (Lproc p).

Definition sleep (chan : channel) (lk : lockid) : K unit :=
  p ← curproc;
  acquire (Lproc p);;
  release lk;;
  upd_proc p (λ pr, pr <| p_chan := Some chan |>);;
  upd_proc p (λ pr, pr <| p_state := SLEEPING |>);;
  sched;;
  upd_proc p (λ pr, pr <| p_chan := None |>);;
  release (Lproc p);;
  acquire lk.

(** The body of the loop of [wakeup] for process [p]. *)
Definition wakeup_one (chan : channel) (p : nat) : K unit :=
  me ← myproc;
  if bool_decide (Some p = me) then mret () else
  acquire (Lproc p);;
  pr ← get_proc p;
  when (bool_decide (p_state pr = SLEEPING) && bool_decide (p_chan pr = Some chan))
    (upd_proc p (λ pr, pr <| p_state := RUNNABLE |>));;
  release (Lproc p).

Definition wakeup (chan : channel) : K unit := for_each NPROC 0 (wakeup_one chan).

Definition kkill (pid : Z) : K Z :=
  r ← for_break NPROC 0 (λ p,
    acquire (Lproc p);;
    pr ← get_proc p;
    if p_pid pr =? pid then
      upd_proc p (λ pr, pr <| p_killed := 1 |>);;
      when (bool_decide (p_state pr = SLEEPING))
        (upd_proc p (λ pr, pr <| p_state := RUNNABLE |>));;
      release (Lproc p);;
      mret (Some 0)
    else
      release (Lproc p);;
      mret None);
  mret (default (-1) r).

Definition setkilled (p : nat) : K unit :=
  acquire (Lproc p);;
  upd_proc p (λ pr, pr <| p_killed := 1 |>);;
  release (Lproc p).

Definition killed (p : nat) : K Z :=
  acquire (Lproc p);;
  pr ← get_proc p;
  release (Lproc p);;
  mret (p_killed pr).

(** One round of the endless loop of [scheduler]: a scan of the process table;
    [wfi] waits for an interrupt when nothing was runnable. *)
Definition scheduler_visit (c p : nat) (found : bool) : K bool :=
  acquire (Lproc p);;
  pr ← get_proc p;
  found' ←
    (if bool_decide (p_state pr = RUNNABLE) then
       upd_proc p (λ pr, pr <| p_state := RUNNING |>);;
       upd_cpu c (set c_proc (λ _, Some p));;
       swtch;;
       upd_cpu c (set c_proc (λ _, None));;
       mret true
     else mret found);
  release (Lproc p);;
  mret found'.

Fixpoint scheduler_scan (c : nat) (n p : nat) (found : bool) : K bool :=
  match n with
  | O => mret found
  | S n' => found' ← scheduler_visit c p found; scheduler_scan c n' (S p) found'
  end.

Definition wfi : K unit := interfere.

Definition scheduler_round (c : nat) : K unit :=
  intr_on;;
  intr_off;;
  found ← scheduler_scan c NPROC 0 false;
  when (negb found) wfi.

(** [scheduler] never returns; [rounds] is the number of rounds observed. *)
Definition scheduler (rounds : nat) : K unit :=
  c ← mycpu;
  upd_cpu c (set c_proc (λ _, None));;
  for_each rounds 0 (λ _, scheduler_round c).

Section copy.
Context `{L : Layout}.

(** [src] is the source buffer's bytes. *)
Definition either_copyout (user_dst : bool) (dst : Z) (src : list Z) : K Z :=
  p ← curproc;
  if user_dst then
    pr ← get_proc p;
    copyout (p_pagetable pr) dst src
  else
    upd_mem (λ m, stn m dst src);;
    mret 0.

(** The result holds the bytes stored at the destination and the return value. *)
Definition either_copyin (user_src : bool) (src len : Z) : K (list Z * Z) :=
  p ← curproc;
  if user_src then
    pr ← get_proc p;
    copyin (p_pagetable pr) src len
  else
    bs ← gets (λ s, ldn (k_mem s) src (Z.to_nat len));
    mret (bs, 0).

End copy.
