(* ===== verification/SchedSpec.v ===== *)
(** What the sleep/wakeup mechanism of Sched.v does, as equations: [wakeup],
    [killed] and [sleep] from the states in which the kernel calls them. *)

From S2P Require Export Sched.

(** ** State bookkeeping *)

Lemma set_x_id s x : k_x s = x → s <| k_x := x |> = s.
Proof. intros <-. by destruct s. Qed.

Lemma proc_at_upd s p q f ps :
  (p < length (k_procs s))%nat → ps = <[p := f (proc_at s p)]> (k_procs s) →
  proc_at (s <| k_procs := ps |>) q = if decide (q = p) then f (proc_at s p) else proc_at s q.
Proof.
  intros Hp ->. unfold proc_at. simpl. case_decide as E.
  - subst. by apply list_lookup_total_insert_eq.
  - by apply list_lookup_total_insert_ne.
Qed.

(** ** wakeup *)

(** Process [q] after a wakeup on [chan] by [me]. *)
Definition wake1 (chan : channel) (me : option nat) (q : nat) (pr : proc) : proc :=
  if bool_decide (Some q = me) then pr
  else if bool_decide (p_state pr = SLEEPING) && bool_decide (p_chan pr = Some chan)
  then pr <| p_state := RUNNABLE |> else pr.

Definition wake (chan : channel) (me : option nat) (ps : list proc) : list proc :=
  imap (wake1 chan me) ps.

(** The machine state in which [wakeup] can be called. *)
Record wakeable (x : xstate) : Prop := {
  wk_xwf : xwf x;
  wk_settled : settled x;
  wk_locks : ∀ q, (q < NPROC)%nat → c_proc (this_cpu x) ≠ Some q → lock_free (Lproc q) x;
}.

Lemma wakeup_one_ok chan q s e :
  wakeable (k_x s) → (q < NPROC)%nat → length (k_procs s) = NPROC →
  wakeup_one chan q s e =
    Ok tt (s <| k_procs := <[q := wake1 chan (c_proc (this_cpu (k_x s))) q (proc_at s q)]> (k_procs s) |>) e.
Proof.
  intros [W St F] Hq Hlen. unfold wakeup_one. erewrite bind_Ok by (by apply myproc_settled).
  unfold wake1. set (me := c_proc (this_cpu (k_x s))).
  assert (s <| k_procs := <[q := proc_at s q]> (k_procs s) |> = s) as Hid.
  { unfold proc_at. rewrite list_insert_id; [by destruct s|].
    apply list_lookup_lookup_total_lt. lia. }
  case_bool_decide as E; [by rewrite Hid|].
  assert (lock_free (Lproc q) (k_x s)) as Fq by (apply F; [done|by intros ?]).
  erewrite bind_Ok by (by apply acquire_ok). unfold get_proc. rewrite bind_gets.
  change (proc_at (s <| k_x ::= acquired (Lproc q) |>) q) with (proc_at s q).
  destruct (bool_decide _ && bool_decide _); unfold when, upd_proc.
  - rewrite bind_modify. erewrite release_after; [|reflexivity|done|done].
    by rewrite St.
  - rewrite bind_ret. erewrite release_after; [|reflexivity|done|done].
    rewrite St, Hid. f_equal. by destruct s.
Qed.

Lemma wakeup_ok chan s e :
  wakeable (k_x s) → length (k_procs s) = NPROC →
  wakeup chan s e = Ok tt (s <| k_procs := wake chan (c_proc (this_cpu (k_x s))) (k_procs s) |>) e.
Proof.
  intros W Hlen. unfold wakeup. set (me := c_proc (this_cpu (k_x s))).
  set (ps := k_procs s). set (ws := wake chan me ps).
  assert (length ws = NPROC) as Hw by (unfold ws, wake; by rewrite length_imap).
  assert (∀ n i, (i + n = NPROC)%nat →
    for_each n i (wakeup_one chan) (s <| k_procs := take i ws ++ drop i ps |>) e =
      Ok tt (s <| k_procs := ws |>) e) as H.
  { induction n as [|n IH]; intros i Hi; cbn [for_each].
    - rewrite take_ge, drop_ge, app_nil_r by (rewrite ?Hw; fold ps in Hlen; lia). done.
    - set (s1 := s <| k_procs := take i ws ++ drop i ps |>).
      assert (length (take i ws) = i) as Hti by (rewrite length_take; lia).
      assert (length (k_procs s1) = NPROC) as Hl1.
      { simpl. rewrite length_app, length_drop. fold ps in Hlen. lia. }
      erewrite bind_Ok by (apply wakeup_one_ok; [exact W|lia|exact Hl1]).
      assert (<[i := wake1 chan me i (proc_at s1 i)]> (k_procs s1) = take (S i) ws ++ drop (S i) ps) as E.
      { destruct (lookup_lt_is_Some_2 ps i) as [pr Hpr]; [fold ps in Hlen; lia|].
        unfold s1, proc_at. simpl. rewrite lookup_total_app_r, Hti, Nat.sub_diag by lia.
        rewrite (drop_S ps pr i) by done. simpl. rewrite insert_app_r_alt, Hti, Nat.sub_diag by lia. simpl.
        rewrite (take_S_r ws i (wake1 chan me i pr)), <- app_assoc; [done|].
        unfold ws, wake. by rewrite list_lookup_imap, Hpr. }
      change (c_proc (this_cpu (k_x s1))) with me. rewrite E. apply (IH (S i)). lia. }
  rewrite <- (H NPROC 0%nat) by done. simpl. by destruct s.
Qed.

Lemma length_wake chan me ps : length (wake chan me ps) = length ps.
Proof. apply length_imap. Qed.

(** The caller itself is not touched. *)
Lemma wake_me chan me ps :
  wake chan (Some me) ps !!! me = ps !!! me.
Proof.
  unfold wake. destruct (decide (me < length ps)%nat) as [H|H].
  - destruct (lookup_lt_is_Some_2 ps me H) as [pr Hpr].
    rewrite (list_lookup_total_correct ps me pr Hpr). apply list_lookup_total_correct.
    rewrite list_lookup_imap, Hpr. simpl. unfold wake1. by rewrite bool_decide_true.
  - rewrite !list_lookup_total_alt, !lookup_ge_None_2; rewrite ?length_imap; try lia. done.
Qed.

(** ** killed *)

Lemma killed_ok p s e :
  xwf (k_x s) → settled (k_x s) → lock_free (Lproc p) (k_x s) →
  killed p s e = Ok (p_killed (proc_at s p)) s e.
Proof.
  intros W St F. unfold killed. erewrite bind_Ok by (by apply acquire_ok).
  unfold get_proc. rewrite bind_gets. erewrite bind_Ok by (by apply release_after).
  rewrite St. unfold mret, M_ret. f_equal. by destruct s.
Qed.

(** ** sleep *)

Definition with_intena (b : bool) (x : xstate) : xstate := with_cpu (set c_intena (λ _, b)) x.

(** Taking the process's lock and then giving up [lk] is the same as never
    having taken [lk]. *)
Lemma clear_twice v : Z.land (Z.land v (Z.lnot SSTATUS_SIE)) (Z.lnot SSTATUS_SIE) = Z.land v (Z.lnot SSTATUS_SIE).
Proof. by rewrite <- Z.land_assoc, Z.land_diag. Qed.

#[local] Transparent pushed popped acquired released.

(** A second [push_off], undone. *)
Lemma popped_pushed2 x : xwf x → popped (pushed (pushed x)) = pushed x.
Proof.
  intros W. assert (xwf (pushed x)) as W'.
  { pose proof (pushed_cpu x W) as Hc. destruct W as [H1 H2 H3]. split.
    - rewrite pushed_hart, pushed_len. done.
    - rewrite Hc. cbn. lia.
    - intros _. apply pushed_sie. }
  rewrite popped_pushed by done. apply settle_id. rewrite pushed_cpu by done. cbn. destruct W. lia.
Qed.

Lemma pushed_set_locks f x : pushed (x <| x_locks ::= f |>) = (pushed x) <| x_locks ::= f |>.
Proof. done. Qed.

Lemma released_swap lk lk' x :
  xwf x → lock_free lk x → lk ≠ lk' → released lk (acquired lk' (acquired lk x)) = acquired lk' x.
Proof.
  intros W [name Hl] N. unfold released, acquired, lock_at. rewrite pushed_set_locks. simpl.
  rewrite !lookup_insert_ne, !lookup_insert_eq by done. simpl.
  rewrite !popped_locks, popped_pushed2 by done. unfold set. simpl. f_equal.
  apply map_eq. intros k. rewrite !lookup_insert. repeat case_decide; subst; try done.
  by rewrite Hl.
Qed.

#[local] Opaque pushed popped acquired released.

Lemma acquired_hart lk x : hart (acquired lk x) = hart x.
Proof. reflexivity. Qed.

Lemma acquired_lock lk x :
  x_locks (acquired lk x) !! lk = Some (locked_by (hart x) (lock_at x lk)).
Proof. apply lookup_insert_eq. Qed.

Lemma acquired_proc lk x : xwf x → c_proc (this_cpu (acquired lk x)) = c_proc (this_cpu x).
Proof. intros W. by rewrite acquired_cpu, pushed_cpu. Qed.

Lemma acquired_sie lk x : sie_on (acquired lk x) = false.
Proof. apply pushed_sie. Qed.

Lemma acquired_settled lk x : xwf x → settled (acquired lk x).
Proof. intros W. apply settle_id. rewrite acquired_noff by done. destruct W. lia. Qed.

Lemma holding_acquired lk s e x :
  k_x s = acquired lk x → holding lk s e = Ok true s e.
Proof.
  intros Hx. unfold holding, get_lock, mycpu, cpuid, r_tp. mred. rewrite Hx, acquired_lock.
  change (Z.to_nat (i32 (x_tp (acquired lk x)))) with (hart (acquired lk x)).
  rewrite acquired_hart. unfold locked_by. simpl. by rewrite bool_decide_true.
Qed.

Lemma curproc_acquired lk s e x p :
  k_x s = acquired lk x → xwf x → c_proc (this_cpu x) = Some p → curproc s e = Ok p s e.
Proof.
  intros Hx W Hp. unfold curproc. erewrite bind_Ok.
  2:{ apply myproc_settled; rewrite Hx; [by apply xwf_acquired|by apply acquired_settled]. }
  by rewrite Hx, acquired_proc, Hp.
Qed.

(** What the scheduler and the rest of the machine must keep of this hart's
    state while a process is off the CPU: all but the interrupt flag saved by
    the process's [acquire], which [sched] restores. *)
Definition resumes (f : kstate → kstate) (s : kstate) (p : nat) (x : xstate) : Prop :=
  ∃ b, k_x (f s) = with_intena b (acquired (Lproc p) x).

Lemma restore_intena lk x b :
  xwf x → with_intena (c_intena (this_cpu (acquired lk x))) (with_intena b (acquired lk x)) = acquired lk x.
Proof.
  intros W. pose proof (xwf_acquired lk x W) as [Hh _ _]. unfold with_intena.
  rewrite with_cpu_compose by done. unfold with_cpu, set, this_cpu. cbn.
  set (y := acquired lk x) in *. clearbody y. destruct y as [tp st cs ls]. unfold hart in *. cbn in *. f_equal.
  assert (∀ c : cpu, mk_cpu (c_proc c) (c_context c) (c_noff c) (c_intena c) = c) as -> by (by intros []).
  apply insert_id_total.
Qed.

Lemma bind_mycpu {A} (k : nat → K A) s e : (mycpu ≫= k) s e = k (hart (k_x s)) s e.
Proof. reflexivity. Qed.

Lemma bind_intr_get {A} (k : bool → K A) s e : (intr_get ≫= k) s e = k (sie_on (k_x s)) s e.
Proof. reflexivity. Qed.

Lemma bind_get_cpu {A} (k : cpu → K A) s e :
  (get_cpu (hart (k_x s)) ≫= k) s e = k (this_cpu (k_x s)) s e.
Proof. reflexivity. Qed.

Lemma sched_ok s x p f e :
  k_x s = acquired (Lproc p) x → xwf x → c_noff (this_cpu x) = 0 → c_proc (this_cpu x) = Some p →
  p_state (proc_at s p) ≠ RUNNING → resumes f s p x →
  sched s (f :: e) = Ok tt ((f s) <| k_x := acquired (Lproc p) x |>) e.
Proof.
  intros Hx W Hn Hp Hst [b Hf]. unfold sched.
  erewrite bind_Ok by (by eapply curproc_acquired). erewrite bind_Ok by (by eapply holding_acquired).
  cbn [negb]. rewrite bind_mycpu, bind_get_cpu.
  assert (c_noff (this_cpu (k_x s)) = 1) as -> by (rewrite Hx, acquired_noff, Hn by done; done).
  cbn [Z.eqb Pos.eqb negb]. unfold get_proc. rewrite bind_gets, bool_decide_false by done.
  rewrite bind_intr_get. assert (sie_on (k_x s) = false) as -> by (rewrite Hx; apply acquired_sie).

  unfold swtch, interfere. erewrite bind_Ok by reflexivity. rewrite bind_mycpu. unfold upd_cpu, modify.
  f_equal. set (c := c_intena _).
  change ((f s) <| k_x ::= set x_cpus (λ l, <[hart (k_x (f s)) := set c_intena (λ _, c) (l !!! hart (k_x (f s)))]> l) |>)
    with ((f s) <| k_x ::= with_intena c |>).
  unfold set. rewrite Hf. subst c. rewrite Hx. by rewrite restore_intena.
Qed.

Lemma sched_stuck s x p :
  k_x s = acquired (Lproc p) x → xwf x → c_noff (this_cpu x) = 0 → c_proc (this_cpu x) = Some p →
  p_state (proc_at s p) ≠ RUNNING → sched s [] = Stuck s.
Proof.
  intros Hx W Hn Hp Hst. unfold sched.
  erewrite bind_Ok by (by eapply curproc_acquired). erewrite bind_Ok by (by eapply holding_acquired).
  cbn [negb]. rewrite bind_mycpu, bind_get_cpu.
  assert (c_noff (this_cpu (k_x s)) = 1) as -> by (rewrite Hx, acquired_noff, Hn by done; done).
  cbn [Z.eqb Pos.eqb negb]. unfold get_proc. rewrite bind_gets, bool_decide_false by done.
  rewrite bind_intr_get. assert (sie_on (k_x s) = false) as -> by (rewrite Hx; apply acquired_sie).
 done.
Qed.

(** Two updates of the same process. *)
Lemma upd_proc_twice {A} p f g s e (k : unit → K A) :
  (p < length (k_procs s))%nat →
  (upd_proc p f ≫= λ _, upd_proc p g ≫= k) s e =
    k tt (s <| k_procs := <[p := g (f (proc_at s p))]> (k_procs s) |>) e.
Proof.
  intros Hp. unfold upd_proc. rewrite !bind_modify. f_equal. unfold proc_at. simpl.
  rewrite list_lookup_total_insert_eq, list_insert_insert_eq by done. done.
Qed.

(** The state in which a sleeping process gave up the CPU. *)
Definition asleep (s : kstate) (x : xstate) (p : nat) (chan : channel) : kstate :=
  s <| k_procs := <[p := (proc_at s p) <| p_chan := Some chan |> <| p_state := SLEEPING |>]> (k_procs s) |>
    <| k_x := acquired (Lproc p) x |>.

(** The state in which a process can sleep: it holds [lk] and no other spin
    lock. *)
Record can_sleep (s : kstate) (x : xstate) (p : nat) (lk : lockid) : Prop := {
  csl_x : k_x s = acquired lk x;
  csl_wf : xwf x;
  csl_settled : settled x;
  csl_noff : c_noff (this_cpu x) = 0;
  csl_proc : c_proc (this_cpu x) = Some p;
  csl_len : (p < length (k_procs s))%nat;
  csl_lk : lock_free lk x;
  csl_plk : lock_free (Lproc p) x;
  csl_ne : lk ≠ Lproc p;
}.

Lemma sleep_enter s x p lk chan e {A} (k : K A) :
  can_sleep s x p lk →
  (acquire (Lproc p);; release lk;; upd_proc p (λ pr, pr <| p_chan := Some chan |>);;
   upd_proc p (λ pr, pr <| p_state := SLEEPING |>);; k) s e = k (asleep s x p chan) e.
Proof.
  intros [Hx W St Hn Hp Hlen Fl Fp N].
  assert (xwf (k_x s)) as Ws by (rewrite Hx; by apply xwf_acquired).
  erewrite bind_Ok by (apply acquire_ok; [done|rewrite Hx; by apply lock_free_acquired]).
  set (s1 := s <| k_x ::= acquired (Lproc p) |>).
  assert (k_x s1 = acquired (Lproc p) (acquired lk x)) as Hx1 by (unfold s1; simpl; by rewrite Hx).
  erewrite bind_Ok.
  2:{ apply (release_ok lk s1 _ (locked_by (hart x) (lock_at x lk))); rewrite ?Hx1.
      - by do 2 apply xwf_acquired.
      - rewrite !acquired_noff by (by try apply xwf_acquired). lia.
      - unfold acquired at 1. simpl. rewrite lookup_insert_ne by done. apply acquired_lock.
      - done.
      - by rewrite !acquired_hart. }
  rewrite upd_proc_twice by done. f_equal. unfold asleep, s1, proc_at, set. simpl.
  rewrite Hx, released_swap by done. by destruct s.
Qed.

Lemma sleep_ok s x p lk chan f e :
  can_sleep s x p lk → resumes f (asleep s x p chan) p x →
  let s2 := f (asleep s x p chan) in
  sleep chan lk s (f :: e) =
    Ok tt (s2 <| k_procs := <[p := (proc_at s2 p) <| p_chan := None |>]> (k_procs s2) |>
              <| k_x := acquired lk x |>) e.
Proof.
  intros Hc Hf s2. pose proof Hc as [Hx W St Hn Hp Hlen Fl Fp N]. unfold sleep.
  erewrite bind_Ok by (by eapply curproc_acquired). rewrite (sleep_enter s x p lk chan) by done.
  erewrite bind_Ok.
  2:{ apply (sched_ok _ x p); try done. unfold asleep, proc_at. simpl.
      by rewrite list_lookup_total_insert_eq. }
  fold s2. unfold upd_proc. rewrite bind_modify.
  erewrite bind_Ok by (apply (release_after (Lproc p) _ x); done).
  rewrite acquire_ok; simpl; rewrite St; done.
Qed.

(** With nothing left to happen, the process sleeps for ever. *)
Lemma sleep_stuck s x p lk chan :
  can_sleep s x p lk → sleep chan lk s [] = Stuck (asleep s x p chan).
Proof.
  intros Hc. pose proof Hc as [Hx W St Hn Hp Hlen Fl Fp N]. unfold sleep.
  erewrite bind_Ok by (by eapply curproc_acquired). rewrite (sleep_enter s x p lk chan) by done.
  unfold mbind, M_bind. rewrite (sched_stuck _ x p); try done. unfold asleep, proc_at. simpl.
  by rewrite list_lookup_total_insert_eq.
Qed.


(** ** The pause of a process

    The state of the hart across the pause of a process that sleeps for the disk
    (Device.v): the bookkeeping of the scheduler leaves it as it was. *)

#[local] Transparent pushed popped settle acquired released.

(** Interrupts disabled. *)
Definition cleared (x : xstate) : xstate := x <| x_sstatus ::= λ v, Z.land v (Z.lnot SSTATUS_SIE) |>.

(** No process on this CPU. *)
Definition idle (x : xstate) : xstate := with_cpu (set c_proc (λ _, None)) x.

Lemma clear_set v : Z.land (Z.lor v SSTATUS_SIE) (Z.lnot SSTATUS_SIE) = Z.land v (Z.lnot SSTATUS_SIE).
Proof.
  apply Z.bits_inj'. intros n Hn. rewrite !Z.land_spec, Z.lor_spec, Z.lnot_spec by done.
  by destruct (Z.testbit v n), (Z.testbit SSTATUS_SIE n).
Qed.

Lemma idle_locks x f : idle (x <| x_locks ::= f |>) = (idle x) <| x_locks ::= f |>.
Proof. reflexivity. Qed.

Lemma idle_pushed x : xwf x → idle (pushed x) = pushed (idle x).
Proof.
  intros [Hh _ _]. unfold idle, pushed. rewrite with_cpu_compose by done.
  unfold with_cpu at 1 2 3, set. cbn. destruct x as [tp st cs ls]. unfold hart in *. cbn in *. f_equal.
  by rewrite total_insert_eq, list_insert_insert_eq by done.
Qed.

Lemma idle_wf x : xwf x → xwf (idle x).
Proof.
  intros [H1 H2 H3]. assert (this_cpu (idle x) = (this_cpu x) <| c_proc := None |>) as E
    by (unfold idle; by rewrite this_cpu_with).
  split; rewrite ?E; try done. unfold idle, with_cpu. simpl. by rewrite length_insert.
Qed.

Lemma idle_settled x : xwf x → settled x → settled (idle x).
Proof.
  intros [Hh _ _] St. unfold settled in *. transitivity (idle (settle x)); [|by rewrite St].
  unfold idle, settle. rewrite !with_cpu_compose by done. reflexivity.
Qed.

(** Leaving the CPU, the scheduler releases the lock of the process. *)
Lemma idle_released lk x :
  xwf x → settled x → lock_free lk x → released lk (idle (acquired lk x)) = idle x.
Proof.
  intros W St [name Hl]. unfold released, acquired, lock_at. rewrite idle_locks. simpl.
  rewrite lookup_insert_eq. rewrite !popped_locks, idle_pushed by done.
  rewrite popped_pushed by (by apply idle_wf). rewrite (idle_settled x W St).
  unfold set. simpl. rewrite insert_insert_eq, Hl. simpl. rewrite insert_id by done. reflexivity.
Qed.

Lemma cleared_wf x : xwf x → xwf (cleared x).
Proof. intros [H1 H2 H3]. split; try done. intros _. unfold sie_on, cleared. simpl. by rewrite sie_cleared. Qed.

Lemma cleared_twice x : cleared (cleared x) = cleared x.
Proof. unfold cleared, set. cbn. by rewrite clear_twice. Qed.

(** Running again. *)
Lemma resumed p x :
  xwf x → c_noff (this_cpu x) = 0 → c_proc (this_cpu x) = Some p →
  with_cpu (set c_proc (λ _, Some p)) (acquired (Lproc p) (settle (cleared (idle x)))) =
  with_intena false (acquired (Lproc p) x).
Proof.
  intros [Hh _ _] Hn Hp. unfold acquired, with_intena.
  assert (pushed (settle (cleared (idle x))) =
    with_cpu (λ c, c <| c_proc := None |> <| c_intena := false |> <| c_noff := 1 |>) (cleared x)) as E1.
  { unfold pushed, settle, idle, cleared, sie_on, with_cpu, set, this_cpu in *. cbn.
    destruct x as [tp st cs ls]. unfold hart in *. cbn in *. rewrite clear_twice. f_equal.
    rewrite !total_insert_eq, !list_insert_insert_eq by (rewrite ?length_insert; done). cbn.
    rewrite sie_cleared, Hn. done. }
  assert (pushed x = with_cpu (λ c, c <| c_intena := sie_on x |> <| c_noff := 1 |>) (cleared x)) as E2.
  { unfold pushed, cleared, with_cpu, set, this_cpu in *. cbn. destruct x as [tp st cs ls].
    unfold hart in *. cbn in *. f_equal. by rewrite Hn. }
  rewrite E1, E2. unfold lock_at. destruct x as [tp st cs ls].
  unfold with_cpu, set, cleared, this_cpu, hart in *. cbn in *.
  rewrite !total_insert_eq, !list_insert_insert_eq by (rewrite ?length_insert; done). cbn.
  by rewrite Hp.
Qed.

#[local] Opaque pushed popped settle acquired released.
