(* ===== verification/SleepLock.v ===== *)
(** Sleep locks: kernel/sleeplock.c.

    A sleep lock is embedded in a buffer or in an in-memory inode; [slref]
    says in which, and gives the spin lock that protects it and the channel its
    waiters sleep on. *)

From S2P Require Export Sched.

Inductive slref := SLbuf (b : nat) | SLinode (i : nat).

Definition sl_get (r : slref) (s : kstate) : sleeplock :=
  match r with
  | SLbuf b => b_lock (buf_at s b)
  | SLinode i => i_lock (inode_at s i)
  end.

Definition sl_upd (r : slref) (f : sleeplock → sleeplock) : K unit :=
  match r with
  | SLbuf b => upd_buf b (set b_lock f)
  | SLinode i => upd_inode i (set i_lock f)
  end.

(** [&lk->lk] *)
Definition sl_lk (r : slref) : lockid :=
  match r with SLbuf b => Lbuf b | SLinode i => Linode i end.

(** the address of the sleep lock, as a channel *)
Definition sl_chan (r : slref) : channel :=
  match r with SLbuf b => ChBufLock b | SLinode i => ChInodeLock i end.

Definition initsleeplock (lk : slref) (name : string) : K unit :=
  initlock (sl_lk lk) "sleep lock";;
  sl_upd lk (λ l, l <| slk_name := name |>);;
  sl_upd lk (λ l, l <| slk_locked := 0 |>);;
  sl_upd lk (λ l, l <| slk_pid := 0 |>).

Definition acquiresleep (lk : slref) : K unit :=
  acquire (sl_lk lk);;
  wait_loop (
    l ← gets (sl_get lk);
    if negb (slk_locked l =? 0) then sleep (sl_chan lk) (sl_lk lk);; mret None
    else mret (Some ()));;
  sl_upd lk (λ l, l <| slk_locked := 1 |>);;
  p ← curproc;
  pr ← get_proc p;
  sl_upd lk (λ l, l <| slk_pid := p_pid pr |>);;
  release (sl_lk lk).

Definition releasesleep (lk : slref) : K unit :=
  acquire (sl_lk lk);;
  sl_upd lk (λ l, l <| slk_locked := 0 |>);;
  sl_upd lk (λ l, l <| slk_pid := 0 |>);;
  wakeup (sl_chan lk);;
  release (sl_lk lk).

Definition holdingsleep (lk : slref) : K bool :=
  acquire (sl_lk lk);;
  l ← gets (sl_get lk);
  r ← (if negb (slk_locked l =? 0) then
         p ← curproc;
         pr ← get_proc p;
         mret (slk_pid l =? p_pid pr)
       else mret false);
  release (sl_lk lk);;
  mret r.
