(* ===== verification/SleepSpec.v ===== *)
(** Sleep locks, as equations: [acquiresleep], [releasesleep] and [holdingsleep]
    of SleepLock.v in a process that holds no spin lock. *)

From S2P Require Export SchedSpec SleepLock.

(** The spin locks that exist from boot on. *)
Definition static_lock (lk : lockid) : Prop :=
  match lk with
  | Lproc i => (i < NPROC)%nat
  | Lbuf i => (i < NBUF)%nat
  | Linode i => (i < NINODE)%nat
  | Lpipe _ => False
  | _ => True
  end.

(** Process [p] runs in the kernel and no spin lock is held. *)
Record calm (s : kstate) (p : nat) : Prop := {
  ca_xwf : xwf (k_x s);
  ca_settled : settled (k_x s);
  ca_noff : c_noff (this_cpu (k_x s)) = 0;
  ca_proc : c_proc (this_cpu (k_x s)) = Some p;
  ca_p : (p < NPROC)%nat;
  ca_len : length (k_procs s) = NPROC;
  ca_run : p_state (proc_at s p) = RUNNING ∧ p_chan (proc_at s p) = None;
  ca_locks : ∀ lk, static_lock lk → lock_free lk (k_x s);
}.

(** Other processes may have been woken; [p] itself is the same. *)
Definition same_proc (p : nat) (ps ps' : list proc) : Prop :=
  length ps' = length ps ∧ ps' !!! p = ps !!! p.

Lemma same_proc_refl p ps : same_proc p ps ps.
Proof. done. Qed.
Lemma same_proc_trans p ps1 ps2 ps3 : same_proc p ps1 ps2 → same_proc p ps2 ps3 → same_proc p ps1 ps3.
Proof. intros [L1 E1] [L2 E2]. split; congruence. Qed.
Lemma same_proc_wake p chan ps : same_proc p ps (wake chan (Some p) ps).
Proof. split; [apply length_wake|apply wake_me]. Qed.

Lemma calm_procs s p ps' :
  calm s p → same_proc p (k_procs s) ps' → calm (s <| k_procs := ps' |>) p.
Proof.
  intros [H1 H2 H3 H4 H5 H6 H7 H8] [L E]. split; try done; simpl; [congruence|].
  unfold proc_at in *. simpl. by rewrite E.
Qed.

(** What the fields of the state that these functions do not read hold is
    irrelevant. *)
Lemma calm_ext s s' p :
  calm s p → k_x s' = k_x s → same_proc p (k_procs s) (k_procs s') → calm s' p.
Proof.
  intros [H1 H2 H3 H4 H5 H6 H7 H8] Hx [L E]. split; rewrite ?Hx; try done; [congruence|].
  unfold proc_at in *. by rewrite E.
Qed.

Lemma calm_curproc s p e : calm s p → curproc s e = Ok p s e.
Proof.
  intros [H1 H2 H3 H4 H5 H6 H7 H8]. unfold curproc. erewrite bind_Ok by (by apply myproc_settled).
  by rewrite H4.
Qed.

Lemma calm_acquire s p lk e :
  calm s p → static_lock lk → acquire lk s e = Ok tt (s <| k_x := acquired lk (k_x s) |>) e.
Proof. intros Hc Hlk. by rewrite acquire_ok by (by apply Hc). Qed.

(** Inside a section that [p] entered by taking [lk]. *)
Lemma calm_release s0 s p lk e :
  calm s0 p → static_lock lk → k_x s = acquired lk (k_x s0) →
  release lk s e = Ok tt (s <| k_x := k_x s0 |>) e.
Proof.
  intros Hc Hlk Hx. rewrite (release_after lk s (k_x s0)) by (done || by apply Hc).
  by rewrite (ca_settled _ _ Hc).
Qed.

Lemma calm_curproc_in s0 s p lk e :
  calm s0 p → k_x s = acquired lk (k_x s0) → curproc s e = Ok p s e.
Proof. intros Hc Hx. eapply curproc_acquired; [done|apply Hc|apply Hc]. Qed.

Lemma wakeable_acquired s p lk :
  calm s p → (∀ q, lk ≠ Lproc q) → wakeable (acquired lk (k_x s)).
Proof.
  intros Hc Hlk. split.
  - apply xwf_acquired, Hc.
  - apply acquired_settled, Hc.
  - intros q Hq _. apply lock_free_acquired; [by apply Hlk|]. by apply (ca_locks _ _ Hc).
Qed.

Lemma calm_wakeup s0 s p lk chan e :
  calm s0 p → (∀ q, lk ≠ Lproc q) → k_x s = acquired lk (k_x s0) → length (k_procs s) = NPROC →
  wakeup chan s e = Ok tt (s <| k_procs := wake chan (Some p) (k_procs s) |>) e.
Proof.
  intros Hc Hlk Hx Hlen. rewrite wakeup_ok; [|rewrite Hx; by eapply wakeable_acquired|done].
  rewrite Hx, acquired_proc by apply Hc. by rewrite (ca_proc _ _ Hc).
Qed.

(** ** Sleep locks of buffers *)

Section bufs.
Context (s : kstate) (p b : nat).

Let l := b_lock (buf_at s b).

Lemma holdingsleep_ok e :
  calm s p → (b < NBUF)%nat →
  holdingsleep (SLbuf b) s e =
    Ok (negb (slk_locked l =? 0) && (slk_pid l =? p_pid (proc_at s p))) s e.
Proof.
  intros Hc Hb. unfold holdingsleep. simpl sl_lk.
  erewrite bind_Ok by (by eapply (calm_acquire s p (Lbuf b))). rewrite bind_gets.
  set (s1 := s <| k_x := acquired (Lbuf b) (k_x s) |>). change (sl_get (SLbuf b) s1) with l.
  assert (s1 <| k_x := k_x s |> = s) as Hs by (by destruct s).
  destruct (slk_locked l =? 0); cbn [negb andb].
  - rewrite bind_ret. erewrite bind_Ok by (by apply (calm_release s s1 p)). by rewrite Hs.
  - rewrite bind_assoc. erewrite bind_Ok by (by eapply (calm_curproc_in s)).
    unfold get_proc. rewrite bind_assoc, bind_gets, bind_ret.
    erewrite bind_Ok by (by apply (calm_release s s1 p)). by rewrite Hs.
Qed.

(** Taking a free one. *)
Definition slept_lock (pid : Z) (bf : buf) : buf :=
  bf <| b_lock ::= λ l, l <| slk_locked := 1 |> <| slk_pid := pid |> |>.

Lemma acquiresleep_ok e :
  calm s p → (b < NBUF)%nat → (b < length (k_bufs s))%nat → slk_locked l = 0 →
  acquiresleep (SLbuf b) s e =
    Ok tt (s <| k_bufs := <[b := slept_lock (p_pid (proc_at s p)) (buf_at s b)]> (k_bufs s) |>) e.
Proof.
  intros Hc Hb Hlen H0. unfold acquiresleep. simpl sl_lk.
  erewrite bind_Ok by (by eapply (calm_acquire s p (Lbuf b))).
  set (s1 := s <| k_x := acquired (Lbuf b) (k_x s) |>).
  erewrite bind_Ok.
  2:{ apply wait_loop_now. rewrite bind_gets. change (sl_get (SLbuf b) s1) with l. by rewrite H0. }
  unfold sl_upd, upd_buf. rewrite bind_modify.
  erewrite bind_Ok by (by eapply (calm_curproc_in s)).
  unfold get_proc. rewrite bind_gets, bind_modify.
  erewrite (calm_release s) by done. f_equal. unfold s1, buf_at. simpl.
  rewrite list_lookup_total_insert_eq, list_insert_insert_eq by done. by destruct s.
Qed.

Definition unlocked (bf : buf) : buf :=
  bf <| b_lock ::= λ l, l <| slk_locked := 0 |> <| slk_pid := 0 |> |>.

Lemma releasesleep_ok e :
  calm s p → (b < NBUF)%nat → (b < length (k_bufs s))%nat →
  releasesleep (SLbuf b) s e =
    Ok tt (s <| k_bufs := <[b := unlocked (buf_at s b)]> (k_bufs s) |>
             <| k_procs := wake (ChBufLock b) (Some p) (k_procs s) |>) e.
Proof.
  intros Hc Hb Hlen. unfold releasesleep. simpl sl_lk. simpl sl_chan.
  erewrite bind_Ok by (by eapply (calm_acquire s p (Lbuf b))).
  unfold sl_upd, upd_buf. rewrite !bind_modify.
  erewrite bind_Ok by (apply (calm_wakeup s _ p (Lbuf b)); [done|done|done|by apply Hc]).
  erewrite (calm_release s) by done. f_equal. unfold buf_at. simpl.
  rewrite list_lookup_total_insert_eq, list_insert_insert_eq by done. by destruct s.
Qed.

End bufs.

(** ** A machine in which process 0 runs *)

Definition static_locks : list lockid :=
  [Lkmem; Lbcache; Llog; Litable; Lftable; Lpid; Lwait; Lcons; Ltx; Lticks; Lpr; Lvdisk] ++
  (Lproc <$> seq 0 NPROC) ++ (Lbuf <$> seq 0 NBUF) ++ (Linode <$> seq 0 NINODE).

Definition quiet_locks : gmap lockid spinlock :=
  gset_to_gmap (mk_spinlock 0 "" None) (list_to_set static_locks).

Definition quiet : kstate :=
  kstate0 <| k_x := x0 <| x_cpus ::= <[0%nat := inhabitant <| c_proc := Some 0%nat |>]> |>
                       <| x_locks := quiet_locks |> |>
          <| k_procs ::= <[0%nat := proc0 <| p_state := RUNNING |>]> |>.

Lemma elem_static lk : static_lock lk → lk ∈ static_locks.
Proof.
  unfold static_locks. rewrite !elem_of_app, !list_elem_of_fmap. setoid_rewrite elem_of_seq.
  destruct lk; simpl; try (by intros _; left; set_solver); intros H; [| | |done].
  - right. left. exists i. split; [done|lia].
  - do 2 right. left. exists i. split; [done|lia].
  - do 3 right. exists i. split; [done|lia].
Qed.

Lemma quiet_calm : calm quiet 0.
Proof.
  split; try done.
  - split; vm_compute; (lia || discriminate).
  - change NPROC with 64%nat. lia.
  - intros lk H. exists "". change (quiet_locks !! lk = Some (mk_spinlock 0 "" None)).
    apply lookup_gset_to_gmap_Some. split; [|done]. by apply elem_of_list_to_set, elem_static.
Qed.

(** ** Properties *)

(** C22: [wakeup] wakes exactly the processes that sleep on the channel.  Called
    with no process lock held but the caller's own, it makes every other process
    that is [SLEEPING] on [chan] [RUNNABLE] and changes nothing else. *)
Theorem wakeup_wakes (chan : channel) (s : kstate) (e : list (kstate → kstate)) :
  wakeable (k_x s) → length (k_procs s) = NPROC →
  ∃ ps, wakeup chan s e = Ok tt (s <| k_procs := ps |>) e ∧ length ps = NPROC ∧
    ∀ q, (q < NPROC)%nat →
      ps !!! q = if bool_decide (c_proc (this_cpu (k_x s)) ≠ Some q ∧ p_state (proc_at s q) = SLEEPING ∧
                                  p_chan (proc_at s q) = Some chan)
                 then (proc_at s q) <| p_state := RUNNABLE |> else proc_at s q.
Proof.
  intros W Hlen. exists (wake chan (c_proc (this_cpu (k_x s))) (k_procs s)).
  split; [by apply wakeup_ok|]. split; [by rewrite length_wake|]. intros q Hq.
  unfold wake. rewrite list_lookup_total_alt, list_lookup_imap, (list_lookup_lookup_total_lt (k_procs s)) by lia.
  simpl. fold (proc_at s q). unfold wake1.
  destruct (decide (Some q = c_proc (this_cpu (k_x s)))) as [E|N].
  - rewrite !bool_decide_true by done. rewrite bool_decide_false; [done|]. rewrite E. by intros [? _].
  - rewrite (bool_decide_false (Some q = _)) by done.
    destruct (decide (p_state (proc_at s q) = SLEEPING ∧ p_chan (proc_at s q) = Some chan)) as [[E1 E2]|N2].
    + by rewrite !bool_decide_true.
    + rewrite (bool_decide_false (_ ∧ _)) by (intros [_ ?]; done).
      destruct (bool_decide (p_state _ = _)) eqn:B1, (bool_decide (p_chan _ = _)) eqn:B2; try done.
      apply bool_decide_eq_true in B1, B2. by destruct N2.
Qed.


(** Process 0 holds the log's lock; process 1 sleeps on the log. *)
Definition napping : kstate :=
  quiet <| k_procs ::= <[1%nat := proc0 <| p_state := SLEEPING |> <| p_chan := Some ChLog |>]> |>.

Lemma napping_wakeable : wakeable (k_x napping).
Proof.
  destruct quiet_calm as [H1 H2 H3 H4 H5 H6 H7 H8]. split; [done|done|]. intros q Hq _. by apply H8.
Qed.

Lemma wakeup_wakes_witness :
  ∃ ps, wakeup ChLog napping [] = Ok tt (napping <| k_procs := ps |>) [] ∧ length ps = NPROC ∧
    ∀ q, (q < NPROC)%nat →
      ps !!! q = if bool_decide (c_proc (this_cpu (k_x napping)) ≠ Some q ∧ p_state (proc_at napping q) = SLEEPING ∧
                                  p_chan (proc_at napping q) = Some ChLog)
                 then (proc_at napping q) <| p_state := RUNNABLE |> else proc_at napping q.
Proof. apply (wakeup_wakes ChLog napping []); [apply napping_wakeable|reflexivity]. Defined.

