(* ===== verification/Uart.v ===== *)
(** The UART driver: kernel/uart.c, except [uartintr], which calls the console
    and is modelled with it.

    The transmitter's idle bit and the received bytes belong to the device: they
    are part of the state and change by moves of the rest of the machine. *)

From S2P Require Export Sched.

Definition RHR : Z := 0.
Definition THR : Z := 0.
Definition IER : Z := 1.
Definition IER_RX_ENABLE : Z := Z.shiftl 1 0.
Definition IER_TX_ENABLE : Z := Z.shiftl 1 1.
Definition FCR : Z := 2.
Definition FCR_FIFO_ENABLE : Z := Z.shiftl 1 0.
Definition FCR_FIFO_CLEAR : Z := Z.shiftl 3 1.
Definition ISR : Z := 2.
Definition LCR : Z := 3.
Definition LCR_EIGHT_BITS : Z := Z.shiftl 3 0.
Definition LCR_BAUD_LATCH : Z := Z.shiftl 1 7.
Definition LSR : Z := 5.
Definition LSR_RX_READY : Z := Z.shiftl 1 0.
Definition LSR_TX_IDLE : Z := Z.shiftl 1 5.

Definition upd_uart (f : uart_t → uart_t) : K unit := modify (λ s, s <| k_uart ::= f |>).

(** [WriteReg(reg, v)] for the control registers. *)
Definition write_ctl (reg v : Z) : K unit :=
  upd_uart (λ u, u <| u_ctl ::= λ l, l ++ [(reg, u8 v)] |>).

(** [WriteReg(THR, c)] *)
Definition write_thr (c : Z) : K unit :=
  upd_uart (λ u, u <| u_out ::= λ l, l ++ [u8 c] |>).

(** [ReadReg(LSR)] *)
Definition read_lsr : K Z :=
  u ← gets k_uart;
  mret (Z.lor (if bool_decide (u_in u = []) then 0 else LSR_RX_READY)
              (if u_idle u then LSR_TX_IDLE else 0)).

(** [ReadReg(RHR)] takes the oldest received byte. *)
Definition read_rhr : K Z :=
  u ← gets k_uart;
  upd_uart (λ u, u <| u_in ::= tl |>);;
  mret (char_at (u_in u)).

Definition uartinit : K unit :=
  write_ctl IER 0;;
  write_ctl LCR LCR_BAUD_LATCH;;
  write_ctl 0 3;;
  write_ctl 1 0;;
  write_ctl LCR LCR_EIGHT_BITS;;
  write_ctl FCR (Z.lor FCR_FIFO_ENABLE FCR_FIFO_CLEAR);;
  write_ctl IER (Z.lor IER_TX_ENABLE IER_RX_ENABLE);;
  initlock Ltx "uart".

(** The rest of [uartwrite]'s loop, for the bytes not yet written. *)
Fixpoint uartwrite_loop (buf : list Z) : K unit :=
  match buf with
  | [] => mret ()
  | c :: buf' =>
      wait_loop (
        u ← gets k_uart;
        if negb (u_tx_busy u =? 0) then sleep ChTx Ltx;; mret None
        else mret (Some ()));;
      write_thr c;;
      upd_uart (λ u, u <| u_tx_busy := 1 |>);;
      uartwrite_loop buf'
  end.

Definition uartwrite (buf : list Z) : K unit :=
  acquire Ltx;;
  uartwrite_loop buf;;
  release Ltx.

Definition uartputc_sync (c : Z) : K unit :=
  u ← gets k_uart;
  when (u_panicking u =? 0) push_off;;
  if negb (u_panicked u =? 0) then stuck else
  wait_loop (
    lsr ← read_lsr;
    if Z.land lsr LSR_TX_IDLE =? 0 then interfere;; mret None else mret (Some ()));;
  write_thr c;;
  u ← gets k_uart;
  when (u_panicking u =? 0) pop_off.

Definition uartgetc : K Z :=
  lsr ← read_lsr;
  if negb (Z.land lsr LSR_RX_READY =? 0) then read_rhr else mret (-1).
