(* ===== verification/Printf.v ===== *)
(** Formatted console output: kernel/printf.c, and [consputc] of
    kernel/console.c. *)

From S2P Require Export Uart.

Definition BACKSPACE : Z := 256.

Definition consputc (c : Z) : K unit :=
  if c =? BACKSPACE then
    uartputc_sync 8;; uartputc_sync 32;; uartputc_sync 8
  else uartputc_sync c.

Definition digits : list Z := bytes_of "0123456789abcdef".

(** The [do ... while] loop of [printint]: the digits of [x], least significant
    first.  A 64-bit value has at most 64 digits in any base. *)
Fixpoint int_digits (fuel : nat) (ds : list Z) (x base : Z) : list Z :=
  match fuel with
  | O => []
  | S fuel' =>
      ds !!! Z.to_nat (x mod base) ::
      (if x / base =? 0 then [] else int_digits fuel' ds (x / base) base)
  end.

(** The contents of [buf[0..i)] when [printint] starts printing. *)
Definition printint_buf (ds : list Z) (xx base : Z) (sign : bool) : list Z :=
  let neg := sign && (xx <? 0) in
  let x := if neg then u64 (- xx) else u64 xx in
  int_digits 64 ds x base ++ (if neg then [45] else []).

(** [for(...) consputc(...)] over a list of characters. *)
Fixpoint put_all (l : list Z) : K unit :=
  match l with
  | [] => mret ()
  | c :: l' => consputc c;; put_all l'
  end.

Definition printint (xx base : Z) (sign : bool) : K unit :=
  put_all (reverse (printint_buf digits xx base sign)).

(** The sixteen hexadecimal digits of a pointer, most significant first. *)
Fixpoint ptr_digits (n : nat) (ds : list Z) (x : Z) : list Z :=
  match n with
  | O => []
  | S n' => ds !!! Z.to_nat (Z.shiftr x 60) :: ptr_digits n' ds (u64 (Z.shiftl x 4))
  end.

Definition printptr (x : Z) : K unit :=
  consputc 48;;
  consputc 120;;
  put_all (ptr_digits 16 digits x).

(** Variable arguments: a machine word, a string, or a null [char *]. *)
Inductive varg := VWord (z : Z) | VStr (s : list Z) | VNull.

Definition va_word (ap : list varg) : Z :=
  match ap with VWord z :: _ => z | _ => 0 end.
Definition va_str (ap : list varg) : list Z :=
  match ap with VStr s :: _ => cstr s | _ => bytes_of "(null)" end.

Definition ch (s : string) : Z := char_at (bytes_of s).

(** One directive after a ['%']: what it prints, how many more format characters
    it takes, and the arguments left; [None] ends the format. *)
Definition directive (f : list Z) (ap : list varg) : K (option (nat * list varg)) :=
  let c0 := char_at f in
  let c1 := if c0 =? 0 then 0 else char_at (tl f) in
  let c2 := if c1 =? 0 then 0 else char_at (tl (tl f)) in
  let w := va_word ap in
  let done (m : K unit) (n : nat) := m;; mret (Some (n, tl ap)) in
  if c0 =? ch "d" then done (printint (i32 w) 10 true) 0%nat
  else if (c0 =? ch "l") && (c1 =? ch "d") then done (printint (i64 w) 10 true) 1%nat
  else if (c0 =? ch "l") && (c1 =? ch "l") && (c2 =? ch "d") then
    done (printint (i64 w) 10 true) 2%nat
  else if c0 =? ch "u" then done (printint (u32 w) 10 false) 0%nat
  else if (c0 =? ch "l") && (c1 =? ch "u") then done (printint (i64 w) 10 false) 1%nat
  else if (c0 =? ch "l") && (c1 =? ch "l") && (c2 =? ch "u") then
    done (printint (i64 w) 10 false) 2%nat
  else if c0 =? ch "x" then done (printint (u32 w) 16 false) 0%nat
  else if (c0 =? ch "l") && (c1 =? ch "x") then done (printint (i64 w) 16 false) 1%nat
  else if (c0 =? ch "l") && (c1 =? ch "l") && (c2 =? ch "x") then
    done (printint (i64 w) 16 false) 2%nat
  else if c0 =? ch "p" then done (printptr (u64 w)) 0%nat
  else if c0 =? ch "c" then done (consputc (i32 w)) 0%nat
  else if c0 =? ch "s" then done (put_all (va_str ap)) 0%nat
  else if c0 =? ch "%" then consputc (ch "%");; mret (Some (0%nat, ap))
  else if c0 =? 0 then mret None
  else consputc (ch "%");; consputc c0;; mret (Some (0%nat, ap)).

(** The loop of [printf] from the format suffix [f]; every round consumes a
    character. *)
Fixpoint printf_loop (fuel : nat) (f : list Z) (ap : list varg) : K unit :=
  match fuel with
  | O => mret ()
  | S fuel' =>
      let cx := char_at f in
      if cx =? 0 then mret () else
      if negb (cx =? ch "%") then consputc cx;; printf_loop fuel' (tl f) ap else
      r ← directive (tl f) ap;
      match r with
      | None => mret ()
      | Some (n, ap') => printf_loop fuel' (drop (S n) (tl f)) ap'
      end
  end.

Definition printf (fmt : string) (ap : list varg) : K Z :=
  let f := bytes_of fmt in
  u ← gets k_uart;
  when (u_panicking u =? 0) (acquire Lpr);;
  printf_loop (S (length f)) f ap;;
  u ← gets k_uart;
  when (u_panicking u =? 0) (release Lpr);;
  mret 0.

(** The newline character, as a string literal. *)
Definition nl : string := String (Ascii.ascii_of_nat 10) EmptyString.

(** The kernel's [panic], whose effect elsewhere is the outcome [Panic]. *)
Definition kpanic (s : string) : K unit :=
  upd_uart (λ u, u <| u_panicking := 1 |>);;
  printf "panic: " [];;
  printf ("%s" +:+ nl) [VStr (bytes_of s)];;
  upd_uart (λ u, u <| u_panicked := 1 |>);;
  stuck.

Definition printfinit : K unit := initlock Lpr "pr".
