(* ===== verification/PrintfSpec.v ===== *)
(** What [printf] of Printf.v prints: the characters of [format], a pure
    function of the format string and the arguments; and what [printint] writes
    into its buffer: the digits of the number, which always fit. *)

From S2P Require Export SleepSpec Printf.

(** ** Characters *)

(** What [consputc] sends. *)
Definition cons_out (c : Z) : list Z := if c =? BACKSPACE then [8; 32; 8] else [u8 c].

Definition emit (out : list Z) (s : kstate) : kstate :=
  s <| k_uart ::= λ u, u <| u_out ::= λ l, l ++ out |> |>.

(** The transmitter is idle and no panic was reported. *)
Record can_print (s : kstate) : Prop := {
  cp_idle : u_idle (k_uart s) = true;
  cp_panicking : u_panicking (k_uart s) = 0;
  cp_panicked : u_panicked (k_uart s) = 0;
  cp_xwf : xwf (k_x s);
  cp_settled : settled (k_x s);
}.

Lemma can_print_emit s out : can_print s → can_print (emit out s).
Proof. by intros [H1 H2 H3 H4 H5]. Qed.

Lemma emit_app s o1 o2 : emit o2 (emit o1 s) = emit (o1 ++ o2) s.
Proof. unfold emit, set. destruct s as []. simpl. destruct k_uart. simpl. by rewrite app_assoc. Qed.

Lemma emit_nil s : emit [] s = s.
Proof. unfold emit, set. destruct s as []. simpl. destruct k_uart. simpl. by rewrite app_nil_r. Qed.

Lemma uartputc_ok s c e : can_print s → uartputc_sync c s e = Ok tt (emit [u8 c] s) e.
Proof.
  intros [H1 H2 H3 H4 H5]. unfold uartputc_sync. rewrite bind_gets, H2. cbn [Z.eqb when].
  erewrite bind_Ok by (apply push_off_ok, H4). rewrite H3. cbn [Z.eqb negb].
  erewrite bind_Ok.
  2:{ apply wait_loop_now. unfold read_lsr. rewrite bind_assoc, bind_gets, bind_ret. simpl. rewrite H1.
      by destruct (bool_decide _). }
  unfold write_thr, upd_uart. rewrite bind_modify, bind_gets. simpl. rewrite H2. cbn [Z.eqb].
  pose proof (pushed_cpu (k_x s) H4) as Hp. destruct H4 as [W1 W2 W3].
  rewrite pop_off_ok; simpl.
  - f_equal. unfold set. simpl. rewrite popped_pushed by done. rewrite H5. unfold emit, set. by destruct s.
  - by rewrite pushed_hart, pushed_len.
  - apply pushed_sie.
  - rewrite Hp. simpl. lia.
Qed.

Lemma consputc_ok s c e : can_print s → consputc c s e = Ok tt (emit (cons_out c) s) e.
Proof.
  intros H. unfold consputc, cons_out. destruct (c =? BACKSPACE); [|by apply uartputc_ok].
  erewrite bind_Ok by (by apply uartputc_ok). erewrite bind_Ok by (by apply uartputc_ok, can_print_emit).
  rewrite uartputc_ok by (by do 2 apply can_print_emit). by rewrite !emit_app.
Qed.

Lemma put_all_ok l s e : can_print s → put_all l s e = Ok tt (emit (l ≫= cons_out) s) e.
Proof.
  revert s. induction l as [|c l IH]; intros s H; cbn [put_all]; [unfold mret, M_ret; simpl; by rewrite emit_nil|].
  erewrite bind_Ok by (by apply consputc_ok). rewrite IH by (by apply can_print_emit). by rewrite emit_app.
Qed.

(** ** Formats *)

(** The digits [ds] are the kernel's, or those of the user library. *)
Definition int_out (ds : list Z) (xx base : Z) (sign : bool) : list Z := reverse (printint_buf ds xx base sign).

(** The characters of one directive, how many more format characters it takes,
    and the arguments left. *)
Definition fdirective (ds f : list Z) (ap : list varg) : list Z * option (nat * list varg) :=
  let c0 := char_at f in
  let c1 := if c0 =? 0 then 0 else char_at (tl f) in
  let c2 := if c1 =? 0 then 0 else char_at (tl (tl f)) in
  let w := va_word ap in
  let arg (out : list Z) (n : nat) := (out, Some (n, tl ap)) in
  if c0 =? ch "d" then arg (int_out ds (i32 w) 10 true) 0%nat
  else if (c0 =? ch "l") && (c1 =? ch "d") then arg (int_out ds (i64 w) 10 true) 1%nat
  else if (c0 =? ch "l") && (c1 =? ch "l") && (c2 =? ch "d") then arg (int_out ds (i64 w) 10 true) 2%nat
  else if c0 =? ch "u" then arg (int_out ds (u32 w) 10 false) 0%nat
  else if (c0 =? ch "l") && (c1 =? ch "u") then arg (int_out ds (i64 w) 10 false) 1%nat
  else if (c0 =? ch "l") && (c1 =? ch "l") && (c2 =? ch "u") then arg (int_out ds (i64 w) 10 false) 2%nat
  else if c0 =? ch "x" then arg (int_out ds (u32 w) 16 false) 0%nat
  else if (c0 =? ch "l") && (c1 =? ch "x") then arg (int_out ds (i64 w) 16 false) 1%nat
  else if (c0 =? ch "l") && (c1 =? ch "l") && (c2 =? ch "x") then arg (int_out ds (i64 w) 16 false) 2%nat
  else if c0 =? ch "p" then arg ([48; 120] ++ ptr_digits 16 ds (u64 w)) 0%nat
  else if c0 =? ch "c" then arg [i32 w] 0%nat
  else if c0 =? ch "s" then arg (va_str ap) 0%nat
  else if c0 =? ch "%" then ([ch "%"], Some (0%nat, ap))
  else if c0 =? 0 then ([], None)
  else ([ch "%"; c0], Some (0%nat, ap)).

Fixpoint format (ds : list Z) (fuel : nat) (f : list Z) (ap : list varg) : list Z :=
  match fuel with
  | O => []
  | S fuel' =>
      let cx := char_at f in
      if cx =? 0 then [] else
      if negb (cx =? ch "%") then cx :: format ds fuel' (tl f) ap else
      let '(out, r) := fdirective ds (tl f) ap in
      out ++ match r with None => [] | Some (n, ap') => format ds fuel' (drop (S n) (tl f)) ap' end
  end.

Lemma put_some {A} l (a : A) s e :
  can_print s → (put_all l;; mret a) s e = Ok a (emit (l ≫= cons_out) s) e.
Proof. intros H. by erewrite bind_Ok by (by apply put_all_ok). Qed.

Lemma printptr_ok x s e :
  can_print s → printptr x s e = Ok tt (emit (([48; 120] ++ ptr_digits 16 digits x) ≫= cons_out) s) e.
Proof. apply (put_all_ok ([48; 120] ++ ptr_digits 16 digits x)). Qed.

Lemma directive_ok f ap s e :
  can_print s →
  directive f ap s e = Ok (fdirective digits f ap).2 (emit ((fdirective digits f ap).1 ≫= cons_out) s) e.
Proof.
  intros H. unfold directive, fdirective.
  repeat match goal with |- context [if ?c then _ else _] =>
    match goal with |- (if c then _ else _) _ _ = _ => destruct c end end.
  all: try (by apply put_some).
  - by erewrite bind_Ok by (by apply printptr_ok).
  - erewrite bind_Ok by (by apply consputc_ok). simpl. by rewrite app_nil_r.
  - by erewrite bind_Ok by (by apply consputc_ok).
  - simpl. by rewrite emit_nil.
  - erewrite bind_Ok by (by apply consputc_ok). erewrite bind_Ok by (by apply consputc_ok, can_print_emit).
    rewrite emit_app. simpl. by rewrite app_nil_r.
Qed.

Lemma printf_loop_ok fuel f ap s e :
  can_print s → printf_loop fuel f ap s e = Ok tt (emit (format digits fuel f ap ≫= cons_out) s) e.
Proof.
  revert f ap s. induction fuel as [|fuel IH]; intros f ap s H; cbn [printf_loop format].
  { simpl. by rewrite emit_nil. }
  destruct (char_at f =? 0); [simpl; by rewrite emit_nil|].
  destruct (negb (char_at f =? ch "%")).
  - erewrite bind_Ok by (by apply consputc_ok). rewrite IH by (by apply can_print_emit). by rewrite emit_app.
  - erewrite bind_Ok by (by apply directive_ok). destruct (fdirective digits (tl f) ap) as [out [[n ap']|]]; simpl.
    + rewrite IH by (by apply can_print_emit). by rewrite emit_app, bind_app.
    + by rewrite app_nil_r.
Qed.

(** The bytes that reach the UART. *)
Definition printed (fmt : string) (ap : list varg) : list Z :=
  format digits (S (length (bytes_of fmt))) (bytes_of fmt) ap ≫= cons_out.

Lemma printf_ok fmt ap s e :
  can_print s → lock_free Lpr (k_x s) → printf fmt ap s e = Ok 0 (emit (printed fmt ap) s) e.
Proof.
  intros H F. pose proof H as [H1 H2 H3 H4 H5]. unfold printf. rewrite bind_gets, H2. cbn [Z.eqb when].
  erewrite bind_Ok by (by apply acquire_ok). set (s1 := s <| k_x ::= acquired Lpr |>).
  assert (can_print s1) as Hp1.
  { split; try done; simpl; [by apply xwf_acquired|by apply acquired_settled]. }
  erewrite bind_Ok by (by apply printf_loop_ok). fold (printed fmt ap). rewrite bind_gets.
  change (u_panicking (k_uart (emit _ s1))) with (u_panicking (k_uart s)). rewrite H2. cbn [Z.eqb].
  erewrite bind_Ok by (by apply (release_after Lpr _ (k_x s))).
  unfold mret, M_ret. rewrite H5. f_equal.
Qed.

(** ** Numbers *)

(** Reading a number back: the value of a digit, of digits least significant
    first, and of the contents of the buffer of [printint]. *)
Definition digit_val (c : Z) : Z := if c <? 58 then c - 48 else c - 87.
Definition digits_val (base : Z) (l : list Z) : Z := foldr (λ c v, digit_val c + base * v) 0 l.
Definition buf_val (base : Z) (l : list Z) : Z :=
  match reverse l with
  | c :: l' => if c =? 45 then - digits_val base (reverse l') else digits_val base l
  | [] => 0
  end.

Lemma digit_at v : 0 <= v < 16 → digit_val (digits !!! Z.to_nat v) = v ∧ digits !!! Z.to_nat v ≠ 45.
Proof.
  intros Hv. assert (∀ n, (n < 16)%nat →
    digit_val (digits !!! n) = Z.of_nat n ∧ digits !!! n ≠ 45) as H.
  { intros n Hn. do 16 (destruct n as [|n]; [by vm_compute|]). lia. }
  rewrite <- (Z2Nat.id v) at 2 by lia. apply H. lia.
Qed.

Lemma int_digits_val fuel x base :
  2 <= base <= 16 → 0 <= x < base ^ Z.of_nat fuel → (0 < fuel)%nat →
  digits_val base (int_digits fuel digits x base) = x ∧
  Forall (λ c, c ≠ 45) (int_digits fuel digits x base).
Proof.
  revert x. induction fuel as [|fuel IH]; intros x Hb Hx Hf; [lia|]. cbn [int_digits].
  pose proof (Z.mod_pos_bound x base) as Hm. pose proof (Z.div_mod x base) as Hd.
  destruct (digit_at (x mod base)) as [D1 D2]; [lia|].
  destruct (x / base =? 0) eqn:E.
  - apply Z.eqb_eq in E. simpl. rewrite D1. split; [lia|]. by repeat constructor.
  - apply Z.eqb_neq in E. rewrite Nat2Z.inj_succ, Z.pow_succ_r in Hx by lia.
    assert (0 <= x / base < base ^ Z.of_nat fuel) as Hq.
    { split; [apply Z.div_pos; lia|]. apply Z.div_lt_upper_bound; lia. }
    destruct fuel as [|fuel]; [simpl in Hq; lia|].
    destruct (IH (x / base)) as [I1 I2]; [done|done|lia|]. simpl digits_val. simpl in I1. rewrite D1, I1.
    split; [lia|]. by constructor.
Qed.

Lemma length_int_digits fuel x base k :
  2 <= base → 0 <= x < base ^ Z.of_nat k → (0 < k)%nat → (length (int_digits fuel digits x base) <= k)%nat.
Proof.
  revert x k. induction fuel as [|fuel IH]; intros x k Hb Hx Hk; cbn [int_digits length]; [lia|].
  destruct (x / base =? 0) eqn:E; [simpl; lia|]. apply Z.eqb_neq in E.
  destruct k as [|k]; [lia|]. rewrite Nat2Z.inj_succ, Z.pow_succ_r in Hx by lia.
  assert (0 <= x / base < base ^ Z.of_nat k) as Hq.
  { split; [apply Z.div_pos; lia|]. apply Z.div_lt_upper_bound; lia. }
  destruct k as [|k]; [simpl in Hq; lia|]. pose proof (IH (x / base) (S k) Hb Hq). lia.
Qed.

(** [printint] never overruns its 20-byte buffer, and the characters it puts
    there are the number: reading them back gives [xx], or [xx] as a 64-bit
    unsigned number when [sign] is 0, for both bases that [printf] uses. *)
Theorem printint_fits (xx base : Z) (sign : bool) :
  base = 10 ∨ base = 16 → - 2 ^ 63 <= xx < 2 ^ 63 →
  (length (printint_buf digits xx base sign) <= 20)%nat ∧
  buf_val base (printint_buf digits xx base sign) = if sign then xx else u64 xx.
Proof.
  intros Hbase Hxx. change (2 ^ 63) with 9223372036854775808 in Hxx. unfold printint_buf.
  set (neg := sign && (xx <? 0)). set (x := if neg then u64 (- xx) else u64 xx).
  assert (0 <= x < 2 ^ 64) as Hx.
  { unfold x, u64. change (2 ^ 64) with 18446744073709551616. destruct neg; apply Z.mod_pos_bound; lia. }
  assert (neg = true → x = - xx ∧ x <= 9223372036854775808) as Hneg.
  { unfold x. intros E. rewrite E. unfold neg in E. apply andb_true_iff in E as [_ E%Z.ltb_lt]. unfold u64. zlia. }
  assert (2 <= base <= 16) as Hb by lia.
  assert (x < base ^ Z.of_nat 20 ∧ x < base ^ Z.of_nat 64) as [X20 X64].
  { split; (eapply Z.lt_le_trans; [apply Hx|]); apply Z.leb_le; by destruct Hbase as [-> | ->]. }
  destruct (int_digits_val 64 x base Hb (conj (proj1 Hx) X64)) as [V F]; [lia|].
  destruct neg eqn:En.
  - destruct (Hneg eq_refl) as [Ex Hle]. split.
    + rewrite length_app. simpl length at 2.
      assert (length (int_digits 64 digits x base) <= 19)%nat; [|lia].
      apply length_int_digits; [lia| |lia]. split; [apply Hx|]. eapply Z.le_lt_trans; [apply Hle|].
      apply Z.ltb_lt. by destruct Hbase as [-> | ->].
    + unfold buf_val. rewrite reverse_app. change (reverse [45]) with [45]. cbn [app].
      rewrite Z.eqb_refl, reverse_involutive, V, Ex. unfold neg in En.
      apply andb_true_iff in En as [-> _]. lia.
  - rewrite app_nil_r. split.
    + apply length_int_digits; [lia| |lia]. split; [apply Hx|done].
    + assert (x = if sign then xx else u64 xx) as Ex.
      { unfold x, neg in *. destruct sign; [|done]. cbn [andb] in En. apply Z.ltb_ge in En.
        unfold u64. rewrite Z.mod_small; lia. }
      rewrite <- Ex. transitivity (digits_val base (int_digits 64 digits x base)); [|done]. unfold buf_val.
      destruct (reverse (int_digits 64 digits x base)) as [|c l] eqn:El.
      { apply (f_equal reverse) in El. rewrite reverse_involutive in El. by rewrite El. }
      rewrite (proj2 (Z.eqb_neq _ _)); [done|].
      rewrite Forall_forall in F. apply F. apply elem_of_reverse. rewrite El. by left.
Qed.

Lemma printint_fits_witness :
  - 2 ^ 63 <= -2 ^ 63 < 2 ^ 63 ∧
  (length (printint_buf digits (- 2 ^ 63) 10 true) <= 20)%nat ∧
  buf_val 10 (printint_buf digits (- 2 ^ 63) 10 true) = - 2 ^ 63.
Proof. split; [by split|]. apply (printint_fits (- 2 ^ 63) 10 true); [by left|by split]. Defined.


