(* ===== verification/Console.v ===== *)
(** The console: kernel/console.c, [uartintr] of kernel/uart.c and [procdump]
    of kernel/proc.c. *)

From S2P Require Export Printf.

(** [C(x)]: the control character of a letter. *)
Definition CTRL (s : string) : Z := ch s - ch "@".

Definition upd_cons (f : cons_t → cons_t) : K unit := modify (λ s, s <| k_cons ::= f |>).

(** Reading and writing [cons.buf[i % INPUT_BUF_SIZE]]. *)
Definition cons_slot (i : Z) : nat := Z.to_nat (u32 i mod INPUT_BUF_SIZE).

Section console.
Context `{L : Layout}.

Definition consolewrite_loop (user_src : bool) (src n : Z) (i : Z) : K (Z + Z) :=
  if n <=? i then mret (inr i) else
  let nn := Z.min 32 (n - i) in
  '(buf, r) ← either_copyin user_src (u64 (src + i)) nn;
  if r =? -1 then mret (inr i) else
  uartwrite buf;;
  mret (inl (i + nn)).

Definition consolewrite (user_src : bool) (src n : Z) : K Z :=
  loop (S (Z.to_nat n)) (consolewrite_loop user_src src n) 0.

(** Wait for input; [false] when the process was killed meanwhile. *)
Definition cons_wait : K bool :=
  wait_loop (
    c ← gets k_cons;
    if cons_r c =? cons_w c then
      p ← curproc;
      k ← killed p;
      if negb (k =? 0) then mret (Some false) else
      sleep ChCons Lcons;; mret None
    else mret (Some true)).

(** A round of the outer loop of [consoleread]; the state is [dst] and [n]. *)
Definition consoleread_loop (user_dst : bool) (target : Z) (x : Z * Z) : K ((Z * Z) + Z) :=
  let '(dst, n) := x in
  let out (n : Z) := release Lcons;; mret (inr (i32 (target - n))) in
  if n <=? 0 then out n else
  ok ← cons_wait;
  if negb ok then release Lcons;; mret (inr (-1)) else
  c ← gets (λ s, cons_buf (k_cons s) !!! cons_slot (cons_r (k_cons s)));
  upd_cons (λ k, k <| cons_r ::= λ r, u32 (r + 1) |>);;
  if c =? CTRL "D" then
    when (u32 n <? target) (upd_cons (λ k, k <| cons_r ::= λ r, u32 (r - 1) |>));;
    out n
  else
    r ← either_copyout user_dst dst [c];
    if r =? -1 then out n else
    let dst := u64 (dst + 1) in
    let n := n - 1 in
    if c =? 10 then out n else mret (inl (dst, n)).

Definition consoleread (user_dst : bool) (dst n : Z) : K Z :=
  let target := u32 n in
  acquire Lcons;;
  loop (S (Z.to_nat n)) (consoleread_loop user_dst target) (dst, n).

End console.

(** ** procdump *)

Definition state_name (st : procstate) : string :=
  match st with
  | UNUSED => "unused"
  | USED => "used"
  | SLEEPING => "sleep "
  | RUNNABLE => "runble"
  | RUNNING => "run   "
  | ZOMBIE => "zombie"
  end.

Definition procdump : K unit :=
  printf nl [];;
  for_each NPROC 0 (λ p,
    pr ← get_proc p;
    if bool_decide (p_state pr = UNUSED) then mret () else
    printf "%d %s %s" [VWord (p_pid pr); VStr (bytes_of (state_name (p_state pr)));
                       VStr (p_name pr)];;
    printf nl [];;
    mret ()).

(** ** Input *)

(** The [while] loop of the kill-line character; the edit index moves down to
    the write index, so [fuel] need not exceed their distance. *)
Fixpoint kill_line (fuel : nat) : K unit :=
  match fuel with
  | O => stuck
  | S fuel' =>
      c ← gets k_cons;
      if negb (cons_e c =? cons_w c)
         && negb (cons_buf c !!! cons_slot (cons_e c - 1) =? 10) then
        upd_cons (λ k, k <| cons_e ::= λ e, u32 (e - 1) |>);;
        consputc BACKSPACE;;
        kill_line fuel'
      else mret ()
  end.

Definition consoleintr (c : Z) : K unit :=
  acquire Lcons;;
  (if c =? CTRL "P" then procdump
   else if c =? CTRL "U" then
     k ← gets k_cons;
     kill_line (S (Z.to_nat (u32 (cons_e k - cons_w k))))
   else if (c =? CTRL "H") || (c =? 127) then
     k ← gets k_cons;
     when (negb (cons_e k =? cons_w k)) (
       upd_cons (λ k, k <| cons_e ::= λ e, u32 (e - 1) |>);;
       consputc BACKSPACE)
   else
     k ← gets k_cons;
     when (negb (c =? 0) && (u32 (cons_e k - cons_r k) <? INPUT_BUF_SIZE)) (
       let c := if c =? 13 then 10 else c in
       consputc c;;
       upd_cons (λ k, k <| cons_buf ::= <[cons_slot (cons_e k) := u8 c]> |>);;
       upd_cons (λ k, k <| cons_e ::= λ e, u32 (e + 1) |>);;
       k ← gets k_cons;
       when ((c =? 10) || (c =? CTRL "D")
             || (u32 (cons_e k - cons_r k) =? INPUT_BUF_SIZE)) (
         upd_cons (λ k, k <| cons_w := cons_e k |>);;
         wakeup ChCons)));;
  release Lcons.

(** The [while(1)] loop of [uartintr] ends when no received byte is left. *)
Fixpoint uart_drain (fuel : nat) : K unit :=
  match fuel with
  | O => stuck
  | S fuel' =>
      c ← uartgetc;
      if c =? -1 then mret () else consoleintr c;; uart_drain fuel'
  end.

(** Reading ISR to acknowledge the interrupt has no effect the driver sees. *)
Definition uartintr : K unit :=
  acquire Ltx;;
  lsr ← read_lsr;
  when (negb (Z.land lsr LSR_TX_IDLE =? 0)) (
    upd_uart (λ u, u <| u_tx_busy := 0 |>);;
    wakeup ChTx);;
  release Ltx;;
  u ← gets k_uart;
  uart_drain (S (length (u_in u))).

Definition consoleinit : K unit :=
  initlock Lcons "cons";;
  uartinit;;
  modify (λ s, s <| k_devsw := <[1%nat := mk_devsw (Some Fconsoleread) (Some Fconsolewrite)]>
                                  (k_devsw s) |>).
