(* ===== verification/Virtio.v ===== *)
(** The disk driver: kernel/virtio_disk.c with the structures of
    kernel/virtio.h.

    The descriptor table and the rings are shared with the device, which runs
    as part of the rest of the machine: it consumes the available ring, moves
    data between [b->data] and its blocks, writes the status byte and appends to
    the used ring.  The device's registers are read from [vd_regs]; what the
    driver writes is recorded there and in the list [vd_mmio]. *)

From S2P Require Export SleepLock.

Definition VIRTIO_MMIO_MAGIC_VALUE : Z := 0.
Definition VIRTIO_MMIO_VERSION : Z := 4.
Definition VIRTIO_MMIO_DEVICE_ID : Z := 8.
Definition VIRTIO_MMIO_VENDOR_ID : Z := 12.
Definition VIRTIO_MMIO_DEVICE_FEATURES : Z := 16.
Definition VIRTIO_MMIO_DRIVER_FEATURES : Z := 32.
Definition VIRTIO_MMIO_QUEUE_SEL : Z := 48.
Definition VIRTIO_MMIO_QUEUE_NUM_MAX : Z := 52.
Definition VIRTIO_MMIO_QUEUE_NUM : Z := 56.
Definition VIRTIO_MMIO_QUEUE_READY : Z := 68.
Definition VIRTIO_MMIO_QUEUE_NOTIFY : Z := 80.
Definition VIRTIO_MMIO_INTERRUPT_STATUS : Z := 96.
Definition VIRTIO_MMIO_INTERRUPT_ACK : Z := 100.
Definition VIRTIO_MMIO_STATUS : Z := 112.
Definition VIRTIO_MMIO_QUEUE_DESC_LOW : Z := 128.
Definition VIRTIO_MMIO_QUEUE_DESC_HIGH : Z := 132.
Definition VIRTIO_MMIO_DRIVER_DESC_LOW : Z := 144.
Definition VIRTIO_MMIO_DRIVER_DESC_HIGH : Z := 148.
Definition VIRTIO_MMIO_DEVICE_DESC_LOW : Z := 160.
Definition VIRTIO_MMIO_DEVICE_DESC_HIGH : Z := 164.

Definition VIRTIO_CONFIG_S_ACKNOWLEDGE : Z := 1.
Definition VIRTIO_CONFIG_S_DRIVER : Z := 2.
Definition VIRTIO_CONFIG_S_DRIVER_OK : Z := 4.
Definition VIRTIO_CONFIG_S_FEATURES_OK : Z := 8.
Definition VIRTIO_BLK_F_RO : Z := 5.
Definition VIRTIO_BLK_F_SCSI : Z := 7.
Definition VIRTIO_BLK_F_CONFIG_WCE : Z := 11.
Definition VIRTIO_BLK_F_MQ : Z := 12.
Definition VIRTIO_F_ANY_LAYOUT : Z := 27.
Definition VIRTIO_RING_F_INDIRECT_DESC : Z := 28.
Definition VIRTIO_RING_F_EVENT_IDX : Z := 29.

Definition VRING_DESC_F_NEXT : Z := 1.
Definition VRING_DESC_F_WRITE : Z := 2.
Definition VIRTIO_BLK_T_IN : Z := 0.
Definition VIRTIO_BLK_T_OUT : Z := 1.

Definition upd_disk (f : disk_t → disk_t) : K unit := modify (λ s, s <| k_disk ::= f |>).
Definition get_disk : K disk_t := gets k_disk.

(** [*R(r)] *)
Definition mmio_read (r : Z) : K Z := d ← get_disk; mret (default 0 (vd_regs d !! r)).
(** [*R(r) = v] *)
Definition mmio_write (r v : Z) : K unit :=
  upd_disk (λ d, d <| vd_regs ::= <[r := u32 v]> |> <| vd_mmio ::= λ l, l ++ [(r, u32 v)] |>).

(** [features &= ~(1 << bit)] *)
Definition clear_feature (features bit : Z) : Z := Z.land features (Z.lnot (Z.shiftl 1 bit)).

Section init.
Context `{L : Layout}.

Definition virtio_disk_init : K unit :=
  initlock Lvdisk "virtio_disk";;
  magic ← mmio_read VIRTIO_MMIO_MAGIC_VALUE;
  version ← mmio_read VIRTIO_MMIO_VERSION;
  device ← mmio_read VIRTIO_MMIO_DEVICE_ID;
  vendor ← mmio_read VIRTIO_MMIO_VENDOR_ID;
  if negb (magic =? 1953655158) || negb (version =? 2) || negb (device =? 2)
     || negb (vendor =? 1431127377) then panic "could not find virtio disk" else
  mmio_write VIRTIO_MMIO_STATUS 0;;
  let status := VIRTIO_CONFIG_S_ACKNOWLEDGE in
  mmio_write VIRTIO_MMIO_STATUS status;;
  let status := Z.lor status VIRTIO_CONFIG_S_DRIVER in
  mmio_write VIRTIO_MMIO_STATUS status;;
  features ← mmio_read VIRTIO_MMIO_DEVICE_FEATURES;
  let features := clear_feature features VIRTIO_BLK_F_RO in
  let features := clear_feature features VIRTIO_BLK_F_SCSI in
  let features := clear_feature features VIRTIO_BLK_F_CONFIG_WCE in
  let features := clear_feature features VIRTIO_BLK_F_MQ in
  let features := clear_feature features VIRTIO_F_ANY_LAYOUT in
  let features := clear_feature features VIRTIO_RING_F_EVENT_IDX in
  let features := clear_feature features VIRTIO_RING_F_INDIRECT_DESC in
  mmio_write VIRTIO_MMIO_DRIVER_FEATURES features;;
  let status := Z.lor status VIRTIO_CONFIG_S_FEATURES_OK in
  mmio_write VIRTIO_MMIO_STATUS status;;
  status ← mmio_read VIRTIO_MMIO_STATUS;
  if Z.land status VIRTIO_CONFIG_S_FEATURES_OK =? 0
  then panic "virtio disk FEATURES_OK unset" else
  mmio_write VIRTIO_MMIO_QUEUE_SEL 0;;
  ready ← mmio_read VIRTIO_MMIO_QUEUE_READY;
  if negb (ready =? 0) then panic "virtio disk should not be ready" else
  max ← mmio_read VIRTIO_MMIO_QUEUE_NUM_MAX;
  if max =? 0 then panic "virtio disk has no queue 0" else
  if max <? Z.of_nat NUM then panic "virtio disk max queue too short" else
  desc ← kalloc;
  avail ← kalloc;
  used ← kalloc;
  if (desc =? 0) || (avail =? 0) || (used =? 0) then panic "virtio disk kalloc" else
  upd_mem (λ m, memset m desc 0 PGSIZE);;
  upd_mem (λ m, memset m avail 0 PGSIZE);;
  upd_mem (λ m, memset m used 0 PGSIZE);;
  upd_disk (λ d, d <| vd_desc := replicate NUM inhabitant |>
                   <| vd_avail_ring := replicate NUM 0 |> <| vd_avail_idx := 0 |>
                   <| vd_used_ring := replicate NUM 0 |> <| vd_dev_used_idx := 0 |>);;
  mmio_write VIRTIO_MMIO_QUEUE_NUM (Z.of_nat NUM);;
  mmio_write VIRTIO_MMIO_QUEUE_DESC_LOW desc;;
  mmio_write VIRTIO_MMIO_QUEUE_DESC_HIGH (Z.shiftr desc 32);;
  mmio_write VIRTIO_MMIO_DRIVER_DESC_LOW avail;;
  mmio_write VIRTIO_MMIO_DRIVER_DESC_HIGH (Z.shiftr avail 32);;
  mmio_write VIRTIO_MMIO_DEVICE_DESC_LOW used;;
  mmio_write VIRTIO_MMIO_DEVICE_DESC_HIGH (Z.shiftr used 32);;
  mmio_write VIRTIO_MMIO_QUEUE_READY 1;;
  for_each NUM 0 (λ i, upd_disk (λ d, d <| vd_free ::= <[i := 1]> |>));;
  let status := Z.lor status VIRTIO_CONFIG_S_DRIVER_OK in
  mmio_write VIRTIO_MMIO_STATUS status.

End init.

(** ** Descriptors *)

Definition alloc_desc : K Z :=
  r ← for_break NUM 0 (λ i,
    d ← get_disk;
    if negb (vd_free d !!! i =? 0) then
      upd_disk (λ d, d <| vd_free ::= <[i := 0]> |>);;
      mret (Some (Z.of_nat i))
    else mret None);
  mret (default (-1) r).

Definition free_desc (i : Z) : K unit :=
  if Z.of_nat NUM <=? i then panic "free_desc 1" else
  d ← get_disk;
  let n := Z.to_nat i in
  if negb (vd_free d !!! n =? 0) then panic "free_desc 2" else
  upd_disk (λ d, d <| vd_desc ::= <[n := mk_desc DAnull 0 0 0]> |>);;
  upd_disk (λ d, d <| vd_free ::= <[n := 1]> |>);;
  wakeup ChDiskFree.

(** Each round frees a descriptor that was in use, so at most [NUM] rounds
    return normally. *)
Definition free_chain (i : Z) : K unit :=
  loop (S NUM) (λ i,
    d ← get_disk;
    let de := vd_desc d !!! Z.to_nat i in
    let flag := d_flags de in
    let nxt := d_next de in
    free_desc i;;
    mret (if Z.land flag VRING_DESC_F_NEXT =? 0 then inr () else inl nxt)) i.

(** The three indices on success; [None] is the return value -1. *)
Definition alloc3_desc : K (option (Z * Z * Z)) :=
  i0 ← alloc_desc;
  if i0 <? 0 then mret None else
  i1 ← alloc_desc;
  if i1 <? 0 then free_desc i0;; mret None else
  i2 ← alloc_desc;
  if i2 <? 0 then free_desc i0;; free_desc i1;; mret None else
  mret (Some (i0, i1, i2)).

(** ** Requests *)

Definition set_desc (i : Z) (a : daddr) (len flags next : Z) : K unit :=
  upd_disk (λ d, d <| vd_desc ::= <[Z.to_nat i := mk_desc a len flags next]> |>).

Definition virtio_disk_rw (b : nat) (write : bool) : K unit :=
  bf ← gets (λ s, buf_at s b);
  let sector := u32 (b_blockno bf * (BSIZE / 512)) in
  acquire Lvdisk;;
  idx ← wait_loop (
    r ← alloc3_desc;
    match r with
    | Some idx => mret (Some idx)
    | None => sleep ChDiskFree Lvdisk;; mret None
    end);
  let '(i0, i1, i2) := idx in
  upd_disk (λ d, d <| vd_ops ::=
    <[Z.to_nat i0 := mk_req (if write then VIRTIO_BLK_T_OUT else VIRTIO_BLK_T_IN) 0 sector]> |>);;
  set_desc i0 (DAops (Z.to_nat i0)) 16 VRING_DESC_F_NEXT i1;;
  set_desc i1 (DAdata b) BSIZE
    (Z.lor (if write then 0 else VRING_DESC_F_WRITE) VRING_DESC_F_NEXT) i2;;
  upd_disk (λ d, d <| vd_info ::= λ l,
    <[Z.to_nat i0 := (l !!! Z.to_nat i0) <| vi_status := 255 |>]> l |>);;
  set_desc i2 (DAstatus (Z.to_nat i0)) 1 VRING_DESC_F_WRITE 0;;
  upd_buf b (λ bf, bf <| b_disk := 1 |>);;
  upd_disk (λ d, d <| vd_info ::= λ l,
    <[Z.to_nat i0 := (l !!! Z.to_nat i0) <| vi_b := Some b |>]> l |>);;
  upd_disk (λ d, d <| vd_avail_ring ::=
    <[Z.to_nat (vd_avail_idx d mod Z.of_nat NUM) := i0]> |>);;
  upd_disk (λ d, d <| vd_avail_idx ::= λ n, u16 (n + 1) |>);;
  mmio_write VIRTIO_MMIO_QUEUE_NOTIFY 0;;
  wait_loop (
    bf ← gets (λ s, buf_at s b);
    if b_disk bf =? 1 then sleep (ChBuf b) Lvdisk;; mret None else mret (Some ()));;
  upd_disk (λ d, d <| vd_info ::= λ l,
    <[Z.to_nat i0 := (l !!! Z.to_nat i0) <| vi_b := None |>]> l |>);;
  free_chain i0;;
  release Lvdisk.

(** The loop of [virtio_disk_intr]; the used index moves towards the device's. *)
Fixpoint intr_loop (fuel : nat) : K unit :=
  match fuel with
  | O => stuck
  | S fuel' =>
      d ← get_disk;
      if vd_used_idx d =? vd_dev_used_idx d then mret () else
      let id := vd_used_ring d !!! Z.to_nat (vd_used_idx d mod Z.of_nat NUM) in
      let info := vd_info d !!! Z.to_nat id in
      if negb (vi_status info =? 0) then panic "virtio_disk_intr status" else
      match vi_b info with
      | None => panic "kerneltrap"
      | Some b =>
          upd_buf b (λ bf, bf <| b_disk := 0 |>);;
          wakeup (ChBuf b);;
          upd_disk (λ d, d <| vd_used_idx ::= λ n, u16 (n + 1) |>);;
          intr_loop fuel'
      end
  end.

Definition virtio_disk_intr : K unit :=
  acquire Lvdisk;;
  st ← mmio_read VIRTIO_MMIO_INTERRUPT_STATUS;
  mmio_write VIRTIO_MMIO_INTERRUPT_ACK (Z.land st 3);;
  d ← get_disk;
  intr_loop (S (Z.to_nat (u16 (vd_dev_used_idx d - vd_used_idx d))));;
  release Lvdisk.
