(* ===== verification/Device.v ===== *)
(** The disk as the driver of Virtio.v relies on it: a virtio block device
    serves the request at the head of the available ring, and raises an
    interrupt.  [disk_pause] is what happens between a process going to sleep
    for the disk and running again. *)

From S2P Require Export SchedSpec Virtio.

(** A block of the disk; blocks never written hold zeroes. *)
Definition block_at (d : disk_t) (bno : Z) : list Z :=
  default (replicate (Z.to_nat BSIZE) 0) (vd_blocks d !! bno).

(** The device has exactly one request to serve: descriptor [id] starts a chain
    of a request header, the data of buffer [b], and status byte [j]. *)
Record request (d : disk_t) (id b j : nat) (write : bool) (bno : Z) : Prop := {
  rq_new : vd_avail_idx d = u16 (vd_dev_used_idx d + 1);
  rq_id : vd_avail_ring d !!! Z.to_nat (vd_dev_used_idx d mod Z.of_nat NUM) = Z.of_nat id;
  rq_chain : ∃ i n1 n2 fl, vd_desc d !!! id = mk_desc (DAops i) 16 VRING_DESC_F_NEXT (Z.of_nat n1) ∧
    vd_ops d !!! i = mk_req (if write then VIRTIO_BLK_T_OUT else VIRTIO_BLK_T_IN) 0 (bno * 2) ∧
    vd_desc d !!! n1 = mk_desc (DAdata b) BSIZE fl (Z.of_nat n2) ∧
    vd_desc d !!! n2 = mk_desc (DAstatus j) 1 VRING_DESC_F_WRITE 0;
}.

(** The state after the device served it: the block or the buffer is written, the
    status is 0, and the chain is on the used ring. *)
Definition served (id b j : nat) (write : bool) (bno : Z) (s : kstate) : kstate :=
  let d := k_disk s in
  let d' := d <| vd_info ::= λ l, <[j := (l !!! j) <| vi_status := 0 |>]> l |>
              <| vd_used_ring ::= <[Z.to_nat (vd_dev_used_idx d mod Z.of_nat NUM) := Z.of_nat id]> |>
              <| vd_dev_used_idx ::= λ n, u16 (n + 1) |> in
  if write then s <| k_disk := d' <| vd_blocks ::= <[bno := b_data (buf_at s b)]> |> |>
  else s <| k_disk := d' |>
         <| k_bufs := <[b := (buf_at s b) <| b_data := block_at d bno |>]> (k_bufs s) |>.

(** The device is hardware: any transformer that serves such requests. *)
Class VirtioDevice := {
  dv_serve : kstate → kstate;
  dv_served : ∀ s id b j write bno, request (k_disk s) id b j write bno →
    (b < length (k_bufs s))%nat → dv_serve s = served id b j write bno s;
}.

(** A device that reads its registers and rings as the specification says. *)
Definition qemu_serve (s : kstate) : kstate :=
  let d := k_disk s in
  let id := Z.to_nat (vd_avail_ring d !!! Z.to_nat (vd_dev_used_idx d mod Z.of_nat NUM)) in
  let d0 := vd_desc d !!! id in
  let d1 := vd_desc d !!! Z.to_nat (d_next d0) in
  let d2 := vd_desc d !!! Z.to_nat (d_next d1) in
  match d_addr d0, d_addr d1, d_addr d2 with
  | DAops i, DAdata b, DAstatus j =>
      let rq := vd_ops d !!! i in
      served id b j (rq_type rq =? VIRTIO_BLK_T_OUT) (rq_sector rq / 2) s
  | _, _, _ => s
  end.

#[global] Program Instance qemu_disk : VirtioDevice := {| dv_serve := qemu_serve |}.
Next Obligation.
  intros s id b j write bno [Hnew Hid (i & n1 & n2 & fl & H0 & Hop & H1 & H2)] Hb.
  unfold qemu_serve. rewrite Hid, Nat2Z.id, H0. simpl. rewrite Nat2Z.id, H1. simpl.
  rewrite Nat2Z.id, H2, Hop. simpl. rewrite Z.div_mul by lia. by destruct write.
Qed.

Section device.
Context `{V : VirtioDevice}.

(** The end of the scheduler's visit to a process that went to sleep; the
    device; the interrupt, taken when the scheduler enables interrupts; and the
    visit that runs the process again (proc.c, [scheduler]). *)
Definition disk_pause (p : nat) : K unit :=
  c ← mycpu;
  upd_cpu c (set c_proc (λ _, None));;
  release (Lproc p);;
  modify dv_serve;;
  intr_on;;
  intr_off;;
  virtio_disk_intr;;
  intr_on;;
  intr_off;;
  acquire (Lproc p);;
  pr ← get_proc p;
  if bool_decide (p_state pr = RUNNABLE) then
    upd_proc p (λ pr, pr <| p_state := RUNNING |>);;
    upd_cpu c (set c_proc (λ _, Some p))
  else stuck.

(** As a move of the rest of the machine. *)
Definition disk_move (p : nat) (s : kstate) : kstate :=
  match disk_pause p s [] with Ok _ s' _ => s' | _ => s end.

End device.
