(* ===== verification/DeviceSpec.v ===== *)
(** One disk request, from the call of [virtio_disk_rw] of Virtio.v to its
    return, with the device and the interrupt in between. *)

From S2P Require Export Device SleepSpec.

Section device_spec.
Context `{V : VirtioDevice}.

(** No request is in flight. *)
Record disk_rest (d : disk_t) : Prop := {
  dr_free : vd_free d = replicate NUM 1;
  dr_desc : length (vd_desc d) = NUM;
  dr_info : length (vd_info d) = NUM;
  dr_ops : length (vd_ops d) = NUM;
  dr_avail : length (vd_avail_ring d) = NUM;
  dr_used : length (vd_used_ring d) = NUM;
  dr_uidx : vd_used_idx d = vd_avail_idx d;
  dr_didx : vd_dev_used_idx d = vd_avail_idx d;
  dr_range : 0 <= vd_avail_idx d < 65536;
}.

(** The request of buffer [b] is posted, in descriptors 0, 1 and 2. *)
Record in_flight (d d1 : disk_t) (b : nat) (write : bool) (bno : Z) : Prop := {
  if_rq : request d1 0 b 0 write bno;
  if_free : vd_free d1 = [0; 0; 0; 1; 1; 1; 1; 1];
  if_chain : ∃ a0 l0 a1 l1 f1 a2 l2,
    vd_desc d1 !!! 0%nat = mk_desc a0 l0 VRING_DESC_F_NEXT 1 ∧
    vd_desc d1 !!! 1%nat = mk_desc a1 l1 f1 2 ∧ Z.land f1 VRING_DESC_F_NEXT ≠ 0 ∧
    vd_desc d1 !!! 2%nat = mk_desc a2 l2 VRING_DESC_F_WRITE 0;
  if_info : vd_info d1 !!! 0%nat = mk_vinfo (Some b) 255;
  if_desc_len : length (vd_desc d1) = NUM;
  if_info_len : length (vd_info d1) = NUM;
  if_ops_len : length (vd_ops d1) = NUM;
  if_avail_len : length (vd_avail_ring d1) = NUM;
  if_used_len : length (vd_used_ring d1) = NUM;
  if_used : vd_used_idx d1 = vd_dev_used_idx d1;
  if_range : 0 <= vd_dev_used_idx d1 < 65536;
  if_blocks : vd_blocks d1 = vd_blocks d;
}.

(** The three descriptors are the first three. *)
Lemma alloc3_ok s e :
  vd_free (k_disk s) = replicate NUM 1 →
  alloc3_desc s e = Ok (Some (0, 1, 2)) (s <| k_disk := (k_disk s) <| vd_free := [0; 0; 0; 1; 1; 1; 1; 1] |> |>) e.
Proof.
  intros Hf. destruct s as [x csr m fl kp ps ip np fi st ti bs d lg sb ino fs ds pi co ua pl].
  destruct d as [d1 d2 d3 d4 d5 d6 d7 d8 d9 d10 d11 d12]. simpl in Hf. subst d6. reflexivity.
Qed.

(** What remains of [virtio_disk_rw] once the request is posted. *)
Definition rw_wait (b : nat) : K unit :=
  wait_loop (
    bf ← gets (λ s, buf_at s b);
    if b_disk bf =? 1 then sleep (ChBuf b) Lvdisk;; mret None else mret (Some ())).

Definition rw_finish : K unit :=
  upd_disk (λ d, d <| vd_info ::= λ l, <[0%nat := (l !!! 0%nat) <| vi_b := None |>]> l |>);;
  free_chain 0;;
  release Lvdisk.

Definition posted (s : kstate) (b : nat) (d1 : disk_t) : kstate :=
  s <| k_x := acquired Lvdisk (k_x s) |>
    <| k_bufs := <[b := (buf_at s b) <| b_disk := 1 |>]> (k_bufs s) |> <| k_disk := d1 |>.

Lemma u16_mod8 n : 0 <= n < 65536 → (Z.to_nat (n mod Z.of_nat NUM) < NUM)%nat.
Proof. intros. change (Z.of_nat NUM) with 8. change NUM with 8%nat. zlia. Qed.

(** The driver's structures once the request is posted. *)
Definition post1 (d : disk_t) (b : nat) (write : bool) (bno : Z) : disk_t :=
  d <| vd_free := [0; 0; 0; 1; 1; 1; 1; 1] |>
    <| vd_ops ::= <[0%nat := mk_req (if write then VIRTIO_BLK_T_OUT else VIRTIO_BLK_T_IN) 0
                                  (u32 (bno * (BSIZE / 512)))]> |>
    <| vd_desc ::= <[0%nat := mk_desc (DAops 0) 16 VRING_DESC_F_NEXT 1]> |>
    <| vd_desc ::= <[1%nat := mk_desc (DAdata b) BSIZE
                       (Z.lor (if write then 0 else VRING_DESC_F_WRITE) VRING_DESC_F_NEXT) 2]> |>
    <| vd_info ::= λ l, <[0%nat := (l !!! 0%nat) <| vi_status := 255 |>]> l |>
    <| vd_desc ::= <[2%nat := mk_desc (DAstatus 0) 1 VRING_DESC_F_WRITE 0]> |>.

Definition post2 (d : disk_t) (b : nat) : disk_t :=
  let d' := d <| vd_info ::= λ l, <[0%nat := (l !!! 0%nat) <| vi_b := Some b |>]> l |>
              <| vd_avail_ring ::= <[Z.to_nat (vd_avail_idx d mod Z.of_nat NUM) := 0]> |>
              <| vd_avail_idx ::= λ n, u16 (n + 1) |> in
  d' <| vd_regs ::= <[VIRTIO_MMIO_QUEUE_NOTIFY := 0]> |>
     <| vd_mmio ::= λ l, l ++ [(VIRTIO_MMIO_QUEUE_NOTIFY, 0)] |>.

Lemma rw_post s p b write e :
  calm s p → disk_rest (k_disk s) →
  virtio_disk_rw b write s e =
    (rw_wait b;; rw_finish) (posted s b (post2 (post1 (k_disk s) b write (b_blockno (buf_at s b))) b)) e.
Proof.
  intros Hc [R1 _ _ _ _ _ _ _ _].
  unfold virtio_disk_rw. rewrite bind_gets. erewrite bind_Ok by (by eapply (calm_acquire s p Lvdisk)).
  erewrite bind_Ok.
  2:{ apply wait_loop_now. erewrite bind_Ok by (by apply alloc3_ok). reflexivity. }
  unfold set_desc, upd_disk, upd_buf, mmio_write, upd_disk. rewrite !bind_modify. reflexivity.
Qed.

Lemma insert_0_twice {A} `{Inhabited A} (l : list A) f g :
  (0 < length l)%nat →
  <[0%nat := g (<[0%nat := f (l !!! 0%nat)]> l !!! 0%nat)]> (<[0%nat := f (l !!! 0%nat)]> l) =
  <[0%nat := g (f (l !!! 0%nat))]> l.
Proof. intros. by rewrite list_lookup_total_insert_eq, list_insert_insert_eq. Qed.

Lemma in_flight_post d b write bno :
  disk_rest d → 0 <= bno < 2147483648 → in_flight d (post2 (post1 d b write bno) b) b write bno.
Proof.
  intros [R1 R2 R3 R4 R5 R6 R7 R8 R9] Hbno.
  assert (∀ A (l : list A) i, length l = NUM → (i < 8)%nat → (i < length l)%nat) as Hlt
    by (intros; change NUM with 8%nat in *; lia).
  pose proof (u16_mod8 _ R9) as Hslot.
  assert (vd_desc (post2 (post1 d b write bno) b) =
    <[2%nat := mk_desc (DAstatus 0) 1 VRING_DESC_F_WRITE 0]>
      (<[1%nat := mk_desc (DAdata b) BSIZE
          (Z.lor (if write then 0 else VRING_DESC_F_WRITE) VRING_DESC_F_NEXT) 2]>
        (<[0%nat := mk_desc (DAops 0) 16 VRING_DESC_F_NEXT 1]> (vd_desc d)))) as Ed by reflexivity.
  assert (vd_desc (post2 (post1 d b write bno) b) !!! 0%nat = mk_desc (DAops 0) 16 VRING_DESC_F_NEXT 1 ∧
    vd_desc (post2 (post1 d b write bno) b) !!! 1%nat = mk_desc (DAdata b) BSIZE
      (Z.lor (if write then 0 else VRING_DESC_F_WRITE) VRING_DESC_F_NEXT) 2 ∧
    vd_desc (post2 (post1 d b write bno) b) !!! 2%nat = mk_desc (DAstatus 0) 1 VRING_DESC_F_WRITE 0)
    as (E0 & E1 & E2).
  { rewrite Ed. split_and!.
    - rewrite !list_lookup_total_insert_ne by done. by apply list_lookup_total_insert_eq; auto with lia.
    - rewrite list_lookup_total_insert_ne by done.
      by apply list_lookup_total_insert_eq; rewrite length_insert; auto with lia.
    - by apply list_lookup_total_insert_eq; rewrite !length_insert; auto with lia. }
  split.
  - split; [by simpl; rewrite R8|simpl; rewrite R8; apply list_lookup_total_insert_eq; by rewrite R5|].
    exists 0%nat, 1%nat, 2%nat. eexists. split_and!; [exact E0| |exact E1|exact E2].
    simpl. rewrite list_lookup_total_insert_eq by auto with lia. f_equal.
    change (BSIZE / 512) with 2. apply u32_small. lia.
  - done.
  - eexists _, _, _, _, _, _, _. split_and!; [exact E0|exact E1|by destruct write|exact E2].
  - simpl. rewrite list_lookup_total_insert_eq by (rewrite length_insert; auto with lia).
    rewrite list_lookup_total_insert_eq by auto with lia. by destruct (vd_info d !!! 0%nat).
  - rewrite Ed. by rewrite !length_insert.
  - simpl. by rewrite !length_insert.
  - simpl. by rewrite !length_insert.
  - simpl. by rewrite !length_insert.
  - done.
  - simpl. congruence.
  - simpl. by rewrite R8.
  - done.
Qed.

(** ** The interrupt *)

(** The driver's structures after the interrupt for one request. *)
Definition acked (d : disk_t) : disk_t :=
  let v := u32 (Z.land (default 0 (vd_regs d !! VIRTIO_MMIO_INTERRUPT_STATUS)) 3) in
  d <| vd_regs ::= <[VIRTIO_MMIO_INTERRUPT_ACK := v]> |>
    <| vd_mmio ::= λ l, l ++ [(VIRTIO_MMIO_INTERRUPT_ACK, v)] |>
    <| vd_used_idx ::= λ n, u16 (n + 1) |>.

Lemma u16_succ_ne n : 0 <= n < 65536 → n ≠ u16 (n + 1).
Proof. intros H. unfold u16. change (2 ^ 16) with 65536. zlia. Qed.

Lemma u16_succ_sub n : 0 <= n < 65536 → u16 (u16 (n + 1) - n) = 1.
Proof. intros H. unfold u16. change (2 ^ 16) with 65536. zlia. Qed.

(** One used element: the buffer's owner is woken. *)
Lemma intr_loop_ok s y b e :
  let d := k_disk s in
  k_x s = acquired Lvdisk y → xwf y → c_proc (this_cpu y) = None →
  (∀ lk, static_lock lk → lock_free lk y) → length (k_procs s) = NPROC →
  0 <= vd_used_idx d < 65536 → vd_dev_used_idx d = u16 (vd_used_idx d + 1) →
  vd_used_ring d !!! Z.to_nat (vd_used_idx d mod Z.of_nat NUM) = 0 →
  vd_info d !!! 0%nat = mk_vinfo (Some b) 0 →
  intr_loop 2 s e =
    Ok tt (s <| k_bufs := <[b := (buf_at s b) <| b_disk := 0 |>]> (k_bufs s) |>
             <| k_procs := wake (ChBuf b) None (k_procs s) |>
             <| k_disk := d <| vd_used_idx ::= λ n, u16 (n + 1) |> |>) e.
Proof.
  intros d Hx W Hp F Hlen Hn Hd Hr Hi. cbn [intr_loop]. unfold get_disk. rewrite bind_gets. fold d.
  rewrite Hd, (proj2 (Z.eqb_neq _ _)) by (by apply u16_succ_ne). rewrite Hr. change (Z.to_nat 0) with 0%nat.
  rewrite Hi. cbn [vi_status vi_b Z.eqb negb]. unfold upd_buf. rewrite bind_modify.
  erewrite bind_Ok.
  2:{ apply wakeup_ok; [|exact Hlen]. simpl. rewrite Hx. split.
      - by apply xwf_acquired.
      - by apply acquired_settled.
      - intros q Hq _. apply lock_free_acquired; [done|]. by apply F. }
  unfold upd_disk. rewrite bind_modify, bind_gets. cbn [k_disk].
  match goal with |- context [vd_used_idx ?dd =? _] => set (d2 := dd) end.
  change (vd_used_idx d2) with (u16 (vd_used_idx d + 1)). change (vd_dev_used_idx d2) with (vd_dev_used_idx d).
  rewrite Hd, Z.eqb_refl. unfold mret, M_ret. f_equal. simpl. rewrite Hx, acquired_proc, Hp by done. done.
Qed.

Lemma intr_ok s b e :
  let y := k_x s in let d := k_disk s in
  xwf y → c_proc (this_cpu y) = None → (∀ lk, static_lock lk → lock_free lk y) →
  length (k_procs s) = NPROC → 0 <= vd_used_idx d < 65536 →
  vd_dev_used_idx d = u16 (vd_used_idx d + 1) →
  vd_used_ring d !!! Z.to_nat (vd_used_idx d mod Z.of_nat NUM) = 0 →
  vd_info d !!! 0%nat = mk_vinfo (Some b) 0 →
  virtio_disk_intr s e =
    Ok tt (s <| k_disk := acked d |>
             <| k_bufs := <[b := (buf_at s b) <| b_disk := 0 |>]> (k_bufs s) |>
             <| k_procs := wake (ChBuf b) None (k_procs s) |> <| k_x := settle y |>) e.
Proof.
  intros y d W Hp F Hlen Hn Hd Hr Hi. unfold virtio_disk_intr.
  erewrite bind_Ok by (apply acquire_ok; [done|by apply F]).
  unfold mmio_read, get_disk, mmio_write, upd_disk. rewrite bind_assoc, !bind_gets, bind_ret, bind_modify, bind_gets.
  match goal with |- (intr_loop _ ≫= _) ?ss _ = _ => set (s1 := ss) end.
  assert (vd_used_idx (k_disk s1) = vd_used_idx d) as E1 by reflexivity.
  assert (vd_dev_used_idx (k_disk s1) = vd_dev_used_idx d) as E2 by reflexivity.
  rewrite E1, E2, Hd, u16_succ_sub by done. change (S (Z.to_nat 1)) with 2%nat.
  erewrite bind_Ok by (apply (intr_loop_ok s1 y b); try done).
  erewrite (release_after Lvdisk _ y) by (done || by apply F). done.
Qed.

(** ** The pause *)

(** The processes after the interrupt and the scheduler's choice of [p]. *)
Definition rerun (p b : nat) (ps : list proc) : list proc :=
  let ps' := wake (ChBuf b) None ps in <[p := (ps' !!! p) <| p_state := RUNNING |>]> ps'.

Lemma bind_upd_cpu {A} f (k : unit → K A) s e :
  (upd_cpu (hart (k_x s)) f ≫= k) s e = k tt (s <| k_x ::= with_cpu f |>) e.
Proof. reflexivity. Qed.

(** Enabling and disabling interrupts. *)
Lemma bind_on_off {A} (k : K A) s e :
  (intr_on;; intr_off;; k) s e = k (s <| k_x ::= cleared |>) e.
Proof.
  unfold intr_on, intr_off, r_sstatus, w_sstatus. rewrite !bind_assoc, !bind_gets, !bind_modify.
  rewrite bind_assoc, bind_gets, bind_modify. unfold cleared, set. simpl. by rewrite clear_set.
Qed.

Lemma cleared_settle x : cleared (settle (cleared x)) = settle (cleared x).
Proof.
  assert (∀ y, cleared y = y ↔ Z.land (x_sstatus y) (Z.lnot SSTATUS_SIE) = x_sstatus y) as E.
  { intros [tp st cs ls]. unfold cleared, set. simpl. split; [by intros [= ->]|by intros ->]. }
  apply E. change (x_sstatus (settle (cleared x))) with (x_sstatus (cleared x)). apply E, cleared_twice.
Qed.

Lemma served_facts s d b write bno :
  in_flight d (k_disk s) b write bno →
  let s2 := served 0 b 0 write bno s in let d2 := k_disk s2 in
  0 <= vd_used_idx d2 < 65536 ∧ vd_dev_used_idx d2 = u16 (vd_used_idx d2 + 1) ∧
  vd_used_ring d2 !!! Z.to_nat (vd_used_idx d2 mod Z.of_nat NUM) = 0 ∧
  vd_info d2 !!! 0%nat = mk_vinfo (Some b) 0 ∧ k_procs s2 = k_procs s.
Proof.
  intros [I1 I2 I3 I4 I5 I6 I7 I8 I9 I10 I11 I12] s2 d2. pose proof (u16_mod8 _ I11) as Hslot.
  assert (vd_used_idx d2 = vd_dev_used_idx (k_disk s)) as Eu by (subst d2 s2; unfold served; by destruct write).
  assert (vd_dev_used_idx d2 = u16 (vd_dev_used_idx (k_disk s) + 1)) as Ed
    by (subst d2 s2; unfold served; by destruct write).
  assert (vd_used_ring d2 = <[Z.to_nat (vd_dev_used_idx (k_disk s) mod Z.of_nat NUM) := 0]>
    (vd_used_ring (k_disk s))) as Er by (subst d2 s2; unfold served; by destruct write).
  assert (vd_info d2 = <[0%nat := (vd_info (k_disk s) !!! 0%nat) <| vi_status := 0 |>]> (vd_info (k_disk s)))
    as Ei by (subst d2 s2; unfold served; by destruct write).
  rewrite Eu, Ed, Er, Ei. split_and!; [lia|lia|done| | |by subst s2; unfold served; destruct write].
  - apply list_lookup_total_insert_eq. by rewrite I9.
  - rewrite list_lookup_total_insert_eq by (rewrite I6; change NUM with 8%nat; lia). by rewrite I4.
Qed.

Lemma pause_ok s x p b write bno d :
  k_x s = acquired (Lproc p) x → xwf x → settled x → c_noff (this_cpu x) = 0 →
  c_proc (this_cpu x) = Some p → (∀ lk, static_lock lk → lock_free lk x) →
  (p < NPROC)%nat → length (k_procs s) = NPROC → (b < length (k_bufs s))%nat →
  p_state (proc_at s p) = SLEEPING → p_chan (proc_at s p) = Some (ChBuf b) →
  in_flight d (k_disk s) b write bno →
  let s2 := served 0 b 0 write bno s in
  disk_pause p s [] =
    Ok tt (s2 <| k_disk := acked (k_disk s2) |>
             <| k_bufs := <[b := (buf_at s2 b) <| b_disk := 0 |>]> (k_bufs s2) |>
             <| k_procs := rerun p b (k_procs s) |>
             <| k_x := with_intena false (acquired (Lproc p) x) |>) [].
Proof.
  intros Hx W St Hn Hp F Hlp Hlen Hb Hst Hch Hfl s2. unfold disk_pause. rewrite bind_mycpu.
  assert (hart (k_x s) = hart x) as Hh by (by rewrite Hx).
  rewrite bind_upd_cpu. set (s1 := s <| k_x ::= with_cpu (set c_proc (λ _, None)) |>).
  assert (k_x s1 = idle (acquired (Lproc p) x)) as Hx1 by (unfold s1; simpl; by rewrite Hx).
  erewrite bind_Ok.
  2:{ apply (release_ok (Lproc p) s1 _ (locked_by (hart x) (lock_at x (Lproc p)))); rewrite ?Hx1.
      - by apply idle_wf, xwf_acquired.
      - unfold idle. rewrite this_cpu_with by apply (xwf_acquired _ _ W).
        change (1 <= c_noff (this_cpu (acquired (Lproc p) x))). rewrite acquired_noff by done. lia.
      - apply acquired_lock.
      - done.
      - done. }
  assert (s1 <| k_x ::= released (Lproc p) |> = s <| k_x := idle x |>) as ->.
  { unfold set. rewrite Hx1. simpl. rewrite idle_released by (done || by apply F). done. }
  rewrite bind_modify.
  rewrite (dv_served _ 0 b 0 write bno) by (apply Hfl || done).
  assert (served 0 b 0 write bno (s <| k_x := idle x |>) = s2 <| k_x := idle x |>) as ->.
  { subst s2. unfold served. by destruct write. }
  rewrite bind_on_off. set (y := cleared (idle x)).
  change ((s2 <| k_x := idle x |>) <| k_x ::= cleared |>) with (s2 <| k_x := y |>).
  destruct (served_facts s d b write bno Hfl) as (S1 & S2 & S3 & S4 & S5). fold s2 in S1, S2, S3, S4, S5.
  assert (xwf y) as Wy by (by apply cleared_wf, idle_wf).
  assert (c_proc (this_cpu y) = None) as Hy.
  { change (this_cpu y) with (this_cpu (idle x)). unfold idle. by rewrite this_cpu_with by apply W. }
  erewrite bind_Ok.
  2:{ apply (intr_ok (s2 <| k_x := y |>) b); simpl; try done. by rewrite S5. }
  clearbody s2. rewrite bind_on_off.
  match goal with |- _ ?ss _ = _ => assert (ss = s2 <| k_disk := acked (k_disk s2) |>
     <| k_bufs := <[b := (buf_at s2 b) <| b_disk := 0 |>]> (k_bufs s2) |>
     <| k_procs := wake (ChBuf b) None (k_procs s) |> <| k_x := settle y |>) as -> end.
  { rewrite <- S5. transitivity (s2 <| k_disk := acked (k_disk s2) |>
     <| k_bufs := <[b := (buf_at s2 b) <| b_disk := 0 |>]> (k_bufs s2) |>
     <| k_procs := wake (ChBuf b) None (k_procs s2) |> <| k_x := cleared (settle y) |>); [reflexivity|].
    unfold y. by rewrite cleared_settle. }
  set (s3 := s2 <| k_disk := acked (k_disk s2) |>
     <| k_bufs := <[b := (buf_at s2 b) <| b_disk := 0 |>]> (k_bufs s2) |>).
  assert (proc_at (s3 <| k_procs := wake (ChBuf b) None (k_procs s) |> <| k_x := settle y |>) p =
    (proc_at s p) <| p_state := RUNNABLE |>) as E3.
  { unfold proc_at, wake. simpl. destruct (lookup_lt_is_Some_2 (k_procs s) p) as [pr Hpr]; [lia|].
    unfold proc_at in *. rewrite (list_lookup_total_correct _ _ _ Hpr) in *.
    apply list_lookup_total_correct. rewrite list_lookup_imap, Hpr. simpl. unfold wake1.
    by rewrite bool_decide_false, Hst, Hch, !bool_decide_true. }
  clearbody s3.
  erewrite bind_Ok by (apply acquire_ok; [by apply xwf_settle|by apply lock_free_settle, F]).
  unfold get_proc. rewrite bind_gets.
  change (proc_at (_ <| k_x ::= acquired (Lproc p) |>) p) with
    (proc_at (s3 <| k_procs := wake (ChBuf b) None (k_procs s) |> <| k_x := settle y |>) p).
  rewrite E3, bool_decide_true by done. unfold upd_proc. rewrite bind_modify, Hh.
  unfold upd_cpu, modify. f_equal. rewrite <- resumed by done. reflexivity.
Qed.

(** ** Freeing the descriptors *)

Definition freed (i : nat) (d : disk_t) : disk_t :=
  d <| vd_desc ::= <[i := mk_desc DAnull 0 0 0]> |> <| vd_free ::= <[i := 1]> |>.

Lemma free_desc_ok s0 s p i e :
  calm s0 p → k_x s = acquired Lvdisk (k_x s0) → length (k_procs s) = NPROC → (i < NUM)%nat →
  vd_free (k_disk s) !!! i = 0 →
  free_desc (Z.of_nat i) s e =
    Ok tt (s <| k_disk := freed i (k_disk s) |>
             <| k_procs := wake ChDiskFree (Some p) (k_procs s) |>) e.
Proof.
  intros Hc Hx Hlen Hi Hf. unfold free_desc. rewrite (proj2 (Z.leb_gt _ _)) by lia.
  unfold get_disk. rewrite bind_gets, Nat2Z.id, Hf. cbn [Z.eqb negb].
  unfold upd_disk. rewrite !bind_modify. by erewrite (calm_wakeup s0 _ p Lvdisk).
Qed.

Definition freed_state (s : kstate) (p i : nat) : kstate :=
  s <| k_disk := freed i (k_disk s) |> <| k_procs := wake ChDiskFree (Some p) (k_procs s) |>.

(** One descriptor of the chain, and on to the next one. *)
Lemma free_chain_step s0 s p i fuel e :
  calm s0 p → k_x s = acquired Lvdisk (k_x s0) → length (k_procs s) = NPROC → (i < NUM)%nat →
  vd_free (k_disk s) !!! i = 0 →
  let de := vd_desc (k_disk s) !!! i in
  loop (S fuel) (λ i,
    d ← get_disk;
    let de := vd_desc d !!! Z.to_nat i in
    let flag := d_flags de in
    let nxt := d_next de in
    free_desc i;;
    mret (if Z.land flag VRING_DESC_F_NEXT =? 0 then inr () else inl nxt)) (Z.of_nat i) s e =
  if Z.land (d_flags de) VRING_DESC_F_NEXT =? 0 then Ok tt (freed_state s p i) e
  else loop fuel (λ i,
    d ← get_disk;
    let de := vd_desc d !!! Z.to_nat i in
    let flag := d_flags de in
    let nxt := d_next de in
    free_desc i;;
    mret (if Z.land flag VRING_DESC_F_NEXT =? 0 then inr () else inl nxt)) (d_next de) (freed_state s p i) e.
Proof.
  intros Hc Hx Hlen Hi Hf de. cbn [loop]. unfold get_disk.
  rewrite !bind_assoc, bind_gets, Nat2Z.id. cbn zeta. fold de.
  rewrite bind_assoc. erewrite bind_Ok by (by apply (free_desc_ok s0 s p i)).
  rewrite bind_ret. by destruct (_ =? 0).
Qed.

Lemma free_chain_ok s0 s p e d d1 b write bno :
  calm s0 p → k_x s = acquired Lvdisk (k_x s0) → length (k_procs s) = NPROC →
  in_flight d d1 b write bno → vd_free (k_disk s) = vd_free d1 → vd_desc (k_disk s) = vd_desc d1 →
  ∃ ps, free_chain 0 s e =
    Ok tt (s <| k_disk := freed 2 (freed 1 (freed 0 (k_disk s))) |> <| k_procs := ps |>) e ∧
    same_proc p (k_procs s) ps.
Proof.
  intros Hc Hx Hlen [_ Hf (a0 & l0 & a1 & l1 & f1 & a2 & l2 & C0 & C1 & Cf & C2) _ Hdl _ _ _ _ _ _ _] Ef Ed.
  set (w := wake ChDiskFree (Some p)).
  exists (w (w (w (k_procs s)))). split.
  2:{ by eapply same_proc_trans; [|eapply same_proc_trans]; apply same_proc_wake. }
  assert (length (w (k_procs s)) = NPROC ∧ length (w (w (k_procs s))) = NPROC) as [L1 L2]
    by (unfold w; by rewrite !length_wake).
  assert (∀ i, (i < 3)%nat → (i < NUM)%nat) as Hlt by (change NUM with 8%nat; lia).
  unfold free_chain. change 0 with (Z.of_nat 0) at 2.
  rewrite (free_chain_step s0 s p 0) by first [done | apply Hlt; lia | by rewrite Ef, Hf].
  rewrite Ed, C0. cbn [d_flags d_next]. change (Z.land VRING_DESC_F_NEXT VRING_DESC_F_NEXT =? 0) with false. cbv iota.
  set (s1 := freed_state s p 0).
  assert (vd_free (k_disk s1) = [1; 0; 0; 1; 1; 1; 1; 1]) as F1 by (simpl; by rewrite Ef, Hf).
  assert (vd_desc (k_disk s1) = <[0%nat := mk_desc DAnull 0 0 0]> (vd_desc d1)) as D1 by (simpl; by rewrite Ed).
  change (loop NUM) with (@loop kstate Z unit (S 7)). change 1 with (Z.of_nat 1) at 1.
  rewrite (free_chain_step s0 s1 p 1) by first [done | apply Hlt; lia | by rewrite F1].
  rewrite D1, (list_lookup_total_insert_ne _ 0 1), C1 by done. cbn [d_flags d_next].
  rewrite (proj2 (Z.eqb_neq _ _)) by done.
  set (s2 := freed_state s1 p 1).
  assert (vd_free (k_disk s2) = [1; 1; 0; 1; 1; 1; 1; 1]) as F2 by (change (<[1%nat := 1]> (vd_free (k_disk s1)) = [1; 1; 0; 1; 1; 1; 1; 1]); by rewrite F1).
  assert (vd_desc (k_disk s2) !!! 2%nat = vd_desc d1 !!! 2%nat) as D2.
  { change (<[1%nat := mk_desc DAnull 0 0 0]> (vd_desc (k_disk s1)) !!! 2%nat = vd_desc d1 !!! 2%nat).
    by rewrite D1, !list_lookup_total_insert_ne by done. }
  change (loop 7) with (@loop kstate Z unit (S 6)). change 2 with (Z.of_nat 2) at 1.
  rewrite (free_chain_step s0 s2 p 2) by first [done | apply Hlt; lia | by rewrite F2].
  by rewrite D2, C2.
Qed.

(** ** The whole request *)

(** The processes once [p], which slept for buffer [b], runs again. *)
Definition rewoken (p b : nat) (ps : list proc) : list proc :=
  let ps' := rerun p b (<[p := (ps !!! p) <| p_chan := Some (ChBuf b) |> <| p_state := SLEEPING |>]> ps) in
  <[p := (ps' !!! p) <| p_chan := None |>]> ps'.

Lemma rewoken_same p b ps :
  (p < length ps)%nat → p_state (ps !!! p) = RUNNING → p_chan (ps !!! p) = None →
  same_proc p ps (rewoken p b ps).
Proof.
  intros Hp Hst Hch. unfold rewoken, rerun. split.
  { by rewrite !length_insert, length_wake, length_insert. }
  rewrite list_lookup_total_insert_eq by (by rewrite length_insert, length_wake, length_insert).
  rewrite list_lookup_total_insert_eq by (by rewrite length_wake, length_insert).
  unfold wake. rewrite list_lookup_total_alt, list_lookup_imap, list_lookup_insert_eq by done. simpl.
  unfold wake1. rewrite bool_decide_false by done. simpl. rewrite !bool_decide_true by done. simpl.
  destruct (ps !!! p). simpl in *. by subst.
Qed.

(** The buffers after the request: a read fills the buffer. *)
Definition done_bufs (s : kstate) (b : nat) (write : bool) (bno : Z) : list buf :=
  if write then k_bufs s
  else <[b := (buf_at s b) <| b_data := block_at (k_disk s) bno |>]> (k_bufs s).

Lemma done_bufs_eq s b write bno x ps d1 :
  (b < length (k_bufs s))%nat → b_disk (buf_at s b) = 0 → block_at d1 bno = block_at (k_disk s) bno →
  let s2 := served 0 b 0 write bno ((posted s b d1) <| k_procs := ps |> <| k_x := x |>) in
  <[b := (buf_at s2 b) <| b_disk := 0 |>]> (k_bufs s2) = done_bufs s b write bno.
Proof.
  intros Hb H0 E s2. subst s2. unfold served, done_bufs, posted, buf_at in *. destruct write; simpl.
  - rewrite list_insert_insert_eq, list_lookup_total_insert_eq by done.
    rewrite list_insert_id; [done|]. rewrite list_lookup_lookup_total_lt by done. f_equal.
    destruct (k_bufs s !!! b). simpl in *. by subst.
  - rewrite !list_insert_insert_eq, !list_lookup_total_insert_eq by (rewrite ?length_insert; done). f_equal.
    rewrite E. destruct (k_bufs s !!! b). simpl in *. by subst.
Qed.

(** The driver's structures once the request is complete, before its
    descriptors are freed. *)
Record completed (d1 d2 : disk_t) (bks : gmap Z (list Z)) : Prop := {
  cm_free : vd_free d2 = vd_free d1;
  cm_desc : vd_desc d2 = vd_desc d1;
  cm_info : length (vd_info d2) = length (vd_info d1);
  cm_ops : length (vd_ops d2) = length (vd_ops d1);
  cm_avail : length (vd_avail_ring d2) = length (vd_avail_ring d1);
  cm_used : length (vd_used_ring d2) = length (vd_used_ring d1);
  cm_aidx : vd_avail_idx d2 = vd_avail_idx d1;
  cm_uidx : vd_used_idx d2 = u16 (vd_used_idx d1 + 1);
  cm_didx : vd_dev_used_idx d2 = u16 (vd_dev_used_idx d1 + 1);
  cm_blocks : vd_blocks d2 = bks;
}.

Definition done_blocks (s : kstate) (b : nat) (write : bool) (bno : Z) : gmap Z (list Z) :=
  if write then <[bno := b_data (buf_at s b)]> (vd_blocks (k_disk s)) else vd_blocks (k_disk s).

Lemma completed_served s b write bno d1 ps x :
  (b < length (k_bufs s))%nat → vd_blocks d1 = vd_blocks (k_disk s) →
  let s1 := (posted s b d1) <| k_procs := ps |> <| k_x := x |> in
  completed d1 (acked (k_disk (served 0 b 0 write bno s1))) (done_blocks s b write bno).
Proof.
  intros Hb E s1. subst s1. unfold served, done_blocks. destruct write; split; simpl; try done.
  all: rewrite ?length_insert; try done.
  rewrite E. f_equal. unfold buf_at. simpl. by rewrite list_lookup_total_insert_eq by done.
Qed.

Lemma rw_can_sleep s p b d1 : calm s p → can_sleep (posted s b d1) (k_x s) p Lvdisk.
Proof.
  intros [H1 H2 H3 H4 H5 H6 H7 H8]. split; try done; try by apply H8.
  change (p < length (k_procs s))%nat. lia.
Qed.

(** The wait, with the device and the interrupt coming. *)
Lemma rw_wait_ok s p b write bno d1 e :
  calm s p → (b < length (k_bufs s))%nat → b_disk (buf_at s b) = 0 →
  in_flight (k_disk s) d1 b write bno →
  ∃ d2, completed d1 d2 (done_blocks s b write bno) ∧
  rw_wait b (posted s b d1) (disk_move p :: e) =
    Ok tt (s <| k_disk := d2 |> <| k_bufs := done_bufs s b write bno |>
             <| k_procs := rewoken p b (k_procs s) |> <| k_x := acquired Lvdisk (k_x s) |>) e.
Proof.
  intros Hc Hb H0 Hfl. pose proof Hc as [H1 H2 H3 H4 H5 H6 [Hst Hch] H8].
  set (sa := asleep (posted s b d1) (k_x s) p (ChBuf b)).
  set (s2 := served 0 b 0 write bno sa).
  exists (acked (k_disk s2)). split; [by apply completed_served; [|apply Hfl]|].
  assert (proc_at sa p = (proc_at s p) <| p_chan := Some (ChBuf b) |> <| p_state := SLEEPING |>) as Ep.
  { unfold sa, asleep, posted, proc_at. simpl. apply list_lookup_total_insert_eq. lia. }
  assert (disk_move p sa = s2 <| k_disk := acked (k_disk s2) |>
             <| k_bufs := <[b := (buf_at s2 b) <| b_disk := 0 |>]> (k_bufs s2) |>
             <| k_procs := rerun p b (k_procs sa) |>
             <| k_x := with_intena false (acquired (Lproc p) (k_x s)) |>) as Em.
  { unfold disk_move.
    rewrite (pause_ok sa (k_x s) p b write bno (k_disk s)); try done.
    - unfold sa, asleep, posted. simpl. by rewrite length_insert.
    - unfold sa, asleep, posted. simpl. by rewrite length_insert.
    - by rewrite Ep.
    - by rewrite Ep. }
  assert (<[b := (buf_at s2 b) <| b_disk := 0 |>]> (k_bufs s2) = done_bufs s b write bno) as Eb.
  { apply (done_bufs_eq s b write bno _ _ d1); [done|done|]. unfold block_at. by rewrite (if_blocks _ _ _ _ _ Hfl). }
  assert (∀ A B P X, s2 <| k_disk := A |> <| k_bufs := B |> <| k_procs := P |> <| k_x := X |> =
    s <| k_disk := A |> <| k_bufs := B |> <| k_procs := P |> <| k_x := X |>) as Es.
  { intros. unfold s2, served. by destruct write. }
  rewrite Eb in Em. rewrite Es in Em. clearbody s2.
  unfold rw_wait. erewrite wait_loop_again.
  2:{ rewrite bind_gets. replace (b_disk _) with 1.
      2:{ unfold posted, buf_at. simpl. by rewrite list_lookup_total_insert_eq. }
      cbn [Z.eqb Pos.eqb].
      erewrite bind_Ok.
      2:{ apply (sleep_ok _ (k_x s) p); [by apply rw_can_sleep|]. exists false. fold sa. by rewrite Em. }
      reflexivity. }
  fold sa. rewrite Em. apply wait_loop_now. rewrite bind_gets.
  replace (b_disk _) with 0; [reflexivity|].
  unfold buf_at, done_bufs in *. simpl. destruct write; [done|].
  by rewrite list_lookup_total_insert_eq by done.
Qed.

Lemma rest_again d d1 d2 b write bno bks :
  disk_rest d → vd_avail_idx d1 = u16 (vd_avail_idx d + 1) → vd_used_idx d1 = vd_used_idx d →
  in_flight d d1 b write bno → completed d1 d2 bks →
  let d3 := d2 <| vd_info ::= λ l, <[0%nat := (l !!! 0%nat) <| vi_b := None |>]> l |> in
  disk_rest (freed 2 (freed 1 (freed 0 d3))) ∧ vd_blocks (freed 2 (freed 1 (freed 0 d3))) = bks.
Proof.
  intros [R1 R2 R3 R4 R5 R6 R7 R8 R9] Ea Eu [I1 I2 I3 I4 I5 I6 I7 I8 I9 I10 I11 I12]
    [C1 C2 C3 C4 C5 C6 C7 C8 C9 C10] d3.
  split; [|done].
  assert (∀ n, 0 <= u16 n < 65536) as Hr by (intros n; unfold u16; change (2 ^ 16) with 65536; zlia).
  split; simpl; rewrite ?length_insert; try congruence.
  - by rewrite C1, I2.
  - rewrite C7, Ea. apply Hr.
Qed.

(** One request.  The environment is the disk's move and then the rest. *)
Theorem virtio_rw_ok s p b write e :
  calm s p → disk_rest (k_disk s) → (b < length (k_bufs s))%nat → b_disk (buf_at s b) = 0 →
  0 <= b_blockno (buf_at s b) < 2147483648 →
  let bno := b_blockno (buf_at s b) in
  ∃ d' ps', virtio_disk_rw b write s (disk_move p :: e) =
    Ok tt (s <| k_disk := d' |> <| k_bufs := done_bufs s b write bno |> <| k_procs := ps' |>) e ∧
  disk_rest d' ∧ vd_blocks d' = done_blocks s b write bno ∧ same_proc p (k_procs s) ps'.
Proof.
  intros Hc Hr Hb H0 Hbno bno. rewrite (rw_post s p b write) by done. fold bno.
  set (d1 := post2 (post1 (k_disk s) b write bno) b).
  pose proof (in_flight_post (k_disk s) b write bno Hr Hbno) as Hfl. fold d1 in Hfl.
  destruct (rw_wait_ok s p b write bno d1 e Hc Hb H0 Hfl) as (d2 & Hd2 & Hw).
  assert (same_proc p (k_procs s) (rewoken p b (k_procs s))) as Hre.
  { apply rewoken_same; try by apply Hc. rewrite (ca_len _ _ Hc). apply Hc. }
  erewrite bind_Ok by done. unfold rw_finish, upd_disk. rewrite bind_modify.
  match goal with |- context [(free_chain 0 ≫= _) ?ss _] => set (s3 := ss) end.
  destruct (free_chain_ok s s3 p e (k_disk s) d1 b write bno) as (ps & Hf & Hps); try done.
  { change (length (rewoken p b (k_procs s)) = NPROC). by rewrite (proj1 Hre), (ca_len _ _ Hc). }
  all: try by apply Hd2.
  erewrite bind_Ok by done.
  erewrite (calm_release s) by done.
  destruct (rest_again (k_disk s) d1 d2 b write bno _ Hr eq_refl eq_refl Hfl Hd2) as [Hrest Hbk].
  eexists _, ps. split; [reflexivity|]. split; [exact Hrest|]. split; [exact Hbk|].
  by eapply same_proc_trans.
Qed.

(** Power lost while the request waits: the blocks are as they were. *)
Theorem virtio_rw_stuck s p b write :
  calm s p → disk_rest (k_disk s) → (b < length (k_bufs s))%nat →
  ∃ s', virtio_disk_rw b write s [] = Stuck s' ∧ vd_blocks (k_disk s') = vd_blocks (k_disk s).
Proof.
  intros Hc Hr Hb. rewrite (rw_post s p b write) by done.
  set (d1 := post2 (post1 (k_disk s) b write _) b).
  exists (asleep (posted s b d1) (k_x s) p (ChBuf b)). split; [|done].
  apply bind_Stuck, wait_loop_stuck. rewrite bind_gets. replace (b_disk _) with 1.
  2:{ unfold posted, buf_at. simpl. by rewrite list_lookup_total_insert_eq. }
  by apply bind_Stuck, sleep_stuck, rw_can_sleep.
Qed.

End device_spec.
