(* ===== verification/Bio.v ===== *)
(** The buffer cache: kernel/bio.c with struct buf of kernel/buf.h.

    [k_bufs] holds the [NBUF] buffers of [bcache.buf] and, at index [NBUF], the
    list head [bcache.head]. *)

From S2P Require Export Virtio.

Definition get_buf (b : nat) : K buf := gets (λ s, buf_at s b).

(** [&bcache.head] *)
Definition bhead : nat := NBUF.

Definition set_next (b n : nat) : K unit := upd_buf b (λ x, x <| b_next := n |>).
Definition set_prev (b n : nat) : K unit := upd_buf b (λ x, x <| b_prev := n |>).

Definition binit : K unit :=
  initlock Lbcache "bcache";;
  set_prev bhead bhead;;
  set_next bhead bhead;;
  for_each NBUF 0 (λ b,
    h ← get_buf bhead;
    set_next b (b_next h);;
    set_prev b bhead;;
    initsleeplock (SLbuf b) "buffer";;
    h ← get_buf bhead;
    set_prev (b_next h) b;;
    set_next bhead b).

(** The first scan of [bget]: along [next], for the block. *)
Definition bget_cached (dev blockno : Z) : K (option nat) :=
  h ← get_buf bhead;
  loop (S (S NBUF)) (λ b,
    if decide (b = bhead) then mret (inr None) else
    x ← get_buf b;
    if (b_dev x =? dev) && (b_blockno x =? blockno) then mret (inr (Some b))
    else mret (inl (b_next x))) (b_next h).

(** The second scan: along [prev], for an unused buffer. *)
Definition bget_unused : K (option nat) :=
  h ← get_buf bhead;
  loop (S (S NBUF)) (λ b,
    if decide (b = bhead) then mret (inr None) else
    x ← get_buf b;
    if b_refcnt x =? 0 then mret (inr (Some b)) else mret (inl (b_prev x))) (b_prev h).

Definition bget (dev blockno : Z) : K nat :=
  acquire Lbcache;;
  r ← bget_cached dev blockno;
  match r with
  | Some b =>
      upd_buf b (λ x, x <| b_refcnt ::= λ n, u32 (n + 1) |>);;
      release Lbcache;;
      acquiresleep (SLbuf b);;
      mret b
  | None =>
      r ← bget_unused;
      match r with
      | Some b =>
          upd_buf b (λ x, x <| b_dev := dev |>);;
          upd_buf b (λ x, x <| b_blockno := blockno |>);;
          upd_buf b (λ x, x <| b_valid := 0 |>);;
          upd_buf b (λ x, x <| b_refcnt := 1 |>);;
          release Lbcache;;
          acquiresleep (SLbuf b);;
          mret b
      | None => panic "bget: no buffers"
      end
  end.

Definition bread (dev blockno : Z) : K nat :=
  b ← bget dev blockno;
  x ← get_buf b;
  when (b_valid x =? 0) (
    virtio_disk_rw b false;;
    upd_buf b (λ x, x <| b_valid := 1 |>));;
  mret b.

Definition bwrite (b : nat) : K unit :=
  h ← holdingsleep (SLbuf b);
  if negb h then panic "bwrite" else
  virtio_disk_rw b true.

Definition brelse (b : nat) : K unit :=
  h ← holdingsleep (SLbuf b);
  if negb h then panic "brelse" else
  releasesleep (SLbuf b);;
  acquire Lbcache;;
  upd_buf b (λ x, x <| b_refcnt ::= λ n, u32 (n - 1) |>);;
  x ← get_buf b;
  when (b_refcnt x =? 0) (
    x ← get_buf b;
    set_prev (b_next x) (b_prev x);;
    x ← get_buf b;
    set_next (b_prev x) (b_next x);;
    h ← get_buf bhead;
    set_next b (b_next h);;
    set_prev b bhead;;
    h ← get_buf bhead;
    set_prev (b_next h) b;;
    set_next bhead b);;
  release Lbcache.

Definition bpin (b : nat) : K unit :=
  acquire Lbcache;;
  upd_buf b (λ x, x <| b_refcnt ::= λ n, u32 (n + 1) |>);;
  release Lbcache.

Definition bunpin (b : nat) : K unit :=
  acquire Lbcache;;
  upd_buf b (λ x, x <| b_refcnt ::= λ n, u32 (n - 1) |>);;
  release Lbcache.
