(* ===== verification/BufRing.v ===== *)
(** The list of buffers of kernel/bio.c: a circular doubly linked list through
    [b_next] and [b_prev], ordered by recency of use.  [unlink] and [push] are
    the updates that [brelse] and [binit] make; the list they leave is computed
    by [move_front]. *)

From S2P Require Export Bio.

Section chain.
Context (nx pv : nat → nat).

(** Neighbours in [c] point at each other. *)
Fixpoint linked (c : list nat) : Prop :=
  match c with
  | x :: ((y :: _) as t) => nx x = y ∧ pv y = x ∧ linked t
  | _ => True
  end.

Lemma linked_app c1 x c2 : linked (c1 ++ x :: c2) ↔ linked (c1 ++ [x]) ∧ linked (x :: c2).
Proof.
  induction c1 as [|y [|z c1] IH]; simpl in *; [tauto|tauto|]. rewrite IH. tauto.
Qed.

End chain.

Lemma linked_ext nx pv nx' pv' c :
  (∀ c1 x c2, c = c1 ++ x :: c2 → c2 ≠ [] → nx' x = nx x) →
  (∀ c1 x c2, c = c1 ++ x :: c2 → c1 ≠ [] → pv' x = pv x) →
  linked nx pv c → linked nx' pv' c.
Proof.
  induction c as [|x [|y c] IH]; intros Hn Hp; simpl; [done|done|]. intros (E1 & E2 & H).
  rewrite (Hn [] x (y :: c)) by done. rewrite (Hp [x] y c) by done. split; [done|]. split; [done|].
  apply IH; [| |done]; intros c1 z c2 E N.
  - by apply (Hn (x :: c1) z c2); [simpl; f_equal|].
  - by apply (Hp (x :: c1) z c2); [simpl; f_equal|].
Qed.

(** ** The links of the cache *)

Definition nx (bs : list buf) (i : nat) : nat := b_next (bs !!! i).
Definition pv (bs : list buf) (i : nat) : nat := b_prev (bs !!! i).
Definition set_nx (b n : nat) (bs : list buf) : list buf := <[b := (bs !!! b) <| b_next := n |>]> bs.
Definition set_pv (b n : nat) (bs : list buf) : list buf := <[b := (bs !!! b) <| b_prev := n |>]> bs.

(** The order of the buffers, most recent first. *)
Record lru (bs : list buf) (l : list nat) : Prop := {
  lru_len : length bs = S NBUF;
  lru_perm : l ≡ₚ seq 0 NBUF;
  lru_ring : linked (nx bs) (pv bs) (bhead :: l ++ [bhead]);
}.

(** All fields but the links. *)
Definition core (x : buf) : buf := x <| b_next := 0%nat |> <| b_prev := 0%nat |>.

Definition same_core (bs bs' : list buf) : Prop :=
  length bs' = length bs ∧ ∀ i, core (bs' !!! i) = core (bs !!! i).

Lemma nx_set_nx b n bs i :
  (b < length bs)%nat → nx (set_nx b n bs) i = if decide (i = b) then n else nx bs i.
Proof.
  intros. unfold nx, set_nx. destruct (decide (i = b)) as [->|N].
  - by rewrite list_lookup_total_insert_eq.
  - by rewrite list_lookup_total_insert_ne.
Qed.

Lemma pv_set_pv b n bs i :
  (b < length bs)%nat → pv (set_pv b n bs) i = if decide (i = b) then n else pv bs i.
Proof.
  intros. unfold pv, set_pv. destruct (decide (i = b)) as [->|N].
  - by rewrite list_lookup_total_insert_eq.
  - by rewrite list_lookup_total_insert_ne.
Qed.

Lemma total_insert_cases (b i : nat) (x : buf) bs :
  <[b := x]> bs !!! i = if decide (i = b ∧ (b < length bs)%nat) then x else bs !!! i.
Proof.
  case_decide as H; [destruct H as [-> H]; by apply list_lookup_total_insert_eq|].
  destruct (decide (i = b)) as [->|N]; [|by apply list_lookup_total_insert_ne].
  rewrite list_insert_ge; [done|]. destruct (decide (b < length bs)%nat); [|lia]. by destruct H.
Qed.

Lemma nx_set_pv b n bs i : nx (set_pv b n bs) i = nx bs i.
Proof. unfold nx, set_pv. rewrite total_insert_cases. case_decide as H; [|done]. by destruct H as [-> _]. Qed.
Lemma pv_set_nx b n bs i : pv (set_nx b n bs) i = pv bs i.
Proof. unfold pv, set_nx. rewrite total_insert_cases. case_decide as H; [|done]. by destruct H as [-> _]. Qed.
Lemma length_set_nx b n bs : length (set_nx b n bs) = length bs.
Proof. apply length_insert. Qed.
Lemma length_set_pv b n bs : length (set_pv b n bs) = length bs.
Proof. apply length_insert. Qed.

Lemma same_core_refl bs : same_core bs bs.
Proof. done. Qed.
Lemma same_core_trans bs1 bs2 bs3 : same_core bs1 bs2 → same_core bs2 bs3 → same_core bs1 bs3.
Proof. intros [L1 E1] [L2 E2]. split; [congruence|]. intros i. by rewrite E2. Qed.
Lemma core_set_nx b n bs : same_core bs (set_nx b n bs).
Proof.
  split; [apply length_set_nx|]. intros i. unfold set_nx. rewrite total_insert_cases.
  case_decide as H; [|done]. by destruct H as [-> _].
Qed.
Lemma core_set_pv b n bs : same_core bs (set_pv b n bs).
Proof.
  split; [apply length_set_pv|]. intros i. unfold set_pv. rewrite total_insert_cases.
  case_decide as H; [|done]. by destruct H as [-> _].
Qed.

(** [b->next->prev = b->prev; b->prev->next = b->next] *)
Definition unlink (b : nat) (bs : list buf) : list buf :=
  let bs1 := set_pv (nx bs b) (pv bs b) bs in set_nx (pv bs1 b) (nx bs1 b) bs1.

(** [b->next = head.next; b->prev = &head; head.next->prev = b; head.next = b] *)
Definition push (b : nat) (bs : list buf) : list buf :=
  let bs1 := set_pv b bhead (set_nx b (nx bs bhead) bs) in
  set_nx bhead b (set_pv (nx bs1 bhead) b bs1).

Definition move_front (b : nat) (l : list nat) : list nat := b :: filter (λ x, x ≠ b) l.

Lemma core_unlink b bs : same_core bs (unlink b bs).
Proof. eapply same_core_trans; [apply core_set_pv|apply core_set_nx]. Qed.
Lemma core_push b bs : same_core bs (push b bs).
Proof.
  unfold push. eapply same_core_trans; [|apply core_set_nx].
  eapply same_core_trans; [|apply core_set_pv].
  eapply same_core_trans; [|apply core_set_pv]. apply core_set_nx.
Qed.

Lemma snoc_inv {A} (x : A) l : ∃ c u, x :: l = c ++ [u].
Proof. destruct (exists_last (l := x :: l)) as (c & u & ->); [done|]. by exists c, u. Qed.
Lemma cons_inv {A} (x : A) l : ∃ v c, l ++ [x] = v :: c.
Proof. destruct l as [|v c]; [by exists x, []|]. by exists v, (c ++ [x]). Qed.

Lemma in_tail {A} (y x : A) l c1 c2 : y :: l = c1 ++ x :: c2 → c1 ≠ [] → x ∈ l.
Proof. destruct c1 as [|z c1]; [done|]. intros [= -> ->] _. set_solver. Qed.
Lemma in_front {A} (y x : A) l c1 c2 : l ++ [y] = c1 ++ x :: c2 → c2 ≠ [] → x ∈ l.
Proof.
  intros E N. destruct (exists_last N) as (c & z & ->).
  change (x :: c ++ [z]) with ((x :: c) ++ [z]) in E. rewrite app_assoc in E.
  apply app_inj_tail in E as [-> _]. set_solver.
Qed.

Lemma unlink_links bs b u v :
  (u < length bs)%nat → (v < length bs)%nat → pv bs b = u → nx bs b = v →
  (∀ i, nx (unlink b bs) i = if decide (i = u) then v else nx bs i) ∧
  (∀ i, pv (unlink b bs) i = if decide (i = v) then u else pv bs i).
Proof.
  intros Hu Hv Ep En. unfold unlink. rewrite En, Ep.
  assert (pv (set_pv v u bs) b = u) as -> by (rewrite pv_set_pv by done; by case_decide).
  assert (nx (set_pv v u bs) b = v) as -> by (by rewrite nx_set_pv).
  split; intros i.
  - rewrite nx_set_nx by (by rewrite length_set_pv). by rewrite nx_set_pv.
  - by rewrite pv_set_nx, pv_set_pv.
Qed.

Lemma unlink_ring bs l1 b l2 :
  NoDup (bhead :: l1 ++ b :: l2) → Forall (λ i, (i < length bs)%nat) (bhead :: l1 ++ b :: l2) →
  linked (nx bs) (pv bs) (bhead :: (l1 ++ b :: l2) ++ [bhead]) →
  linked (nx (unlink b bs)) (pv (unlink b bs)) (bhead :: (l1 ++ l2) ++ [bhead]).
Proof.
  intros Hnd Hlt H. destruct (snoc_inv bhead l1) as (c & u & E1).
  destruct (cons_inv bhead l2) as (v & d & E2).
  assert (bhead :: (l1 ++ b :: l2) ++ [bhead] = c ++ u :: b :: v :: d) as E.
  { rewrite <- app_assoc. simpl. rewrite E2. change (bhead :: l1 ++ b :: v :: d) with ((bhead :: l1) ++ b :: v :: d).
    by rewrite E1, <- app_assoc. }
  assert (bhead :: (l1 ++ l2) ++ [bhead] = c ++ u :: v :: d) as ->.
  { rewrite <- app_assoc, E2. change (bhead :: l1 ++ v :: d) with ((bhead :: l1) ++ v :: d).
    by rewrite E1, <- app_assoc. }
  rewrite E in H. apply linked_app in H as [Hc (N1 & P1 & N2 & P2 & Hd)].
  assert (u ∈ bhead :: l1) as Iu by (rewrite E1; set_solver).
  assert (v ∈ l2 ++ [bhead]) as Iv by (rewrite E2; set_solver).
  rewrite Forall_forall in Hlt.
  destruct (unlink_links bs b u v) as [Nx Pv]; [apply Hlt; set_solver|apply Hlt; set_solver|done|done|].
  rewrite app_comm_cons, E1 in Hnd. apply NoDup_app in Hnd as (Nd1 & Nd2 & Nd3).
  rewrite <- E1 in Nd2. pose proof Nd1 as Nc. rewrite <- E1 in Nd1.
  apply NoDup_cons in Nd1 as [Nb1 Nd1]. apply NoDup_cons in Nd3 as [Nb2 Nd3].
  apply NoDup_app in Nc as (_ & Nc & _). apply linked_app. split; [|split; [|split]].
  - eapply linked_ext; [| |exact Hc]; intros c1 x c2 Ex Nx'.
    + rewrite Nx. rewrite decide_False; [done|]. intros ->. apply in_front in Ex; [|done]. set_solver.
    + rewrite Pv. rewrite decide_False; [done|]. intros ->. rewrite <- E1 in Ex. apply in_tail in Ex; [|done].
      apply elem_of_app in Iv as [Iv|Iv]; [apply (Nd2 v); by right|].
      apply list_elem_of_singleton in Iv as ->. done.
  - rewrite Nx. by rewrite decide_True.
  - rewrite Pv. by rewrite decide_True.
  - eapply linked_ext; [| |exact Hd]; intros c1 x c2 Ex Nx'.
    + rewrite Nx. rewrite decide_False; [done|]. intros ->. rewrite <- E2 in Ex. apply in_front in Ex; [|done].
      apply (Nd2 u); [done|by right].
    + rewrite Pv. rewrite decide_False; [done|]. intros ->. apply in_tail in Ex; [|done].
      assert (NoDup (v :: d)) as Nvd.
      { rewrite <- E2. apply NoDup_app. split; [done|]. split; [set_solver|apply NoDup_singleton]. }
      apply NoDup_cons in Nvd as [Nvd _]. done.
Qed.

Lemma push_links bs b v :
  (b < length bs)%nat → (v < length bs)%nat → (bhead < length bs)%nat → b ≠ bhead → nx bs bhead = v →
  (∀ i, nx (push b bs) i = if decide (i = bhead) then b else if decide (i = b) then v else nx bs i) ∧
  (∀ i, pv (push b bs) i = if decide (i = v) then b else if decide (i = b) then bhead else pv bs i).
Proof.
  intros Hb Hv Hh N En. unfold push. rewrite En. set (bs1 := set_pv b bhead (set_nx b v bs)).
  assert (length bs1 = length bs) as L1 by (unfold bs1; by rewrite length_set_pv, length_set_nx).
  assert (∀ i, nx bs1 i = if decide (i = b) then v else nx bs i) as Nx
    by (intros i; unfold bs1; rewrite nx_set_pv, nx_set_nx; done).
  assert (∀ i, pv bs1 i = if decide (i = b) then bhead else pv bs i) as Pv
    by (intros i; unfold bs1; rewrite pv_set_pv, pv_set_nx by (by rewrite length_set_nx); done).
  assert (nx bs1 bhead = v) as -> by (rewrite Nx; by rewrite decide_False by done).
  split; intros i.
  - rewrite nx_set_nx, nx_set_pv, Nx by (by rewrite length_set_pv, L1). done.
  - rewrite pv_set_nx, pv_set_pv, Pv by (by rewrite L1). done.
Qed.

Lemma push_ring bs b l :
  NoDup (bhead :: l) → b ∉ bhead :: l → (b < length bs)%nat →
  Forall (λ i, (i < length bs)%nat) (bhead :: l) →
  linked (nx bs) (pv bs) (bhead :: l ++ [bhead]) →
  linked (nx (push b bs)) (pv (push b bs)) (bhead :: (b :: l) ++ [bhead]).
Proof.
  intros Hnd Nb Hb Hlt H. destruct (cons_inv bhead l) as (v & d & E). simpl. rewrite E in *.
  simpl in H. destruct H as (N1 & P1 & Hd). rewrite Forall_forall in Hlt.
  assert (v ∈ l ++ [bhead]) as Iv by (rewrite E; set_solver).
  destruct (push_links bs b v) as [Nx Pv]; [done|apply Hlt; set_solver|apply Hlt; set_solver|set_solver|done|].
  apply NoDup_cons in Hnd as [Nh Hnd].
  assert (NoDup (v :: d)) as Nvd.
  { rewrite <- E. apply NoDup_app. split; [done|]. split; [set_solver|apply NoDup_singleton]. }
  apply NoDup_cons in Nvd as [Nvd _].
  split; [rewrite Nx; by rewrite decide_True|]. split.
  { rewrite Pv. rewrite decide_False by set_solver. by rewrite decide_True. }
  split; [rewrite Nx; rewrite decide_False by set_solver; by rewrite decide_True|].
  split; [rewrite Pv; by rewrite decide_True|].
  eapply linked_ext; [| |exact Hd]; intros c1 x c2 Ex Nn.
  - rewrite <- E in Ex. apply in_front in Ex; [|done]. rewrite Nx. rewrite !decide_False by set_solver. done.
  - apply in_tail in Ex; [|done]. rewrite Pv.
    assert (x ∈ l ++ [bhead]) by (rewrite E; set_solver).
    rewrite !decide_False by set_solver. done.
Qed.

(** ** The order as a whole *)

Lemma filter_all (b : nat) (k : list nat) : b ∉ k → filter (λ x, x ≠ b) k = k.
Proof.
  induction k as [|x k IH]; intros H; [done|]. rewrite filter_cons_True by set_solver.
  f_equal. apply IH. set_solver.
Qed.

Section lru.
Context (bs : list buf) (l : list nat) (Hl : lru bs l).

Lemma lru_elem b : b ∈ l ↔ (b < NBUF)%nat.
Proof. rewrite (lru_perm _ _ Hl), elem_of_seq. lia. Qed.

Lemma lru_nodup : NoDup (bhead :: l).
Proof.
  apply NoDup_cons. split; [rewrite lru_elem; unfold bhead; lia|].
  rewrite (lru_perm _ _ Hl). apply NoDup_seq.
Qed.

Lemma lru_bound : Forall (λ i, (i < length bs)%nat) (bhead :: l).
Proof.
  apply Forall_forall. intros i Hi. rewrite (lru_len _ _ Hl). apply elem_of_cons in Hi as [->|Hi].
  - unfold bhead. lia.
  - apply lru_elem in Hi. lia.
Qed.

Lemma lru_move b : (b < NBUF)%nat → lru (push b (unlink b bs)) (move_front b l).
Proof.
  intros Hb. pose proof lru_nodup as Nd. pose proof lru_bound as Hlt.
  apply lru_elem in Hb. pose proof Hb as Hb'. apply list_elem_of_split in Hb' as (l1 & l2 & E).
  destruct (core_unlink b bs) as [L1 _]. destruct (core_push b (unlink b bs)) as [L2 _].
  pose proof Hl as [Hlen Hperm Hring]. unfold move_front. rewrite E in Nd, Hlt, Hb, Hperm, Hring |- *.
  pose proof Nd as Nd'. apply NoDup_cons in Nd' as [Nh Nd'].
  assert (b ∉ l1 ++ l2) as Nb.
  { apply NoDup_app in Nd' as (_ & N1 & N2). apply NoDup_cons in N2 as [N2 _]. set_solver. }
  rewrite filter_app, filter_cons_False, <- filter_app, filter_all by (done || (intros F; by apply F)).
  split; [congruence|by rewrite <- Hperm, Permutation_middle|].
  apply unlink_ring in Hring; [|done|done]. rewrite Forall_forall in Hlt. apply push_ring; [| | | |done].
  - apply NoDup_cons. split; [set_solver|].
    rewrite <- Permutation_middle in Nd'. by apply NoDup_cons in Nd' as [_ ?].
  - apply not_elem_of_cons. split; [|done]. intros ->. apply Nh. set_solver.
  - rewrite L1. apply Hlt. set_solver.
  - apply Forall_forall. intros i Hi. rewrite L1. apply Hlt. set_solver.
Qed.

End lru.

(** ** The scans *)

(** Each element of [c] leads to the next one by [g]. *)
Fixpoint steps (g : nat → nat) (c : list nat) : Prop :=
  match c with
  | x :: ((y :: _) as t) => g x = y ∧ steps g t
  | _ => True
  end.

Lemma linked_steps n p c : linked n p c → steps n c.
Proof. induction c as [|x [|y c] IH]; simpl in *; tauto. Qed.

Lemma steps_snoc g c x y : steps g (c ++ [x]) → g x = y → steps g (c ++ [x; y]).
Proof. induction c as [|z [|z' c] IH]; simpl in *; [tauto|tauto|]. intros [E H] E'. split; [done|]. by apply IH. Qed.

Lemma linked_steps_rev n p c : linked n p c → steps p (rev c).
Proof.
  induction c as [|x [|y c] IH]; simpl in *; [done|done|]. intros (E1 & E2 & H).
  rewrite <- app_assoc. apply steps_snoc; [by apply IH|done].
Qed.

Lemma scan_ok (g : buf → nat) (test : buf → bool) s e l n x0 :
  steps (λ i, g (buf_at s i)) (x0 :: l ++ [bhead]) → bhead ∉ l → (length l < n)%nat →
  loop n (λ b, if decide (b = bhead) then mret (inr None) else
    x ← get_buf b;
    if test x then mret (inr (Some b)) else mret (inl (g x))) (g (buf_at s x0)) s e =
  Ok (find (λ b, test (buf_at s b)) l) s e.
Proof.
  revert n x0. induction l as [|y l IH]; intros n x0 [E H] Nh Hn; simpl in Hn; (destruct n as [|n]; [lia|]).
  - rewrite E. cbn [loop]. by rewrite decide_True.
  - rewrite E. cbn [loop]. rewrite decide_False by set_solver. unfold get_buf.
    rewrite bind_assoc, bind_gets. simpl find. destruct (test (buf_at s y)) eqn:Et; [done|].
    rewrite bind_ret. apply IH; [done|set_solver|lia].
Qed.

Lemma bget_cached_ok s e l dev bno :
  lru (k_bufs s) l →
  bget_cached dev bno s e =
    Ok (find (λ b, (b_dev (buf_at s b) =? dev) && (b_blockno (buf_at s b) =? bno)) l) s e.
Proof.
  intros Hl. unfold bget_cached. erewrite bind_Ok by reflexivity.
  apply (scan_ok b_next (λ x, (b_dev x =? dev) && (b_blockno x =? bno)) s e l (S (S NBUF)) bhead).
  - eapply linked_steps, Hl.
  - apply (NoDup_cons_1_1 _ _ (lru_nodup _ _ Hl)).
  - rewrite (Permutation_length (lru_perm _ _ Hl)), length_seq. lia.
Qed.

Lemma bget_unused_ok s e l :
  lru (k_bufs s) l → bget_unused s e = Ok (find (λ b, b_refcnt (buf_at s b) =? 0) (rev l)) s e.
Proof.
  intros Hl. unfold bget_unused. erewrite bind_Ok by reflexivity.
  apply (scan_ok b_prev (λ x, b_refcnt x =? 0) s e (rev l) (S (S NBUF)) bhead).
  - pose proof (linked_steps_rev _ _ _ (lru_ring _ _ Hl)) as H. simpl in H. rewrite rev_app_distr in H. exact H.
  - rewrite list_elem_of_In, <- in_rev, <- list_elem_of_In. apply (NoDup_cons_1_1 _ _ (lru_nodup _ _ Hl)).
  - rewrite length_rev, (Permutation_length (lru_perm _ _ Hl)), length_seq. lia.
Qed.
