(* ===== verification/Crash.v ===== *)
(** Code that uses the disk, run until it returns or the power fails.

    Every disk request waits for one move of the disk ([disk_move] of Device.v).
    A run with [k] moves is a run in which the power fails after the [k]-th
    request was served; where it stops, [vd_blocks] is what the disk holds. *)

From S2P Require Export DeviceSpec.

Section crash.
Context `{V : VirtioDevice}.

(** [m] does not panic; it needs at most [c] requests; it returns with [Q], and
    wherever the power fails the blocks of the disk satisfy [C]. *)
Definition cwp (p c : nat) {A} (m : K A) (s : kstate) (Q : A → kstate → Prop)
    (C : gmap Z (list Z) → Prop) : Prop :=
  ∀ k, match m s (replicate k (disk_move p)) with
       | Ok a s' e' => ∃ k', e' = replicate k' (disk_move p) ∧ (k <= k' + c)%nat ∧ Q a s'
       | Panic _ _ => False
       | Stuck s' => (k < c)%nat ∧ C (vd_blocks (k_disk s'))
       end.

Context (p : nat).

Lemma cwp_ret {A} (a : A) s (Q : A → kstate → Prop) C : Q a s → cwp p 0 (mret a) s Q C.
Proof. intros H k. exists k. split; [done|]. split; [lia|done]. Qed.

Lemma cwp_ok {A} (m : K A) s a s' (Q : A → kstate → Prop) C :
  (∀ e, m s e = Ok a s' e) → Q a s' → cwp p 0 m s Q C.
Proof. intros E H k. rewrite E. exists k. split; [done|]. split; [lia|done]. Qed.

Lemma cwp_bind {A B} c1 c2 (m : K A) (f : A → K B) s (Q : B → kstate → Prop) C :
  cwp p c1 m s (λ a s', cwp p c2 (f a) s' Q C) C → cwp p (c1 + c2) (m ≫= f) s Q C.
Proof.
  intros H k. specialize (H k). unfold mbind, M_bind.
  destruct (m s (replicate k (disk_move p))) as [a s' e'| |s']; [|done|].
  - destruct H as (k' & -> & Hk & H). specialize (H k').
    destruct (f a s' _) as [b s2 e2| |s2]; [|done|].
    + destruct H as (k2 & -> & Hk2 & H). exists k2. split; [done|]. split; [lia|done].
    + destruct H. split; [lia|done].
  - destruct H. split; [lia|done].
Qed.

Lemma cwp_bind_ok {A B} c (m : K A) (f : A → K B) s a s' (Q : B → kstate → Prop) C :
  (∀ e, m s e = Ok a s' e) → cwp p c (f a) s' Q C → cwp p c (m ≫= f) s Q C.
Proof. intros E H. apply (cwp_bind 0 c). by apply (cwp_ok _ _ a s'). Qed.

Lemma cwp_mono {A} c c' (m : K A) s (Q Q' : A → kstate → Prop) (C C' : gmap Z (list Z) → Prop) :
  cwp p c m s Q C → (c <= c')%nat → (∀ a s', Q a s' → Q' a s') → (∀ D, C D → C' D) → cwp p c' m s Q' C'.
Proof.
  intros H Hc HQ HC k. specialize (H k). destruct (m s _) as [a s' e'| |s']; [|done|].
  - destruct H as (k' & -> & Hk & H). exists k'. split; [done|]. split; [lia|auto].
  - destruct H. split; [lia|auto].
Qed.

(** A loop with an invariant; [C] covers every round. *)
Lemma cwp_for_each n i c body s (I : nat → kstate → Prop) (Q : unit → kstate → Prop) C :
  I i s →
  (∀ j s, (i <= j < i + n)%nat → I j s → cwp p c (body j) s (λ _ s', I (S j) s') C) →
  (∀ s, I (i + n)%nat s → Q tt s) →
  cwp p (n * c) (for_each n i body) s Q C.
Proof.
  revert i s. induction n as [|n IH]; intros i s HI Hb HQ; cbn [for_each].
  - apply cwp_ret, HQ. by rewrite Nat.add_0_r.
  - apply (cwp_bind c (n * c)). eapply cwp_mono; [apply (Hb i s); [lia|done]|done| |done].
    intros [] s' H. apply IH; [done| |].
    + intros j s2 Hj. apply Hb. lia.
    + intros s2. rewrite Nat.add_succ_comm. apply HQ.
Qed.

(** A request. *)
Lemma cwp_rw s b write (Q : unit → kstate → Prop) (C : gmap Z (list Z) → Prop) :
  calm s p → disk_rest (k_disk s) → (b < length (k_bufs s))%nat → b_disk (buf_at s b) = 0 →
  let bno := b_blockno (buf_at s b) in
  0 <= bno < 2147483648 → C (vd_blocks (k_disk s)) →
  (∀ d' ps', disk_rest d' → vd_blocks d' = done_blocks s b write bno → same_proc p (k_procs s) ps' →
     Q tt (s <| k_disk := d' |> <| k_bufs := done_bufs s b write bno |> <| k_procs := ps' |>)) →
  cwp p 1 (virtio_disk_rw b write) s Q C.
Proof.
  intros Hc Hr Hb H0 bno Hbno HC HQ [|k]; cbn [replicate].
  - destruct (virtio_rw_stuck s p b write Hc Hr Hb) as (s' & -> & ->). split; [lia|done].
  - destruct (virtio_rw_ok s p b write (replicate k (disk_move p)) Hc Hr Hb H0 Hbno)
      as (d' & ps' & -> & Hr' & Hb' & Hps). exists k. split; [done|]. split; [lia|]. by apply HQ.
Qed.

End crash.
