(* ===== verification/Cache.v ===== *)
(** The buffer cache as the rest of the kernel sees it: blocks, some of them
    pinned with contents that are not on the disk yet, some of them held.

    [cache s p D P H] says that process [p] runs, that the disk holds [D], that
    the blocks of [P] are pinned with the contents [P] gives, and that [p] holds
    the buffers of [H] with the block numbers and contents [H] gives.  The specs
    of [bread], [bwrite], [brelse], [bpin] and [bunpin] are equations on [D],
    [P] and [H]. *)

From S2P Require Export BufRing Crash.

Notation blocks := (gmap Z (list Z)).

Definition blk (D : blocks) (bno : Z) : list Z :=
  default (replicate (Z.to_nat BSIZE) 0) (D !! bno).

(** What a reader of block [bno] gets. *)
Definition cview (D P : blocks) (bno : Z) : list Z :=
  match P !! bno with Some x => x | None => blk D bno end.

Definition pins (P : blocks) (x : buf) : Z :=
  if bool_decide (b_dev x = ROOTDEV ∧ is_Some (P !! b_blockno x)) then 1 else 0.

Definition holds (h : option (Z * list Z)) : Z := match h with Some _ => 1 | None => 0 end.

(** One buffer; [h] says whether, and with what, process [pid] holds it. *)
Record buf_ok (D P : blocks) (pid : Z) (h : option (Z * list Z)) (x : buf) : Prop := {
  bo_disk : b_disk x = 0;
  bo_bno : 0 <= b_blockno x < 2147483648;
  bo_ref : b_refcnt x = holds h + pins P x;
  bo_valid : b_dev x = ROOTDEV → is_Some (P !! b_blockno x) → b_valid x ≠ 0;
  bo_held : match h with
    | None => slk_locked (b_lock x) = 0 ∧
        (b_dev x = ROOTDEV → b_valid x ≠ 0 → b_data x = cview D P (b_blockno x))
    | Some (bno, d) => b_dev x = ROOTDEV ∧ b_blockno x = bno ∧ b_valid x ≠ 0 ∧ b_data x = d ∧
        slk_locked (b_lock x) ≠ 0 ∧ slk_pid (b_lock x) = pid
    end;
}.

Section cache.
Context `{V : VirtioDevice}.
Context (p : nat).

Record cache (s : kstate) (D P : blocks) (H : gmap nat (Z * list Z)) : Prop := {
  ch_calm : calm s p;
  ch_rest : disk_rest (k_disk s);
  ch_blocks : vd_blocks (k_disk s) = D;
  ch_lru : ∃ l, lru (k_bufs s) l;
  ch_uniq : ∀ a b, (a < NBUF)%nat → (b < NBUF)%nat → b_dev (buf_at s a) = ROOTDEV →
    b_dev (buf_at s b) = ROOTDEV → b_blockno (buf_at s a) = b_blockno (buf_at s b) → a = b;
  ch_pin : ∀ bno, is_Some (P !! bno) →
    ∃ b, (b < NBUF)%nat ∧ b_dev (buf_at s b) = ROOTDEV ∧ b_blockno (buf_at s b) = bno;
  ch_buf : ∀ b, (b < NBUF)%nat → buf_ok D P (p_pid (proc_at s p)) (H !! b) (buf_at s b);
  ch_dom : ∀ b, is_Some (H !! b) → (b < NBUF)%nat;
}.

Lemma cache_len s D P H : cache s D P H → length (k_bufs s) = S NBUF.
Proof. intros Hc. destruct (ch_lru _ _ _ _ Hc) as [l Hl]. apply Hl. Qed.

(** Links are unaffected by changes to other fields. *)
Lemma lru_upd bs l b y :
  lru bs l → b_next y = b_next (bs !!! b) → b_prev y = b_prev (bs !!! b) → lru (<[b := y]> bs) l.
Proof.
  intros [H1 H2 H3] En Ep. split; [by rewrite length_insert|done|].
  assert (∀ i, nx (<[b := y]> bs) i = nx bs i ∧ pv (<[b := y]> bs) i = pv bs i) as E.
  { intros i. unfold nx, pv. rewrite total_insert_cases. case_decide as Hi; [|done]. by destruct Hi as [-> _]. }
  eapply linked_ext; [| |exact H3]; intros; apply E.
Qed.

Lemma buf_ok_other D D' P P' pid h x bno :
  buf_ok D P pid h x → (b_dev x = ROOTDEV → b_blockno x ≠ bno) →
  (∀ n, n ≠ bno → P' !! n = P !! n ∧ blk D' n = blk D n) → buf_ok D' P' pid h x.
Proof.
  intros [B1 B2 B3 B4 B5] N E.
  assert (b_dev x = ROOTDEV → P' !! b_blockno x = P !! b_blockno x ∧ cview D' P' (b_blockno x) = cview D P (b_blockno x)) as Ev.
  { intros Hd. destruct (E (b_blockno x) (N Hd)) as [E1 E2]. split; [done|]. unfold cview. by rewrite E1, E2. }
  split; [done|done| | |].
  - rewrite B3. f_equal. unfold pins. erewrite bool_decide_ext; [reflexivity|]. split; intros [Hd Hp]; (split; [done|]).
    + by rewrite (proj1 (Ev Hd)).
    + by rewrite <- (proj1 (Ev Hd)).
  - intros Hd Hp. apply B4; [done|]. by rewrite <- (proj1 (Ev Hd)).
  - destruct h as [[n d]|]; [done|]. destruct B5 as [B5 B6]. split; [done|].
    intros Hd Hv. rewrite (proj2 (Ev Hd)). auto.
Qed.

(** Every operation changes one buffer. *)
Lemma cache_upd s s' D D' P P' H H' b y :
  cache s D P H → (b < NBUF)%nat → calm s' p → p_pid (proc_at s' p) = p_pid (proc_at s p) →
  disk_rest (k_disk s') → vd_blocks (k_disk s') = D' →
  k_bufs s' = <[b := y]> (k_bufs s) → b_next y = b_next (buf_at s b) → b_prev y = b_prev (buf_at s b) →
  (∀ a, a ≠ b → H' !! a = H !! a) →
  (∀ n, n ≠ b_blockno y → P' !! n = P !! n ∧ blk D' n = blk D n) →
  (∀ a, (a < NBUF)%nat → a ≠ b → b_dev (buf_at s a) = ROOTDEV → b_blockno (buf_at s a) ≠ b_blockno y) →
  (b_dev (buf_at s b) = ROOTDEV → b_blockno (buf_at s b) ≠ b_blockno y → P !! b_blockno (buf_at s b) = None) →
  b_dev y = ROOTDEV → buf_ok D' P' (p_pid (proc_at s p)) (H' !! b) y →
  cache s' D' P' H'.
Proof.
  intros Hc Hb Hcalm Hpid Hrest HD Hbs En Ep HH HP Hu Hev Hdev Hy.
  pose proof (cache_len _ _ _ _ Hc) as Hlen.
  assert (∀ a, buf_at s' a = if decide (a = b) then y else buf_at s a) as Ea.
  { intros a. unfold buf_at. rewrite Hbs, total_insert_cases. repeat case_decide; try done; [naive_solver|].
    subst. destruct H0. split; [done|lia]. }
  destruct (ch_lru _ _ _ _ Hc) as [l Hl]. split; try done.
  - exists l. rewrite Hbs. by apply lru_upd.
  - intros a c Hla Hlc. rewrite !Ea. destruct (decide (a = b)) as [->|Na], (decide (c = b)) as [->|Nc]; try done.
    + intros _ Hd E. destruct (Hu c); done.
    + intros Hd _ E. destruct (Hu a); done.
    + by apply (ch_uniq _ _ _ _ Hc).
  - intros bno Hp. destruct (decide (bno = b_blockno y)) as [->|Nb].
    { exists b. split; [done|]. rewrite Ea, decide_True by done. done. }
    rewrite (proj1 (HP bno Nb)) in Hp. destruct (ch_pin _ _ _ _ Hc bno Hp) as (a & La & Hd & E).
    exists a. rewrite Ea. destruct (decide (a = b)) as [->|Na]; [|done].
    exfalso. rewrite <- E in Nb, Hp. rewrite (Hev Hd Nb) in Hp. by destruct Hp.
  - intros a La. rewrite Ea, Hpid. destruct (decide (a = b)) as [->|Na]; [done|].
    rewrite HH by done. eapply buf_ok_other; [by apply (ch_buf _ _ _ _ Hc)| |done].
    intros Hd. by apply Hu.
  - intros a Ha. destruct (decide (a = b)) as [->|Na]; [done|]. rewrite HH in Ha by done.
    by apply (ch_dom _ _ _ _ Hc).
Qed.

(** ** Finding a buffer *)

Lemma find_Some (f : nat → bool) l b : find f l = Some b → b ∈ l ∧ f b = true.
Proof. intros H. apply find_some in H as [H1 H2]. by rewrite list_elem_of_In. Qed.
Lemma find_None (f : nat → bool) l b : find f l = None → b ∈ l → f b = false.
Proof. intros H Hb. eapply find_none; [done|]. by apply list_elem_of_In. Qed.

(** If fewer than [NBUF] buffers are pinned or held, one is free. *)
Lemma free_buffer s D P H l :
  cache s D P H → lru (k_bufs s) l → (size P + size H < NBUF)%nat →
  find (λ b, b_refcnt (buf_at s b) =? 0) (rev l) ≠ None.
Proof.
  intros Hc Hl Hsz Hnone.
  assert (∀ b, (b < NBUF)%nat → b_refcnt (buf_at s b) ≠ 0) as Hall.
  { intros b Hb. apply Z.eqb_neq. apply (find_None _ _ b Hnone).
    rewrite list_elem_of_In, <- in_rev, <- list_elem_of_In. by apply (lru_elem _ _ Hl). }
  set (pin := λ b, b_dev (buf_at s b) = ROOTDEV ∧ is_Some (P !! b_blockno (buf_at s b))).
  assert (∀ b, Decision (pin b)) as Hdec by (intros b; apply _).
  assert (∀ b, (b < NBUF)%nat → ¬ pin b → is_Some (H !! b)) as Hheld.
  { intros b Hb Np. pose proof (bo_ref _ _ _ _ _ (ch_buf _ _ _ _ Hc b Hb)) as Hr.
    unfold pins in Hr. rewrite bool_decide_false in Hr by done.
    destruct (H !! b) as [h|]; [done|]. by apply Hall in Hb. }
  assert (length (filter pin (seq 0 NBUF)) <= size P)%nat as L1.
  { rewrite <- size_dom, <- (length_fmap (λ b, b_blockno (buf_at s b))).
    change (size (dom P)) with (length (elements (dom P))). apply submseteq_length, NoDup_submseteq.
    - apply NoDup_fmap_2_strong; [|apply NoDup_filter, NoDup_seq].
      intros a b Ha Hb E. apply list_elem_of_filter in Ha as [[Ha _] La], Hb as [[Hb _] Lb].
      apply elem_of_seq in La, Lb. apply (ch_uniq _ _ _ _ Hc); (done || lia).
    - intros n Hn. apply list_elem_of_fmap in Hn as (b & -> & Hb).
      apply list_elem_of_filter in Hb as [[_ Hb] _]. by apply elem_of_elements, elem_of_dom. }
  assert (length (filter (λ b, ¬ pin b) (seq 0 NBUF)) <= size H)%nat as L2.
  { rewrite <- size_dom.
    change (size (dom H)) with (length (elements (dom H))). apply submseteq_length, NoDup_submseteq.
    - apply NoDup_filter, NoDup_seq.
    - intros b Hb. apply list_elem_of_filter in Hb as [Hb Lb]. apply elem_of_seq in Lb.
      apply elem_of_elements, elem_of_dom, Hheld; [lia|done]. }
  pose proof (Permutation_length (filter_app_complement pin (seq 0 NBUF))) as L3.
  rewrite length_app, length_seq in L3. lia.
Qed.

Lemma upd_buf_twice {A} b f g (k : K A) s e :
  (b < length (k_bufs s))%nat →
  (upd_buf b f;; upd_buf b g;; k) s e = (upd_buf b (λ x, g (f x));; k) s e.
Proof.
  intros Hb. unfold upd_buf. rewrite !bind_modify. f_equal. unfold buf_at, set. simpl.
  by rewrite list_lookup_total_insert_eq, list_insert_insert_eq.
Qed.

(** The two ways [bget] returns, as equations. *)
Lemma bget_hit s l dev bno b e :
  calm s p → lru (k_bufs s) l → (b < NBUF)%nat → slk_locked (b_lock (buf_at s b)) = 0 →
  find (λ b, (b_dev (buf_at s b) =? dev) && (b_blockno (buf_at s b) =? bno)) l = Some b →
  bget dev bno s e =
    Ok b (s <| k_bufs := <[b := slept_lock (p_pid (proc_at s p))
                                ((buf_at s b) <| b_refcnt ::= λ n, u32 (n + 1) |>)]> (k_bufs s) |>) e.
Proof.
  intros Hc Hl Hb Hfree Hf. pose proof (lru_len _ _ Hl) as Hlen. unfold bget.
  erewrite bind_Ok by (by eapply (calm_acquire s p Lbcache)).
  erewrite bind_Ok by (by eapply bget_cached_ok).
  change (find _ l) with (find (λ b, (b_dev (buf_at s b) =? dev) && (b_blockno (buf_at s b) =? bno)) l).
  rewrite Hf. unfold upd_buf. rewrite bind_modify.
  erewrite bind_Ok by (by apply (calm_release s _ p Lbcache)).
  erewrite bind_Ok.
  2:{ apply (acquiresleep_ok _ p b); [by apply (calm_ext s)|done| |].
      - simpl. rewrite length_insert. lia.
      - unfold buf_at. simpl. rewrite list_lookup_total_insert_eq by lia. done. }
  unfold mret, M_ret. f_equal. unfold buf_at. simpl.
  rewrite list_lookup_total_insert_eq, list_insert_insert_eq by lia. by destruct s.
Qed.

Lemma bget_miss s l dev bno b e :
  calm s p → lru (k_bufs s) l → (b < NBUF)%nat → slk_locked (b_lock (buf_at s b)) = 0 →
  find (λ b, (b_dev (buf_at s b) =? dev) && (b_blockno (buf_at s b) =? bno)) l = None →
  find (λ b, b_refcnt (buf_at s b) =? 0) (rev l) = Some b →
  bget dev bno s e =
    Ok b (s <| k_bufs := <[b := slept_lock (p_pid (proc_at s p))
      ((buf_at s b) <| b_dev := dev |> <| b_blockno := bno |> <| b_valid := 0 |> <| b_refcnt := 1 |>)]>
      (k_bufs s) |>) e.
Proof.
  intros Hc Hl Hb Hfree Hf1 Hf2. pose proof (lru_len _ _ Hl) as Hlen. unfold bget.
  erewrite bind_Ok by (by eapply (calm_acquire s p Lbcache)).
  erewrite bind_Ok by (by eapply bget_cached_ok).
  change (find _ l) with (find (λ b, (b_dev (buf_at s b) =? dev) && (b_blockno (buf_at s b) =? bno)) l).
  rewrite Hf1. erewrite bind_Ok by (by eapply bget_unused_ok).
  change (find _ (rev l)) with (find (λ b, b_refcnt (buf_at s b) =? 0) (rev l)).
  rewrite Hf2. rewrite !upd_buf_twice by (simpl; lia). unfold upd_buf. rewrite bind_modify.
  erewrite bind_Ok by (by apply (calm_release s _ p Lbcache)).
  erewrite bind_Ok.
  2:{ apply (acquiresleep_ok _ p b); [by apply (calm_ext s)|done| |].
      - simpl. rewrite length_insert. lia.
      - unfold buf_at. simpl. rewrite list_lookup_total_insert_eq by lia. done. }
  unfold mret, M_ret. f_equal. unfold buf_at. simpl.
  rewrite list_lookup_total_insert_eq, list_insert_insert_eq by lia. by destruct s.
Qed.

(** With every buffer in use it panics. *)
Lemma bget_full s l dev bno e :
  calm s p → lru (k_bufs s) l →
  find (λ b, (b_dev (buf_at s b) =? dev) && (b_blockno (buf_at s b) =? bno)) l = None →
  find (λ b, b_refcnt (buf_at s b) =? 0) (rev l) = None →
  bget dev bno s e = Panic "bget: no buffers" (s <| k_x := acquired Lbcache (k_x s) |>).
Proof.
  intros Hc Hl Hf1 Hf2. unfold bget.
  erewrite bind_Ok by (by eapply (calm_acquire s p Lbcache)).
  erewrite bind_Ok by (by eapply bget_cached_ok).
  change (find _ l) with (find (λ b, (b_dev (buf_at s b) =? dev) && (b_blockno (buf_at s b) =? bno)) l).
  rewrite Hf1. erewrite bind_Ok by (by eapply bget_unused_ok).
  change (find _ (rev l)) with (find (λ b, b_refcnt (buf_at s b) =? 0) (rev l)).
  by rewrite Hf2.
Qed.

(** The buffer that [bget] leaves locked at [b]. *)
Record got (s : kstate) (D P : blocks) (b : nat) (bno : Z) (y : buf) : Prop := {
  gt_next : b_next y = b_next (buf_at s b);
  gt_prev : b_prev y = b_prev (buf_at s b);
  gt_dev : b_dev y = ROOTDEV;
  gt_bno : b_blockno y = bno;
  gt_disk : b_disk y = 0;
  gt_ref : b_refcnt y = 1 + pins P y;
  gt_lock : slk_locked (b_lock y) ≠ 0 ∧ slk_pid (b_lock y) = p_pid (proc_at s p);
  gt_pin : is_Some (P !! bno) → b_valid y ≠ 0;
  gt_data : b_valid y ≠ 0 → b_data y = cview D P bno;
  gt_uniq : ∀ a, (a < NBUF)%nat → a ≠ b → b_dev (buf_at s a) = ROOTDEV → b_blockno (buf_at s a) ≠ bno;
  gt_old : b_dev (buf_at s b) = ROOTDEV → b_blockno (buf_at s b) ≠ bno → P !! b_blockno (buf_at s b) = None;
}.

Lemma bget_got s D P H bno :
  cache s D P H → (∀ b d, H !! b ≠ Some (bno, d)) → is_Some (P !! bno) ∨ (size P + size H < NBUF)%nat →
  ∃ b y, (b < NBUF)%nat ∧ H !! b = None ∧ got s D P b bno y ∧
    ∀ e, bget ROOTDEV bno s e = Ok b (s <| k_bufs := <[b := y]> (k_bufs s) |>) e.
Proof.
  intros Hc HH Hsz. destruct (ch_lru _ _ _ _ Hc) as [l Hl].
  assert (∀ b, b ∈ l ↔ (b < NBUF)%nat) as El by apply (lru_elem _ _ Hl).
  destruct (find (λ b, (b_dev (buf_at s b) =? ROOTDEV) && (b_blockno (buf_at s b) =? bno)) l) as [b|] eqn:Hf.
  - pose proof (find_Some _ _ _ Hf) as [Hb Ht]. apply El in Hb.
    apply andb_true_iff in Ht as [Hd%Z.eqb_eq Hn%Z.eqb_eq].
    pose proof (ch_buf _ _ _ _ Hc b Hb) as [B1 B2 B3 B4 B5].
    destruct (H !! b) as [[n d]|] eqn:Hh; [destruct B5 as (_ & E & _); by rewrite Hn in E; subst; destruct (HH b d)|].
    destruct B5 as [Bl Bd].
    eexists b, _. split; [done|]. split; [done|]. split; [|intros e; apply (bget_hit s l); try done; apply Hc].
    split; try done.
    + change (u32 (b_refcnt (buf_at s b) + 1) = 1 + pins P (buf_at s b)). rewrite B3. unfold pins, u32.
      by destruct (bool_decide _).
    + intros Hp. apply B4; [done|]. by rewrite Hn.
    + intros Hv. rewrite <- Hn. by apply Bd.
    + intros a La Na Hda E. apply Na. apply (ch_uniq _ _ _ _ Hc); (done || congruence).
  - assert (∀ a, (a < NBUF)%nat → b_dev (buf_at s a) = ROOTDEV → b_blockno (buf_at s a) ≠ bno) as Hno.
    { intros a La Hd E. pose proof (find_None _ _ a Hf (proj2 (El a) La)) as F.
      simpl in F. by rewrite Hd, E, !Z.eqb_refl in F. }
    assert (P !! bno = None) as Hpn.
    { apply eq_None_not_Some. intros Hp. destruct (ch_pin _ _ _ _ Hc bno Hp) as (a & La & Hd & E). by apply (Hno a). }
    destruct Hsz as [Hsz|Hsz]; [rewrite Hpn in Hsz; by destruct Hsz|].
    pose proof (free_buffer s D P H l Hc Hl Hsz) as Hfree.
    destruct (find (λ b, b_refcnt (buf_at s b) =? 0) (rev l)) as [b|] eqn:Hf2; [clear Hfree|done].
    pose proof (find_Some _ _ _ Hf2) as [Hb Ht]. apply Z.eqb_eq in Ht.
    rewrite list_elem_of_In, <- in_rev, <- list_elem_of_In in Hb. apply El in Hb.
    pose proof (ch_buf _ _ _ _ Hc b Hb) as [B1 B2 B3 B4 B5]. rewrite Ht in B3. unfold pins in B3.
    destruct (H !! b) as [[n d]|] eqn:Hh; [simpl in B3; destruct (bool_decide _); lia|].
    destruct B5 as [Bl Bd].
    eexists b, _. split; [done|]. split; [done|]. split; [|intros e; apply (bget_miss s l); try done; apply Hc].
    split; try done.
    + unfold pins. simpl. rewrite bool_decide_false; [done|]. intros [_ Hp]. rewrite Hpn in Hp. by destruct Hp.
    + rewrite Hpn. by intros [].
    + intros a La _. by apply Hno.
    + intros Hd _. apply eq_None_not_Some. intros Hp. by rewrite bool_decide_true in B3.
Qed.

(** ** The operations *)

(** These operations touch the disk, the buffers and the states of other
    processes only. *)
Record framed (s s' : kstate) : Prop := {
  fr_eq : s' = s <| k_disk := k_disk s' |> <| k_bufs := k_bufs s' |> <| k_procs := k_procs s' |>;
  fr_proc : proc_at s' p = proc_at s p;
}.

Lemma framed_refl s : framed s s.
Proof. split; [by destruct s|done]. Qed.
Lemma framed_trans s1 s2 s3 : framed s1 s2 → framed s2 s3 → framed s1 s3.
Proof. intros [E1 P1] [E2 P2]. split; [|congruence]. rewrite E2, E1. reflexivity. Qed.
Lemma framed_log s s' : framed s s' → k_log s' = k_log s.
Proof. intros [-> _]. reflexivity. Qed.

(** The state once the buffer has its contents. *)
Lemma got_cache s s' D P H b bno y y' :
  cache s D P H → (b < NBUF)%nat → H !! b = None → got s D P b bno y → 0 <= bno < 2147483648 →
  calm s' p → proc_at s' p = proc_at s p → disk_rest (k_disk s') → vd_blocks (k_disk s') = D →
  k_bufs s' = <[b := y']> (k_bufs s) → b_valid y' ≠ 0 →
  y' = y <| b_valid := b_valid y' |> <| b_data := b_data y' |> → b_data y' = cview D P bno →
  cache s' D P (<[b := (bno, cview D P bno)]> H).
Proof.
  intros Hc Hb Hh [G1 G2 G3 G4 G5 G6 G7 G8 G9 G10 G11] Hr Hcalm Hpr Hrest HD Hbs Hv Ey Ed.
  assert (b_next y' = b_next y ∧ b_prev y' = b_prev y ∧ b_blockno y' = b_blockno y ∧ b_dev y' = b_dev y ∧
    b_disk y' = b_disk y ∧ b_refcnt y' = b_refcnt y ∧ b_lock y' = b_lock y) as (E1 & E2 & E3 & E4 & E5 & E6 & E7).
  { by rewrite Ey. }
  eapply (cache_upd s s' D D P P H _ b y'); try done; try congruence.
  - intros a Na. by rewrite lookup_insert_ne.
  - rewrite E3, G4. done.
  - intros Hd. rewrite E3, G4. auto.
  - rewrite lookup_insert_eq. split.
    + congruence.
    + by rewrite E3, G4.
    + rewrite E6, G6. unfold pins. by rewrite E3, E4.
    + done.
    + rewrite E3, E4, E7. by split_and!; try apply G7.
Qed.

Lemma bread_ok s D P H bno (Q : nat → kstate → Prop) (C : blocks → Prop) :
  cache s D P H → (∀ b d, H !! b ≠ Some (bno, d)) → is_Some (P !! bno) ∨ (size P + size H < NBUF)%nat →
  0 <= bno < 2147483648 → C D →
  (∀ b s', (b < NBUF)%nat → H !! b = None → cache s' D P (<[b := (bno, cview D P bno)]> H) → framed s s' →
     Q b s') →
  cwp p 1 (bread ROOTDEV bno) s Q C.
Proof.
  intros Hc HH Hsz Hr HC HQ. destruct (bget_got s D P H bno Hc HH Hsz) as (b & y & Hb & Hh & G & Hget).
  unfold bread. eapply cwp_bind_ok; [exact Hget|].
  pose proof (cache_len _ _ _ _ Hc) as Hlen. set (s1 := s <| k_bufs := <[b := y]> (k_bufs s) |>).
  assert (buf_at s1 b = y) as E1 by (unfold buf_at, s1; simpl; apply list_lookup_total_insert_eq; lia).
  assert (calm s1 p) as Hc1 by (apply (calm_ext s); [apply Hc|done|done]).
  eapply cwp_bind_ok; [intros e; reflexivity|]. rewrite E1.
  destruct (decide (b_valid y = 0)) as [Hv|Hv].
  - rewrite (proj2 (Z.eqb_eq _ _) Hv). cbn [when]. apply (cwp_bind p 1 0).
    apply (cwp_bind p 1 0). apply cwp_rw; rewrite ?E1; [done|apply Hc| |apply G|by rewrite (gt_bno _ _ _ _ _ _ G)| |].
    + unfold s1. simpl. rewrite length_insert. lia.
    + change (vd_blocks (k_disk s1)) with (vd_blocks (k_disk s)). by rewrite (ch_blocks _ _ _ _ Hc).
    + intros d' ps' Hr' Hb' Hps. rewrite (gt_bno _ _ _ _ _ _ G) in *.
      eapply cwp_ok; [intros e; reflexivity|]. apply cwp_ret.
      assert (cview D P bno = blk D bno) as Ev.
      { unfold cview. destruct (P !! bno) eqn:Ep; [|done]. by destruct (gt_pin _ _ _ _ _ _ G (mk_is_Some _ _ Ep)). }
      unfold done_bufs in *. rewrite E1. apply HQ; [done|done| |].
      * eapply (got_cache s _ D P H b bno y (y <| b_data := blk D bno |> <| b_valid := 1 |>)); try done.
        -- apply (calm_ext s); [apply Hc|done|done].
        -- apply Hps.
        -- simpl. rewrite Hb'. apply (ch_blocks _ _ _ _ Hc).
        -- unfold s1, buf_at, block_at. simpl. rewrite (ch_blocks _ _ _ _ Hc).
           rewrite !list_lookup_total_insert_eq by (rewrite ?length_insert; lia).
           by rewrite !list_insert_insert_eq.
      * split; [by destruct s|apply Hps].
  - rewrite (proj2 (Z.eqb_neq _ _) Hv). cbn [when].
    apply (cwp_mono p 0 1 _ _ Q _ C _); [|lia|done|done].
    eapply cwp_bind_ok; [intros e; reflexivity|]. apply cwp_ret. apply HQ; [done|done| |].
    + eapply (got_cache s s1 D P H b bno y y); try done; [apply Hc|apply Hc|by destruct y|by apply G].
    + split; [by destruct s|done].
Qed.

(** A held buffer. *)
Lemma held_facts s D P H b bno d :
  cache s D P H → H !! b = Some (bno, d) →
  (b < NBUF)%nat ∧ buf_ok D P (p_pid (proc_at s p)) (Some (bno, d)) (buf_at s b) ∧
  b_blockno (buf_at s b) = bno ∧ b_dev (buf_at s b) = ROOTDEV ∧ b_data (buf_at s b) = d ∧
  (∀ a, (a < NBUF)%nat → a ≠ b → b_dev (buf_at s a) = ROOTDEV → b_blockno (buf_at s a) ≠ bno).
Proof.
  intros Hc Hh. assert (b < NBUF)%nat as Hb by (apply (ch_dom _ _ _ _ Hc); by rewrite Hh).
  pose proof (ch_buf _ _ _ _ Hc b Hb) as B. rewrite Hh in B. pose proof (bo_held _ _ _ _ _ B) as (E1 & E2 & _ & E3 & _).
  split_and!; try done. intros a La Na Hd E. apply Na, (ch_uniq _ _ _ _ Hc); (done || congruence).
Qed.

Lemma held_locked s D P H b bno d e :
  cache s D P H → H !! b = Some (bno, d) → holdingsleep (SLbuf b) s e = Ok true s e.
Proof.
  intros Hc Hh. destruct (held_facts s D P H b bno d Hc Hh) as (Hb & [_ _ _ _ B] & _).
  destruct B as (_ & _ & _ & _ & B1 & B2). rewrite (holdingsleep_ok s p b) by (done || apply Hc).
  by rewrite (proj2 (Z.eqb_neq _ _) B1), B2, Z.eqb_refl.
Qed.

(** Changing what a held buffer holds, and what the disk or the pins say of its
    block. *)
Lemma held_upd s s' D D' P P' H b bno d d' y :
  cache s D P H → H !! b = Some (bno, d) → calm s' p → proc_at s' p = proc_at s p →
  disk_rest (k_disk s') → vd_blocks (k_disk s') = D' → k_bufs s' = <[b := y]> (k_bufs s) →
  y = (buf_at s b) <| b_data := d' |> <| b_refcnt := b_refcnt y |> →
  b_refcnt y = 1 + (if bool_decide (is_Some (P' !! bno)) then 1 else 0) →
  (∀ n, n ≠ bno → P' !! n = P !! n ∧ blk D' n = blk D n) →
  cache s' D' P' (<[b := (bno, d')]> H).
Proof.
  intros Hc Hh Hcalm Hpr Hrest HD Hbs Ey Href HP.
  destruct (held_facts s D P H b bno d Hc Hh) as (Hb & [B1 B2 B3 B4 B5] & E1 & E2 & E3 & Hu).
  destruct B5 as (_ & _ & Bv & _ & Bl & Bp).
  assert (b_next y = b_next (buf_at s b) ∧ b_prev y = b_prev (buf_at s b) ∧ b_blockno y = bno ∧
    b_dev y = ROOTDEV ∧ b_disk y = 0 ∧ b_lock y = b_lock (buf_at s b) ∧ b_valid y = b_valid (buf_at s b) ∧
    b_data y = d') as (F1 & F2 & F3 & F4 & F5 & F6 & F7 & F8) by (rewrite Ey; done).
  eapply (cache_upd s s' D D' P P' H _ b y); try done; try congruence.
  - intros a Na. by rewrite lookup_insert_ne.
  - by rewrite F3.
  - by rewrite F3.
  - rewrite lookup_insert_eq. split; [done|congruence| | |].
    + rewrite Href. unfold pins. rewrite F3, F4. simpl. f_equal.
      erewrite bool_decide_ext; [reflexivity|]. tauto.
    + congruence.
    + rewrite F3, F4, F6, F7. done.
Qed.

Lemma ref_held D P pid h bno d x :
  buf_ok D P pid h x → h = Some (bno, d) →
  b_refcnt x = 1 + (if bool_decide (is_Some (P !! bno)) then 1 else 0).
Proof.
  intros [_ _ B3 _ B5] ->. destruct B5 as (E1 & E2 & _). rewrite B3. unfold pins. rewrite E1, E2. simpl. f_equal.
  erewrite bool_decide_ext; [reflexivity|]. tauto.
Qed.

(** Writing into a held buffer. *)
Definition poke (b : nat) (d : list Z) (s : kstate) : kstate :=
  s <| k_bufs := <[b := (buf_at s b) <| b_data := d |>]> (k_bufs s) |>.

Lemma poke_cache s D P H b bno d d' :
  cache s D P H → H !! b = Some (bno, d) →
  cache (poke b d' s) D P (<[b := (bno, d')]> H) ∧ framed s (poke b d' s).
Proof.
  intros Hc Hh. destruct (held_facts s D P H b bno d Hc Hh) as (Hb & B & _).
  split; [|split; [by destruct s|done]].
  eapply (held_upd s _ D D P P H b bno d d'); try done; try apply Hc.
  - apply (calm_ext s); [apply Hc|done|done].
  - by apply (ref_held _ _ _ _ _ _ _ B eq_refl).
Qed.

Lemma bwrite_ok s D P H b bno d (Q : unit → kstate → Prop) (C : blocks → Prop) :
  cache s D P H → H !! b = Some (bno, d) → C D →
  (∀ s', cache s' (<[bno := d]> D) P H → framed s s' → Q tt s') →
  cwp p 1 (bwrite b) s Q C.
Proof.
  intros Hc Hh HC HQ. destruct (held_facts s D P H b bno d Hc Hh) as (Hb & B & E1 & E2 & E3 & _).
  pose proof (cache_len _ _ _ _ Hc) as Hlen.
  unfold bwrite. eapply cwp_bind_ok; [intros e; by eapply held_locked|]. cbn [negb].
  apply cwp_rw; [apply Hc|apply Hc|lia|apply B|apply B|by rewrite (ch_blocks _ _ _ _ Hc)|].
  intros d' ps' Hr' Hb' Hps. unfold done_blocks in Hb'. rewrite E1, E3, (ch_blocks _ _ _ _ Hc) in Hb'.
  apply HQ; [|split; [by destruct s|apply Hps]].
  replace H with (<[b := (bno, d)]> H) by (by apply insert_id).
  eapply (held_upd s _ D _ P P H b bno d d (buf_at s b)); try done.
  - apply (calm_ext s); [apply Hc|done|done].
  - apply Hps.
  - simpl. unfold buf_at. rewrite list_insert_id; [done|]. apply list_lookup_lookup_total_lt. lia.
  - rewrite <- E3. by destruct (buf_at s b).
  - by apply (ref_held _ _ _ _ _ _ _ B eq_refl).
  - intros n Nn. split; [done|]. unfold blk. by rewrite lookup_insert_ne.
Qed.

Lemma core_fields x y :
  core y = core x →
  b_valid y = b_valid x ∧ b_disk y = b_disk x ∧ b_dev y = b_dev x ∧ b_blockno y = b_blockno x ∧
  b_lock y = b_lock x ∧ b_refcnt y = b_refcnt x ∧ b_data y = b_data x.
Proof.
  intros E. split_and!.
  - by apply (f_equal b_valid) in E.
  - by apply (f_equal b_disk) in E.
  - by apply (f_equal b_dev) in E.
  - by apply (f_equal b_blockno) in E.
  - by apply (f_equal b_lock) in E.
  - by apply (f_equal b_refcnt) in E.
  - by apply (f_equal b_data) in E.
Qed.

Lemma cache_core s D P H bs' l' :
  cache s D P H → same_core (k_bufs s) bs' → lru bs' l' → cache (s <| k_bufs := bs' |>) D P H.
Proof.
  intros [C1 C2 C3 C4 C5 C6 C7 C8] [Hlen Hcore] Hl.
  assert (∀ i, core (buf_at (s <| k_bufs := bs' |>) i) = core (buf_at s i)) as Hcore' by apply Hcore.
  split; [by apply (calm_ext s)|done|done|by exists l'| | | |done].
  - intros a b La Lb. destruct (core_fields _ _ (Hcore' a)) as (_ & _ & -> & -> & _).
    destruct (core_fields _ _ (Hcore' b)) as (_ & _ & -> & -> & _). by apply C5.
  - intros bno Hp. destruct (C6 bno Hp) as (b & Lb & Hd & E). exists b.
    by destruct (core_fields _ _ (Hcore' b)) as (_ & _ & -> & -> & _).
  - intros b Lb. destruct (C7 b Lb) as [B1 B2 B3 B4 B5].
    destruct (core_fields _ _ (Hcore' b)) as (F1 & F2 & F3 & F4 & F5 & F6 & F7).
    split; [by rewrite F2|by rewrite F4| |by rewrite F1, F3, F4|by rewrite F1, F3, F4, F5, F7].
    rewrite F6, B3. unfold pins. by rewrite F3, F4.
Qed.

(** The list surgery of [brelse]. *)
Lemma relink_ok b s e :
  (x ← get_buf b;
   set_prev (b_next x) (b_prev x);;
   x ← get_buf b;
   set_next (b_prev x) (b_next x);;
   h ← get_buf bhead;
   set_next b (b_next h);;
   set_prev b bhead;;
   h ← get_buf bhead;
   set_prev (b_next h) b;;
   set_next bhead b) s e = Ok tt (s <| k_bufs := push b (unlink b (k_bufs s)) |>) e.
Proof.
  reflexivity.
Qed.

Definition dropped (x : buf) : buf := (unlocked x) <| b_refcnt ::= λ n, u32 (n - 1) |>.

Definition after_brelse (s : kstate) (b : nat) : kstate :=
  let bs := <[b := dropped (buf_at s b)]> (k_bufs s) in
  s <| k_bufs := if b_refcnt (dropped (buf_at s b)) =? 0 then push b (unlink b bs) else bs |>
    <| k_procs := wake (ChBufLock b) (Some p) (k_procs s) |>.

Lemma brelse_eq s D P H b bno d e :
  cache s D P H → H !! b = Some (bno, d) → brelse b s e = Ok tt (after_brelse s b) e.
Proof.
  intros Hc Hh. destruct (held_facts s D P H b bno d Hc Hh) as (Hb & B & _).
  pose proof (cache_len _ _ _ _ Hc) as Hlen. unfold brelse.
  erewrite bind_Ok by (by eapply held_locked). cbn [negb].
  erewrite bind_Ok by (apply (releasesleep_ok s p b); [apply Hc|done|lia]).
  match goal with |- (_ ≫= _) ?ss _ = _ => set (s1 := ss) end.
  assert (calm s1 p) as Hc1 by (apply (calm_ext s); [apply Hc|done|apply same_proc_wake]).
  erewrite bind_Ok by (by eapply (calm_acquire s1 p Lbcache)).
  unfold upd_buf. rewrite bind_modify. set (s2 := s1 <| k_x := _ |> <| k_bufs := _ |>).
  assert (k_bufs s2 = <[b := dropped (buf_at s b)]> (k_bufs s)) as E2.
  { unfold s2, s1, buf_at. simpl. rewrite list_insert_insert_eq, list_lookup_total_insert_eq by lia. done. }
  assert (buf_at s2 b = dropped (buf_at s b)) as Eb.
  { unfold buf_at at 1. rewrite E2. apply list_lookup_total_insert_eq. lia. }
  erewrite bind_Ok by reflexivity. rewrite Eb. unfold after_brelse.
  destruct (b_refcnt (dropped (buf_at s b)) =? 0) eqn:Er; cbn [when].
  - erewrite bind_Ok by apply relink_ok. rewrite E2.
    erewrite (calm_release s1) by done. unfold s2, s1. reflexivity.
  - rewrite bind_ret. erewrite (calm_release s1) by done. f_equal.
    transitivity (s2 <| k_bufs := <[b := dropped (buf_at s b)]> (k_bufs s) |> <| k_x := k_x s1 |>).
    + rewrite <- E2. by destruct s2.
    + unfold s2, s1. by destruct s.
Qed.

Lemma brelse_ok s D P H b bno :
  cache s D P H → H !! b = Some (bno, cview D P bno) →
  ∃ s', (∀ e, brelse b s e = Ok tt s' e) ∧ cache s' D P (delete b H) ∧ framed s s'.
Proof.
  intros Hc Hh. exists (after_brelse s b). split; [intros e; by eapply brelse_eq|].
  split; [|split; [by destruct s|apply same_proc_wake]].
  destruct (held_facts s D P H b bno _ Hc Hh) as (Hb & B & E1 & E2 & E3 & Hu).
  set (s1 := s <| k_bufs := <[b := dropped (buf_at s b)]> (k_bufs s) |>
               <| k_procs := wake (ChBufLock b) (Some p) (k_procs s) |>).
  assert (b_refcnt (dropped (buf_at s b)) = if bool_decide (is_Some (P !! bno)) then 1 else 0) as Er.
  { unfold dropped. change (u32 (b_refcnt (buf_at s b) - 1) = if bool_decide (is_Some (P !! bno)) then 1 else 0).
    rewrite (ref_held _ _ _ _ _ _ _ B eq_refl). unfold u32. by case_bool_decide. }
  assert (cache s1 D P (delete b H)) as Hc1.
  { eapply (cache_upd s s1 D D P P H _ b (dropped (buf_at s b))); try done; try apply Hc.
    - apply (calm_ext s); [apply Hc|done|apply same_proc_wake].
    - f_equal. apply same_proc_wake.
    - intros a Na. by rewrite lookup_delete_ne.
    - intros a La Na Hd. change (b_blockno (buf_at s a) ≠ b_blockno (buf_at s b)). rewrite E1. by apply Hu.
    - rewrite lookup_delete_eq. destruct B as [B1 B2 B3 B4 B5]. split; try done.
      + rewrite Er. unfold pins. simpl.
        change (b_dev (dropped (buf_at s b))) with (b_dev (buf_at s b)).
        change (b_blockno (dropped (buf_at s b))) with (b_blockno (buf_at s b)). rewrite E1, E2.
        erewrite bool_decide_ext; [reflexivity|]. tauto.
      + split; [done|]. intros _ _. change (b_data (buf_at s b) = cview D P (b_blockno (buf_at s b))). by rewrite E1. }
  unfold after_brelse. fold s1. destruct (_ =? 0); [|done].
  destruct (ch_lru _ _ _ _ Hc1) as [l Hl].
  eapply (cache_core s1); [done| |by apply lru_move].
  eapply same_core_trans; [apply core_unlink|apply core_push].
Qed.

(** Changing the count of a held buffer under [bcache.lock]. *)
Definition recounted (b : nat) (f : Z → Z) (s : kstate) : kstate :=
  s <| k_bufs := <[b := (buf_at s b) <| b_refcnt ::= f |>]> (k_bufs s) |>.

Lemma recount_ok s b f e :
  calm s p →
  (acquire Lbcache;; upd_buf b (λ x, x <| b_refcnt ::= f |>);; release Lbcache) s e =
    Ok tt (recounted b f s) e.
Proof.
  intros Hc. erewrite bind_Ok by (by eapply (calm_acquire s p Lbcache)).
  unfold upd_buf. rewrite bind_modify. erewrite (calm_release s) by done. by destruct s.
Qed.

Lemma recounted_cache s D P P' H b bno d f :
  cache s D P H → H !! b = Some (bno, d) → (∀ n, n ≠ bno → P' !! n = P !! n) →
  f (1 + (if bool_decide (is_Some (P !! bno)) then 1 else 0)) =
    1 + (if bool_decide (is_Some (P' !! bno)) then 1 else 0) →
  cache (recounted b f s) D P' H ∧ framed s (recounted b f s).
Proof.
  intros Hc Hh HP Hf. destruct (held_facts s D P H b bno d Hc Hh) as (Hb & B & E1 & E2 & E3 & _).
  split; [|split; [by destruct s|done]].
  replace H with (<[b := (bno, d)]> H) by (by apply insert_id).
  eapply (held_upd s _ D D P P' H b bno d d); try done; try apply Hc.
  - apply (calm_ext s); [apply Hc|done|done].
  - rewrite <- E3. by destruct (buf_at s b).
  - simpl. by rewrite (ref_held _ _ _ _ _ _ _ B eq_refl).
  - intros n Nn. by rewrite HP.
Qed.

Lemma bpin_ok s D P H b bno d :
  cache s D P H → H !! b = Some (bno, d) → P !! bno = None →
  ∃ s', (∀ e, bpin b s e = Ok tt s' e) ∧ cache s' D (<[bno := d]> P) H ∧ framed s s'.
Proof.
  intros Hc Hh Hp. exists (recounted b (λ n, u32 (n + 1)) s).
  split; [intros e; exact (recount_ok s b (λ n, u32 (n + 1)) e (ch_calm _ _ _ _ Hc))|].
  eapply (recounted_cache s D P _ H b bno d); [done|done| |].
  - intros n Nn. by rewrite lookup_insert_ne.
  - rewrite Hp, lookup_insert_eq. done.
Qed.

Lemma bunpin_ok s D P H b bno d :
  cache s D P H → H !! b = Some (bno, d) → is_Some (P !! bno) →
  ∃ s', (∀ e, bunpin b s e = Ok tt s' e) ∧ cache s' D (delete bno P) H ∧ framed s s'.
Proof.
  intros Hc Hh Hp. exists (recounted b (λ n, u32 (n - 1)) s).
  split; [intros e; exact (recount_ok s b (λ n, u32 (n - 1)) e (ch_calm _ _ _ _ Hc))|].
  eapply (recounted_cache s D P _ H b bno d); [done|done| |].
  - intros n Nn. by rewrite lookup_delete_ne.
  - rewrite lookup_delete_eq, bool_decide_true by done. done.
Qed.

(** A block pinned already is pinned with its new contents. *)
Lemma cache_repin s D P H b bno d :
  cache s D P H → H !! b = Some (bno, d) → is_Some (P !! bno) → cache s D (<[bno := d]> P) H.
Proof.
  intros Hc Hh Hp.
  destruct (recounted_cache s D P (<[bno := d]> P) H b bno d (λ n, n) Hc Hh) as [Hc' _].
  - intros n Nn. by rewrite lookup_insert_ne.
  - rewrite lookup_insert_eq. by rewrite bool_decide_true.
  - assert (recounted b (λ n, n) s = s) as Hs; [|by rewrite Hs in Hc'].
    unfold recounted. rewrite list_insert_id; [by destruct s|].
    destruct (held_facts s D P H b bno d Hc Hh) as (Hb & _). pose proof (cache_len _ _ _ _ Hc).
    unfold buf_at. rewrite list_lookup_lookup_total_lt by lia. f_equal. by destruct (k_bufs s !!! b).
Qed.

End cache.
