(* ===== verification/Log.v ===== *)
(** The write-ahead log: kernel/log.c. *)

From S2P Require Export Bio Printf.

Definition get_log : K log_t := gets k_log.

(** [memmove(b->data, bs, ...)] *)
Definition set_data (b : nat) (bs : list Z) : K unit := upd_buf b (λ x, x <| b_data := bs |>).

(** ** The header block *)

(** struct logheader in a block: [n], then the block numbers. *)
Definition lh_n (data : list Z) : Z := i32 (get32 data 0).
Definition lh_block (data : list Z) (i : nat) : Z := i32 (get32 data (4 + 4 * i)).
Definition sizeof_logheader : Z := 4 + 4 * LOGBLOCKS.

(** A header with more than [LOGBLOCKS] entries would make the loop write past
    the end of [log.lh.block]; nothing is claimed of such a disk ([stuck]). *)
Definition read_head : K unit :=
  l ← get_log;
  b ← bread (l_dev l) (u32 (l_start l));
  x ← get_buf b;
  upd_log (λ l, l <| l_n := lh_n (b_data x) |>);;
  if LOGBLOCKS <? lh_n (b_data x) then stuck else
  for_each (Z.to_nat (lh_n (b_data x))) 0 (λ i,
    upd_log (λ l, l <| l_block ::= <[i := lh_block (b_data x) i]> |>));;
  brelse b.

Definition write_head : K unit :=
  l ← get_log;
  b ← bread (l_dev l) (u32 (l_start l));
  upd_buf b (λ x, x <| b_data ::= λ d, put32 d 0 (l_n l) |>);;
  for_each (Z.to_nat (l_n l)) 0 (λ i,
    upd_buf b (λ x, x <| b_data ::= λ d, put32 d (4 + 4 * i) (l_block l !!! i) |>));;
  bwrite b;;
  brelse b.

(** ** Commit and recovery *)

Definition install_trans_one (recovering : bool) (tail : nat) : K unit :=
  l ← get_log;
  when recovering (
    printf ("recovering tail %d dst %d" +:+ nl)
      [VWord (Z.of_nat tail); VWord (l_block l !!! tail)];; mret ());;
  lbuf ← bread (l_dev l) (u32 (l_start l + Z.of_nat tail + 1));
  dbuf ← bread (l_dev l) (u32 (l_block l !!! tail));
  x ← get_buf lbuf;
  set_data dbuf (b_data x);;
  bwrite dbuf;;
  when (negb recovering) (bunpin dbuf);;
  brelse lbuf;;
  brelse dbuf.

Definition install_trans (recovering : bool) : K unit :=
  l ← get_log;
  for_each (Z.to_nat (l_n l)) 0 (install_trans_one recovering).

Definition recover_from_log : K unit :=
  read_head;;
  install_trans true;;
  upd_log (λ l, l <| l_n := 0 |>);;
  write_head.

Definition initlog (dev : Z) (sb : superblock) : K unit :=
  if BSIZE <=? sizeof_logheader then panic "initlog: too big logheader" else
  initlock Llog "log";;
  upd_log (λ l, l <| l_start := i32 (sb_logstart sb) |>);;
  upd_log (λ l, l <| l_dev := dev |>);;
  recover_from_log.

Definition write_log_one (tail : nat) : K unit :=
  l ← get_log;
  to ← bread (l_dev l) (u32 (l_start l + Z.of_nat tail + 1));
  from ← bread (l_dev l) (u32 (l_block l !!! tail));
  x ← get_buf from;
  set_data to (b_data x);;
  bwrite to;;
  brelse from;;
  brelse to.

Definition write_log : K unit :=
  l ← get_log;
  for_each (Z.to_nat (l_n l)) 0 write_log_one.

Definition commit : K unit :=
  l ← get_log;
  when (0 <? l_n l) (
    write_log;;
    write_head;;
    install_trans false;;
    upd_log (λ l, l <| l_n := 0 |>);;
    write_head).

(** ** Operations *)

Definition begin_op : K unit :=
  acquire Llog;;
  wait_loop (
    l ← get_log;
    if negb (l_committing l =? 0) then sleep ChLog Llog;; mret None
    else if LOGBLOCKS <? l_n l + (l_outstanding l + 1) * MAXOPBLOCKS then
      sleep ChLog Llog;; mret None
    else
      upd_log (λ l, l <| l_outstanding ::= λ n, n + 1 |>);;
      release Llog;;
      mret (Some ())).

Definition end_op : K unit :=
  acquire Llog;;
  upd_log (λ l, l <| l_outstanding ::= λ n, n - 1 |>);;
  l ← get_log;
  if negb (l_committing l =? 0) then panic "log.committing" else
  do_commit ← (
    if l_outstanding l =? 0 then
      upd_log (λ l, l <| l_committing := 1 |>);; mret true
    else wakeup ChLog;; mret false);
  release Llog;;
  when do_commit (
    commit;;
    acquire Llog;;
    upd_log (λ l, l <| l_committing := 0 |>);;
    wakeup ChLog;;
    release Llog).

(** The scan of [log_write]: the index of the block in the log, or [n]. *)
Fixpoint absorb (blocks : list Z) (blockno : Z) (n : nat) (i : nat) : nat :=
  match n with
  | O => i
  | S n' => if u32 (blocks !!! i) =? blockno then i else absorb blocks blockno n' (S i)
  end.

Definition log_write (b : nat) : K unit :=
  acquire Llog;;
  l ← get_log;
  if LOGBLOCKS <=? l_n l then panic "too big a transaction" else
  if l_outstanding l <? 1 then panic "log_write outside of trans" else
  x ← get_buf b;
  let i := absorb (l_block l) (b_blockno x) (Z.to_nat (l_n l)) 0 in
  upd_log (λ l, l <| l_block ::= <[i := i32 (b_blockno x)]> |>);;
  when (Z.of_nat i =? l_n l) (
    bpin b;;
    upd_log (λ l, l <| l_n ::= λ n, n + 1 |>));;
  release Llog.
