(* ===== verification/LogSpec.v ===== *)
(** The write-ahead log on the disk, that is the header block, the blocks it lists,
    and the contents that recovery gives the file system; then the operations of
    log.c on the cache: what [write_log], [write_head] and [install_trans] do to the
    disk and to the pinned blocks, and where the power may fail in between. *)

From S2P Require Export Cache Log.

(** ** The header block *)

(** The stores of [write_head]. *)
Fixpoint put_blocks (n i : nat) (bl : list Z) (d : list Z) : list Z :=
  match n with
  | O => d
  | S n' => put_blocks n' (S i) bl (put32 d (4 + 4 * i) (bl !!! i))
  end.

Definition put_head (n : nat) (bl : list Z) (d : list Z) : list Z :=
  put_blocks n 0 bl (put32 d 0 (Z.of_nat n)).

Lemma length_put_blocks n i bl d :
  (4 + 4 * (i + n) <= length d)%nat → length (put_blocks n i bl d) = length d.
Proof.
  revert i d. induction n as [|n IH]; intros i d Hl; [done|]. simpl.
  rewrite IH; rewrite length_put32 by lia; [done|lia].
Qed.

Lemma put_blocks_low n i bl d o :
  (4 + 4 * (i + n) <= length d)%nat → (o + 4 <= 4 + 4 * i)%nat →
  get32 (put_blocks n i bl d) o = get32 d o.
Proof.
  revert i d. induction n as [|n IH]; intros i d Hl Ho; [done|]. simpl.
  rewrite IH by (rewrite ?length_put32; lia). apply get32_put32_ne; lia.
Qed.

Lemma put_blocks_get n i bl d j :
  (4 + 4 * (i + n) <= length d)%nat → (i <= j < i + n)%nat →
  get32 (put_blocks n i bl d) (4 + 4 * j) = u32 (bl !!! j).
Proof.
  revert i d. induction n as [|n IH]; intros i d Hl Hj; [lia|]. simpl.
  destruct (decide (j = i)) as [->|N].
  - rewrite put_blocks_low by (rewrite ?length_put32; lia). apply get32_put32_eq. lia.
  - apply IH; [rewrite length_put32; lia|lia].
Qed.

(** A header block says what [write_head] wrote. *)
Lemma put_head_ok n bl d :
  length d = Z.to_nat BSIZE → (n <= 30)%nat →
  (∀ i, (i < n)%nat → - 2147483648 <= bl !!! i < 2147483648) →
  length (put_head n bl d) = Z.to_nat BSIZE ∧ lh_n (put_head n bl d) = Z.of_nat n ∧
  ∀ i, (i < n)%nat → lh_block (put_head n bl d) i = bl !!! i.
Proof.
  intros Hd Hn Hbl. change (Z.to_nat BSIZE) with 1024%nat in *. unfold put_head, lh_n, lh_block.
  assert (length (put32 d 0 (Z.of_nat n)) = 1024%nat) as Hd' by (rewrite length_put32; lia).
  split_and!.
  - rewrite length_put_blocks; lia.
  - rewrite put_blocks_low, get32_put32_eq, i32_u32 by lia. done.
  - intros i Hi. rewrite put_blocks_get by lia. apply i32_u32. auto.
Qed.

(** ** The log and the file system's contents *)

Definition install (l : list (Z * list Z)) (D : blocks) : blocks :=
  foldl (λ D x, <[x.1 := x.2]> D) D l.

Lemma install_snoc l x D : install (l ++ [x]) D = <[x.1 := x.2]> (install l D).
Proof. unfold install. by rewrite foldl_snoc. Qed.

Lemma install_map l D : install l D = list_to_map (reverse l) ∪ D.
Proof.
  induction l as [|[b d] l IH] using rev_ind; [simpl; by rewrite (left_id_L ∅ (∪))|].
  rewrite install_snoc, IH, reverse_snoc. simpl. by rewrite insert_union_l.
Qed.

Lemma lookup_install_ne l D bno : bno ∉ l.*1 → install l D !! bno = D !! bno.
Proof.
  intros N. rewrite install_map, lookup_union_r; [done|].
  apply not_elem_of_list_to_map_1. by rewrite fmap_reverse, elem_of_reverse.
Qed.

Lemma blk_install_ne l D bno : bno ∉ l.*1 → blk (install l D) bno = blk D bno.
Proof. intros. unfold blk. by rewrite lookup_install_ne. Qed.

Lemma blk_install_eq l D bno d : NoDup l.*1 → (bno, d) ∈ l → blk (install l D) bno = d.
Proof.
  intros Nd Hin. unfold blk. rewrite install_map.
  rewrite (lookup_union_Some_l _ _ _ d); [done|].
  apply elem_of_list_to_map_1; [|by apply elem_of_reverse].
  rewrite fmap_reverse. by rewrite reverse_Permutation.
Qed.

(** Installing again what is being installed changes nothing. *)
Lemma install_again l l' D bno :
  l'.*1 ⊆ l.*1 → blk (install l (install l' D)) bno = blk (install l D) bno.
Proof.
  intros Hs. destruct (decide (bno ∈ l.*1)) as [Hin|N].
  - unfold blk. rewrite !install_map.
    destruct (list_to_map (M := blocks) (reverse l) !! bno) as [d|] eqn:E.
    + by rewrite !(lookup_union_Some_l _ _ _ d).
    + exfalso. apply not_elem_of_list_to_map_2 in E. by rewrite fmap_reverse, elem_of_reverse in E.
  - rewrite (blk_install_ne l), (blk_install_ne l'), (blk_install_ne l); try done. intros F. by apply N, Hs.
Qed.

Section disk.
(** The number of the header block; the log blocks follow it. *)
Context (start : Z).

Definition in_log (bno : Z) : Prop := start <= bno <= start + LOGBLOCKS.

Definition hn (D : blocks) : Z := lh_n (blk D start).
Definition hb (D : blocks) (i : nat) : Z := lh_block (blk D start) i.

(** What a header says is committed. *)
Definition logged (D : blocks) : list (Z * list Z) :=
  (λ i, (hb D i, blk D (start + Z.of_nat i + 1))) <$> seq 0 (Z.to_nat (hn D)).

(** The disk after recovery. *)
Definition recovered (D : blocks) : blocks := install (logged D) D.

(** A header that [write_head] can have written. *)
Record log_ok (D : blocks) : Prop := {
  lo_len : length (blk D start) = Z.to_nat BSIZE;
  lo_n : 0 <= hn D <= LOGBLOCKS;
  lo_blocks : ∀ i, (i < Z.to_nat (hn D))%nat → 0 <= hb D i < 2147483648 ∧ ¬ in_log (hb D i);
}.

(** Equal outside the log. *)
Definition same_fs (f g : Z → list Z) : Prop := ∀ bno, ¬ in_log bno → f bno = g bno.

Lemma same_fs_refl f : same_fs f f.
Proof. done. Qed.
Lemma same_fs_trans f g h : same_fs f g → same_fs g h → same_fs f h.
Proof. intros H1 H2 bno N. rewrite H1 by done. by apply H2. Qed.

(** With an empty header nothing is recovered. *)
Lemma recovered_empty D : hn D = 0 → recovered D = D.
Proof. intros E. unfold recovered, logged. by rewrite E. Qed.

Lemma logged_ext D D' :
  (∀ bno, in_log bno → blk D' bno = blk D bno) → 0 <= hn D <= LOGBLOCKS → logged D' = logged D.
Proof.
  intros E Hn. assert (blk D' start = blk D start) as Es by (apply E; unfold in_log, LOGBLOCKS, MAXOPBLOCKS in *; lia).
  unfold logged, hn, hb. rewrite Es. apply list_fmap_ext. intros k i Hk. apply lookup_seq in Hk as [-> Hk].
  f_equal. apply E. unfold in_log. unfold hn in Hn. lia.
Qed.

Lemma logged_outside D : log_ok D → ∀ bno, bno ∈ (logged D).*1 → ¬ in_log bno.
Proof.
  intros Ho bno H. apply list_elem_of_fmap in H as (x & -> & H). apply list_elem_of_fmap in H as (i & -> & H).
  apply elem_of_seq in H. simpl. apply (lo_blocks _ Ho). lia.
Qed.

(** Installing part of the log leaves what recovery gives. *)
Lemma recovered_install D l :
  log_ok D → l.*1 ⊆ (logged D).*1 →
  log_ok (install l D) ∧ same_fs (blk (recovered (install l D))) (blk (recovered D)).
Proof.
  intros Ho Hs.
  assert (∀ bno, in_log bno → blk (install l D) bno = blk D bno) as E.
  { intros bno Hb. apply blk_install_ne. intros F. by apply Hs, (logged_outside D Ho) in F. }
  assert (blk (install l D) start = blk D start) as Es by (apply E; unfold in_log, LOGBLOCKS, MAXOPBLOCKS; lia).
  split.
  - destruct Ho as [H1 H2 H3]. unfold hn, hb in *. split; unfold hn, hb; by rewrite Es.
  - intros bno _. unfold recovered. rewrite (logged_ext D) by (done || apply Ho). by apply install_again.
Qed.

End disk.


(** ** Operations *)

Section log_spec.
Context `{V : VirtioDevice}.
Context (p : nat) (start : Z).
Hypothesis Hstart : 0 <= start ∧ start + LOGBLOCKS < 2147483648.

Notation cache := (cache p).
Notation cwp := (cwp p).
Notation framed := (framed p).

(** The log of the state is the one at [start]. *)
Record log_at (s : kstate) (n : nat) (bl : list Z) : Prop := {
  la_start : l_start (k_log s) = start;
  la_dev : l_dev (k_log s) = ROOTDEV;
  la_n : l_n (k_log s) = Z.of_nat n;
  la_block : l_block (k_log s) = bl;
}.

Lemma log_at_framed s s' n bl : log_at s n bl → framed s s' → log_at s' n bl.
Proof. intros [L1 L2 L3 L4] F. apply framed_log in F. split; by rewrite F. Qed.

Lemma log_block_range i : (i < 30)%nat → 0 <= start + Z.of_nat i + 1 < 2147483648.
Proof. intros. unfold LOGBLOCKS, MAXOPBLOCKS in Hstart. lia. Qed.

Lemma u32_id v : 0 <= v < 2147483648 → u32 v = v.
Proof. intros. unfold u32. zlia. Qed.

(** ** The header *)

Lemma put_blocks_loop b bl n i s e :
  (b < length (k_bufs s))%nat →
  for_each n i (λ i, upd_buf b (λ x, x <| b_data ::= λ d, put32 d (4 + 4 * i) (bl !!! i) |>)) s e =
  Ok tt (poke b (put_blocks n i bl (b_data (buf_at s b))) s) e.
Proof.
  revert i s. induction n as [|n IH]; intros i s Hb; cbn [for_each put_blocks].
  - unfold mret, M_ret, poke. f_equal.
    assert ((buf_at s b) <| b_data := b_data (buf_at s b) |> = buf_at s b) as -> by (by destruct (buf_at s b)).
    rewrite list_insert_id; [by destruct s|]. by apply list_lookup_lookup_total_lt.
  - erewrite bind_Ok by reflexivity. rewrite IH by (simpl; by rewrite length_insert). f_equal.
    unfold poke, buf_at. simpl. rewrite list_lookup_total_insert_eq, list_insert_insert_eq by done. by destruct s.
Qed.

Lemma write_head_ok s D P n bl (Q : unit → kstate → Prop) (C : blocks → Prop) :
  cache s D P ∅ → log_at s n bl → (n <= 30)%nat → (size P < NBUF)%nat → P !! start = None → C D →
  (∀ s', cache s' (<[start := put_head n bl (blk D start)]> D) P ∅ → framed s s' → Q tt s') →
  cwp 2 write_head s Q C.
Proof.
  intros Hc [L1 L2 L3 L4] Hn Hsz Hp HC HQ. unfold write_head, get_log.
  eapply cwp_bind_ok; [intros e; reflexivity|]. rewrite L1, L2, L3, L4, Nat2Z.id.
  rewrite u32_id by (unfold LOGBLOCKS, MAXOPBLOCKS in Hstart; lia). apply (cwp_bind p 1 1).
  assert (0 <= start < 2147483648) as Hr by (unfold LOGBLOCKS, MAXOPBLOCKS in Hstart; lia).
  eapply bread_ok; [done|done| |done|done|]; [right; by rewrite map_size_empty, Nat.add_0_r|].
  intros b s1 Hb _ Hc1 F1. assert (cview D P start = blk D start) as Ev by (unfold cview; by rewrite Hp).
  rewrite Ev in Hc1. rewrite insert_empty in Hc1.
  assert (b < length (k_bufs s1))%nat as Hlb by (rewrite (cache_len p _ _ _ _ Hc1); lia).
  destruct (held_facts p s1 D P _ b start (blk D start) Hc1 (lookup_singleton_eq _ _)) as (_ & _ & _ & _ & Ed & _).
  destruct (poke_cache p s1 D P _ b start (blk D start) (put_head n bl (blk D start)) Hc1 (lookup_singleton_eq _ _))
    as [Hc2 F2]. rewrite insert_singleton_eq in Hc2.
  set (s2 := poke b (put_head n bl (blk D start)) s1) in *.
  eapply cwp_bind_ok; [intros e; reflexivity|].
  eapply cwp_bind_ok.
  { intros e. rewrite put_blocks_loop by (simpl; by rewrite length_insert).
    instantiate (1 := s2). instantiate (1 := tt). f_equal. unfold s2, poke, buf_at, put_head. simpl.
    rewrite list_lookup_total_insert_eq, list_insert_insert_eq by done. simpl.
    change (b_data (k_bufs s1 !!! b)) with (b_data (buf_at s1 b)). rewrite Ed. by destruct s1. }
  apply (cwp_bind p 1 0). eapply bwrite_ok; [exact Hc2|apply lookup_singleton_eq|done|].
  intros s3 Hc3 F3.
  destruct (brelse_ok p s3 _ P _ b start Hc3) as (s4 & E4 & Hc4 & F4).
  { rewrite lookup_singleton_eq. do 2 f_equal. unfold cview, blk. by rewrite Hp, lookup_insert_eq. }
  eapply cwp_ok; [exact E4|]. rewrite delete_singleton_eq in Hc4. apply HQ; [done|].
  eapply framed_trans; [done|]. eapply framed_trans; [done|]. by eapply framed_trans.
Qed.

(** ** One block *)

Lemma release_both s D P a b ba bb :
  a ≠ b → cache s D P (<[a := (ba, cview D P ba)]> {[b := (bb, cview D P bb)]}) →
  ∃ s', (∀ e, (brelse a;; brelse b) s e = Ok tt s' e) ∧ cache s' D P ∅ ∧ framed s s'.
Proof.
  intros N Hc. destruct (brelse_ok p s _ _ _ a ba Hc) as (s1 & E1 & Hc1 & F1); [apply lookup_insert_eq|].
  rewrite delete_insert_id in Hc1 by (by apply lookup_singleton_None).
  destruct (brelse_ok p s1 _ _ _ b bb Hc1) as (s2 & E2 & Hc2 & F2); [apply lookup_singleton_eq|].
  rewrite delete_singleton_eq in Hc2. exists s2. split; [|split; [done|by eapply framed_trans]].
  intros e. by rewrite (bind_Ok _ _ _ _ _ _ _ (E1 e)).
Qed.

(** Block [t] of the transaction into the log. *)
Lemma write_log_one_ok s D P n bl t bno d (Q : unit → kstate → Prop) (C : blocks → Prop) :
  let lb := start + Z.of_nat t + 1 in
  cache s D P ∅ → log_at s n bl → (t < 30)%nat → (size P < NBUF)%nat → bl !!! t = bno →
  0 <= bno < 2147483648 → P !! bno = Some d → P !! lb = None → C D →
  (∀ s', cache s' (<[lb := d]> D) P ∅ → framed s s' → Q tt s') →
  cwp 3 (write_log_one t) s Q C.
Proof.
  intros lb Hc [L1 L2 L3 L4] Ht Hsz Hbl Hbno Hp Hlb HC HQ. pose proof (log_block_range t Ht) as Hr. fold lb in Hr.
  assert (bno ≠ lb) as N by (intros ->; congruence).
  unfold write_log_one, get_log. eapply cwp_bind_ok; [intros e; reflexivity|]. rewrite L1, L2, L4, Hbl.
  fold lb. rewrite !u32_id by done. apply (cwp_bind p 1 2).
  eapply bread_ok; [done|done| |done|done|]; [right; by rewrite map_size_empty, Nat.add_0_r|].
  intros to s1 Hto _ Hc1 F1. rewrite insert_empty in Hc1. apply (cwp_bind p 1 1).
  eapply bread_ok; [exact Hc1| |by left; eexists|done|done|].
  { intros b d' Hd. apply lookup_singleton_Some in Hd as [_ Hd]. congruence. }
  intros from s2 Hfrom Nft Hc2 F2. apply lookup_singleton_None in Nft.
  assert (cview D P bno = d) as Ev by (unfold cview; by rewrite Hp). rewrite Ev in Hc2.
  set (H2 := <[from := (bno, d)]> {[to := (lb, cview D P lb)]} : gmap nat (Z * list Z)) in *.
  destruct (held_facts p s2 D P H2 from bno d Hc2) as (_ & _ & _ & _ & Ed & _); [apply lookup_insert_eq|].
  eapply cwp_bind_ok; [intros e; reflexivity|]. rewrite Ed.
  destruct (poke_cache p s2 D P H2 to lb (cview D P lb) d Hc2) as [Hc3 F3].
  { unfold H2. rewrite lookup_insert_ne by done. apply lookup_singleton_eq. }
  eapply cwp_bind_ok; [intros e; exact eq_refl|]. apply (cwp_bind p 1 0).
  eapply bwrite_ok; [exact Hc3|apply lookup_insert_eq|done|]. intros s4 Hc4 F4.
  assert (cview (<[lb := d]> D) P bno = d ∧ cview (<[lb := d]> D) P lb = d) as [V1 V2].
  { unfold cview, blk. by rewrite Hp, Hlb, lookup_insert_eq. }
  destruct (release_both s4 (<[lb := d]> D) P from to bno lb) as (s5 & E5 & Hc5 & F5); [done| |].
  { rewrite V1, V2. unfold H2 in Hc4. by rewrite insert_insert_ne, insert_singleton_eq in Hc4. }
  eapply cwp_ok; [exact E5|]. apply HQ; [done|repeat (eapply framed_trans; [eassumption|]); apply framed_refl].
Qed.

(** Block [t] of the log to its place. *)
Lemma install_one_ok s D P n bl t bno rec (Q : unit → kstate → Prop) (C : blocks → Prop) :
  let lb := start + Z.of_nat t + 1 in
  cache s D P ∅ → log_at s n bl → (t < 30)%nat → (size P < NBUF)%nat → bl !!! t = bno →
  0 <= bno < 2147483648 → bno ≠ lb → P !! lb = None →
  (if rec : bool then P = ∅ else is_Some (P !! bno)) → C D →
  (∀ s', cache s' (<[bno := blk D lb]> D) (delete bno P) ∅ → framed s s' → Q tt s') →
  cwp 3 (lbuf ← bread ROOTDEV (u32 lb);
         dbuf ← bread ROOTDEV (u32 bno);
         x ← get_buf lbuf;
         set_data dbuf (b_data x);;
         bwrite dbuf;;
         when (negb rec) (bunpin dbuf);;
         brelse lbuf;;
         brelse dbuf) s Q C.
Proof.
  intros lb Hc [L1 L2 L3 L4] Ht Hsz Hbl Hbno N Hlb Hrec HC HQ. pose proof (log_block_range t Ht) as Hr. fold lb in Hr.
  rewrite !u32_id by done. apply (cwp_bind p 1 2).
  eapply bread_ok; [done|done| |done|done|]; [right; by rewrite map_size_empty, Nat.add_0_r|].
  intros lbuf s1 Hl _ Hc1 F1. rewrite insert_empty in Hc1. apply (cwp_bind p 1 1).
  assert (cview D P lb = blk D lb) as Ev by (unfold cview; by rewrite Hlb). rewrite Ev in Hc1.
  eapply bread_ok; [exact Hc1| | |done|done|].
  { intros b d' Hd. apply lookup_singleton_Some in Hd as [_ Hd]. congruence. }
  { destruct rec; [right|by left]. rewrite Hrec, map_size_empty, map_size_singleton. change NBUF with 30%nat. lia. }
  intros dbuf s2 Hd Nld Hc2 F2. apply lookup_singleton_None in Nld.
  set (H2 := <[dbuf := (bno, cview D P bno)]> {[lbuf := (lb, blk D lb)]} : gmap nat (Z * list Z)) in *.
  destruct (held_facts p s2 D P H2 lbuf lb (blk D lb) Hc2) as (_ & _ & _ & _ & Ed & _).
  { unfold H2. rewrite lookup_insert_ne by done. apply lookup_singleton_eq. }
  eapply cwp_bind_ok; [intros e; reflexivity|]. rewrite Ed.
  destruct (poke_cache p s2 D P H2 dbuf bno (cview D P bno) (blk D lb) Hc2) as [Hc3 F3]; [apply lookup_insert_eq|].
  eapply cwp_bind_ok; [intros e; exact eq_refl|]. apply (cwp_bind p 1 0).
  eapply bwrite_ok; [exact Hc3|apply lookup_insert_eq|done|]. intros s4 Hc4 F4.
  set (H4 := <[dbuf := (bno, blk D lb)]> H2) in *.
  assert (∃ s5, (∀ e, when (negb rec) (bunpin dbuf) s4 e = Ok tt s5 e) ∧
    cache s5 (<[bno := blk D lb]> D) (delete bno P) H4 ∧ framed s4 s5) as (s5 & E5 & Hc5 & F5).
  { destruct rec.
    - exists s4. split; [done|]. split; [|apply framed_refl]. subst P. by rewrite delete_empty.
    - eapply bunpin_ok; [done|apply lookup_insert_eq|done]. }
  eapply cwp_bind_ok; [exact E5|].
  assert (cview (<[bno := blk D lb]> D) (delete bno P) lb = blk D lb ∧
    cview (<[bno := blk D lb]> D) (delete bno P) bno = blk D lb) as [V1 V2].
  { unfold cview. rewrite lookup_delete_eq, lookup_delete_ne, Hlb by done. unfold blk.
    by rewrite lookup_insert_eq, lookup_insert_ne by done. }
  destruct (release_both s5 (<[bno := blk D lb]> D) (delete bno P) lbuf dbuf lb bno) as (s6 & E6 & Hc6 & F6); [done| |].
  { rewrite V1, V2. unfold H4, H2 in Hc5. by rewrite insert_insert_eq, insert_singleton_ne in Hc5. }
  eapply cwp_ok; [exact E6|]. apply HQ; [done|repeat (eapply framed_trans; [eassumption|]); apply framed_refl].
Qed.

End log_spec.
