(* ===== verification/Commit.v ===== *)
(** Commit: the four phases of [commit] (log.c), with the disk at every point
    where the power may fail. *)

From S2P Require Export LogSpec.

Section commit.
Context `{V : VirtioDevice}.
Context (p : nat) (start : Z).
Hypothesis Hstart : 0 <= start ∧ start + LOGBLOCKS < 2147483648.

Notation cache := (cache p).
Notation cwp := (cwp p).
Notation framed := (framed p).
Notation log_at := (log_at start).
Notation in_log := (in_log start).
Notation same_fs := (same_fs start).
Notation recovered := (recovered start).

(** The transaction in memory: [P] gives the new contents of the blocks
    [bl[0..n)], and the log on the disk is empty. *)
Record tx (D P : blocks) (n : nat) (bl : list Z) : Prop := {
  tx_n : (n < NBUF)%nat;
  tx_bl : (n <= length bl)%nat;
  tx_nodup : NoDup (take n bl);
  tx_range : ∀ i, (i < n)%nat → 0 <= bl !!! i < 2147483648 ∧ ¬ in_log (bl !!! i);
  tx_pins : ∀ bno, is_Some (P !! bno) ↔ ∃ i, (i < n)%nat ∧ bl !!! i = bno;
  tx_empty : hn start D = 0;
  tx_len : length (blk D start) = Z.to_nat BSIZE;
}.

Lemma in_log_start : in_log start.
Proof. unfold in_log, LOGBLOCKS, MAXOPBLOCKS. lia. Qed.
Lemma in_log_block i : (i < 30)%nat → in_log (start + Z.of_nat i + 1).
Proof. unfold in_log, LOGBLOCKS, MAXOPBLOCKS. lia. Qed.

Section tx.
Context (D P : blocks) (n : nat) (bl : list Z) (Htx : tx D P n bl).

Lemma tx_n30 : (n < 30)%nat.
Proof. pose proof (tx_n _ _ _ _ Htx) as Hn. by change NBUF with 30%nat in Hn. Qed.

Lemma bl_lookup i : (i < n)%nat → take n bl !! i = Some (bl !!! i).
Proof.
  intros Hi. rewrite lookup_take_lt by done. apply list_lookup_lookup_total_lt. pose proof (tx_bl _ _ _ _ Htx). lia.
Qed.

Lemma bl_inj i j : (i < n)%nat → (j < n)%nat → bl !!! i = bl !!! j → i = j.
Proof.
  intros Hi Hj E. eapply NoDup_lookup; [apply (tx_nodup _ _ _ _ Htx)|by apply bl_lookup|].
  rewrite E. by apply bl_lookup.
Qed.

Lemma pins_out bno : in_log bno → P !! bno = None.
Proof.
  intros Hb. apply eq_None_not_Some. intros Hp. apply (tx_pins _ _ _ _ Htx) in Hp as (i & Hi & <-).
  by apply (tx_range _ _ _ _ Htx) in Hi as [_ Hi].
Qed.

Lemma size_pins : size P = n.
Proof.
  rewrite <- size_dom. replace (dom P) with (list_to_set (take n bl) : gset Z).
  - rewrite size_list_to_set by apply (tx_nodup _ _ _ _ Htx). rewrite length_take.
    pose proof (tx_bl _ _ _ _ Htx). lia.
  - apply set_eq. intros bno. rewrite elem_of_list_to_set, elem_of_dom, (tx_pins _ _ _ _ Htx), list_elem_of_lookup.
    split; intros (i & Hi).
    + exists i. assert (i < n)%nat as Hl.
      { apply lookup_lt_Some in Hi. rewrite length_take in Hi. lia. }
      split; [done|]. rewrite bl_lookup in Hi by done. congruence.
    + destruct Hi as [Hi <-]. exists i. by apply bl_lookup.
Qed.

(** The contents to commit. *)
Definition pd (i : nat) : list Z := default [] (P !! (bl !!! i)).

Lemma pd_lookup i : (i < n)%nat → P !! (bl !!! i) = Some (pd i).
Proof.
  intros Hi. unfold pd. destruct (P !! (bl !!! i)) eqn:E; [done|].
  assert (is_Some (P !! (bl !!! i))) as [? F] by (apply (tx_pins _ _ _ _ Htx); by exists i). congruence.
Qed.

(** The first [t] blocks in the log, and at their places. *)
Definition copies (t : nat) : list (Z * list Z) := (λ i, (start + Z.of_nat i + 1, pd i)) <$> seq 0 t.
Definition homes (t : nat) : list (Z * list Z) := (λ i, (bl !!! i, pd i)) <$> seq 0 t.

Lemma copies_S t : copies (S t) = copies t ++ [(start + Z.of_nat t + 1, pd t)].
Proof. unfold copies. by rewrite seq_S, fmap_app. Qed.
Lemma homes_S t : homes (S t) = homes t ++ [(bl !!! t, pd t)].
Proof. unfold homes. by rewrite seq_S, fmap_app. Qed.

Lemma copies_in bno t : (t <= 30)%nat → bno ∈ (copies t).*1 → in_log bno ∧ bno ≠ start.
Proof.
  intros Ht H. unfold copies in H. rewrite <- list_fmap_compose in H.
  apply list_elem_of_fmap in H as (i & -> & H). apply elem_of_seq in H. simpl.
  split; [apply in_log_block|]; lia.
Qed.

Lemma homes_in bno t : (t <= n)%nat → bno ∈ (homes t).*1 → ∃ i, (i < t)%nat ∧ bno = bl !!! i.
Proof.
  intros Ht H. unfold homes in H. rewrite <- list_fmap_compose in H.
  apply list_elem_of_fmap in H as (i & -> & H). apply elem_of_seq in H. exists i. split; [lia|done].
Qed.

Lemma homes_nodup t : (t <= n)%nat → NoDup (homes t).*1.
Proof.
  intros Ht. unfold homes. rewrite <- list_fmap_compose. apply NoDup_fmap_2_strong; [|apply NoDup_seq].
  intros i j Hi Hj E. apply elem_of_seq in Hi, Hj. apply bl_inj; [lia|lia|done].
Qed.

Lemma copies_nodup t : NoDup (copies t).*1.
Proof.
  unfold copies. rewrite <- list_fmap_compose. apply NoDup_fmap_2_strong; [|apply NoDup_seq].
  simpl. lia.
Qed.

(** Installing all of it gives the transaction's contents. *)
Lemma homes_all D' :
  same_fs (blk D') (blk D) → same_fs (blk (install (homes n) D')) (cview D P).
Proof.
  intros Hs bno N. unfold cview. destruct (P !! bno) as [d|] eqn:Hp.
  - destruct (proj1 (tx_pins _ _ _ _ Htx bno)) as (i & Hi & <-); [done|].
    apply blk_install_eq; [by apply homes_nodup|]. rewrite pd_lookup in Hp by done. injection Hp as <-.
    apply list_elem_of_fmap. exists i. split; [done|]. apply elem_of_seq. lia.
  - rewrite blk_install_ne; [by apply Hs|]. intros Hin. apply homes_in in Hin as (i & Hi & ->); [|done].
    rewrite pd_lookup in Hp; done.
Qed.

(** ** The disk after each phase *)

Definition disk1 (t : nat) : blocks := install (copies t) D.
Definition disk2 : blocks := <[start := put_head n bl (blk (disk1 n) start)]> (disk1 n).
Definition disk3 (t : nat) : blocks := install (homes t) disk2.
Definition disk4 : blocks := <[start := put_head 0 bl (blk (disk3 n) start)]> (disk3 n).

(** Wherever the power fails, recovery gives the old contents or the new ones. *)
Definition atomic (D' : blocks) : Prop :=
  log_ok start D' ∧ (same_fs (blk (recovered D')) (blk D) ∨ same_fs (blk (recovered D')) (cview D P)).

Lemma blk_insert_ne (E : blocks) b d bno : bno ≠ b → blk (<[b := d]> E) bno = blk E bno.
Proof. intros. unfold blk. by rewrite lookup_insert_ne. Qed.
Lemma blk_insert_eq (E : blocks) b d : blk (<[b := d]> E) b = d.
Proof. unfold blk. by rewrite lookup_insert_eq. Qed.

Lemma log_ok_empty D' : hn start D' = 0 → length (blk D' start) = Z.to_nat BSIZE → log_ok start D'.
Proof. intros E L. split; [done|rewrite E; unfold LOGBLOCKS, MAXOPBLOCKS; lia|]. rewrite E. simpl. lia. Qed.

Lemma disk1_start t : (t <= n)%nat → blk (disk1 t) start = blk D start.
Proof.
  intros Ht. pose proof tx_n30. apply blk_install_ne. intros F. apply copies_in in F as [_ F]; [done|lia].
Qed.

Lemma disk1_fs t : (t <= n)%nat → same_fs (blk (disk1 t)) (blk D).
Proof.
  intros Ht bno N. pose proof tx_n30. apply blk_install_ne. intros F. apply copies_in in F as [F _]; [done|lia].
Qed.

Lemma disk1_atomic t : (t <= n)%nat → atomic (disk1 t).
Proof.
  intros Ht. pose proof Htx as [_ _ _ _ _ He Hl].
  assert (hn start (disk1 t) = 0) as E by (unfold hn in *; by rewrite disk1_start).
  split; [apply log_ok_empty; [done|by rewrite disk1_start]|]. left. rewrite recovered_empty by done. by apply disk1_fs.
Qed.

Lemma disk2_head :
  length (blk disk2 start) = Z.to_nat BSIZE ∧ hn start disk2 = Z.of_nat n ∧
  ∀ i, (i < n)%nat → hb start disk2 i = bl !!! i.
Proof.
  pose proof tx_n30. unfold hn, hb, disk2. rewrite blk_insert_eq. apply put_head_ok; [|lia|].
  - rewrite disk1_start by done. apply Htx.
  - intros i Hi. apply (tx_range _ _ _ _ Htx) in Hi. lia.
Qed.

Lemma disk2_copy i : (i < n)%nat → blk disk2 (start + Z.of_nat i + 1) = pd i.
Proof.
  intros Hi. unfold disk2. rewrite blk_insert_ne by lia. apply blk_install_eq; [apply copies_nodup|].
  apply list_elem_of_fmap. exists i. split; [done|]. apply elem_of_seq. lia.
Qed.

Lemma disk2_fs : same_fs (blk disk2) (blk D).
Proof.
  intros bno N. unfold disk2. rewrite blk_insert_ne; [by apply disk1_fs|]. intros ->. apply N, in_log_start.
Qed.

Lemma disk2_logged : logged start disk2 = homes n.
Proof.
  destruct disk2_head as (_ & E1 & E2). unfold logged, homes. rewrite E1, Nat2Z.id.
  apply list_fmap_ext. intros k i Hk. apply lookup_seq in Hk as [-> Hk]. by rewrite E2, disk2_copy.
Qed.

Lemma disk2_ok : log_ok start disk2.
Proof.
  pose proof tx_n30. destruct disk2_head as (E0 & E1 & E2).
  split; [done|rewrite E1; unfold LOGBLOCKS, MAXOPBLOCKS; lia|].
  intros i Hi. rewrite E1, Nat2Z.id in Hi. rewrite E2 by done. by apply (tx_range _ _ _ _ Htx).
Qed.

Lemma disk3_atomic t : (t <= n)%nat → atomic (disk3 t).
Proof.
  intros Ht. destruct (recovered_install start disk2 (homes t)) as [Ho Hs]; [apply disk2_ok| |].
  { rewrite disk2_logged. intros bno Hin. apply homes_in in Hin as (i & Hi & ->); [|done].
    unfold homes. rewrite <- list_fmap_compose. apply list_elem_of_fmap. exists i. split; [done|]. apply elem_of_seq. lia. }
  split; [done|]. right. eapply same_fs_trans; [done|]. unfold recovered. rewrite disk2_logged.
  apply homes_all, disk2_fs.
Qed.

Lemma disk3_log t bno : (t <= n)%nat → in_log bno → blk (disk3 t) bno = blk disk2 bno.
Proof.
  intros Ht Hb. apply blk_install_ne. intros F. apply homes_in in F as (i & Hi & ->); [|done].
  by apply (tx_range _ _ _ _ Htx i); [lia|].
Qed.

Lemma disk4_fs : same_fs (blk disk4) (cview D P).
Proof.
  intros bno N. unfold disk4. rewrite blk_insert_ne by (intros ->; apply N, in_log_start).
  by apply homes_all; [apply disk2_fs|].
Qed.

Lemma disk4_head : hn start disk4 = 0 ∧ length (blk disk4 start) = Z.to_nat BSIZE.
Proof.
  unfold hn, disk4. rewrite blk_insert_eq. destruct (put_head_ok 0 bl (blk (disk3 n) start)) as (E1 & E2 & _).
  - rewrite disk3_log; [apply disk2_head|done|apply in_log_start].
  - lia.
  - lia.
  - done.
Qed.

Lemma disk4_atomic : atomic disk4.
Proof.
  destruct disk4_head. split; [by apply log_ok_empty|]. right. rewrite recovered_empty by done. apply disk4_fs.
Qed.

(** ** The code *)

Lemma write_log_ok s :
  cache s D P ∅ → log_at s n bl →
  cwp (n * 3) write_log s (λ _ s', cache s' (disk1 n) P ∅ ∧ framed s s') atomic.
Proof.
  intros Hc Hl. unfold write_log, get_log. eapply cwp_bind_ok; [intros e; reflexivity|].
  rewrite (la_n _ _ _ _ Hl), Nat2Z.id. pose proof tx_n30.
  apply (cwp_for_each p n 0 3 _ s (λ t s', cache s' (disk1 t) P ∅ ∧ framed s s')).
  - split; [exact Hc|apply framed_refl].
  - intros t s' Ht [Hc' F]. eapply (write_log_one_ok p start Hstart s' (disk1 t) P n bl t); try done.
    + by eapply log_at_framed.
    + lia.
    + rewrite size_pins. apply Htx.
    + apply (tx_range _ _ _ _ Htx). lia.
    + apply pd_lookup. lia.
    + apply pins_out, in_log_block. lia.
    + apply disk1_atomic. lia.
    + intros s2 Hc2 F2. unfold disk1 in *. rewrite copies_S, install_snoc. split; [done|by eapply framed_trans].
  - done.
Qed.

Lemma install_trans_ok s :
  cache s disk2 P ∅ → log_at s n bl →
  cwp (n * 3) (install_trans false) s (λ _ s', cache s' (disk3 n) ∅ ∅ ∧ framed s s') atomic.
Proof.
  intros Hc Hl. unfold install_trans, get_log. eapply cwp_bind_ok; [intros e; reflexivity|].
  rewrite (la_n _ _ _ _ Hl), Nat2Z.id. pose proof tx_n30.
  apply (cwp_for_each p n 0 3 _ s (λ t s', ∃ P', cache s' (disk3 t) P' ∅ ∧ (size P' < NBUF)%nat ∧
    (∀ bno, is_Some (P' !! bno) ↔ ∃ i, (t <= i < n)%nat ∧ bl !!! i = bno) ∧ framed s s')).
  - exists P. split; [exact Hc|]. split; [rewrite size_pins; apply Htx|]. split; [|apply framed_refl].
    intros bno. rewrite (tx_pins _ _ _ _ Htx). split; intros (i & Hi & <-); exists i; (split; [lia|done]).
  - intros t s' [_ Ht] (P' & Hc' & Hsz & HP & F). pose proof (log_at_framed _ _ _ _ _ _ Hl F) as Hl'.
    unfold install_trans_one, get_log. eapply cwp_bind_ok; [intros e; reflexivity|]. cbn [when].
    eapply cwp_bind_ok; [intros e; reflexivity|].
    rewrite (la_start _ _ _ _ Hl'), (la_dev _ _ _ _ Hl'), (la_block _ _ _ _ Hl').
    assert (in_log (start + Z.of_nat t + 1)) as Hin by (apply in_log_block; lia).
    assert (0 <= bl !!! t < 2147483648 ∧ ¬ in_log (bl !!! t)) as [Hr Hout] by (apply (tx_range _ _ _ _ Htx); lia).
    eapply (install_one_ok p start Hstart s' (disk3 t) P' n bl t (bl !!! t) false); try done.
    + lia.
    + intros E. by rewrite E in Hout.
    + apply eq_None_not_Some. rewrite HP. intros (i & Hi & E). apply (tx_range _ _ _ _ Htx i); [lia|]. by rewrite E.
    + apply HP. exists t. split; [lia|done].
    + apply disk3_atomic. lia.
    + intros s2 Hc2 F2. exists (delete (bl !!! t) P'). split_and!.
      * rewrite disk3_log, disk2_copy in Hc2 by (done || lia). unfold disk3 in *.
        by rewrite homes_S, install_snoc.
      * eapply Nat.le_lt_trans; [|exact Hsz]. apply map_subseteq_size, delete_subseteq.
      * intros bno. rewrite lookup_delete_is_Some, HP. split.
        -- intros (N & i & Hi & <-). exists i. split; [|done].
           destruct (decide (i = t)) as [->|]; [done|lia].
        -- intros (i & Hi & <-). split; [|exists i; split; [lia|done]].
           intros E. apply bl_inj in E; lia.
      * by eapply framed_trans.
  - intros s' (P' & Hc' & _ & HP & F). split; [|done].
    assert (P' = ∅) as ->; [|done]. apply map_empty. intros bno. apply eq_None_not_Some. rewrite HP.
    intros (i & Hi & _). lia.
Qed.

Definition emptied (s : kstate) : kstate := s <| k_log ::= λ l, l <| l_n := 0 |> |>.

Lemma cache_log s l E F H : cache s E F H → cache (s <| k_log := l |>) E F H.
Proof. intros [C1 C2 C3 C4 C5 C6 C7 C8]. split; try done. by apply (calm_ext s). Qed.

Lemma cache_procs s ps E F H :
  cache s E F H → same_proc p (k_procs s) ps → cache (s <| k_procs := ps |>) E F H.
Proof.
  intros [C1 C2 C3 C4 C5 C6 C7 C8] Hps. split; try done; [by apply (calm_ext s)|].
  intros b Hb. unfold proc_at. simpl. rewrite (proj2 Hps). by apply C7.
Qed.

Lemma framed_emptied s s' : framed s s' → framed (emptied s) (emptied s').
Proof. intros [E F]. split; [|done]. unfold emptied. rewrite E. reflexivity. Qed.

(** The state [commit] returns with. *)
Definition committed (s s' : kstate) : Prop :=
  ∃ D', cache s' D' ∅ ∅ ∧ hn start D' = 0 ∧ length (blk D' start) = Z.to_nat BSIZE ∧
    same_fs (blk D') (cview D P) ∧ framed (emptied s) s'.

Lemma commit_ok s :
  cache s D P ∅ → log_at s n bl → cwp (n * 6 + 4) commit s (λ _ s', committed s s') atomic.
Proof.
  intros Hc Hl. unfold commit, get_log. eapply cwp_bind_ok; [intros e; reflexivity|].
  rewrite (la_n _ _ _ _ Hl). pose proof tx_n30. pose proof Htx as [Hn _ _ _ _ He Hlen].
  destruct (decide (n = 0%nat)) as [Hz|Hz].
  { rewrite (proj2 (Z.ltb_ge _ _)) by lia. cbn [when].
    apply (cwp_mono p 0 _ _ _ (λ _ s', committed s s') _ atomic); [|lia|done|done]. apply cwp_ret. exists D.
    assert (P = ∅) as ->.
    { apply map_empty. intros bno. apply eq_None_not_Some. rewrite (tx_pins _ _ _ _ Htx). intros (i & Hi & _). lia. }
    split_and!; try done.
    assert (emptied s = s) as ->; [|apply framed_refl]. unfold emptied, set. destruct s as [].
    simpl in *. f_equal. destruct Hl as [_ _ Hl _]. simpl in Hl. destruct k_log. simpl in *. by subst. }
  rewrite (proj2 (Z.ltb_lt _ _)) by lia. cbn [when].
  apply (cwp_mono p (n * 3 + (2 + (n * 3 + 2))) _ _ _ (λ _ s', committed s s') _ atomic); [|lia|done|done].
  apply cwp_bind. eapply cwp_mono; [by apply write_log_ok|done| |done]. intros _ s1 [Hc1 F1].
  pose proof (log_at_framed _ _ _ _ _ _ Hl F1) as Hl1.
  apply cwp_bind. eapply (write_head_ok p start Hstart s1 _ P n bl); [done|done|lia|by rewrite size_pins| | |].
  { apply pins_out, in_log_start. }
  { by apply disk1_atomic. }
  intros s2 Hc2 F2. fold disk2 in Hc2. pose proof (log_at_framed _ _ _ _ _ _ Hl1 F2) as Hl2.
  apply cwp_bind. eapply cwp_mono; [by apply install_trans_ok|done| |done]. intros _ s3 [Hc3 F3].
  pose proof (log_at_framed _ _ _ _ _ _ Hl2 F3) as Hl3.
  eapply cwp_bind_ok; [intros e; reflexivity|]. change (s3 <| k_log ::= _ |>) with (emptied s3).
  eapply (write_head_ok p start Hstart (emptied s3) _ ∅ 0 bl); [by apply cache_log| |lia| |done| |].
  { destruct Hl3 as [L1 L2 L3 L4]. by split. }
  { rewrite map_size_empty. change NBUF with 30%nat. lia. }
  { by apply disk3_atomic. }
  intros s4 Hc4 F4. fold disk4 in Hc4. exists disk4. destruct disk4_head. split_and!; try done; [apply disk4_fs|].
  eapply framed_trans; [apply framed_emptied; eapply framed_trans; [done|by eapply framed_trans]|done].
Qed.

(** The last operation of a transaction commits it. *)
Lemma end_op_ok s :
  cache s D P ∅ → log_at s n bl → l_outstanding (k_log s) = 1 → l_committing (k_log s) = 0 →
  cwp (n * 6 + 4) end_op s (λ _ s', ∃ D', cache s' D' ∅ ∅ ∧ hn start D' = 0 ∧
    length (blk D' start) = Z.to_nat BSIZE ∧ same_fs (blk D') (cview D P) ∧
    k_log s' = (k_log s) <| l_n := 0 |> <| l_outstanding := 0 |> ∧
    s' = s <| k_disk := k_disk s' |> <| k_bufs := k_bufs s' |> <| k_procs := k_procs s' |> <| k_log := k_log s' |> ∧
    proc_at s' p = proc_at s p) atomic.
Proof.
  intros Hc Hl Ho Hcm. pose proof (ch_calm _ _ _ _ _ Hc) as Hca. unfold end_op, get_log.
  eapply cwp_bind_ok; [intros e; by eapply (calm_acquire s p Llog)|].
  eapply cwp_bind_ok; [intros e; reflexivity|]. eapply cwp_bind_ok; [intros e; reflexivity|].
  simpl. rewrite Ho, Hcm. cbn [Z.eqb negb Z.sub Z.add Z.opp Z.pos_sub].
  eapply cwp_bind_ok; [intros e; reflexivity|].
  eapply cwp_bind_ok; [intros e; by apply (calm_release s _ p Llog)|]. cbn [when].
  match goal with |- Crash.cwp _ _ _ ?ss _ _ => set (s1 := ss) end.
  set (l1 := (k_log s) <| l_outstanding := l_outstanding (k_log s) - 1 |> <| l_committing := 1 |>).
  assert (s1 = s <| k_log := l1 |>) as E1 by (by destruct s). clearbody s1. subst s1.
  rewrite <- (Nat.add_0_r (n * 6 + 4)). apply cwp_bind.
  eapply cwp_mono; [apply (commit_ok (s <| k_log := l1 |>)); [by apply cache_log|]|done| |done].
  { destruct Hl as [L1 L2 L3 L4]. by split. }
  intros _ s2 (D' & Hc2 & Hh & Hlen & Hs & F2). pose proof (framed_log _ _ _ F2) as El.
  pose proof (ch_calm _ _ _ _ _ Hc2) as Hca2.
  eapply cwp_bind_ok; [intros e; by eapply (calm_acquire s2 p Llog)|].
  eapply cwp_bind_ok; [intros e; reflexivity|].
  eapply cwp_bind_ok; [intros e; apply (calm_wakeup s2 _ p Llog); [done|done|done|by apply Hca2]|].
  eapply cwp_ok; [intros e; by apply (calm_release s2 _ p Llog)|].
  set (l2 := (k_log s2) <| l_committing := 0 |>). set (ps := wake ChLog (Some p) (k_procs s2)).
  match goal with |- context [cache ?t _ _ _] => assert (t = s2 <| k_log := l2 |> <| k_procs := ps |>) as -> by (by destruct s2) end.
  exists D'. split_and!; try done.
  - apply (cache_procs _ ps); [by apply cache_log|apply same_proc_wake].
  - simpl. unfold l2. rewrite El. unfold emptied, l1. simpl. destruct (k_log s). simpl in *. by subst.
  - destruct F2 as [F2 _]. clear -F2. clearbody l1 l2 ps. rewrite F2. by destruct s.
  - destruct F2 as [_ F2]. change (proc_at s2 p = proc_at s p) in F2. rewrite <- F2. apply (same_proc_wake p ChLog (k_procs s2)).
Qed.

End tx.
End commit.
