(* ===== verification/Recovery.v ===== *)
(** Recovery: [recover_from_log] of log.c, run on the disk that a crash left. *)

From S2P Require Export Commit PrintfSpec.

Section recovery.
Context `{V : VirtioDevice}.
Context (p : nat) (start : Z).
Hypothesis Hstart : 0 <= start ∧ start + LOGBLOCKS < 2147483648.

Notation cache := (cache p).
Notation cwp := (cwp p).
Notation framed := (framed p).
Notation log_at := (log_at start).
Notation in_log := (in_log start).
Notation same_fs := (same_fs start).
Notation recovered := (recovered start).

Lemma can_print_framed s s' : can_print s → framed s s' → can_print s'.
Proof. intros [H1 H2 H3 H4 H5] [E _]. split; rewrite E; done. Qed.

Lemma cache_emit s out E F H : cache s E F H → cache (emit out s) E F H.
Proof. intros [C1 C2 C3 C4 C5 C6 C7 C8]. split; try done. by apply (calm_ext s). Qed.

(** ** Reading the header *)

(** The stores of [read_head]. *)
Fixpoint load_blocks (n i : nat) (d bl : list Z) : list Z :=
  match n with
  | O => bl
  | S n' => load_blocks n' (S i) d (<[i := lh_block d i]> bl)
  end.

Lemma length_load_blocks n i d bl : length (load_blocks n i d bl) = length bl.
Proof. revert i bl. induction n as [|n IH]; intros i bl; [done|]. simpl. by rewrite IH, length_insert. Qed.

Lemma load_blocks_low n i d bl j : (j < i)%nat → load_blocks n i d bl !!! j = bl !!! j.
Proof.
  revert i bl. induction n as [|n IH]; intros i bl Hj; [done|]. simpl. rewrite IH by lia.
  apply total_insert_ne. lia.
Qed.

Lemma load_blocks_get n i d bl j :
  (i + n <= length bl)%nat → (i <= j < i + n)%nat → load_blocks n i d bl !!! j = lh_block d j.
Proof.
  revert i bl. induction n as [|n IH]; intros i bl Hl Hj; [lia|]. simpl.
  destruct (decide (j = i)) as [->|N].
  - rewrite load_blocks_low by lia. apply total_insert_eq. lia.
  - apply IH; [rewrite length_insert|]; lia.
Qed.

Definition with_blocks (bl : list Z) (s : kstate) : kstate := s <| k_log ::= λ l, l <| l_block := bl |> |>.

Lemma load_blocks_loop n i d s e :
  for_each n i (λ i, upd_log (λ l, l <| l_block ::= <[i := lh_block d i]> |>)) s e =
  Ok tt (with_blocks (load_blocks n i d (l_block (k_log s))) s) e.
Proof.
  revert i s. induction n as [|n IH]; intros i s; cbn [for_each load_blocks].
  - unfold mret, M_ret, with_blocks, set. f_equal. destruct s as []. simpl. f_equal. by destruct k_log.
  - erewrite bind_Ok by reflexivity. rewrite IH. f_equal.
Qed.

(** What the log and the console must be like. *)
Record booted (s : kstate) : Prop := {
  bt_start : l_start (k_log s) = start;
  bt_dev : l_dev (k_log s) = ROOTDEV;
  bt_len : length (l_block (k_log s)) = Z.to_nat LOGBLOCKS;
  bt_print : can_print s;
}.

Lemma read_head_ok s D (C : blocks → Prop) :
  cache s D ∅ ∅ → booted s → log_ok start D → C D →
  cwp 1 read_head s (λ _ s', cache s' D ∅ ∅ ∧ can_print s' ∧
    ∃ bl, k_log s' = (k_log s) <| l_n := hn start D |> <| l_block := bl |> ∧ length bl = Z.to_nat LOGBLOCKS ∧
      ∀ i, (i < Z.to_nat (hn start D))%nat → bl !!! i = hb start D i) C.
Proof.
  intros Hc [B1 B2 B3 B4] [O1 O2 O3] HC. unfold read_head, get_log.
  eapply cwp_bind_ok; [intros e; reflexivity|]. rewrite B1, B2.
  assert (0 <= start < 2147483648) as Hr by (unfold LOGBLOCKS, MAXOPBLOCKS in Hstart; lia).
  rewrite u32_id by done. apply (cwp_bind p 1 0).
  eapply bread_ok; [done|done|right; by rewrite !map_size_empty; change NBUF with 30%nat; lia|done|done|].
  intros b s1 Hb _ Hc1 F1. rewrite insert_empty in Hc1. change (cview D ∅ start) with (blk D start) in Hc1.
  destruct (held_facts p s1 D ∅ _ b start (blk D start) Hc1 (lookup_singleton_eq _ _)) as (_ & _ & _ & _ & Ed & _).
  eapply cwp_bind_ok; [intros e; reflexivity|]. rewrite Ed.
  eapply cwp_bind_ok; [intros e; reflexivity|]. change (lh_n (blk D start)) with (hn start D).
  rewrite (proj2 (Z.ltb_ge _ _)) by lia.
  eapply cwp_bind_ok; [intros e; apply load_blocks_loop|].
  set (s2 := s1 <| k_log ::= λ l, l <| l_n := hn start D |> |>).
  set (bl := load_blocks (Z.to_nat (hn start D)) 0 (blk D start) (l_block (k_log s2))).
  assert (cache (with_blocks bl s2) D ∅ {[b := (start, blk D start)]}) as Hc3 by (by do 2 apply cache_log).
  destruct (brelse_ok p _ _ _ _ b start Hc3) as (s4 & E4 & Hc4 & F4); [apply lookup_singleton_eq|].
  rewrite delete_singleton_eq in Hc4. eapply cwp_ok; [exact E4|].
  pose proof (framed_log _ _ _ F1) as El1. pose proof (framed_log _ _ _ F4) as El4.
  split; [done|]. split.
  { apply (can_print_framed (with_blocks bl s2)); [|done]. by apply (can_print_framed s s1) in B4 as [P1 P2 P3 P4 P5]. }
  assert (length (l_block (k_log s2)) = Z.to_nat LOGBLOCKS) as Hlen by (simpl; by rewrite El1).
  exists bl. split_and!.
  - rewrite El4. unfold with_blocks, s2. simpl. by rewrite El1.
  - unfold bl. by rewrite length_load_blocks.
  - intros i Hi. apply load_blocks_get; [rewrite Hlen; lia|lia].
Qed.

(** ** Installing *)

Section install.
Context (D : blocks) (Hok : log_ok start D).

Let n := Z.to_nat (hn start D).

(** The first [t] entries of the log. *)
Definition entries (t : nat) : list (Z * list Z) :=
  (λ i, (hb start D i, blk D (start + Z.of_nat i + 1))) <$> seq 0 t.

Lemma entries_S t : entries (S t) = entries t ++ [(hb start D t, blk D (start + Z.of_nat t + 1))].
Proof. unfold entries. by rewrite seq_S, fmap_app. Qed.

Lemma entries_logged t : (t <= n)%nat → (entries t).*1 ⊆ (logged start D).*1.
Proof.
  intros Ht bno. unfold entries, logged. rewrite <- !list_fmap_compose, !list_elem_of_fmap.
  intros (i & -> & Hi). exists i. split; [done|]. apply elem_of_seq in Hi. apply elem_of_seq. fold n. lia.
Qed.

(** Wherever the power fails, another recovery gives the same contents. *)
Definition preserved (D' : blocks) : Prop :=
  log_ok start D' ∧ same_fs (blk (recovered D')) (blk (recovered D)).

Lemma entries_preserved t : (t <= n)%nat → preserved (install (entries t) D).
Proof. intros Ht. by apply recovered_install, entries_logged. Qed.

Lemma entries_log t bno : (t <= n)%nat → in_log bno → blk (install (entries t) D) bno = blk D bno.
Proof.
  intros Ht Hb. apply blk_install_ne. intros F. by apply (entries_logged t Ht), (logged_outside start D Hok) in F.
Qed.

Lemma n_le_30 : (n <= 30)%nat.
Proof. pose proof (lo_n _ _ Hok) as Hn. unfold LOGBLOCKS, MAXOPBLOCKS in Hn. unfold n. lia. Qed.

Lemma recover_install_ok s bl :
  cache s D ∅ ∅ → can_print s → log_at s n bl → (∀ i, (i < n)%nat → bl !!! i = hb start D i) →
  cwp (n * 3) (install_trans true) s (λ _ s', cache s' (recovered D) ∅ ∅ ∧ k_log s' = k_log s) preserved.
Proof.
  intros Hc Hp Hl Hbl. unfold install_trans, get_log. eapply cwp_bind_ok; [intros e; reflexivity|].
  rewrite (la_n _ _ _ _ Hl), Nat2Z.id. pose proof n_le_30.
  apply (cwp_for_each p n 0 3 _ s (λ t s', cache s' (install (entries t) D) ∅ ∅ ∧ can_print s' ∧ k_log s' = k_log s)).
  - by split_and!.
  - intros t s' [_ Ht] (Hc' & Hp' & El).
    assert (log_at s' n bl) as Hl' by (destruct Hl as [L1 L2 L3 L4]; split; by rewrite El).
    unfold install_trans_one, get_log.
    eapply cwp_bind_ok; [intros e; reflexivity|]. cbn [when negb].
    eapply cwp_bind_ok.
    { intros e. erewrite bind_Ok by (apply printf_ok; [done|by apply (ca_locks _ _ (ch_calm _ _ _ _ _ Hc'))]).
      reflexivity. }
    rewrite (la_start _ _ _ _ Hl'), (la_dev _ _ _ _ Hl'), (la_block _ _ _ _ Hl'), Hbl by lia.
    match goal with |- Crash.cwp _ _ _ (emit ?o s') _ _ => set (out := o) end. clearbody out.
    assert (in_log (start + Z.of_nat t + 1)) as Hin by (apply in_log_block; lia).
    destruct (lo_blocks _ _ Hok t Ht) as [Hr Hout].
    eapply (install_one_ok p start Hstart (emit out s') _ ∅ n bl t (hb start D t) true).
    + by apply cache_emit.
    + by destruct Hl'.
    + lia.
    + rewrite map_size_empty. change NBUF with 30%nat. lia.
    + apply Hbl. lia.
    + done.
    + intros E. by rewrite E in Hout.
    + done.
    + done.
    + apply entries_preserved. lia.
    + intros s2 Hc2 F2. rewrite entries_log in Hc2 by (done || lia). rewrite delete_empty in Hc2.
      rewrite entries_S, install_snoc. split; [done|]. split.
      * eapply can_print_framed; [by apply (can_print_emit s' out)|done].
      * by rewrite (framed_log _ _ _ F2).
  - intros s' (Hc' & _ & El). by split.
Qed.

(** ** The whole of it *)

Lemma recovered_log bno : in_log bno → blk (recovered D) bno = blk D bno.
Proof. intros Hb. by apply (entries_log n). Qed.

Definition cleared_disk (bl : list Z) : blocks :=
  <[start := put_head 0 bl (blk (recovered D) start)]> (recovered D).

Lemma cleared_disk_ok bl :
  hn start (cleared_disk bl) = 0 ∧ length (blk (cleared_disk bl) start) = Z.to_nat BSIZE ∧
  same_fs (blk (cleared_disk bl)) (blk (recovered D)).
Proof.
  unfold cleared_disk, hn. rewrite blk_insert_eq.
  destruct (put_head_ok 0 bl (blk (recovered D) start)) as (E1 & E2 & _).
  { rewrite recovered_log by apply in_log_start. apply Hok. }
  { lia. }
  { lia. }
  split; [done|]. split; [done|]. intros bno N. apply blk_insert_ne. intros ->. apply N, in_log_start.
Qed.

Lemma recover_ok s :
  cache s D ∅ ∅ → booted s →
  cwp (n * 3 + 3) recover_from_log s (λ _ s', ∃ D', cache s' D' ∅ ∅ ∧ hn start D' = 0 ∧
    length (blk D' start) = Z.to_nat BSIZE ∧ same_fs (blk D') (blk (recovered D)) ∧
    ∃ bl, k_log s' = (k_log s) <| l_n := 0 |> <| l_block := bl |> ∧ length bl = Z.to_nat LOGBLOCKS) preserved.
Proof.
  intros Hc Hb. unfold recover_from_log. pose proof n_le_30.
  replace (n * 3 + 3)%nat with (1 + (n * 3 + 2))%nat by lia.
  apply cwp_bind. eapply cwp_mono; [apply (read_head_ok s D preserved Hc Hb Hok)|done| |done].
  { split; [done|apply same_fs_refl]. }
  intros _ s1 (Hc1 & Hp1 & bl & El1 & Hlen & Hbl).
  assert (log_at s1 n bl) as Hl1.
  { destruct Hb as [B1 B2 B3 B4]. split; rewrite El1; try done. simpl. unfold n.
    pose proof (lo_n _ _ Hok). by rewrite Z2Nat.id by lia. }
  apply cwp_bind. eapply cwp_mono; [by apply (recover_install_ok s1 bl)|done| |done].
  intros _ s2 [Hc2 El2].
  assert (log_at s2 n bl) as Hl2 by (destruct Hl1 as [L1 L2 L3 L4]; split; by rewrite El2).
  eapply cwp_bind_ok; [intros e; reflexivity|].
  change (s2 <| k_log ::= _ |>) with (emptied s2).
  eapply (write_head_ok p start Hstart (emptied s2) _ ∅ 0 bl); [by apply cache_log| |lia| |done| |].
  { destruct Hl2 as [L1 L2 L3 L4]. by split. }
  { rewrite map_size_empty. change NBUF with 30%nat. lia. }
  { apply (entries_preserved n). lia. }
  intros s3 Hc3 F3. fold (cleared_disk bl) in Hc3. destruct (cleared_disk_ok bl) as (E1 & E2 & E3).
  exists (cleared_disk bl). split_and!; try done. exists bl. split; [|done].
  rewrite (framed_log _ _ _ F3). unfold emptied. simpl. rewrite El2, El1. by destruct (k_log s).
Qed.

(** ** [initlog] *)

Definition reset_lock (lk : lockid) (name : string) (s : kstate) : kstate :=
  s <| k_x ::= λ x, x <| x_locks ::= <[lk := mk_spinlock 0 name None]> |> |>.

Lemma initlock_ok lk name s e : initlock lk name s e = Ok tt (reset_lock lk name s) e.
Proof. unfold initlock, get_lock, put_lock. rewrite bind_gets. unfold modify. f_equal. Qed.

Lemma reset_calm lk name s : calm s p → calm (reset_lock lk name s) p.
Proof.
  intros [H1 H2 H3 H4 H5 H6 H7 H8]. split; try done.
  - by destruct H1.
  - unfold settled, reset_lock in *. simpl. by rewrite settle_set_locks, H2.
  - intros lk' Hlk. destruct (decide (lk' = lk)) as [->|N].
    + exists name. simpl. by rewrite lookup_insert_eq.
    + destruct (H8 lk' Hlk) as [nm E]. exists nm. simpl. by rewrite lookup_insert_ne.
Qed.

Lemma reset_cache lk name s E F H : cache s E F H → cache (reset_lock lk name s) E F H.
Proof. intros [C1 C2 C3 C4 C5 C6 C7 C8]. split; try done. by apply reset_calm. Qed.

Lemma initlog_ok s sb :
  cache s D ∅ ∅ → can_print s → length (l_block (k_log s)) = Z.to_nat LOGBLOCKS → sb_logstart sb = start →
  cwp (n * 3 + 3) (initlog ROOTDEV sb) s (λ _ s', ∃ D', cache s' D' ∅ ∅ ∧ hn start D' = 0 ∧
    length (blk D' start) = Z.to_nat BSIZE ∧ same_fs (blk D') (blk (recovered D)) ∧
    ∃ bl, k_log s' = mk_log start (l_outstanding (k_log s)) (l_committing (k_log s)) ROOTDEV 0 bl ∧
      length bl = Z.to_nat LOGBLOCKS) preserved.
Proof.
  intros Hc Hp Hlen Hsb. unfold initlog. change (BSIZE <=? sizeof_logheader) with false. cbv iota.
  eapply cwp_bind_ok; [intros e; apply initlock_ok|].
  eapply cwp_bind_ok; [intros e; reflexivity|]. eapply cwp_bind_ok; [intros e; reflexivity|].
  rewrite Hsb. replace (i32 start) with start by (unfold i32, LOGBLOCKS, MAXOPBLOCKS in *; zlia).
  set (s1 := reset_lock Llog "log" s).
  match goal with |- Crash.cwp _ _ _ ?ss _ _ => set (s2 := ss) end.
  assert (k_log s2 = (k_log s) <| l_start := start |> <| l_dev := ROOTDEV |>) as El by done.
  assert (cache s2 D ∅ ∅) as Hc2.
  { change s2 with (s1 <| k_log := (k_log s) <| l_start := start |> <| l_dev := ROOTDEV |> |>).
    by apply cache_log, reset_cache. }
  eapply cwp_mono; [apply (recover_ok s2 Hc2)|done| |done].
  - split; rewrite ?El; try done. destruct Hp as [P1 P2 P3 P4 P5]. split; try done.
    + by destruct P4.
    + unfold settled in *. unfold s2, reset_lock. simpl. by rewrite settle_set_locks, P5.
  - intros _ s3 (D' & X1 & X2 & X3 & X4 & bl & X5 & X6). exists D'. split_and!; try done.
    exists bl. split; [|done]. rewrite X5, El. by destruct (k_log s).
Qed.

End install.
End recovery.
