(* ===== verification/LogOps.v ===== *)
(** The operations that file system calls use: [begin_op], [log_write] and
    [end_op] of log.c, as equations; and the reservation of log space. *)

From S2P Require Export Commit.

Section ops.
Context `{V : VirtioDevice}.
Context (p : nat).

Notation cache := (cache p).
Notation framed := (framed p).

(** ** [begin_op] *)

(** There is room for one more operation. *)
Definition admits (l : log_t) : bool :=
  (l_committing l =? 0) && (l_n l + (l_outstanding l + 1) * MAXOPBLOCKS <=? LOGBLOCKS).

Definition opened (l : log_t) : log_t := l <| l_outstanding ::= λ n, n + 1 |>.

Lemma begin_op_ok s e :
  calm s p → admits (k_log s) = true → begin_op s e = Ok tt (s <| k_log ::= opened |>) e.
Proof.
  intros Hc Ha. unfold admits in Ha. apply andb_true_iff in Ha as [H1 H2%Z.leb_le].
  unfold begin_op, get_log. erewrite bind_Ok by (by eapply (calm_acquire s p Llog)).
  apply wait_loop_now. rewrite bind_gets. simpl. rewrite H1. cbn [negb].
  rewrite (proj2 (Z.ltb_ge _ _)) by lia. unfold upd_log. rewrite bind_modify.
  erewrite bind_Ok by (by apply (calm_release s _ p Llog)). by destruct s.
Qed.

(** Without room it sleeps, and the log is as it was. *)
Lemma begin_op_waits s :
  calm s p → admits (k_log s) = false → ∃ s', begin_op s [] = Stuck s' ∧ k_log s' = k_log s.
Proof.
  intros Hc Ha. set (s1 := s <| k_x := acquired Llog (k_x s) |>).
  exists (asleep s1 (k_x s) p ChLog). split; [|done].
  assert (can_sleep s1 (k_x s) p Llog) as Hs.
  { destruct Hc as [H1 H2 H3 H4 H5 H6 H7 H8]. split; try done; [|by apply H8|by apply H8].
    change (p < length (k_procs s))%nat. lia. }
  unfold begin_op, get_log. erewrite bind_Ok by (by eapply (calm_acquire s p Llog)). fold s1.
  apply wait_loop_stuck. rewrite bind_gets. change (k_log s1) with (k_log s). unfold admits in Ha.
  destruct (l_committing (k_log s) =? 0); cbn [andb negb] in *; [|by apply bind_Stuck, sleep_stuck].
  apply Z.leb_gt in Ha. rewrite (proj2 (Z.ltb_lt _ _)) by lia. by apply bind_Stuck, sleep_stuck.
Qed.

(** ** [end_op] when other operations go on *)

Lemma end_op_more s e :
  calm s p → l_committing (k_log s) = 0 → l_outstanding (k_log s) ≠ 1 →
  end_op s e = Ok tt (s <| k_log ::= λ l, l <| l_outstanding ::= λ n, n - 1 |> |>
                        <| k_procs := wake ChLog (Some p) (k_procs s) |>) e.
Proof.
  intros Hc H1 H2. unfold end_op, get_log. erewrite bind_Ok by (by eapply (calm_acquire s p Llog)).
  unfold upd_log. rewrite bind_modify, bind_gets. simpl. rewrite H1. cbn [Z.eqb negb].
  rewrite (proj2 (Z.eqb_neq _ _)) by lia. rewrite bind_assoc.
  erewrite bind_Ok by (apply (calm_wakeup s _ p Llog); [done|done|done|by apply Hc]). rewrite bind_ret.
  erewrite bind_Ok by (by apply (calm_release s _ p Llog)). cbn [when]. by destruct s.
Qed.

(** ** [log_write] *)

Lemma absorb_spec bl bno n i :
  (i <= absorb bl bno n i <= i + n)%nat ∧
  (∀ j, (i <= j < absorb bl bno n i)%nat → u32 (bl !!! j) ≠ bno) ∧
  ((absorb bl bno n i < i + n)%nat → u32 (bl !!! absorb bl bno n i) = bno).
Proof.
  revert i. induction n as [|n IH]; intros i; cbn [absorb]; [split_and!; lia|].
  destruct (u32 (bl !!! i) =? bno) eqn:E.
  - apply Z.eqb_eq in E. split_and!; [lia|lia|lia|done].
  - apply Z.eqb_neq in E. destruct (IH (S i)) as (I1 & I2 & I3). split_and!; [lia|lia| |].
    + intros j Hj. destruct (decide (j = i)) as [->|]; [done|]. apply I2. lia.
    + intros Hlt. apply I3. lia.
Qed.

(** The log after block [bno] joined it. *)
Definition noted (bno : Z) (l : log_t) : log_t :=
  let i := absorb (l_block l) bno (Z.to_nat (l_n l)) 0 in
  let l' := l <| l_block ::= <[i := i32 bno]> |> in
  if Z.of_nat i =? l_n l then l' <| l_n ::= λ n, n + 1 |> else l'.

Definition grows (bno : Z) (l : log_t) : bool :=
  Z.of_nat (absorb (l_block l) bno (Z.to_nat (l_n l)) 0) =? l_n l.

(** [bpin] is called with the lock of the log held. *)
Lemma bpin_in s0 s b e :
  calm s0 p → k_x s = acquired Llog (k_x s0) →
  bpin b s e = Ok tt (recounted b (λ n, u32 (n + 1)) s) e.
Proof.
  intros Hc Hx. unfold bpin.
  assert (xwf (k_x s)) as W by (rewrite Hx; apply xwf_acquired, Hc).
  assert (lock_free Lbcache (k_x s)) as F by (rewrite Hx; apply lock_free_acquired; [done|by apply Hc]).
  erewrite bind_Ok by (by apply acquire_ok). unfold upd_buf. rewrite bind_modify.
  rewrite (release_after Lbcache _ (k_x s)) by done.
  assert (settle (k_x s) = k_x s) as -> by (rewrite Hx; apply acquired_settled, Hc). by destruct s.
Qed.

Definition after_log_write (s : kstate) (b : nat) : kstate :=
  let bno := b_blockno (buf_at s b) in
  (if grows bno (k_log s) then recounted b (λ n, u32 (n + 1)) s else s) <| k_log := noted bno (k_log s) |>.

Lemma log_write_eq s b e :
  calm s p → l_n (k_log s) < LOGBLOCKS → 1 <= l_outstanding (k_log s) →
  log_write b s e = Ok tt (after_log_write s b) e.
Proof.
  intros Hc Hn Ho. unfold log_write, get_log. erewrite bind_Ok by (by eapply (calm_acquire s p Llog)).
  rewrite bind_gets. change (k_log (s <| k_x := acquired Llog (k_x s) |>)) with (k_log s). rewrite (proj2 (Z.leb_gt _ _)) by lia. rewrite (proj2 (Z.ltb_ge _ _)) by lia.
  erewrite bind_Ok by reflexivity. erewrite bind_Ok by reflexivity.
  change (buf_at (s <| k_x := acquired Llog (k_x s) |>) b) with (buf_at s b).
  unfold after_log_write, noted, grows. set (bno := b_blockno (buf_at s b)).
  set (i := absorb (l_block (k_log s)) bno (Z.to_nat (l_n (k_log s))) 0).
  destruct (Z.of_nat i =? l_n (k_log s)); cbn [when].
  - erewrite bind_Ok.
    2:{ erewrite bind_Ok by (by eapply (bpin_in s)). reflexivity. }
    erewrite (calm_release s) by done. reflexivity.
  - rewrite bind_ret. erewrite (calm_release s) by done. by destruct s.
Qed.

(** ** The transaction grows *)

Section growing.
Context (start : Z).

(** The blocks of the log in memory are the pinned ones. *)
Record wal (P : blocks) (n : nat) (bl : list Z) : Prop := {
  wl_n : (n <= 30)%nat;
  wl_len : length bl = Z.to_nat LOGBLOCKS;
  wl_nodup : NoDup (take n bl);
  wl_range : ∀ i, (i < n)%nat → 0 <= bl !!! i < 2147483648 ∧ ¬ in_log start (bl !!! i);
  wl_pins : ∀ bno, is_Some (P !! bno) ↔ ∃ i, (i < n)%nat ∧ bl !!! i = bno;
}.

Lemma wal_tx D P n bl :
  wal P n bl → (n < NBUF)%nat → hn start D = 0 → length (blk D start) = Z.to_nat BSIZE → tx start D P n bl.
Proof.
  intros [W1 W2 W3 W4 W5] Hn He Hl. split; try done. rewrite W2.
  change (Z.to_nat LOGBLOCKS) with 30%nat. lia.
Qed.

Lemma wal_add P n bl bno d :
  wal P n bl → (n < 30)%nat → P !! bno = None → 0 <= bno < 2147483648 → ¬ in_log start bno →
  wal (<[bno := d]> P) (S n) (<[n := bno]> bl).
Proof.
  intros [W1 W2 W3 W4 W5] Hn Hp Hr Ho. change (Z.to_nat LOGBLOCKS) with 30%nat in *.
  assert (∀ i, (i < n)%nat → <[n := bno]> bl !!! i = bl !!! i) as E1 by (intros; apply total_insert_ne; lia).
  assert (<[n := bno]> bl !!! n = bno) as E2 by (apply total_insert_eq; lia).
  split; [lia|by rewrite length_insert| | |].
  - rewrite (take_S_r _ _ bno) by (apply list_lookup_insert_eq; lia). rewrite take_insert_ge by lia.
    apply NoDup_app. split; [done|]. split; [|apply NoDup_singleton].
    intros x Hx ->%list_elem_of_singleton. apply list_elem_of_lookup in Hx as [i Hi].
    pose proof (lookup_lt_Some _ _ _ Hi) as Hlt. rewrite length_take in Hlt. rewrite lookup_take_lt in Hi by lia.
    assert (is_Some (P !! bno)) as F; [|rewrite Hp in F; by destruct F].
    apply W5. exists i. split; [lia|]. by apply list_lookup_total_correct.
  - intros i Hi. destruct (decide (i = n)) as [->|]; [by rewrite E2|]. rewrite E1 by lia. apply W4. lia.
  - intros b. destruct (decide (b = bno)) as [->|N].
    + rewrite lookup_insert_eq. split; [|done]. intros _. exists n. split; [lia|done].
    + rewrite lookup_insert_ne, W5 by done. split; intros (i & Hi & <-).
      * exists i. split; [lia|]. apply E1. lia.
      * destruct (decide (i = n)) as [->|]; [by rewrite E2 in N|]. exists i. split; [lia|]. rewrite E1; [done|lia].
Qed.

Lemma log_write_ok s D P H b bno d n bl :
  cache s D P H → H !! b = Some (bno, d) → log_at start s n bl → wal P n bl → (n < 30)%nat →
  1 <= l_outstanding (k_log s) → ¬ in_log start bno →
  ∃ s' n' bl', (∀ e, log_write b s e = Ok tt s' e) ∧ cache s' D (<[bno := d]> P) H ∧
    log_at start s' n' bl' ∧ wal (<[bno := d]> P) n' bl' ∧ (n' <= S n)%nat ∧
    l_outstanding (k_log s') = l_outstanding (k_log s) ∧ l_committing (k_log s') = l_committing (k_log s).
Proof.
  intros Hc Hh [L1 L2 L3 L4] Hw Hn Ho Hout. pose proof Hw as [W1 W2 W3 W4 W5].
  destruct (held_facts p s D P H b bno d Hc Hh) as (_ & B & Eb & _). pose proof (bo_bno _ _ _ _ _ B) as Hr.
  rewrite Eb in Hr. exists (after_log_write s b).
  assert (∀ e, log_write b s e = Ok tt (after_log_write s b) e) as Heq.
  { intros e. apply log_write_eq; [apply Hc|rewrite L3; unfold LOGBLOCKS, MAXOPBLOCKS; lia|done]. }
  unfold after_log_write, noted, grows in *. rewrite Eb, L3, L4, Nat2Z.id in *.
  destruct (absorb_spec bl bno n 0) as (A1 & A2 & A3). set (i := absorb bl bno n 0) in *.
  destruct (Z.of_nat i =? Z.of_nat n) eqn:E.
  - apply Z.eqb_eq, Nat2Z.inj in E. rewrite E in *.
    assert (P !! bno = None) as Hp.
    { apply eq_None_not_Some. rewrite W5. intros (j & Hj & Ej). apply (A2 j); [lia|]. rewrite u32_id by (by apply W4).  done. }
    exists (S n), (<[n := bno]> bl). assert (i32 bno = bno) as Ei by (unfold i32; zlia). split; [done|].
    split; [|split_and!; try done; [|by apply wal_add]].
    + apply cache_log. eapply (recounted_cache p s D P _ H b bno d); [done|done| |].
      * intros m Nm. by rewrite lookup_insert_ne.
      * rewrite Hp, lookup_insert_eq. done.
    + split; simpl; rewrite ?L1, ?L2, ?L3, ?L4, ?Ei; try done. lia.
  - apply Z.eqb_neq in E. assert (i < n)%nat as Hi by lia.
    assert (bl !!! i = bno) as Ebl by (rewrite <- A3 by lia; symmetry; apply u32_id; by apply W4).
    assert (is_Some (P !! bno)) as Hp by (apply W5; by exists i).
    assert (<[i := i32 bno]> bl = bl) as El.
    { assert (i32 bno = bno) as -> by (unfold i32; zlia). rewrite <- Ebl. apply insert_id_total. }
    exists n, bl. split; [done|]. split; [apply cache_log; by eapply cache_repin|].
    split_and!; try done; [| |lia].
    + split; simpl; rewrite ?L4; done.
    + split; try done. intros m. rewrite <- W5. destruct (decide (m = bno)) as [->|Nm].
      * rewrite lookup_insert_eq. split; [done|]. intros _. by eexists.
      * by rewrite lookup_insert_ne.
Qed.

End growing.
End ops.

(** ** Space in the log *)

(** The states of the log in memory that processes can bring about, each of
    which logs at most [MAXOPBLOCKS] blocks in one operation.  The list says how
    many [log_write]s each outstanding operation has left.  Every step is a call
    from a state in which some process runs; between the calls anything but the
    log may change. *)
Inductive logrun : log_t → list nat → Prop :=
| lr_boot l : l_n l = 0 → l_outstanding l = 0 → l_committing l = 0 → logrun l []
| lr_begin p s s' rs :
    logrun (k_log s) rs → calm s p → begin_op s [] = Ok tt s' [] →
    logrun (k_log s') (Z.to_nat MAXOPBLOCKS :: rs)
| lr_write p b s s' rs1 r rs2 :
    logrun (k_log s) (rs1 ++ S r :: rs2) → calm s p → log_write b s [] = Ok tt s' [] →
    logrun (k_log s') (rs1 ++ r :: rs2)
| lr_end p s s' rs1 r rs2 :
    logrun (k_log s) (rs1 ++ r :: rs2) → rs1 ++ rs2 ≠ [] → calm s p → end_op s [] = Ok tt s' [] →
    logrun (k_log s') (rs1 ++ rs2)
| lr_commit l r : logrun l [r] → logrun (l <| l_outstanding := 0 |> <| l_committing := 1 |>) []
| lr_done l : logrun l [] → logrun (l <| l_n := 0 |> <| l_committing := 0 |>) [].

Record reserved (l : log_t) (rs : list nat) : Prop := {
  rv_out : l_outstanding l = Z.of_nat (length rs);
  rv_n : 0 <= l_n l;
  rv_room : l_n l + Z.of_nat (sum_list rs) <= LOGBLOCKS;
  rv_each : Forall (λ r, (r <= Z.to_nat MAXOPBLOCKS)%nat) rs;
  rv_com : rs ≠ [] → l_committing l = 0;
}.

Lemma sum_bound rs : Forall (λ r, (r <= Z.to_nat MAXOPBLOCKS)%nat) rs → (sum_list rs <= 10 * length rs)%nat.
Proof.
  change (Z.to_nat MAXOPBLOCKS) with 10%nat. induction 1; simpl; lia.
Qed.

Lemma noted_fields bno l :
  0 <= l_n l → l_outstanding (noted bno l) = l_outstanding l ∧ l_committing (noted bno l) = l_committing l ∧
  l_n l <= l_n (noted bno l) <= l_n l + 1.
Proof. intros Hn. unfold noted. destruct (_ =? _); simpl; lia. Qed.

Lemma sum_middle rs1 r rs2 : sum_list (rs1 ++ r :: rs2) = (r + sum_list (rs1 ++ rs2))%nat.
Proof. rewrite !sum_list_with_app. simpl. rewrite ?sum_list_with_app. unfold sum_list. lia. Qed.

Lemma logrun_reserved l rs : logrun l rs → reserved l rs.
Proof.
  induction 1 as [l H1 H2 H3|p s s' rs _ [I1 I2 I3 I4 I5] Hc Hrun|p b s s' rs1 r rs2 _ [I1 I2 I3 I4 I5] Hc Hrun
    |p s s' rs1 r rs2 _ [I1 I2 I3 I4 I5] Hne Hc Hrun|l r _ [I1 I2 I3 I4 I5]|l _ [I1 I2 I3 I4 I5]].
  - by split; rewrite ?H1, ?H2.
  - destruct (admits (k_log s)) eqn:Ha.
    + rewrite (begin_op_ok p s []) in Hrun by done. injection Hrun as <-.
      unfold admits in Ha. apply andb_true_iff in Ha as [Ha1%Z.eqb_eq Ha2%Z.leb_le].
      pose proof (sum_bound rs I4). unfold LOGBLOCKS, MAXOPBLOCKS in *. split; simpl; try done; try lia.
      * unfold LOGBLOCKS, MAXOPBLOCKS. lia.
      * constructor; [done|done].
    + destruct (begin_op_waits p s Hc Ha) as (s2 & E & _). by rewrite E in Hrun.
  - rewrite sum_middle in I3. rewrite length_app in I1. simpl in I1.
    rewrite (log_write_eq p s b []) in Hrun by (done || lia). injection Hrun as <-.
    destruct (noted_fields (b_blockno (buf_at s b)) (k_log s) I2) as (N1 & N2 & N3).
    unfold after_log_write. split; simpl.
    + rewrite N1, length_app. simpl. lia.
    + lia.
    + rewrite sum_middle. lia.
    + apply Forall_app in I4 as [I4 I6]. apply Forall_cons in I6 as [I6 I7].
      apply Forall_app. split; [done|]. constructor; [lia|done].
    + intros _. rewrite N2. apply I5. by destruct rs1.
  - rewrite sum_middle in I3. rewrite length_app in I1. simpl in I1.
    assert (length (rs1 ++ rs2) ≠ 0%nat) as Hlen by (by destruct (rs1 ++ rs2)). rewrite length_app in Hlen.
    rewrite (end_op_more p s []) in Hrun; [|done|by apply I5; destruct rs1|lia]. injection Hrun as <-.
    split; simpl; try lia.
    + rewrite length_app. lia.
    + apply Forall_app in I4 as [I4 I6]. apply Forall_cons in I6 as [I6 I7]. by apply Forall_app.
    + intros _. apply I5. by destruct rs1.
  - split; simpl in *; (done || lia).
  - split; simpl in *; (done || unfold LOGBLOCKS, MAXOPBLOCKS; lia).
Qed.


