(* ===== verification/WalMachine.v ===== *)
(** Concrete machines for the log: process 0 runs, the disk holds [D], and the
    first buffers hold the blocks of [ps], pinned; the list of buffers is in the
    order in which [binit] leaves it. *)

From S2P Require Export LogOps Recovery.

Section machine.
Context (D : blocks) (ps : list (Z * list Z)).

Definition ring_next (b : nat) : nat := match b with O => bhead | S b' => b' end.
Definition ring_prev (b : nat) : nat := if decide (b = bhead) then 0%nat else if decide (S b = NBUF) then bhead else S b.

Definition pin_buf (b : nat) : buf :=
  match ps !! b with
  | Some (bno, d) => mk_buf 1 0 ROOTDEV bno (mk_sleeplock 0 "buffer" 0) 1 (ring_prev b) (ring_next b) d
  | None => mk_buf 0 0 0 0 (mk_sleeplock 0 "buffer" 0) 0 (ring_prev b) (ring_next b) []
  end.

(** The head's [next] is the last buffer. *)
Definition head_buf : buf :=
  mk_buf 0 0 0 0 (mk_sleeplock 0 "" 0) 0 0 (NBUF - 1) [].

Definition machine_bufs : list buf := (pin_buf <$> seq 0 NBUF) ++ [head_buf].

Definition machine : kstate :=
  quiet <| k_bufs := machine_bufs |>
        <| k_disk := disk0 <| vd_blocks := D |> <| vd_free := replicate NUM 1 |> |>.

Lemma machine_len : length (k_bufs machine) = S NBUF.
Proof.
  change (k_bufs machine) with machine_bufs. unfold machine_bufs.
  by rewrite length_app, length_fmap, length_seq, Nat.add_comm.
Qed.

Lemma machine_buf b : (b < NBUF)%nat → buf_at machine b = pin_buf b.
Proof.
  intros Hb. unfold buf_at. change (k_bufs machine) with machine_bufs. unfold machine_bufs.
  rewrite lookup_total_app_l by (by rewrite length_fmap, length_seq).
  apply list_lookup_total_correct. rewrite list_lookup_fmap.
  assert (seq 0 NBUF !! b = Some b) as ->; [|done]. apply lookup_seq. lia.
Qed.

Lemma machine_head : buf_at machine bhead = head_buf.
Proof.
  unfold buf_at. change (k_bufs machine) with machine_bufs. unfold machine_bufs.
  rewrite lookup_total_app_r by (by rewrite length_fmap, length_seq).
  by rewrite length_fmap, length_seq, Nat.sub_diag.
Qed.

(** The cyclic order. *)
Definition ring_nx (b : nat) : nat := if decide (b = bhead) then (NBUF - 1)%nat else ring_next b.
Definition ring_pv (b : nat) : nat := if decide (b = bhead) then 0%nat else ring_prev b.

Lemma ring_linked : linked ring_nx ring_pv (bhead :: rev (seq 0 NBUF) ++ [bhead]).
Proof. vm_compute. repeat split. Qed.

Lemma machine_lru : lru (k_bufs machine) (rev (seq 0 NBUF)).
Proof.
  assert (∀ b, (b <= NBUF)%nat → nx (k_bufs machine) b = ring_nx b ∧ pv (k_bufs machine) b = ring_pv b) as E.
  { intros b Hb. unfold nx, pv, ring_nx, ring_pv. destruct (decide (b = bhead)) as [->|N].
    - pose proof machine_head as Eb. unfold buf_at in Eb. by rewrite Eb.
    - assert (b < NBUF)%nat as Hl by (unfold bhead in N; lia). pose proof (machine_buf b Hl) as Eb.
      unfold buf_at in Eb. rewrite Eb. unfold pin_buf. destruct (ps !! b) as [[bno d]|]; done. }
  assert (∀ x, x ∈ bhead :: rev (seq 0 NBUF) ++ [bhead] → (x <= NBUF)%nat) as Hin.
  { intros x Hx. rewrite elem_of_cons, elem_of_app, list_elem_of_singleton, list_elem_of_In, <- in_rev, <- list_elem_of_In,
      elem_of_seq in Hx. unfold bhead in Hx. lia. }
  split; [apply machine_len|by rewrite <- Permutation_rev|].
  eapply linked_ext; [| |apply ring_linked]; intros c1 x c2 Ex _.
  - apply E, Hin. rewrite Ex. set_solver.
  - apply E, Hin. rewrite Ex. set_solver.
Qed.

Lemma pin_buf_cases b :
  (∃ bno d, ps !! b = Some (bno, d) ∧ b_dev (pin_buf b) = ROOTDEV ∧ b_blockno (pin_buf b) = bno) ∨
  (ps !! b = None ∧ b_dev (pin_buf b) = 0).
Proof. unfold pin_buf. destruct (ps !! b) as [[bno d]|]; [left; by exists bno, d|by right]. Qed.

Lemma machine_cache :
  NoDup ps.*1 → (length ps <= NBUF)%nat → Forall (λ x, 0 <= x.1 < 2147483648) ps →
  cache 0 machine D (list_to_map ps) ∅.
Proof.
  intros Nd Hlen Hr. rewrite Forall_lookup in Hr. split.
  - apply (calm_ext quiet); [apply quiet_calm|done|done].
  - by split.
  - done.
  - exists (rev (seq 0 NBUF)). apply machine_lru.
  - intros a b La Lb. rewrite !machine_buf by done.
    destruct (pin_buf_cases a) as [(n1 & d1 & E1 & F1 & ->)|[_ ->]]; [|done].
    destruct (pin_buf_cases b) as [(n2 & d2 & E2 & F2 & ->)|[_ ->]]; [|done].
    intros _ _ ->. eapply (NoDup_lookup ps.*1); [done| |]; rewrite list_lookup_fmap; [by rewrite E1|by rewrite E2].
  - intros bno [d Hd]. apply elem_of_list_to_map_2, list_elem_of_lookup in Hd as [b Hb].
    pose proof (lookup_lt_Some _ _ _ Hb) as Hl. exists b. split; [lia|]. rewrite machine_buf by lia.
    unfold pin_buf. by rewrite Hb.
  - intros b Hb. rewrite lookup_empty, machine_buf by done. unfold pin_buf.
    destruct (ps !! b) as [[bno d]|] eqn:E.
    + assert ((list_to_map ps : blocks) !! bno = Some d) as Hm.
      { apply elem_of_list_to_map_1; [done|]. by eapply list_elem_of_lookup_2. }
      pose proof (Hr b (bno, d) E) as Hbno. split; simpl; try done.
      * unfold pins. simpl. rewrite bool_decide_true by (by rewrite Hm). done.
      * split; [done|]. intros _ _. unfold cview. by rewrite Hm.
    + by split.
  - intros b [x Hx]. by rewrite lookup_empty in Hx.
Qed.

End machine.
