(* ===== verification/CacheSpec.v ===== *)
(** The promises of the buffer cache and of the disk driver. *)

From S2P Require Export WalMachine.

Section properties.
Context `{V : VirtioDevice}.


(** C10: The cache is coherent.  [bread] returns, locked, the one buffer of the
    block, with the contents that were last written through the cache, whether
    the block was cached, pinned or on the disk only; a buffer in use is never
    recycled, and a power failure leaves the disk unchanged. *)
Theorem bread_coherent (p : nat) (s : kstate) (D P : blocks) (H : gmap nat (Z * list Z)) (bno : Z) :
  cache p s D P H → (∀ b d, H !! b ≠ Some (bno, d)) →
  is_Some (P !! bno) ∨ (size P + size H < NBUF)%nat → 0 <= bno < 2147483648 →
  cwp p 1 (bread ROOTDEV bno) s
    (λ b s', (b < NBUF)%nat ∧ H !! b = None ∧ cache p s' D P (<[b := (bno, cview D P bno)]> H) ∧
             b_data (buf_at s' b) = cview D P bno)
    (λ D', D' = D).
Proof.
  intros Hc HH Hsz Hr. eapply bread_ok; [done|done|done|done|done|]. intros b s' Hb Hn Hc' _.
  split_and!; try done. by destruct (held_facts p s' D P _ b bno _ Hc' (lookup_insert_eq _ _ _)) as (_ & _ & _ & _ & E & _).
Qed.

(** C19: The list of buffers is in order of use.  The order is the list [l] that the
    links spell out: [brelse] of a buffer that nobody uses any more moves it to
    the front, of one that is still in use leaves the order; and [bget] of a
    block that is not cached takes the last unused buffer of the order. *)
Theorem buffers_lru (p : nat) (s : kstate) (D P : blocks) (H : gmap nat (Z * list Z)) (b : nat) (bno : Z)
    (l : list nat) :
  cache p s D P H → lru (k_bufs s) l →
  (H !! b = Some (bno, cview D P bno) →
   ∃ s', (∀ e, brelse b s e = Ok tt s' e) ∧ cache p s' D P (delete b H) ∧
     lru (k_bufs s') (if bool_decide (is_Some (P !! bno)) then l else move_front b l)) ∧
  (∀ n e b', find (λ b, (b_dev (buf_at s b) =? ROOTDEV) && (b_blockno (buf_at s b) =? n)) l = None →
   find (λ b, b_refcnt (buf_at s b) =? 0) (rev l) = Some b' →
   ∃ s', bget ROOTDEV n s e = Ok b' s' e ∧ lru (k_bufs s') l).
Proof.
  intros Hc Hl. split.
  - intros Hh. destruct (brelse_ok p s D P H b bno Hc Hh) as (s' & E & Hc' & _). exists s'. split; [done|]. split; [done|].
    pose proof (brelse_eq p s D P H b bno _ [] Hc Hh) as E2. rewrite E in E2. injection E2 as ->.
    destruct (held_facts p s D P H b bno _ Hc Hh) as (Hb & B & _). pose proof (lru_len _ _ Hl) as Hlen.
    set (bs := <[b := dropped (buf_at s b)]> (k_bufs s)).
    assert (k_bufs (after_brelse p s b) =
      if b_refcnt (dropped (buf_at s b)) =? 0 then push b (unlink b bs) else bs) as -> by reflexivity.
    assert (b_refcnt (dropped (buf_at s b)) = if bool_decide (is_Some (P !! bno)) then 1 else 0) as Er.
    { change (u32 (b_refcnt (buf_at s b) - 1) = if bool_decide (is_Some (P !! bno)) then 1 else 0).
      rewrite (ref_held _ _ _ _ _ _ _ B eq_refl). unfold u32. by case_bool_decide. }
    assert (lru bs l) as Hl' by (by apply lru_upd).
    rewrite Er. case_bool_decide; [done|]. by apply lru_move.
  - intros n e b' Hf1 Hf2. pose proof (find_Some _ _ _ Hf2) as [Hb Ht]. apply Z.eqb_eq in Ht.
    rewrite list_elem_of_In, <- in_rev, <- list_elem_of_In in Hb. apply (lru_elem _ _ Hl) in Hb.
    pose proof (ch_buf _ _ _ _ _ Hc b' Hb) as [_ _ B3 _ B5]. rewrite Ht in B3. unfold pins in B3.
    destruct (H !! b') as [[m d]|]; [simpl in B3; destruct (bool_decide _); lia|].
    eexists. split; [apply (bget_miss p s l); [apply Hc|done|done|apply B5|done|done]|]. by apply lru_upd.
Qed.

End properties.

(** ** Concrete runs *)

(** Block 100 is pinned, block 101 is on the disk only. *)
Definition cache_machine : kstate := machine {[101 := [4; 5]]} [(100, [1; 2; 3])].

Lemma cache_machine_ok : cache 0 cache_machine {[101 := [4; 5]]} {[100 := [1; 2; 3]]} ∅.
Proof.
  apply (machine_cache {[101 := [4; 5]]} [(100, [1; 2; 3])]); [apply NoDup_singleton|by apply Nat.leb_le|].
  repeat constructor; simpl; lia.
Qed.


Lemma bread_coherent_witness :
  cwp 0 1 (bread ROOTDEV 101) cache_machine
    (λ b s', (b < NBUF)%nat ∧ (∅ : gmap nat (Z * list Z)) !! b = None ∧
       cache 0 s' {[101 := [4; 5]]} {[100 := [1; 2; 3]]}
         (<[b := (101, cview {[101 := [4; 5]]} {[100 := [1; 2; 3]]} 101)]> ∅) ∧
       b_data (buf_at s' b) = cview {[101 := [4; 5]]} {[100 := [1; 2; 3]]} 101)
    (λ D', D' = {[101 := [4; 5]]}).
Proof.
  apply (bread_coherent 0 cache_machine {[101 := [4; 5]]} {[100 := [1; 2; 3]]} ∅ 101).
  - apply cache_machine_ok.
  - intros b d. by rewrite lookup_empty.
  - right. rewrite map_size_singleton, map_size_empty. by apply Nat.ltb_lt.
  - lia.
Defined.

Lemma buffers_lru_witness :
  ∃ s', bget ROOTDEV 101 cache_machine [] = Ok 1%nat s' [] ∧ lru (k_bufs s') (rev (seq 0 NBUF)).
Proof.
  destruct (buffers_lru 0 cache_machine {[101 := [4; 5]]} {[100 := [1; 2; 3]]} ∅ 0 0 (rev (seq 0 NBUF))) as [_ H].
  - apply cache_machine_ok.
  - apply machine_lru.
  - apply H; vm_compute; reflexivity.
Defined.
