(* ===== verification/CrashSafety.v ===== *)
(** Crash safety of the file system's transactions, end to end: a transaction
    of [begin_op], [bread], [log_write], [brelse] and [end_op], the power failing
    at any disk request, and recovery at the next boot. *)

From S2P Require Export WalMachine.

(** ** A transaction *)

(** The pattern of every system call that writes: blocks are read, changed,
    logged and released between [begin_op] and [end_op]. *)
Fixpoint updates (us : list (Z * (list Z → list Z))) : K unit :=
  match us with
  | [] => mret ()
  | (bno, f) :: us' =>
      b ← bread ROOTDEV bno;
      x ← get_buf b;
      set_data b (f (b_data x));;
      log_write b;;
      brelse b;;
      updates us'
  end.

Definition transaction (us : list (Z * (list Z → list Z))) : K unit :=
  begin_op;; updates us;; end_op.

(** The contents of the blocks after the updates. *)
Fixpoint updated (us : list (Z * (list Z → list Z))) (v : Z → list Z) : Z → list Z :=
  match us with
  | [] => v
  | (bno, f) :: us' => updated us' (λ n, if n =? bno then f (v n) else v n)
  end.

Section crash_safety.
Context `{V : VirtioDevice}.
Context (p : nat) (start : Z).

Notation cache := (cache p).
Notation cwp := (cwp p).
Notation same_fs := (same_fs start).
Notation in_log := (in_log start).
Notation recovered := (recovered start).

(** Between transactions: nothing pinned, held or logged. *)
Record idle_log (s : kstate) (D : blocks) : Prop := {
  il_start : 0 <= start ∧ start + LOGBLOCKS < 2147483648;
  il_cache : cache s D ∅ ∅;
  il_log : ∃ bl, log_at start s 0 bl ∧ length bl = Z.to_nat LOGBLOCKS;
  il_out : l_outstanding (k_log s) = 0;
  il_com : l_committing (k_log s) = 0;
  il_hn : hn start D = 0;
  il_len : length (blk D start) = Z.to_nat BSIZE;
}.

(** A block that a system call may log. *)
Definition fs_block (bno : Z) : Prop := 0 <= bno < 2147483648 ∧ ¬ in_log bno.

Lemma wal_size D P n bl :
  wal start P n bl → (n < NBUF)%nat → hn start D = 0 → length (blk D start) = Z.to_nat BSIZE → size P = n.
Proof. intros Hw Hn He Hl. by eapply (size_pins start D P n bl), wal_tx. Qed.

Lemma updated_ext us v v' : (∀ bno, ¬ in_log bno → v bno = v' bno) → same_fs (updated us v) (updated us v').
Proof.
  revert v v'. induction us as [|[bno f] us IH]; intros v v' E; [done|]. cbn [updated]. apply IH.
  intros n Hn. by rewrite (E n Hn).
Qed.

Lemma updates_ok us s D P n bl v (Q : unit → kstate → Prop) (C : blocks → Prop) :
  hn start D = 0 → length (blk D start) = Z.to_nat BSIZE → C D →
  cache s D P ∅ → log_at start s n bl → wal start P n bl → (n + length us <= 30)%nat →
  l_outstanding (k_log s) = 1 → l_committing (k_log s) = 0 → Forall (λ u, fs_block u.1) us →
  same_fs (cview D P) v →
  (∀ s' P' n' bl', cache s' D P' ∅ → log_at start s' n' bl' → wal start P' n' bl' →
     (n' <= n + length us)%nat → l_outstanding (k_log s') = 1 → l_committing (k_log s') = 0 →
     same_fs (cview D P') (updated us v) → Q tt s') →
  cwp (length us) (updates us) s Q C.
Proof.
  intros He Hl HC. revert s P n bl v. induction us as [|[bno f] us IH]; intros s P n bl v Hc Hla Hw Hn Ho Hcm Hus Hv HQ.
  { cbn [updates length]. apply cwp_ret. eapply HQ; try done. simpl in *. lia. }
  cbn [updates length] in *. apply Forall_cons in Hus as [[Hr Hout] Hus].
  change NBUF with 30%nat in *.
  assert (size P = n) as Hsz by (apply (wal_size D P n bl); (done || (change NBUF with 30%nat; lia))).
  apply (cwp_bind p 1 (length us)). eapply bread_ok; [done|done| |done|done|].
  { right. rewrite map_size_empty, Hsz. change NBUF with 30%nat. lia. }
  intros b s1 Hb _ Hc1 F1. rewrite insert_empty in Hc1.
  destruct (held_facts p s1 D P _ b bno (cview D P bno) Hc1 (lookup_singleton_eq _ _)) as (_ & _ & _ & _ & Ed & _).
  eapply cwp_bind_ok; [intros e; reflexivity|]. rewrite Ed.
  destruct (poke_cache p s1 D P _ b bno _ (f (cview D P bno)) Hc1 (lookup_singleton_eq _ _)) as [Hc2 F2].
  rewrite insert_singleton_eq in Hc2. set (s2 := poke b (f (cview D P bno)) s1) in *.
  eapply cwp_bind_ok; [intros e; exact eq_refl|]. fold (poke b (f (cview D P bno)) s1). fold s2.
  assert (framed p s s2) as F by (by eapply framed_trans). pose proof (framed_log _ _ _ F) as El.
  destruct (log_write_ok p start s2 D P _ b bno (f (cview D P bno)) n bl Hc2 (lookup_singleton_eq _ _))
    as (s3 & n3 & bl3 & E3 & Hc3 & Hl3 & Hw3 & Hn3 & Ho3 & Hcm3); [by eapply log_at_framed|done|lia|rewrite El; lia|done|].
  eapply cwp_bind_ok; [exact E3|].
  destruct (brelse_ok p s3 D _ _ b bno Hc3) as (s4 & E4 & Hc4 & F4).
  { rewrite lookup_singleton_eq. unfold cview. by rewrite lookup_insert_eq. }
  rewrite delete_singleton_eq in Hc4. eapply cwp_bind_ok; [exact E4|]. pose proof (framed_log _ _ _ F4) as El4.
  eapply (IH s4 _ n3 bl3 (λ m, if m =? bno then f (v m) else v m)); try done.
  - by eapply log_at_framed.
  - lia.
  - by rewrite El4, Ho3, El.
  - by rewrite El4, Hcm3, El.
  - intros m Nm. unfold cview at 1. destruct (decide (m = bno)) as [->|N].
    + rewrite lookup_insert_eq. rewrite Hv by done. by rewrite Z.eqb_refl.
    + rewrite lookup_insert_ne by done. rewrite (proj2 (Z.eqb_neq _ _)) by done. by apply Hv.
  - intros s' P' n' bl' X1 X2 X3 X4. apply (HQ s' P' n' bl'); [done|done|done|lia].
Qed.

(** Recovery from [D'] gives the contents [old] or the contents [new]. *)
Definition old_or_new (old new : Z → list Z) (D' : blocks) : Prop :=
  log_ok start D' ∧ (same_fs (blk (recovered D')) old ∨ same_fs (blk (recovered D')) new).

Lemma transaction_ok (us : list (Z * (list Z → list Z))) (s : kstate) (D : blocks) :
  idle_log s D → (length us <= Z.to_nat MAXOPBLOCKS)%nat → Forall (λ u, fs_block u.1) us →
  cwp (length us * 7 + 4) (transaction us) s
    (λ _ s', ∃ D', idle_log s' D' ∧ same_fs (blk D') (updated us (blk D)))
    (old_or_new (blk D) (updated us (blk D))).
Proof.
  intros [Hs Hc (bl & Hl & Hbl) Ho Hcm He Hlen] Hus Hfs. change (Z.to_nat MAXOPBLOCKS) with 10%nat in Hus.
  unfold transaction. eapply cwp_bind_ok.
  { intros e. apply (begin_op_ok p); [apply Hc|]. unfold admits.
    rewrite Hcm, Ho, (la_n _ _ _ _ Hl). done. }
  replace (length us * 7 + 4)%nat with (length us + (length us * 6 + 4))%nat by lia. apply cwp_bind.
  eapply (updates_ok us _ D ∅ 0 bl (blk D)); [done|done| |by apply cache_log| | |lia|simpl; lia|done|done|done|].
  { split; [by apply log_ok_empty|]. left. by rewrite recovered_empty. }
  { destruct Hl as [L1 L2 L3 L4]. by split. }
  { split; [lia|done|constructor|lia|]. intros bno. rewrite lookup_empty. split; [by intros []|]. intros (i & Hi & _). lia. }
  intros s1 P n bl1 Hc1 Hl1 Hw1 Hn1 Ho1 Hcm1 Hv1.
  assert (tx start D P n bl1) as Htx by (eapply wal_tx; [done| |done|done]; change NBUF with 30%nat; lia).
  eapply cwp_mono; [by apply (end_op_ok p start Hs D P n bl1 Htx s1)|lia| |].
  - intros _ s2 (D' & Hc2 & Hh2 & Hlen2 & Hs2 & El2 & _). exists D'. split.
    + destruct Hl1 as [L1 L2 L3 L4]. split; try done; rewrite ?El2; try done.
      exists bl1. split; [split; rewrite El2; done|apply Hw1].
    + by eapply same_fs_trans.
  - intros D' [Hok [Ha|Ha]]; (split; [done|]); [by left|right]. by eapply same_fs_trans.
Qed.

(** ** Recovery *)

(** Just booted, with [D] on the disk. *)
Record fresh (s : kstate) (D : blocks) : Prop := {
  fh_cache : cache s D ∅ ∅;
  fh_print : can_print s;
  fh_len : length (l_block (k_log s)) = Z.to_nat LOGBLOCKS;
  fh_out : l_outstanding (k_log s) = 0;
  fh_com : l_committing (k_log s) = 0;
}.

Context (sb : superblock).

(** From disk [D] to disk [D'] by boots whose recovery was cut short by another
    power failure. *)
Inductive reboots : blocks → blocks → Prop :=
| reboots_now D : reboots D D
| reboots_again D s k s' D' :
    fresh s D → initlog ROOTDEV sb s (replicate k (disk_move p)) = Stuck s' →
    reboots (vd_blocks (k_disk s')) D' → reboots D D'.

Hypothesis Hstart : 0 <= start ∧ start + LOGBLOCKS < 2147483648.
Hypothesis Hsb : sb_logstart sb = start.

Lemma fresh_initlog s D :
  fresh s D → log_ok start D →
  cwp 93 (initlog ROOTDEV sb) s (λ _ s', ∃ D', idle_log s' D' ∧ same_fs (blk D') (blk (recovered D)))
    (preserved start D).
Proof.
  intros [F1 F2 F3 F4 F5] Hok. pose proof (n_le_30 start D Hok) as Hn.
  eapply cwp_mono; [by apply (initlog_ok p start Hstart D Hok s sb)|lia| |done].
  intros _ s' (D' & X1 & X2 & X3 & X4 & bl & X5 & X6). exists D'. split; [|done].
  split; try done; rewrite ?X5; try done. exists bl. split; [|done]. by split; rewrite X5.
Qed.

Lemma reboots_preserve D D' : reboots D D' → log_ok start D → preserved start D D'.
Proof.
  induction 1 as [D|D s k s' D' Hf Hrun Hreb IH]; intros Hok; [by split|].
  pose proof (fresh_initlog s D Hf Hok k) as H. rewrite Hrun in H. destruct H as [_ [Hok' Hs]].
  destruct (IH Hok') as [Hok2 Hs2]. split; [done|]. by eapply same_fs_trans.
Qed.

End crash_safety.

Section properties.
Context `{V : VirtioDevice}.

(** C1: Transactions are atomic.  A transaction of up to [MAXOPBLOCKS] block
    updates run by process [p] does not panic and needs at most a stated number
    of disk requests; when it returns, the disk holds all its updates and the log
    is empty again; and if the power fails at any point, what recovery makes of
    the disk is the old contents or the new contents of all blocks outside the
    log, never a mixture. *)
Theorem transaction_atomic (p : nat) (start : Z) (us : list (Z * (list Z → list Z))) (s : kstate) (D : blocks) :
  idle_log p start s D → (length us <= Z.to_nat MAXOPBLOCKS)%nat → Forall (λ u, fs_block start u.1) us →
  cwp p (length us * 7 + 4) (transaction us) s
    (λ _ s', ∃ D', idle_log p start s' D' ∧ same_fs start (blk D') (updated us (blk D)))
    (old_or_new start (blk D) (updated us (blk D))).
Proof. apply transaction_ok. Qed.

(** C3: Recovery restores what was committed, and may itself be interrupted.  On
    a disk whose header a commit can have written, [initlog] copies the logged
    blocks to their places and empties the log; if the power fails during it, the
    next recovery gives the same contents. *)
Theorem recovery_restores (p : nat) (start : Z) (sb : superblock) (s : kstate) (D : blocks) :
  0 <= start ∧ start + LOGBLOCKS < 2147483648 → sb_logstart sb = start →
  fresh p s D → log_ok start D →
  cwp p 93 (initlog ROOTDEV sb) s
    (λ _ s', ∃ D', idle_log p start s' D' ∧ same_fs start (blk D') (blk (recovered start D)))
    (λ D', log_ok start D' ∧ same_fs start (blk (recovered start D')) (blk (recovered start D))).
Proof. intros Hs Hsb. by apply (fresh_initlog p start sb Hs Hsb). Qed.

(** C2: From crash to recovered file system.  If the power fails during a
    transaction, then, after any number of boots whose recovery is itself cut
    short, a boot that is given enough disk requests completes recovery; all
    blocks outside the log then have their contents from before the transaction,
    or all of them have their contents from after it. *)
Theorem crash_then_recover (p : nat) (start : Z) (sb : superblock) (us : list (Z * (list Z → list Z)))
    (s : kstate) (D : blocks) (k : nat) (s1 : kstate) (s2 : kstate) (D2 : blocks) (k2 : nat) :
  idle_log p start s D → (length us <= Z.to_nat MAXOPBLOCKS)%nat → Forall (λ u, fs_block start u.1) us →
  sb_logstart sb = start →
  transaction us s (replicate k (disk_move p)) = Stuck s1 →
  reboots p sb (vd_blocks (k_disk s1)) D2 → fresh p s2 D2 → (93 <= k2)%nat →
  ∃ s3 e3 D3, initlog ROOTDEV sb s2 (replicate k2 (disk_move p)) = Ok tt s3 e3 ∧ idle_log p start s3 D3 ∧
    (same_fs start (blk D3) (blk D) ∨ same_fs start (blk D3) (updated us (blk D))).
Proof.
  intros Hi Hus Hfs Hsb Hrun Hreb Hfresh Hk. pose proof (il_start _ _ _ _ Hi) as Hstart.
  pose proof (transaction_ok p start us s D Hi Hus Hfs k) as H. rewrite Hrun in H. destruct H as [_ [Hok Hon]].
  destruct (reboots_preserve p start sb Hstart Hsb _ _ Hreb Hok) as [Hok2 Hs2].
  pose proof (fresh_initlog p start sb Hstart Hsb s2 D2 Hfresh Hok2 k2) as H.
  destruct (initlog ROOTDEV sb s2 _) as [[] s3 e3| |s3]; [|done|lia].
  destruct H as (_ & _ & _ & D3 & Hi3 & Hs3). exists s3, e3, D3. split; [done|]. split; [done|].
  destruct Hon as [Hon|Hon]; [left|right]; by do 2 (eapply same_fs_trans; [eassumption|]).
Qed.

End properties.

(** ** A full log *)

Section full.
Context `{V : VirtioDevice}.
Context (p : nat) (start : Z).

(** With as many pinned blocks as there are buffers, every buffer is pinned. *)
Lemma full_refcnt s D P bl b :
  cache p s D P ∅ → wal start P NBUF bl → (b < NBUF)%nat →
  ∃ i, (i < NBUF)%nat ∧ b_dev (buf_at s b) = ROOTDEV ∧ b_blockno (buf_at s b) = bl !!! i.
Proof.
  intros Hc Hw Hb. pose proof Hw as [W1 W2 W3 W4 W5].
  assert (∀ i, (i < NBUF)%nat → ∃ b, (b < NBUF)%nat ∧ b_dev (buf_at s b) = ROOTDEV ∧
    b_blockno (buf_at s b) = bl !!! i) as Hex by (intros i Hi; apply (ch_pin _ _ _ _ _ Hc), W5; by exists i).
  set (ok := λ i b, (b < NBUF)%nat ∧ b_dev (buf_at s b) = ROOTDEV ∧ b_blockno (buf_at s b) = bl !!! i).
  assert (∃ g : nat → nat, ∀ i, (i < NBUF)%nat → ok i (g i)) as [g Hg].
  { exists (λ i, default 0%nat (find (λ b, bool_decide (ok i b)) (seq 0 NBUF))). intros i Hi.
    destruct (find _ _) as [b'|] eqn:E.
    - apply find_Some in E as [_ E]. by apply bool_decide_eq_true in E.
    - destruct (Hex i Hi) as (b' & Hb' & H). apply (find_None _ _ b') in E; [|apply elem_of_seq; lia].
      apply bool_decide_eq_false in E. by destruct E. }
  assert (NoDup (g <$> seq 0 NBUF)) as Nd.
  { apply NoDup_fmap_2_strong; [|apply NoDup_seq]. intros i j Hi Hj E. apply elem_of_seq in Hi, Hj.
    destruct (Hg i) as (_ & _ & Ei); [lia|]. destruct (Hg j) as (_ & _ & Ej); [lia|].
    assert (bl !!! i = bl !!! j) as Eb by (rewrite <- Ei, <- Ej, E; done).
    assert (length bl = NBUF) as Hl by done.
    apply (NoDup_lookup (take NBUF bl) i j (bl !!! i)); [done| |rewrite Eb];
      rewrite lookup_take_lt by lia; apply list_lookup_lookup_total_lt; lia. }
  assert (g <$> seq 0 NBUF ≡ₚ seq 0 NBUF) as Hperm.
  { apply submseteq_length_Permutation; [|by rewrite length_fmap].
    apply NoDup_submseteq; [done|]. intros x Hx. apply list_elem_of_fmap in Hx as (i & -> & Hi).
    apply elem_of_seq in Hi. destruct (Hg i) as (Hlt & _); [lia|]. apply elem_of_seq. lia. }
  assert (b ∈ g <$> seq 0 NBUF) as Hin by (rewrite Hperm; apply elem_of_seq; lia).
  apply list_elem_of_fmap in Hin as (i & -> & Hi). apply elem_of_seq in Hi. exists i.
  destruct (Hg i) as (_ & H1 & H2); [lia|]. split; [lia|done].
Qed.

Lemma commit_full_ok s D P bl e :
  0 <= start ∧ start + LOGBLOCKS < 2147483648 → cache p s D P ∅ → log_at start s NBUF bl → wal start P NBUF bl →
  ∃ s', commit s e = Panic "bget: no buffers" s'.
Proof.
  intros Hst Hc [L1 L2 L3 L4] Hw. eexists. unfold commit, get_log. rewrite bind_gets, L3.
  change (0 <? Z.of_nat NBUF) with true. cbn [when]. apply bind_Panic. unfold write_log, get_log. rewrite bind_gets, L3, Nat2Z.id.
  change (for_each NBUF 0 write_log_one) with (write_log_one 0;; for_each (NBUF - 1) 1 write_log_one).
  apply bind_Panic. unfold write_log_one, get_log. rewrite bind_gets, L1, L2. apply bind_Panic.
  rewrite u32_id by (unfold LOGBLOCKS, MAXOPBLOCKS in Hst; lia). apply bind_Panic.
  destruct (ch_lru _ _ _ _ _ Hc) as [l Hl]. pose proof (lru_elem _ _ Hl) as Hlt.
  eapply (bget_full p s l); [apply Hc|done| |].
  - destruct (find _ l) as [b|] eqn:E; [|done]. apply find_Some in E as [Hb E].
    apply andb_true_iff in E as [_ E%Z.eqb_eq]. apply Hlt in Hb.
    destruct (full_refcnt s D P bl b Hc Hw Hb) as (i & Hi & _ & Eb). destruct (wl_range _ _ _ _ Hw i Hi) as [_ Hout].
    destruct Hout. rewrite <- Eb, E. unfold in_log, LOGBLOCKS, MAXOPBLOCKS. lia.
  - destruct (find _ (rev l)) as [b|] eqn:E; [|done]. apply find_Some in E as [Hb E]. apply Z.eqb_eq in E.
    rewrite list_elem_of_In, <- in_rev, <- list_elem_of_In in Hb. apply Hlt in Hb.
    destruct (full_refcnt s D P bl b Hc Hw Hb) as (i & Hi & Hd & Eb).
    pose proof (bo_ref _ _ _ _ _ (ch_buf _ _ _ _ _ Hc b Hb)) as Hr. unfold pins in Hr.
    rewrite bool_decide_true in Hr; [rewrite lookup_empty in Hr; simpl in Hr; lia|].
    split; [done|]. apply (wl_pins _ _ _ _ Hw). by exists i.
Qed.

End full.

(** ** A concrete disk *)

(** An empty disk whose log starts at block 2, and two updates. *)
Definition wal_log : log_t := mk_log 2 0 0 ROOTDEV 0 (replicate (Z.to_nat LOGBLOCKS) 0).
Definition wal_sb : superblock := mk_superblock 0 2000 1000 200 31 2 33 46.
Definition wal_updates : list (Z * (list Z → list Z)) := [(100, λ d, 7 :: tl d); (101, λ d, 8 :: tl d)].
Definition wal_machine (D : blocks) : kstate := (machine D []) <| k_log := wal_log |>.

Lemma wal_machine_cache D : cache 0 (wal_machine D) D ∅ ∅.
Proof. apply cache_log. apply (machine_cache D []); [constructor|change NBUF with 30%nat; simpl; lia|constructor]. Qed.

Lemma wal_machine_idle D :
  hn 2 D = 0 → length (blk D 2) = Z.to_nat BSIZE → idle_log 0 2 (wal_machine D) D.
Proof.
  intros H1 H2. split; try done; [apply wal_machine_cache|].
  exists (replicate (Z.to_nat LOGBLOCKS) 0). by repeat split.
Qed.

Lemma wal_machine_fresh D : fresh 0 (wal_machine D) D.
Proof.
  split; try done; [apply wal_machine_cache|]. split; try done; apply quiet_calm.
Qed.

Lemma wal_updates_ok : Forall (λ u, fs_block 2 u.1) wal_updates.
Proof. repeat constructor; simpl; (lia || (unfold in_log, LOGBLOCKS, MAXOPBLOCKS; lia)). Qed.

Lemma transaction_atomic_witness :
  idle_log 0 2 (wal_machine ∅) ∅ ∧
  cwp 0 (length wal_updates * 7 + 4) (transaction wal_updates) (wal_machine ∅)
    (λ _ s', ∃ D', idle_log 0 2 s' D' ∧ same_fs 2 (blk D') (updated wal_updates (blk ∅)))
    (old_or_new 2 (blk ∅) (updated wal_updates (blk ∅))).
Proof.
  assert (idle_log 0 2 (wal_machine ∅) ∅) as Hi by (by apply wal_machine_idle).
  split; [done|]. apply (transaction_atomic 0 2 wal_updates (wal_machine ∅) ∅ Hi); [by apply Nat.leb_le|apply wal_updates_ok].
Defined.

Lemma recovery_restores_witness :
  fresh 0 (wal_machine ∅) ∅ ∧
  cwp 0 93 (initlog ROOTDEV wal_sb) (wal_machine ∅)
    (λ _ s', ∃ D', idle_log 0 2 s' D' ∧ same_fs 2 (blk D') (blk (recovered 2 ∅)))
    (λ D', log_ok 2 D' ∧ same_fs 2 (blk (recovered 2 D')) (blk (recovered 2 ∅))).
Proof.
  split; [apply wal_machine_fresh|].
  apply (recovery_restores 0 2 wal_sb (wal_machine ∅) ∅); [done|done|apply wal_machine_fresh|by apply log_ok_empty].
Defined.

Definition is_stuck {S A} (o : outcome S A) : bool := match o with Stuck _ => true | _ => false end.

Lemma is_stuck_inv {S A} (o : outcome S A) : is_stuck o = true → ∃ s, o = Stuck s.
Proof. destruct o as [| |s]; [done|done|]. intros _. by exists s. Qed.

(** The power fails while the transaction is being committed. *)
Lemma transaction_stops :
  is_stuck (transaction wal_updates (wal_machine ∅) (replicate 8 (disk_move 0))) = true.
Proof. vm_compute. reflexivity. Qed.

Lemma crash_then_recover_witness :
  ∃ s1 s3 e3 D3,
    transaction wal_updates (wal_machine ∅) (replicate 8 (disk_move 0)) = Stuck s1 ∧
    initlog ROOTDEV wal_sb (wal_machine (vd_blocks (k_disk s1))) (replicate 93 (disk_move 0)) = Ok tt s3 e3 ∧
    idle_log 0 2 s3 D3 ∧ (same_fs 2 (blk D3) (blk ∅) ∨ same_fs 2 (blk D3) (updated wal_updates (blk ∅))).
Proof.
  destruct (is_stuck_inv _ transaction_stops) as [s1 E].
  destruct (crash_then_recover 0 2 wal_sb wal_updates (wal_machine ∅) ∅ 8 s1
    (wal_machine (vd_blocks (k_disk s1))) (vd_blocks (k_disk s1)) 93) as (s3 & e3 & D3 & X1 & X2 & X3).
  - by apply wal_machine_idle.
  - by apply Nat.leb_le.
  - apply wal_updates_ok.
  - done.
  - exact E.
  - apply reboots_now.
  - apply wal_machine_fresh.
  - lia.
  - exists s1, s3, e3, D3. split; [exact E|]. split; [exact X1|]. split; [exact X2|exact X3].
Defined.

(** C23: As many blocks can be logged as there are buffers ([LOGBLOCKS = NBUF]), and
    then the transaction cannot be committed: every buffer is pinned, and
    [commit] panics for want of a buffer for the log block. *)
Theorem full_log_panics `{V : VirtioDevice} (p : nat) (start : Z) (s : kstate) (D P : blocks) (bl : list Z)
    (e : list (kstate → kstate)) :
  0 <= start ∧ start + LOGBLOCKS < 2147483648 →
  cache p s D P ∅ → log_at start s (Z.to_nat LOGBLOCKS) bl → wal start P (Z.to_nat LOGBLOCKS) bl →
  ∃ s', commit s e = Panic "bget: no buffers" s'.
Proof. apply commit_full_ok. Qed.

Definition full_pins : list (Z * list Z) := (λ i, (100 + Z.of_nat i, [])) <$> seq 0 (Z.to_nat LOGBLOCKS).
Definition full_blocks : list Z := full_pins.*1.
Definition full_machine : kstate :=
  (machine ∅ full_pins) <| k_log := mk_log 2 0 1 ROOTDEV LOGBLOCKS full_blocks |>.

Lemma full_blocks_at i : (i < 30)%nat → full_blocks !! i = Some (100 + Z.of_nat i).
Proof.
  intros Hi. unfold full_blocks, full_pins. rewrite !list_lookup_fmap.
  by rewrite (proj2 (lookup_seq 0 (Z.to_nat LOGBLOCKS) i i)).
Qed.

Lemma full_wal : wal 2 (list_to_map full_pins) (Z.to_nat LOGBLOCKS) full_blocks.
Proof.
  assert (∀ i, (i < 30)%nat → full_blocks !!! i = 100 + Z.of_nat i) as E
    by (intros i Hi; by apply list_lookup_total_correct, full_blocks_at).
  assert (NoDup full_blocks) as Nd by (apply (bool_decide_unpack (NoDup full_blocks)); by vm_compute).
  change (Z.to_nat LOGBLOCKS) with 30%nat. split; [lia|done|by apply (sublist_NoDup _ full_blocks); [done|apply sublist_take]| |].
  - intros i Hi. rewrite E by done. unfold in_log, LOGBLOCKS, MAXOPBLOCKS. lia.
  - intros bno. split.
    + intros [d Hd]. apply elem_of_list_to_map_2, (list_elem_of_fmap_2 fst) in Hd. simpl in Hd.
      apply list_elem_of_lookup in Hd as [i Hi]. pose proof (lookup_lt_Some _ _ _ Hi) as Hlt.
      exists i. split; [exact Hlt|]. by apply list_lookup_total_correct.
    + intros (i & Hi & <-). rewrite E by done. apply elem_of_dom. rewrite dom_list_to_map_L.
      apply elem_of_list_to_set, list_elem_of_lookup. exists i. by apply full_blocks_at.
Qed.

Lemma full_log_panics_witness :
  cache 0 full_machine ∅ (list_to_map full_pins) ∅ ∧
  ∃ s', commit full_machine [] = Panic "bget: no buffers" s'.
Proof.
  assert (cache 0 full_machine ∅ (list_to_map full_pins) ∅) as Hc.
  { apply cache_log, machine_cache; [|by apply Nat.leb_le|].
    - apply (bool_decide_unpack (NoDup full_pins.*1)). by vm_compute.
    - apply Forall_fmap, Forall_forall. intros i Hi. apply elem_of_seq in Hi. simpl.
      change (Z.to_nat LOGBLOCKS) with 30%nat in Hi. lia. }
  split; [exact Hc|].
  apply (full_log_panics 0 2 full_machine ∅ (list_to_map full_pins) full_blocks []); [done|exact Hc| |apply full_wal].
  by repeat split.
Defined.
