(* ===== verification/Fs.v ===== *)
(** The file system: kernel/fs.c with the on-disk format of kernel/fs.h and
    struct stat of kernel/stat.h.

    Inode pointers are indices of [itable.inode]; a null pointer is [None].
    Directory entries and stat structures live on the kernel stack of the
    current process, whose addresses [kstack_var] gives. *)

From S2P Require Export Log.

(** ** On-disk format *)

Definition ROOTINO : Z := 1.
Definition FSMAGIC : Z := 270544960.
Definition NINDIRECT : Z := BSIZE / 4.
Definition MAXFILE : Z := Z.of_nat NDIRECT + NINDIRECT.

(** struct dinode *)
Record dinode := mk_dinode {
  di_type : Z;
  di_major : Z;
  di_minor : Z;
  di_nlink : Z;
  di_size : Z;
  di_addrs : list Z;
}.
#[global] Instance eta_dinode : Eta dinode := λ d,
  mk_dinode (di_type d) (di_major d) (di_minor d) (di_nlink d) (di_size d) (di_addrs d).

Definition sizeof_dinode : Z := 64.
Definition IPB : Z := BSIZE / sizeof_dinode.
Definition IBLOCK (i : Z) (sb : superblock) : Z := u32 (i / IPB + sb_inodestart sb).
Definition BPB : Z := BSIZE * 8.
Definition BBLOCK (b : Z) (sb : superblock) : Z := u32 (b / BPB + sb_bmapstart sb).

Definition sizeof_dirent : Z := 16.
Definition de_inum (bs : list Z) : Z := get16 bs 0.
Definition de_name (bs : list Z) : list Z := take 14 (drop 2 bs).

(** The fields of [n] consecutive 32-bit words. *)
Fixpoint get_words (l : list Z) (off n : nat) : list Z :=
  match n with
  | O => []
  | S n' => get32 l off :: get_words l (4 + off) n'
  end.
Fixpoint words_bytes (ws : list Z) : list Z :=
  match ws with
  | [] => []
  | w :: ws' => le_bytes 4 w ++ words_bytes ws'
  end.

(** [(struct dinode* )bp->data + inum%IPB], read and written as a whole. *)
Definition dinode_off (inum : Z) : nat := Z.to_nat (inum mod IPB * sizeof_dinode).
Definition dinode_bytes (d : dinode) : list Z :=
  le_bytes 2 (di_type d) ++ le_bytes 2 (di_major d) ++ le_bytes 2 (di_minor d)
  ++ le_bytes 2 (di_nlink d) ++ le_bytes 4 (di_size d) ++ words_bytes (di_addrs d).
Definition get_dinode (data : list Z) (inum : Z) : dinode :=
  let o := dinode_off inum in
  mk_dinode (i16 (get16 data o)) (i16 (get16 data (2 + o))) (i16 (get16 data (4 + o)))
    (i16 (get16 data (6 + o))) (get32 data (8 + o)) (get_words data (12 + o) (S NDIRECT)).
Definition put_dinode (data : list Z) (inum : Z) (d : dinode) : list Z :=
  splice data (dinode_off inum) (dinode_bytes d).
Definition dinode0 : dinode := mk_dinode 0 0 0 0 0 (replicate (S NDIRECT) 0).

Section fs.
Context `{L : Layout}.

Definition get_sb : K superblock := gets k_sb.
Definition get_inode (ip : nat) : K inode := gets (λ s, inode_at s ip).

(** The address of a local variable on the current process's kernel stack;
    variables that are live at the same time have different offsets. *)
Definition kstack_var (off : Z) : K Z :=
  p ← curproc;
  pr ← get_proc p;
  mret (p_kstack pr + off).

(** ** Super block and bitmap *)

Definition readsb (dev : Z) : K unit :=
  bp ← bread dev 1;
  x ← get_buf bp;
  let d := b_data x in
  modify (λ s, s <| k_sb := mk_superblock (get32 d 0) (get32 d 4) (get32 d 8) (get32 d 12)
                              (get32 d 16) (get32 d 20) (get32 d 24) (get32 d 28) |>);;
  brelse bp.

Definition bzero (dev bno : Z) : K unit :=
  bp ← bread dev bno;
  set_data bp (replicate (Z.to_nat BSIZE) 0);;
  log_write bp;;
  brelse bp.

(** [m = 1 << (bi % 8)] *)
Definition bit_mask (bi : Z) : Z := Z.shiftl 1 (bi mod 8).

(** [bp->data[bi/8]] *)
Definition bitmap_byte (data : list Z) (bi : Z) : Z := data !!! Z.to_nat (bi / 8).

(** The scan of one bitmap block for a clear bit, from [bi]. *)
Fixpoint find_clear (data : list Z) (n : nat) (bi : Z) : option Z :=
  match n with
  | O => None
  | S n' =>
      if Z.land (bitmap_byte data bi) (bit_mask bi) =? 0 then Some bi
      else find_clear data n' (bi + 1)
  end.

Definition set_bit (data : list Z) (bi : Z) : list Z :=
  <[Z.to_nat (bi / 8) := Z.lor (bitmap_byte data bi) (bit_mask bi)]> data.
Definition clear_bit (data : list Z) (bi : Z) : list Z :=
  <[Z.to_nat (bi / 8) := Z.land (bitmap_byte data bi) (Z.lnot (bit_mask bi))]> data.

Definition balloc (dev : Z) : K Z :=
  sb ← get_sb;
  loop (S (S (Z.to_nat (sb_size sb / BPB)))) (λ b,
    if sb_size sb <=? b then
      printf ("balloc: out of blocks" +:+ nl) [];; mret (inr 0)
    else
      bp ← bread dev (BBLOCK b sb);
      x ← get_buf bp;
      match find_clear (b_data x) (Z.to_nat (Z.min BPB (sb_size sb - b))) 0 with
      | Some bi =>
          set_data bp (set_bit (b_data x) bi);;
          log_write bp;;
          brelse bp;;
          bzero dev (b + bi);;
          mret (inr (b + bi))
      | None => brelse bp;; mret (inl (b + BPB))
      end) 0.

Definition bfree (dev b : Z) : K unit :=
  sb ← get_sb;
  bp ← bread dev (BBLOCK b sb);
  let bi := b mod BPB in
  x ← get_buf bp;
  if Z.land (bitmap_byte (b_data x) bi) (bit_mask bi) =? 0 then panic "freeing free block" else
  set_data bp (clear_bit (b_data x) bi);;
  log_write bp;;
  brelse bp.

(** ** The inode table *)

Definition iinit : K unit :=
  initlock Litable "itable";;
  for_each NINODE 0 (λ i, initsleeplock (SLinode i) "inode").

(** The scan of [iget] from entry [i]: the entry of the inode if it is in the
    table, otherwise the first empty one. *)
Fixpoint iget_scan (t : list inode) (dev inum : Z) (n i : nat) (empty : option nat)
    : nat + option nat :=
  match n with
  | O => inr empty
  | S n' =>
      let ip := t !!! i in
      if (0 <? i_ref ip) && (i_dev ip =? dev) && (i_inum ip =? inum) then inl i
      else iget_scan t dev inum n' (S i)
             (match empty with None => if i_ref ip =? 0 then Some i else None | _ => empty end)
  end.

Definition iget (dev inum : Z) : K nat :=
  acquire Litable;;
  t ← gets k_inodes;
  match iget_scan t dev inum NINODE 0 None with
  | inl ip =>
      upd_inode ip (λ x, x <| i_ref ::= λ n, n + 1 |>);;
      release Litable;;
      mret ip
  | inr None => panic "iget: no inodes"
  | inr (Some ip) =>
      upd_inode ip (λ x, x <| i_dev := dev |>);;
      upd_inode ip (λ x, x <| i_inum := inum |>);;
      upd_inode ip (λ x, x <| i_ref := 1 |>);;
      upd_inode ip (λ x, x <| i_valid := 0 |>);;
      release Litable;;
      mret ip
  end.

Definition ialloc (dev type : Z) : K (option nat) :=
  sb ← get_sb;
  loop (S (Z.to_nat (sb_ninodes sb))) (λ inum,
    if sb_ninodes sb <=? inum then
      printf ("ialloc: no inodes" +:+ nl) [];; mret (inr None)
    else
      bp ← bread dev (IBLOCK inum sb);
      x ← get_buf bp;
      if di_type (get_dinode (b_data x) inum) =? 0 then
        set_data bp (put_dinode (b_data x) inum (dinode0 <| di_type := type |>));;
        log_write bp;;
        brelse bp;;
        ip ← iget dev inum;
        mret (inr (Some ip))
      else brelse bp;; mret (inl (inum + 1))) 1.

(** The part of an inode that lives on disk. *)
Definition dinode_of (ip : inode) : dinode :=
  mk_dinode (i_type ip) (i_major ip) (i_minor ip) (i_nlink ip) (i_size ip) (i_addrs ip).

Definition iupdate (ip : nat) : K unit :=
  i ← get_inode ip;
  sb ← get_sb;
  bp ← bread (i_dev i) (IBLOCK (i_inum i) sb);
  upd_buf bp (λ x, x <| b_data ::= λ d, put_dinode d (i_inum i) (dinode_of i) |>);;
  log_write bp;;
  brelse bp.

Definition idup (ip : nat) : K nat :=
  acquire Litable;;
  upd_inode ip (λ x, x <| i_ref ::= λ n, n + 1 |>);;
  release Litable;;
  mret ip.

Definition ilock (ip : option nat) : K unit :=
  match ip with
  | None => panic "ilock"
  | Some ip =>
      i ← get_inode ip;
      if i_ref i <? 1 then panic "ilock" else
      acquiresleep (SLinode ip);;
      i ← get_inode ip;
      when (i_valid i =? 0) (
        sb ← get_sb;
        bp ← bread (i_dev i) (IBLOCK (i_inum i) sb);
        x ← get_buf bp;
        let d := get_dinode (b_data x) (i_inum i) in
        upd_inode ip (λ i, i <| i_type := di_type d |> <| i_major := di_major d |>
                             <| i_minor := di_minor d |> <| i_nlink := di_nlink d |>
                             <| i_size := di_size d |> <| i_addrs := di_addrs d |>);;
        brelse bp;;
        upd_inode ip (λ i, i <| i_valid := 1 |>);;
        i ← get_inode ip;
        if i_type i =? 0 then panic "ilock: no type" else mret ())
  end.

Definition iunlock (ip : option nat) : K unit :=
  match ip with
  | None => panic "iunlock"
  | Some ip =>
      h ← holdingsleep (SLinode ip);
      if negb h then panic "iunlock" else
      i ← get_inode ip;
      if i_ref i <? 1 then panic "iunlock" else
      releasesleep (SLinode ip)
  end.

(** ** Inode content *)

Definition bmap (ip : nat) (bn : Z) : K Z :=
  i ← get_inode ip;
  if bn <? Z.of_nat NDIRECT then
    let addr := i_addrs i !!! Z.to_nat bn in
    if addr =? 0 then
      addr ← balloc (i_dev i);
      if addr =? 0 then mret 0 else
      upd_inode ip (λ i, i <| i_addrs ::= <[Z.to_nat bn := addr]> |>);;
      mret addr
    else mret addr
  else
  let bn := bn - Z.of_nat NDIRECT in
  if bn <? NINDIRECT then
    addr ← (
      let addr := i_addrs i !!! NDIRECT in
      if addr =? 0 then
        addr ← balloc (i_dev i);
        when (negb (addr =? 0)) (upd_inode ip (λ i, i <| i_addrs ::= <[NDIRECT := addr]> |>));;
        mret addr
      else mret addr);
    if addr =? 0 then mret 0 else
    bp ← bread (i_dev i) addr;
    x ← get_buf bp;
    let addr := get32 (b_data x) (4 * Z.to_nat bn) in
    addr ← (
      if addr =? 0 then
        addr ← balloc (i_dev i);
        when (negb (addr =? 0)) (
          upd_buf bp (λ x, x <| b_data ::= λ d, put32 d (4 * Z.to_nat bn) addr |>);;
          log_write bp);;
        mret addr
      else mret addr);
    brelse bp;;
    mret addr
  else panic "bmap: out of range".

Definition itrunc (ip : nat) : K unit :=
  for_each NDIRECT 0 (λ i,
    x ← get_inode ip;
    when (negb (i_addrs x !!! i =? 0)) (
      bfree (i_dev x) (i_addrs x !!! i);;
      upd_inode ip (λ x, x <| i_addrs ::= <[i := 0]> |>)));;
  x ← get_inode ip;
  when (negb (i_addrs x !!! NDIRECT =? 0)) (
    bp ← bread (i_dev x) (i_addrs x !!! NDIRECT);
    for_each (Z.to_nat NINDIRECT) 0 (λ j,
      b ← get_buf bp;
      let a := get32 (b_data b) (4 * j) in
      when (negb (a =? 0)) (bfree (i_dev x) a));;
    brelse bp;;
    bfree (i_dev x) (i_addrs x !!! NDIRECT);;
    upd_inode ip (λ x, x <| i_addrs ::= <[NDIRECT := 0]> |>));;
  upd_inode ip (λ x, x <| i_size := 0 |>);;
  iupdate ip.

Definition iput (ip : nat) : K unit :=
  acquire Litable;;
  i ← get_inode ip;
  when ((i_ref i =? 1) && negb (i_valid i =? 0) && (i_nlink i =? 0)) (
    acquiresleep (SLinode ip);;
    release Litable;;
    itrunc ip;;
    upd_inode ip (λ i, i <| i_type := 0 |>);;
    iupdate ip;;
    upd_inode ip (λ i, i <| i_valid := 0 |>);;
    releasesleep (SLinode ip);;
    acquire Litable);;
  upd_inode ip (λ i, i <| i_ref ::= λ n, n - 1 |>);;
  release Litable.

Definition iunlockput (ip : nat) : K unit :=
  iunlock (Some ip);;
  iput ip.

Definition ireclaim (dev : Z) : K unit :=
  sb ← get_sb;
  for_each (Z.to_nat (sb_ninodes sb) - 1) 1 (λ i,
    let inum := Z.of_nat i in
    bp ← bread dev (IBLOCK inum sb);
    x ← get_buf bp;
    let dip := get_dinode (b_data x) inum in
    ip ← (
      if negb (di_type dip =? 0) && (di_nlink dip =? 0) then
        printf ("ireclaim: orphaned inode %d" +:+ nl) [VWord inum];;
        ip ← iget dev inum;
        mret (Some ip)
      else mret None);
    brelse bp;;
    match ip with
    | Some ip =>
        begin_op;;
        ilock (Some ip);;
        iunlock (Some ip);;
        iput ip;;
        end_op
    | None => mret ()
    end).

Definition fsinit (dev : Z) : K unit :=
  readsb dev;;
  sb ← get_sb;
  if negb (sb_magic sb =? FSMAGIC) then panic "invalid file system" else
  initlog dev sb;;
  ireclaim dev.

(** struct stat at address [st]; the four bytes before [size] are padding. *)
Definition sizeof_stat : Z := 24.
Definition stati (ip : nat) (st : Z) : K unit :=
  i ← get_inode ip;
  upd_mem (λ m, stn m st (le_bytes 4 (i_dev i)));;
  upd_mem (λ m, stn m (st + 4) (le_bytes 4 (i_inum i)));;
  upd_mem (λ m, stn m (st + 8) (le_bytes 2 (i_type i)));;
  upd_mem (λ m, stn m (st + 10) (le_bytes 2 (i_nlink i)));;
  upd_mem (λ m, stn m (st + 16) (le_bytes 8 (i_size i))).

(** One round of the loop of [readi], with [tot], [off] and [dst]; every round
    moves at least one byte. *)
Definition readi_loop (ip : nat) (user_dst : bool) (n : Z) (x : Z * Z * Z)
    : K ((Z * Z * Z) + Z) :=
  let '(tot, off, dst) := x in
  if n <=? tot then mret (inr tot) else
  addr ← bmap ip (off / BSIZE);
  if addr =? 0 then mret (inr tot) else
  i ← get_inode ip;
  bp ← bread (i_dev i) addr;
  b ← get_buf bp;
  let m := Z.min (n - tot) (BSIZE - off mod BSIZE) in
  r ← either_copyout user_dst dst
        (take (Z.to_nat m) (drop (Z.to_nat (off mod BSIZE)) (b_data b)));
  if r =? -1 then brelse bp;; mret (inr (-1)) else
  brelse bp;;
  mret (inl (tot + m, u32 (off + m), u64 (dst + m))).

Definition readi (ip : nat) (user_dst : bool) (dst off n : Z) : K Z :=
  i ← get_inode ip;
  if (i_size i <? off) || (u32 (off + n) <? off) then mret 0 else
  let n := if i_size i <? u32 (off + n) then u32 (i_size i - off) else n in
  tot ← loop (S (Z.to_nat n)) (readi_loop ip user_dst n) (0, off, dst);
  mret (i32 tot).

(** The same for [writei]; it leaves with [tot] and [off].  What [either_copyin]
    stored before failing stays in the buffer. *)
Definition writei_loop (ip : nat) (user_src : bool) (n : Z) (x : Z * Z * Z)
    : K ((Z * Z * Z) + (Z * Z)) :=
  let '(tot, off, src) := x in
  if n <=? tot then mret (inr (tot, off)) else
  addr ← bmap ip (off / BSIZE);
  if addr =? 0 then mret (inr (tot, off)) else
  i ← get_inode ip;
  bp ← bread (i_dev i) addr;
  let m := Z.min (n - tot) (BSIZE - off mod BSIZE) in
  '(bs, r) ← either_copyin user_src src m;
  upd_buf bp (λ b, b <| b_data ::= λ d, splice d (Z.to_nat (off mod BSIZE)) bs |>);;
  if r =? -1 then brelse bp;; mret (inr (tot, off)) else
  log_write bp;;
  brelse bp;;
  mret (inl (tot + m, u32 (off + m), u64 (src + m))).

Definition writei (ip : nat) (user_src : bool) (src off n : Z) : K Z :=
  i ← get_inode ip;
  if (i_size i <? off) || (u32 (off + n) <? off) then mret (-1) else
  if MAXFILE * BSIZE <? u32 (off + n) then mret (-1) else
  '(tot, off) ← loop (S (Z.to_nat n)) (writei_loop ip user_src n) (0, off, src);
  i ← get_inode ip;
  when (i_size i <? off) (upd_inode ip (λ i, i <| i_size := off |>));;
  iupdate ip;;
  mret (i32 tot).

(** ** Directories *)

Definition namecmp (s t : list Z) : Z := strncmp s t (Z.to_nat DIRSIZ).

(** Offsets of the locals [de] of [dirlookup] and [dirlink] in the stack page. *)
Definition KS_dirlookup_de : Z := 0.
Definition KS_dirlink_de : Z := 16.

(** [for(off = 0; off < dp->size; off += sizeof(de)) body], reading the entry
    at [off] into the stack at [ks] first; the loop leaves early with a result,
    and in any case with the offset it reached. *)
Definition dir_scan {A} (dp : nat) (ks : Z) (msg : string) (body : Z → list Z → K (option A))
    : K (option A * Z) :=
  i ← get_inode dp;
  loop (S (S (Z.to_nat (i_size i / sizeof_dirent)))) (λ off,
    i ← get_inode dp;
    if i_size i <=? off then mret (inr (None, off)) else
    de ← kstack_var ks;
    r ← readi dp false de off sizeof_dirent;
    if negb (r =? sizeof_dirent) then panic msg else
    bs ← gets (λ s, ldn (k_mem s) de (Z.to_nat sizeof_dirent));
    r ← body off bs;
    match r with
    | Some a => mret (inr (Some a, off))
    | None => mret (inl (u32 (off + sizeof_dirent)))
    end) 0.

(** The inode found and the offset of its entry. *)
Definition dirlookup (dp : nat) (name : list Z) : K (option (nat * Z)) :=
  i ← get_inode dp;
  if negb (i_type i =? T_DIR) then panic "dirlookup not DIR" else
  '(r, _) ← dir_scan dp KS_dirlookup_de "dirlookup read" (λ off bs,
    if de_inum bs =? 0 then mret None else
    if namecmp name (de_name bs) =? 0 then
      i ← get_inode dp;
      ip ← iget (i_dev i) (de_inum bs);
      mret (Some (ip, off))
    else mret None);
  mret r.

Definition dirlink (dp : nat) (name : list Z) (inum : Z) : K Z :=
  r ← dirlookup dp name;
  match r with
  | Some (ip, _) => iput ip;; mret (-1)
  | None =>
      '(_, off) ← dir_scan dp KS_dirlink_de "dirlink read" (λ _ bs,
        mret (if de_inum bs =? 0 then Some () else None));
      de ← kstack_var KS_dirlink_de;
      upd_mem (λ m, stn m (de + 2) (strncpy (ldn m (de + 2) 14) name DIRSIZ));;
      upd_mem (λ m, stn m de (le_bytes 2 inum));;
      r ← writei dp false de off sizeof_dirent;
      if negb (r =? sizeof_dirent) then mret (-1) else mret 0
  end.

(** ** Paths *)

(** [while( *path == '/') path++] *)
Fixpoint skip_slashes (path : list Z) : list Z :=
  match path with
  | c :: path' => if c =? 47 then skip_slashes path' else path
  | [] => []
  end.

(** [while( *path != '/' && *path != 0) path++]: the characters skipped and the
    rest. *)
Fixpoint span_elem (path : list Z) : list Z * list Z :=
  match path with
  | c :: path' =>
      if (c =? 47) || (c =? 0) then ([], path)
      else let '(s, r) := span_elem path' in (c :: s, r)
  | [] => ([], [])
  end.

(** The rest of the path and the contents of [name]; [None] for a null result. *)
Definition skipelem (path name : list Z) : option (list Z * list Z) :=
  let path := skip_slashes path in
  if char_at path =? 0 then None else
  let '(s, path) := span_elem path in
  let len := Z.of_nat (length s) in
  let name :=
    if DIRSIZ <=? len then splice name 0 (take (Z.to_nat DIRSIZ) s)
    else <[length s := 0]> (splice name 0 s) in
  Some (skip_slashes path, name).

(** The loop of [namex]; each round consumes part of the path.  The result is
    the inode and the contents of [name]. *)
Definition namex_loop (nameiparent : bool) (x : nat * list Z * list Z)
    : K ((nat * list Z * list Z) + (option nat * list Z)) :=
  let '(ip, path, name) := x in
  match skipelem path name with
  | None =>
      if nameiparent then iput ip;; mret (inr (None, name))
      else mret (inr (Some ip, name))
  | Some (path, name) =>
      ilock (Some ip);;
      i ← get_inode ip;
      if negb (i_type i =? T_DIR) then iunlockput ip;; mret (inr (None, name)) else
      if nameiparent && (char_at path =? 0) then
        iunlock (Some ip);; mret (inr (Some ip, name))
      else
      next ← dirlookup ip name;
      match next with
      | None => iunlockput ip;; mret (inr (None, name))
      | Some (next, _) => iunlockput ip;; mret (inl (next, path, name))
      end
  end.

Definition namex (path : list Z) (nameiparent : bool) (name : list Z)
    : K (option nat * list Z) :=
  ip ← (
    if char_at path =? 47 then iget ROOTDEV ROOTINO
    else
      p ← curproc;
      pr ← get_proc p;
      match p_cwd pr with
      | Some ip => idup ip
      | None => panic "kerneltrap"
      end);
  loop (S (length path)) (namex_loop nameiparent) (ip, path, name).

(** The initial contents of the local [name] do not matter. *)
Definition namei (path : list Z) : K (option nat) :=
  '(ip, _) ← namex path false (replicate (Z.to_nat DIRSIZ) 0);
  mret ip.

Definition nameiparent (path name : list Z) : K (option nat * list Z) :=
  namex path true name.

End fs.
