(* ===== verification/DiskFormat.v ===== *)
(** The format of the file system on the disk, which mkfs.c writes and fs.c reads:
    inodes and their blocks, and what a file contains. *)

From S2P Require Export Fs.

(** Closes goals about positions in a file, with divisions by the block size. *)
Ltac div_facts a :=
  lazymatch goal with
  | _ : a = (1024 * (a / 1024) + a mod 1024)%nat |- _ => fail
  | _ => pose proof (Nat.div_mod_eq a 1024); pose proof (Nat.mod_upper_bound a 1024 (Nat.neq_succ_0 _))
  end.
Ltac ndlia :=
  repeat match goal with
    | |- context [(?a mod 1024)%nat] => div_facts a
    | |- context [(?a / 1024)%nat] => div_facts a
    | _ : context [(?a mod 1024)%nat] |- _ => div_facts a
    | _ : context [(?a / 1024)%nat] |- _ => div_facts a
    end; lia.

(** ** Inodes in a block *)

Lemma length_words_bytes ws : length (words_bytes ws) = (4 * length ws)%nat.
Proof. induction ws as [|w ws IH]; simpl; [done|]. rewrite IH. lia. Qed.

Lemma get_words_bytes ws pre post :
  Forall (λ w, 0 <= w < 4294967296) ws →
  get_words (pre ++ words_bytes ws ++ post) (length pre) (length ws) = ws.
Proof.
  intros H. revert pre. induction H as [|w ws Hw _ IH]; intros pre; [done|]. cbn [words_bytes length get_words].
  rewrite <- app_assoc. f_equal.
  - unfold get32. rewrite drop_app_length. change 4%nat with (length (le_bytes 4 w)). rewrite take_app_length, le_val_bytes.
    by apply Z.mod_small.
  - specialize (IH (pre ++ le_bytes 4 w)). rewrite length_app, length_le_bytes, <- app_assoc in IH.
    rewrite Nat.add_comm. exact IH.
Qed.

Record dinode_ok (d : dinode) : Prop := {
  do_type : -32768 <= di_type d < 32768;
  do_major : -32768 <= di_major d < 32768;
  do_minor : -32768 <= di_minor d < 32768;
  do_nlink : -32768 <= di_nlink d < 32768;
  do_size : 0 <= di_size d < 4294967296;
  do_len : length (di_addrs d) = S NDIRECT;
  do_addrs : Forall (λ w, 0 <= w < 4294967296) (di_addrs d);
}.

Lemma length_dinode_bytes d : dinode_ok d → length (dinode_bytes d) = 64%nat.
Proof. intros [_ _ _ _ _ H _]. unfold dinode_bytes. rewrite !length_app, !length_le_bytes, length_words_bytes, H. done. Qed.

(** A field of a structure inside a buffer. *)
Lemma take_drop_inside (pre bs post : list Z) n o k :
  length pre = n → (o + k <= length bs)%nat → take k (drop (o + n) (pre ++ bs ++ post)) = take k (drop o bs).
Proof.
  intros <- H. rewrite (Nat.add_comm o), <- drop_drop, drop_app_length, drop_app_le by lia.
  rewrite take_app_le; [done|]. rewrite length_drop. lia.
Qed.

Lemma get_words_inside pre bs post n o k :
  length pre = n → (o + 4 * k <= length bs)%nat → get_words (pre ++ bs ++ post) (o + n) k = get_words bs o k.
Proof.
  intros Hn. revert o. induction k as [|k IH]; intros o Hk; [done|]. cbn [get_words]. f_equal.
  - unfold get32. by rewrite take_drop_inside by lia.
  - rewrite Nat.add_assoc. apply IH. lia.
Qed.

Lemma i16_le_bytes x : -32768 <= x < 32768 → i16 (le_val (le_bytes 2 x)) = x.
Proof.
  intros. rewrite le_val_bytes. change (256 ^ Z.of_nat 2) with 65536. unfold i16.
  rewrite Z.add_mod_idemp_l by lia. zlia.
Qed.

Lemma dinode_roundtrip d pre post n :
  dinode_ok d → length pre = n →
  let l := pre ++ dinode_bytes d ++ post in
  mk_dinode (i16 (get16 l n)) (i16 (get16 l (2 + n))) (i16 (get16 l (4 + n))) (i16 (get16 l (6 + n))) (get32 l (8 + n))
    (get_words l (12 + n) (S NDIRECT)) = d.
Proof.
  intros Hd Hn l. pose proof (length_dinode_bytes d Hd) as Hlen. destruct Hd as [H1 H2 H3 H4 H5 H6 H7].
  unfold l. rewrite get_words_inside by (unfold NDIRECT; lia). unfold get16, get32.
  change n with (0 + n)%nat at 1. rewrite !take_drop_inside by lia.
  destruct d as [ty mj mn nl sz ad]; cbn [di_type di_major di_minor di_nlink di_size di_addrs] in *. unfold dinode_bytes.
  f_equal; [exact (i16_le_bytes _ H1)|exact (i16_le_bytes _ H2)|exact (i16_le_bytes _ H3)|exact (i16_le_bytes _ H4)| |].
  - change (le_val (le_bytes 4 sz) = sz). rewrite le_val_bytes. by apply Z.mod_small.
  - rewrite <- H6 at 1.
    pose proof (get_words_bytes ad (le_bytes 2 ty ++ le_bytes 2 mj ++ le_bytes 2 mn ++ le_bytes 2 nl ++ le_bytes 4 sz) [] H7) as E.
    rewrite app_nil_r, <- !app_assoc in E. exact E.
Qed.

Lemma dinode_off_range inum : (dinode_off inum + 64 <= 1024)%nat.
Proof. unfold dinode_off. change IPB with 16. change sizeof_dinode with 64. pose proof (Z.mod_pos_bound inum 16). lia. Qed.

Lemma get_put_dinode data inum d :
  length data = Z.to_nat BSIZE → dinode_ok d → get_dinode (put_dinode data inum d) inum = d.
Proof.
  intros Hl Hd. pose proof (dinode_off_range inum). change (Z.to_nat BSIZE) with 1024%nat in Hl.
  unfold get_dinode, put_dinode, splice. apply dinode_roundtrip; [done|]. rewrite length_take. lia.
Qed.

Lemma get_put_dinode_ne data inum inum' d :
  length data = Z.to_nat BSIZE → dinode_ok d → inum mod IPB ≠ inum' mod IPB →
  get_dinode (put_dinode data inum d) inum' = get_dinode data inum'.
Proof.
  intros Hl Hd Hne. pose proof (length_dinode_bytes d Hd) as Hlen. pose proof (dinode_off_range inum).
  change (Z.to_nat BSIZE) with 1024%nat in Hl.
  assert (dinode_off inum' + 64 <= dinode_off inum ∨ dinode_off inum + 64 <= dinode_off inum')%nat as Hoff.
  { unfold dinode_off. change IPB with 16 in *. change sizeof_dinode with 64.
    pose proof (Z.mod_pos_bound inum 16). pose proof (Z.mod_pos_bound inum' 16). lia. }
  assert (∀ k o, (o + k <= 64)%nat → take k (drop (o + dinode_off inum') (put_dinode data inum d)) =
    take k (drop (o + dinode_off inum') data)) as E.
  { intros k o Hk. unfold put_dinode. apply take_drop_splice_ne; rewrite Hlen; lia. }
  assert (∀ n o, (o + 4 * n <= 64)%nat → get_words (put_dinode data inum d) (o + dinode_off inum') n =
    get_words data (o + dinode_off inum') n) as Ew.
  { induction n as [|n IH]; intros o Hn; [done|]. cbn [get_words]. unfold get32. rewrite E by lia. f_equal.
    rewrite Nat.add_assoc. apply IH. lia. }
  unfold get_dinode, get16, get32. rewrite !E, Ew by (unfold NDIRECT; lia).
  do 3 f_equal. apply (E 2%nat 0%nat). lia.
Qed.

Lemma length_put_dinode data inum d :
  length data = Z.to_nat BSIZE → dinode_ok d → length (put_dinode data inum d) = Z.to_nat BSIZE.
Proof.
  intros Hl Hd. pose proof (dinode_off_range inum). change (Z.to_nat BSIZE) with 1024%nat in *. unfold put_dinode.
  rewrite length_splice; [done|]. rewrite length_dinode_bytes by done. lia.
Qed.

(** ** The bitmap *)

Definition bit_of (data : list Z) (bi : Z) : bool := Z.testbit (bitmap_byte data bi) (bi mod 8).

Lemma testbit_mask bi n : 0 <= n → Z.testbit (bit_mask bi) n = (bi mod 8 =? n).
Proof. intros. unfold bit_mask. rewrite Z.shiftl_1_l. apply Z.pow2_bits_eqb. apply Z.mod_pos_bound. lia. Qed.

(** The test of [balloc] and [bfree]. *)
Lemma bit_clear data bi : (Z.land (bitmap_byte data bi) (bit_mask bi) =? 0) = negb (bit_of data bi).
Proof.
  unfold bit_of. pose proof (Z.mod_pos_bound bi 8). destruct (Z.testbit _ _) eqn:E; cbn [negb].
  - apply Z.eqb_neq. intros H0. apply (f_equal (λ x, Z.testbit x (bi mod 8))) in H0.
    rewrite Z.land_spec, E, testbit_mask, Z.eqb_refl, Z.bits_0 in H0 by lia. done.
  - apply Z.eqb_eq, Z.bits_inj'. intros n Hn. rewrite Z.land_spec, Z.bits_0, testbit_mask by lia.
    destruct (Z.eqb_spec (bi mod 8) n) as [<-|]; [by rewrite E|apply andb_false_r].
Qed.

Lemma same_byte bi bi' : 0 <= bi → 0 <= bi' → Z.to_nat (bi / 8) = Z.to_nat (bi' / 8) → bi mod 8 = bi' mod 8 → bi = bi'.
Proof. intros. zlia. Qed.

Lemma bit_update data bi bi' x :
  0 <= bi → 0 <= bi' → (Z.to_nat (bi / 8) < length data)%nat →
  bit_of (<[Z.to_nat (bi / 8) := x]> data) bi' =
  if decide (Z.to_nat (bi / 8) = Z.to_nat (bi' / 8)) then Z.testbit x (bi' mod 8) else bit_of data bi'.
Proof.
  intros. unfold bit_of, bitmap_byte. case_decide as E.
  - rewrite <- E, list_lookup_total_insert_eq by done. done.
  - by rewrite list_lookup_total_insert_ne.
Qed.

Lemma bit_set data bi bi' :
  0 <= bi → 0 <= bi' → (Z.to_nat (bi / 8) < length data)%nat →
  bit_of (set_bit data bi) bi' = (bi =? bi') || bit_of data bi'.
Proof.
  intros H1 H2 H3. unfold set_bit. rewrite bit_update by done. pose proof (Z.mod_pos_bound bi' 8). case_decide as E.
  - rewrite Z.lor_spec, testbit_mask by lia. unfold bit_of, bitmap_byte. rewrite E, orb_comm. f_equal.
    destruct (Z.eqb_spec bi bi') as [->|N]; [by rewrite Z.eqb_refl|]. apply Z.eqb_neq. intros M. by apply N, same_byte.
  - destruct (Z.eqb_spec bi bi') as [->|N]; done.
Qed.

Lemma bit_cleared data bi bi' :
  0 <= bi → 0 <= bi' → (Z.to_nat (bi / 8) < length data)%nat →
  bit_of (clear_bit data bi) bi' = negb (bi =? bi') && bit_of data bi'.
Proof.
  intros H1 H2 H3. unfold clear_bit. rewrite bit_update by done. pose proof (Z.mod_pos_bound bi' 8). case_decide as E.
  - rewrite Z.land_spec, Z.lnot_spec, testbit_mask by lia. unfold bit_of, bitmap_byte. rewrite E, andb_comm. do 2 f_equal.
    destruct (Z.eqb_spec bi bi') as [->|N]; [by rewrite Z.eqb_refl|]. apply Z.eqb_neq. intros M. by apply N, same_byte.
  - destruct (Z.eqb_spec bi bi') as [->|N]; done.
Qed.

(** ** Files *)

(** The inode [d] describes a file with the data blocks [bs] and the contents
    [content], the blocks of the disk being [v]. *)
Record file_rep (v : Z → list Z) (d : dinode) (bs content : list Z) : Prop := {
  fr_size : di_size d = Z.of_nat (length content);
  fr_max : (length bs <= Z.to_nat MAXFILE)%nat;
  fr_bs : Forall (λ b, 0 < b < 2147483648) bs;
  fr_direct : ∀ k, (k < NDIRECT)%nat → di_addrs d !!! k = default 0 (bs !! k);
  fr_ind : 0 <= di_addrs d !!! NDIRECT < 2147483648;
  fr_need : (NDIRECT < length bs)%nat → di_addrs d !!! NDIRECT ≠ 0;
  fr_indirect : di_addrs d !!! NDIRECT ≠ 0 → ∀ j, (j < Z.to_nat NINDIRECT)%nat →
    get32 (v (di_addrs d !!! NDIRECT)) (4 * j) = default 0 (bs !! (NDIRECT + j)%nat);
  fr_content : ∀ i c, content !! i = Some c →
    ∃ b, bs !! (i / 1024)%nat = Some b ∧ v b !! (i mod 1024)%nat = Some c;
}.

(** The blocks of a file: the indirect block, if any, and the data. *)
Definition owned (d : dinode) (bs : list Z) : list Z :=
  (if di_addrs d !!! NDIRECT =? 0 then [] else [di_addrs d !!! NDIRECT]) ++ bs.

Lemma file_rep_ext v v' d bs content :
  (∀ b, b ∈ owned d bs → v' b = v b) → file_rep v d bs content → file_rep v' d bs content.
Proof.
  intros E [H1 H2 H3 H4 H5 H6 H7 H8]. split; try done.
  - intros N j Hj. rewrite E; [by apply H7|]. unfold owned. rewrite (proj2 (Z.eqb_neq _ _) N). by left.
  - intros i c Hi. destruct (H8 i c Hi) as (b & Hb & Hc). exists b. split; [done|]. rewrite E; [done|].
    apply elem_of_app. right. by eapply list_elem_of_lookup_2.
Qed.
