(* ===== verification/Mkfs.v ===== *)
(** The builder of the disk image: mkfs/mkfs.c.

    The program runs on the host.  The image file is the list of its blocks; the
    globals [freeinode] and [freeblock] are with it in the state [image].  A failed
    [assert] and [die] end the program ([panic]).  The host's integers are
    little-endian, as the disk's; its messages are left out. *)

From S2P Require Export Fs.

Record image := mk_image {
  im_blocks : list (list Z);
  freeinode : Z;
  freeblock : Z;
}.
#[global] Instance eta_image : Eta image := λ i, mk_image (im_blocks i) (freeinode i) (freeblock i).

Abbreviation I := (M image).

Definition NINODES : Z := 200.

Definition nbitmap : Z := FSSIZE / BPB + 1.
Definition ninodeblocks : Z := NINODES / IPB + 1.
Definition nlog : Z := LOGBLOCKS + 1.
Definition nmeta : Z := 2 + nlog + ninodeblocks + nbitmap.
Definition nblocks : Z := FSSIZE - nmeta.

Definition xshort (x : Z) : Z := le_val [u8 x; u8 (Z.shiftr x 8)].
Definition xint (x : Z) : Z := le_val [u8 x; u8 (Z.shiftr x 8); u8 (Z.shiftr x 16); u8 (Z.shiftr x 24)].

(** The global [sb] once [main] has set it. *)
Definition mkfs_sb : superblock :=
  mk_superblock FSMAGIC (xint FSSIZE) (xint nblocks) (xint NINODES) (xint nlog) (xint 2)
    (xint (2 + nlog)) (xint (2 + nlog + ninodeblocks)).

Definition superblock_bytes (sb : superblock) : list Z :=
  words_bytes [sb_magic sb; sb_size sb; sb_nblocks sb; sb_ninodes sb; sb_nlog sb; sb_logstart sb;
               sb_inodestart sb; sb_bmapstart sb].

Definition zeroes : list Z := replicate (Z.to_nat BSIZE) 0.

Definition assert (b : bool) : I unit := if b then mret () else panic "assert".
Definition die (s : string) : I unit := panic s.

(** ** Sectors *)

(** The block at offset [sec * BSIZE], which is computed in 32 bits. *)
Definition sector (sec : Z) : nat := Z.to_nat (u32 (sec * BSIZE) / BSIZE).

(** A write beyond the end of the file fills the gap with zeroes. *)
Definition wsect (sec : Z) (buf : list Z) : I unit :=
  modify (λ i, i <| im_blocks ::= λ bl,
    <[sector sec := buf]> (bl ++ replicate (S (sector sec) - length bl) zeroes) |>).

Definition rsect (sec : Z) : I (list Z) :=
  bl ← gets im_blocks;
  match bl !! sector sec with
  | Some buf => mret buf
  | None => panic "read"
  end.

(** ** Inodes *)

Definition winode (inum : Z) (ip : dinode) : I unit :=
  let bn := IBLOCK inum mkfs_sb in
  buf ← rsect bn;
  wsect bn (put_dinode buf inum ip).

Definition rinode (inum : Z) : I dinode :=
  let bn := IBLOCK inum mkfs_sb in
  buf ← rsect bn;
  mret (get_dinode buf inum).

Definition ialloc (type : Z) : I Z :=
  inum ← gets freeinode;
  modify (λ i, i <| freeinode := u32 (inum + 1) |>);;
  winode inum (dinode0 <| di_type := xshort type |> <| di_nlink := xshort 1 |> <| di_size := xint 0 |>);;
  mret inum.

(** [freeblock++] *)
Definition next_block : I Z :=
  b ← gets freeblock;
  modify (λ i, i <| freeblock := u32 (b + 1) |>);;
  mret b.

(** The bitmap block of [balloc]. *)
Fixpoint mark_used (n : nat) (i : Z) (buf : list Z) : list Z :=
  match n with
  | O => buf
  | S n' => mark_used n' (i + 1) (set_bit buf i)
  end.

Definition balloc (used : Z) : I unit :=
  assert (used <? BPB);;
  wsect (sb_bmapstart mkfs_sb) (mark_used (Z.to_nat used) 0 zeroes).

(** The block of file block [fbn], allocated if there is none, with the inode. *)
Definition iappend_block (din : dinode) (fbn : Z) : I (dinode * Z) :=
  if fbn <? Z.of_nat NDIRECT then
    din ← (if xint (di_addrs din !!! Z.to_nat fbn) =? 0 then
             b ← next_block;
             mret (din <| di_addrs ::= <[Z.to_nat fbn := xint b]> |>)
           else mret din);
    mret (din, xint (di_addrs din !!! Z.to_nat fbn))
  else
    din ← (if xint (di_addrs din !!! NDIRECT) =? 0 then
             b ← next_block;
             mret (din <| di_addrs ::= <[NDIRECT := xint b]> |>)
           else mret din);
    let o := (4 * (Z.to_nat fbn - NDIRECT))%nat in
    indirect ← rsect (xint (di_addrs din !!! NDIRECT));
    indirect ← (if get32 indirect o =? 0 then
                  b ← next_block;
                  let indirect := put32 indirect o (xint b) in
                  wsect (xint (di_addrs din !!! NDIRECT)) indirect;;
                  mret indirect
                else mret indirect);
    mret (din, xint (get32 indirect o)).

(** One round of [while(n > 0)]; [p] is what is left to append. *)
Definition iappend_round (x : dinode * Z * list Z) : I (dinode * Z * list Z + dinode * Z) :=
  let '(din, off, p) := x in
  if Z.of_nat (length p) <=? 0 then mret (inr (din, off)) else
  let fbn := off / BSIZE in
  assert (fbn <? MAXFILE);;
  '(din, x) ← iappend_block din fbn;
  let n1 := Z.min (Z.of_nat (length p)) (u32 ((fbn + 1) * BSIZE - off)) in
  buf ← rsect x;
  wsect x (splice buf (Z.to_nat (off - fbn * BSIZE)) (take (Z.to_nat n1) p));;
  mret (inl (din, u32 (off + n1), drop (Z.to_nat n1) p)).

Definition iappend (inum : Z) (xp : list Z) : I unit :=
  din ← rinode inum;
  '(din, off) ← loop (S (length xp)) iappend_round (din, xint (di_size din), xp);
  winode inum (din <| di_size := xint off |>).

(** ** The program *)

(** A directory entry. *)
Definition dirent_bytes (inum : Z) (name : list Z) : list Z :=
  le_bytes 2 (xshort inum) ++ strncpy (replicate 14 0) name DIRSIZ.

Section main.
(** The host: whether the image can be created, and what successive [read]s of up
    to [BSIZE] bytes of an input file return before the 0 at its end; [None] when
    the file cannot be opened. *)
Context (host_create : list Z → bool) (host_file : list Z → option (list (list Z))).

(** [shortname] *)
Definition short_name (arg : list Z) : list Z :=
  if bool_decide (take 5 arg = bytes_of "user/") then drop 5 arg else arg.
Definition skip_underscore (name : list Z) : list Z :=
  match name with c :: name' => if c =? ch "_" then name' else name | [] => [] end.

Definition add_file (rootino : Z) (arg : list Z) : I unit :=
  let shortname := short_name arg in
  assert (bool_decide (ch "/" ∉ shortname));;
  match host_file arg with
  | None => die "open"
  | Some chunks =>
      let shortname := skip_underscore shortname in
      assert (Z.of_nat (length shortname) <=? DIRSIZ);;
      inum ← ialloc T_FILE;
      iappend rootino (dirent_bytes inum shortname);;
      foldr (λ buf k, iappend inum buf;; k) (mret ()) chunks
  end.

(** [argv] without the name of the program. *)
Definition mkfs_main (argv : list (list Z)) : I unit :=
  match argv with
  | [] => panic "Usage: mkfs fs.img files..."
  | img :: args =>
      assert (BSIZE mod sizeof_dinode =? 0);;
      assert (BSIZE mod sizeof_dirent =? 0);;
      (if host_create img then mret () else die "open");;
      modify (λ i, i <| freeblock := nmeta |>);;
      for_each (Z.to_nat FSSIZE) 0 (λ i, wsect (Z.of_nat i) zeroes);;
      wsect 1 (splice zeroes 0 (superblock_bytes mkfs_sb));;
      rootino ← ialloc T_DIR;
      assert (rootino =? ROOTINO);;
      iappend rootino (dirent_bytes rootino (bytes_of "."));;
      iappend rootino (dirent_bytes rootino (bytes_of ".."));;
      foldr (λ arg k, add_file rootino arg;; k) (mret ()) args;;
      din ← rinode rootino;
      let off := xint (di_size din) in
      let off := u32 ((off / BSIZE + 1) * BSIZE) in
      winode rootino (din <| di_size := xint off |>);;
      fb ← gets freeblock;
      balloc fb
  end.

End main.

(** The state in which the program starts. *)
Definition image0 : image := mk_image [] 1 0.
