(* ===== verification/MkfsSpec.v ===== *)
(** The image that mkfs.c builds: a file system in the format of DiskFormat.v with
    the files it was given. *)

From S2P Require Export DiskFormat Mkfs.

(** The blocks of the image. *)
Definition vw (im : image) (b : Z) : list Z := im_blocks im !!! Z.to_nat b.

(** An inode, its data blocks and the contents of the file. *)
Notation mfile := (dinode * list Z * list Z)%type.

Definition mowned (f : mfile) : list Z := owned f.1.1 f.1.2.
Definition all_owned (fs : list mfile) : list Z := fs ≫= mowned.

Record mfile_ok (v : Z → list Z) (f : mfile) : Prop := {
  mf_dinode : dinode_ok f.1.1;
  mf_rep : file_rep v f.1.1 f.1.2 f.2;
  (** the rest of the last block is zero *)
  mf_tail : ∀ i b, (length f.2 <= i)%nat → f.1.2 !! (i / 1024)%nat = Some b → v b !! (i mod 1024)%nat = Some 0;
}.

(** Everything but the inodes on the disk. *)
Record img_core (im : image) (fs : list mfile) : Prop := {
  ic_len : length (im_blocks im) = 2000%nat;
  ic_blk : Forall (λ b, length b = 1024%nat) (im_blocks im);
  ic_fi : freeinode im = 1 + Z.of_nat (length fs);
  ic_fb : freeblock im = 47 + Z.of_nat (length (all_owned fs)) ∧ freeblock im <= 2000;
  ic_nodup : NoDup (all_owned fs);
  ic_own : Forall (λ b, 47 <= b < freeblock im) (all_owned fs);
  ic_zero : ∀ b, freeblock im <= b < 2000 → vw im b = zeroes;
  ic_files : Forall (mfile_ok (vw im)) fs;
}.

Lemma vw_len im fs b : img_core im fs → 0 <= b < 2000 → length (vw im b) = 1024%nat.
Proof.
  intros H Hb. assert (is_Some (im_blocks im !! Z.to_nat b)) as [x Hx] by (apply lookup_lt_is_Some; rewrite (ic_len _ _ H); lia).
  unfold vw. rewrite (list_lookup_total_correct _ _ _ Hx). by eapply (Forall_lookup_1 _ _ _ _ (ic_blk _ _ H)).
Qed.

(** ** Sectors *)

Lemma sector_small sec : 0 <= sec < 2000 → sector sec = Z.to_nat sec.
Proof. intros. unfold sector. change BSIZE with 1024. rewrite u32_small by lia. by rewrite Z.div_mul. Qed.

Definition with_block (im : image) (sec : Z) (buf : list Z) : image := im <| im_blocks ::= <[Z.to_nat sec := buf]> |>.

Lemma wsect_ok im sec buf e :
  length (im_blocks im) = 2000%nat → 0 <= sec < 2000 → wsect sec buf im e = Ok tt (with_block im sec buf) e.
Proof.
  intros Hl Hs. destruct im as [bl fi fb]. unfold wsect, modify, with_block, set. cbn [im_blocks freeinode freeblock] in *.
  rewrite sector_small, Hl by done. replace (S (Z.to_nat sec) - 2000)%nat with 0%nat by lia. by rewrite app_nil_r.
Qed.

Lemma rsect_ok im sec e :
  length (im_blocks im) = 2000%nat → 0 <= sec < 2000 → rsect sec im e = Ok (vw im sec) im e.
Proof.
  intros Hl Hs. unfold rsect. rewrite bind_gets, sector_small by done.
  destruct (lookup_lt_is_Some_2 (im_blocks im) (Z.to_nat sec)) as [x Hx]; [lia|]. rewrite Hx. unfold vw.
  by rewrite (list_lookup_total_correct _ _ _ Hx).
Qed.

Lemma vw_with_block im sec buf b :
  length (im_blocks im) = 2000%nat → 0 <= sec < 2000 → 0 <= b < 2000 →
  vw (with_block im sec buf) b = if decide (b = sec) then buf else vw im b.
Proof.
  intros Hl Hs Hb. unfold vw, with_block, set. simpl. case_decide as E.
  - subst. apply list_lookup_total_insert_eq. lia.
  - apply list_lookup_total_insert_ne. lia.
Qed.

Lemma with_block_len im sec buf : length (im_blocks (with_block im sec buf)) = length (im_blocks im).
Proof. apply length_insert. Qed.

Lemma with_block_blk im sec buf :
  Forall (λ b, length b = 1024%nat) (im_blocks im) → length buf = 1024%nat →
  Forall (λ b, length b = 1024%nat) (im_blocks (with_block im sec buf)).
Proof. intros. by apply Forall_insert. Qed.

(** ** Changing one file *)

Lemma all_owned_app l1 l2 : all_owned (l1 ++ l2) = all_owned l1 ++ all_owned l2.
Proof. apply bind_app. Qed.

Lemma elem_all_owned b fs : b ∈ all_owned fs ↔ ∃ f, f ∈ fs ∧ b ∈ mowned f.
Proof. unfold all_owned. rewrite list_elem_of_bind. naive_solver. Qed.

(** A file [f] becomes [f'], with the blocks [new] at [freeblock] added, and only
    blocks of [f'] change. *)
Lemma core_step im im' L f f' R new :
  img_core im (L ++ f :: R) → freeinode im' = freeinode im →
  mowned f' ≡ₚ new ++ mowned f → new = seqZ (freeblock im) (Z.of_nat (length new)) →
  freeblock im' = freeblock im + Z.of_nat (length new) → freeblock im' <= 2000 →
  length (im_blocks im') = 2000%nat → Forall (λ b, length b = 1024%nat) (im_blocks im') →
  (∀ b, 0 <= b < 2000 → b ∉ mowned f' → vw im' b = vw im b) → mfile_ok (vw im') f' →
  img_core im' (L ++ f' :: R).
Proof.
  intros [H1 H2 H3 [H4 H4'] H5 H6 H7 H8] Efi Eo En Efb Hfb Hl Hb Hv Hf.
  assert (all_owned (L ++ f' :: R) ≡ₚ new ++ all_owned (L ++ f :: R)) as Ea.
  { rewrite !all_owned_app. cbn [all_owned mbind list_bind]. rewrite Eo. solve_Permutation. }
  assert (∀ b, b ∈ new → freeblock im <= b < freeblock im') as Hnew.
  { intros b Hin. rewrite En, elem_of_seqZ in Hin. lia. }
  assert (∀ g, g ∈ L ++ R → ∀ b, b ∈ mowned g → b ∉ mowned f' ∧ 0 <= b < 2000) as Hd.
  { intros g Hg b Hin. rewrite Forall_forall in H6. assert (b ∈ all_owned (L ++ f :: R)) as Hall.
    { apply elem_all_owned. exists g. split; [|done]. rewrite elem_of_app, elem_of_cons. apply elem_of_app in Hg. naive_solver. }
    pose proof (H6 b Hall). split; [|lia]. rewrite Eo, elem_of_app. intros [Hn|Hn]; [apply Hnew in Hn; lia|].
    revert H5. rewrite all_owned_app. cbn [all_owned mbind list_bind]. rewrite !NoDup_app. intros (_ & D1 & _ & D2 & _).
    apply elem_of_app in Hg as [Hg|Hg].
    - apply (D1 b); [apply elem_all_owned; eauto|]. apply elem_of_app. by left.
    - apply (D2 b Hn). apply elem_all_owned. eauto. }
  split; try done.
  - rewrite Efi, H3, !length_app. done.
  - rewrite Efb, H4, Ea, length_app. lia.
  - rewrite Ea, NoDup_app. split; [rewrite En; apply NoDup_seqZ|]. split; [|done]. intros b Hin Hin2. apply Hnew in Hin.
    rewrite Forall_forall in H6. apply H6 in Hin2. lia.
  - rewrite Ea, Forall_app. split; [apply Forall_forall; intros b Hin; apply Hnew in Hin; lia|].
    eapply Forall_impl; [exact H6|]. simpl. lia.
  - intros b Hb'. rewrite Hv; [apply H7; lia|lia|]. rewrite Eo, elem_of_app. intros [Hn|Hn]; [apply Hnew in Hn; lia|].
    rewrite Forall_forall in H6. assert (b ∈ all_owned (L ++ f :: R)) as Hall%H6; [|lia].
    apply elem_all_owned. exists f. split; [|done]. apply elem_of_app. right. by left.
  - apply Forall_app in H8 as [H8 [_ H9]%Forall_cons].
    assert (∀ l, Forall (mfile_ok (vw im)) l → (∀ g, g ∈ l → g ∈ L ++ R) → Forall (mfile_ok (vw im')) l) as Hk.
    { intros l Hl8 Hsub. apply Forall_forall. intros g Hg. rewrite Forall_forall in Hl8. destruct (Hl8 g Hg) as [M1 M2 M3].
      pose proof (Hd g (Hsub g Hg)) as Hdg. split; [done| |].
      - eapply file_rep_ext; [|exact M2]. intros b Hin. by apply Hv; apply Hdg.
      - intros i b Hi Hbi. rewrite Hv; [by apply M3|apply Hdg|apply Hdg]; apply elem_of_app; right; by eapply list_elem_of_lookup_2. }
    apply Forall_app. split; [|constructor; [done|]]; apply Hk; try done; intros g Hg; apply elem_of_app; auto.
Qed.

(** ** Allocating blocks *)

Lemma xint_eq x : xint x = u32 x.
Proof.
  unfold xint. rewrite !Z.shiftr_div_pow2 by lia. transitivity (le_val (le_bytes 4 x)); [|by rewrite le_val_bytes]. cbn [le_bytes]. unfold u8.
  rewrite !Z.div_div by lia. done.
Qed.

Lemma xint_small x : 0 <= x < 4294967296 → xint x = x.
Proof. rewrite xint_eq. apply u32_small. Qed.

Lemma xshort_small x : 0 <= x < 65536 → xshort x = x.
Proof.
  intros. unfold xshort. rewrite Z.shiftr_div_pow2 by lia. change [u8 x; u8 (x / 2 ^ 8)] with (le_bytes 2 x).
  rewrite le_val_bytes. by apply Z.mod_small.
Qed.

Lemma zeroes_get32 o : get32 zeroes o = 0.
Proof.
  unfold get32, zeroes. rewrite drop_replicate, take_replicate. generalize (4 `min` (Z.to_nat BSIZE - o))%nat.
  intros n. induction n as [|n IH]; [done|]. cbn [replicate le_val]. lia.
Qed.

Definition took_block (im : image) : image := im <| freeblock := freeblock im + 1 |>.

Lemma next_block_ok im e : 0 <= freeblock im < 2000 → next_block im e = Ok (freeblock im) (took_block im) e.
Proof.
  intros H. unfold next_block. rewrite bind_gets, bind_modify. unfold took_block. by rewrite u32_small by lia.
Qed.

(** A new data block [b], whose address is stored in the inode or in the indirect
    block. *)
Definition add_addr (d : dinode) (k : nat) (b : Z) : dinode := d <| di_addrs ::= <[k := b]> |>.

Lemma add_addr_ok d k b : dinode_ok d → 0 <= b < 2000 → dinode_ok (add_addr d k b).
Proof.
  intros [H1 H2 H3 H4 H5 H6 H7] Hb. split; try done; simpl; [by rewrite length_insert|]. apply Forall_insert; [done|lia].
Qed.

Lemma add_addr_lookup d k b i :
  dinode_ok d → (k <= 12)%nat → di_addrs (add_addr d k b) !!! i = if decide (i = k) then b else di_addrs d !!! i.
Proof.
  intros Hd Hk. simpl. case_decide as E; [subst; apply list_lookup_total_insert_eq; rewrite (do_len _ Hd); unfold NDIRECT; lia|].
  apply list_lookup_total_insert_ne. lia.
Qed.

Section alloc.
Context (im : image) (L R : list mfile) (d : dinode) (bs c : list Z).
Context (Hc : img_core im (L ++ (d, bs, c) :: R)) (Hfb : freeblock im < 2000).

Lemma file_ok : mfile_ok (vw im) (d, bs, c).
Proof. destruct Hc as [_ _ _ _ _ _ _ H]. by apply Forall_app in H as [_ [H _]%Forall_cons]. Qed.

Lemma free_range : 47 <= freeblock im < 2000.
Proof. destruct (ic_fb _ _ Hc) as [H _]. lia. Qed.

Lemma owned_range b : b ∈ owned d bs → 47 <= b < freeblock im.
Proof.
  intros Hin. destruct Hc as [_ _ _ _ _ H _ _]. rewrite Forall_forall in H. apply H, elem_all_owned.
  exists (d, bs, c). split; [|done]. apply elem_of_app. right. by left.
Qed.

Lemma alloc_core d' bs' :
  owned d' bs' ≡ₚ [freeblock im] ++ owned d bs → mfile_ok (vw im) (d', bs', c) →
  img_core (took_block im) (L ++ (d', bs', c) :: R).
Proof.
  intros Eo Hf. pose proof free_range. eapply (core_step im _ L (d, bs, c) (d', bs', c) R [freeblock im]); try done.
  - simpl. lia.
  - apply Hc.
  - apply Hc.
Qed.

(** The data blocks are followed by a new one, whose contents are zero. *)
Lemma tail_snoc v b :
  v b = zeroes → mfile_ok v (d, bs, c) →
  (∀ i x, c !! i = Some x → ∃ b', (bs ++ [b]) !! (i / 1024)%nat = Some b' ∧ v b' !! (i mod 1024)%nat = Some x) ∧
  (∀ i b', (length c <= i)%nat → (bs ++ [b]) !! (i / 1024)%nat = Some b' → v b' !! (i mod 1024)%nat = Some 0).
Proof.
  intros Hz [_ M2 M3]. split.
  - intros i x Hi. destruct (fr_content _ _ _ _ M2 i x Hi) as (b' & Hb & Hx). exists b'. split; [|done].
    apply lookup_app_l_Some. exact Hb.
  - intros i b' Hi [Hb|[_ Hb]]%lookup_app_Some; [by apply (M3 i b')|].
    apply list_lookup_singleton_Some in Hb as [_ <-]. rewrite Hz. unfold zeroes. apply lookup_replicate_2.
    change (Z.to_nat BSIZE) with 1024%nat. apply Nat.mod_upper_bound. lia.
Qed.

Lemma alloc_direct k :
  length bs = k → (k < 12)%nat → di_addrs d !!! 12%nat = 0 →
  img_core (took_block im) (L ++ (add_addr d k (freeblock im), bs ++ [freeblock im], c) :: R).
Proof.
  intros Hk Hk12 Hi. pose proof free_range as Hr. pose proof file_ok as Hf. pose proof Hf as [M1 M2 M3]. pose proof M2 as [F1 F2 F3 F4 F5 F6 F7 F8].
  simpl in *. apply alloc_core.
  - unfold owned, NDIRECT. rewrite add_addr_lookup, decide_False, Hi by (done || lia). simpl. solve_Permutation.
  - destruct (tail_snoc (vw im) (freeblock im)) as [T1 T2]; [apply Hc; lia|done|].
    split; [apply add_addr_ok; [done|lia]| |exact T2]. unfold NDIRECT in *. simpl.
    split; unfold NDIRECT; rewrite ?add_addr_lookup, ?decide_False, ?Hi by (done || lia); try done; try lia.
    + rewrite length_app. simpl. change (Z.to_nat MAXFILE) with 268%nat. lia.
    + apply Forall_app. split; [done|]. constructor; [lia|constructor].
    + intros k' Hk'. rewrite add_addr_lookup by (done || lia). case_decide as E.
      * subst. by rewrite lookup_app_r, Nat.sub_diag by lia.
      * rewrite F4 by done. destruct (decide (k' < length bs)%nat); [by rewrite lookup_app_l|].
        rewrite !lookup_ge_None_2; [done|rewrite length_app; simpl; lia|lia].
    + rewrite length_app. simpl. lia.
Qed.

Lemma alloc_ind :
  (length bs <= 12)%nat → di_addrs d !!! 12%nat = 0 →
  img_core (took_block im) (L ++ (add_addr d 12 (freeblock im), bs, c) :: R).
Proof.
  intros Hk Hi. pose proof free_range as Hr. pose proof file_ok as Hf. pose proof Hf as [M1 M2 M3]. pose proof M2 as [F1 F2 F3 F4 F5 F6 F7 F8].
  simpl in *. apply alloc_core.
  - unfold owned, NDIRECT. rewrite add_addr_lookup, decide_True, Hi, (proj2 (Z.eqb_neq _ _)) by (done || lia). done.
  - split; [apply add_addr_ok; [done|lia]| |exact M3]. unfold NDIRECT in *. simpl.
    split; unfold NDIRECT; rewrite ?add_addr_lookup, ?decide_True by (done || lia); try done; try lia.
    + intros k' Hk'. rewrite add_addr_lookup, decide_False by (done || lia). by apply F4.
    + intros _ j Hj. rewrite (ic_zero _ _ Hc) by lia. rewrite zeroes_get32, lookup_ge_None_2; [done|lia].
Qed.

(** The image with the address of a new block in the indirect block [ind]. *)
Definition entry_im (ind : Z) (j : nat) : image :=
  with_block (took_block im) ind (put32 (vw im ind) (4 * j) (freeblock im)).

Lemma alloc_entry ind j :
  di_addrs d !!! 12%nat = ind → ind ≠ 0 → length bs = (12 + j)%nat → (j < 256)%nat →
  img_core (entry_im ind j) (L ++ (d, bs ++ [freeblock im], c) :: R).
Proof.
  intros Hi Hnz Hk Hj. pose proof free_range as Hr. pose proof file_ok as Hf. pose proof Hf as [M1 M2 M3].
  pose proof M2 as [F1 F2 F3 F4 F5 F6 F7 F8]. cbn [fst snd] in *. unfold NDIRECT in *. set (b := freeblock im) in *.
  assert (owned d bs = ind :: bs) as Eo by (unfold owned, NDIRECT; rewrite Hi, (proj2 (Z.eqb_neq _ _) Hnz); done).
  assert (47 <= ind < b) as Hir by (apply owned_range; rewrite Eo; by left).
  assert (ind ∉ bs) as Hnin.
  { pose proof (ic_nodup _ _ Hc) as Hnd. rewrite all_owned_app in Hnd. apply NoDup_app in Hnd as (_ & _ & Hnd).
    cbn [all_owned mbind list_bind] in Hnd. apply NoDup_app in Hnd as (Hnd & _ & _). unfold mowned in Hnd. simpl in Hnd.
    rewrite Eo in Hnd. by apply NoDup_cons in Hnd as [? _]. }
  assert (length (im_blocks (took_block im)) = 2000%nat) as Hl by apply Hc.
  assert (∀ x, 0 <= x < 2000 → x ≠ ind → vw (entry_im ind j) x = vw im x) as Hvne.
  { intros x Hx Hne. unfold entry_im. rewrite vw_with_block, decide_False by (done || lia). done. }
  assert (vw (entry_im ind j) ind = put32 (vw im ind) (4 * j) b) as Hve.
  { unfold entry_im. rewrite vw_with_block, decide_True by (done || lia). done. }
  pose proof (vw_len im _ ind Hc ltac:(lia)) as Hil.
  assert (∀ k b', (bs ++ [b]) !! k = Some b' → vw (entry_im ind j) b' = vw im b') as Hvd.
  { intros k b' [Hb|[_ Hb]]%lookup_app_Some.
    - apply list_elem_of_lookup_2 in Hb. assert (47 <= b' < b) by (apply owned_range; rewrite Eo; by right).
      apply Hvne; [lia|]. by intros ->.
    - apply list_lookup_singleton_Some in Hb as [_ <-]. apply Hvne; lia. }
  eapply (core_step im _ L (d, bs, c) (d, bs ++ [b], c) R [b]); try done; try (simpl; fold b; lia).
  - unfold mowned, owned, NDIRECT. simpl. rewrite Hi, (proj2 (Z.eqb_neq _ _) Hnz). solve_Permutation.
  - unfold entry_im. by rewrite with_block_len.
  - apply with_block_blk; [apply Hc|]. rewrite length_put32 by lia. done.
  - intros x Hx Hin. apply Hvne; [done|]. intros ->. apply Hin. unfold mowned, owned, NDIRECT. simpl.
    rewrite Hi, (proj2 (Z.eqb_neq _ _) Hnz). by left.
  - destruct (tail_snoc (vw im) b) as [T1 T2]; [apply Hc; fold b; lia|done|]. split; [done| |].
    + simpl. split; unfold NDIRECT; rewrite ?Hi; try done.
      * rewrite length_app. simpl. change (Z.to_nat MAXFILE) with 268%nat. lia.
      * apply Forall_app. split; [done|]. constructor; [lia|constructor].
      * intros k' Hk'. rewrite F4, lookup_app_l by lia. done.
      * by rewrite <- Hi.
      * intros _ j' Hj'. change (Z.to_nat NINDIRECT) with 256%nat in *. rewrite Hve. destruct (decide (j' = j)) as [->|N].
        -- rewrite get32_put32_eq, u32_small by lia. rewrite lookup_app_r by lia. by replace (12 + j - length bs)%nat with 0%nat by lia.
        -- rewrite get32_put32_ne by lia. rewrite <- Hi, F7 by (rewrite ?Hi; lia).
           destruct (decide (j' < j)%nat); [by rewrite lookup_app_l by lia|].
           rewrite !lookup_ge_None_2; [done|rewrite length_app; simpl; lia|lia].
      * intros i x Hx. destruct (T1 i x Hx) as (b' & Hb & Hy). exists b'. split; [done|]. by rewrite (Hvd _ _ Hb).
    + simpl. intros i b' Hi' Hb. rewrite (Hvd _ _ Hb). by apply T2.
Qed.

End alloc.

(** ** iappend *)

(** The blocks that a file of [n] data blocks takes. *)
Definition blocks_for (n : nat) : nat := n + (if (12 <? n)%nat then 1 else 0).

Lemma blocks_for_lt n m : (n < m)%nat → (blocks_for n < blocks_for m)%nat.
Proof. intros. unfold blocks_for. destruct (Nat.ltb_spec 12 n), (Nat.ltb_spec 12 m); lia. Qed.

(** There is an indirect block if it is needed. *)
Definition exact_ind (d : dinode) (bs : list Z) : Prop := di_addrs d !!! 12%nat = 0 ↔ (length bs <= 12)%nat.

Lemma length_owned d bs : exact_ind d bs → length (owned d bs) = blocks_for (length bs).
Proof.
  unfold exact_ind, owned, blocks_for, NDIRECT. intros H. rewrite length_app.
  destruct (Z.eqb_spec (di_addrs d !!! 12%nat) 0) as [E|E]; destruct (Nat.ltb_spec 12 (length bs)); simpl; lia.
Qed.

Lemma length_all_owned L f R :
  length (all_owned (L ++ f :: R)) = (length (all_owned (L ++ R)) + length (mowned f))%nat.
Proof. rewrite !all_owned_app. cbn [all_owned mbind list_bind]. rewrite !length_app. unfold all_owned. lia. Qed.

Lemma free_space im L R d bs c n :
  img_core im (L ++ (d, bs, c) :: R) → (47 + length (all_owned (L ++ R)) + n <= 2000)%nat →
  (length (owned d bs) < n)%nat → freeblock im < 2000.
Proof.
  intros Hc Hn Ho. destruct (ic_fb _ _ Hc) as [-> _]. rewrite length_all_owned. unfold mowned. cbn [fst snd]. lia.
Qed.

(** The parts of an inode that [iappend] keeps. *)
Definition same_meta (d d' : dinode) : Prop :=
  di_type d' = di_type d ∧ di_major d' = di_major d ∧ di_minor d' = di_minor d ∧ di_nlink d' = di_nlink d.

Definition same_low (im im' : image) : Prop := ∀ b, 0 <= b < 47 → vw im' b = vw im b.

Definition block_post (im : image) L R (d : dinode) (bs c : list Z) (k : nat) e (o : outcome image (dinode * Z)) : Prop :=
  ∃ im' d' bs' x, o = Ok (d', x) im' e ∧ img_core im' (L ++ (d', bs', c) :: R) ∧ exact_ind d' bs' ∧ bs' !! k = Some x ∧
    length bs' = (length bs `max` S k)%nat ∧ same_meta d d' ∧ same_low im im'.

Section block.
Context (L R : list mfile) (c : list Z).

Lemma direct_ok im d bs k e :
  img_core im (L ++ (d, bs, c) :: R) → exact_ind d bs → (k < 12)%nat → (k <= length bs)%nat →
  (47 + length (all_owned (L ++ R)) + blocks_for (S k) <= 2000)%nat →
  block_post im L R d bs c k e (iappend_block d (Z.of_nat k) im e).
Proof.
  intros Hc Hx Hk Hle Hsp. pose proof (file_ok im L R d bs c Hc) as [M1 M2 M3]. cbn [fst snd] in *.
  unfold iappend_block, NDIRECT. rewrite (proj2 (Z.ltb_lt _ _)) by lia. rewrite Nat2Z.id, (fr_direct _ _ _ _ M2) by done.
  destruct (decide (k < length bs)%nat) as [Hlt|Hge].
  - destruct (lookup_lt_is_Some_2 bs k Hlt) as [b Hb]. pose proof (Forall_lookup_1 _ _ _ _ (fr_bs _ _ _ _ M2) Hb) as Hr. simpl in Hr.
    rewrite Hb. change (default 0 (Some b)) with b. rewrite xint_small, (proj2 (Z.eqb_neq _ _)), bind_ret by lia.
    rewrite (fr_direct _ _ _ _ M2), Hb by done. change (default 0 (Some b)) with b. rewrite xint_small by lia.
    exists im, d, bs, b. split_and!; try done. lia.
  - assert (length bs = k) as Hk' by lia. rewrite lookup_ge_None_2 by lia. change (xint (default 0 None) =? 0) with true. cbv iota.
    assert (freeblock im < 2000) as Hfb.
    { apply (free_space im L R d bs c (blocks_for (S k))); [done..|]. rewrite length_owned by done.
      apply blocks_for_lt. lia. }
    pose proof (free_range _ _ _ _ _ _ Hc Hfb) as Hr. rewrite bind_assoc. erewrite bind_Ok by (apply next_block_ok; lia).
    rewrite bind_ret, (xint_small (freeblock im)) by lia. fold (add_addr d k (freeblock im)).
    rewrite add_addr_lookup, decide_True, xint_small by (done || lia).
    assert (di_addrs d !!! 12%nat = 0) as Hi by (apply Hx; lia).
    exists (took_block im), (add_addr d k (freeblock im)), (bs ++ [freeblock im]), (freeblock im).
    split; [done|]. split; [by apply alloc_direct|].
    split; [unfold exact_ind; rewrite add_addr_lookup, decide_False, Hi, length_app by (done || lia); simpl; lia|].
    split; [by rewrite lookup_app_r, <- Hk', Nat.sub_diag by lia|]. rewrite length_app. simpl. split_and!; try done. lia.
Qed.

(** The second half of the indirect case. *)
Definition get_entry (d : dinode) (o : nat) : I (dinode * Z) :=
  indirect ← rsect (xint (di_addrs d !!! NDIRECT));
  indirect ← (if get32 indirect o =? 0 then
                b ← next_block;
                let indirect := put32 indirect o (xint b) in
                wsect (xint (di_addrs d !!! NDIRECT)) indirect;;
                mret indirect
              else mret indirect);
  mret (d, xint (get32 indirect o)).

Lemma entry_ok im d bs j e :
  img_core im (L ++ (d, bs, c) :: R) → di_addrs d !!! 12%nat ≠ 0 → (j < 256)%nat → (12 + j <= length bs)%nat →
  (47 + length (all_owned (L ++ R)) + blocks_for (13 + j) <= 2000)%nat →
  block_post im L R d bs c (12 + j) e (get_entry d (4 * j) im e).
Proof.
  intros Hc Hi Hj Hle Hsp. pose proof (file_ok im L R d bs c Hc) as [M1 M2 M3]. cbn [fst snd] in *.
  set (ind := di_addrs d !!! 12%nat) in *.
  assert (owned d bs = ind :: bs) as Eo by (unfold owned, NDIRECT; fold ind; by rewrite (proj2 (Z.eqb_neq _ _) Hi)).
  assert (freeblock im <= 2000) as Hfb0 by apply (ic_fb _ _ Hc).
  assert (47 <= ind < freeblock im) as Hir by (apply (owned_range im L R d bs c Hc); rewrite Eo; by left).
  pose proof (fr_indirect _ _ _ _ M2 Hi j Hj) as Eg. unfold NDIRECT in Eg. fold ind in Eg.
  unfold get_entry, NDIRECT. fold ind. rewrite xint_small by lia. erewrite bind_Ok by (apply rsect_ok; [apply Hc|lia]).
  rewrite Eg. destruct (decide (12 + j < length bs)%nat) as [Hlt|Hge].
  - destruct (lookup_lt_is_Some_2 bs (12 + j)%nat Hlt) as [b Hb].
    pose proof (Forall_lookup_1 _ _ _ _ (fr_bs _ _ _ _ M2) Hb) as Hr. cbv beta in Hr. rewrite Hb in *.
    change (default 0 (Some b)) with b in *. rewrite (proj2 (Z.eqb_neq _ _)), bind_ret, Eg, xint_small by lia.
    exists im, d, bs, b. split_and!; try done; [|lia]. unfold exact_ind. fold ind. lia.
  - assert (length bs = (12 + j)%nat) as Hk by lia. rewrite lookup_ge_None_2 by lia. change (default 0 None =? 0) with true. cbv iota.
    assert (freeblock im < 2000) as Hfb.
    { apply (free_space im L R d bs c (blocks_for (13 + j))); [done..|]. rewrite Eo. unfold blocks_for. cbn [length].
      rewrite (proj2 (Nat.ltb_lt _ _)) by lia. lia. }
    pose proof (vw_len im _ ind Hc ltac:(lia)) as Hil.
    rewrite bind_assoc. erewrite bind_Ok by (apply next_block_ok; lia). cbv zeta. rewrite bind_assoc.
    erewrite bind_Ok by (apply wsect_ok; [apply Hc|lia]). rewrite bind_ret, (xint_small (freeblock im)) by lia.
    rewrite get32_put32_eq, u32_small, xint_small by lia.
    exists (entry_im im ind j), d, (bs ++ [freeblock im]), (freeblock im). split; [done|].
    split; [by apply alloc_entry|]. split; [unfold exact_ind; fold ind; rewrite length_app; simpl; lia|].
    split; [rewrite lookup_app_r by lia; by replace (12 + j - length bs)%nat with 0%nat by lia|].
    rewrite length_app. cbn [length]. split_and!; [lia|done..|]. intros b Hb. unfold entry_im.
    rewrite vw_with_block, decide_False by (done || lia || apply Hc). done.
Qed.

Lemma indirect_ok im d bs j e :
  img_core im (L ++ (d, bs, c) :: R) → exact_ind d bs → (j < 256)%nat → (12 + j <= length bs)%nat →
  (47 + length (all_owned (L ++ R)) + blocks_for (13 + j) <= 2000)%nat →
  block_post im L R d bs c (12 + j) e (iappend_block d (Z.of_nat (12 + j)) im e).
Proof.
  intros Hc Hx Hj Hle Hsp. pose proof (file_ok im L R d bs c Hc) as [M1 M2 M3]. cbn [fst snd] in *.
  pose proof (fr_ind _ _ _ _ M2) as Hir. unfold iappend_block, NDIRECT in *. rewrite (proj2 (Z.ltb_ge _ _)) by lia.
  rewrite Nat2Z.id. replace (4 * (12 + j - 12))%nat with (4 * j)%nat by lia. rewrite xint_small by lia.
  destruct (Z.eqb_spec (di_addrs d !!! 12%nat) 0) as [E|E].
  - assert (length bs = 12%nat ∧ j = 0%nat) as [Hl ->] by (apply Hx in E; lia).
    assert (freeblock im < 2000) as Hfb.
    { apply (free_space im L R d bs c (blocks_for 13)); [done..|]. rewrite length_owned by done. apply blocks_for_lt. lia. }
    pose proof (free_range _ _ _ _ _ _ Hc Hfb) as Hr. rewrite bind_assoc. erewrite bind_Ok by (apply next_block_ok; lia).
    rewrite bind_ret, (xint_small (freeblock im)) by lia. fold (add_addr d 12 (freeblock im)).
    pose proof (alloc_ind im L R d bs c Hc Hfb ltac:(lia) E) as Hc1.
    destruct (entry_ok (took_block im) (add_addr d 12 (freeblock im)) bs 0 e) as (im' & d' & bs' & x & E1 & P); try done; try lia.
    { rewrite add_addr_lookup, decide_True by (done || lia). lia. }
    exists im', d', bs', x. split; [exact E1|exact P].
  - rewrite bind_ret. by apply entry_ok.
Qed.

Lemma iappend_block_ok im d bs k e :
  img_core im (L ++ (d, bs, c) :: R) → exact_ind d bs → (k < 268)%nat → (k <= length bs)%nat →
  (47 + length (all_owned (L ++ R)) + blocks_for (S k) <= 2000)%nat →
  block_post im L R d bs c k e (iappend_block d (Z.of_nat k) im e).
Proof.
  intros. destruct (decide (k < 12)%nat); [by apply direct_ok|].
  replace k with (12 + (k - 12))%nat in * by lia. apply indirect_ok; (done || lia).
Qed.

End block.

(** The blocks of [n] bytes. *)
Definition nb (n : nat) : nat := ((n + 1023) / 1024)%nat.

(** In the loop of [iappend] the size in the inode is not up to date. *)
Definition sized (d : dinode) (c : list Z) : dinode := d <| di_size := Z.of_nat (length c) |>.

Lemma iappend_block_sized d c k im e :
  iappend_block (sized d c) k im e =
  match iappend_block d k im e with
  | Ok (d', x) im' e' => Ok (sized d' c, x) im' e'
  | Panic msg im' => Panic msg im'
  | Stuck im' => Stuck im'
  end.
Proof.
  unfold iappend_block. change (di_addrs (sized d c)) with (di_addrs d). destruct (k <? Z.of_nat NDIRECT).
  - destruct (xint _ =? 0); done.
  - destruct (xint (di_addrs d !!! NDIRECT) =? 0).
    + unfold rsect, mbind, M_bind. cbn [next_block]. unfold mbind, M_bind, gets, modify, mret, M_ret. simpl.
      destruct (_ !! _); [|done]. destruct (get32 _ _ =? 0); done.
    + unfold rsect, mbind, M_bind, gets, modify, mret, M_ret. simpl. destruct (_ !! _); [|done].
      destruct (get32 _ _ =? 0); done.
Qed.

(** The bytes of a file that grew at its end. *)
Lemma append_core im L R d bs c x chunk :
  img_core im (L ++ (d, bs, c) :: R) → bs !! (length c / 1024)%nat = Some x →
  (length c mod 1024 + length chunk <= 1024)%nat → (length c + length chunk <= 268 * 1024)%nat →
  img_core (with_block im x (splice (vw im x) (length c mod 1024) chunk))
    (L ++ (sized d (c ++ chunk), bs, c ++ chunk) :: R).
Proof.
  intros Hc Hx Hch Hmax. pose proof (file_ok im L R d bs c Hc) as [M1 M2 M3]. cbn [fst snd] in *.
  pose proof M2 as [F1 F2 F3 F4 F5 F6 F7 F8]. assert (freeblock im <= 2000) as Hfb by apply (ic_fb _ _ Hc).
  assert (x ∈ owned d bs) as Hxo by (apply elem_of_app; right; by eapply list_elem_of_lookup_2).
  pose proof (owned_range im L R d bs c Hc x Hxo) as Hxr. pose proof (vw_len im _ x Hc ltac:(lia)) as Hxl.
  set (im' := with_block im x _). set (o := (length c mod 1024)%nat) in *.
  assert (∀ b, 0 <= b < 2000 → b ≠ x → vw im' b = vw im b) as Hne.
  { intros b Hb N. unfold im'. rewrite vw_with_block, decide_False by (done || lia || apply Hc). done. }
  assert (vw im' x = splice (vw im x) o chunk) as Hve.
  { unfold im'. rewrite vw_with_block, decide_True by (done || lia || apply Hc). done. }
  assert (NoDup (owned d bs)) as Hnd.
  { pose proof (ic_nodup _ _ Hc) as Hnd. rewrite all_owned_app in Hnd. apply NoDup_app in Hnd as (_ & _ & Hnd).
    cbn [all_owned mbind list_bind] in Hnd. by apply NoDup_app in Hnd as (Hnd & _ & _). }
  assert (∀ i b, bs !! i = Some b → b ≠ x ∧ vw im' b = vw im b ∨ b = x ∧ i = (length c / 1024)%nat) as Hbs.
  { intros i b Hb. destruct (decide (b = x)) as [->|N].
    - right. split; [done|]. apply NoDup_app in Hnd as (_ & _ & Hnd). by eapply NoDup_lookup.
    - left. split; [done|]. apply Hne; [|done]. assert (47 <= b < freeblock im); [|lia].
      apply (owned_range im L R d bs c Hc), elem_of_app. right. by eapply list_elem_of_lookup_2. }
  eapply (core_step im im' L (d, bs, c) _ R []); try done; try apply Hc.
  - cbn [length]. rewrite Z.add_0_r. done.
  - unfold im'. rewrite with_block_len. apply Hc.
  - apply with_block_blk; [apply Hc|]. rewrite length_splice; lia.
  - intros b Hb Hin. apply Hne; [done|]. intros ->. by apply Hin.
  - split; cbn [fst snd].
    + destruct M1 as [D1 D2 D3 D4 D5 D6 D7]. split; try done. simpl. rewrite length_app. lia.
    + split; try done.
      * intros N j Hj. rewrite <- (F7 N j Hj). change (di_addrs (sized d (c ++ chunk))) with (di_addrs d) in *. f_equal.
        unfold owned in Hnd. rewrite (proj2 (Z.eqb_neq _ _) N) in Hnd. apply NoDup_cons in Hnd as [Hnin _].
        apply Hne; [|intros Ex; apply Hnin; rewrite Ex; by eapply list_elem_of_lookup_2].
        assert (47 <= di_addrs d !!! NDIRECT < freeblock im); [|lia]. apply (owned_range im L R d bs c Hc).
        unfold owned. rewrite (proj2 (Z.eqb_neq _ _) N). by left.
      * intros i y [Hi|[Hi Hy]]%lookup_app_Some.
        -- destruct (F8 i y Hi) as (b & Hb & Hy). exists b. split; [done|].
           destruct (Hbs _ _ Hb) as [[_ ->]|[-> E]]; [done|]. apply lookup_lt_Some in Hi.
           rewrite Hve, lookup_splice, decide_False by (unfold o in *; ndlia). done.
        -- pose proof (lookup_lt_Some _ _ _ Hy) as Hlt. exists x.
           assert (i / 1024 = length c / 1024)%nat as E by (unfold o in *; ndlia). split; [by rewrite E|].
           rewrite Hve, lookup_splice, decide_True by (unfold o in *; ndlia).
           rewrite <- Hy. f_equal. unfold o in *. ndlia.
    + intros i b Hi Hb. rewrite length_app in Hi. assert (length c <= i)%nat as Hi' by lia. pose proof (M3 i b Hi' Hb) as Hz.
      destruct (Hbs _ _ Hb) as [[_ ->]|[-> E]]; [done|].
      rewrite Hve, lookup_splice, decide_False by (unfold o in *; ndlia). done.
Qed.

Lemma nb_le n m : (n <= m)%nat → (nb n <= nb m)%nat.
Proof. intros. unfold nb. ndlia. Qed.

(** The loop of [iappend]: the file with contents [c] is in the image, the inode
    has the data blocks [bs]. *)
Record appending (im0 im : image) (L R : list mfile) (d0 d : dinode) (bs c : list Z) : Prop := {
  ap_core : img_core im (L ++ (sized d c, bs, c) :: R);
  ap_exact : exact_ind d bs;
  ap_nb : length bs = nb (length c);
  ap_low : same_low im0 im;
  ap_meta : same_meta d0 d;
}.

Section append.
Context (L R : list mfile) (im0 : image) (d0 : dinode).

Lemma round_ok im d bs c p e :
  appending im0 im L R d0 d bs c → p ≠ [] → (length c + length p <= 268 * 1024)%nat →
  (47 + length (all_owned (L ++ R)) + blocks_for (nb (length c + length p)) <= 2000)%nat →
  ∃ im' d' bs' chunk rest, p = chunk ++ rest ∧ chunk ≠ [] ∧ appending im0 im' L R d0 d' bs' (c ++ chunk) ∧
    iappend_round (d, Z.of_nat (length c), p) im e = Ok (inl (d', Z.of_nat (length (c ++ chunk)), rest)) im' e.
Proof.
  intros [A1 A2 A3 A4 A5] Hp Hmax Hsp. set (k := (length c / 1024)%nat).
  assert (0 < length p)%nat as Hp0 by (destruct p; [done|simpl; lia]).
  assert (k < 268)%nat as Hk by (unfold k; ndlia). assert (k <= length bs)%nat as Hkb by (rewrite A3; unfold k, nb; ndlia).
  assert (blocks_for (S k) <= blocks_for (nb (length c + length p)))%nat as Hbf.
  { assert (S k <= nb (length c + length p))%nat as [H|H]%Nat.le_lteq by (unfold k, nb; ndlia);
      [pose proof (blocks_for_lt _ _ H); lia|by rewrite H]. }
  destruct (iappend_block_ok L R c im (sized d c) bs k e A1 A2 Hk Hkb ltac:(lia)) as (im1 & d1 & bs1 & x & Eb & B1 & B2 & B3 & B4 & B5 & B6).
  rewrite iappend_block_sized in Eb.
  destruct (iappend_block d (Z.of_nat k) im e) as [[d2 x2] im2 e2| |] eqn:E2; try discriminate Eb. injection Eb as <- -> -> ->.
  set (n1 := Nat.min (length p) (1024 - length c mod 1024)).
  pose proof (Nat.mod_upper_bound (length c) 1024 ltac:(lia)) as Hmod.
  assert (length (take n1 p) = n1) as Hn1 by (rewrite length_take; lia).
  pose proof (append_core im1 L R _ bs1 c x (take n1 p) B1 B3 ltac:(lia) ltac:(lia)) as Hc'.
  assert (47 <= x < 2000) as Hxr.
  { destruct (ic_fb _ _ B1) as [_ Hfb]. assert (47 <= x < freeblock im1); [|lia]. apply (owned_range im1 L R _ bs1 c B1), elem_of_app.
    right. by eapply list_elem_of_lookup_2. }
  eexists _, d2, bs1, (take n1 p), (drop n1 p). split; [by rewrite take_drop|]. split; [intros H; rewrite H in Hn1; simpl in Hn1; lia|].
  split.
  - split; [exact Hc'|exact B2| | |].
    + rewrite B4, A3, length_app, Hn1. unfold k, nb, n1. ndlia.
    + intros b Hb. rewrite vw_with_block, decide_False by (lia || apply B1). rewrite B6 by done. by apply A4.
    + destruct A5 as (T1 & T2 & T3 & T4), B5 as (U1 & U2 & U3 & U4).
      exact (conj (eq_trans U1 T1) (conj (eq_trans U2 T2) (conj (eq_trans U3 T3) (eq_trans U4 T4)))).
  - unfold iappend_round. rewrite (proj2 (Z.leb_gt _ _)) by lia.
    assert (Z.of_nat (length c) / BSIZE = Z.of_nat k) as -> by (unfold k; by rewrite Nat2Z.inj_div).
    rewrite (proj2 (Z.ltb_lt _ MAXFILE)) by (change MAXFILE with 268; lia). change (assert true) with (mret () : I unit).
    rewrite bind_ret. erewrite bind_Ok by exact E2. cbv iota beta zeta.
    assert (u32 ((Z.of_nat k + 1) * BSIZE - Z.of_nat (length c)) = 1024 - Z.of_nat (length c mod 1024)) as ->.
    { change BSIZE with 1024. rewrite u32_small; unfold k; ndlia. }
    assert (Z.min (Z.of_nat (length p)) (1024 - Z.of_nat (length c mod 1024)) = Z.of_nat n1) as -> by (unfold n1; lia).
    rewrite Nat2Z.id. erewrite bind_Ok by (apply rsect_ok; [apply B1|lia]).
    assert (Z.to_nat (Z.of_nat (length c) - Z.of_nat k * BSIZE) = (length c mod 1024)%nat) as -> by (change BSIZE with 1024; unfold k; ndlia).
    erewrite bind_Ok by (apply wsect_ok; [apply B1|lia]). rewrite length_app, Hn1, u32_small by lia. by rewrite Nat2Z.inj_add.
Qed.

Lemma append_loop fuel im d bs c p e :
  appending im0 im L R d0 d bs c → (length p < fuel)%nat → (length c + length p <= 268 * 1024)%nat →
  (47 + length (all_owned (L ++ R)) + blocks_for (nb (length c + length p)) <= 2000)%nat →
  ∃ im' d' bs', appending im0 im' L R d0 d' bs' (c ++ p) ∧
    loop fuel iappend_round (d, Z.of_nat (length c), p) im e = Ok (d', Z.of_nat (length (c ++ p))) im' e.
Proof.
  revert im d bs c p. induction fuel as [|fuel IH]; intros im d bs c p Ha Hf Hmax Hsp; [lia|]. destruct p as [|y p].
  { exists im, d, bs. rewrite app_nil_r. by split. }
  destruct (round_ok im d bs c (y :: p) e Ha ltac:(done) Hmax Hsp) as (im1 & d1 & bs1 & chunk & rest & E & Hne & Ha1 & Hr).
  assert (0 < length chunk)%nat by (destruct chunk; [done|simpl; lia]).
  rewrite E. rewrite E in Hr. rewrite E, length_app in Hf, Hmax, Hsp.
  destruct (IH im1 d1 bs1 (c ++ chunk) rest) as (im2 & d2 & bs2 & Ha2 & Hr2); [done|lia|rewrite length_app; lia|by rewrite length_app, <- (Nat.add_assoc (length c))|].
  exists im2, d2, bs2. rewrite <- app_assoc in Ha2. split; [done|]. cbn [loop]. erewrite bind_Ok by exact Hr.
  rewrite app_assoc. exact Hr2.
Qed.

End append.

(** ** Inodes on the disk *)

Definition ino (im : image) (inum : Z) : dinode := get_dinode (vw im (IBLOCK inum mkfs_sb)) inum.

Record img_ok (im : image) (fs : list mfile) : Prop := {
  io_core : img_core im fs;
  io_count : (length fs < 200)%nat;
  io_inodes : ∀ i f, fs !! i = Some f → ino im (Z.of_nat (S i)) = f.1.1;
  io_free : ∀ inum, Z.of_nat (length fs) < inum < 200 → di_type (ino im inum) = 0;
  io_exact : Forall (λ f : mfile, exact_ind f.1.1 f.1.2 ∧ length f.1.2 = nb (length f.2)) fs;
}.

Lemma iblock_eq inum : 0 <= inum < 208 → IBLOCK inum mkfs_sb = 33 + inum / 16 ∧ 33 <= IBLOCK inum mkfs_sb < 46.
Proof.
  intros. unfold IBLOCK. change (sb_inodestart mkfs_sb) with 33. change IPB with 16. rewrite u32_small; zlia.
Qed.

Lemma core_low im fs bn buf :
  img_core im fs → 0 <= bn < 47 → length buf = 1024%nat → img_core (with_block im bn buf) fs.
Proof.
  intros Hc Hb Hl. pose proof Hc as [H1 H2 H3 H4 H5 H6 H7 H8].
  assert (∀ b, 47 <= b < 2000 → vw (with_block im bn buf) b = vw im b) as E.
  { intros b Hr. rewrite vw_with_block, decide_False by lia. done. }
  split; try done.
  - by rewrite with_block_len.
  - by apply with_block_blk.
  - intros b Hr. change (freeblock (with_block im bn buf)) with (freeblock im) in Hr. rewrite E by lia. by apply H7.
  - rewrite Forall_forall in H8 |- *. intros f Hf. destruct (H8 f Hf) as [M1 M2 M3]. rewrite Forall_forall in H6.
    assert (∀ b, b ∈ mowned f → vw (with_block im bn buf) b = vw im b) as Ef.
    { intros b Hin. assert (b ∈ all_owned fs) as Hall%H6 by (apply elem_all_owned; eauto). apply E. lia. }
    split; [done|by eapply file_rep_ext|]. intros i b Hi Hbi. rewrite Ef; [by apply M3|].
    apply elem_of_app. right. by eapply list_elem_of_lookup_2.
Qed.

Definition with_inode (im : image) (inum : Z) (d : dinode) : image :=
  with_block im (IBLOCK inum mkfs_sb) (put_dinode (vw im (IBLOCK inum mkfs_sb)) inum d).

Lemma rinode_ok im inum e : length (im_blocks im) = 2000%nat → 0 <= inum < 208 → rinode inum im e = Ok (ino im inum) im e.
Proof.
  intros Hl Hi. destruct (iblock_eq inum Hi) as [_ Hb]. unfold rinode. cbv zeta.
  erewrite bind_Ok by (apply rsect_ok; [done|lia]). done.
Qed.

Lemma winode_ok im inum d e :
  length (im_blocks im) = 2000%nat → 0 <= inum < 208 → winode inum d im e = Ok tt (with_inode im inum d) e.
Proof.
  intros Hl Hi. destruct (iblock_eq inum Hi) as [_ Hb]. unfold winode. cbv zeta.
  erewrite bind_Ok by (apply rsect_ok; [done|lia]). apply wsect_ok; [done|lia].
Qed.

Lemma core_inode im fs inum d : img_core im fs → 0 <= inum < 208 → dinode_ok d → img_core (with_inode im inum d) fs.
Proof.
  intros Hc Hi Hd. destruct (iblock_eq inum Hi) as [_ Hb]. apply core_low; [done|lia|].
  apply length_put_dinode; [|done]. apply (vw_len im fs); [done|lia].
Qed.

Lemma ino_with_inode im fs inum d inum' :
  img_core im fs → 0 <= inum < 208 → 0 <= inum' < 208 → dinode_ok d →
  ino (with_inode im inum d) inum' = if decide (inum' = inum) then d else ino im inum'.
Proof.
  intros Hc Hi Hi' Hd. destruct (iblock_eq inum Hi) as [E1 Hb], (iblock_eq inum' Hi') as [E2 Hb'].
  pose proof (vw_len im fs (IBLOCK inum mkfs_sb) Hc ltac:(lia)) as Hl.
  unfold ino, with_inode. rewrite vw_with_block by (lia || apply Hc).
  destruct (decide (IBLOCK inum' mkfs_sb = IBLOCK inum mkfs_sb)) as [E|E].
  - rewrite E. case_decide as E3; [subst; by apply get_put_dinode|].
    apply get_put_dinode_ne; [done|done|]. change IPB with 16. zlia.
  - rewrite decide_False; [done|]. intros ->. by apply E.
Qed.

Lemma ino_low im im' inum : same_low im im' → 0 <= inum < 208 → ino im' inum = ino im inum.
Proof. intros H Hi. destruct (iblock_eq inum Hi) as [_ Hb]. unfold ino. rewrite H by lia. done. Qed.

(** The boot block, the super block, the log and the bitmap are the same. *)
Definition same_sys (im im' : image) : Prop := ∀ b, 0 <= b < 33 ∨ b = 46 → vw im' b = vw im b.

Lemma sized_id d c : di_size d = Z.of_nat (length c) → sized d c = d.
Proof. intros H. unfold sized, set. rewrite <- H. by destruct d. Qed.

Lemma with_inode_sys im inum d : length (im_blocks im) = 2000%nat → 0 <= inum < 208 → same_sys im (with_inode im inum d).
Proof.
  intros Hl Hi b Hb. destruct (iblock_eq inum Hi) as [_ H]. unfold with_inode. rewrite vw_with_block, decide_False by lia. done.
Qed.

(** A file of the image is replaced by one whose inode is written. *)
Lemma img_replace im im1 L f f' R d' :
  img_ok im (L ++ f :: R) → img_core im1 (L ++ f' :: R) → same_low im im1 → f'.1.1 = d' → dinode_ok d' →
  exact_ind d' f'.1.2 → length f'.1.2 = nb (length f'.2) →
  img_ok (with_inode im1 (Z.of_nat (S (length L))) d') (L ++ f' :: R).
Proof.
  intros [H1 H2 H3 H4 H5] Hc Hlow Ed Hd Hx Hn. rewrite length_app in H2. cbn [length] in H2.
  split.
  - apply core_inode; [done|lia|done].
  - rewrite length_app. cbn [length]. lia.
  - intros i g Hg. assert (i < length (L ++ f' :: R))%nat as Hi by (by eapply lookup_lt_Some). rewrite length_app in Hi. cbn [length] in Hi.
    rewrite (ino_with_inode im1 (L ++ f' :: R)) by (done || lia). case_decide as E.
    + assert (i = length L) as -> by lia. rewrite list_lookup_middle in Hg by done. by injection Hg as <-.
    + rewrite (ino_low im im1) by (done || lia). apply H3. rewrite <- Hg.
      assert (i ≠ length L) by lia. destruct (decide (i < length L)%nat).
      * by rewrite !lookup_app_l by lia.
      * rewrite !lookup_app_r by lia. by destruct (i - length L)%nat eqn:Ei; [lia|].
  - intros inum Hi. rewrite length_app in Hi. cbn [length] in Hi. rewrite (ino_with_inode im1 (L ++ f' :: R)) by (done || lia).
    rewrite decide_False by lia. rewrite (ino_low im im1) by (done || lia). apply H4. rewrite length_app. cbn [length]. lia.
  - apply Forall_app in H5 as [H5 [_ H6]%Forall_cons]. apply Forall_app. split; [done|]. constructor; [|done]. by rewrite Ed.
Qed.

Lemma iappend_ok im L d bs c R xp e :
  img_ok im (L ++ (d, bs, c) :: R) → (length c + length xp <= 268 * 1024)%nat →
  (47 + length (all_owned (L ++ R)) + blocks_for (nb (length c + length xp)) <= 2000)%nat →
  ∃ im' d' bs', iappend (Z.of_nat (S (length L))) xp im e = Ok tt im' e ∧ img_ok im' (L ++ (d', bs', c ++ xp) :: R) ∧
    same_meta d d' ∧ same_sys im im'.
Proof.
  intros Hok Hmax Hsp. pose proof Hok as [H1 H2 H3 H4 H5]. rewrite length_app in H2. cbn [length] in H2.
  pose proof (file_ok im L R d bs c H1) as [M1 M2 M3]. cbn [fst snd] in *. pose proof (fr_size _ _ _ _ M2) as Hsz.
  apply Forall_app in H5 as [_ [[Hx Hn] _]%Forall_cons]. cbn [fst snd] in *.
  assert (appending im im L R d d bs c) as Ha by (split; [by rewrite sized_id|done..]).
  destruct (append_loop L R im d (S (length xp)) im d bs c xp e Ha ltac:(lia) Hmax Hsp) as (im1 & d1 & bs1 & [A1 A2 A3 A4 A5] & Hl).
  pose proof (file_ok im1 L R _ _ _ A1) as [N1 _ _]. cbn [fst snd] in N1.
  exists (with_inode im1 (Z.of_nat (S (length L))) (sized d1 (c ++ xp))), (sized d1 (c ++ xp)), bs1. split; [|split; [|split]].
  - unfold iappend. erewrite bind_Ok by (apply rinode_ok; [apply H1|lia]).
    rewrite (H3 (length L) (d, bs, c)) by (by apply list_lookup_middle). cbn [fst snd]. rewrite Hsz, xint_small by lia.
    erewrite bind_Ok by exact Hl. cbv iota beta. rewrite xint_small by (rewrite length_app; lia).
    apply winode_ok; [apply A1|lia].
  - apply (img_replace im im1 L (d, bs, c)); done.
  - done.
  - intros b Hb. rewrite (with_inode_sys im1) by (done || lia || apply A1). apply A4. lia.
Qed.

Lemma ialloc_ok im fs type e :
  img_ok im fs → (S (length fs) < 200)%nat → 0 <= type < 32768 →
  ∃ im' d, ialloc type im e = Ok (Z.of_nat (S (length fs))) im' e ∧ img_ok im' (fs ++ [(d, [], [])]) ∧
    di_type d = type ∧ di_nlink d = 1 ∧ same_sys im im'.
Proof.
  intros [H1 H2 H3 H4 H5] Hn Ht. set (d := dinode0 <| di_type := type |> <| di_nlink := 1 |>).
  assert (dinode_ok d) as Hd.
  { split; simpl; try lia; [done|]. repeat constructor; lia. }
  set (inum := Z.of_nat (S (length fs))). set (im1 := im <| freeinode := inum + 1 |>).
  assert (img_core im1 (fs ++ [(d, [], [])])) as Hc1.
  { destruct H1 as [I1 I2 I3 I4 I5 I6 I7 I8].
    assert (all_owned (fs ++ [(d, [], [])]) = all_owned fs) as Eo by (rewrite all_owned_app; by rewrite app_nil_r).
    split; rewrite ?Eo; try done.
    - rewrite length_app. unfold im1, inum. simpl. lia.
    - apply Forall_app. split; [done|]. constructor; [|constructor]. split; [done| |by intros].
      split; try done; try (simpl; lia). cbn [fst snd]. intros k Hk. unfold d, dinode0, set. cbn [di_addrs].
      unfold NDIRECT in *. do 12 (destruct k as [|k]; [done|]). lia. }
  exists (with_inode im1 inum d), d. split; [|split; [|split_and!]]; try done.
  - unfold ialloc. rewrite bind_gets, (ic_fi _ _ H1), bind_modify. rewrite (u32_small (_ + 1)) by lia.
    assert (1 + Z.of_nat (length fs) = inum) as -> by (unfold inum; lia). rewrite (xshort_small type) by lia.
    change (xshort 1) with 1. change (xint 0) with 0. fold im1.
    erewrite bind_Ok by (apply winode_ok; [apply H1|unfold inum; lia]). done.
  - split.
    + apply core_inode; [done|unfold inum; lia|done].
    + rewrite length_app. simpl. lia.
    + intros i f Hf. assert (i < S (length fs))%nat as Hi by (apply lookup_lt_Some in Hf; rewrite length_app in Hf; simpl in Hf; lia).
      rewrite (ino_with_inode im1 (fs ++ [(d, [], [])])) by (done || unfold inum; lia). case_decide as E; unfold inum in E.
      * assert (i = length fs) as -> by lia. rewrite list_lookup_middle in Hf by done. by injection Hf as <-.
      * apply H3. rewrite lookup_app_l in Hf by lia. done.
    + intros i Hi. rewrite length_app in Hi. cbn [length] in Hi.
      rewrite (ino_with_inode im1 (fs ++ [(d, [], [])])) by (done || unfold inum; lia). unfold inum. rewrite decide_False by lia.
      apply H4. lia.
    + apply Forall_app. split; [done|]. constructor; [|constructor]. split; [|done]. unfold exact_ind. simpl. split; [lia|done].
  - intros b Hb. rewrite (with_inode_sys im1); [done|apply H1|unfold inum; lia|done].
Qed.

(** ** The program *)

(** The blocks that the files take. *)
Definition usage (fs : list mfile) : nat := sum_list_with (λ f : mfile, blocks_for (nb (length f.2))) fs.

Lemma length_all_owned_usage im fs : img_ok im fs → length (all_owned fs) = usage fs.
Proof.
  intros H. pose proof (io_exact _ _ H) as Hx. clear H. induction Hx as [|f fs [H1 H2] _ IH]; [done|].
  cbn [all_owned mbind list_bind usage sum_list_with]. unfold all_owned, usage in IH. rewrite length_app. unfold all_owned. f_equal; [|done].
  unfold mowned. by rewrite length_owned, H2.
Qed.

Lemma usage_app l1 l2 : usage (l1 ++ l2) = (usage l1 + usage l2)%nat.
Proof. apply sum_list_with_app. Qed.

Lemma blocks_for_le n m : (n <= m)%nat → (blocks_for n <= blocks_for m)%nat.
Proof. intros [H| ->]%Nat.le_lteq; [|done]. pose proof (blocks_for_lt _ _ H). lia. Qed.

(** [iappend] in terms of the contents of the files. *)
Lemma append_file im L d bs c R xp e :
  img_ok im (L ++ (d, bs, c) :: R) → (length c + length xp <= 268 * 1024)%nat →
  (47 + usage (L ++ R) + blocks_for (nb (length c + length xp)) <= 2000)%nat →
  ∃ im' d' bs', iappend (Z.of_nat (S (length L))) xp im e = Ok tt im' e ∧ img_ok im' (L ++ (d', bs', c ++ xp) :: R) ∧
    same_meta d d' ∧ same_sys im im'.
Proof.
  intros Hok Hmax Hsp. apply (iappend_ok im L d bs c R xp e Hok Hmax).
  pose proof (length_all_owned_usage _ _ Hok) as E. rewrite length_all_owned, usage_app in E. cbn [usage sum_list_with] in E.
  apply io_exact in Hok. apply Forall_app in Hok as [_ [[Hx Hn] _]%Forall_cons]. cbn [fst snd] in *.
  unfold mowned in E. cbn [fst snd] in E. rewrite length_owned, Hn in E by done. rewrite usage_app in Hsp. unfold usage in *. lia.
Qed.

(** The pieces of an input file. *)
Lemma append_chunks im L d bs c R chunks e :
  img_ok im (L ++ (d, bs, c) :: R) → (length c + length (concat chunks) <= 268 * 1024)%nat →
  (47 + usage (L ++ R) + blocks_for (nb (length c + length (concat chunks))) <= 2000)%nat →
  ∃ im' d' bs', foldr (λ buf k, iappend (Z.of_nat (S (length L))) buf;; k) (mret ()) chunks im e = Ok tt im' e ∧
    img_ok im' (L ++ (d', bs', c ++ concat chunks) :: R) ∧ same_meta d d' ∧ same_sys im im'.
Proof.
  revert im d bs c. induction chunks as [|buf chunks IH]; intros im d bs c Hok Hmax Hsp.
  { exists im, d, bs. cbn [concat foldr]. rewrite app_nil_r. by split_and!. }
  cbn [concat foldr] in *. rewrite length_app in *.
  assert (blocks_for (nb (length c + length buf)) <= blocks_for (nb (length c + (length buf + length (concat chunks)))))%nat
    by (apply blocks_for_le, nb_le; lia).
  destruct (append_file im L d bs c R buf e Hok ltac:(lia) ltac:(lia)) as (im1 & d1 & bs1 & E1 & Hok1 & Hm1 & Hs1).
  destruct (IH im1 d1 bs1 (c ++ buf) Hok1) as (im2 & d2 & bs2 & E2 & Hok2 & Hm2 & Hs2);
    [rewrite length_app; lia|by rewrite length_app, <- (Nat.add_assoc (length c))|].
  exists im2, d2, bs2. split; [by rewrite (bind_Ok _ _ _ _ _ _ _ E1)|]. rewrite <- app_assoc in Hok2. split; [done|].
  destruct Hm1 as (? & ? & ? & ?), Hm2 as (? & ? & ? & ?). split; [split_and!; congruence|].
  intros b Hb. by rewrite Hs2, Hs1.
Qed.

(** The contents of the root directory. *)
Fixpoint entries (inum : nat) (names : list (list Z)) : list Z :=
  match names with
  | [] => []
  | n :: names' => dirent_bytes (Z.of_nat inum) n ++ entries (S inum) names'
  end.
Definition root_bytes (names : list (list Z)) : list Z :=
  dirent_bytes 1 (bytes_of ".") ++ dirent_bytes 1 (bytes_of "..") ++ entries 2 names.

Lemma entries_snoc i names n :
  entries i (names ++ [n]) = entries i names ++ dirent_bytes (Z.of_nat (i + length names)) n.
Proof.
  revert i. induction names as [|x names IH]; intros i; cbn [entries app length].
  - by rewrite app_nil_r, Nat.add_0_r.
  - rewrite IH, <- app_assoc. do 4 f_equal. lia.
Qed.

Lemma length_dirent inum name : length (dirent_bytes inum name) = 16%nat.
Proof.
  unfold dirent_bytes. rewrite length_app, length_le_bytes, strncpy_spec by (unfold DIRSIZ; simpl; lia).
  rewrite length_app, length_drop, length_replicate. unfold pad. rewrite length_app, length_take, length_replicate.
  change (Z.to_nat DIRSIZ) with 14%nat. lia.
Qed.

Lemma length_entries i names : length (entries i names) = (16 * length names)%nat.
Proof. revert i. induction names as [|n names IH]; intros i; [done|]. cbn [entries length]. rewrite length_app, length_dirent, IH. lia. Qed.

Lemma length_root names : length (root_bytes names) = (32 + 16 * length names)%nat.
Proof. unfold root_bytes. rewrite !length_app, !length_dirent, length_entries. lia. Qed.

Definition name_of (arg : list Z) : list Z := skip_underscore (short_name arg).

Section program.
Context (host_create : list Z → bool) (host_file : list Z → option (list (list Z))).

(** What the program checks or relies on for one argument. *)
Definition arg_ok (arg : list Z) : Prop :=
  ch "/" ∉ short_name arg ∧ (length (name_of arg) <= 14)%nat ∧
  ∃ chunks, host_file arg = Some chunks ∧ (length (concat chunks) <= 268 * 1024)%nat.

Definition contents (arg : list Z) : list Z := default [] (@concat Z <$> host_file arg).

(** The blocks for the root directory and the files. *)
Definition demand (args : list (list Z)) : nat :=
  blocks_for (nb (32 + 16 * length args)) + sum_list_with (λ a, blocks_for (nb (length (contents a)))) args.

(** The image after the files [args]. *)
Definition built (im : image) (args : list (list Z)) : Prop :=
  ∃ d bs fl, img_ok im ((d, bs, root_bytes (name_of <$> args)) :: fl) ∧ (di_type d = T_DIR ∧ di_nlink d = 1) ∧
    Forall2 (λ (f : mfile) a, f.2 = contents a ∧ di_type f.1.1 = T_FILE ∧ di_nlink f.1.1 = 1) fl args.

Lemma usage_files fl args :
  Forall2 (λ (f : mfile) a, f.2 = contents a ∧ di_type f.1.1 = T_FILE ∧ di_nlink f.1.1 = 1) fl args →
  usage fl = sum_list_with (λ a, blocks_for (nb (length (contents a)))) args ∧ length fl = length args.
Proof.
  induction 1 as [|f a fl args (E & _) _ [IH1 IH2]]; [done|]. unfold usage in *. cbn [sum_list_with length]. rewrite E. lia.
Qed.

Lemma add_file_ok im args arg e :
  built im args → arg_ok arg → (S (S (length args)) < 200)%nat → (47 + demand (args ++ [arg]) <= 2000)%nat →
  ∃ im', add_file host_file 1 arg im e = Ok tt im' e ∧ built im' (args ++ [arg]) ∧ same_sys im im'.
Proof.
  intros (d & bs & fl & Hok & Hty & Hfl) (Hsl & Hnm & chunks & Hh & Hmax) Hn Hsp.
  destruct (usage_files _ _ Hfl) as [Hus Hlen].
  assert (contents arg = concat chunks) as Ec by (unfold contents; by rewrite Hh).
  unfold demand in Hsp. rewrite length_app, sum_list_with_app in Hsp. cbn [sum_list_with length] in Hsp. rewrite Ec in Hsp.
  set (rb := root_bytes (name_of <$> args)) in *.
  assert (length rb = 32 + 16 * length args)%nat as Hrb by (unfold rb; by rewrite length_root, length_fmap).
  destruct (ialloc_ok im _ T_FILE e Hok) as (im1 & df & E1 & Hok1 & Hf1 & Hf2 & Hs1); [simpl; lia|unfold T_FILE; lia|].
  set (inum := Z.of_nat (S (length ((d, bs, rb) :: fl)))) in *. cbn [app] in Hok1.
  destruct (append_file im1 [] d bs rb (fl ++ [(df, [], [])]) (dirent_bytes inum (name_of arg)) e Hok1)
    as (im2 & d2 & bs2 & E2 & Hok2 & Hm2 & Hs2).
  { rewrite length_dirent. lia. }
  { cbn [app]. rewrite usage_app, length_dirent, Hus, Hrb. change (usage [(df, [], [])]) with 0%nat.
    replace (32 + 16 * length args + 16)%nat with (32 + 16 * (length args + 1))%nat by lia. lia. }
  change ([] ++ (d2, bs2, rb ++ dirent_bytes inum (name_of arg)) :: fl ++ [(df, [], [])])
    with (((d2, bs2, rb ++ dirent_bytes inum (name_of arg)) :: fl) ++ (df, [], []) :: []) in Hok2.
  destruct (append_chunks im2 _ df [] [] [] chunks e Hok2) as (im3 & d3 & bs3 & E3 & Hok3 & Hm3 & Hs3).
  { cbn [length]. lia. }
  { rewrite app_nil_r. cbn [usage sum_list_with snd length]. unfold usage in *. rewrite Nat.add_0_l, length_app, length_dirent, Hrb, Hus.
    replace (32 + 16 * length args + 16)%nat with (32 + 16 * (length args + 1))%nat by lia. lia. }
  exists im3. split; [|split].
  - unfold add_file. rewrite bool_decide_eq_true_2 by done. change (assert true) with (mret () : I unit). rewrite bind_ret, Hh.
    fold (name_of arg). rewrite (proj2 (Z.leb_le _ _)) by (unfold DIRSIZ; lia). change (assert true) with (mret () : I unit). rewrite bind_ret.
    erewrite bind_Ok by exact E1. erewrite bind_Ok by exact E2. exact E3.
  - exists d2, bs2, (fl ++ [(d3, bs3, concat chunks)]). split; [|split].
    + rewrite fmap_app. unfold root_bytes. cbn [fmap list_fmap]. rewrite entries_snoc, !app_assoc, <- (app_assoc (dirent_bytes 1 _)).
      fold (root_bytes (name_of <$> args)). fold rb. rewrite length_fmap.
      replace (Z.of_nat (2 + length args)) with inum by (unfold inum; simpl; lia). exact Hok3.
    + by destruct Hm2 as (-> & _ & _ & ->).
    + apply Forall2_app; [done|]. constructor; [|constructor]. cbn [fst snd]. destruct Hm3 as (-> & _ & _ & ->). by rewrite Ec.
  - intros b Hb. by rewrite Hs3, Hs2, Hs1.
Qed.

Lemma add_files_ok im before args e :
  built im before → Forall arg_ok args → (S (length before + length args) < 200)%nat → (47 + demand (before ++ args) <= 2000)%nat →
  ∃ im', foldr (λ arg k, add_file host_file 1 arg;; k) (mret ()) args im e = Ok tt im' e ∧ built im' (before ++ args) ∧ same_sys im im'.
Proof.
  intros Hb Ha. revert im before Hb. induction Ha as [|arg args Harg Ha IH]; intros im before Hb Hn Hsp.
  { exists im. rewrite app_nil_r. by split_and!. }
  cbn [length] in Hn. assert (demand (before ++ [arg]) <= demand (before ++ arg :: args))%nat as Hd.
  { unfold demand. rewrite !length_app, !sum_list_with_app. cbn [length sum_list_with].
    assert (blocks_for (nb (32 + 16 * (length before + 1))) <= blocks_for (nb (32 + 16 * (length before + S (length args)))))%nat
      by (apply blocks_for_le, nb_le; lia). lia. }
  destruct (add_file_ok im before arg e Hb Harg ltac:(lia) ltac:(lia)) as (im1 & E1 & Hb1 & Hs1).
  destruct (IH im1 (before ++ [arg]) Hb1) as (im2 & E2 & Hb2 & Hs2).
  { rewrite length_app. cbn [length]. lia. }
  { by rewrite <- app_assoc. }
  exists im2. cbn [foldr]. split; [by rewrite (bind_Ok _ _ _ _ _ _ _ E1)|]. rewrite <- app_assoc in Hb2. split; [done|].
  intros b Hbr. by rewrite Hs2, Hs1.
Qed.

End program.

(** The blocks at the start. *)
Lemma clear_disk n i im e :
  im_blocks im = replicate i zeroes → (i + n <= 2000)%nat →
  for_each n i (λ i, wsect (Z.of_nat i) zeroes) im e = Ok tt (im <| im_blocks := replicate (i + n) zeroes |>) e.
Proof.
  revert i im. induction n as [|n IH]; intros i im Hi Hn; cbn [for_each].
  { rewrite Nat.add_0_r, <- Hi. by destruct im. }
  assert (wsect (Z.of_nat i) zeroes im e = Ok tt (im <| im_blocks := replicate (S i) zeroes |>) e) as Ew.
  { unfold wsect, modify. rewrite sector_small, Nat2Z.id by lia. destruct im as [bl fi fb]. unfold set. cbn [im_blocks freeinode freeblock] in *.
    subst bl. rewrite length_replicate. replace (S i - i)%nat with 1%nat by lia. cbn [replicate]. do 3 f_equal.
    rewrite insert_app_r_alt, length_replicate, Nat.sub_diag by (rewrite length_replicate; lia). cbn [insert list_insert].
    by rewrite <- replicate_cons_app. }
  rewrite (bind_Ok _ _ _ _ _ _ _ Ew), IH by (done || lia). by rewrite Nat.add_succ_comm.
Qed.

Definition blank : image := mk_image (replicate 2000 zeroes) 1 47.

Lemma vw_blank b : 0 <= b < 2000 → vw blank b = zeroes.
Proof. intros. unfold vw. apply lookup_total_replicate_2. lia. Qed.

Lemma ino_blank im inum : vw im (IBLOCK inum mkfs_sb) = zeroes → di_type (ino im inum) = 0.
Proof.
  intros E. unfold ino. rewrite E. unfold get_dinode. cbn [di_type]. unfold get16, zeroes. rewrite drop_replicate, take_replicate.
  pose proof (dinode_off_range inum). replace (2 `min` (Z.to_nat BSIZE - dinode_off inum))%nat with 2%nat; [done|].
  change (Z.to_nat BSIZE) with 1024%nat. lia.
Qed.

Lemma start_ok buf : length buf = 1024%nat → img_ok (with_block blank 1 buf) [].
Proof.
  intros Hl. assert (img_core blank []) as Hc.
  { split; try done; [by apply Forall_replicate|apply NoDup_nil_2|intros; apply vw_blank; simpl in *; lia]. }
  split; try done.
  - apply core_low; [done|lia|done].
  - cbn [length]. lia.
  - intros inum Hi. cbn [length] in Hi. apply ino_blank. destruct (iblock_eq inum ltac:(lia)) as [_ Hb].
    rewrite vw_with_block, decide_False by (done || lia). apply vw_blank. lia.
Qed.

(** ** The bitmap *)

Lemma mark_used_spec n i buf b :
  length buf = 1024%nat → 0 <= i → i + Z.of_nat n <= 8192 → 0 <= b < 8192 →
  bit_of (mark_used n i buf) b = bool_decide (i <= b < i + Z.of_nat n) || bit_of buf b.
Proof.
  revert i buf. induction n as [|n IH]; intros i buf Hl Hi Hn Hb; cbn [mark_used].
  - rewrite bool_decide_eq_false_2 by lia. done.
  - rewrite IH by (unfold set_bit; rewrite ?length_insert; done || lia). rewrite bit_set by (rewrite ?Hl; lia || zlia).
    rewrite orb_assoc. f_equal. destruct (Z.eqb_spec i b) as [->|N].
    + rewrite orb_true_r, bool_decide_eq_true_2 by lia. done.
    + rewrite orb_false_r. apply bool_decide_ext. lia.
Qed.

Lemma bit_zeroes b : 0 <= b < 8192 → bit_of zeroes b = false.
Proof.
  intros. unfold bit_of, bitmap_byte, zeroes. rewrite lookup_total_replicate_2 by (change (Z.to_nat BSIZE) with 1024%nat; zlia).
  apply Z.bits_0.
Qed.

(** Every block below [freeblock] belongs to the metadata or to a file. *)
Lemma used_blocks im fs b : img_core im fs → 47 <= b < freeblock im ↔ b ∈ all_owned fs.
Proof.
  intros [_ _ _ [H4 _] H5 H6 _ _]. rewrite Forall_forall in H6. split; [|apply H6]. intros Hb.
  assert (all_owned fs ≡ₚ seqZ 47 (freeblock im - 47)) as ->; [|apply elem_of_seqZ; lia].
  apply submseteq_length_Permutation.
  - apply NoDup_submseteq; [done|]. intros x Hx%H6. apply elem_of_seqZ. lia.
  - rewrite length_seqZ. lia.
Qed.

(** ** The image *)

(** The size of the root directory is rounded up to whole blocks. *)
Definition padding (c : list Z) : list Z := replicate (1024 * nb (length c) - length c) 0.

Lemma padded_rep v d bs c :
  mfile_ok v (d, bs, c) → length bs = nb (length c) → file_rep v (sized d (c ++ padding c)) bs (c ++ padding c).
Proof.
  intros [M1 [F1 F2 F3 F4 F5 F6 F7 F8] M3] Hn. cbn [fst snd] in *. split; try done.
  intros i y [Hi|[Hi Hy]]%lookup_app_Some; [by apply F8|]. unfold padding in Hy. apply lookup_replicate in Hy as [-> Hlt].
  assert (i / 1024 < length bs)%nat as [b Hb]%lookup_lt_is_Some by (rewrite Hn; unfold nb in *; ndlia).
  exists b. split; [done|]. by apply (M3 i b).
Qed.

Lemma round_up c : (length c mod 1024 ≠ 0)%nat → (length c < 1024 * 1024)%nat →
  xint (u32 ((Z.of_nat (length c) / BSIZE + 1) * BSIZE)) = Z.of_nat (length (c ++ padding c)).
Proof.
  intros Hm Hl. rewrite length_app. unfold padding. rewrite length_replicate. change BSIZE with 1024.
  replace (Z.of_nat (length c) / 1024) with (Z.of_nat (length c / 1024)) by (by rewrite Nat2Z.inj_div).
  rewrite u32_small, xint_small by ndlia. unfold nb. ndlia.
Qed.

Section theorem.
Context (host_create : list Z → bool) (host_file : list Z → option (list (list Z))).

(** The first part of the program: an image with an empty root directory. *)
Lemma root_built e :
  ∃ im, (∀ k : Z → I unit,
      (rootino ← ialloc T_DIR; assert (rootino =? ROOTINO);;
       iappend rootino (dirent_bytes rootino (bytes_of "."));;
       iappend rootino (dirent_bytes rootino (bytes_of ".."));; k rootino)
        (with_block blank 1 (splice zeroes 0 (superblock_bytes mkfs_sb))) e = k 1 im e) ∧
    built host_file im [] ∧ same_sys (with_block blank 1 (splice zeroes 0 (superblock_bytes mkfs_sb))) im.
Proof.
  set (im0 := with_block blank 1 _). assert (img_ok im0 []) as H0 by (by apply start_ok).
  destruct (ialloc_ok im0 [] T_DIR e H0) as (im1 & d & E1 & H1 & Ht & Hn & S1); [simpl; lia|unfold T_DIR; lia|].
  change (Z.of_nat (S (length []))) with 1 in E1. change ([] ++ [(d, [], [])]) with ([] ++ (d, [], []) :: [] : list mfile) in H1.
  destruct (append_file im1 [] d [] [] [] (dirent_bytes 1 (bytes_of ".")) e H1) as (im2 & d2 & bs2 & E2 & H2 & (M2 & _ & _ & N2) & S2);
    [rewrite length_dirent; cbn [length]; lia|rewrite length_dirent; by apply Nat.leb_le|].
  destruct (append_file im2 [] d2 bs2 _ [] (dirent_bytes 1 (bytes_of "..")) e H2) as (im3 & d3 & bs3 & E3 & H3 & (M3 & _ & _ & N3) & S3);
    [rewrite length_app, !length_dirent; cbn [length]; lia|rewrite length_app, !length_dirent; by apply Nat.leb_le|].
  exists im3. split; [|split].
  - intros k. erewrite bind_Ok by exact E1. change (1 =? ROOTINO) with true. change (assert true) with (mret () : I unit).
    rewrite bind_ret. erewrite bind_Ok by exact E2. by erewrite bind_Ok by exact E3.
  - exists d3, bs3, []. split; [exact H3|]. split; [split; congruence|constructor].
  - intros b Hb. by rewrite S3, S2, S1.
Qed.

(** The super block as the kernel reads it. *)
Definition mkfs_super : list Z := [270544960; 2000; 1953; 200; 31; 2; 33; 46].

Lemma super_read : get_words (splice zeroes 0 (superblock_bytes mkfs_sb)) 0 8 = mkfs_super.
Proof. by vm_compute. Qed.
(** The end of the program: the root directory's size and the bitmap. *)
Definition finished (im : image) (d : dinode) (c : list Z) : image :=
  with_block (with_inode im 1 (sized d (c ++ padding c))) 46 (mark_used (Z.to_nat (freeblock im)) 0 zeroes).

Lemma length_mark_used n i buf : length (mark_used n i buf) = length buf.
Proof. revert i buf. induction n as [|n IH]; intros i buf; [done|]. cbn [mark_used]. rewrite IH. apply length_insert. Qed.

Lemma finish_ok im d bs c fl e :
  img_ok im ((d, bs, c) :: fl) → (length c mod 1024 ≠ 0)%nat → (length c < 1024 * 1024)%nat →
  (din ← rinode 1;
   let off := xint (di_size din) in
   let off := u32 ((off / BSIZE + 1) * BSIZE) in
   winode 1 (din <| di_size := xint off |>);;
   fb ← gets freeblock;
   balloc fb) im e = Ok tt (finished im d c) e.
Proof.
  intros Hok Hm Hl. pose proof (io_core _ _ Hok) as Hc. pose proof (file_ok im [] fl d bs c Hc) as [_ M2 _]. cbn [fst snd] in M2.
  erewrite bind_Ok by (apply rinode_ok; [apply Hc|lia]). pose proof (io_inodes _ _ Hok 0%nat (d, bs, c) eq_refl) as Ei.
  change (ino im 1 = d) in Ei. rewrite Ei. cbv zeta.
  rewrite (fr_size _ _ _ _ M2), (xint_small (Z.of_nat _)), round_up by (done || lia).
  erewrite bind_Ok by (apply winode_ok; [apply Hc|lia]). rewrite bind_gets. unfold balloc.
  destruct (ic_fb _ _ Hc) as [_ Hfb]. change (freeblock (with_inode im 1 _)) with (freeblock im).
  rewrite (proj2 (Z.ltb_lt _ BPB)) by (change BPB with 8192; lia). change (assert true) with (mret () : I unit). rewrite bind_ret.
  change (sb_bmapstart mkfs_sb) with 46. apply wsect_ok; [|lia]. unfold with_inode. rewrite with_block_len. apply Hc.
Qed.

(** What the finished image holds. *)
Lemma finished_ok im d bs c fl :
  img_ok im ((d, bs, c) :: fl) →
  let im' := finished im d c in let fs := (sized d (c ++ padding c), bs, c ++ padding c) :: fl in
  (∀ i f, fs !! i = Some f → ino im' (Z.of_nat (S i)) = f.1.1 ∧ file_rep (vw im') f.1.1 f.1.2 f.2) ∧
  (∀ inum, Z.of_nat (length fs) < inum < 200 → di_type (ino im' inum) = 0) ∧ NoDup (all_owned fs) ∧
  (∀ b, 0 <= b < 2000 → bit_of (vw im' 46) b = true ↔ b < 47 ∨ b ∈ all_owned fs) ∧
  (∀ b, 0 <= b < 33 → vw im' b = vw im b).
Proof.
  intros Hok im' fs. pose proof Hok as [Hc Hn Hi Hf Hx]. cbn [length] in Hn. pose proof (file_ok im [] fl d bs c Hc) as [M1 M2 M3].
  apply Forall_cons in Hx as [[_ Hnb] _]. cbn [fst snd] in *. set (d' := sized d (c ++ padding c)) in *.
  assert (length (c ++ padding c) = 1024 * length bs)%nat as Hpl.
  { rewrite length_app. unfold padding. rewrite length_replicate, Hnb. unfold nb. ndlia. }
  assert (length bs <= 268)%nat as Hbs by (pose proof (fr_max _ _ _ _ M2); change (Z.to_nat MAXFILE) with 268%nat in *; lia).
  assert (dinode_ok d') as Hd'.
  { destruct M1 as [D1 D2 D3 D4 D5 D6 D7]. split; try done. unfold d', sized, set. cbn [di_size]. rewrite Hpl. lia. }
  assert (img_core im' ((d, bs, c) :: fl)) as Hc'.
  { apply core_low; [apply core_inode; [done|lia|done]|lia|]. by rewrite length_mark_used. }
  assert (length (im_blocks (with_inode im 1 d')) = 2000%nat) as Hl1 by (unfold with_inode; rewrite with_block_len; apply Hc).
  assert (∀ inum, 0 <= inum < 208 → ino im' inum = if decide (inum = 1) then d' else ino im inum) as Hino.
  { intros inum Hr. destruct (iblock_eq inum Hr) as [_ Hb]. rewrite <- (ino_with_inode im _ 1 d' inum Hc) by (done || lia).
    unfold ino at 1, im', finished. rewrite vw_with_block, decide_False by (done || lia). done. }
  split; [|split; [|split; [|split]]].
  - intros i f Hfi. assert (i < length fs)%nat as Hir by (by eapply lookup_lt_Some). unfold fs in Hir. cbn [length] in Hir.
    rewrite Hino by lia. destruct i as [|i].
    + injection Hfi as <-. split; [done|]. cbn [fst snd].
      apply padded_rep; [exact (file_ok im' [] fl d bs c Hc')|done].
    + rewrite decide_False by lia. split; [by apply (Hi (S i))|].
      change (fl !! i = Some f) in Hfi. pose proof (ic_files _ _ Hc') as [_ Hfl']%Forall_cons.
      by destruct (Forall_lookup_1 _ _ _ _ Hfl' Hfi).
  - intros inum Hr. unfold fs in Hr. cbn [length] in Hr. rewrite Hino, decide_False by lia. apply Hf. cbn [length]. lia.
  - apply (ic_nodup _ _ Hc).
  - intros b Hb. unfold im' at 1, finished. rewrite vw_with_block, decide_True by (done || lia).
    destruct (ic_fb _ _ Hc) as [Hfb Hfb2]. rewrite mark_used_spec, bit_zeroes, orb_false_r by (done || lia).
    change (all_owned fs) with (all_owned ((d, bs, c) :: fl)). rewrite <- (used_blocks im) by done.
    rewrite bool_decide_eq_true. lia.
  - intros b Hb. unfold im', finished. rewrite vw_with_block, decide_False by (done || lia).
    apply with_inode_sys; [apply Hc|lia|lia].
Qed.


End theorem.

(** A host with two files, one read in two pieces. *)
Definition sample_host (name : list Z) : option (list (list Z)) :=
  if bool_decide (name = bytes_of "user/_cat") then Some [replicate 1024 7; [1; 2; 3]]
  else if bool_decide (name = bytes_of "README") then Some [bytes_of "xv6"] else None.

