(* ===== verification/FsRead.v ===== *)
(** Reading files: [bmap] and [readi] of Fs.v through the buffer cache, for a file
    whose blocks are allocated. *)

From S2P Require Export DiskFormat CacheSpec.

(** The blocks that the [n] bytes from [off] touch. *)
Definition span (off n : nat) : nat := if (n =? 0)%nat then 0 else (off + n + 1023) / 1024 - off / 1024.

(** A round that goes on to the next block leaves one block less. *)
Lemma span_next off len t : (t < len)%nat → let k := Nat.min (len - t) (1024 - (off + t) mod 1024) in
  (S (span (off + (t + k)) (len - (t + k))) <= span (off + t) (len - t))%nat.
Proof.
  intros Ht k. unfold span, k. rewrite (proj2 (Nat.eqb_neq (_ - t) 0)) by lia.
  assert ((off + t + (len - t))%nat = (off + len)%nat) as -> by lia.
  destruct (decide (len - t <= 1024 - (off + t) mod 1024)%nat) as [H|H].
  - rewrite Nat.min_l by done. rewrite (proj2 (Nat.eqb_eq _ 0)) by lia. ndlia.
  - rewrite Nat.min_r by lia. rewrite (proj2 (Nat.eqb_neq _ 0)) by lia.
    assert ((off + (t + (1024 - (off + t) mod 1024)))%nat = (1024 * S ((off + t) / 1024))%nat) as Ea by ndlia.
    assert ((off + (t + (1024 - (off + t) mod 1024)) + (len - (t + (1024 - (off + t) mod 1024))))%nat = (off + len)%nat) as -> by lia.
    rewrite Ea, Nat.mul_comm, Nat.div_mul by lia. ndlia.
Qed.

Section read.
Context `{L : Layout} `{V : VirtioDevice}.
Context (p : nat).

Notation cache := (cache p).
Notation cwp := (cwp p).

(** Reading changes the caches, the memory and other processes' states only. *)
Record moved (s s' : kstate) : Prop := {
  mv_eq : s' = s <| k_disk := k_disk s' |> <| k_bufs := k_bufs s' |> <| k_procs := k_procs s' |>
                 <| k_mem := k_mem s' |> <| k_freelist := k_freelist s' |>;
  mv_proc : proc_at s' p = proc_at s p;
}.

Lemma moved_refl s : moved s s.
Proof. split; [by destruct s|done]. Qed.
Lemma moved_trans s1 s2 s3 : moved s1 s2 → moved s2 s3 → moved s1 s3.
Proof. intros [E1 P1] [E2 P2]. split; [|congruence]. rewrite E2, E1. reflexivity. Qed.
Lemma framed_moved s s' : framed p s s' → moved s s'.
Proof. intros [E P]. split; [|done]. rewrite E. reflexivity. Qed.
Lemma moved_mem s m h : moved s (with_mem s m h).
Proof. split; [by destruct s|done]. Qed.
Lemma moved_inode s s' ip : moved s s' → inode_at s' ip = inode_at s ip.
Proof. intros [-> _]. done. Qed.
Lemma framed_inode s s' ip : framed p s s' → inode_at s' ip = inode_at s ip.
Proof. intros [-> _]. done. Qed.
Lemma framed_mem s s' : framed p s s' → k_mem s' = k_mem s ∧ k_freelist s' = k_freelist s ∧ k_x s' = k_x s.
Proof. intros [-> _]. done. Qed.

Lemma cache_mem s D P H m h : cache s D P H → cache (with_mem s m h) D P H.
Proof. intros [C1 C2 C3 C4 C5 C6 C7 C8]. split; try done. by apply (calm_ext s). Qed.

(** A block is read and released. *)
Lemma bread_brelse {A} s D P bno c (k : nat → K A) (Q : A → kstate → Prop) (C : blocks → Prop) :
  cache s D P ∅ → (size P < NBUF)%nat → 0 <= bno < 2147483648 → C D →
  (∀ b s1, cache s1 D P {[b := (bno, cview D P bno)]} → framed p s s1 → b_data (buf_at s1 b) = cview D P bno →
     cwp c (k b) s1 Q C) →
  cwp (1 + c) (b ← bread ROOTDEV bno; k b) s Q C.
Proof.
  intros Hc Hsz Hb HC Hk. apply (cwp_bind p 1 c). eapply bread_ok; [done|done| |done|done|].
  { right. rewrite map_size_empty. lia. }
  intros b s1 Hbn _ Hc1 F1. rewrite insert_empty in Hc1. apply Hk; [done|done|].
  by destruct (held_facts p s1 D P _ b bno (cview D P bno) Hc1 (lookup_singleton_eq _ _)) as (_ & _ & _ & _ & Ed & _).
Qed.

(** The address of a block of the file. *)
Lemma bmap_ok s D P ip bs content k bno (Q : Z → kstate → Prop) (C : blocks → Prop) :
  cache s D P ∅ → (size P < NBUF)%nat → C D → i_dev (inode_at s ip) = ROOTDEV →
  file_rep (cview D P) (dinode_of (inode_at s ip)) bs content → bs !! k = Some bno →
  (∀ s', cache s' D P ∅ → framed p s s' → Q bno s') →
  cwp 1 (bmap ip (Z.of_nat k)) s Q C.
Proof.
  intros Hc Hsz HC Hdev [F1 F2 F3 F4 F5 F6 F7 F8] Hk HQ. set (x := inode_at s ip) in *.
  change (di_addrs (dinode_of x)) with (i_addrs x) in *. unfold bmap.
  pose proof (Forall_lookup_1 _ _ _ _ F3 Hk) as Hr. cbv beta in Hr. pose proof (lookup_lt_Some _ _ _ Hk) as Hlt.
  change (Z.to_nat MAXFILE) with 268%nat in *. change (Z.to_nat NINDIRECT) with 256%nat in *. unfold NDIRECT in *.
  eapply cwp_bind_ok; [intros e; reflexivity|]. fold x. rewrite Nat2Z.id.
  destruct (Z.ltb_spec (Z.of_nat k) (Z.of_nat 12)) as [Hd|Hd].
  - rewrite F4, Hk by lia. change (default 0 (Some bno)) with bno. rewrite (proj2 (Z.eqb_neq _ _)) by lia.
    eapply cwp_mono; [apply cwp_ret, HQ; [done|apply framed_refl]|lia|done|done].
  - change NINDIRECT with 256. rewrite (proj2 (Z.ltb_lt _ 256)) by lia.
    assert (i_addrs x !!! 12%nat ≠ 0) as Hi by (apply F6; lia). rewrite (proj2 (Z.eqb_neq _ _) Hi).
    eapply cwp_bind_ok; [intros e; reflexivity|]. rewrite (proj2 (Z.eqb_neq _ _) Hi), Hdev.
    apply (bread_brelse s D P _ 0); [done|done|done|done|]. intros b s1 Hc1 F1' Ed.
    eapply cwp_bind_ok; [intros e; reflexivity|]. rewrite Ed.
    assert (get32 (cview D P (i_addrs x !!! 12%nat)) (4 * Z.to_nat (Z.of_nat k - Z.of_nat 12)) = bno) as ->.
    { rewrite F7 by (done || lia). replace (12 + Z.to_nat (Z.of_nat k - Z.of_nat 12))%nat with k by lia. by rewrite Hk. }
    cbv zeta. rewrite (proj2 (Z.eqb_neq _ _)) by lia. eapply cwp_bind_ok; [intros e; reflexivity|].
    destruct (brelse_ok p s1 D P _ b _ Hc1 (lookup_singleton_eq _ _)) as (s2 & E2 & Hc2 & F2').
    eapply cwp_bind_ok; [exact E2|]. rewrite delete_singleton_eq in Hc2. apply cwp_ret, HQ; [done|]. by eapply framed_trans.
Qed.

Lemma cwp_bind_ex {A B} c (m : K A) (f : A → K B) s (Q : B → kstate → Prop) C :
  (∀ e, ∃ a s', m s e = Ok a s' e ∧ cwp c (f a) s' Q C) → cwp c (m ≫= f) s Q C.
Proof. intros H k. destruct (H (replicate k (disk_move p))) as (a & s' & E & Hf). rewrite (bind_Ok _ _ _ _ _ _ _ E). apply Hf. Qed.

(** A piece of the file in a block. *)
Lemma chunk_eq v d bs content o m b :
  file_rep v d bs content → bs !! (o / 1024)%nat = Some b → (o mod 1024 + m <= 1024)%nat → (o + m <= length content)%nat →
  take m (drop (o mod 1024) (v b)) = take m (drop o content).
Proof.
  intros Hf Hb Hm Ho. apply list_eq. intros i. destruct (decide (i < m)%nat) as [Hi|Hi]; [|by rewrite !lookup_take_ge by lia].
  rewrite !lookup_take_lt, !lookup_drop by lia.
  destruct (lookup_lt_is_Some_2 content (o + i)%nat) as [c Hc]; [lia|]. rewrite Hc.
  destruct (fr_content _ _ _ _ Hf _ _ Hc) as (b' & Hb' & Hc'). rewrite <- Hc'.
  assert ((o + i) / 1024 = o / 1024)%nat as E1 by ndlia. assert ((o + i) mod 1024 = o mod 1024 + i)%nat as E2 by ndlia.
  rewrite E1 in Hb'. rewrite Hb in Hb'. injection Hb' as <-. by rewrite E2.
Qed.

(** ** readi *)

Section readi.
(** Where the bytes go: [sink s got] says that [got] has arrived, [short s] that the
    destination could not take more. *)
Context (user_dst : bool) (dst : Z) (room : nat) (sink : kstate → list Z → Prop) (short : kstate → Prop).
Context (sink_frame : ∀ s s' got, framed p s s' → sink s got → sink s' got).
Context (short_frame : ∀ s s', framed p s s' → short s → short s').
Context (sink_copy : ∀ s got chunk e, calm s p → sink s got → bytes_ok chunk → (length got + length chunk <= room)%nat →
  ∃ r m h, either_copyout user_dst (u64 (dst + Z.of_nat (length got))) chunk s e = Ok r (with_mem s m h) e ∧
    ((r = 0 ∧ sink (with_mem s m h) (got ++ chunk)) ∨ (r = -1 ∧ short (with_mem s m h)))).

Context (D P : blocks) (ip : nat) (x : inode) (bs content : list Z).
Context (Hsz : (size P < NBUF)%nat) (Hdev : i_dev x = ROOTDEV).
Context (Hrep : file_rep (cview D P) (dinode_of x) bs content).
Context (Hbytes : ∀ b, bytes_ok (cview D P b)).

Lemma blocks_of_content o : (o < length content)%nat → is_Some (bs !! (o / 1024)%nat).
Proof.
  intros [c Hc]%lookup_lt_is_Some. destruct (fr_content _ _ _ _ Hrep _ _ Hc) as (b & Hb & _). by exists b.
Qed.

(** What the loop leaves. *)
Definition read_post (s : kstate) (want : list Z) (r : Z) (s' : kstate) : Prop :=
  cache s' D P ∅ ∧ moved s s' ∧ ((r = Z.of_nat (length want) ∧ sink s' want) ∨ (r = -1 ∧ short s')).

Section bytes.
(** The bytes that are wanted, from [off] on. *)
Context (off : nat) (want : list Z).
Context (Hwant : want = take (length want) (drop off content)) (Hlen : (off + length want <= length content)%nat).
Context (Hroom : (length want <= room)%nat) (Hmax : (length content <= 268 * 1024)%nat).

(** The state of the loop after [t] bytes. *)
Definition at_byte (t : nat) : Z * Z * Z := (Z.of_nat t, Z.of_nat (off + t), u64 (dst + Z.of_nat t)).

Record reading (s0 s : kstate) (t : nat) : Prop := {
  rd_inode : inode_at s ip = x;
  rd_cache : cache s D P ∅;
  rd_moved : moved s0 s;
  rd_sink : sink s (take t want);
  rd_t : (t <= length want)%nat;
}.

(** The bytes of one round. *)
Definition round_bytes (t : nat) : nat := Nat.min (length want - t) (1024 - (off + t) mod 1024).

Lemma readi_round s0 s t :
  reading s0 s t → (t < length want)%nat →
  cwp 2 (readi_loop ip user_dst (Z.of_nat (length want)) (at_byte t)) s
    (λ r s', (r = inl (at_byte (t + round_bytes t)) ∧ reading s0 s' (t + round_bytes t)) ∨
             (r = inr (-1) ∧ cache s' D P ∅ ∧ moved s0 s' ∧ short s')) (λ D', D' = D).
Proof.
  intros [R1 R2 R3 R4 R5] Ht. set (o := (off + t)%nat). destruct (blocks_of_content o ltac:(unfold o; lia)) as [b Hb].
  set (m := round_bytes t).
  assert (0 < m ∧ m <= length want - t ∧ o mod 1024 + m <= 1024)%nat as (M1 & M2 & M3) by (unfold m, round_bytes; fold o; ndlia).
  assert (take m (drop (o mod 1024) (cview D P b)) = take m (drop t want)) as Ech.
  { rewrite (chunk_eq _ _ _ _ _ _ _ Hrep Hb) by (unfold o in *; lia). rewrite Hwant at 1. rewrite skipn_firstn_comm, drop_drop.
    rewrite take_take. f_equal. lia. }
  assert (Z.of_nat o / BSIZE = Z.of_nat (o / 1024)) as Edv by (change BSIZE with 1024; by rewrite Nat2Z.inj_div).
  assert (Z.of_nat o mod BSIZE = Z.of_nat (o mod 1024)) as Emd by (change BSIZE with 1024; by rewrite Nat2Z.inj_mod).
  unfold readi_loop, at_byte. fold o. rewrite (proj2 (Z.leb_gt _ _)) by lia. rewrite Edv, Emd.
  apply (cwp_bind p 1 1). eapply (bmap_ok s D P ip bs content (o / 1024) b); rewrite ?R1; try done.
  intros s1 Hc1 F1. pose proof (Forall_lookup_1 _ _ _ _ (fr_bs _ _ _ _ Hrep) Hb) as Hr. cbv beta in Hr.
  rewrite (proj2 (Z.eqb_neq _ _)) by lia. eapply cwp_bind_ok; [intros e; reflexivity|].
  rewrite (framed_inode _ _ ip F1), R1, Hdev. apply (bread_brelse s1 D P b 0); [done|done|lia|done|]. intros bp s2 Hc2 F2 Ed.
  eapply cwp_bind_ok; [intros e; reflexivity|]. rewrite Ed. cbv zeta.
  assert (Z.min (Z.of_nat (length want) - Z.of_nat t) (BSIZE - Z.of_nat (o mod 1024)) = Z.of_nat m) as ->.
  { unfold m, round_bytes. fold o. change BSIZE with 1024. pose proof (Nat.mod_upper_bound o 1024). lia. }
  rewrite !Nat2Z.id, Ech.
  assert (framed p s s2) as F by (by eapply framed_trans).
  assert (length (take t want) = t) as Etl by (rewrite length_take; lia).
  assert (length (take m (drop t want)) = m) as Eml by (rewrite length_take, length_drop; lia).
  assert (take t want ++ take m (drop t want) = take (t + m) want) as Etm by (by rewrite take_take_drop).
  apply cwp_bind_ex. intros e. destruct (sink_copy s2 (take t want) (take m (drop t want)) e) as (r & m' & h & Ec & Hr2);
    [apply Hc2|by eapply sink_frame|rewrite <- Ech; apply Forall_take, Forall_drop, Hbytes|lia|].
  rewrite Etl in Ec. exists r, (with_mem s2 m' h). split; [exact Ec|]. clear e Ec. set (s3 := with_mem s2 m' h) in *.
  assert (cache s3 D P {[bp := (b, cview D P b)]}) as Hc3 by (by apply cache_mem).
  destruct (brelse_ok p s3 D P _ bp b Hc3 (lookup_singleton_eq _ _)) as (s4 & E4 & Hc4 & F4). rewrite delete_singleton_eq in Hc4.
  assert (moved s s4) as Hm.
  { eapply moved_trans; [by apply framed_moved|]. eapply moved_trans; [apply moved_mem|by apply framed_moved]. }
  destruct Hr2 as [[-> Hs3]|[-> Hs3]].
  - change (0 =? -1) with false. eapply cwp_bind_ok; [exact E4|]. apply cwp_ret. left. split.
    + unfold at_byte. rewrite u32_small by (unfold o; lia). rewrite Nat.add_assoc, !Nat2Z.inj_add, (Z.add_assoc dst).
      unfold u64. rewrite Z.add_mod_idemp_l by lia. unfold o. by rewrite Nat2Z.inj_add.
    + split; [by rewrite (moved_inode _ _ _ Hm)|done|by eapply moved_trans| |lia]. rewrite <- Etm. by eapply sink_frame.
  - change (-1 =? -1) with true. eapply cwp_bind_ok; [exact E4|]. apply cwp_ret. right. split; [done|]. split; [done|].
    split; [by eapply moved_trans|by eapply short_frame].
Qed.

Lemma span_step t : (t < length want)%nat →
  (S (span (off + (t + round_bytes t)) (length want - (t + round_bytes t))) <= span (off + t) (length want - t))%nat.
Proof. apply span_next. Qed.

Lemma readi_loop_ok fuel s0 s t :
  reading s0 s t → (length want - t < fuel)%nat →
  cwp (2 * span (off + t) (length want - t)) (loop fuel (readi_loop ip user_dst (Z.of_nat (length want))) (at_byte t)) s
    (read_post s0 want) (λ D', D' = D).
Proof.
  revert s t. induction fuel as [|fuel IH]; intros s t Hrd Hf; [lia|]. cbn [loop]. pose proof Hrd as [R1 R2 R3 R4 R5].
  destruct (decide (t = length want)) as [->|Hne].
  - eapply cwp_bind_ok.
    { intros e. unfold readi_loop, at_byte. rewrite (proj2 (Z.leb_le _ _)) by lia. reflexivity. }
    eapply cwp_mono; [apply cwp_ret|lia| |done]; [|intros r s' H; exact H].
    split; [done|]. split; [done|]. left. split; [done|]. by rewrite firstn_all in R4.
  - pose proof (span_step t ltac:(lia)) as Hsp. set (m := round_bytes t) in *.
    assert (0 < m)%nat by (unfold m, round_bytes; ndlia).
    eapply (cwp_mono p (2 + 2 * span (off + (t + m)) (length want - (t + m))) _ _ _ _ _ (λ D', D' = D));
      [|lia|intros r s' H'; exact H'|done].
    apply cwp_bind. eapply cwp_mono; [apply (readi_round s0 s t Hrd); lia|done| |done].
    intros r s1 [[-> Hrd1]|(-> & Hc1 & Hm1 & Hs1)].
    + cbv iota beta. fold m. apply IH; [done|lia].
    + cbv iota beta. eapply cwp_mono; [apply cwp_ret|lia| |done]; [|intros r s' H'; exact H']. split; [done|]. split; [done|]. by right.
Qed.

End bytes.

(** Reading [n] bytes at [off] delivers what the file has there, or stops short. *)
Lemma readi_ok s off n :
  0 <= dst < 18446744073709551616 → inode_at s ip = x → cache s D P ∅ → sink s [] → (length content <= 268 * 1024)%nat →
  Z.of_nat off + Z.of_nat n < 4294967296 → let want := take n (drop off content) in (length want <= room)%nat →
  cwp (2 * span off (length want)) (readi ip user_dst dst (Z.of_nat off) (Z.of_nat n)) s
    (read_post s want) (λ D', D' = D).
Proof.
  intros Hdst Hx Hc Hs Hmax Hn want Hroom. unfold readi. eapply cwp_bind_ok; [intros e; reflexivity|]. rewrite Hx.
  pose proof (fr_size _ _ _ _ Hrep) as Hsize. change (di_size (dinode_of x)) with (i_size x) in Hsize. rewrite Hsize.
  rewrite (u32_small (_ + _)) by lia. rewrite (proj2 (Z.ltb_ge (Z.of_nat off + Z.of_nat n) (Z.of_nat off))), orb_false_r by lia.
  assert (length want = Nat.min n (length content - off)) as Hw by (unfold want; rewrite length_take, length_drop; lia).
  destruct (Z.ltb_spec (Z.of_nat (length content)) (Z.of_nat off)) as [Hoff|Hoff].
  - assert (want = []) as -> by (apply nil_length_inv; lia).
    eapply cwp_mono; [apply cwp_ret|lia|intros r s' H; exact H|done].
    split; [done|]. split; [apply moved_refl|]. by left.
  - assert ((if Z.of_nat (length content) <? Z.of_nat off + Z.of_nat n then u32 (Z.of_nat (length content) - Z.of_nat off) else Z.of_nat n)
      = Z.of_nat (length want)) as ->.
    { destruct (Z.ltb_spec (Z.of_nat (length content)) (Z.of_nat off + Z.of_nat n)); [rewrite u32_small by lia|]; lia. }
    cbv zeta. rewrite Nat2Z.id.
    rewrite <- (Nat.add_0_r (2 * span off (length want))). apply cwp_bind.
    assert (want = take (length want) (drop off content)) as Hw2.
    { unfold want. rewrite length_take. destruct (Nat.le_ge_cases n (length (drop off content))); [by rewrite Nat.min_l|].
      by rewrite Nat.min_r, firstn_all, take_ge. }
    pose proof (readi_loop_ok off want Hw2 ltac:(lia) Hroom Hmax (S (length want)) s s 0) as Hl. unfold at_byte in Hl.
    rewrite Nat.add_0_r, Nat.sub_0_r, Z.add_0_r, (u64_small dst Hdst) in Hl.
    eapply cwp_mono; [|apply Nat.le_refl| |intros D' HD; exact HD].
    + apply Hl; [|lia]. split; [done|done|apply moved_refl|done|lia].
    + intros r s1 (H1 & H2 & H3). apply cwp_ret. split; [done|]. split; [done|].
      destruct H3 as [[-> H3]|[-> H3]]; [left|by right]. split; [|done]. apply i32_small. lia.
Qed.

End readi.

End read.
