(* ===== verification/InodeSpec.v ===== *)
(** The table of in-memory inodes of kernel/fs.c: [iget], [idup], [ilock],
    [iunlock] and [iput] of Fs.v.

    [itab v t] says that the table [t] caches the inodes on the blocks [v];
    [refs t inum] is the number of references to an inode.  The operations are
    described by what they do to [refs]. *)

From S2P Require Export FsRead.

(** ** Sleep locks of inodes *)

Section ilocks.
Context `{L : Layout}.
Context (s : kstate) (p ip : nat).
Notation x := (inode_at s ip).

Definition put_inode (s : kstate) (ip : nat) (y : inode) : kstate := s <| k_inodes ::= <[ip := y]> |>.

Definition lock_inode (pid : Z) (y : inode) : inode :=
  y <| i_lock ::= λ l, l <| slk_locked := 1 |> <| slk_pid := pid |> |>.
Definition unlock_inode (y : inode) : inode :=
  y <| i_lock ::= λ l, l <| slk_locked := 0 |> <| slk_pid := 0 |> |>.

Lemma holdingsleep_inode e :
  calm s p → (ip < NINODE)%nat →
  holdingsleep (SLinode ip) s e =
    Ok (negb (slk_locked (i_lock x) =? 0) && (slk_pid (i_lock x) =? p_pid (proc_at s p))) s e.
Proof.
  intros Hc Hb. unfold holdingsleep. simpl sl_lk.
  erewrite bind_Ok by (by eapply (calm_acquire s p (Linode ip))). rewrite bind_gets.
  set (s1 := s <| k_x := acquired (Linode ip) (k_x s) |>). change (sl_get (SLinode ip) s1) with (i_lock x).
  assert (s1 <| k_x := k_x s |> = s) as Hs by (by destruct s).
  destruct (slk_locked (i_lock x) =? 0); cbn [negb andb].
  - rewrite bind_ret. erewrite bind_Ok by (by apply (calm_release s s1 p)). by rewrite Hs.
  - rewrite bind_assoc. erewrite bind_Ok by (by eapply (calm_curproc_in s)).
    unfold get_proc. rewrite bind_assoc, bind_gets, bind_ret.
    erewrite bind_Ok by (by apply (calm_release s s1 p)). by rewrite Hs.
Qed.

Lemma acquiresleep_inode e :
  calm s p → (ip < NINODE)%nat → (ip < length (k_inodes s))%nat → slk_locked (i_lock x) = 0 →
  acquiresleep (SLinode ip) s e = Ok tt (put_inode s ip (lock_inode (p_pid (proc_at s p)) x)) e.
Proof.
  intros Hc Hb Hlen H0. unfold acquiresleep. simpl sl_lk.
  erewrite bind_Ok by (by eapply (calm_acquire s p (Linode ip))).
  set (s1 := s <| k_x := acquired (Linode ip) (k_x s) |>).
  erewrite bind_Ok.
  2:{ apply wait_loop_now. rewrite bind_gets. change (sl_get (SLinode ip) s1) with (i_lock x). by rewrite H0. }
  unfold sl_upd, upd_inode. rewrite bind_modify.
  erewrite bind_Ok by (by eapply (calm_curproc_in s)).
  unfold get_proc. rewrite bind_gets, bind_modify.
  erewrite (calm_release s) by done. f_equal. unfold s1, put_inode, inode_at. simpl.
  rewrite list_lookup_total_insert_eq, list_insert_insert_eq by done. by destruct s.
Qed.

Lemma releasesleep_inode e :
  calm s p → (ip < NINODE)%nat → (ip < length (k_inodes s))%nat →
  releasesleep (SLinode ip) s e =
    Ok tt ((put_inode s ip (unlock_inode x)) <| k_procs := wake (ChInodeLock ip) (Some p) (k_procs s) |>) e.
Proof.
  intros Hc Hb Hlen. unfold releasesleep. simpl sl_lk. simpl sl_chan.
  erewrite bind_Ok by (by eapply (calm_acquire s p (Linode ip))).
  unfold sl_upd, upd_inode. rewrite !bind_modify.
  erewrite bind_Ok by (apply (calm_wakeup s _ p (Linode ip)); [done|done|done|by apply Hc]).
  erewrite (calm_release s) by done. f_equal. unfold put_inode, inode_at. simpl.
  rewrite list_lookup_total_insert_eq, list_insert_insert_eq by done. by destruct s.
Qed.

End ilocks.

(** ** The table *)

(** The references to inode [inum]. *)
Definition refs (t : list inode) (inum : Z) : Z :=
  foldr (λ x a, (if i_inum x =? inum then i_ref x else 0) + a) 0 t.

Definition ref_to (x : inode) (inum : Z) : Z := if i_inum x =? inum then i_ref x else 0.

Lemma refs_insert t i y inum :
  (i < length t)%nat → refs (<[i := y]> t) inum = refs t inum - ref_to (t !!! i) inum + ref_to y inum.
Proof.
  revert i. induction t as [|x t IH]; intros i Hi; simpl in Hi; [lia|]. destruct i as [|i]; cbn [insert list_insert refs foldr].
  - unfold ref_to. simpl. unfold refs. lia.
  - change (foldr _ 0 (<[i := y]> t)) with (refs (<[i := y]> t) inum). rewrite IH by lia.
    change (foldr _ 0 t) with (refs t inum). change ((x :: t) !!! S i) with (t !!! i). lia.
Qed.

Section itable.
Context (sb : superblock) (v : Z → list Z).

(** The inode [inum] on the disk. *)
Definition disk_inode (inum : Z) : dinode := get_dinode (v (IBLOCK inum sb)) inum.

Definition inum_ok (inum : Z) : Prop := 0 < inum < sb_ninodes sb ∧ inum < 4294967296.

(** [held] is the inode that the current process, [pid], has locked. *)
Record itab (pid : Z) (held : option nat) (t : list inode) : Prop := {
  it_len : length t = NINODE;
  it_ref : ∀ i, (i < NINODE)%nat → 0 <= i_ref (t !!! i);
  it_dev : ∀ i, (i < NINODE)%nat → 0 < i_ref (t !!! i) → i_dev (t !!! i) = ROOTDEV ∧ inum_ok (i_inum (t !!! i));
  it_valid : ∀ i, (i < NINODE)%nat → 0 < i_ref (t !!! i) → i_valid (t !!! i) ≠ 0 →
    dinode_of (t !!! i) = disk_inode (i_inum (t !!! i));
  it_uniq : ∀ i j, (i < NINODE)%nat → (j < NINODE)%nat → 0 < i_ref (t !!! i) → 0 < i_ref (t !!! j) →
    i_inum (t !!! i) = i_inum (t !!! j) → i = j;
  it_lock : ∀ i, (i < NINODE)%nat →
    if decide (held = Some i) then slk_locked (i_lock (t !!! i)) ≠ 0 ∧ slk_pid (i_lock (t !!! i)) = pid ∧
      0 < i_ref (t !!! i) ∧ i_valid (t !!! i) ≠ 0
    else slk_locked (i_lock (t !!! i)) = 0;
}.

Lemma itab_put pid held held' t i y :
  itab pid held t → (i < NINODE)%nat → 0 <= i_ref y →
  (0 < i_ref y → i_dev y = ROOTDEV ∧ inum_ok (i_inum y)) →
  (0 < i_ref y → i_valid y ≠ 0 → dinode_of y = disk_inode (i_inum y)) →
  (0 < i_ref y → ∀ j, (j < NINODE)%nat → j ≠ i → 0 < i_ref (t !!! j) → i_inum (t !!! j) ≠ i_inum y) →
  (if decide (held' = Some i) then slk_locked (i_lock y) ≠ 0 ∧ slk_pid (i_lock y) = pid ∧ 0 < i_ref y ∧ i_valid y ≠ 0
   else slk_locked (i_lock y) = 0) →
  (∀ j, j ≠ i → held' = Some j ↔ held = Some j) → itab pid held' (<[i := y]> t).
Proof.
  intros [H1 H2 H3 H4 H5 H6] Hi Y1 Y2 Y3 Y4 Y5 Hh.
  assert (∀ j, <[i := y]> t !!! j = if decide (j = i) then y else t !!! j) as E.
  { intros j. destruct (decide (j = i)) as [->|]; [apply list_lookup_total_insert_eq; lia|by apply list_lookup_total_insert_ne]. }
  split.
  - by rewrite length_insert.
  - intros j Hj. rewrite E. destruct (decide (j = i)); auto.
  - intros j Hj. rewrite E. destruct (decide (j = i)); auto.
  - intros j Hj. rewrite E. destruct (decide (j = i)); auto.
  - intros j k Hj Hk. rewrite !E. destruct (decide (j = i)), (decide (k = i)); subst; try done; intros R1 R2 En.
    + exfalso. by apply (Y4 R1 k).
    + exfalso. by apply (Y4 R2 j).
    + by apply H5.
  - intros j Hj. rewrite E. destruct (decide (j = i)) as [->|N]; [done|]. specialize (H6 j Hj). specialize (Hh j N).
    destruct (decide (held' = Some j)), (decide (held = Some j)); tauto.
Qed.

(** The inodes with references. *)
Definition live (t : list inode) : list Z := i_inum <$> filter (λ x, 0 < i_ref x) t.

Lemma live_full t : (∀ x, x ∈ t → 0 < i_ref x) → length (live t) = length t.
Proof.
  induction t as [|x t IH]; intros H; [done|]. unfold live in *. rewrite filter_cons_True by (apply H; by left).
  cbn [fmap list_fmap length]. rewrite IH; [done|]. intros y Hy. apply H. by right.
Qed.

Lemma refs_nonneg t inum : (∀ x, x ∈ t → 0 <= i_ref x) → 0 <= refs t inum.
Proof.
  induction t as [|x t IH]; intros H; [done|]. cbn [refs foldr]. change (foldr _ 0 t) with (refs t inum).
  assert (0 <= i_ref x) by (apply H; by left). assert (0 <= refs t inum) by (apply IH; intros; apply H; by right).
  destruct (i_inum x =? inum); lia.
Qed.

Lemma elem_live t inum : (∀ x, x ∈ t → 0 <= i_ref x) → inum ∈ live t ↔ 0 < refs t inum.
Proof.
  induction t as [|x t IH]; intros H; [split; [by intros ?%elem_of_nil|done]|].
  assert (0 <= i_ref x) by (apply H; by left). assert (∀ y, y ∈ t → 0 <= i_ref y) as Ht by (intros; apply H; by right).
  pose proof (refs_nonneg t inum Ht). cbn [refs foldr]. change (foldr _ 0 t) with (refs t inum). unfold live in *.
  rewrite filter_cons. destruct (Z.eqb_spec (i_inum x) inum) as [E|E]; case_decide as D; cbn [fmap list_fmap]; rewrite ?elem_of_cons, IH by done.
  - split; [lia|]. by left.
  - lia.
  - split; [intros [?|?]; [done|lia]|]. intros. right. lia.
  - lia.
Qed.

Lemma itab_nonneg pid held t : itab pid held t → ∀ x, x ∈ t → 0 <= i_ref x.
Proof.
  intros H x [i Hi]%list_elem_of_lookup. pose proof (lookup_lt_Some _ _ _ Hi) as Hl. rewrite (it_len _ _ _ H) in Hl.
  rewrite <- (list_lookup_total_correct _ _ _ Hi). by apply (it_ref _ _ _ H).
Qed.

Lemma live_nodup pid held t : itab pid held t → NoDup (live t).
Proof.
  intros H. unfold live. assert (∀ i j x y, t !! i = Some x → t !! j = Some y → 0 < i_ref x → 0 < i_ref y → i_inum x = i_inum y → i = j) as Hu.
  { intros i j x y Hi Hj Rx Ry En. pose proof (lookup_lt_Some _ _ _ Hi). pose proof (lookup_lt_Some _ _ _ Hj). rewrite (it_len _ _ _ H) in *.
    apply list_lookup_total_correct in Hi, Hj. subst. by eapply (it_uniq _ _ _ H). }
  clear H. induction t as [|x t IH]; [apply NoDup_nil_2|]. rewrite filter_cons.
  assert (NoDup (i_inum <$> filter (λ x, 0 < i_ref x) t)) as Hnd.
  { apply IH. intros i j a b Ha Hb R1 R2 En. by injection (Hu (S i) (S j) a b Ha Hb R1 R2 En). }
  case_decide as D; [|done]. cbn [fmap list_fmap]. apply NoDup_cons. split; [|done].
  intros (y & Ey & [Ry [j Hj]%list_elem_of_lookup]%list_elem_of_filter)%list_elem_of_fmap.
  by discriminate (Hu 0%nat (S j) x y eq_refl Hj D Ry Ey).
Qed.

Lemma live_index pid held t inum :
  itab pid held t → 0 < refs t inum → ∃ i, (i < NINODE)%nat ∧ 0 < i_ref (t !!! i) ∧ i_inum (t !!! i) = inum.
Proof.
  intros H Hr. apply elem_live in Hr; [|by eapply itab_nonneg]. unfold live in Hr.
  apply list_elem_of_fmap in Hr as (x & -> & [Rx [i Hi]%list_elem_of_lookup]%list_elem_of_filter).
  pose proof (lookup_lt_Some _ _ _ Hi) as Hl. rewrite (it_len _ _ _ H) in Hl. apply list_lookup_total_correct in Hi as Ei.
  exists i. by rewrite Ei.
Qed.

(** At most one more inode is live after one more reference. *)
Lemma live_le pid held t pid' held' t' n :
  itab pid held t → itab pid' held' t' → (∀ inum, inum ≠ n → refs t' inum <= refs t inum) →
  (length (live t') <= S (length (live t)))%nat.
Proof.
  intros H H' Hr. change (S (length (live t))) with (length (n :: live t)). apply submseteq_length, NoDup_submseteq; [by eapply live_nodup|].
  intros m Hm. apply elem_live in Hm; [|by eapply itab_nonneg]. destruct (decide (m = n)) as [->|N]; [by left|right].
  apply elem_live; [by eapply itab_nonneg|]. specialize (Hr m N). lia.
Qed.

End itable.

(** ** The operations *)

Lemma iget_scan_spec t dev inum n i empty :
  match iget_scan t dev inum n i empty with
  | inl k => (i <= k < i + n)%nat ∧ 0 < i_ref (t !!! k) ∧ i_dev (t !!! k) = dev ∧ i_inum (t !!! k) = inum
  | inr o =>
      (∀ k, (i <= k < i + n)%nat → 0 < i_ref (t !!! k) → i_dev (t !!! k) = dev → i_inum (t !!! k) ≠ inum) ∧
      match o with
      | Some k => empty = Some k ∨ (i <= k < i + n)%nat ∧ i_ref (t !!! k) = 0
      | None => empty = None ∧ ∀ k, (i <= k < i + n)%nat → i_ref (t !!! k) ≠ 0
      end
  end.
Proof.
  revert i empty. induction n as [|n IH]; intros i empty; cbn [iget_scan].
  { split; [intros; lia|]. destruct empty; [by left|]. split; [done|intros; lia]. }
  destruct ((0 <? i_ref (t !!! i)) && (i_dev (t !!! i) =? dev) && (i_inum (t !!! i) =? inum)) eqn:E.
  - apply andb_prop in E as [[E1 E2]%andb_prop E3]. apply Z.ltb_lt in E1. apply Z.eqb_eq in E2, E3. split; [lia|done].
  - set (empty' := match empty with None => _ | _ => _ end). specialize (IH (S i) empty').
    destruct (iget_scan t dev inum n (S i) empty') as [k|o]; [destruct IH as [? IH]; split; [lia|done]|].
    destruct IH as [I1 I2]. split.
    + intros k Hk Hr Hd Hn. destruct (decide (k = i)) as [->|]; [|by apply (I1 k ltac:(lia))].
      rewrite (proj2 (Z.ltb_lt _ _) Hr), (proj2 (Z.eqb_eq _ _) Hd), (proj2 (Z.eqb_eq _ _) Hn) in E. done.
    + unfold empty' in I2. destruct o as [k|].
      * destruct I2 as [I2|[? I2]]; [|right; split; [lia|done]]. destruct empty as [k0|]; [by left|].
        destruct (Z.eqb_spec (i_ref (t !!! i)) 0); [|done]. injection I2 as <-. right. split; [lia|done].
      * destruct I2 as [I2 I3]. destruct empty as [k0|]; [done|]. split; [done|]. intros k Hk.
        destruct (decide (k = i)) as [->|]; [|apply I3; lia]. by destruct (Z.eqb_spec (i_ref (t !!! i)) 0).
Qed.

Section ops.
Context `{L : Layout} `{V : VirtioDevice}.
Context (p : nat) (sb : superblock) (D P : blocks).
Context (Hsize : (size P < NBUF)%nat).
Context (Hiblock : ∀ inum, inum_ok sb inum → 0 <= IBLOCK inum sb < 2147483648).

Notation cache := (cache p).
Notation cwp := (cwp p).
Notation disk_inode := (disk_inode sb (cview D P)).

(** Between the operations of a system call that reads: no buffer is held, and
    inode [held] is locked. *)
Record fsat (s : kstate) (held : option nat) : Prop := {
  fa_cache : cache s D P ∅;
  fa_sb : k_sb s = sb;
  fa_itab : itab sb (cview D P) (p_pid (proc_at s p)) held (k_inodes s);
}.

(** The operations change the caches, the memory and the inode table only. *)
Record fmoved (s s' : kstate) : Prop := {
  fm_eq : s' = s <| k_disk := k_disk s' |> <| k_bufs := k_bufs s' |> <| k_procs := k_procs s' |>
                 <| k_mem := k_mem s' |> <| k_freelist := k_freelist s' |> <| k_inodes := k_inodes s' |>;
  fm_proc : proc_at s' p = proc_at s p;
}.

Lemma fmoved_refl s : fmoved s s.
Proof. split; [by destruct s|done]. Qed.
Lemma fmoved_trans s1 s2 s3 : fmoved s1 s2 → fmoved s2 s3 → fmoved s1 s3.
Proof. intros [E1 P1] [E2 P2]. split; [|congruence]. rewrite E2, E1. reflexivity. Qed.
Lemma moved_fmoved s s' : moved p s s' → fmoved s s'.
Proof. intros [E P']. split; [|done]. rewrite E. reflexivity. Qed.
Lemma fmoved_inodes s t : fmoved s (s <| k_inodes := t |>).
Proof. split; [by destruct s|done]. Qed.

Lemma cache_inodes s t H : cache s D P H → cache (s <| k_inodes := t |>) D P H.
Proof. intros [C1 C2 C3 C4 C5 C6 C7 C8]. split; try done. by apply (calm_ext s). Qed.

Lemma upd_inode_ok ip f s e :
  upd_inode ip f s e = Ok tt (s <| k_inodes ::= λ t, <[ip := f (t !!! ip)]> t |>) e.
Proof. done. Qed.

Lemma fsat_moved s s' held : fsat s held → moved p s s' → cache s' D P ∅ → fsat s' held.
Proof. intros [F1 F2 F3] M Hc. split; [done| |]; [by destruct M as [-> _]|]. destruct M as [E M]. rewrite M. by rewrite E. Qed.

Lemma upd_inode_twice {A} ip f g (k : K A) s e :
  (ip < length (k_inodes s))%nat →
  (upd_inode ip f;; upd_inode ip g;; k) s e = (upd_inode ip (λ x, g (f x));; k) s e.
Proof.
  intros H. unfold upd_inode. rewrite !bind_modify. f_equal. unfold inode_at, set. simpl.
  by rewrite list_lookup_total_insert_eq, list_insert_insert_eq.
Qed.

(** The critical section of [idup] and [iput]. *)
Lemma itable_section s ip f e :
  calm s p →
  (upd_inode ip f;; release Litable) (s <| k_x := acquired Litable (k_x s) |>) e =
  Ok tt (s <| k_inodes := <[ip := f (inode_at s ip)]> (k_inodes s) |>) e.
Proof.
  intros Hc. erewrite bind_Ok by apply upd_inode_ok. rewrite (calm_release s _ p) by done. by destruct s.
Qed.

(** The number of references to [ip] changes by [n]. *)
Lemma recount_fsat s held ip n :
  fsat s held → (ip < NINODE)%nat → 0 < i_ref (inode_at s ip) → 0 <= i_ref (inode_at s ip) + n →
  (held = Some ip → 0 < i_ref (inode_at s ip) + n) →
  let t' := <[ip := (inode_at s ip) <| i_ref ::= λ r, r + n |>]> (k_inodes s) in
  fsat (s <| k_inodes := t' |>) held ∧
  ∀ m, refs t' m = refs (k_inodes s) m + if decide (m = i_inum (inode_at s ip)) then n else 0.
Proof.
  intros [F1 F2 F3] Hip Hr Hn Hh t'. pose proof F3 as [I1 I2 I3 I4 I5 I6]. unfold inode_at in *. split.
  - split; [by apply cache_inodes|done|]. simpl. apply (itab_put _ _ _ held); try done; simpl.
    + intros _. by apply I3.
    + intros _ Hv. by apply I4.
    + intros _ j Hj Nj Rj En. apply Nj. by apply I5.
    + specialize (I6 ip Hip). destruct (decide (held = Some ip)) as [E|]; [|done]. destruct I6 as (? & ? & ? & ?). auto.
  - intros m. unfold t'. rewrite refs_insert by lia. unfold ref_to. simpl.
    destruct (decide (m = i_inum (k_inodes s !!! ip))) as [->|N]; [rewrite Z.eqb_refl; lia|].
    rewrite (proj2 (Z.eqb_neq _ _)) by done. lia.
Qed.

(** A free entry of the table is given to inode [inum]. *)
Lemma fresh_fsat s held ip inum :
  fsat s held → inum_ok sb inum → (ip < NINODE)%nat → i_ref (inode_at s ip) = 0 →
  (∀ j, (j < NINODE)%nat → 0 < i_ref (k_inodes s !!! j) → i_inum (k_inodes s !!! j) ≠ inum) →
  let t' := <[ip := (inode_at s ip) <| i_dev := ROOTDEV |> <| i_inum := inum |> <| i_ref := 1 |> <| i_valid := 0 |>]> (k_inodes s) in
  fsat (s <| k_inodes := t' |>) held ∧
  ∀ m, refs t' m = refs (k_inodes s) m + if decide (m = inum) then 1 else 0.
Proof.
  intros [F1 F2 F3] Hin Hip Hr Hno t'. pose proof F3 as [I1 I2 I3 I4 I5 I6]. unfold inode_at in *. split.
  - split; [by apply cache_inodes|done|]. simpl. apply (itab_put _ _ _ held); try done; simpl.
    + intros _ j Hj _ Rj. by apply Hno.
    + specialize (I6 ip Hip). destruct (decide (held = Some ip)) as [E|]; [lia|done].
  - intros m. unfold t'. rewrite refs_insert by lia. unfold ref_to. simpl. rewrite Hr.
    destruct (decide (m = inum)) as [->|N]; [rewrite Z.eqb_refl; destruct (_ =? _); lia|].
    rewrite (proj2 (Z.eqb_neq inum m)) by done. destruct (_ =? _); lia.
Qed.

(** [iget] takes the entry its scan finds. *)
Lemma iget_takes s inum e :
  calm s p → length (k_inodes s) = NINODE →
  iget ROOTDEV inum s e =
  match iget_scan (k_inodes s) ROOTDEV inum NINODE 0 None with
  | inl ip => Ok ip (s <| k_inodes := <[ip := (inode_at s ip) <| i_ref ::= λ n, n + 1 |>]> (k_inodes s) |>) e
  | inr (Some ip) => if decide (ip < NINODE)%nat then
      Ok ip (s <| k_inodes := <[ip := (inode_at s ip) <| i_dev := ROOTDEV |> <| i_inum := inum |> <| i_ref := 1 |> <| i_valid := 0 |>]>
        (k_inodes s) |>) e else iget ROOTDEV inum s e
  | inr None => iget ROOTDEV inum s e
  end.
Proof.
  intros Hc Hl. destruct (iget_scan _ _ _ _ _ _) as [ip|[ip|]] eqn:E; [| |done]; [|destruct (decide _); [|done]];
    unfold iget; erewrite bind_Ok by (by eapply (calm_acquire s p Litable)); rewrite bind_gets;
    change (k_inodes (set k_x _ s)) with (k_inodes s); rewrite E.
  - rewrite <- bind_assoc. by erewrite bind_Ok by (by apply itable_section).
  - rewrite !upd_inode_twice by (change (k_inodes (set k_x _ s)) with (k_inodes s); lia).
    rewrite <- bind_assoc. by erewrite bind_Ok by (by apply itable_section).
Qed.

(** [iget] gives a reference. *)
Lemma iget_ok s held inum :
  fsat s held → inum_ok sb inum → (length (live (k_inodes s)) < NINODE)%nat →
  ∃ ip t', (∀ e, iget ROOTDEV inum s e = Ok ip (s <| k_inodes := t' |>) e) ∧ fsat (s <| k_inodes := t' |>) held ∧
    (ip < NINODE)%nat ∧ i_inum (t' !!! ip) = inum ∧ 0 < i_ref (t' !!! ip) ∧
    (∀ m, refs t' m = refs (k_inodes s) m + if decide (m = inum) then 1 else 0) ∧
    (∀ j, 0 < i_ref (k_inodes s !!! j) → i_inum (t' !!! j) = i_inum (k_inodes s !!! j)).
Proof.
  intros Hf Hin Hlive. pose proof (ch_calm _ _ _ _ _ (fa_cache _ _ Hf)) as Hcalm.
  pose proof (fa_itab _ _ Hf) as [I1 I2 I3 I4 I5 I6]. pose proof (iget_scan_spec (k_inodes s) ROOTDEV inum NINODE 0 None) as Hs.
  pose proof (λ e, iget_takes s inum e Hcalm I1) as Hget.
  destruct (iget_scan (k_inodes s) ROOTDEV inum NINODE 0 None) as [ip|[ip|]] eqn:Escan.
  - destruct Hs as (Hip & Hr & Hd & Hn). rewrite Nat.add_0_l in Hip. 
    destruct (recount_fsat s held ip 1 Hf ltac:(lia) Hr) as [Hf' Hrefs]; [change (inode_at s ip) with (k_inodes s !!! ip); lia..|].
    exists ip. eexists. split; [exact Hget|]. split; [exact Hf'|]. split; [lia|].
    rewrite list_lookup_total_insert_eq by lia. split; [done|]. split; [change (inode_at s ip) with (k_inodes s !!! ip); simpl; lia|].
    split; [intros m; rewrite Hrefs; change (inode_at s ip) with (k_inodes s !!! ip); by rewrite Hn|]. intros j _.
    destruct (decide (j = ip)) as [->|Nj]; [by rewrite list_lookup_total_insert_eq by lia|by rewrite list_lookup_total_insert_ne].
  - destruct Hs as [Hno [?|[Hip Hr]]]; [done|]. rewrite Nat.add_0_l in *. destruct (decide (ip < NINODE)%nat); [|lia].
    destruct (fresh_fsat s held ip inum Hf Hin ltac:(lia) Hr) as [Hf' Hrefs].
    { intros j Hj Rj En. apply (Hno j ltac:(lia) Rj); [|done]. by apply I3. }
    exists ip. eexists. split; [exact Hget|]. split; [exact Hf'|]. split; [lia|].
    rewrite list_lookup_total_insert_eq by lia. split; [done|]. split; [done|]. split; [done|].
    intros j Rj. destruct (decide (j = ip)) as [->|Nj]; [lia|by rewrite list_lookup_total_insert_ne].
  - destruct Hs as [_ [_ Hs]]. exfalso. assert (length (live (k_inodes s)) = NINODE); [|lia].
    rewrite <- I1. apply live_full. intros x [i Hi]%list_elem_of_lookup. pose proof (lookup_lt_Some _ _ _ Hi) as Hl. rewrite I1 in Hl.
    rewrite <- (list_lookup_total_correct _ _ _ Hi). specialize (I2 i Hl). specialize (Hs i ltac:(lia)). lia.
Qed.

(** Locking changes the caches and the inode table only. *)
Record imoved (s s' : kstate) : Prop := {
  im_eq : s' = s <| k_disk := k_disk s' |> <| k_bufs := k_bufs s' |> <| k_procs := k_procs s' |>
                 <| k_inodes := k_inodes s' |>;
  im_proc : proc_at s' p = proc_at s p;
}.

Lemma imoved_trans s1 s2 s3 : imoved s1 s2 → imoved s2 s3 → imoved s1 s3.
Proof. intros [E1 P1] [E2 P2]. split; [|congruence]. rewrite E2, E1. reflexivity. Qed.
Lemma framed_imoved s s' : framed p s s' → imoved s s'.
Proof. intros [E P']. split; [|done]. rewrite E. reflexivity. Qed.
Lemma imoved_inodes s t : imoved s (s <| k_inodes := t |>).
Proof. split; [by destruct s|done]. Qed.
Lemma imoved_fmoved s s' : imoved s s' → fmoved s s'.
Proof. intros [E P']. split; [|done]. rewrite E. reflexivity. Qed.

(** The same inodes with the same references. *)
Definition same_ids (t t' : list inode) : Prop :=
  length t' = length t ∧ ∀ j, i_inum (t' !!! j) = i_inum (t !!! j) ∧ i_ref (t' !!! j) = i_ref (t !!! j).

Lemma same_ids_refl t : same_ids t t.
Proof. done. Qed.
Lemma same_ids_trans t1 t2 t3 : same_ids t1 t2 → same_ids t2 t3 → same_ids t1 t3.
Proof. intros [L1 H1] [L2 H2]. split; [congruence|]. intros j. destruct (H1 j), (H2 j). split; congruence. Qed.
Lemma same_ids_insert t i y :
  i_inum y = i_inum (t !!! i) → i_ref y = i_ref (t !!! i) → same_ids t (<[i := y]> t).
Proof.
  intros H1 H2. split; [by rewrite length_insert|]. intros j.
  destruct (decide (j = i)) as [->|N]; [|by rewrite list_lookup_total_insert_ne].
  destruct (decide (i < length t)%nat); [by rewrite list_lookup_total_insert_eq|by rewrite list_insert_ge by lia].
Qed.
Lemma same_ids_refs t t' m : same_ids t t' → refs t' m = refs t m.
Proof.
  revert t'. induction t as [|x t IH]; intros [|y t'] [Hl H]; try done. cbn [refs foldr].
  destruct (H 0%nat) as [H1 H2]. cbn in H1, H2. rewrite H1, H2. f_equal. apply (IH t'). split; [by injection Hl|].
  intros j. exact (H (S j)).
Qed.

Lemma fsat_put s s' held held' ip y :
  fsat s held → cache s' D P ∅ → k_sb s' = k_sb s → proc_at s' p = proc_at s p → k_inodes s' = <[ip := y]> (k_inodes s) →
  (ip < NINODE)%nat → i_inum y = i_inum (inode_at s ip) → i_ref y = i_ref (inode_at s ip) → i_dev y = i_dev (inode_at s ip) →
  (i_valid y ≠ 0 → 0 < i_ref y → dinode_of y = disk_inode (i_inum y)) →
  (if decide (held' = Some ip) then slk_locked (i_lock y) ≠ 0 ∧ slk_pid (i_lock y) = p_pid (proc_at s p) ∧ 0 < i_ref y ∧ i_valid y ≠ 0
   else slk_locked (i_lock y) = 0) →
  (∀ j, j ≠ ip → held' = Some j ↔ held = Some j) → fsat s' held'.
Proof.
  intros [F1 F2 F3] Hc Hsb Hp Hin Hip E1 E2 E3 Hv Hl Hh. split; [done|congruence|]. rewrite Hp, Hin.
  pose proof F3 as [I1 I2 I3 I4 I5 I6]. unfold inode_at in *. eapply (itab_put _ _ _ held); try done; rewrite ?E1, ?E2, ?E3; auto.
  intros Hr Hvy. rewrite <- E1. apply Hv; [done|lia].
Qed.

Definition load_inode (d : dinode) (x : inode) : inode :=
  x <| i_type := di_type d |> <| i_major := di_major d |> <| i_minor := di_minor d |> <| i_nlink := di_nlink d |>
    <| i_size := di_size d |> <| i_addrs := di_addrs d |>.

Lemma ilock_ok s ip (Q : unit → kstate → Prop) :
  fsat s None → (ip < NINODE)%nat → 0 < i_ref (inode_at s ip) → di_type (disk_inode (i_inum (inode_at s ip))) ≠ 0 →
  (∀ s', fsat s' (Some ip) → imoved s s' → same_ids (k_inodes s) (k_inodes s') →
     dinode_of (inode_at s' ip) = disk_inode (i_inum (inode_at s ip)) → Q tt s') →
  cwp 1 (ilock (Some ip)) s Q (λ D', D' = D).
Proof.
  intros Hf Hip Hr Hty HQ. pose proof Hf as [F1 F2 F3]. pose proof F3 as [I1 I2 I3 I4 I5 I6]. set (x := inode_at s ip) in *.
  pose proof (ch_calm _ _ _ _ _ F1) as Hcalm. specialize (I6 ip Hip). cbn in I6. specialize (I3 ip Hip Hr). specialize (I4 ip Hip Hr).
  change (k_inodes s !!! ip) with x in *. unfold ilock. eapply cwp_bind_ok; [intros e; reflexivity|]. fold x.
  rewrite (proj2 (Z.ltb_ge _ 1)) by lia. eapply cwp_bind_ok; [intros e; apply (acquiresleep_inode s p ip); (done || lia)|].
  set (y := lock_inode (p_pid (proc_at s p)) (inode_at s ip)). set (s1 := put_inode s ip y).
  assert (inode_at s1 ip = y) as Ey by (apply list_lookup_total_insert_eq; simpl; lia).
  eapply cwp_bind_ok; [intros e; reflexivity|]. rewrite Ey.
  assert (cache s1 D P ∅) as Hc1 by (by apply cache_inodes).
  assert (imoved s s1) as M1 by apply imoved_inodes.
  destruct (decide (i_valid x = 0)) as [Hv|Hv].
  - change (i_valid y) with (i_valid x). rewrite (proj2 (Z.eqb_eq _ _) Hv). cbn [when]. eapply cwp_bind_ok; [intros e; reflexivity|].
    change (k_sb s1) with (k_sb s). rewrite F2. change (i_dev y) with (i_dev x). change (i_inum y) with (i_inum x).
    rewrite (proj1 I3). apply (bread_brelse p s1 D P _ 0); [done|done|apply Hiblock, I3|done|]. intros b s2 Hc2 Fr2 Ed.
    eapply cwp_bind_ok; [intros e; reflexivity|]. rewrite Ed. fold (disk_inode (i_inum x)). set (d := disk_inode (i_inum x)) in *.
    cbv zeta. eapply cwp_bind_ok; [intros e; apply upd_inode_ok|]. fold (load_inode d).
    set (s3 := s2 <| k_inodes ::= _ |>).
    assert (cache s3 D P {[b := (IBLOCK (i_inum x) sb, cview D P (IBLOCK (i_inum x) sb))]}) as Hc3 by (by apply cache_inodes).
    destruct (brelse_ok p s3 D P _ b _ Hc3 (lookup_singleton_eq _ _)) as (s4 & E4 & Hc4 & Fr4). rewrite delete_singleton_eq in Hc4.
    eapply cwp_bind_ok; [exact E4|]. eapply cwp_bind_ok; [intros e; apply upd_inode_ok|]. set (s5 := s4 <| k_inodes ::= _ |>).
    assert (k_inodes s2 = <[ip := y]> (k_inodes s)) as Ei2 by (destruct Fr2 as [-> _]; done).
    assert (k_inodes s5 = <[ip := (load_inode d y) <| i_valid := 1 |>]> (k_inodes s)) as Ei5.
    { destruct Fr4 as [Eq4 _]. unfold s5. rewrite Eq4. unfold s3. simpl. rewrite Ei2.
      rewrite !list_lookup_total_insert_eq, !list_insert_insert_eq by (rewrite ?length_insert; lia). done. }
    assert (inode_at s5 ip = (load_inode d y) <| i_valid := 1 |>) as Ex5.
    { unfold inode_at. rewrite Ei5. apply list_lookup_total_insert_eq. lia. }
    assert (imoved s s5) as M5.
    { eapply imoved_trans; [exact M1|]. eapply imoved_trans; [apply framed_imoved, Fr2|]. eapply imoved_trans; [apply imoved_inodes|].
      eapply imoved_trans; [apply framed_imoved, Fr4|apply imoved_inodes]. }
    eapply cwp_bind_ok; [intros e; reflexivity|]. rewrite Ex5. change (i_type _) with (di_type d). rewrite (proj2 (Z.eqb_neq _ _) Hty).
    apply cwp_ret, HQ; [|done| |].
    + eapply (fsat_put s s5 None (Some ip) ip); try done; [by apply cache_inodes|by destruct M5 as [-> _]|apply M5| |].
      * rewrite decide_True by done. simpl. done.
      * intros j Nj. split; [by intros [= ->]|done].
    + rewrite Ei5. by apply same_ids_insert.
    + rewrite Ex5. by destruct d.
  - change (i_valid y) with (i_valid x). rewrite (proj2 (Z.eqb_neq _ _) Hv). cbn [when].
    eapply cwp_mono; [apply cwp_ret|lia|intros r s' H; exact H|done]. apply HQ; [|done| |].
    + eapply (fsat_put s s1 None (Some ip) ip); try done; [by intros; apply I4|by rewrite decide_True|].
      intros j Nj. split; [by intros [= ->]|done].
    + by apply same_ids_insert.
    + rewrite Ey. by apply I4.
Qed.

Lemma iunlock_ok s ip :
  fsat s (Some ip) → (ip < NINODE)%nat →
  ∃ s', (∀ e, iunlock (Some ip) s e = Ok tt s' e) ∧ fsat s' None ∧ imoved s s' ∧ same_ids (k_inodes s) (k_inodes s').
Proof.
  intros Hf Hip. pose proof Hf as [F1 F2 F3]. pose proof F3 as [I1 I2 I3 I4 I5 I6]. pose proof (ch_calm _ _ _ _ _ F1) as Hcalm.
  specialize (I6 ip Hip). rewrite decide_True in I6 by done. destruct I6 as (L1 & L2 & L3 & L4). specialize (I4 ip Hip L3 L4).
  change (k_inodes s !!! ip) with (inode_at s ip) in *. eexists. split; [|split; [|split]].
  - intros e. unfold iunlock. erewrite bind_Ok by (by apply (holdingsleep_inode s p ip)).
    rewrite (proj2 (Z.eqb_neq _ _) L1), L2, Z.eqb_refl. cbn [negb andb]. unfold get_inode. rewrite bind_gets.
    rewrite (proj2 (Z.ltb_ge _ 1)) by lia. apply (releasesleep_inode s p ip); [done|done|lia].
  - eapply (fsat_put s _ (Some ip) None ip); try done.
    + apply (cache_procs p _ (wake (ChInodeLock ip) (Some p) (k_procs s))); [by apply cache_inodes|]. apply same_proc_wake.
    + apply same_proc_wake.
    + intros j Nj. split; [done|]. by intros [= ->].
  - split; [by destruct s|]. apply same_proc_wake.
  - by apply same_ids_insert.
Qed.

Lemma iput_ok s ip :
  fsat s None → (ip < NINODE)%nat → 0 < i_ref (inode_at s ip) → di_nlink (disk_inode (i_inum (inode_at s ip))) ≠ 0 →
  ∃ t', (∀ e, iput ip s e = Ok tt (s <| k_inodes := t' |>) e) ∧ fsat (s <| k_inodes := t' |>) None ∧
    (∀ m, refs t' m = refs (k_inodes s) m - if decide (m = i_inum (inode_at s ip)) then 1 else 0) ∧
    (∀ j, i_inum (t' !!! j) = i_inum (k_inodes s !!! j)) ∧ (∀ j, j ≠ ip → i_ref (t' !!! j) = i_ref (k_inodes s !!! j)).
Proof.
  intros Hf Hip Hr Hnl. pose proof (it_len _ _ _ _ _ (fa_itab _ _ Hf)) as Hl. pose proof (ch_calm _ _ _ _ _ (fa_cache _ _ Hf)) as Hcalm.
  destruct (recount_fsat s None ip (-1) Hf Hip Hr ltac:(lia) ltac:(done)) as [Hf' Hrefs].
  eexists. split; [|split; [exact Hf'|split]].
  - intros e. unfold iput. erewrite bind_Ok by (by eapply (calm_acquire s p Litable)). unfold get_inode. rewrite bind_gets.
    change (inode_at (set k_x _ s) ip) with (inode_at s ip). set (x := inode_at s ip) in *.
    assert ((i_ref x =? 1) && negb (i_valid x =? 0) && (i_nlink x =? 0) = false) as ->.
    { destruct (Z.eqb_spec (i_valid x) 0) as [|Hv]; [by rewrite andb_false_r|].
      pose proof (it_valid _ _ _ _ _ (fa_itab _ _ Hf) ip Hip Hr Hv) as E. change (k_inodes s !!! ip) with x in E.
      rewrite <- E in Hnl. change (di_nlink (dinode_of x)) with (i_nlink x) in Hnl. rewrite (proj2 (Z.eqb_neq _ _) Hnl). apply andb_false_r. }
    cbn [when]. rewrite bind_ret. by rewrite itable_section.
  - intros m. rewrite Hrefs. destruct (decide _); lia.
  - split; [|intros j Nj; by rewrite list_lookup_total_insert_ne]. intros j. destruct (decide (j = ip)) as [->|Nj].
    + by rewrite list_lookup_total_insert_eq by lia.
    + by rewrite list_lookup_total_insert_ne.
Qed.

Lemma iunlockput_ok s ip :
  fsat s (Some ip) → (ip < NINODE)%nat → di_nlink (disk_inode (i_inum (inode_at s ip))) ≠ 0 →
  ∃ s', (∀ e, iunlockput ip s e = Ok tt s' e) ∧ fsat s' None ∧ fmoved s s' ∧
    (∀ m, refs (k_inodes s') m = refs (k_inodes s) m - if decide (m = i_inum (inode_at s ip)) then 1 else 0) ∧
    (∀ j, i_inum (inode_at s' j) = i_inum (inode_at s j)) ∧ (∀ j, j ≠ ip → i_ref (inode_at s' j) = i_ref (inode_at s j)).
Proof.
  intros Hf Hip Hnl. pose proof (it_lock _ _ _ _ _ (fa_itab _ _ Hf) ip Hip) as HL. rewrite decide_True in HL by done.
  destruct HL as (_ & _ & Hr & _). destruct (iunlock_ok s ip Hf Hip) as (s1 & Hu & Hf1 & M1 & [Hl Hids]).
  destruct (Hids ip) as [E1 E2]. change (k_inodes s !!! ip) with (inode_at s ip) in *. change (k_inodes s1 !!! ip) with (inode_at s1 ip) in *.
  destruct (iput_ok s1 ip Hf1 Hip) as (t' & Hp & Hf' & Hrefs & H1 & H2); [by rewrite E2|by rewrite E1|].
  exists (s1 <| k_inodes := t' |>). split; [|split; [done|split]].
  - intros e. unfold iunlockput. by erewrite bind_Ok by apply Hu.
  - eapply fmoved_trans; [by apply imoved_fmoved|apply fmoved_inodes].
  - split; [|split].
    + intros m. simpl. by rewrite Hrefs, (same_ids_refs (k_inodes s)), E1.
    + intros j. change (i_inum (t' !!! j) = i_inum (inode_at s j)). rewrite H1. apply Hids.
    + intros j Nj. change (i_ref (t' !!! j) = i_ref (inode_at s j)). rewrite H2 by done. apply Hids.
Qed.

Lemma idup_ok s held ip :
  fsat s held → (ip < NINODE)%nat → 0 < i_ref (inode_at s ip) →
  ∃ t', (∀ e, idup ip s e = Ok ip (s <| k_inodes := t' |>) e) ∧ fsat (s <| k_inodes := t' |>) held ∧
    i_inum (t' !!! ip) = i_inum (inode_at s ip) ∧ 0 < i_ref (t' !!! ip) ∧
    (∀ m, refs t' m = refs (k_inodes s) m + if decide (m = i_inum (inode_at s ip)) then 1 else 0).
Proof.
  intros Hf Hip Hr. pose proof (ch_calm _ _ _ _ _ (fa_cache _ _ Hf)) as Hcalm.
  destruct (recount_fsat s held ip 1 Hf Hip Hr ltac:(lia) ltac:(lia)) as [Hf' Hrefs].
  pose proof (it_len _ _ _ _ _ (fa_itab _ _ Hf)) as Hl.
  eexists. split; [|split; [exact Hf'|split; [|split; [|exact Hrefs]]]].
  - intros e. unfold idup. erewrite bind_Ok by (by eapply (calm_acquire s p Litable)).
    rewrite <- bind_assoc. erewrite bind_Ok by (by apply itable_section). done.
  - rewrite list_lookup_total_insert_eq by lia. done.
  - rewrite list_lookup_total_insert_eq by lia. simpl. lia.
Qed.

End ops.
