(* ===== verification/FsTx.v ===== *)
(** Blocks inside a transaction: the buffer operations of kernel/fs.c between
    [begin_op] and [end_op], and the allocation of blocks ([bzero], [balloc]).

    Nothing reaches the disk [D] before the commit; the changes are the pins [P]
    of the cache, and what a reader gets is [cview D P]. *)

From S2P Require Export InodeSpec CrashSafety.

(** The blocks [v] with block [b] changed. *)
Definition vset (v : Z → list Z) (b : Z) (x : list Z) : Z → list Z := λ n, if decide (n = b) then x else v n.

Lemma cview_insert D P b x n : cview D (<[b := x]> P) n = vset (cview D P) b x n.
Proof.
  unfold cview at 1, vset. destruct (decide (n = b)) as [->|N]; [by rewrite lookup_insert_eq|by rewrite lookup_insert_ne].
Qed.

(** Returning at any cost. *)
Lemma cwp_return `{V : VirtioDevice} {A} p c (a : A) s (Q : A → kstate → Prop) C : Q a s → cwp p c (mret a) s Q C.
Proof. intros H. by eapply (cwp_mono p 0); [apply cwp_ret|lia|intros r s' X; exact X|]. Qed.

(** The rest of a program. *)
Lemma cwp_run `{V : VirtioDevice} {A} p c (m r : K A) s s' (Q : A → kstate → Prop) C :
  (∀ e, m s e = r s' e) → cwp p c r s' Q C → cwp p c m s Q C.
Proof. intros E H k. rewrite E. apply H. Qed.

Section tx.
Context `{V : VirtioDevice}.
Context (p : nat) (start : Z) (D : blocks).
Context (Hhn : hn start D = 0) (Hhl : length (blk D start) = Z.to_nat BSIZE).

Notation cache := (cache p).
Notation cwp := (cwp p).
Notation view P := (cview D P).

(** One operation is open; it has logged [n] blocks, whose contents are [P], and
    holds the buffers [H]. *)
Record in_tx (s : kstate) (P : blocks) (H : gmap nat (Z * list Z)) (n : nat) : Prop := {
  op_cache : cache s D P H;
  op_log : ∃ bl, log_at start s n bl ∧ wal start P n bl;
  op_out : l_outstanding (k_log s) = 1;
  op_com : l_committing (k_log s) = 0;
}.

(** The operations change the caches and the log only. *)
Record tmoved (s s' : kstate) : Prop := {
  tm_eq : s' = s <| k_disk := k_disk s' |> <| k_bufs := k_bufs s' |> <| k_procs := k_procs s' |> <| k_log := k_log s' |>;
  tm_proc : proc_at s' p = proc_at s p;
}.

Lemma tmoved_refl s : tmoved s s.
Proof. split; [by destruct s|done]. Qed.
Lemma tmoved_trans s1 s2 s3 : tmoved s1 s2 → tmoved s2 s3 → tmoved s1 s3.
Proof. intros [E1 P1] [E2 P2]. split; [|congruence]. rewrite E2, E1. reflexivity. Qed.
Lemma framed_tmoved s s' : framed p s s' → tmoved s s'.
Proof. intros [E P']. split; [|done]. rewrite E. by destruct s. Qed.

Lemma in_tx_framed s s' P H H' n : in_tx s P H n → framed p s s' → cache s' D P H' → in_tx s' P H' n.
Proof.
  intros [C1 (bl & C2 & C3) C4 C5] F Hc. pose proof (framed_log _ _ _ F) as El.
  split; [done| |by rewrite El|by rewrite El]. exists bl. split; [by eapply log_at_framed|done].
Qed.

Lemma in_tx_size s P H n : in_tx s P H n → (n < NBUF)%nat → size P = n.
Proof. intros [_ (bl & _ & W) _ _] Hn. by eapply (wal_size start D P n bl). Qed.

Lemma bread_tx s P H n bno (Q : nat → kstate → Prop) (C : blocks → Prop) :
  in_tx s P H n → (∀ b d, H !! b ≠ Some (bno, d)) → (n + size H < NBUF)%nat → 0 <= bno < 2147483648 → C D →
  (∀ b s', H !! b = None → in_tx s' P (<[b := (bno, view P bno)]> H) n → tmoved s s' →
     b_data (buf_at s' b) = view P bno → Q b s') →
  cwp 1 (bread ROOTDEV bno) s Q C.
Proof.
  intros Hx HH Hsz Hb HC HQ. pose proof (in_tx_size _ _ _ _ Hx ltac:(lia)) as Hn.
  eapply bread_ok; [apply Hx|done|right; lia|done|done|]. intros b s' _ Hbn Hc F.
  apply HQ; [done|by eapply in_tx_framed|by apply framed_tmoved|].
  by destruct (held_facts p s' D P _ b bno (view P bno) Hc (lookup_insert_eq _ _ _)) as (_ & _ & _ & _ & Ed & _).
Qed.

Lemma poke_tx s P H n b bno d d' :
  in_tx s P H n → H !! b = Some (bno, d) →
  in_tx (poke b d' s) P (<[b := (bno, d')]> H) n ∧ tmoved s (poke b d' s).
Proof.
  intros Hx Hh. destruct (poke_cache p s D P H b bno d d' (op_cache _ _ _ _ Hx) Hh) as [Hc F].
  split; [by eapply in_tx_framed|by apply framed_tmoved].
Qed.

Lemma brelse_tx s P H n b bno :
  in_tx s P H n → H !! b = Some (bno, view P bno) →
  ∃ s', (∀ e, brelse b s e = Ok tt s' e) ∧ in_tx s' P (delete b H) n ∧ tmoved s s'.
Proof.
  intros Hx Hh. destruct (brelse_ok p s D P H b bno (op_cache _ _ _ _ Hx) Hh) as (s' & E & Hc & F).
  exists s'. split; [done|]. split; [by eapply in_tx_framed|by apply framed_tmoved].
Qed.

Lemma log_write_tx s P H n b bno d :
  in_tx s P H n → H !! b = Some (bno, d) → (n < 30)%nat → ¬ in_log start bno →
  ∃ s' n', (∀ e, log_write b s e = Ok tt s' e) ∧ in_tx s' (<[bno := d]> P) H n' ∧ (n' <= S n)%nat ∧ tmoved s s'.
Proof.
  intros [C1 (bl & C2 & C3) C4 C5] Hh Hn Hl.
  destruct (log_write_ok p start s D P H b bno d n bl C1 Hh C2 C3 Hn ltac:(lia) Hl) as (s' & n' & bl' & E & Hc & Hla & Hw & Hn' & Ho & Hcm).
  exists s', n'. split; [done|]. split; [|split; [done|]].
  - split; [done|by exists bl'|congruence|congruence].
  - assert (s' = after_log_write s b) as ->.
    { specialize (E []). rewrite (log_write_eq p) in E; [by injection E|apply C1|rewrite (la_n _ _ _ _ C2); unfold LOGBLOCKS, MAXOPBLOCKS; lia|lia]. }
    unfold after_log_write. destruct (grows _ _); (split; [by destruct s|done]).
Qed.

(** [log_write] and [brelse] at the end of a change. *)
Lemma log_release s P H n b bno d :
  in_tx s P H n → H !! b = Some (bno, d) → (n < 30)%nat → ¬ in_log start bno →
  ∃ s' n', (∀ e, (log_write b;; brelse b) s e = Ok tt s' e) ∧ in_tx s' (<[bno := d]> P) (delete b H) n' ∧ (n' <= S n)%nat ∧ tmoved s s'.
Proof.
  intros Hx Hh Hn Hl. destruct (log_write_tx s P H n b bno d Hx Hh Hn Hl) as (s1 & n1 & E1 & Hx1 & Hn1 & M1).
  destruct (brelse_tx s1 (<[bno := d]> P) H n1 b bno Hx1) as (s2 & E2 & Hx2 & M2).
  { rewrite Hh. unfold cview. by rewrite lookup_insert_eq. }
  exists s2, n1. split; [|split; [done|split; [done|by eapply tmoved_trans]]]. intros e. by erewrite bind_Ok by apply E1.
Qed.

Lemma cwp_log_release {A} s P H n b bno d c (k : K A) (Q : A → kstate → Prop) C :
  in_tx s P H n → H !! b = Some (bno, d) → (n < 30)%nat → ¬ in_log start bno →
  (∀ s' n', in_tx s' (<[bno := d]> P) (delete b H) n' → (n' <= S n)%nat → tmoved s s' → cwp c k s' Q C) →
  cwp c (log_write b;; brelse b;; k) s Q C.
Proof.
  intros Hx Hh Hn Hl Hk. destruct (log_write_tx s P H n b bno d Hx Hh Hn Hl) as (s1 & n1 & E1 & Hx1 & Hn1 & M1).
  destruct (brelse_tx s1 (<[bno := d]> P) H n1 b bno Hx1) as (s2 & E2 & Hx2 & M2).
  { rewrite Hh. unfold cview. by rewrite lookup_insert_eq. }
  eapply cwp_bind_ok; [exact E1|]. eapply cwp_bind_ok; [exact E2|]. apply (Hk s2 n1); [done|done|by eapply tmoved_trans].
Qed.

(** ** Clearing and allocating blocks *)

Definition zeros : list Z := replicate (Z.to_nat BSIZE) 0.

Lemma bzero_tx s P H n bno (Q : unit → kstate → Prop) (C : blocks → Prop) :
  in_tx s P H n → (∀ b d, H !! b ≠ Some (bno, d)) → (n + size H < NBUF)%nat → 0 <= bno < 2147483648 → ¬ in_log start bno → C D →
  (∀ s' n', in_tx s' (<[bno := zeros]> P) H n' → (n' <= S n)%nat → tmoved s s' → Q tt s') →
  cwp 1 (bzero ROOTDEV bno) s Q C.
Proof.
  intros Hx HH Hsz Hb Hl HC HQ. unfold bzero. apply (cwp_bind p 1 0). eapply bread_tx; try done.
  intros b s1 Hbn Hx1 M1 Ed. destruct (poke_tx s1 _ _ n b bno (view P bno) zeros Hx1 (lookup_insert_eq _ _ _)) as [Hx2 M2].
  rewrite insert_insert_eq in Hx2. eapply cwp_bind_ok; [intros e; exact eq_refl|]. fold (poke b zeros s1).
  change NBUF with 30%nat in Hsz.
  destruct (log_release _ P _ n b bno zeros Hx2 (lookup_insert_eq _ _ _) ltac:(lia) Hl) as (s3 & n3 & E3 & Hx3 & Hn3 & M3).
  eapply cwp_ok; [exact E3|]. rewrite delete_insert_id in Hx3 by done. apply (HQ s3 n3); [done|done|].
  eapply tmoved_trans; [done|]. by eapply tmoved_trans.
Qed.

Lemma find_clear_spec data n bi :
  match find_clear data n bi with
  | Some b => bi <= b < bi + Z.of_nat n ∧ bit_of data b = false
  | None => ∀ j, bi <= j < bi + Z.of_nat n → bit_of data j = true
  end.
Proof.
  revert bi. induction n as [|n IH]; intros bi; cbn [find_clear]; [lia|]. rewrite bit_clear.
  destruct (bit_of data bi) eqn:E; cbn [negb]; [|split; [lia|done]]. specialize (IH (bi + 1)).
  destruct (find_clear data n (bi + 1)); [split; [lia|apply IH]|]. intros j Hj. destruct (decide (j = bi)) as [->|]; [done|]. apply IH. lia.
Qed.

(** The regions of the disk: log, inodes, bitmap, and data from [dstart] on. *)
Record disk_layout (sb : superblock) (dstart : Z) : Prop := {
  dl_start : 0 <= start;
  dl_log : start + LOGBLOCKS < sb_inodestart sb;
  dl_inode : ∀ inum, inum_ok sb inum → sb_inodestart sb <= IBLOCK inum sb < sb_bmapstart sb;
  dl_bmap : ∀ b, 0 <= b < sb_size sb → BBLOCK b sb = sb_bmapstart sb + b / BPB ∧ BBLOCK b sb < dstart;
  dl_size : 0 < dstart ∧ sb_inodestart sb <= sb_bmapstart sb <= dstart ∧ dstart <= sb_size sb < 2147483648;
}.

Section balloc.
Context (sb : superblock) (dstart : Z) (Hdl : disk_layout sb dstart).

(** The bit of block [b] in the bitmap. *)
Definition used (v : Z → list Z) (b : Z) : bool := bit_of (v (BBLOCK b sb)) (b mod BPB).

(** The bitmap covers the disk and marks everything outside the data region. *)
Record bitmap_ok (v : Z → list Z) : Prop := {
  bm_len : ∀ b, 0 <= b < sb_size sb → length (v (BBLOCK b sb)) = Z.to_nat BSIZE;
  bm_meta : ∀ b, 0 <= b < dstart → used v b = true;
}.

(** The pins after block [b] has been allocated. *)
Definition with_block_used (P : blocks) (b : Z) : blocks :=
  <[b := zeros]> (<[BBLOCK b sb := set_bit (view P (BBLOCK b sb)) (b mod BPB)]> P).

(** The buffers that [balloc]'s caller holds are blocks in use, outside the bitmap. *)
Definition held_used (P : blocks) (H : gmap nat (Z * list Z)) : Prop :=
  ∀ a b d, H !! a = Some (b, d) → dstart <= b < sb_size sb ∧ used (view P) b = true.

Definition balloc_post (s : kstate) (P : blocks) (H : gmap nat (Z * list Z)) (n : nat) (b : Z) (s' : kstate) : Prop :=
  dstart <= b < sb_size sb ∧ used (view P) b = false ∧ tmoved s s' ∧
  ∃ n', in_tx s' (with_block_used P b) H n' ∧ (n' <= n + 2)%nat.

Definition balloc_round (b : Z) : K (Z + Z) :=
  if sb_size sb <=? b then
    printf ("balloc: out of blocks" +:+ nl) [];; mret (inr 0)
  else
    bp ← bread ROOTDEV (BBLOCK b sb);
    x ← get_buf bp;
    match find_clear (b_data x) (Z.to_nat (Z.min BPB (sb_size sb - b))) 0 with
    | Some bi =>
        set_data bp (set_bit (b_data x) bi);;
        log_write bp;;
        brelse bp;;
        bzero ROOTDEV (b + bi);;
        mret (inr (b + bi))
    | None => brelse bp;; mret (inl (b + BPB))
    end.

Lemma bit_index j bi : 0 <= bi < BPB → (BPB * Z.of_nat j + bi) / BPB = Z.of_nat j ∧ (BPB * Z.of_nat j + bi) mod BPB = bi.
Proof. change BPB with 8192. intros. split; zlia. Qed.

Lemma balloc_round_ok s P H n j :
  in_tx s P H n → bitmap_ok (view P) → held_used P H → (n + 1 + size H < NBUF)%nat → BPB * Z.of_nat j < sb_size sb →
  cwp 2 (balloc_round (BPB * Z.of_nat j)) s
    (λ r s', match r with
     | inl b => b = BPB * Z.of_nat (S j) ∧ in_tx s' P H n ∧ tmoved s s' ∧
         ∀ b, BPB * Z.of_nat j <= b < BPB * Z.of_nat (S j) → b < sb_size sb → used (view P) b = true
     | inr b => balloc_post s P H n b s'
     end) (λ D', D' = D).
Proof.
  intros Hx Hbm Hh Hn Hj. unfold balloc_round. rewrite (proj2 (Z.leb_gt _ _)) by lia. set (b0 := BPB * Z.of_nat j) in *.
  pose proof Hdl as [L1 L2 L3 L4 (L5 & L6 & L7)]. assert (0 <= b0) as Hb0 by (unfold b0, BPB, BSIZE; lia).
  destruct (L4 b0 ltac:(lia)) as [Eb Lb]. assert (0 <= b0 / BPB) by (apply Z.div_pos; [done|by unfold BPB, BSIZE]).
  assert (∀ a d, H !! a ≠ Some (BBLOCK b0 sb, d)) as Hnh by (intros a d Ha; destruct (Hh _ _ _ Ha); lia).
  assert (¬ in_log start (BBLOCK b0 sb)) as Hnl by (unfold in_log; lia).
  apply (cwp_bind p 1 1). eapply bread_tx; try done; [lia|unfold LOGBLOCKS, MAXOPBLOCKS in *; lia|].
  intros b s1 Hbn Hx1 M1 Ed. eapply cwp_bind_ok; [intros e; reflexivity|]. rewrite Ed.
  set (m := Z.to_nat (Z.min BPB (sb_size sb - b0))). set (data := view P (BBLOCK b0 sb)) in *.
  pose proof (find_clear_spec data m 0) as Hfc. assert (Z.of_nat m = Z.min BPB (sb_size sb - b0)) as Em.
  { unfold m. rewrite Z2Nat.id; [done|]. unfold BPB, BSIZE in *. lia. }
  destruct (find_clear data m 0) as [bi|].
  - destruct Hfc as [Hbi Hclear]. rewrite Em in Hbi. assert (0 <= bi < BPB) as Hbi' by lia. destruct (bit_index j bi Hbi') as [I1 I2]. fold b0 in I1, I2.
    destruct (L4 (b0 + bi) ltac:(lia)) as [Eb' _]. destruct (bit_index j 0 ltac:(by unfold BPB, BSIZE)) as [I3 _]. rewrite Z.add_0_r in I3. fold b0 in I3.
    assert (BBLOCK (b0 + bi) sb = BBLOCK b0 sb) as EB by lia.
    assert (used (view P) (b0 + bi) = false) as Hu by (unfold used; by rewrite EB, I2).
    assert (dstart <= b0 + bi) as Hds. { destruct (Z.lt_ge_cases (b0 + bi) dstart) as [Hlt|]; [|done]. rewrite (bm_meta _ Hbm) in Hu by lia. done. }
    destruct (poke_tx s1 _ _ n b _ data (set_bit data bi) Hx1 (lookup_insert_eq _ _ _)) as [Hx2 M2]. rewrite insert_insert_eq in Hx2.
    eapply cwp_bind_ok; [intros e; exact eq_refl|]. fold (poke b (set_bit data bi) s1).
    change NBUF with 30%nat in *. eapply cwp_log_release; [exact Hx2|apply lookup_insert_eq|lia|done|]. rewrite delete_insert_id by done.
    intros s3 n3 Hx3 Hn3 M3. apply (cwp_bind p 1 0). eapply bzero_tx; [exact Hx3| |change NBUF with 30%nat; lia|lia| |done|].
    + intros a d Ha. destruct (Hh _ _ _ Ha) as [_ Hu2]. congruence.
    + unfold in_log. lia.
    + intros s4 n4 Hx4 Hn4 M4. apply cwp_ret. split; [lia|]. split; [done|]. split.
      { eapply tmoved_trans; [exact M1|]. eapply tmoved_trans; [exact M2|]. by eapply tmoved_trans. }
      exists n4. split; [|lia]. unfold with_block_used. by rewrite EB, I2.
  - destruct (brelse_tx s1 P _ n b _ Hx1 (lookup_insert_eq _ _ _)) as (s2 & E2 & Hx2 & M2). rewrite delete_insert_id in Hx2 by done.
    eapply (cwp_mono p 0 _ _ _ _ _ (λ D', D' = D)); [|lia|intros r s' Q'; exact Q'|done]. eapply cwp_bind_ok; [exact E2|]. apply cwp_ret.
    split; [unfold b0, BPB, BSIZE; lia|]. split; [done|]. split; [by eapply tmoved_trans|].
    intros b1 Hb1 Hs1. destruct (bit_index j (b1 - b0)) as [I1 I2]; [unfold b0, BPB, BSIZE in *; lia|]. fold b0 in I1, I2.
    replace (b0 + (b1 - b0)) with b1 in * by lia. destruct (L4 b1 ltac:(lia)) as [Eb' _].
    destruct (bit_index j 0 ltac:(by unfold BPB, BSIZE)) as [I3 _]. rewrite Z.add_0_r in I3. fold b0 in I3.
    unfold used. rewrite I2. replace (BBLOCK b1 sb) with (BBLOCK b0 sb) by lia. apply Hfc. rewrite Em. unfold b0, BPB, BSIZE in *. lia.
Qed.

(** The requests of [balloc]. *)
Definition balloc_cost : nat := 2 * S (Z.to_nat (sb_size sb / BPB)).

Lemma balloc_returns c s0 s P H n b s1 :
  tmoved s0 s → balloc_post s P H n b s1 → cwp c (mret b) s1 (balloc_post s0 P H n) (λ D', D' = D).
Proof.
  intros M (R1 & R2 & R3 & R4). apply cwp_return.
  split; [done|]. split; [done|]. split; [by eapply tmoved_trans|done].
Qed.

Lemma balloc_loop_ok m s0 s P H n j fuel f :
  in_tx s P H n → bitmap_ok (view P) → held_used P H → (n + 1 + size H < NBUF)%nat → tmoved s0 s →
  (Z.to_nat (sb_size sb / BPB) = j + m)%nat → (m < fuel)%nat → BPB * Z.of_nat j <= f < sb_size sb → used (view P) f = false →
  cwp (2 * S m) (loop fuel balloc_round (BPB * Z.of_nat j)) s (balloc_post s0 P H n) (λ D', D' = D).
Proof.
  pose proof (dl_size _ _ Hdl) as (L5 & L6 & L7).
  revert s j fuel. induction m as [|m IH]; intros s j fuel Hx Hbm Hh Hn M Hj Hfu Hf Hu; (destruct fuel as [|fuel]; [lia|]); cbn [loop].
  - apply (cwp_bind p 2 0). eapply cwp_mono; [apply balloc_round_ok; [done|done|done|done|lia]|lia| |done].
    intros [b|b] s1; [|by apply balloc_returns]. intros (_ & _ & _ & Hall). exfalso. rewrite Hall in Hu; [done| |lia]. split; [lia|].
    assert (sb_size sb < BPB * Z.of_nat (S j)); [|lia]. change BPB with 8192 in *. zlia.
  - replace (2 * S (S m))%nat with (2 + 2 * S m)%nat by lia. apply cwp_bind.
    eapply cwp_mono; [apply balloc_round_ok; [done|done|done|done|lia]|lia| |done].
    intros [b|b] s1; [|by apply balloc_returns]. intros (-> & Hx1 & M1 & Hall).
    apply IH; try done; [by eapply tmoved_trans|lia|lia|]. split; [|lia].
    destruct (Z.lt_ge_cases f (BPB * Z.of_nat (S j))) as [Hlt|]; [|done]. rewrite Hall in Hu by lia. done.
Qed.

Lemma balloc_ok s P H n f :
  k_sb s = sb → in_tx s P H n → bitmap_ok (view P) → held_used P H → (n + 1 + size H < NBUF)%nat →
  0 <= f < sb_size sb → used (view P) f = false →
  cwp balloc_cost (balloc ROOTDEV) s (balloc_post s P H n) (λ D', D' = D).
Proof.
  intros Hsb Hx Hbm Hh Hn Hf Hu. unfold balloc. eapply cwp_bind_ok; [intros e; reflexivity|]. rewrite Hsb.
  apply (balloc_loop_ok (Z.to_nat (sb_size sb / BPB)) s s P H n 0 _ f); try done; [apply tmoved_refl|lia].
Qed.

(** The bitmap after an allocation. *)
Lemma used_alloc P b b' :
  bitmap_ok (view P) → dstart <= b < sb_size sb → 0 <= b' < sb_size sb →
  used (view (with_block_used P b)) b' = (b =? b') || used (view P) b'.
Proof.
  clear Hhn Hhl. intros Hbm Hb Hb'. pose proof (dl_size _ _ Hdl) as (L5 & L6 & L7). destruct (dl_bmap _ _ Hdl b ltac:(lia)) as [E1 E2].
  destruct (dl_bmap _ _ Hdl b' Hb') as [E1' E2']. unfold used, with_block_used. rewrite cview_insert. unfold vset. rewrite decide_False by lia.
  rewrite cview_insert. unfold vset. destruct (decide (BBLOCK b' sb = BBLOCK b sb)) as [E|N].
  - rewrite bit_set, E; [|change BPB with 8192; zlia..|rewrite (bm_len _ Hbm) by lia; change BPB with 8192; change (Z.to_nat BSIZE) with 1024%nat; zlia].
    f_equal. destruct (Z.eqb_spec b b') as [->|N]; [by rewrite Z.eqb_refl|]. apply Z.eqb_neq. change BPB with 8192 in *. zlia.
  - destruct (Z.eqb_spec b b') as [->|]; done.
Qed.

Lemma bitmap_alloc P b : bitmap_ok (view P) → dstart <= b < sb_size sb → bitmap_ok (view (with_block_used P b)).
Proof.
  clear Hhn Hhl. intros Hbm Hb. pose proof (dl_size _ _ Hdl) as (L5 & L6 & L7). split.
  - intros b' Hb'. destruct (dl_bmap _ _ Hdl b' Hb') as [E1' E2']. unfold with_block_used. rewrite cview_insert. unfold vset. rewrite decide_False by lia.
    rewrite cview_insert. unfold vset. case_decide; [|by apply (bm_len _ Hbm)]. unfold set_bit. rewrite length_insert. apply (bm_len _ Hbm). lia.
  - intros b' Hb'. rewrite used_alloc by (done || lia). rewrite (bm_meta _ Hbm) by done. apply orb_true_r.
Qed.

(** Other blocks are as before. *)
Lemma view_alloc P b n : n ≠ b → n ≠ BBLOCK b sb → view (with_block_used P b) n = view P n.
Proof. intros N1 N2. unfold with_block_used. rewrite cview_insert. unfold vset. rewrite decide_False by done. rewrite cview_insert. unfold vset. by rewrite decide_False. Qed.
Lemma view_alloc_new P b : view (with_block_used P b) b = zeros.
Proof. unfold with_block_used. rewrite cview_insert. unfold vset. by rewrite decide_True. Qed.
End balloc.
End tx.
