(* ===== verification/FsGrow.v ===== *)
(** Files that grow: [bmap] of Fs.v when the block is not there yet. *)

From S2P Require Export FsTx.

(** ** The representation of a file that gets a block *)

(** The inode with address [b] in slot [k]. *)
Definition with_addr (d : dinode) (k : nat) (b : Z) : dinode := d <| di_addrs ::= <[k := b]> |>.

Lemma with_addr_ok d k b : dinode_ok d → 0 <= b < 4294967296 → dinode_ok (with_addr d k b).
Proof.
  intros [H1 H2 H3 H4 H5 H6 H7] Hb. split; try done; unfold with_addr; simpl; [by rewrite length_insert|by apply Forall_insert].
Qed.

Lemma with_addr_at d k b : (k < length (di_addrs d))%nat → di_addrs (with_addr d k b) !!! k = b.
Proof. intros Hk. unfold with_addr. simpl. by apply list_lookup_total_insert_eq. Qed.
Lemma with_addr_ne d k b j : j ≠ k → di_addrs (with_addr d k b) !!! j = di_addrs d !!! j.
Proof. intros N. unfold with_addr. simpl. by apply list_lookup_total_insert_ne. Qed.

(** A direct block is added. *)
Lemma grow_direct v d bs c b :
  file_rep v d bs c → dinode_ok d → (length bs < NDIRECT)%nat → 0 < b < 2147483648 →
  file_rep v (with_addr d (length bs) b) (bs ++ [b]) c.
Proof.
  intros [H1 H2 H3 H4 H5 H6 H7 H8] Hd Hl Hb. split.
  - done.
  - rewrite length_app. change (Z.to_nat MAXFILE) with 268%nat. unfold NDIRECT in Hl. simpl. lia.
  - apply Forall_app. split; [done|by constructor].
  - intros k Hk. destruct (decide (k = length bs)) as [->|N].
    + rewrite with_addr_at by (rewrite (do_len _ Hd); lia). by rewrite list_lookup_middle.
    + rewrite with_addr_ne by done. rewrite H4 by done. destruct (decide (k < length bs)%nat); [by rewrite lookup_app_l|].
      rewrite (lookup_ge_None_2 bs) by lia. by rewrite (lookup_ge_None_2 (bs ++ [b])) by (rewrite length_app; cbn [length]; lia).
  - rewrite with_addr_ne by lia. done.
  - rewrite length_app. simpl. intros. lia.
  - rewrite with_addr_ne by lia. intros N j Hj. rewrite H7 by done. rewrite (lookup_ge_None_2 bs) by lia.
    by rewrite (lookup_ge_None_2 (bs ++ [b])) by (rewrite length_app; cbn [length]; lia).
  - intros i x Hi. destruct (H8 i x Hi) as (b' & Hb' & Hx). exists b'. split; [|done]. rewrite lookup_app_l; [done|]. by eapply lookup_lt_Some.
Qed.

Lemma get32_zeros j : get32 zeros j = 0.
Proof.
  unfold get32, zeros. rewrite drop_replicate, take_replicate. generalize (4 `min` (Z.to_nat BSIZE - j))%nat as n.
  induction n as [|n IH]; [done|]. cbn [replicate le_val]. by rewrite IH.
Qed.

(** An empty indirect block is added. *)
Lemma grow_table v d bs c b :
  file_rep v d bs c → dinode_ok d → (length bs <= NDIRECT)%nat → di_addrs d !!! NDIRECT = 0 → 0 < b < 2147483648 → v b = zeros →
  file_rep v (with_addr d NDIRECT b) bs c.
Proof.
  intros [H1 H2 H3 H4 H5 H6 H7 H8] Hd Hl Hz Hb Hv. split; try done.
  - intros k Hk. rewrite with_addr_ne by lia. by apply H4.
  - rewrite with_addr_at by (rewrite (do_len _ Hd); lia). lia.
  - lia.
  - rewrite with_addr_at by (rewrite (do_len _ Hd); lia). intros _ j Hj. rewrite Hv, (lookup_ge_None_2 bs) by lia. apply get32_zeros.
Qed.

(** A block of the indirect block is added. *)
Lemma grow_indirect v d bs c b :
  file_rep v d bs c → dinode_ok d → (NDIRECT <= length bs < Z.to_nat MAXFILE)%nat → di_addrs d !!! NDIRECT ≠ 0 → 0 < b < 2147483648 →
  length (v (di_addrs d !!! NDIRECT)) = Z.to_nat BSIZE → di_addrs d !!! NDIRECT ∉ bs →
  file_rep (vset v (di_addrs d !!! NDIRECT) (put32 (v (di_addrs d !!! NDIRECT)) (4 * (length bs - NDIRECT)) b)) d (bs ++ [b]) c.
Proof.
  intros [H1 H2 H3 H4 H5 H6 H7 H8] Hd Hl Hi Hb Hv Hn. change (Z.to_nat MAXFILE) with 268%nat in *. change (Z.to_nat BSIZE) with 1024%nat in *.
  set (ib := di_addrs d !!! NDIRECT) in *. unfold NDIRECT in *. split; try done.
  - change (Z.to_nat MAXFILE) with 268%nat. rewrite length_app. simpl. lia.
  - apply Forall_app. split; [done|by constructor].
  - unfold NDIRECT. intros k Hk. rewrite H4 by done. by rewrite lookup_app_l by lia.
  - unfold NDIRECT. intros _ j Hj. change (Z.to_nat NINDIRECT) with 256%nat in *. fold ib. unfold vset. rewrite decide_True by done.
    destruct (decide (j = length bs - 12)%nat) as [->|Nj].
    + rewrite get32_put32_eq by lia. replace (12 + (length bs - 12))%nat with (length bs) by lia. rewrite list_lookup_middle by done.
      change (u32 b = b). apply u32_small. lia.
    + rewrite get32_put32_ne by lia. rewrite H7 by done. destruct (decide (12 + j < length bs)%nat); [by rewrite lookup_app_l by lia|].
      rewrite (lookup_ge_None_2 bs) by lia. by rewrite (lookup_ge_None_2 (bs ++ [b])) by (rewrite length_app; cbn [length]; lia).
  - intros i x Hx. destruct (H8 i x Hx) as (b' & Hb' & Hx'). exists b'. split.
    + rewrite lookup_app_l; [done|]. by eapply lookup_lt_Some.
    + unfold vset. rewrite decide_False; [done|]. intros ->. by apply Hn, (list_elem_of_lookup_2 _ _ _ Hb').
Qed.

(** ** Bytes *)

Lemma splice_bytes l off bs : bytes_ok l → bytes_ok bs → bytes_ok (splice l off bs).
Proof. intros Hl Hb. unfold splice. apply Forall_app. split; [by apply Forall_take|]. apply Forall_app. split; [done|by apply Forall_drop]. Qed.

Lemma zeros_bytes : bytes_ok zeros.
Proof. unfold zeros. by apply Forall_replicate. Qed.

Lemma length_zeros : length zeros = Z.to_nat BSIZE.
Proof. apply length_replicate. Qed.

Lemma set_bit_bytes data bi : bytes_ok data → (Z.to_nat (bi / 8) < length data)%nat → bytes_ok (set_bit data bi).
Proof.
  intros Hd Hl. unfold set_bit. apply Forall_insert; [done|]. unfold bitmap_byte, bit_mask.
  destruct (lookup_lt_is_Some_2 data _ Hl) as [x Hx]. rewrite (list_lookup_total_correct _ _ _ Hx).
  pose proof (Forall_lookup_1 _ _ _ _ Hd Hx) as Hr. cbv beta in Hr. pose proof (Z.mod_pos_bound bi 8 ltac:(lia)) as Hm.
  rewrite Z.shiftl_1_l. assert (1 <= 2 ^ (bi mod 8) < 256) as Hp.
  { split; [apply (Z.pow_le_mono_r 2 0); lia|]. change 256 with (2 ^ 8). apply Z.pow_lt_mono_r; lia. }
  split; [apply Z.lor_nonneg; lia|]. change 256 with (2 ^ 8).
  destruct (decide (Z.lor x (2 ^ (bi mod 8)) = 0)) as [->|N]; [done|]. apply Z.log2_lt_pow2; [|].
  - assert (0 <= Z.lor x (2 ^ (bi mod 8))) by (apply Z.lor_nonneg; lia). lia.
  - rewrite Z.log2_lor by lia. apply Z.max_lub_lt.
    + destruct (decide (x = 0)) as [->|]; [done|]. apply Z.log2_lt_pow2; lia.
    + rewrite Z.log2_pow2; lia.
Qed.

(** ** A file inside a transaction *)

Section grow.
Context (start : Z) (D : blocks) (sb : superblock) (dstart : Z) (Hdl : disk_layout start sb dstart).

Notation view P := (cview D P).
Notation used := (used sb).
Notation with_block_used := (with_block_used D sb).

(** A block that a file has. *)
Definition data_block (v : Z → list Z) (b : Z) : Prop :=
  dstart <= b < sb_size sb ∧ used v b = true ∧ length (v b) = Z.to_nat BSIZE.

(** The bitmap, and a file that owns the blocks [o]. *)
Record fcore (v : Z → list Z) (o : list Z) : Prop := {
  fc_bitmap : bitmap_ok sb dstart v;
  fc_nodup : NoDup o;
  fc_own : ∀ b, b ∈ o → data_block v b;
  fc_bytes : ∀ b, ¬ in_log start b → bytes_ok (v b);
}.

(** The file with inode [d], blocks [bs] and contents [c]. *)
Record fstate (v : Z → list Z) (d : dinode) (bs c : list Z) : Prop := {
  fs_file : file_rep v d bs c;
  fs_dinode : dinode_ok d;
  fs_core : fcore v (owned d bs);
}.

Lemma fcore_perm v o o' : o' ≡ₚ o → fcore v o → fcore v o'.
Proof. intros E [H1 H2 H3 H4]. split; try done; [by rewrite E|]. intros b. rewrite E. apply H3. Qed.

Lemma fcore_ext v v' o : (∀ b, v' b = v b) → fcore v o → fcore v' o.
Proof.
  intros E [[H1 H1'] H2 H3 H4]. assert (∀ b, used v' b = used v b) as Eu by (intros b; unfold FsTx.used; by rewrite E).
  split; [split|done| |].
  - intros b Hb. rewrite E. by apply H1.
  - intros b Hb. rewrite Eu. by apply H1'.
  - intros b Hb. unfold data_block. rewrite E, Eu. by apply H3.
  - intros b Hb. rewrite E. by apply H4.
Qed.

Lemma fstate_ext v v' d bs c : (∀ b, v' b = v b) → fstate v d bs c → fstate v' d bs c.
Proof. intros E [F1 F2 F3]. split; [by apply (file_rep_ext v)|done|by apply (fcore_ext v)]. Qed.

(** The contents of a block of the file change. *)
Lemma fcore_set v o b x : fcore v o → b ∈ o → length x = Z.to_nat BSIZE → bytes_ok x → fcore (vset v b x) o.
Proof.
  intros [[H1 H1'] H2 H3 H4] Hb Hl Hx. pose proof (dl_size _ _ _ Hdl) as (L1 & _). destruct (H3 b Hb) as (Hr & _).
  assert (∀ n, 0 <= n < sb_size sb → vset v b x (BBLOCK n sb) = v (BBLOCK n sb)) as E.
  { intros n Hn. destruct (dl_bmap _ _ _ Hdl n Hn). unfold vset. rewrite decide_False by lia. done. }
  assert (∀ n, 0 <= n < sb_size sb → used (vset v b x) n = used v n) as Eu by (intros n Hn; unfold FsTx.used; by rewrite E).
  split; [split| done| |].
  - intros n Hn. rewrite E by done. by apply H1.
  - intros n Hn. rewrite Eu by lia. by apply H1'.
  - intros n Hn. destruct (H3 n Hn) as (N1 & N2 & N3). split; [done|]. rewrite Eu by lia. split; [done|]. unfold vset. by case_decide.
  - intros n Hn. unfold vset. case_decide; [done|by apply H4].
Qed.

(** From [v] to [v'], a file that owned [o] has come to own [o']. *)
Record grown (v : Z → list Z) (o : list Z) (v' : Z → list Z) (o' : list Z) : Prop := {
  gw_used : ∀ b, 0 <= b < sb_size sb → used v b = true → used v' b = true;
  gw_same : ∀ b, b ∉ o' → ¬ sb_bmapstart sb <= b < dstart → v' b = v b;
  gw_own : ∀ b, b ∈ o' → b ∈ o ∨ (dstart <= b < sb_size sb ∧ used v b = false);
  gw_incl : o ⊆ o';
  gw_alloc : ∀ b, 0 <= b < sb_size sb → used v' b = true → used v b = true ∨ b ∈ o';
}.

Lemma grown_refl v o : grown v o v o.
Proof. split; try done; by left. Qed.

Lemma grown_trans v1 o1 v2 o2 v3 o3 : grown v1 o1 v2 o2 → grown v2 o2 v3 o3 → grown v1 o1 v3 o3.
Proof.
  pose proof (dl_size _ _ _ Hdl) as (L1 & _). intros [A1 A2 A3 A4 A5] [B1 B2 B3 B4 B5]. split.
  - intros b Hb H. by apply B1, A1.
  - intros b Hb H. rewrite B2 by done. apply A2; [|done]. intros Hb2. by apply Hb, B4.
  - intros b Hb. destruct (B3 b Hb) as [H|[Hr Hu]]; [by apply A3|]. right. split; [done|].
    destruct (used v1 b) eqn:E; [|done]. rewrite A1 in Hu by (done || lia). done.
  - by etrans.
  - intros b Hb Hu. destruct (B5 b Hb Hu) as [Hu2|]; [|by right]. destruct (A5 b Hb Hu2); [by left|right]. by apply B4.
Qed.

(** [k] blocks are free. *)
Definition has_free (v : Z → list Z) (k : nat) : Prop :=
  ∃ l, NoDup l ∧ (k <= length l)%nat ∧ Forall (λ b, dstart <= b < sb_size sb ∧ used v b = false) l.

Lemma has_free_le v k k' : has_free v k → (k' <= k)%nat → has_free v k'.
Proof. intros (l & H1 & H2 & H3) Hk. exists l. split; [done|]. split; [lia|done]. Qed.

Lemma has_free_some v k : has_free v (S k) → ∃ f, 0 <= f < sb_size sb ∧ used v f = false.
Proof.
  pose proof (dl_size _ _ _ Hdl) as (L1 & _). intros (l & _ & Hl & Hf). destruct l as [|f l]; [simpl in Hl; lia|].
  apply Forall_cons in Hf as [[Hr Hu] _]. exists f. split; [lia|done].
Qed.

(** *** A block is allocated *)

Lemma view_alloc_meta P b n :
  dstart <= b < sb_size sb → n ≠ b → ¬ sb_bmapstart sb <= n < dstart → view (with_block_used P b) n = view P n.
Proof.
  intros Hb N Hn. pose proof (dl_size _ _ _ Hdl) as (L1 & _). destruct (dl_bmap _ _ _ Hdl b ltac:(lia)) as [E1 E2].
  apply view_alloc; [done|]. intros ->. apply Hn. rewrite E1 in *. split; [|done]. change BPB with 8192. pose proof (Z.div_pos b 8192). lia.
Qed.

Lemma alloc_free P b k :
  bitmap_ok sb dstart (view P) → dstart <= b < sb_size sb → has_free (view P) (S k) → has_free (view (with_block_used P b)) k.
Proof.
  pose proof (dl_size _ _ _ Hdl) as (L1 & _). intros Hbm Hb (l & Hn & Hl & Hf). exists (filter (λ x, x ≠ b) l). split; [by apply NoDup_filter|]. split.
  - assert (l ⊆+ b :: filter (λ x, x ≠ b) l) as Hs.
    { apply NoDup_submseteq; [done|]. intros x Hx. destruct (decide (x = b)) as [->|N]; [by left|]. right. by apply list_elem_of_filter. }
    apply submseteq_length in Hs. simpl in Hs. lia.
  - apply Forall_forall. intros x [N Hx]%list_elem_of_filter. rewrite Forall_forall in Hf. destruct (Hf x Hx) as [Hr Hu]. split; [done|].
    rewrite (used_alloc start D sb dstart Hdl) by (done || lia). rewrite Hu, orb_false_r. by apply Z.eqb_neq.
Qed.

Lemma alloc_data_block P b x :
  bitmap_ok sb dstart (view P) → dstart <= b < sb_size sb → used (view P) b = false →
  data_block (view P) x → data_block (view (with_block_used P b)) x.
Proof.
  pose proof (dl_size _ _ _ Hdl) as (L1 & _). intros Hbm Hb Hu (X1 & X2 & X3). assert (x ≠ b) by congruence. split; [done|]. split.
  - rewrite (used_alloc start D sb dstart Hdl) by (done || lia). rewrite X2. apply orb_true_r.
  - rewrite view_alloc_meta by (done || lia). done.
Qed.

Lemma alloc_file P d bs c b :
  file_rep (view P) d bs c → fcore (view P) (owned d bs) → dstart <= b < sb_size sb → used (view P) b = false →
  file_rep (view (with_block_used P b)) d bs c.
Proof.
  intros Hf [F3 F4 F5 F6] Hb Hu. pose proof (dl_size _ _ _ Hdl) as (L1 & L2 & L3).
  apply (file_rep_ext (view P)); [|done]. intros x Hx. destruct (F5 x Hx) as (Hr & Hux & _). apply view_alloc_meta; [done| |lia]. congruence.
Qed.

Lemma fcore_alloc P o b :
  fcore (view P) o → dstart <= b < sb_size sb → used (view P) b = false → fcore (view (with_block_used P b)) (b :: o).
Proof.
  intros [F3 F4 F5 F6] Hb Hu. pose proof (dl_size _ _ _ Hdl) as (L1 & L2 & L3). split.
  - by apply (bitmap_alloc start).
  - apply NoDup_cons. split; [|done]. intros Hin. destruct (F5 b Hin) as (_ & Hu' & _). congruence.
  - intros x [->|Hx]%elem_of_cons; [|by apply alloc_data_block, F5]. split; [done|]. split; [|rewrite view_alloc_new; apply length_zeros].
    rewrite (used_alloc start D sb dstart Hdl) by (done || lia). by rewrite Z.eqb_refl.
  - intros x Hx. destruct (decide (x = b)) as [->|N]; [rewrite view_alloc_new; apply zeros_bytes|].
    unfold FsTx.with_block_used. rewrite cview_insert. unfold vset. rewrite decide_False by done.
    rewrite cview_insert. unfold vset. case_decide as Ex; [|by apply F6]. apply set_bit_bytes; [apply F6; by rewrite <- Ex|].
    rewrite (bm_len _ _ _ F3) by lia. change BPB with 8192. change (Z.to_nat BSIZE) with 1024%nat. zlia.
Qed.

Lemma alloc_grown P o o' b :
  bitmap_ok sb dstart (view P) → dstart <= b < sb_size sb → used (view P) b = false → o' ≡ₚ b :: o →
  grown (view P) o (view (with_block_used P b)) o'.
Proof.
  intros Hbm Hb Hu Ho. pose proof (dl_size _ _ _ Hdl) as (L1 & _). split.
  - intros x Hx Hux. rewrite (used_alloc start D sb dstart Hdl) by done. rewrite Hux. apply orb_true_r.
  - intros x Hx Hn. apply view_alloc_meta; [done| |done]. intros ->. apply Hx. rewrite Ho. by left.
  - intros x. rewrite Ho, elem_of_cons. intros [->|H]; [by right|by left].
  - rewrite Ho. by apply list_subseteq_cons.
  - intros x Hx. rewrite (used_alloc start D sb dstart Hdl) by done. intros [<-%Z.eqb_eq|]%orb_true_iff; [right; rewrite Ho; by left|by left].
Qed.
(** *** A block of the file is written *)

Lemma used_insert P b x n : dstart <= b → 0 <= n < sb_size sb → used (view (<[b := x]> P)) n = used (view P) n.
Proof.
  intros Hb Hn. destruct (dl_bmap _ _ _ Hdl n Hn) as [_ E]. unfold FsTx.used. rewrite cview_insert. unfold vset. rewrite decide_False by lia. done.
Qed.

Lemma grown_insert P o b x : dstart <= b → b ∈ o → grown (view P) o (view (<[b := x]> P)) o.
Proof.
  intros Hb Ho. split; [|intros n Hn _|by left|done|].
  - intros n Hn Hu. by rewrite used_insert.
  - rewrite cview_insert. unfold vset. rewrite decide_False; [done|]. by intros ->.
  - intros n Hn. rewrite used_insert by done. by left.
Qed.

Lemma free_insert P b x k : dstart <= b → has_free (view P) k → has_free (view (<[b := x]> P)) k.
Proof.
  pose proof (dl_size _ _ _ Hdl) as (L1 & _). intros Hb (l & H1 & H2 & H3). exists l. split; [done|]. split; [done|].
  eapply Forall_impl; [exact H3|]. intros n [Hr Hu]. split; [done|]. by rewrite used_insert by lia.
Qed.

(** *** What is owned *)

Lemma owned_direct d bs b : (length bs < NDIRECT)%nat → owned (with_addr d (length bs) b) (bs ++ [b]) ≡ₚ b :: owned d bs.
Proof. intros H. unfold owned. rewrite with_addr_ne by lia. rewrite app_assoc. apply Permutation_app_comm. Qed.

Lemma owned_table d bs b : length (di_addrs d) = S NDIRECT → di_addrs d !!! NDIRECT = 0 → b ≠ 0 → owned (with_addr d NDIRECT b) bs ≡ₚ b :: owned d bs.
Proof. intros Hd Hz Hb. unfold owned. rewrite with_addr_at by lia. rewrite Hz, (proj2 (Z.eqb_neq _ _) Hb). done. Qed.

Lemma owned_indirect d bs b : owned d (bs ++ [b]) ≡ₚ b :: owned d bs.
Proof. unfold owned. rewrite app_assoc. apply Permutation_app_comm. Qed.

Lemma owned_ind d bs : di_addrs d !!! NDIRECT ≠ 0 → di_addrs d !!! NDIRECT ∈ owned d bs.
Proof. intros H. unfold owned. rewrite (proj2 (Z.eqb_neq _ _) H). by left. Qed.

(** *** A file that gets a block *)

Section alloc.
Context (P : blocks) (d : dinode) (bs c : list Z) (b : Z).
Context (Hst : fstate (view P) d bs c) (Hb : dstart <= b < sb_size sb) (Hu : used (view P) b = false).
Notation P' := (with_block_used P b).

Lemma alloc_range : 0 < b < 2147483648.
Proof. pose proof (dl_size _ _ _ Hdl) as (L1 & L2 & L3). lia. Qed.

Lemma fstate_direct : (length bs < NDIRECT)%nat → fstate (view P') (with_addr d (length bs) b) (bs ++ [b]) c.
Proof.
  intros Hl. pose proof alloc_range as Hr. destruct Hst as [F1 F2 F3]. split.
  - apply grow_direct; [by apply alloc_file|done|done|done].
  - apply with_addr_ok; [done|lia].
  - eapply fcore_perm; [by apply owned_direct|by apply fcore_alloc].
Qed.

Lemma fstate_table : (length bs <= NDIRECT)%nat → di_addrs d !!! NDIRECT = 0 → fstate (view P') (with_addr d NDIRECT b) bs c.
Proof.
  intros Hl Hz. pose proof alloc_range as Hr. destruct Hst as [F1 F2 F3]. split.
  - apply grow_table; [by apply alloc_file|done|done|done|done|apply view_alloc_new].
  - apply with_addr_ok; [done|lia].
  - eapply fcore_perm; [apply owned_table; [apply F2|done|lia]|by apply fcore_alloc].
Qed.

(** The indirect block with the new entry. *)
Definition with_entry : list Z := put32 (view P (di_addrs d !!! NDIRECT)) (4 * (length bs - NDIRECT)) b.

Lemma fstate_indirect :
  (NDIRECT <= length bs < Z.to_nat MAXFILE)%nat → di_addrs d !!! NDIRECT ≠ 0 →
  fstate (view (<[di_addrs d !!! NDIRECT := with_entry]> P')) d (bs ++ [b]) c.
Proof.
  intros Hl Hz. pose proof alloc_range as Hr. destruct Hst as [F1 F2 F3]. set (ib := di_addrs d !!! NDIRECT) in *.
  pose proof (owned_ind d bs Hz) as Hin. fold ib in Hin. pose proof (fcore_alloc P _ b F3 Hb Hu) as Hc.
  destruct (fc_own _ _ F3 ib Hin) as (I1 & I2 & I3). pose proof (dl_size _ _ _ Hdl) as (L1 & L2 & L3).
  assert (view P' ib = view P ib) as Ev by (apply view_alloc_meta; [done|congruence|lia]).
  assert (length with_entry = Z.to_nat BSIZE) as Hlen.
  { unfold with_entry. fold ib. rewrite length_put32; [done|]. rewrite I3. change (Z.to_nat MAXFILE) with 268%nat in *.
    change (Z.to_nat BSIZE) with 1024%nat. unfold NDIRECT in *. lia. }
  split; [|done|].
  - apply (file_rep_ext (vset (view P') ib with_entry)); [intros; apply cview_insert|]. unfold with_entry. fold ib. rewrite <- Ev.
    apply grow_indirect; try done; [by apply alloc_file|fold ib; by rewrite Ev|].
    pose proof (fc_nodup _ _ F3) as Hn. unfold owned in Hn. fold ib in Hn. rewrite (proj2 (Z.eqb_neq _ _) Hz) in Hn. by apply NoDup_cons in Hn as [? _].
  - apply (fcore_ext (vset (view P') ib with_entry)); [intros; apply cview_insert|].
    eapply fcore_perm; [apply owned_indirect|]. apply fcore_set; [done|by right|done|].
    apply splice_bytes; [|apply le_bytes_ok]. apply (fc_bytes _ _ F3). unfold in_log. pose proof (dl_log _ _ _ Hdl). lia.
Qed.
End alloc.
End grow.
