(* ===== verification/FsBmap.v ===== *)
(** The block of a file at a position, allocated where it is missing: [bmap] of
    Fs.v inside a transaction. *)

From S2P Require Export FsGrow.

(** The inode [d] with the size of the contents [c]. *)
Definition sized (d : dinode) (c : list Z) : dinode := d <| di_size := Z.of_nat (length c) |>.

Section bmap.
Context `{L : Layout} `{V : VirtioDevice}.
Context (p : nat) (start : Z) (D : blocks) (sb : superblock) (dstart : Z) (ip : nat).
Context (Hhn : hn start D = 0) (Hhl : length (blk D start) = Z.to_nat BSIZE) (Hdl : disk_layout start sb dstart).

Notation view P := (cview D P).
Notation cwp := (cwp p).
Notation in_tx := (in_tx p start D).
Notation inode s := (inode_at s ip).
Notation own s bs := (owned (dinode_of (inode s)) bs).
Notation ind s := (di_addrs (dinode_of (inode s)) !!! NDIRECT).
Notation kept := (λ D', D' = D).

(** The positions of the file that the system call is about. *)
Context (lo hi : nat).

(** Only the caches, the log, and the addresses and the size of inode [ip] change. *)
Record wmoved (s s' : kstate) : Prop := {
  wm_eq : s' = s <| k_disk := k_disk s' |> <| k_bufs := k_bufs s' |> <| k_procs := k_procs s' |> <| k_log := k_log s' |>
                 <| k_inodes := k_inodes s' |>;
  wm_proc : proc_at s' p = proc_at s p;
  wm_len : length (k_inodes s') = length (k_inodes s);
  wm_other : ∀ j, j ≠ ip → inode_at s' j = inode_at s j;
  wm_self : inode s' = (inode s) <| i_addrs := i_addrs (inode s') |> <| i_size := i_size (inode s') |>;
}.

Lemma wmoved_refl s : wmoved s s.
Proof. split; try done; [by destruct s|]. by destruct (inode s). Qed.
Lemma wmoved_trans s1 s2 s3 : wmoved s1 s2 → wmoved s2 s3 → wmoved s1 s3.
Proof.
  intros [E1 P1 L1 O1 S1] [E2 P2 L2 O2 S2]. split; [rewrite E2, E1; reflexivity|congruence|congruence| |].
  - intros j N. by rewrite O2, O1.
  - rewrite S2, S1. reflexivity.
Qed.
Lemma tmoved_inodes s s' : tmoved p s s' → k_inodes s' = k_inodes s.
Proof. intros [-> _]. done. Qed.
Lemma tmoved_wmoved s s' : tmoved p s s' → wmoved s s'.
Proof.
  intros M. pose proof (tmoved_inodes _ _ M) as Ei. destruct M as [E P']. split; [rewrite E; reflexivity|done|by rewrite Ei| |].
  - intros j _. unfold inode_at. by rewrite Ei.
  - unfold inode_at. rewrite Ei. by destruct (k_inodes s !!! ip).
Qed.

(** A file [bs], [c] is open in a transaction that has logged [n] blocks and holds
    the buffers [H]; [m] blocks are free. *)
Record wfile (s : kstate) (P : blocks) (H : gmap nat (Z * list Z)) (n : nat) (bs c : list Z) (m : nat) : Prop := {
  wf_tx : in_tx s P H n;
  wf_sb : k_sb s = sb;
  wf_state : fstate start sb dstart (view P) (sized (dinode_of (inode s)) c) bs c;
  wf_dev : i_dev (inode s) = ROOTDEV;
  wf_ip : (ip < length (k_inodes s))%nat;
  wf_free : has_free sb dstart (view P) m;
}.

(** A block that may be logged: of the bitmap, the indirect block, or the data. *)
Definition loggable (s : kstate) (bs : list Z) (b : Z) : Prop :=
  sb_bmapstart sb <= b < dstart ∨ (b = ind s ∧ ind s ≠ 0) ∨ ∃ i, (lo <= i < hi)%nat ∧ bs !! i = Some b.

(** What has happened between two such states. *)
Record wstep (s : kstate) (P : blocks) (bs : list Z) (s' : kstate) (P' : blocks) (bs' : list Z) : Prop := {
  ws_moved : wmoved s s';
  ws_grown : grown sb dstart (view P) (own s bs) (view P') (own s' bs');
  ws_prefix : bs `prefix_of` bs';
  ws_ind : ind s ≠ 0 → ind s' = ind s;
  ws_size : i_size (inode s') = i_size (inode s);
  ws_logged : ∀ b, is_Some (P' !! b) → is_Some (P !! b) ∨ loggable s' bs' b;
}.

Lemma wstep_refl s P bs : wstep s P bs s P bs.
Proof. split; [apply wmoved_refl|apply grown_refl|done|done|done|by left]. Qed.
Lemma wstep_trans s1 P1 bs1 s2 P2 bs2 s3 P3 bs3 : wstep s1 P1 bs1 s2 P2 bs2 → wstep s2 P2 bs2 s3 P3 bs3 → wstep s1 P1 bs1 s3 P3 bs3.
Proof.
  intros [A1 A2 A3 A4 A6 A5] [B1 B2 B3 B4 B6 B5]. split; [by eapply wmoved_trans|by eapply grown_trans|by etrans| |congruence|].
  - intros N. rewrite B4; [by apply A4|]. by rewrite A4.
  - intros b Hb. destruct (B5 b Hb) as [Hb2|?]; [|by right]. destruct (A5 b Hb2) as [?|[H|[[-> N]|(i & Hi & Hb')]]]; [by left|right..].
    + by left.
    + right. left. rewrite B4 by done. done.
    + right. right. exists i. split; [done|]. by eapply prefix_lookup_Some.
Qed.

(** The blocks that an allocation logs. *)
Lemma logged_alloc P b x : dstart <= b < sb_size sb → is_Some (with_block_used D sb P b !! x) → is_Some (P !! x) ∨ sb_bmapstart sb <= x < dstart ∨ x = b.
Proof.
  intros Hb. pose proof (dl_size _ _ _ Hdl) as (L1 & _). destruct (dl_bmap _ _ _ Hdl b ltac:(lia)) as [E1 E2]. unfold with_block_used.
  assert (0 <= b / BPB) by (change BPB with 8192; apply Z.div_pos; lia).
  rewrite !lookup_insert_is_Some. intros [->|[_ [<-|[_ H']]]]; [by right; right|right; left; lia|by left].
Qed.

Lemma in_tx_inodes s t P H n : in_tx s P H n → in_tx (s <| k_inodes := t |>) P H n.
Proof. intros [T1 (bl & [A1 A2 A3 A4] & T2) T3 T4]. split; [by apply cache_inodes| |done|done]. exists bl. split; [by split|done]. Qed.

(** The allocated block becomes an address of the inode. *)
Lemma set_addr_ok s k b :
  (ip < length (k_inodes s))%nat →
  ∃ s', (∀ e, upd_inode ip (λ i, i <| i_addrs ::= <[k := b]> |>) s e = Ok tt s' e) ∧ wmoved s s' ∧
    dinode_of (inode s') = with_addr (dinode_of (inode s)) k b ∧ i_size (inode s') = i_size (inode s) ∧ i_dev (inode s') = i_dev (inode s) ∧ k_sb s' = k_sb s ∧
    ∀ P H n, in_tx s P H n → in_tx s' P H n.
Proof.
  intros Hip. set (y := (inode s) <| i_addrs ::= <[k := b]> |>). exists (s <| k_inodes := <[ip := y]> (k_inodes s) |>).
  assert (inode (s <| k_inodes := <[ip := y]> (k_inodes s) |>) = y) as Ey by (unfold inode_at; simpl; by rewrite list_lookup_total_insert_eq).
  split; [done|]. rewrite Ey. split_and!; try done.
  - split; [reflexivity|done|simpl; by rewrite length_insert| |rewrite Ey].
    + intros j N. unfold inode_at. simpl. by rewrite list_lookup_total_insert_ne.
    + unfold y. by destruct (inode s).
  - intros P H n. apply in_tx_inodes.
Qed.

(** [balloc] in a transaction. *)
Lemma balloc_tx s P H n m :
  k_sb s = sb → in_tx s P H n → bitmap_ok sb dstart (view P) → held_used D sb dstart P H → (n + 1 + size H < NBUF)%nat →
  has_free sb dstart (view P) (S m) →
  cwp (balloc_cost sb) (balloc ROOTDEV) s (balloc_post p start D sb dstart s P H n) kept.
Proof.
  intros Hsb Hx Hbm Hh Hn Hf. destruct (has_free_some start sb dstart Hdl _ _ Hf) as (f & Hr & Hu). by eapply balloc_ok.
Qed.

Lemma no_buffers P : held_used D sb dstart P ∅.
Proof. intros a b d. by rewrite lookup_empty. Qed.

(** The blocks that the table of the indirect blocks still needs. *)
Definition table_need (s : kstate) : nat := if ind s =? 0 then 1 else 0.

(** The table of the indirect blocks, allocated if there is none. *)
Lemma table_tx s P n bs c m :
  wfile s P ∅ n bs c (table_need s + m) → (n + 1 < NBUF)%nat → (NDIRECT <= length bs)%nat →
  cwp (balloc_cost sb)
    (let addr := i_addrs (inode s) !!! NDIRECT in
     if addr =? 0 then
       addr ← balloc (i_dev (inode s));
       when (negb (addr =? 0)) (upd_inode ip (λ i, i <| i_addrs ::= <[NDIRECT := addr]> |>));;
       mret addr
     else mret addr) s
    (λ a s', ∃ P' n', wfile s' P' ∅ n' bs c m ∧ (n' <= n + 2)%nat ∧ wstep s P bs s' P' bs ∧
       a = di_addrs (dinode_of (inode s')) !!! NDIRECT ∧ a ≠ 0) kept.
Proof.
  unfold table_need. intros [W1 W2 W3 W4 W5 W6] Hn Hl. cbv zeta. change (i_addrs (inode s) !!! NDIRECT) with (di_addrs (dinode_of (inode s)) !!! NDIRECT).
  pose proof W3 as [F1 F2 F3]. assert (length (di_addrs (dinode_of (inode s))) = S NDIRECT) as Hlen by exact (do_len _ F2).
  destruct (Z.eqb_spec (di_addrs (dinode_of (inode s)) !!! NDIRECT) 0) as [Hz|Hz].
  - assert (length bs <= NDIRECT)%nat as Hl2.
    { destruct (decide (length bs <= NDIRECT)%nat); [done|]. exfalso. by apply (fr_need _ _ _ _ F1); [lia|]. }
    rewrite W4. rewrite <- (Nat.add_0_r (balloc_cost sb)). apply cwp_bind.
    eapply cwp_mono; [by apply (balloc_tx s P ∅ n m W2 W1 (fc_bitmap _ _ _ _ _ F3) (no_buffers P)); [rewrite map_size_empty; lia|]|done| |done].
    intros b s1 (B1 & B2 & B3 & n1 & B4 & B5). pose proof (alloc_range start sb dstart Hdl b B1) as Hr.
    rewrite (proj2 (Z.eqb_neq _ _)) by lia. cbn [negb when].
    pose proof (tmoved_inodes _ _ B3) as Ei. assert (inode s1 = inode s) as Ein by (unfold inode_at; by rewrite Ei).
    destruct (set_addr_ok s1 NDIRECT b) as (s2 & E2 & M2 & Ed & Esz & Edev & Esb & Htx); [by rewrite Ei|].
    eapply cwp_bind_ok; [exact E2|]. apply cwp_ret. exists (with_block_used D sb P b), n1. rewrite Ein in *.
    assert (k_sb s1 = sb) as Esb1 by (destruct B3 as [-> _]; done).
    assert (wmoved s s2) as M by (eapply wmoved_trans; [by apply tmoved_wmoved|done]).
    split; [|split; [done|split]].
    + split; [by apply Htx|congruence| |congruence|rewrite (wm_len _ _ M); done|].
      * rewrite Ed. by apply (fstate_table start D sb dstart Hdl P (sized (dinode_of (inode s)) c)).
      * apply (alloc_free start); try done. apply F3.
    + split; [done| |done|done|done|].
      * rewrite Ed. apply (alloc_grown start); try done; [apply F3|]. apply owned_table; [apply F2|done|lia].
      * intros x Hx. apply logged_alloc in Hx as [?|[?| ->]]; [by left|right; by left| |done]. right. right. left.
        rewrite Ed, with_addr_at by lia. split; [done|lia].
    + rewrite Ed, with_addr_at; [split; [done|lia]|lia].
  - apply cwp_return. exists P, n.
    split; [|split; [lia|split; [apply wstep_refl|done]]]. by split.
Qed.
(** The file when only the caches have changed. *)
Lemma wfile_framed s s' P H H' n bs c m : wfile s P H n bs c m → tmoved p s s' → in_tx s' P H' n → wfile s' P H' n bs c m.
Proof.
  intros [W1 W2 W3 W4 W5 W6] M Hx. pose proof (tmoved_inodes _ _ M) as Ei.
  split; try done; unfold inode_at in *; rewrite ?Ei; try done. by destruct M as [-> _].
Qed.

Lemma wstep_framed s s' P bs : tmoved p s s' → wstep s P bs s' P bs.
Proof.
  intros M. split; [by apply tmoved_wmoved| |done| | |by left]; unfold inode_at; rewrite (tmoved_inodes _ _ M); [apply grown_refl|done|done].
Qed.

(** An entry of the table of indirect blocks is given a new block. *)
Lemma new_entry_tx s P n b bs c m :
  let ib := di_addrs (dinode_of (inode s)) !!! NDIRECT in
  wfile s P {[b := (ib, view P ib)]} n bs c (S m) → ib ≠ 0 → (n + 2 < NBUF)%nat → (NDIRECT <= length bs < Z.to_nat MAXFILE)%nat → (lo <= length bs < hi)%nat →
  cwp (balloc_cost sb)
    (addr ← balloc ROOTDEV;
     when (negb (addr =? 0)) (
       upd_buf b (λ x, x <| b_data ::= λ d, put32 d (4 * (length bs - NDIRECT)) addr |>);;
       log_write b);;
     mret addr) s
    (λ a s', ∃ P' n', wfile s' P' {[b := (ib, view P' ib)]} n' (bs ++ [a]) c m ∧ (n' <= n + 3)%nat ∧ wstep s P bs s' P' (bs ++ [a]) ∧
       di_addrs (dinode_of (inode s')) !!! NDIRECT = ib) kept.
Proof.
  intros ib [W1 W2 W3 W4 W5 W6] Hi Hn Hl Hlh. change NBUF with 30%nat in Hn. pose proof W3 as [F1 F2 F3].
  pose proof (owned_ind (sized (dinode_of (inode s)) c) bs Hi) as Hin. fold ib in Hin. destruct (fc_own _ _ _ _ _ F3 ib Hin) as (I1 & I2 & I3).
  assert (held_used D sb dstart P {[b := (ib, view P ib)]}) as Hh.
  { intros a x d Ha. apply lookup_singleton_Some in Ha as [_ [= <- <-]]. done. }
  rewrite <- (Nat.add_0_r (balloc_cost sb)). apply cwp_bind.
  eapply cwp_mono; [by apply (balloc_tx s P _ n m W2 W1 (fc_bitmap _ _ _ _ _ F3) Hh); [rewrite map_size_singleton; change NBUF with 30%nat; lia|]|done| |done].
  intros x s1 (B1 & B2 & B3 & n1 & B4 & B5). pose proof (alloc_range start sb dstart Hdl x B1) as Hr.
  rewrite (proj2 (Z.eqb_neq _ _)) by lia. cbn [negb when]. set (P1 := with_block_used D sb P x) in *.
  set (y := put32 (view P ib) (4 * (length bs - NDIRECT)) x).
  destruct (held_facts p s1 D P1 _ b ib _ (op_cache _ _ _ _ _ _ _ B4) (lookup_singleton_eq _ _)) as (_ & _ & _ & _ & Ed & _).
  destruct (poke_tx p start D s1 P1 _ n1 b ib _ y B4 (lookup_singleton_eq _ _)) as [Hx1 M1]. rewrite insert_singleton_eq in Hx1.
  destruct (log_write_tx p start D Hhl (poke b y s1) P1 _ n1 b ib y Hx1 (lookup_singleton_eq _ _)) as (s2 & n2 & E2 & Hx2 & Hn2 & M2).
  { lia. } { unfold in_log. pose proof (dl_log _ _ _ Hdl). pose proof (dl_size _ _ _ Hdl). lia. }
  eapply cwp_bind_ok.
  { intros e. erewrite bind_Ok; [exact (E2 e)|]. unfold upd_buf, modify, poke. do 4 f_equal. unfold set. rewrite Ed. reflexivity. }
  apply cwp_ret. exists (<[ib := y]> P1), n2.
  assert (tmoved p s s2) as M by (eapply tmoved_trans; [done|by eapply tmoved_trans]). pose proof (tmoved_inodes _ _ M) as Ei.
  assert (inode s2 = inode s) as Ein by (unfold inode_at; by rewrite Ei). rewrite Ein.
  split; [|split; [lia|split; [|done]]].
  - split; rewrite ?Ein, ?Ei; try done.
    + rewrite cview_insert. unfold vset. by rewrite decide_True.
    + by destruct M as [-> _].
    + by apply (fstate_indirect start D sb dstart Hdl P (sized (dinode_of (inode s)) c) bs c x).
    + apply (free_insert start); [done|lia|]. apply (alloc_free start); [done|apply F3|done|done].
  - split; [by apply tmoved_wmoved| |by apply prefix_app_r|by rewrite Ein|by rewrite Ein|].
    + rewrite Ein. eapply (grown_trans start); [done| |].
      * apply (alloc_grown start D sb dstart Hdl P _ (own s (bs ++ [x])) x); try done; [apply F3|apply owned_indirect].
      * apply (grown_insert start); [done|lia|]. by apply owned_ind.
    + intros z [<-|[_ Hz]]%lookup_insert_is_Some; [right; right; left; by rewrite Ein|].
      apply logged_alloc in Hz as [?|[?| ->]]; [by left|right; by left| |done]. right. right. right. exists (length bs). split; [done|].
      by apply list_lookup_middle.
Qed.

(** An entry of the table, found or allocated. *)
Lemma entry_tx s P n bs c k K :
  let ib := di_addrs (dinode_of (inode s)) !!! NDIRECT in
  wfile s P ∅ n bs c (K - length bs) → ib ≠ 0 → (n + 2 < NBUF)%nat → (NDIRECT <= k < Z.to_nat MAXFILE)%nat → (lo <= k < hi)%nat → (k <= length bs)%nat → (k < K)%nat →
  cwp (1 + balloc_cost sb)
    (bp ← bread ROOTDEV ib;
     x ← get_buf bp;
     let addr := get32 (b_data x) (4 * (k - NDIRECT)) in
     addr ← (
       if addr =? 0 then
         addr ← balloc ROOTDEV;
         when (negb (addr =? 0)) (
           upd_buf bp (λ x, x <| b_data ::= λ d, put32 d (4 * (k - NDIRECT)) addr |>);;
           log_write bp);;
         mret addr
       else mret addr);
     brelse bp;;
     mret addr) s
    (λ a s', ∃ P' n' bs', wfile s' P' ∅ n' bs' c (K - length bs') ∧ (n' <= n + 3)%nat ∧ wstep s P bs s' P' bs' ∧ bs' !! k = Some a) kept.
Proof.
  intros ib W Hi Hn Hk Hlh Hl HK. pose proof W as [W1 W2 W3 W4 W5 W6]. pose proof W3 as [F1 F2 F3].
  pose proof (owned_ind (sized (dinode_of (inode s)) c) bs Hi) as Hin. fold ib in Hin. destruct (fc_own _ _ _ _ _ F3 ib Hin) as (I1 & I2 & I3).
  pose proof (dl_size _ _ _ Hdl) as (L1 & L2 & L3).
  apply cwp_bind. eapply (bread_tx p start D Hhn Hhl); [done|intros b d; by rewrite lookup_empty|rewrite map_size_empty; lia|lia|done|].
  intros b s1 _ Hx1 M1 Ed. rewrite insert_empty in Hx1. eapply cwp_bind_ok; [intros e; reflexivity|]. rewrite Ed. cbv zeta.
  pose proof (wfile_framed s s1 P ∅ _ n bs c _ W M1 Hx1) as W'. pose proof (wstep_framed s s1 P bs M1) as S1.
  assert (inode s1 = inode s) as Ein by (unfold inode_at; by rewrite (tmoved_inodes _ _ M1)).
  assert (get32 (view P ib) (4 * (k - NDIRECT)) = default 0 (bs !! k)) as ->.
  { change (Z.to_nat MAXFILE) with 268%nat in *. rewrite (fr_indirect _ _ _ _ F1); [|done|change (Z.to_nat NINDIRECT) with 256%nat; unfold NDIRECT in *; lia].
    do 2 f_equal. unfold NDIRECT in *. lia. }
  rewrite <- (Nat.add_0_r (balloc_cost sb)). apply cwp_bind.
  assert (∀ c' a s2 P2 n2 bs2, wfile s2 P2 {[b := (ib, view P2 ib)]} n2 bs2 c (K - length bs2) → (n2 <= n + 3)%nat → wstep s P bs s2 P2 bs2 → bs2 !! k = Some a →
    cwp c' (brelse b;; mret a) s2 (λ a s', ∃ P' n' bs', wfile s' P' ∅ n' bs' c (K - length bs') ∧ (n' <= n + 3)%nat ∧ wstep s P bs s' P' bs' ∧ bs' !! k = Some a) kept) as Hend.
  { intros c' a s2 P2 n2 bs2 X1 X2 X3 X4. destruct (brelse_tx p start D s2 P2 _ n2 b ib (wf_tx _ _ _ _ _ _ _ X1) (lookup_singleton_eq _ _)) as (s3 & E3 & Hx3 & M3).
    rewrite delete_singleton_eq in Hx3. eapply cwp_bind_ok; [exact E3|]. apply cwp_return.
    exists P2, n2, bs2. split; [by eapply wfile_framed|]. split; [done|]. split; [|done]. eapply wstep_trans; [done|by apply wstep_framed]. }
  destruct (decide (k < length bs)%nat) as [Hlt|Hge].
  - destruct (lookup_lt_is_Some_2 bs k Hlt) as [a Ha]. rewrite Ha. change (default 0 (Some a)) with a.
    pose proof (Forall_lookup_1 _ _ _ _ (fr_bs _ _ _ _ F1) Ha) as Hr. cbv beta in Hr. rewrite (proj2 (Z.eqb_neq _ _)) by lia.
    apply cwp_return. apply (Hend 0%nat a s1 P n bs); [exact W'|lia|exact S1|exact Ha].
  - assert (k = length bs) as -> by lia. rewrite lookup_ge_None_2 by lia. change (default 0 None) with 0. rewrite Z.eqb_refl.
    pose proof (new_entry_tx s1 P n b bs c (K - S (length bs))) as Hne. cbv zeta in Hne. rewrite Ein in Hne. fold ib in Hne.
    eapply cwp_mono; [apply Hne; [by replace (S (K - S (length bs))) with (K - length bs)%nat by lia|exact Hi|exact Hn|lia|lia]|done| |done].
    intros a s2 (P2 & n2 & X1 & X2 & X3 & X4). apply (Hend 0%nat a s2 P2 n2 (bs ++ [a])); [|exact X2|eapply wstep_trans; [exact S1|exact X3]|].
    + rewrite length_app. cbn [length]. by rewrite Nat.add_1_r.
    + by apply list_lookup_middle.
Qed.

(** The block at position [k] of the file; at most two blocks are allocated. *)
Definition bmap_cost : nat := balloc_cost sb + (1 + balloc_cost sb).

(** A block that the inode itself has the address of. *)
Lemma direct_tx s P n bs c m :
  wfile s P ∅ n bs c (S m) → (n + 1 < NBUF)%nat → (length bs < NDIRECT)%nat → (lo <= length bs < hi)%nat →
  cwp (balloc_cost sb)
    (addr ← balloc ROOTDEV;
     if addr =? 0 then mret 0 else
     upd_inode ip (λ i, i <| i_addrs ::= <[length bs := addr]> |>);;
     mret addr) s
    (λ a s', ∃ P' n', wfile s' P' ∅ n' (bs ++ [a]) c m ∧ (n' <= n + 2)%nat ∧ wstep s P bs s' P' (bs ++ [a]) ∧ ind s' = ind s) kept.
Proof.
  intros [W1 W2 W3 W4 W5 W6] Hn Hl Hlh. pose proof W3 as [F1 F2 F3].
  rewrite <- (Nat.add_0_r (balloc_cost sb)). apply cwp_bind.
  eapply cwp_mono; [by apply (balloc_tx s P ∅ n m W2 W1 (fc_bitmap _ _ _ _ _ F3) (no_buffers P)); [rewrite map_size_empty; lia|]|done| |done].
  intros b s1 (B1 & B2 & B3 & n1 & B4 & B5). pose proof (alloc_range start sb dstart Hdl b B1) as Hr.
  rewrite (proj2 (Z.eqb_neq _ _)) by lia.
  pose proof (tmoved_inodes _ _ B3) as Ei. assert (inode s1 = inode s) as Ein by (unfold inode_at; by rewrite Ei).
  destruct (set_addr_ok s1 (length bs) b) as (s2 & E2 & M2 & Ed & Esz & Edev & Esb & Htx); [by rewrite Ei|].
  eapply cwp_bind_ok; [exact E2|]. apply cwp_ret. exists (with_block_used D sb P b), n1. rewrite Ein in *.
  assert (k_sb s1 = sb) as Esb1 by (destruct B3 as [-> _]; done).
  assert (wmoved s s2) as M by (eapply wmoved_trans; [by apply tmoved_wmoved|done]).
  split; [|split; [done|split; [|rewrite Ed; apply with_addr_ne; lia]]].
  - split; [by apply Htx|congruence| |congruence|rewrite (wm_len _ _ M); done|].
    + rewrite Ed. by apply (fstate_direct start D sb dstart Hdl P (sized (dinode_of (inode s)) c)).
    + apply (alloc_free start); try done. apply F3.
  - split; [done| |by apply prefix_app_r| |done|].
    + rewrite Ed. apply (alloc_grown start); try done; [apply F3|]. by apply owned_direct.
    + intros _. rewrite Ed. by apply with_addr_ne; lia.
    + intros x Hx. apply logged_alloc in Hx as [?|[?| ->]]; [by left|right; by left| |done]. right. right. right. exists (length bs). split; [done|].
      by apply list_lookup_middle.
Qed.

Lemma bmap_tx s P n bs c k K :
  wfile s P ∅ n bs c (table_need s + (K - length bs)) → (n + 4 < NBUF)%nat → (k < Z.to_nat MAXFILE)%nat → (lo <= k < hi)%nat → (k <= length bs)%nat → (k < K)%nat →
  cwp bmap_cost (bmap ip (Z.of_nat k)) s
    (λ a s', ∃ P' n' bs', wfile s' P' ∅ n' bs' c (table_need s' + (K - length bs')) ∧ (n' <= n + 5)%nat ∧ wstep s P bs s' P' bs' ∧ bs' !! k = Some a) kept.
Proof.
  intros W Hn Hk Hlh Hl HK. pose proof W as [W1 W2 W3 W4 W5 W6]. pose proof W3 as [F1 F2 F3]. unfold bmap.
  eapply cwp_bind_ok; [intros e; reflexivity|]. rewrite Nat2Z.id, W4. unfold bmap_cost.
  assert (∀ a, bs !! k = Some a → ∃ P' n' bs', wfile s P' ∅ n' bs' c (table_need s + (K - length bs')) ∧ (n' <= n + 5)%nat ∧ wstep s P bs s P' bs' ∧ bs' !! k = Some a) as Hhave.
  { intros a Ha. exists P, n, bs. split; [|split; [lia|split; [apply wstep_refl|done]]]. by split. }
  destruct (Z.ltb_spec (Z.of_nat k) (Z.of_nat NDIRECT)) as [Hd|Hd].
  - change (i_addrs (inode s)) with (di_addrs (sized (dinode_of (inode s)) c)). rewrite (fr_direct _ _ _ _ F1) by lia.
    destruct (decide (k < length bs)%nat) as [Hlt|Hge].
    + destruct (lookup_lt_is_Some_2 bs k Hlt) as [a Ha]. rewrite Ha. change (default 0 (Some a)) with a.
      pose proof (Forall_lookup_1 _ _ _ _ (fr_bs _ _ _ _ F1) Ha) as Hr. cbv beta in Hr. rewrite (proj2 (Z.eqb_neq _ _)) by lia.
      by apply cwp_return, Hhave.
    + assert (k = length bs) as -> by lia. rewrite lookup_ge_None_2 by lia. change (default 0 None) with 0. rewrite Z.eqb_refl.
      eapply cwp_mono; [apply (direct_tx s P n bs c (table_need s + (K - S (length bs)))); [|lia|lia|lia]|lia| |done].
      { by replace (S (table_need s + (K - S (length bs)))) with (table_need s + (K - length bs))%nat by lia. }
      intros a s' (P' & n' & X1 & X2 & X3 & X4). exists P', n', (bs ++ [a]). split; [|split; [lia|split; [done|by apply list_lookup_middle]]].
      unfold table_need in *. rewrite X4, length_app. cbn [length]. by rewrite Nat.add_1_r.
  - change (Z.to_nat MAXFILE) with 268%nat in *. rewrite (proj2 (Z.ltb_lt _ _)) by (change NINDIRECT with 256; unfold NDIRECT in *; lia).
    replace (Z.to_nat (Z.of_nat k - Z.of_nat NDIRECT)) with (k - NDIRECT)%nat by lia. apply cwp_bind.
    eapply cwp_mono; [pose proof (table_tx s P n bs c (K - length bs)) as Ht; rewrite W4 in Ht; apply Ht; [exact W|lia|lia]|done| |done].
    intros a s1 (P1 & n1 & X1 & X2 & X3 & -> & X5). rewrite (proj2 (Z.eqb_neq _ _) X5).
    eapply cwp_mono; [apply (entry_tx s1 P1 n1 bs c k K); [exact X1|exact X5|lia|change (Z.to_nat MAXFILE) with 268%nat; lia|lia|lia|lia]|done| |done].
    intros a s' (P' & n' & bs' & Y1 & Y2 & Y3 & Y4). exists P', n', bs'. split; [|split; [lia|split; [by eapply wstep_trans|done]]].
    unfold table_need. rewrite (ws_ind _ _ _ _ _ _ Y3) by done. by rewrite (proj2 (Z.eqb_neq _ _) X5).
Qed.
End bmap.
