(* ===== verification/FsWrite.v ===== *)
(** Writing files: the loop of [writei] of Fs.v inside a transaction. *)

From S2P Require Export FsBmap.

(** ** The contents *)

Lemma length_splice_ext (c : list Z) o ch : (o <= length c)%nat → length (splice c o ch) = Nat.max (length c) (o + length ch).
Proof. intros H. unfold splice. rewrite !length_app, length_take, length_drop. lia. Qed.

Lemma splice_nil (c : list Z) o : splice c o [] = c.
Proof. unfold splice. cbn [length app]. rewrite Nat.add_0_r. apply take_drop. Qed.

(** A piece more of the data is written. *)
Lemma splice_more (c data : list Z) o t k :
  (o <= length c)%nat → (t + k <= length data)%nat →
  splice (splice c o (take t data)) (o + t) (take k (drop t data)) = splice c o (take (t + k) data).
Proof.
  intros Ho Hk. assert (length (take t data) = t) as Et by (rewrite length_take; lia).
  assert (length (take k (drop t data)) = k) as Ek by (rewrite length_take, length_drop; lia).
  assert (length (take (t + k) data) = (t + k)%nat) as Etk by (rewrite length_take; lia).
  apply list_eq. intros i. rewrite !lookup_splice; [|lia|done|rewrite length_splice_ext by done; lia]. rewrite Ek, Et, Etk.
  destruct (decide (o + t <= i < o + t + k)%nat).
  - rewrite decide_True by lia. rewrite !lookup_take_lt, lookup_drop by lia. f_equal. lia.
  - destruct (decide (o <= i < o + t)%nat).
    + rewrite decide_True by lia. by rewrite !lookup_take_lt by lia.
    + by rewrite decide_False by lia.
Qed.

(** Bytes of one block of the file are replaced. *)
Lemma write_block v d bs c o ch b :
  file_rep v (sized d c) bs c → NoDup (owned d bs) → (o <= length c)%nat → bs !! (o / 1024)%nat = Some b →
  (o mod 1024 + length ch <= 1024)%nat → length (v b) = 1024%nat →
  file_rep (vset v b (splice (v b) (o mod 1024) ch)) (sized d (splice c o ch)) bs (splice c o ch).
Proof.
  intros [H1 H2 H3 H4 H5 H6 H7 H8] Hn Ho Hb Hm Hl. set (x := splice (v b) (o mod 1024) ch).
  pose proof (list_elem_of_lookup_2 _ _ _ Hb) as Hin. split; try done.
  - intros N j Hj. unfold vset. rewrite decide_False; [by apply H7|]. intros E. unfold owned in Hn. cbn in N. rewrite (proj2 (Z.eqb_neq _ _) N) in Hn.
    apply NoDup_cons in Hn as [Hn _]. apply Hn. by rewrite <- E in Hin.
  - assert (NoDup bs) as Hnb by (unfold owned in Hn; by apply NoDup_app in Hn as (_ & _ & ?)).
    intros i y Hi. rewrite lookup_splice in Hi by done. destruct (decide (o <= i < o + length ch)%nat) as [Hr|Hr].
    + assert (i / 1024 = o / 1024)%nat as -> by ndlia. exists b. split; [done|]. unfold vset. rewrite decide_True by done. unfold x.
      rewrite lookup_splice, decide_True by ndlia. rewrite <- Hi. f_equal. ndlia.
    + destruct (H8 i y Hi) as (b' & Hb' & Hy). exists b'. split; [done|]. unfold vset. case_decide as E; [|done]. subst b'.
      assert (i / 1024 = o / 1024)%nat as Ei by (by eapply NoDup_lookup).
      unfold x. rewrite lookup_splice by ndlia. rewrite decide_False; [done|]. ndlia.
Qed.

(** ** Inodes *)

Lemma sized_same d c : di_size d = Z.of_nat (length c) → sized d c = d.
Proof. intros E. destruct d. unfold sized, set. cbn in *. by rewrite E. Qed.

Lemma words_bytes_ok ws : bytes_ok (words_bytes ws).
Proof. induction ws as [|w ws IH]; cbn [words_bytes]; [constructor|]. apply Forall_app. split; [apply le_bytes_ok|done]. Qed.

Lemma dinode_bytes_ok d : bytes_ok (dinode_bytes d).
Proof. unfold dinode_bytes. repeat (apply Forall_app; split; [apply le_bytes_ok|]). apply words_bytes_ok. Qed.

Section inodes.
Context (start : Z) (sb : superblock) (dstart : Z) (Hdl : disk_layout start sb dstart).

Lemma IBLOCK_eq inum : inum_ok sb inum → IBLOCK inum sb = inum / IPB + sb_inodestart sb.
Proof.
  intros [H1 H2]. pose proof (dl_size _ _ _ Hdl) as (L1 & L2 & L3). pose proof (dl_log _ _ _ Hdl). pose proof (dl_start _ _ _ Hdl).
  unfold IBLOCK. change IPB with 16. unfold LOGBLOCKS, MAXOPBLOCKS in *. apply u32_small. zlia.
Qed.

(** Inode [inum] is written to its block. *)
Lemma disk_inode_put v inum d i :
  (∀ i, inum_ok sb i → length (v (IBLOCK i sb)) = Z.to_nat BSIZE) → inum_ok sb inum → inum_ok sb i → dinode_ok d →
  disk_inode sb (vset v (IBLOCK inum sb) (put_dinode (v (IBLOCK inum sb)) inum d)) i = if decide (i = inum) then d else disk_inode sb v i.
Proof.
  intros Hl Hn Hi Hd. unfold disk_inode, vset. destruct (decide (i = inum)) as [->|N]; [rewrite decide_True by done; by apply get_put_dinode; [apply Hl|]|].
  case_decide as E; [|done]. rewrite E, get_put_dinode_ne; [done|by apply Hl|done|].
  rewrite !IBLOCK_eq in E by done. change IPB with 16 in *. destruct Hn, Hi. intros Em. apply N. zlia.
Qed.

(** A file does not depend on the blocks of the inodes. *)
Lemma fstate_iblock v d bs c inum x :
  fstate start sb dstart v d bs c → inum_ok sb inum → bytes_ok x → fstate start sb dstart (vset v (IBLOCK inum sb) x) d bs c.
Proof.
  intros [F1 F2 [[F3 F3'] F4 F5 F6]] Hn Hx. pose proof (dl_size _ _ _ Hdl) as (L1 & L2 & L3). pose proof (dl_inode _ _ _ Hdl inum Hn) as Hib.
  assert (∀ n, 0 <= n < sb_size sb → vset v (IBLOCK inum sb) x (BBLOCK n sb) = v (BBLOCK n sb)) as E.
  { intros n Hb. destruct (dl_bmap _ _ _ Hdl n Hb) as [E1 _]. unfold vset. rewrite decide_False; [done|]. rewrite E1. change BPB with 8192. pose proof (Z.div_pos n 8192). lia. }
  assert (∀ n, 0 <= n < sb_size sb → used sb (vset v (IBLOCK inum sb) x) n = used sb v n) as Eu by (intros n Hb; unfold used; by rewrite E).
  assert (∀ n, n ∈ owned d bs → vset v (IBLOCK inum sb) x n = v n) as Eo.
  { intros n Hin. destruct (F5 n Hin) as (Hr & _). unfold vset. rewrite decide_False by lia. done. }
  split; [by apply (file_rep_ext v)|done|]. split; [split| done| |].
  - intros n Hb. rewrite E by done. by apply F3.
  - intros n Hb. rewrite Eu by lia. by apply F3'.
  - intros n Hin. destruct (F5 n Hin) as (N1 & N2 & N3). split; [done|]. rewrite Eu by lia. split; [done|]. by rewrite Eo.
  - intros n Hin. unfold vset. case_decide; [done|by apply F6].
Qed.

Lemma free_iblock D P inum x k : inum_ok sb inum → has_free sb dstart (cview D P) k → has_free sb dstart (cview D (<[IBLOCK inum sb := x]> P)) k.
Proof.
  intros Hn (l & H1 & H2 & H3). pose proof (dl_inode _ _ _ Hdl inum Hn) as Hib. pose proof (dl_size _ _ _ Hdl) as (L1 & L2 & L3).
  exists l. split; [done|]. split; [done|]. eapply Forall_impl; [exact H3|]. intros b [Hr Hu]. split; [done|]. unfold used in *.
  destruct (dl_bmap _ _ _ Hdl b ltac:(lia)) as [E1 _]. rewrite cview_insert. unfold vset. rewrite decide_False; [done|]. rewrite E1. change BPB with 8192.
  pose proof (Z.div_pos b 8192). lia.
Qed.
End inodes.

Section write.
Context `{L : Layout} `{V : VirtioDevice}.
Context (p : nat) (start : Z) (D : blocks) (sb : superblock) (dstart : Z) (ip : nat).
Context (Hhn : hn start D = 0) (Hhl : length (blk D start) = Z.to_nat BSIZE) (Hdl : disk_layout start sb dstart).

Notation view P := (cview D P).
Notation cwp := (cwp p).
Notation in_tx := (in_tx p start D).
Notation inode s := (inode_at s ip).
Notation own s bs := (owned (dinode_of (inode s)) bs).
Notation wmoved := (wmoved p ip).
Notation kept := (λ D', D' = D).

(** Where the bytes [data] come from. *)
Context (user_src : bool) (src : Z) (data : list Z) (src_ok : kstate → Prop).
Context (src_frame : ∀ s s', wmoved s s' → src_ok s → src_ok s').
Context (src_copy : ∀ s t k e, calm s p → src_ok s → (t + k <= length data)%nat →
  either_copyin user_src (u64 (src + Z.of_nat t)) (Z.of_nat k) s e = Ok (take k (drop t data), 0) s e).
Context (Hbytes : bytes_ok data).

(** The contents before, and the position. *)
Context (c : list Z) (off : nat) (Hoff : (off <= length c)%nat) (Hend : (off + length data <= 268 * 1024)%nat).

(** The blocks of the file are [total] in the end. *)
Context (total : nat) (HK : ((off + length data + 1023) / 1024 <= total)%nat).

Notation lo := (off / 1024)%nat.
Notation hi := ((off + length data + 1023) / 1024)%nat.
Notation wfile := (wfile p start D sb dstart ip).
Notation wstep := (wstep p D sb dstart ip lo hi).

(** The contents after [t] bytes. *)
Definition written (t : nat) : list Z := splice c off (take t data).

(** The state of the loop after [t] bytes. *)
Definition at_write (t : nat) : Z * Z * Z := (Z.of_nat t, Z.of_nat (off + t), u64 (src + Z.of_nat t)).

(** The bytes of one round. *)
Definition write_bytes (t : nat) : nat := Nat.min (length data - t) (1024 - (off + t) mod 1024).

Record writing (s0 : kstate) (P0 : blocks) (bs0 : list Z) (s : kstate) (n t : nat) : Prop := {
  wt_file : ∃ P bs, wfile s P ∅ n bs (written t) (table_need ip s + (total - length bs)) ∧ wstep s0 P0 bs0 s P bs;
  wt_src : src_ok s;
  wt_t : (t <= length data)%nat;
}.

Lemma length_written t : (t <= length data)%nat → length (written t) = Nat.max (length c) (off + t).
Proof. intros. unfold written. rewrite length_splice_ext, length_take by done. lia. Qed.

(** The block is in the file, or next. *)
Lemma next_block_le v d bs t : file_rep v d bs (written t) → (t <= length data)%nat → ((off + t) / 1024 <= length bs)%nat.
Proof.
  intros Hr Ht. destruct (decide (off + t = 0)%nat) as [->|N]; [by apply Nat.le_0_l|].
  destruct (lookup_lt_is_Some_2 (written t) (off + t - 1)) as [x Hx]; [rewrite length_written by done; lia|].
  destruct (fr_content _ _ _ _ Hr _ _ Hx) as (b & Hb & _). apply lookup_lt_Some in Hb. ndlia.
Qed.
(** A block of the file gets its bytes. *)
Lemma fill_tx s P n bs t m b bp k :
  wfile s P {[bp := (b, view P b)]} n bs (written t) m → bs !! ((off + t) / 1024)%nat = Some b → (n < 30)%nat →
  (t < length data)%nat → k = write_bytes t → ¬ in_log start b →
  let x := splice (view P b) ((off + t) mod 1024) (take k (drop t data)) in
  ∃ s' n', (∀ A (r : K A) e, (upd_buf bp (λ y, y <| b_data ::= λ d, splice d ((off + t) mod 1024) (take k (drop t data)) |>);; log_write bp;; brelse bp;; r) s e = r s' e) ∧
    wfile s' (<[b := x]> P) ∅ n' bs (written (t + k)) m ∧ (n' <= S n)%nat ∧ wstep s P bs s' (<[b := x]> P) bs ∧ table_need ip s' = table_need ip s.
Proof.
  intros W Hb Hn Ht Hk Hl x. pose proof W as [W1 W2 W3 W4 W5 W6]. pose proof W3 as [F1 F2 F3]. set (o := (off + t)%nat) in *.
  assert (0 < k ∧ t + k <= length data ∧ o mod 1024 + k <= 1024)%nat as (K1 & K2 & K3) by (unfold write_bytes in Hk; fold o in Hk; ndlia).
  assert (length (take k (drop t data)) = k) as Ek by (rewrite length_take, length_drop; lia).
  assert (b ∈ own s bs) as Hin by (apply elem_of_app; right; by eapply list_elem_of_lookup_2).
  destruct (fc_own _ _ _ _ _ F3 b Hin) as (I1 & I2 & I3). change (Z.to_nat BSIZE) with 1024%nat in I3.
  destruct (held_facts p s D P _ bp b _ (op_cache _ _ _ _ _ _ _ W1) (lookup_singleton_eq _ _)) as (_ & _ & _ & _ & Ed & _).
  destruct (poke_tx p start D s P _ n bp b _ x W1 (lookup_singleton_eq _ _)) as [Hx1 M1]. rewrite insert_singleton_eq in Hx1.
  destruct (log_release p start D Hhl (poke bp x s) P _ n bp b x Hx1 (lookup_singleton_eq _ _) Hn Hl) as (s2 & n2 & E2 & Hx2 & Hn2 & M2).
  rewrite delete_singleton_eq in Hx2. assert (tmoved p s s2) as M by (by eapply tmoved_trans). pose proof (tmoved_inodes p _ _ M) as Ei.
  assert (inode s2 = inode s) as Ein by (unfold inode_at; by rewrite Ei).
  exists s2, n2. split.
  { intros A r e. erewrite bind_Ok; [|unfold upd_buf, modify; reflexivity]. assert (∀ e, (log_write bp;; brelse bp;; r) (poke bp x s) e = r s2 e) as E.
    { intros e'. rewrite <- bind_assoc. by erewrite bind_Ok by apply E2. }
    rewrite <- E. f_equal. unfold poke, set. by rewrite Ed. }
  split; [|split; [done|split]].
  - split; rewrite ?Ein, ?Ei; try done; [by destruct M as [-> _]| |by apply (free_insert start); [done|lia|]]. split.
    + apply (file_rep_ext (vset (view P) b x)); [intros; apply cview_insert|].
      unfold written. rewrite <- splice_more by (done || lia). fold (written t). fold o. apply write_block; try done; [apply F3|rewrite length_written by lia; lia|by rewrite Ek].
    + destruct F2 as [D1 D2 D3 D4 D5 D6 D7]. split; try done.
      change (0 <= Z.of_nat (length (written (t + k))) < 4294967296). change (0 <= Z.of_nat (length (written t)) < 4294967296) in D5.
      rewrite length_written in * by lia. lia.
    + apply (fcore_ext start sb dstart (vset (view P) b x)); [intros; apply cview_insert|]. apply fcore_set; [done|done|done| |].
      * unfold x. rewrite length_splice; [done|]. rewrite Ek, I3. done.
      * unfold x. apply splice_bytes; [by apply F3|]. by apply Forall_take, Forall_drop.
  - split; [by apply tmoved_wmoved| |done|by rewrite Ein|by rewrite Ein|].
    + rewrite Ein. apply (grown_insert start); [done|lia|done].
    + intros y [<-|[_ Hy]]%lookup_insert_is_Some; [|by left]. right. right. right. exists (o / 1024)%nat. split; [|done]. unfold o in *. ndlia.
  - unfold table_need. by rewrite Ein.
Qed.

(** The requests of a round. *)
Definition write_cost : nat := bmap_cost sb + 1.

Lemma writei_round s0 P0 bs0 s n t :
  writing s0 P0 bs0 s n t → (t < length data)%nat → (n + 5 < NBUF)%nat →
  cwp write_cost (writei_loop ip user_src (Z.of_nat (length data)) (at_write t)) s
    (λ r s', r = inl (at_write (t + write_bytes t)) ∧ ∃ n', writing s0 P0 bs0 s' n' (t + write_bytes t) ∧ (n' <= n + 6)%nat) kept.
Proof.
  intros [(P & bs & W & S0) Hs Ht'] Ht Hn. change NBUF with 30%nat in Hn. set (o := (off + t)%nat). set (k := write_bytes t).
  assert (0 < k ∧ t + k <= length data ∧ o mod 1024 + k <= 1024)%nat as (K1 & K2 & K3) by (unfold k, write_bytes; fold o; ndlia).
  assert (Z.of_nat o / BSIZE = Z.of_nat (o / 1024)) as Edv by (change BSIZE with 1024; by rewrite Nat2Z.inj_div).
  assert (Z.of_nat o mod BSIZE = Z.of_nat (o mod 1024)) as Emd by (change BSIZE with 1024; by rewrite Nat2Z.inj_mod).
  unfold writei_loop, at_write. fold o. rewrite (proj2 (Z.leb_gt _ _)) by lia. rewrite Edv, Emd. apply cwp_bind.
  eapply cwp_mono; [apply (bmap_tx p start D sb dstart ip Hhn Hhl Hdl lo hi s P n bs (written t) (o / 1024) total)|done| |done].
  { exact W. } { change NBUF with 30%nat. lia. } { change (Z.to_nat MAXFILE) with 268%nat. unfold o. ndlia. } { unfold o in *. ndlia. }
  { eapply next_block_le; [apply (fs_file _ _ _ _ _ _ _ (wf_state _ _ _ _ _ _ _ _ _ _ _ _ _ W))|done]. }
  { unfold o in *. ndlia. }
  intros b s1 (P1 & n1 & bs1 & W1 & Hn1 & S1 & Hb). pose proof (wf_state _ _ _ _ _ _ _ _ _ _ _ _ _ W1) as [F1 F2 F3].
  pose proof (Forall_lookup_1 _ _ _ _ (fr_bs _ _ _ _ F1) Hb) as Hr. cbv beta in Hr. rewrite (proj2 (Z.eqb_neq _ _)) by lia.
  assert (b ∈ own s1 bs1) as Hin by (apply elem_of_app; right; by eapply list_elem_of_lookup_2).
  destruct (fc_own _ _ _ _ _ F3 b Hin) as (I1 & _). assert (¬ in_log start b) as Hnl.
  { unfold in_log. pose proof (dl_log _ _ _ Hdl). pose proof (dl_size _ _ _ Hdl). lia. }
  eapply cwp_bind_ok; [intros e; reflexivity|]. rewrite (wf_dev _ _ _ _ _ _ _ _ _ _ _ _ _ W1). apply (cwp_bind p 1 0).
  eapply (bread_tx p start D Hhn Hhl); [apply W1|intros a d; by rewrite lookup_empty|rewrite map_size_empty; change NBUF with 30%nat; lia|lia|done|].
  intros bp s2 _ Hx2 M2 Ed. rewrite insert_empty in Hx2.
  pose proof (wfile_framed p start D sb dstart ip s1 s2 P1 ∅ _ n1 bs1 _ _ W1 M2 Hx2) as W2.
  pose proof (wstep_framed p D sb dstart ip lo hi s1 s2 P1 bs1 M2) as S2.
  assert (Z.min (Z.of_nat (length data) - Z.of_nat t) (BSIZE - Z.of_nat (o mod 1024)) = Z.of_nat k) as ->.
  { unfold k, write_bytes. fold o. change BSIZE with 1024. pose proof (Nat.mod_upper_bound o 1024). lia. }
  cbv zeta. eapply cwp_bind_ok.
  { intros e. apply src_copy; [apply (op_cache _ _ _ _ _ _ _ Hx2)| |done]. eapply src_frame; [|exact Hs].
    eapply wmoved_trans; [apply (ws_moved _ _ _ _ _ _ _ _ _ _ _ _ _ S1)|apply (ws_moved _ _ _ _ _ _ _ _ _ _ _ _ _ S2)]. }
  change (0 =? -1) with false. cbv iota beta. rewrite Nat2Z.id.
  destruct (fill_tx s2 P1 n1 bs1 t (table_need ip s1 + (total - length bs1)) b bp k W2 Hb) as (s3 & n3 & E3 & W3 & Hn3 & S3 & Et); [lia|done|done|done|].
  eapply cwp_run; [intros e; apply E3|]. apply cwp_ret.
  assert (wstep s0 P0 bs0 s3 (<[b := splice (view P1 b) (o mod 1024) (take k (drop t data))]> P1) bs1) as Sall.
  { eapply wstep_trans; [done|exact S0|]. eapply wstep_trans; [done|exact S1|]. eapply wstep_trans; [done|exact S2|exact S3]. }
  split.
  - unfold at_write. rewrite u32_small by (unfold o; lia). rewrite Nat.add_assoc, !Nat2Z.inj_add, (Z.add_assoc src).
    unfold u64. rewrite Z.add_mod_idemp_l by lia. unfold o. by rewrite Nat2Z.inj_add.
  - exists n3. split; [|lia]. split; [|eapply src_frame; [|exact Hs]|done].
    + exists (<[b := splice (view P1 b) (o mod 1024) (take k (drop t data))]> P1), bs1. split; [|exact Sall].
      rewrite Et. unfold table_need, inode_at. rewrite (tmoved_inodes p _ _ M2). exact W3.
    + eapply wmoved_trans; [apply (ws_moved _ _ _ _ _ _ _ _ _ _ _ _ _ S1)|].
      eapply wmoved_trans; [apply (ws_moved _ _ _ _ _ _ _ _ _ _ _ _ _ S2)|apply (ws_moved _ _ _ _ _ _ _ _ _ _ _ _ _ S3)].
Qed.

(** The rounds that are left after [t] bytes. *)
Notation rounds t := (span (off + t) (length data - t)).

Lemma writei_loop_ok fuel s0 P0 bs0 s n t :
  writing s0 P0 bs0 s n t → (length data - t < fuel)%nat → (n + 6 * rounds t <= NBUF)%nat →
  cwp (write_cost * rounds t) (loop fuel (writei_loop ip user_src (Z.of_nat (length data))) (at_write t)) s
    (λ r s', r = (Z.of_nat (length data), Z.of_nat (off + length data)) ∧
       ∃ n', writing s0 P0 bs0 s' n' (length data) ∧ (n' <= n + 6 * rounds t)%nat) kept.
Proof.
  revert s n t. induction fuel as [|fuel IH]; intros s n t Hw Hf Hn; [lia|]. cbn [loop].
  destruct (decide (t = length data)) as [->|Hne].
  - eapply cwp_bind_ok.
    { intros e. unfold writei_loop, at_write. rewrite (proj2 (Z.leb_le _ _)) by lia. reflexivity. }
    apply cwp_return. split; [done|]. exists n. split; [done|lia].
  - pose proof (wt_t _ _ _ _ _ _ Hw). pose proof (span_next off (length data) t ltac:(lia)) as Hsp. cbv zeta in Hsp. fold (write_bytes t) in Hsp.
    set (k := write_bytes t) in *. assert (0 < k ∧ t + k <= length data)%nat by (unfold k, write_bytes; ndlia).
    set (r := rounds (t + k)) in *. set (r0 := rounds t) in *.
    eapply (cwp_mono p (write_cost + write_cost * r) _ _ _ _ _ kept); [|nia|intros a b X; exact X|done].
    apply cwp_bind. eapply cwp_mono; [apply (writei_round s0 P0 bs0 s n t)|done| |done].
    + exact Hw.
    + lia.
    + lia.
    + intros a s1 (-> & n1 & Hw1 & Hn1). cbv iota beta. fold k in Hw1 |- *.
      eapply cwp_mono; [apply (IH s1 n1 (t + k)%nat); [exact Hw1|lia|fold r; lia]|done| |done].
      intros a s2 (-> & n2 & Hw2 & Hn2). split; [done|]. exists n2. split; [done|]. fold r in Hn2. lia.
Qed.

(** *** The inode *)

Lemma iupdate_tx s P n :
  in_tx s P ∅ n → k_sb s = sb → i_dev (inode s) = ROOTDEV → inum_ok sb (i_inum (inode s)) → (n < 30)%nat →
  let ib := IBLOCK (i_inum (inode s)) sb in
  cwp 1 (iupdate ip) s (λ _ s', ∃ n', in_tx s' (<[ib := put_dinode (view P ib) (i_inum (inode s)) (dinode_of (inode s))]> P) ∅ n' ∧
    (n' <= S n)%nat ∧ tmoved p s s') kept.
Proof.
  intros Hx Hsb Hdev Hn Hlt ib. pose proof (dl_inode _ _ _ Hdl _ Hn) as Hib. fold ib in Hib. pose proof (dl_size _ _ _ Hdl) as (L1 & L2 & L3).
  pose proof (dl_log _ _ _ Hdl). pose proof (dl_start _ _ _ Hdl). unfold LOGBLOCKS, MAXOPBLOCKS in *. assert (¬ in_log start ib) as Hnl by (unfold in_log, LOGBLOCKS, MAXOPBLOCKS; lia).
  unfold iupdate. eapply cwp_bind_ok; [intros e; reflexivity|]. eapply cwp_bind_ok; [intros e; reflexivity|]. rewrite Hsb, Hdev. fold ib.
  apply (cwp_bind p 1 0). eapply (bread_tx p start D Hhn Hhl); [exact Hx|intros a d; by rewrite lookup_empty|rewrite map_size_empty; change NBUF with 30%nat; lia|lia|done|].
  intros bp s1 _ Hx1 M1 Ed. rewrite insert_empty in Hx1. set (x := put_dinode (view P ib) (i_inum (inode s)) (dinode_of (inode s))).
  destruct (poke_tx p start D s1 P _ n bp ib _ x Hx1 (lookup_singleton_eq _ _)) as [Hx2 M2]. rewrite insert_singleton_eq in Hx2.
  destruct (log_release p start D Hhl (poke bp x s1) P _ n bp ib x Hx2 (lookup_singleton_eq _ _) Hlt Hnl) as (s3 & n3 & E3 & Hx3 & Hn3 & M3).
  rewrite delete_singleton_eq in Hx3. eapply cwp_ok.
  - intros e. erewrite bind_Ok; [exact (E3 e)|]. unfold upd_buf, modify, poke, set. by rewrite Ed.
  - exists n3. split; [done|]. split; [done|]. eapply tmoved_trans; [done|by eapply tmoved_trans].
Qed.

(** The size of the inode, after the loop. *)
Lemma set_size_ok s n :
  (ip < length (k_inodes s))%nat →
  ∃ s', (∀ A (r : K A) e, (i ← get_inode ip; when (i_size i <? n) (upd_inode ip (λ i, i <| i_size := n |>));; r) s e = r s' e) ∧ wmoved s s' ∧
    dinode_of (inode s') = (dinode_of (inode s)) <| di_size := Z.max (i_size (inode s)) n |> ∧ k_sb s' = k_sb s ∧
    ∀ P H n, in_tx s P H n → in_tx s' P H n.
Proof.
  intros Hip. destruct (Z.ltb_spec (i_size (inode s)) n) as [Hlt|Hge].
  - set (y := (inode s) <| i_size := n |>). exists (s <| k_inodes := <[ip := y]> (k_inodes s) |>).
    assert (inode (s <| k_inodes := <[ip := y]> (k_inodes s) |>) = y) as Ey by (unfold inode_at; simpl; by rewrite list_lookup_total_insert_eq).
    split. { intros A r e. erewrite bind_Ok by reflexivity. by rewrite (proj2 (Z.ltb_lt _ _) Hlt). }
    rewrite Ey. split_and!; try done.
    + split; [reflexivity|done|simpl; by rewrite length_insert| |rewrite Ey; unfold y; by destruct (inode s)].
      intros j N. unfold inode_at. simpl. by rewrite list_lookup_total_insert_ne.
    + unfold y, set, dinode_of. cbn. by rewrite Z.max_r by lia.
    + intros P H k. apply in_tx_inodes.
  - exists s. split. { intros A r e. erewrite bind_Ok by reflexivity. by rewrite (proj2 (Z.ltb_ge _ _) Hge). }
    split; [apply wmoved_refl|]. split; [|done]. rewrite Z.max_l by lia. by destruct (inode s).
Qed.

(** *** [writei] *)

(** The file after the call, on the blocks and in the table. *)
Record wrote (s : kstate) (P : blocks) (bs : list Z) (s' : kstate) (P' : blocks) (bs' : list Z) : Prop := {
  wr_moved : wmoved s s';
  wr_file : fstate start sb dstart (view P') (dinode_of (inode s')) bs' (splice c off data);
  wr_disk : ∀ i, inum_ok sb i → disk_inode sb (view P') i = if decide (i = i_inum (inode s)) then dinode_of (inode s') else disk_inode sb (view P) i;
  wr_len : ∀ i, inum_ok sb i → length (view P' (IBLOCK i sb)) = Z.to_nat BSIZE;
  wr_used : ∀ b, 0 <= b < sb_size sb → used sb (view P) b = true → used sb (view P') b = true;
  wr_alloc : ∀ b, 0 <= b < sb_size sb → used sb (view P') b = true → used sb (view P) b = true ∨ b ∈ own s' bs';
  wr_same : ∀ b, dstart <= b < sb_size sb → b ∉ own s' bs' → view P' b = view P b;
  wr_own : ∀ b, b ∈ own s' bs' → b ∈ own s bs ∨ (dstart <= b < sb_size sb ∧ used sb (view P) b = false);
  wr_incl : own s bs ⊆ own s' bs';
  wr_logged : ∀ b, is_Some (P' !! b) → is_Some (P !! b) ∨ b = IBLOCK (i_inum (inode s)) sb ∨ loggable sb dstart ip lo hi s' bs' b;
}.
Lemma iblock_kept P s bs P' s' bs' i :
  wstep s P bs s' P' bs' → fcore start sb dstart (view P') (own s' bs') → inum_ok sb i → view P' (IBLOCK i sb) = view P (IBLOCK i sb).
Proof.
  intros S F Hi. pose proof (dl_inode _ _ _ Hdl i Hi) as Hib. pose proof (dl_size _ _ _ Hdl) as (L1 & L2 & L3).
  apply (gw_same _ _ _ _ _ _ (ws_grown _ _ _ _ _ _ _ _ _ _ _ _ _ S)); [|lia]. intros Hin. destruct (fc_own _ _ _ _ _ F _ Hin) as (Hr & _). lia.
Qed.

Lemma wrote_intro s P bs s1 P1 n1 bs1 m s2 s3 :
  (∀ i, inum_ok sb i → length (view P (IBLOCK i sb)) = Z.to_nat BSIZE) → inum_ok sb (i_inum (inode s)) →
  wfile s1 P1 ∅ n1 bs1 (splice c off data) m → wstep s P bs s1 P1 bs1 → wmoved s1 s2 →
  dinode_of (inode s2) = sized (dinode_of (inode s1)) (splice c off data) → tmoved p s2 s3 →
  let ib := IBLOCK (i_inum (inode s)) sb in
  wrote s P bs s3 (<[ib := put_dinode (view P1 ib) (i_inum (inode s)) (dinode_of (inode s2))]> P1) bs1.
Proof.
  intros Hlen Hin [W1 W2 W3 W4 W5 W6] S M2 Ed M3 ib. pose proof W3 as [F1 F2 F3].
  assert (inode s3 = inode s2) as E3 by (unfold inode_at; by rewrite (tmoved_inodes _ _ _ M3)).
  assert (own s3 bs1 = own s1 bs1) as Eo by (rewrite E3, Ed; done).
  assert (∀ i, inum_ok sb i → view P1 (IBLOCK i sb) = view P (IBLOCK i sb)) as Eib by (intros i Hi; by eapply iblock_kept).
  pose proof (dl_inode _ _ _ Hdl _ Hin) as Hib. fold ib in Hib. pose proof (dl_size _ _ _ Hdl) as (L1 & L2 & L3).
  assert (dinode_ok (dinode_of (inode s2))) as Hd by (by rewrite Ed). destruct S as [S1 S2 S3 S4 S5 S6].
  set (x := put_dinode (view P1 ib) (i_inum (inode s)) (dinode_of (inode s2))).
  assert (∀ n, n ≠ ib → view (<[ib := x]> P1) n = view P1 n) as Ev by (intros n N; rewrite cview_insert; unfold vset; by rewrite decide_False).
  assert (bytes_ok x) as Hx.
  { apply splice_bytes; [|apply dinode_bytes_ok]. apply (fc_bytes _ _ _ _ _ F3). unfold in_log. pose proof (dl_log _ _ _ Hdl). lia. }
  assert (∀ b, 0 <= b < sb_size sb → BBLOCK b sb ≠ ib) as Hbb.
  { intros b Hb. destruct (dl_bmap _ _ _ Hdl b Hb) as [E1 _]. rewrite E1. change BPB with 8192. pose proof (Z.div_pos b 8192). lia. }
  split.
  - eapply wmoved_trans; [done|]. eapply wmoved_trans; [done|by apply tmoved_wmoved].
  - rewrite E3, Ed. apply (fstate_ext start sb dstart (vset (view P1) ib x)); [intros; apply cview_insert|]. by apply fstate_iblock.
  - intros i Hi. rewrite E3. unfold disk_inode at 1. rewrite cview_insert. fold (disk_inode sb (vset (view P1) ib x) i).
    unfold x, ib. rewrite (disk_inode_put start sb dstart Hdl) by (try done; intros j Hj; rewrite Eib by done; by apply Hlen).
    case_decide; [done|]. unfold disk_inode. by rewrite Eib.
  - intros i Hi. rewrite cview_insert. unfold vset. case_decide; [|rewrite Eib by done; by apply Hlen].
    unfold x. apply length_put_dinode; [|done]. unfold ib. rewrite Eib by done. by apply Hlen.
  - intros b Hb Hu. unfold used. rewrite Ev by (by apply Hbb). by apply (gw_used _ _ _ _ _ _ S2).
  - intros b Hb. unfold used. rewrite Ev by (by apply Hbb). rewrite Eo. by apply (gw_alloc _ _ _ _ _ _ S2).
  - intros b Hb Hno. rewrite Ev by lia. rewrite Eo in Hno. apply (gw_same _ _ _ _ _ _ S2); [done|lia].
  - intros b. rewrite Eo. apply (gw_own _ _ _ _ _ _ S2).
  - rewrite Eo. apply (gw_incl _ _ _ _ _ _ S2).
  - intros b [<-|[_ Hb]]%lookup_insert_is_Some; [right; by left|]. destruct (S6 b Hb) as [?|Hl]; [by left|right; right].
    unfold loggable in *. by rewrite E3, Ed.
Qed.
Lemma writei_ok s P n bs :
  in_tx s P ∅ n → k_sb s = sb → fstate start sb dstart (view P) (dinode_of (inode s)) bs c → i_dev (inode s) = ROOTDEV →
  (ip < length (k_inodes s))%nat → inum_ok sb (i_inum (inode s)) → (∀ i, inum_ok sb i → length (view P (IBLOCK i sb)) = Z.to_nat BSIZE) →
  has_free sb dstart (view P) (table_need ip s + (total - length bs)) → src_ok s → 0 <= src < 18446744073709551616 →
  (n + 6 * span off (length data) < NBUF)%nat →
  cwp (write_cost * span off (length data) + 1) (writei ip user_src src (Z.of_nat off) (Z.of_nat (length data))) s
    (λ r s', r = Z.of_nat (length data) ∧ ∃ P' n' bs', in_tx s' P' ∅ n' ∧ (n' <= n + 6 * span off (length data) + 1)%nat ∧ wrote s P bs s' P' bs' ∧
       has_free sb dstart (view P') (table_need ip s' + (total - length bs'))) kept.
Proof.
  intros Hx Hsb Hst Hdev Hip Hin Hlen Hfree Hs Hsrc Hn. pose proof Hst as [F1 F2 F3]. unfold writei.
  assert (i_size (inode s) = Z.of_nat (length c)) as Hsz by exact (fr_size _ _ _ _ F1). change NBUF with 30%nat in Hn.
  eapply cwp_bind_ok; [intros e; reflexivity|]. rewrite Hsz, u32_small by lia.
  rewrite (proj2 (Z.ltb_ge (Z.of_nat (length c)) _)) by lia. rewrite (proj2 (Z.ltb_ge (Z.of_nat off + _) _)) by lia.
  change (MAXFILE * BSIZE) with (268 * 1024). rewrite (proj2 (Z.ltb_ge (268 * 1024) _)) by lia. cbv beta iota. cbn [orb].
  apply cwp_bind. pose proof (writei_loop_ok (S (length data)) s P bs s n 0) as Hl. unfold at_write in Hl.
  rewrite !Nat.add_0_r, Nat.sub_0_r, Z.add_0_r, (u64_small src Hsrc) in Hl. rewrite Nat2Z.id.
  eapply cwp_mono; [apply Hl|done| |done].
  { split; [|done|lia]. exists P, bs. split; [|apply wstep_refl]. split; try done.
    unfold written. rewrite take_0. rewrite splice_nil. by rewrite sized_same. }
  { lia. } { change NBUF with 30%nat. lia. }
  intros r s1 (-> & n1 & [(P1 & bs1 & W & S) _ _] & Hn1). unfold written in W. rewrite firstn_all in W. cbv beta iota.
  destruct (set_size_ok s1 (Z.of_nat (off + length data)) (wf_ip _ _ _ _ _ _ _ _ _ _ _ _ _ W)) as (s2 & E2 & M2 & Ed & Esb & Htx).
  eapply cwp_run; [intros e; apply E2|]. pose proof (wm_self _ _ _ _ M2) as Es2. pose proof (wm_self _ _ _ _ (ws_moved _ _ _ _ _ _ _ _ _ _ _ _ _ S)) as Es1.
  assert (i_inum (inode s2) = i_inum (inode s) ∧ i_dev (inode s2) = i_dev (inode s)) as [En Ev] by (by rewrite Es2, Es1).
  assert (dinode_of (inode s2) = sized (dinode_of (inode s1)) (splice c off data)) as Ed'.
  { rewrite Ed, (ws_size _ _ _ _ _ _ _ _ _ _ _ _ _ S), Hsz. unfold sized. rewrite length_splice_ext by done.
    by replace (Z.max (Z.of_nat (length c)) (Z.of_nat (off + length data))) with (Z.of_nat (Nat.max (length c) (off + length data))) by lia. }
  rewrite <- (Nat.add_0_r 1). apply cwp_bind. eapply cwp_mono; [apply (iupdate_tx s2 P1 n1)|done| |done].
  { apply Htx, W. } { by rewrite Esb, (wf_sb _ _ _ _ _ _ _ _ _ _ _ _ _ W). } { by rewrite Ev. } { by rewrite En. } { lia. }
  rewrite En. intros _ s3 (n3 & Hx3 & Hn3 & M3). apply cwp_ret. split; [apply i32_small; lia|].
  eexists _, n3, bs1. split; [exact Hx3|]. split; [lia|]. split; [by eapply wrote_intro|].
  apply (free_iblock start); [done|done|].
  assert (table_need ip s3 = table_need ip s1) as ->; [|exact (wf_free _ _ _ _ _ _ _ _ _ _ _ _ _ W)].
  unfold table_need, inode_at. rewrite (tmoved_inodes _ _ _ M3). fold (inode s2) (inode s1). by rewrite Ed'.
Qed.
End write.
