(* ===== verification/FsFiles.v ===== *)
(** The files on a disk, and what a write does to them. *)

From S2P Require Export FsWrite.

(** ** Decoded inodes *)

Lemma get32_range data o : bytes_ok data → 0 <= get32 data o < 4294967296.
Proof.
  intros H. unfold get32. pose proof (le_val_range (take 4 (drop o data)) ltac:(by apply Forall_take, Forall_drop)) as Hr.
  rewrite length_take in Hr. assert (256 ^ Z.of_nat (4 `min` length (drop o data)) <= 256 ^ 4) by (apply Z.pow_le_mono_r; lia).
  change (256 ^ 4) with 4294967296 in *. lia.
Qed.

Lemma get_words_ok data o n : bytes_ok data → length (get_words data o n) = n ∧ Forall (λ w, 0 <= w < 4294967296) (get_words data o n).
Proof.
  intros H. revert o. induction n as [|n IH]; intros o; cbn [get_words length]; [done|]. destruct (IH (4 + o)%nat) as [E F].
  split; [by rewrite E|]. constructor; [by apply get32_range|done].
Qed.

Lemma get_dinode_ok data inum : bytes_ok data → dinode_ok (get_dinode data inum).
Proof.
  intros H. destruct (get_words_ok data (12 + dinode_off inum) (S NDIRECT) H) as [E F].
  split; cbn [get_dinode di_type di_major di_minor di_nlink di_size di_addrs]; [unfold i16; zlia..|by apply get32_range|done|done].
Qed.

(** The bytes of a field of 2 and of 4 bytes. *)
Lemma field16 data o : bytes_ok data → (o + 2 <= length data)%nat → le_bytes 2 (i16 (get16 data o)) = take 2 (drop o data).
Proof.
  intros H Hl. assert (bytes_ok (take 2 (drop o data))) as Hb by (by apply Forall_take, Forall_drop).
  assert (length (take 2 (drop o data)) = 2%nat) as E by (rewrite length_take, length_drop; lia).
  pose proof (le_val_range _ Hb) as Hr. pose proof (le_bytes_val _ Hb) as Hv. rewrite E in Hv, Hr. change (256 ^ Z.of_nat 2) with 65536 in Hr.
  rewrite <- Hv at 1. unfold get16. set (x := le_val (take 2 (drop o data))) in *. cbn [le_bytes].
  assert (i16 x mod 256 = x mod 256 ∧ i16 x / 256 mod 256 = x / 256 mod 256) as [-> ->]; [|done]. unfold i16. split; zlia.
Qed.

Lemma field32 data o : bytes_ok data → (o + 4 <= length data)%nat → le_bytes 4 (get32 data o) = take 4 (drop o data).
Proof.
  intros H Hl. assert (bytes_ok (take 4 (drop o data))) as Hb by (by apply Forall_take, Forall_drop).
  assert (length (take 4 (drop o data)) = 4%nat) as E by (rewrite length_take, length_drop; lia).
  pose proof (le_bytes_val _ Hb) as Hv. by rewrite E in Hv.
Qed.

Lemma take_next {A} (data : list A) o n k : take n (drop o data) ++ take k (drop (n + o) data) = take (n + k) (drop o data).
Proof. rewrite Nat.add_comm, <- drop_drop. apply take_take_drop. Qed.

Lemma words_back data o n : bytes_ok data → (o + 4 * n <= length data)%nat → words_bytes (get_words data o n) = take (4 * n) (drop o data).
Proof.
  intros H. revert o. induction n as [|n IH]; intros o Hl; [done|]. cbn [get_words words_bytes]. rewrite field32, IH by (done || lia).
  rewrite take_next. f_equal. lia.
Qed.

Lemma dinode_back data inum : bytes_ok data → length data = Z.to_nat BSIZE → dinode_bytes (get_dinode data inum) = take 64 (drop (dinode_off inum) data).
Proof.
  intros H Hl. pose proof (dinode_off_range inum) as Ho. change (Z.to_nat BSIZE) with 1024%nat in Hl. set (o := dinode_off inum) in *.
  unfold dinode_bytes, get_dinode. cbn [di_type di_major di_minor di_nlink di_size di_addrs]. fold o.
  rewrite !field16, field32, words_back by (done || (unfold NDIRECT; lia)).
  change (12 + o)%nat with (4 + (8 + o))%nat. rewrite take_next. change (8 + o)%nat with (2 + (6 + o))%nat. rewrite take_next.
  change (6 + o)%nat with (2 + (4 + o))%nat. rewrite take_next. change (4 + o)%nat with (2 + (2 + o))%nat. by rewrite !take_next.
Qed.


Definition typed_block : list Z := (λ i, Z.of_nat i mod 256) <$> seq 0 (Z.to_nat BSIZE).


(** ** The files of a disk *)

Section files.
Context (start : Z) (sb : superblock) (dstart : Z) (Hdl : disk_layout start sb dstart).

Notation dino v i := (disk_inode sb v i).

(** Inode [i] is a file with the blocks [bs] and the contents [c]. *)
Record file_of (v : Z → list Z) (i : Z) (bs c : list Z) : Prop := {
  fo_inum : inum_ok sb i;
  fo_type : di_type (dino v i) ≠ 0;
  fo_rep : file_rep v (dino v i) bs c;
  fo_nodup : NoDup (owned (dino v i) bs);
  fo_own : ∀ b, b ∈ owned (dino v i) bs → data_block sb dstart v b;
}.

(** The disk is consistent and its files are [F]: every inode in use has the
    contents that [F] says, no block belongs to two files or twice to one, and
    the bitmap marks exactly the blocks that belong to a file and those before
    the data region. *)
Record fs_files (v : Z → list Z) (F : gmap Z (list Z)) (B : Z → list Z) : Prop := {
  ff_bitmap : bitmap_ok sb dstart v;
  ff_bytes : ∀ b, ¬ in_log start b → bytes_ok (v b);
  ff_len : ∀ i, inum_ok sb i → length (v (IBLOCK i sb)) = Z.to_nat BSIZE;
  ff_file : ∀ i c, F !! i = Some c → file_of v i (B i) c;
  ff_all : ∀ i, inum_ok sb i → di_type (dino v i) ≠ 0 → is_Some (F !! i);
  ff_disjoint : ∀ i j b, is_Some (F !! i) → is_Some (F !! j) → b ∈ owned (dino v i) (B i) → b ∈ owned (dino v j) (B j) → i = j;
  ff_used : ∀ b, dstart <= b < sb_size sb → used sb v b = true → ∃ i, is_Some (F !! i) ∧ b ∈ owned (dino v i) (B i);
}.

Definition fs_holds (v : Z → list Z) (F : gmap Z (list Z)) : Prop := ∃ B, fs_files v F B.

(** The blocks that matter are outside the log. *)
Lemma bblock_out b : 0 <= b < sb_size sb → ¬ in_log start (BBLOCK b sb).
Proof.
  intros Hb. destruct (dl_bmap _ _ _ Hdl b Hb) as [E _]. pose proof (dl_log _ _ _ Hdl). pose proof (dl_size _ _ _ Hdl). unfold in_log. rewrite E.
  change BPB with 8192. pose proof (Z.div_pos b 8192). lia.
Qed.
Lemma iblock_out i : inum_ok sb i → ¬ in_log start (IBLOCK i sb).
Proof. intros Hi. pose proof (dl_inode _ _ _ Hdl i Hi). pose proof (dl_log _ _ _ Hdl). unfold in_log. lia. Qed.
Lemma data_out b : dstart <= b → ¬ in_log start b.
Proof. intros Hb. pose proof (dl_log _ _ _ Hdl). pose proof (dl_size _ _ _ Hdl). unfold in_log. lia. Qed.

Section ext.
Context (v v' : Z → list Z) (E : same_fs start v' v).

Lemma used_ext b : 0 <= b < sb_size sb → used sb v' b = used sb v b.
Proof. intros Hb. unfold used. by rewrite E by (by apply bblock_out). Qed.
Lemma dino_ext i : inum_ok sb i → dino v' i = dino v i.
Proof. intros Hi. unfold disk_inode. by rewrite E by (by apply iblock_out). Qed.

Lemma free_ext k : has_free sb dstart v k → has_free sb dstart v' k.
Proof.
  intros (l & H1 & H2 & H3). exists l. split; [done|]. split; [done|]. eapply Forall_impl; [exact H3|]. intros b [Hr Hu]. split; [done|].
  pose proof (dl_size _ _ _ Hdl). by rewrite used_ext by lia.
Qed.

Lemma file_of_ext i bs c : file_of v i bs c → file_of v' i bs c.
Proof.
  intros [H1 H2 H3 H4 H5]. pose proof (dl_size _ _ _ Hdl). split; rewrite ?dino_ext by done; try done.
  - apply (file_rep_ext v); [|done]. intros b Hb. destruct (H5 b Hb) as (Hr & _). apply E, data_out. lia.
  - intros b Hb. destruct (H5 b Hb) as (Hr & Hu & Hl). split; [done|]. rewrite used_ext by lia. split; [done|]. by rewrite E by (apply data_out; lia).
Qed.

Lemma fs_files_ext F B : fs_files v F B → fs_files v' F B.
Proof.
  intros [[H1 H1'] H2 H3 H4 H5 H6 H7]. pose proof (dl_size _ _ _ Hdl).
  assert (∀ i, is_Some (F !! i) → inum_ok sb i) as Hi by (intros i [c Hc]; apply (fo_inum _ _ _ _ (H4 i c Hc))). split.
  - split; [intros b Hb; rewrite E by (by apply bblock_out); by apply H1|]. intros b Hb. rewrite used_ext by lia. by apply H1'.
  - intros b Hb. rewrite E by done. by apply H2.
  - intros i Hn. rewrite E by (by apply iblock_out). by apply H3.
  - intros i c Hc. by apply file_of_ext, H4.
  - intros i Hn. rewrite dino_ext by done. by apply H5.
  - intros i j b I J. rewrite !dino_ext by (by apply Hi). by apply H6.
  - intros b Hb. rewrite used_ext by lia. intros Hu. destruct (H7 b Hb Hu) as (i & I & Hin). exists i. split; [done|]. by rewrite dino_ext by (by apply Hi).
Qed.

Lemma fs_holds_ext F : fs_holds v F → fs_holds v' F.
Proof. intros [B H]. exists B. by apply fs_files_ext. Qed.
End ext.
(** *** After a write *)

Section wrote.
Context (p : nat) (D : blocks) (ip : nat) (data c : list Z) (off : nat).
Context (s : kstate) (P : blocks) (bs : list Z) (s' : kstate) (P' : blocks) (bs' : list Z).
Context (F : gmap Z (list Z)) (B : Z → list Z).

Notation v := (cview D P).
Notation v' := (cview D P').
Notation inum := (i_inum (inode_at s ip)).
Notation own_new := (owned (dinode_of (inode_at s' ip)) bs').

Context (HF : fs_files v F B) (Hc : F !! inum = Some c) (Hd : dinode_of (inode_at s ip) = dino v inum) (Hbs : bs = B inum).
Context (W : wrote p start D sb dstart ip data c off s P bs s' P' bs').

Definition blocks_now (i : Z) : list Z := if decide (i = inum) then bs' else B i.

Lemma other_block i b : is_Some (F !! i) → i ≠ inum → b ∈ owned (dino v i) (B i) → b ∉ own_new ∧ v' b = v b.
Proof.
  intros Hi N Hb. pose proof HF as [H1 H2 H3 H4 H5 H6 H7]. destruct Hi as [ci Hi]. destruct (fo_own _ _ _ _ (H4 i ci Hi) b Hb) as (Hr & Hu & Hl).
  assert (b ∉ own_new) as Hno; [|split; [done|by apply (wr_same _ _ _ _ _ _ _ _ _ _ _ _ _ _ _ W)]].
  intros Hin. destruct (wr_own _ _ _ _ _ _ _ _ _ _ _ _ _ _ _ W b Hin) as [Ho|[_ Hu']]; [|congruence].
  apply N. eapply H6; [by exists ci|by exists c|done|]. by rewrite Hd, Hbs in Ho.
Qed.

Lemma fs_files_wrote : fs_files v' (<[inum := splice c off data]> F) blocks_now.
Proof.
  pose proof HF as [H1 H2 H3 H4 H5 H6 H7]. pose proof W as [M [W1 W2 [W3 W4 W5 W6]] Wd Wl Wu Wa Ws Wo Wi _]. pose proof (dl_size _ _ _ Hdl) as (L1 & L2 & L3).
  pose proof (fo_inum _ _ _ _ (H4 _ _ Hc)) as Hin.
  assert (dino v' inum = dinode_of (inode_at s' ip)) as Ei by (rewrite Wd by done; by rewrite decide_True).
  assert (∀ i, inum_ok sb i → i ≠ inum → dino v' i = dino v i) as Eo by (intros i Hi N; rewrite Wd by done; by rewrite decide_False).
  assert (∀ i, is_Some (F !! i) → inum_ok sb i) as Hok by (intros i [ci Hi]; apply (fo_inum _ _ _ _ (H4 i ci Hi))).
  assert (∀ i, is_Some (F !! i) → owned (dino v' i) (blocks_now i) = if decide (i = inum) then own_new else owned (dino v i) (B i)) as Eown.
  { intros i Hi. unfold blocks_now. case_decide as E; [by rewrite E, Ei|]. by rewrite Eo by (done || by apply Hok). }
  assert (∀ i, is_Some (<[inum := splice c off data]> F !! i) → is_Some (F !! i)) as Hsome.
  { intros i [<-|[_ Hi]]%lookup_insert_is_Some; [by exists c|done]. }
  split; [done|done|done| | | |].
  - intros i ci Hi. destruct (decide (i = inum)) as [->|N].
    + rewrite lookup_insert_eq in Hi. injection Hi as <-. assert (blocks_now inum = bs') as -> by (unfold blocks_now; by rewrite decide_True).
      split; rewrite ?Ei; try done. change (i_type (inode_at s' ip) ≠ 0). rewrite (wm_self _ _ _ _ M).
      change (di_type (dinode_of (inode_at s ip)) ≠ 0). rewrite Hd. apply (H4 _ _ Hc).
    + rewrite lookup_insert_ne in Hi by done. assert (blocks_now i = B i) as -> by (unfold blocks_now; by rewrite decide_False).
      destruct (H4 i ci Hi) as [O1 O2 O3 O4 O5]. split; rewrite ?Eo by done; try done.
      * apply (file_rep_ext v); [|done]. intros b Hb. by eapply other_block; [by exists ci|..].
      * intros b Hb. destruct (O5 b Hb) as (Hr & Hu & Hl). destruct (other_block i b ltac:(by exists ci) N Hb) as [_ Eb].
        split; [done|]. rewrite Eb. split; [|done]. apply Wu; [lia|done].
  - intros i Hi Ht. destruct (decide (i = inum)) as [->|N]; [rewrite lookup_insert_eq; by eexists|]. rewrite lookup_insert_ne by done.
    apply H5; [done|]. by rewrite <- Eo.
  - intros i j b Ii%Hsome Ij%Hsome. rewrite !Eown by done. destruct (decide (i = inum)) as [->|Ni], (decide (j = inum)) as [->|Nj]; intros Hb Hb'; try done.
    + exfalso. by apply (other_block j b Ij Nj Hb').
    + exfalso. by apply (other_block i b Ii Ni Hb).
    + by eapply H6.
  - intros b Hb Hu. assert (b ∈ own_new → ∃ i, is_Some (<[inum := splice c off data]> F !! i) ∧ b ∈ owned (dino v' i) (blocks_now i)) as Hnew.
    { intros Hn. exists inum. split; [rewrite lookup_insert_eq; by eexists|]. rewrite Eown by (by exists c). by rewrite decide_True. }
    destruct (Wa b ltac:(lia) Hu) as [Hu'|Hn]; [|by apply Hnew]. destruct (H7 b Hb Hu') as (i & Hi & Hbi).
    destruct (decide (i = inum)) as [->|N]; [apply Hnew, Wi; by rewrite Hd, Hbs|]. exists i. split; [by rewrite lookup_insert_ne|].
    rewrite Eown by done. by rewrite decide_False.
Qed.
End wrote.
End files.
