(* ===== verification/DirSpec.v ===== *)
(** Path names and directories: what [skipelem] of Fs.v takes from a path, against
    the list of the path's elements; [dirlookup], [namex] and [namei] find the inode
    that a path names, through the buffer cache. *)

From S2P Require Export InodeSpec DiskFormat.

(** ** The elements of a path *)

(** The pieces between slashes. *)
Fixpoint split_slash (path : list Z) : list (list Z) :=
  match path with
  | [] => [[]]
  | c :: path' =>
      if c =? 47 then [] :: split_slash path'
      else match split_slash path' with w :: ws => (c :: w) :: ws | [] => [[c]] end
  end.

(** Empty pieces do not count, and an element has at most [DIRSIZ] characters. *)
Definition words (path : list Z) : list (list Z) := filter (λ w, w ≠ []) (split_slash path).
Definition path_elems (path : list Z) : list (list Z) := take 14 <$> words (cstr path).

Lemma split_slash_word w q :
  Forall (λ c, c ≠ 47) w → q = [] ∨ char_at q = 47 →
  split_slash (w ++ q) = w :: tl (split_slash q).
Proof.
  intros Hw Hq. induction Hw as [|c w Hc Hw IH]; simpl.
  - destruct Hq as [->|Hq]; [done|]. destruct q as [|c q]; [done|]. cbn in Hq. by rewrite Hq.
  - by rewrite (proj2 (Z.eqb_neq _ _) Hc), IH.
Qed.

Lemma words_word w q :
  Forall (λ c, c ≠ 47) w → w ≠ [] → q = [] ∨ char_at q = 47 → words (w ++ q) = w :: words q.
Proof.
  intros Hw Hn Hq. unfold words. rewrite split_slash_word by done. rewrite filter_cons_True by done. f_equal.
  destruct Hq as [->|Hq]; [done|]. destruct q as [|c q]; [done|]. cbn in Hq. subst c. cbn [split_slash Z.eqb Pos.eqb tl].
  by rewrite filter_cons_False by (intros []; done).
Qed.

Lemma words_slash path : words (47 :: path) = words path.
Proof. unfold words. cbn [split_slash Z.eqb Pos.eqb]. by rewrite filter_cons_False by (intros []; done). Qed.

(** ** What [skipelem] takes *)

Lemma skip_slashes_words path : words (cstr (skip_slashes path)) = words (cstr path).
Proof.
  induction path as [|c path IH]; [done|]. cbn [skip_slashes]. destruct (Z.eqb_spec c 47) as [->|]; [|done].
  rewrite IH. cbn [cstr Z.eqb]. by rewrite words_slash.
Qed.

Lemma skip_slashes_length path : (length (skip_slashes path) <= length path)%nat.
Proof. induction path as [|c path IH]; [done|]. cbn [skip_slashes]. destruct (c =? 47); cbn [length] in *; lia. Qed.

Lemma skip_slashes_head path : char_at (skip_slashes path) ≠ 47.
Proof. induction path as [|c path IH]; [done|]. cbn [skip_slashes]. by destruct (Z.eqb_spec c 47). Qed.

Lemma span_elem_spec path w r :
  span_elem path = (w, r) →
  path = w ++ r ∧ Forall (λ c, c ≠ 47 ∧ c ≠ 0) w ∧ (char_at r = 0 ∨ char_at r = 47).
Proof.
  revert w r. induction path as [|c path IH]; intros w r H; cbn [span_elem] in H.
  - injection H as <- <-. auto.
  - destruct (Z.eqb_spec c 47) as [->|N1]; [injection H as <- <-; auto|].
    destruct (Z.eqb_spec c 0) as [->|N2]; [injection H as <- <-; auto|]. cbn in H.
    destruct (span_elem path) as [w' r']. injection H as <- <-. destruct (IH _ _ eq_refl) as (-> & Hf & Hr). auto.
Qed.

Lemma cstr_app_nonzero w r : Forall (λ c, c ≠ 0) w → cstr (w ++ r) = w ++ cstr r.
Proof. induction 1 as [|c w Hc Hw IH]; [done|]. cbn. by rewrite (proj2 (Z.eqb_neq _ _) Hc), IH. Qed.

Lemma cstr_of_nonzero w : Forall (λ c, c ≠ 0) w → cstr w = w.
Proof. intros H. rewrite <- (app_nil_r w) at 1. rewrite cstr_app_nonzero by done. by rewrite app_nil_r. Qed.

(** The contents of [name]. *)
Lemma elem_name name w :
  length name = 14%nat → Forall (λ c, c ≠ 0) w →
  let name' := if DIRSIZ <=? Z.of_nat (length w) then splice name 0 (take (Z.to_nat DIRSIZ) w)
               else <[length w := 0]> (splice name 0 w) in
  length name' = 14%nat ∧ cstr name' = take 14 w.
Proof.
  intros Hl Hw name'. change DIRSIZ with 14 in *. unfold name'. destruct (Z.leb_spec 14 (Z.of_nat (length w))) as [H|H].
  - assert (length (take 14 w) = 14%nat) as Ht by (rewrite length_take; lia). change (Z.to_nat 14) with 14%nat.
    rewrite length_splice by lia. split; [done|]. unfold splice. cbn [take]. rewrite Ht, app_nil_l, drop_ge by lia.
    rewrite app_nil_r. apply cstr_of_nonzero. by apply Forall_take.
  - rewrite length_insert, length_splice by lia. split; [done|]. unfold splice. rewrite app_nil_l, Nat.add_0_l.
    rewrite insert_app_r_alt, Nat.sub_diag by lia. rewrite take_ge by lia.
    destruct (drop (length w) name) as [|c q] eqn:E; [apply (f_equal length) in E; rewrite length_drop in E; simpl in E; lia|].
    cbn. rewrite cstr_app_nonzero by done. cbn. by rewrite app_nil_r.
Qed.

Lemma skipelem_none path name : skipelem path name = None ↔ path_elems path = [].
Proof.
  unfold skipelem, path_elems. rewrite <- skip_slashes_words. pose proof (skip_slashes_head path) as Hh.
  set (q := skip_slashes path) in *. destruct (Z.eqb_spec (char_at q) 0) as [E|E].
  - rewrite (proj1 (char_at_cstr q) E). done.
  - destruct (span_elem q) as [w r] eqn:Es. split; [done|]. destruct (span_elem_spec q w r Es) as (Eq & Hw & Hr).
    rewrite Eq, cstr_app_nonzero by (by eapply Forall_impl; [exact Hw|intros ? []]). rewrite words_word; [done| | |].
    + by eapply Forall_impl; [exact Hw|intros ? []].
    + intros ->. rewrite Eq in E, Hh. cbn in E, Hh. destruct Hr; done.
    + destruct Hr as [H|H]; [left; by apply char_at_cstr|right]. by rewrite (cstr_cons r) by congruence.
Qed.

Lemma skipelem_some path name path' name' :
  skipelem path name = Some (path', name') → length name = 14%nat →
  path_elems path = cstr name' :: path_elems path' ∧ length name' = 14%nat ∧ (length path' < length path)%nat.
Proof.
  unfold skipelem, path_elems. rewrite <- skip_slashes_words. pose proof (skip_slashes_head path) as Hh.
  pose proof (skip_slashes_length path) as Hl. set (q := skip_slashes path) in *.
  destruct (Z.eqb_spec (char_at q) 0) as [E|E]; [done|]. destruct (span_elem q) as [w r] eqn:Es. intros [= <- <-] Hn.
  destruct (span_elem_spec q w r Es) as (Eq & Hw & Hr).
  assert (Forall (λ c, c ≠ 0) w) as W0 by (by eapply Forall_impl; [exact Hw|intros ? []]).
  assert (Forall (λ c, c ≠ 47) w) as W47 by (by eapply Forall_impl; [exact Hw|intros ? []]).
  assert (w ≠ []) as Wn. { intros ->. rewrite Eq in E, Hh. cbn in E, Hh. destruct Hr; done. }
  destruct (elem_name name w Hn W0) as [-> ->]. rewrite skip_slashes_words. split; [|split; [done|]].
  - rewrite Eq, cstr_app_nonzero by done. rewrite words_word; [done|done|done|].
    destruct Hr as [H|H]; [left; by apply char_at_cstr|right]. by rewrite (cstr_cons r) by congruence.
  - pose proof (skip_slashes_length r). rewrite Eq, length_app in Hl. destruct w; [done|]. cbn [length] in Hl. lia.
Qed.

(** ** Directories *)

(** A directory is a list of names and inode numbers, as [dirlookup] finds them. *)
Definition dir := list (list Z * Z).

Fixpoint dir_find (d : dir) (name : list Z) : option Z :=
  match d with
  | [] => None
  | (n, inum) :: d' => if decide (n = name) then Some inum else dir_find d' name
  end.

Definition entry (content : list Z) (k : nat) : list Z := take 16 (drop (16 * k) content).

Definition used_entry (bs : list Z) : option (list Z * Z) :=
  if de_inum bs =? 0 then None else Some (cstr (de_name bs), de_inum bs).

(** The entries from number [k] on of a directory of [n] entries. *)
Definition dir_from (content : list Z) (k n : nat) : dir := omap used_entry (entry content <$> seq k (n - k)).
Definition dir_of (content : list Z) : dir := dir_from content 0 (length content / 16).

Lemma dir_from_step content k n :
  (k < n)%nat →
  dir_from content k n = match used_entry (entry content k) with Some e => e :: dir_from content (S k) n | None => dir_from content (S k) n end.
Proof.
  intros H. unfold dir_from. replace (n - k)%nat with (S (n - S k)) by lia. cbn [seq fmap list_fmap omap list_omap].
  by destruct (used_entry _).
Qed.

Lemma dir_of_from content n : length content = (16 * n)%nat → dir_of content = dir_from content 0 n.
Proof. intros H. unfold dir_of. by rewrite H, Nat.mul_comm, Nat.div_mul by done. Qed.

Lemma dir_from_end content n : dir_from content n n = [].
Proof. unfold dir_from. by rewrite Nat.sub_diag. Qed.

Lemma length_entry content n k : length content = (16 * n)%nat → (k < n)%nat → length (entry content k) = 16%nat.
Proof. intros H Hk. unfold entry. rewrite length_take, length_drop. lia. Qed.

Lemma dir_find_elem d name inum : dir_find d name = Some inum → (name, inum) ∈ d.
Proof.
  induction d as [|[n i] d IH]; [done|]. cbn [dir_find]. destruct (decide (n = name)) as [->|].
  - intros [= ->]. left.
  - intros H. right. auto.
Qed.

(** [namecmp] with the name of an entry. *)
Lemma namecmp_entry name bs :
  length name = 14%nat → (namecmp name (de_name bs) =? 0) = bool_decide (cstr (de_name bs) = cstr name).
Proof.
  intros H. assert (∀ l, length l <= 14 → take 14 (cstr l) = cstr l)%nat as E.
  { intros l Hl. apply take_ge. assert (length (cstr l) <= length l)%nat; [|lia]. clear. induction l as [|c l IH]; [done|].
    cbn. destruct (c =? 0); cbn; lia. }
  apply Bool.eq_iff_eq_true. rewrite Z.eqb_eq, bool_decide_eq_true. unfold namecmp. rewrite strncmp_zero.
  change (Z.to_nat DIRSIZ) with 14%nat. rewrite !E; [done| |lia]. unfold de_name. rewrite length_take. lia.
Qed.

(** ** The tree of directories *)

(** Walking down from an inode. *)
Fixpoint resolve (T : gmap Z dir) (inum : Z) (names : list (list Z)) : option Z :=
  match names with
  | [] => Some inum
  | n :: names' => d ← T !! inum; i ← dir_find d n; resolve T i names'
  end.

(** The directory that holds the last element, and that element. *)
Fixpoint resolve_parent (T : gmap Z dir) (inum : Z) (names : list (list Z)) : option (Z * list Z) :=
  match names with
  | [] => None
  | n :: names' =>
      d ← T !! inum;
      match names' with
      | [] => Some (inum, n)
      | _ => i ← dir_find d n; resolve_parent T i names'
      end
  end.

(** What [namex] finds: an inode, and the last element if that is asked for. *)
Definition find_path (parent : bool) (T : gmap Z dir) (inum : Z) (names : list (list Z)) : option (Z * option (list Z)) :=
  if parent then (λ '(i, n), (i, Some n)) <$> resolve_parent T inum names
  else (λ i, (i, None)) <$> resolve T inum names.

Lemma find_path_nodir parent T inum n names : T !! inum = None → find_path parent T inum (n :: names) = None.
Proof. intros H. unfold find_path. cbn [resolve resolve_parent]. rewrite H. by destruct parent. Qed.

Lemma find_path_step parent T inum n names d :
  T !! inum = Some d → (parent = true → names ≠ []) →
  find_path parent T inum (n :: names) = i ← dir_find d n; find_path parent T i names.
Proof.
  intros H Hn. unfold find_path. cbn [resolve resolve_parent]. rewrite H. destruct parent; cbn.
  - destruct names; [by destruct (Hn eq_refl)|]. by destruct (dir_find d n).
  - by destruct (dir_find d n).
Qed.

(** The path that [skipelem] leaves begins with an element. *)
Lemma skipelem_last path name path' name' :
  skipelem path name = Some (path', name') → (char_at path' =? 0) = bool_decide (path_elems path' = []).
Proof.
  unfold skipelem. destruct (char_at _ =? 0); [done|]. destruct (span_elem _) as [w r]. intros [= <- _].
  set (q := skip_slashes r). apply Bool.eq_iff_eq_true. rewrite Z.eqb_eq, bool_decide_eq_true.
  rewrite <- (skipelem_none q []). unfold skipelem.
  assert (skip_slashes q = q) as ->.
  { pose proof (skip_slashes_head r) as H. fold q in H. destruct q as [|c q]; [done|]. cbn in *. by rewrite (proj2 (Z.eqb_neq _ _) H). }
  destruct (Z.eqb_spec (char_at q) 0); [done|]. destruct (span_elem q). split; congruence.
Qed.


(** ** Lookup through the cache *)

Section dirs.
Context `{L : Layout} `{V : VirtioDevice}.
Context (p : nat) (D P : blocks).
Context (Hsize : (size P < NBUF)%nat) (Hbytes : ∀ b, bytes_ok (cview D P b)).

Notation cache := (cache p).
Notation cwp := (cwp p).

(** ** Reading into the kernel's memory *)

Lemma ldn_stn_app m dst got chunk :
  bytes_ok chunk → ldn m dst (length got) = got →
  ldn (stn m (dst + Z.of_nat (length got)) chunk) dst (length (got ++ chunk)) = got ++ chunk.
Proof.
  intros Hc Hg. rewrite length_app, ldn_app. f_equal; [|by apply ldn_stn_eq].
  rewrite ldn_stn_ne by lia. done.
Qed.

Lemma readi_kernel s ip bs content dst off n :
  cache s D P ∅ → i_dev (inode_at s ip) = ROOTDEV → file_rep (cview D P) (dinode_of (inode_at s ip)) bs content →
  (length content <= 268 * 1024)%nat → Z.of_nat off + Z.of_nat n < 4294967296 → 0 <= dst →
  let want := take n (drop off content) in dst + Z.of_nat (length want) < 18446744073709551616 →
  cwp (2 * span off (length want)) (readi ip false dst (Z.of_nat off) (Z.of_nat n)) s
    (λ r s', r = Z.of_nat (length want) ∧ cache s' D P ∅ ∧ moved p s s' ∧ ldn (k_mem s') dst (length want) = want)
    (λ D', D' = D).
Proof.
  intros Hc Hdev Hrep Hmax Hn Hd want Hw.
  eapply (cwp_mono p _ _ _ _ (read_post p (λ s got, ldn (k_mem s) dst (length got) = got) (λ _, False) D P s want) _ (λ D', D' = D));
    [eapply (readi_ok p false dst (length want)) with (x := inode_at s ip)|apply Nat.le_refl| |done]; try done; try lia.
  - intros s1 s2 got F. by destruct (framed_mem p _ _ F) as (-> & _).
  - intros s1 got chunk e Hcalm Hg Hch Hl. exists 0, (stn (k_mem s1) (dst + Z.of_nat (length got)) chunk), (k_freelist s1).
    rewrite u64_small by lia. split; [|left; split; [done|by apply ldn_stn_app]].
    unfold either_copyout. erewrite bind_Ok by (by apply calm_curproc). by destruct s1.
  - intros r s' (H1 & H2 & [[-> H3]|[_ []]]). done.
Qed.

(** ** Scanning a directory *)

(** The address of a local variable. *)
Lemma kstack_var_ok s off e : calm s p → kstack_var off s e = Ok (p_kstack (proc_at s p) + off) s e.
Proof. intros H. unfold kstack_var. by erewrite bind_Ok by (by apply calm_curproc). Qed.

(** Kernel stacks are pages of the address space. *)
Definition stack_ok (s : kstate) : Prop := 0 <= p_kstack (proc_at s p) ∧ p_kstack (proc_at s p) + 4096 <= 18446744073709551616.

Section scan.
Context {A : Type} (dp : nat) (x : inode) (bs content : list Z) (n : nat).
Context (ks : Z) (msg : string) (body : Z → list Z → K (option A)).
Context (Hks : 0 <= ks < 4096 - 16) (Hdev : i_dev x = ROOTDEV).
Context (Hrep : file_rep (cview D P) (dinode_of x) bs content).
Context (Hn : length content = (16 * n)%nat) (Hmax : (n <= 268 * 64)%nat).

(** [J k s] holds before entry [k] is read. *)
Context (J : nat → kstate → Prop) (Q : option A * Z → kstate → Prop).
Context (J_inode : ∀ k s, J k s → inode_at s dp = x ∧ cache s D P ∅ ∧ stack_ok s).
Context (J_read : ∀ k s s', J k s → moved p s s' → cache s' D P ∅ → J k s').
Context (J_body : ∀ k s, (k < n)%nat → J k s →
  cwp 0 (body (Z.of_nat (16 * k)) (entry content k)) s
    (λ r s', match r with Some a => Q (Some a, Z.of_nat (16 * k)) s' | None => J (S k) s' end) (λ D', D' = D)).
Context (J_end : ∀ s, J n s → Q (None, Z.of_nat (16 * n)) s).

Definition scan_round (off : Z) : K (Z + (option A * Z)) :=
  i ← get_inode dp;
  if i_size i <=? off then mret (inr (None, off)) else
  de ← kstack_var ks;
  r ← readi dp false de off sizeof_dirent;
  if negb (r =? sizeof_dirent) then panic msg else
  bs ← gets (λ s, ldn (k_mem s) de (Z.to_nat sizeof_dirent));
  r ← body off bs;
  match r with
  | Some a => mret (inr (Some a, off))
  | None => mret (inl (u32 (off + sizeof_dirent)))
  end.

Lemma scan_size : i_size x = Z.of_nat (16 * n).
Proof. rewrite <- Hn. exact (fr_size _ _ _ _ Hrep). Qed.

Lemma span_entry k : (span (16 * k) 16 <= 1)%nat.
Proof.
  unfold span. cbn [Nat.eqb]. pose proof (Nat.div_mod_eq k 64) as E. pose proof (Nat.mod_upper_bound k 64 ltac:(lia)) as U.
  set (a := (k / 64)%nat) in *. set (b := (k mod 64)%nat) in *. rewrite E.
  assert ((16 * (64 * a + b)) / 1024 = a)%nat as -> by (symmetry; apply (Nat.div_unique _ 1024 _ (16 * b)); lia).
  assert (((16 * (64 * a + b)) + 16 + 1023) / 1024 = S a)%nat as ->; [|lia].
  symmetry; apply (Nat.div_unique _ 1024 _ (16 * b + 15)); lia.
Qed.

Lemma scan_entry k s :
  (k < n)%nat → J k s →
  cwp 2 (scan_round (Z.of_nat (16 * k))) s
    (λ r s', match r with inl off => off = Z.of_nat (16 * S k) ∧ J (S k) s' | inr q => Q q s' end) (λ D', D' = D).
Proof.
  intros Hk HJ. destruct (J_inode k s HJ) as (Hx & Hc & Hst). pose proof (ch_calm _ _ _ _ _ Hc) as Hcalm.
  unfold scan_round. eapply cwp_bind_ok; [intros e; reflexivity|]. rewrite Hx, scan_size, (proj2 (Z.leb_gt _ _)) by lia.
  eapply cwp_bind_ok; [intros e; by apply kstack_var_ok|]. set (de := p_kstack _ + ks). destruct Hst as [S1 S2].
  pose proof (length_entry content n k Hn Hk) as Hle.
  apply (cwp_bind p 2 0). change sizeof_dirent with (Z.of_nat 16).
  eapply cwp_mono; [apply (readi_kernel s dp bs content de (16 * k) 16); rewrite ?Hx; fold (entry content k); try done; try lia| | |done].
  - fold (entry content k). rewrite Hle. pose proof (span_entry k). lia.
  - fold (entry content k). rewrite Hle. intros r s1 (-> & Hc1 & M1 & Hmem). rewrite Z.eqb_refl. cbn [negb].
    eapply cwp_bind_ok; [intros e; reflexivity|]. rewrite Nat2Z.id, Hmem. apply (cwp_bind p 0 0).
    eapply cwp_mono; [apply (J_body k s1 Hk); by eapply J_read|lia| |done]. intros [a|] s2 H; apply cwp_ret; [done|].
    rewrite u32_small by lia. split; [lia|done].
Qed.

Lemma scan_stop s e : inode_at s dp = x → scan_round (Z.of_nat (16 * n)) s e = Ok (inr (None, Z.of_nat (16 * n))) s e.
Proof.
  intros Hx. unfold scan_round, get_inode. rewrite bind_gets, Hx, scan_size, (proj2 (Z.leb_le _ _)) by lia. done.
Qed.

Lemma scan_loop m k s fuel :
  (k + m = n)%nat → (m < fuel)%nat → J k s →
  cwp (2 * m) (loop fuel scan_round (Z.of_nat (16 * k))) s Q (λ D', D' = D).
Proof.
  revert k s fuel. induction m as [|m IH]; intros k s fuel Hm Hf HJ; (destruct fuel as [|fuel]; [lia|]); cbn [loop].
  - assert (k = n) as -> by lia. destruct (J_inode n s HJ) as (Hx & _ & _).
    eapply cwp_bind_ok; [intros e; by apply scan_stop|]. apply cwp_ret. by apply J_end.
  - replace (2 * S m)%nat with (2 + 2 * m)%nat by lia. apply cwp_bind. eapply cwp_mono; [apply scan_entry; [lia|done]|lia| |done].
    intros [off|q] s1.
    + intros [-> HJ1]. apply IH; [lia|lia|done].
    + intros H. eapply cwp_mono; [by apply cwp_ret|lia|done|done].
Qed.

Lemma dir_scan_ok s : J 0 s → cwp (2 * n) (dir_scan dp ks msg body) s Q (λ D', D' = D).
Proof.
  intros HJ. unfold dir_scan. eapply cwp_bind_ok; [intros e; reflexivity|]. destruct (J_inode 0 s HJ) as (Hx & _ & _). rewrite Hx.
  apply (scan_loop n 0 s); [lia| |done]. rewrite scan_size. change sizeof_dirent with 16. zlia.
Qed.
End scan.

(** ** Looking up a name *)

Context (sb : superblock) (T : gmap Z dir).
Context (Hiblock : ∀ inum, inum_ok sb inum → 0 <= IBLOCK inum sb < 2147483648).

Notation disk_inode := (disk_inode sb (cview D P)).
Notation fsat := (fsat p sb D P).
Notation fmoved := (fmoved p).

(** An inode that a directory may name. *)
Definition named (inum : Z) : Prop :=
  inum_ok sb inum ∧ di_type (disk_inode inum) ≠ 0 ∧ di_nlink (disk_inode inum) ≠ 0.

Definition dir_at (inum : Z) (d : dir) : Prop :=
  di_type (disk_inode inum) = T_DIR ∧
  ∃ bs content n, file_rep (cview D P) (disk_inode inum) bs content ∧ length content = (16 * n)%nat ∧ (n <= 268 * 64)%nat ∧
    dir_of content = d.

(** The directories on the disk are those of [T]. *)
Record tree_ok : Prop := {
  tr_dir : ∀ inum d, T !! inum = Some d → dir_at inum d ∧ Forall (λ e, named e.2) d;
  tr_only : ∀ inum, named inum → T !! inum = None → di_type (disk_inode inum) ≠ T_DIR;
}.
Context (Htree : tree_ok).

(** A reference to inode [inum], added to those of [t]. *)
Record new_ref (t : list inode) (s : kstate) (ip : nat) (inum : Z) : Prop := {
  nr_ip : (ip < NINODE)%nat;
  nr_inum : i_inum (inode_at s ip) = inum;
  nr_ref : 0 < i_ref (inode_at s ip);
  nr_refs : ∀ m, refs (k_inodes s) m = refs t m + if decide (m = inum) then 1 else 0;
}.

Definition looked_up (s : kstate) (dp : nat) (found : option Z) (r : option (nat * Z)) (s' : kstate) : Prop :=
  fsat s' (Some dp) ∧ fmoved s s' ∧ i_inum (inode_at s' dp) = i_inum (inode_at s dp) ∧
  match found with
  | None => r = None ∧ k_inodes s' = k_inodes s
  | Some inum => ∃ ip off, r = Some (ip, off) ∧ new_ref (k_inodes s) s' ip inum
  end.

(** Before entry [k] is read. *)
Record scanning (s : kstate) (dp : nat) (found : option Z) (name content : list Z) (n k : nat) (s' : kstate) : Prop := {
  sc_fsat : fsat s' (Some dp);
  sc_moved : fmoved s s';
  sc_inodes : k_inodes s' = k_inodes s;
  sc_find : dir_find (dir_from content k n) (cstr name) = found;
}.

Definition lookup_body (dp : nat) (name : list Z) (off : Z) (bs : list Z) : K (option (nat * Z)) :=
  if de_inum bs =? 0 then mret None else
  if namecmp name (de_name bs) =? 0 then
    i ← get_inode dp;
    ip ← iget (i_dev i) (de_inum bs);
    mret (Some (ip, off))
  else mret None.

Lemma lookup_entry s dp found name content n k s1 :
  scanning s dp found name content n k s1 → (k < n)%nat → (dp < NINODE)%nat → length name = 14%nat →
  (length (live (k_inodes s)) < NINODE)%nat → i_dev (inode_at s dp) = ROOTDEV → 0 < i_ref (inode_at s dp) →
  (∀ inum, found = Some inum → inum_ok sb inum) →
  cwp 0 (lookup_body dp name (Z.of_nat (16 * k)) (entry content k)) s1
    (λ r s', match r with Some a => looked_up s dp found (Some a) s' | None => scanning s dp found name content n (S k) s' end)
    (λ D', D' = D).
Proof.
  intros [C1 C2 C3 C4] Hk Hdp Hname Hlive Hdev Hr Hok. rewrite dir_from_step in C4 by done. unfold used_entry in C4.
  unfold lookup_body. set (bs := entry content k) in *. destruct (Z.eqb_spec (de_inum bs) 0) as [_|_]; [by apply cwp_ret|].
  cbn [dir_find] in C4. rewrite namecmp_entry by done. case_bool_decide as En; [|rewrite decide_False in C4 by done; by apply cwp_ret].
  rewrite decide_True in C4 by done. eapply cwp_bind_ok; [intros e; reflexivity|].
  assert (inode_at s1 dp = inode_at s dp) as E1 by (unfold inode_at; by rewrite C3). rewrite E1, Hdev.
  destruct (iget_ok p sb D P Hsize s1 (Some dp) (de_inum bs) C1 (Hok _ (eq_sym C4))) as (ip & t' & Hget & Hf' & I1 & I2 & I3 & I4 & I5).
  { by rewrite C3. }
  eapply cwp_bind_ok; [apply Hget|]. apply cwp_ret. split; [done|].
  split; [eapply fmoved_trans; [exact C2|apply fmoved_inodes]|]. split.
  - change (i_inum (t' !!! dp) = i_inum (inode_at s dp)). rewrite I5; rewrite C3; done.
  - rewrite <- C4. exists ip, (Z.of_nat (16 * k)). split; [done|]. split; [done|done|done|]. intros m. simpl. by rewrite I4, C3.
Qed.

Lemma dirlookup_ok s dp name d :
  fsat s (Some dp) → (dp < NINODE)%nat → stack_ok s → (length (live (k_inodes s)) < NINODE)%nat → length name = 14%nat →
  T !! i_inum (inode_at s dp) = Some d →
  cwp (2 * (268 * 64)) (dirlookup dp name) s (looked_up s dp (dir_find d (cstr name))) (λ D', D' = D).
Proof.
  intros Hf Hdp Hst Hlive Hname Hd. destruct (tr_dir Htree _ _ Hd) as [[Hty (bs & content & n & Hrep & Hlen & Hn & Hdir)] Hents].
  pose proof (fa_itab _ _ _ _ _ _ Hf) as Hi. pose proof (it_lock _ _ _ _ _ Hi dp Hdp) as HL. rewrite decide_True in HL by done.
  destruct HL as (_ & _ & Hr & Hv). pose proof (it_valid _ _ _ _ _ Hi dp Hdp Hr Hv) as Ed. destruct (it_dev _ _ _ _ _ Hi dp Hdp Hr) as [Hdev _].
  change (k_inodes s !!! dp) with (inode_at s dp) in *. set (x := inode_at s dp) in *.
  unfold dirlookup. eapply cwp_bind_ok; [intros e; reflexivity|]. fold x. change (i_type x) with (di_type (dinode_of x)).
  rewrite Ed, Hty, Z.eqb_refl. cbn [negb].
  set (found := dir_find d (cstr name)).
  assert (∀ inum, found = Some inum → inum_ok sb inum) as Hok.
  { intros inum H%dir_find_elem. rewrite Forall_forall in Hents. by destruct (Hents _ H). }
  replace (2 * (268 * 64))%nat with (2 * (268 * 64) + 0)%nat by lia. apply cwp_bind.
  eapply (cwp_mono p (2 * n) _ _ _ (λ '(r, _) s', looked_up s dp found r s') _ (λ D', D' = D));
    [|lia|intros [r off] s' H; by apply cwp_ret|done].
  change (λ off bs, _) with (lookup_body dp name).
  eapply (dir_scan_ok dp x bs content n) with (J := scanning s dp found name content n); try done.
  - by rewrite Ed.
  - intros k s1 [C1 C2 C3 C4]. split; [unfold inode_at; by rewrite C3|]. split; [by destruct C1|].
    unfold stack_ok. by rewrite (fm_proc _ _ _ C2).
  - intros k s1 s2 [C1 C2 C3 C4] M Hc. split; [by eapply fsat_moved| |by destruct M as [-> _]|done].
    eapply fmoved_trans; [exact C2|by apply moved_fmoved].
  - intros k s1 Hk HJ. eapply cwp_mono; [by apply lookup_entry with (s := s)|lia| |done]. by intros [a|] s2 H.
  - intros s1 [C1 C2 C3 C4]. rewrite dir_from_end in C4. cbn in C4. rewrite <- C4. split; [done|]. split; [done|].
    split; [unfold inode_at; by rewrite C3|done].
  - split; [done|apply fmoved_refl|done|]. unfold found. by rewrite <- Hdir, dir_of_from with (n := n).
Qed.

(** ** Walking a path *)

Definition namex_post (s0 : kstate) (target : option (Z * option (list Z))) (r : option nat * list Z) (s' : kstate) : Prop :=
  fsat s' None ∧ fmoved s0 s' ∧
  match target with
  | Some (inum, last) => ∃ ip, r.1 = Some ip ∧ new_ref (k_inodes s0) s' ip inum ∧ ∀ n, last = Some n → cstr r.2 = n
  | None => r.1 = None ∧ ∀ m, refs (k_inodes s') m = refs (k_inodes s0) m
  end.

(** Before a round of [namex]: it has a reference to inode [inum], from where the
    rest of the path leads to the target. *)
Record walking (s0 : kstate) (par : bool) (target : option (Z * option (list Z))) (x : nat * list Z * list Z) (s : kstate) : Prop := {
  wk_fsat : fsat s None;
  wk_moved : fmoved s0 s;
  wk_ref : new_ref (k_inodes s0) s x.1.1 (i_inum (inode_at s x.1.1));
  wk_named : named (i_inum (inode_at s x.1.1));
  wk_name : length x.2 = 14%nat;
  wk_find : find_path par T (i_inum (inode_at s x.1.1)) (path_elems x.1.2) = target;
}.

(** The reference to a directory is put back. *)
Lemma put_dir s0 s ip :
  fsat s (Some ip) → fmoved s0 s → (∀ m, refs (k_inodes s) m = refs (k_inodes s0) m + if decide (m = i_inum (inode_at s ip)) then 1 else 0) →
  (ip < NINODE)%nat → named (i_inum (inode_at s ip)) →
  ∃ s', (∀ e, iunlockput ip s e = Ok tt s' e) ∧ fsat s' None ∧ fmoved s0 s' ∧ ∀ m, refs (k_inodes s') m = refs (k_inodes s0) m.
Proof.
  intros Hf M Hrefs Hip (_ & _ & Hnl). destruct (iunlockput_ok p sb D P Hsize s ip Hf Hip Hnl) as (s' & Hu & Hf' & M' & Hr & _).
  exists s'. split; [done|]. split; [done|]. split; [by eapply fmoved_trans|]. intros m. rewrite Hr, Hrefs. destruct (decide _); lia.
Qed.

(** So it is after the next inode has been found. *)
Lemma put_dir_next s0 s dp ip inum :
  fsat s (Some dp) → (dp < NINODE)%nat → named (i_inum (inode_at s dp)) → new_ref (k_inodes s0) s ip inum →
  0 < refs (k_inodes s0) inum + (if decide (inum = i_inum (inode_at s dp)) then 0 else 1) →
  ∃ s', (∀ e, iunlockput dp s e = Ok tt s' e) ∧ fsat s' None ∧ fmoved s s' ∧ (ip < NINODE)%nat ∧ i_inum (inode_at s' ip) = inum ∧
    0 < i_ref (inode_at s' ip) ∧
    ∀ m, refs (k_inodes s') m = refs (k_inodes s0) m + (if decide (m = inum) then 1 else 0) - if decide (m = i_inum (inode_at s dp)) then 1 else 0.
Proof.
  intros Hf Hdp (_ & _ & Hnl) [N1 N2 N3 N4] Hpos.
  destruct (iunlockput_ok p sb D P Hsize s dp Hf Hdp Hnl) as (s' & Hu & Hf' & M' & Hr & Hi & Hk).
  assert (∀ m, refs (k_inodes s') m = refs (k_inodes s0) m + (if decide (m = inum) then 1 else 0) - if decide (m = i_inum (inode_at s dp)) then 1 else 0) as Hrefs
    by (intros m; rewrite Hr, N4; lia).
  exists s'. split_and!; try done; [by rewrite Hi|].
  destruct (decide (ip = dp)) as [->|N]; [|by rewrite Hk].
  destruct (live_index _ _ _ _ _ inum (fa_itab _ _ _ _ _ _ Hf')) as (j & Hj & Rj & Ij).
  { rewrite Hrefs. rewrite (decide_True (P := inum = inum)) by done. destruct (decide (inum = _)); lia. }
  destruct (decide (j = dp)) as [->|Nj]; [done|]. exfalso. apply Nj.
  change (k_inodes s' !!! j) with (inode_at s' j) in *. rewrite Hk in Rj by done. rewrite Hi in Ij.
  apply (it_uniq _ _ _ _ _ (fa_itab _ _ _ _ _ _ Hf)); try done. exact (eq_trans Ij (eq_sym N2)).
Qed.

Section walk.
Context (s0 : kstate) (par : bool) (target : option (Z * option (list Z))).
Context (Hf0 : fsat s0 None) (Hstack : stack_ok s0) (Hlive : (length (live (k_inodes s0)) + 2 <= NINODE)%nat).

Notation walking := (walking s0 par target).
Notation namex_post := (namex_post s0 target).

(** The state in which a round of [namex] has locked the directory [ip]. *)
Record locked_dir (ip : nat) (inum : Z) (s : kstate) : Prop := {
  ld_fsat : fsat s (Some ip);
  ld_moved : fmoved s0 s;
  ld_ref : new_ref (k_inodes s0) s ip inum;
}.

Lemma lock_dir x s (Q : unit → kstate → Prop) :
  walking x s →
  (∀ s1, locked_dir x.1.1 (i_inum (inode_at s x.1.1)) s1 → dinode_of (inode_at s1 x.1.1) = disk_inode (i_inum (inode_at s x.1.1)) → Q tt s1) →
  cwp 1 (ilock (Some x.1.1)) s Q (λ D', D' = D).
Proof.
  intros [W1 W2 [R1 R2 R3 R4] W4 W5 W6] HQ. eapply ilock_ok; try done; [apply W4|].
  intros s1 Hf1 M1 Hids Hd. apply HQ; [|done]. pose proof Hids as [_ Hj]. destruct (Hj x.1.1) as [E1 E2].
  split; [done|eapply fmoved_trans; [done|by apply imoved_fmoved]|]. split; [done|done|by unfold inode_at; rewrite E2|].
  intros m. rewrite (same_ids_refs (k_inodes s)) by done. apply R4.
Qed.

(** The inode is not a directory, or the name is not in it. *)
Lemma walk_fails ip inum s {A} (r : A) (Q : A → kstate → Prop) (k : unit → K A) :
  locked_dir ip inum s → named inum → (∀ u s', (∀ e, k u s' e = Ok r s' e)) →
  (∀ s', fsat s' None → fmoved s0 s' → (∀ m, refs (k_inodes s') m = refs (k_inodes s0) m) → Q r s') →
  cwp 0 (u ← iunlockput ip; k u) s Q (λ D', D' = D).
Proof.
  intros [L1 L2 [R1 R2 R3 R4]] Hn Hk HQ. rewrite <- R2 in R4, Hn. destruct (put_dir s0 s ip L1 L2 R4 R1 Hn) as (s' & Hu & Hf' & M' & Hr).
  eapply cwp_bind_ok; [apply Hu|]. eapply cwp_ok; [apply Hk|]. by apply HQ.
Qed.

Lemma locked_live ip inum s : locked_dir ip inum s → (length (live (k_inodes s)) < NINODE)%nat.
Proof.
  intros [L1 L2 [R1 R2 R3 R4]]. pose proof (live_le _ _ _ _ _ _ _ _ inum (fa_itab _ _ _ _ _ _ Hf0) (fa_itab _ _ _ _ _ _ L1)) as H.
  specialize (H ltac:(intros m N; rewrite R4, decide_False by done; lia)). lia.
Qed.

(** After a round: [namex] returns, or goes on with the rest of the path. *)
Definition round_post (rest : list Z) (r : (nat * list Z * list Z) + (option nat * list Z)) (s' : kstate) : Prop :=
  match r with inl x => walking x s' ∧ x.1.2 = rest | inr q => namex_post q s' end.

(** The path is at its end. *)
Lemma walk_end ip path name s :
  walking (ip, path, name) s → path_elems path = [] →
  cwp 0 (if par then iput ip;; mret (inr (None, name)) else mret (inr (Some ip, name))) s
    (λ (r : (nat * list Z * list Z) + _) s', match r with inl _ => False | inr q => namex_post q s' end) (λ D', D' = D).
Proof.
  intros [W1 W2 W3 W4 W5 W6] E. cbn [fst snd] in *. rewrite E in W6. unfold find_path in W6. cbn in W6. destruct par.
  - cbn in W6. pose proof W3 as [R1 R2 R3 R4]. destruct (iput_ok p sb D P Hsize s ip W1 R1 R3) as (t' & Hp & Hf' & Hr & _).
    { apply W4. }
    eapply cwp_bind_ok; [apply Hp|]. apply cwp_ret. split; [done|]. split; [eapply fmoved_trans; [exact W2|apply fmoved_inodes]|].
    rewrite <- W6. split; [done|]. intros m. simpl. rewrite Hr, R4. destruct (decide _); lia.
  - cbn in W6. apply cwp_ret. split; [done|]. split; [done|]. rewrite <- W6. by exists ip.
Qed.

(** [namex] stops at the parent. *)
Lemma walk_last ip inum name s rest :
  locked_dir ip inum s → target = Some (inum, Some (cstr name)) →
  cwp 0 (iunlock (Some ip);; mret (inr (Some ip, name))) s (round_post rest) (λ D', D' = D).
Proof.
  intros [L1 L2 [R1 R2 R3 R4]] Et. destruct (iunlock_ok p sb D P Hsize s ip L1 R1) as (s' & Hu & Hf' & M' & Hids).
  pose proof Hids as [_ Hj]. destruct (Hj ip) as [E1 E2].
  eapply cwp_bind_ok; [apply Hu|]. apply cwp_ret. split; [done|]. split; [eapply fmoved_trans; [done|by apply imoved_fmoved]|].
  rewrite Et. exists ip. split; [done|]. split; [|by intros n [= <-]]. split; [done|exact (eq_trans E1 R2)|by unfold inode_at; rewrite E2|].
  intros m. by rewrite (same_ids_refs (k_inodes s)), R4.
Qed.

(** [namex] looks the element up and goes on from there. *)
Lemma walk_down ip inum path name s d :
  locked_dir ip inum s → named inum → length name = 14%nat → T !! inum = Some d →
  target = (i ← dir_find d (cstr name); find_path par T i (path_elems path)) →
  cwp (2 * (268 * 64))
    (next ← dirlookup ip name;
     match next with
     | None => iunlockput ip;; mret (inr (None, name))
     | Some (next, _) => iunlockput ip;; mret (inl (next, path, name))
     end) s (round_post path) (λ D', D' = D).
Proof.
  intros HL Hn Hname Hd Et. pose proof HL as [L1 L2 [R1 R2 R3 R4]].
  replace (2 * (268 * 64))%nat with (2 * (268 * 64) + 0)%nat by lia. apply cwp_bind.
  eapply cwp_mono; [apply (dirlookup_ok s ip name d); try done|lia| |done].
  { unfold stack_ok. by rewrite (fm_proc _ _ _ L2). } { by eapply locked_live. } { by rewrite R2. }
  intros r s1 (Hf1 & M1 & Ei & Hres). rewrite R2 in Ei. destruct (dir_find d (cstr name)) as [i|] eqn:Ef; cbn in Et.
  - destruct Hres as (next & off & -> & Hnr). destruct (tr_dir Htree _ _ Hd) as [_ Hents]. rewrite Forall_forall in Hents.
    pose proof (Hents _ (dir_find_elem _ _ _ Ef)) as Hni. cbn in Hni.
    destruct (put_dir_next s s1 ip next i Hf1 R1) as (s2 & Hu & Hf2 & M2 & K1 & K2 & K3 & K4); rewrite ?Ei; try done.
    { pose proof (refs_nonneg _ i (itab_nonneg _ _ _ _ _ (fa_itab _ _ _ _ _ _ Hf0))). rewrite R4. destruct (decide _); lia. }
    eapply cwp_bind_ok; [apply Hu|]. apply cwp_ret. split; [|done]. split; cbn [fst snd]; rewrite ?K2; try done.
    + eapply fmoved_trans; [exact L2|]. by eapply fmoved_trans.
    + split; [done|done|done|]. intros m. rewrite K4, R4, Ei. destruct (decide (m = inum)), (decide (m = i)); lia.
  - destruct Hres as [-> Hi]. eapply (walk_fails ip inum s1); [|done|done|].
    + split; [done|by eapply fmoved_trans|]. split; [done|done| |]; unfold inode_at; by rewrite Hi.
    + intros s2 Hf2 M2 Hr2. split; [done|]. split; [done|]. by rewrite Et.
Qed.

(** The requests of a round: the inode and the entries of a directory. *)
Definition round_cost : nat := 1 + 2 * (268 * 64).

Lemma namex_round ip path name s path' name' :
  walking (ip, path, name) s → skipelem path name = Some (path', name') →
  cwp round_cost (namex_loop par (ip, path, name)) s (round_post path') (λ D', D' = D).
Proof.
  intros HW Hs. pose proof HW as [W1 W2 W3 W4 W5 W6]. cbn [fst snd] in *. destruct (skipelem_some _ _ _ _ Hs W5) as (Ee & Hn' & _).
  pose proof (skipelem_last _ _ _ _ Hs) as Elast. rewrite Ee in W6. set (inum := i_inum (inode_at s ip)) in *.
  unfold namex_loop. rewrite Hs. apply (cwp_bind p 1). eapply (lock_dir (ip, path, name)); [done|]. cbn [fst]. fold inum.
  intros s1 HL Hd. eapply cwp_bind_ok; [intros e; reflexivity|]. change (i_type (inode_at s1 ip)) with (di_type (dinode_of (inode_at s1 ip))).
  rewrite Hd. destruct (T !! inum) as [d|] eqn:ET.
  - destruct (tr_dir Htree _ _ ET) as [[Hty _] _]. rewrite Hty, Z.eqb_refl. cbn [negb]. rewrite Elast.
    destruct (par && bool_decide (path_elems path' = [])) eqn:Eb.
    + apply andb_prop in Eb as [Epar El%bool_decide_eq_true]. eapply (cwp_mono p 0 _ _ _ (round_post path') _ (λ D', D' = D)); [|lia|done|done].
      apply (walk_last ip inum name' s1 path'); [done|]. rewrite <- W6, Epar, El. unfold find_path. cbn. by rewrite ET.
    + apply (walk_down ip inum path' name' s1 d); try done. rewrite <- W6. apply find_path_step; [done|]. intros ->.
      by apply bool_decide_eq_false in Eb.
  - rewrite (proj2 (Z.eqb_neq _ _) (tr_only Htree _ W4 ET)). cbn [negb]. eapply (cwp_mono p 0 _ _ _ (round_post path') _ (λ D', D' = D)); [|lia|done|done].
    eapply (walk_fails ip inum s1); [done|done|done|]. intros s2 Hf2 M2 Hr2. split; [done|]. split; [done|].
    rewrite <- W6. by rewrite find_path_nodir.
Qed.

Lemma namex_loop_ok fuel x s :
  walking x s → (length x.1.2 < fuel)%nat →
  cwp (length (path_elems x.1.2) * round_cost) (loop fuel (namex_loop par) x) s namex_post (λ D', D' = D).
Proof.
  revert x s. induction fuel as [|fuel IH]; intros [[ip path] name] s HW Hf; cbn [fst snd] in *; [lia|]. cbn [loop].
  destruct (skipelem path name) as [[path' name']|] eqn:Hs.
  - destruct (skipelem_some _ _ _ _ Hs (wk_name _ _ _ _ _ HW)) as (Ee & _ & Hl). rewrite Ee. cbn [length Nat.mul].
    apply cwp_bind. eapply cwp_mono; [by eapply namex_round|lia| |done]. intros [x|q] s1 H; cbn in H.
    + destruct H as [HW1 Ex]. rewrite <- Ex in *. apply IH; [done|lia].
    + eapply cwp_mono; [by apply cwp_ret|lia|done|done].
  - pose proof (proj1 (skipelem_none path name) Hs) as Ee. rewrite Ee. apply (cwp_bind p 0 0). unfold namex_loop. rewrite Hs.
    eapply cwp_mono; [by apply (walk_end ip path name s)|lia| |done]. intros [x|q] s1 H; [done|by apply cwp_ret].
Qed.
End walk.

(** Where a path starts: the root, or the current directory. *)
Definition starts_at (s : kstate) (path : list Z) (inum : Z) : Prop :=
  if char_at path =? 47 then inum = ROOTINO
  else ∃ c, p_cwd (proc_at s p) = Some c ∧ (c < NINODE)%nat ∧ 0 < i_ref (inode_at s c) ∧ i_inum (inode_at s c) = inum.

Lemma namex_ok s path par name start :
  fsat s None → stack_ok s → (length (live (k_inodes s)) + 2 <= NINODE)%nat → length name = 14%nat →
  starts_at s path start → named start →
  cwp (length (path_elems path) * round_cost) (namex path par name) s
    (namex_post s (find_path par T start (path_elems path))) (λ D', D' = D).
Proof.
  intros Hf Hst Hlive Hname Hstart Hn. set (target := find_path _ _ _ _).
  assert (∃ ip t', (∀ e, (if char_at path =? 47 then iget ROOTDEV ROOTINO
    else p ← curproc; pr ← get_proc p; match p_cwd pr with Some ip => idup ip | None => panic "kerneltrap" end) s e = Ok ip (s <| k_inodes := t' |>) e) ∧
    walking s par target (ip, path, name) (s <| k_inodes := t' |>)) as (ip & t' & Hip & HW).
  { unfold starts_at in Hstart. destruct (char_at path =? 47).
    - subst start. destruct (iget_ok p sb D P Hsize s None ROOTINO Hf (proj1 Hn)) as (ip & t' & Hget & Hf' & I1 & I2 & I3 & I4 & _); [lia|].
      exists ip, t'. split; [done|]. split; cbn [fst snd]; try change (i_inum (inode_at (set k_inodes _ s) ip)) with (i_inum (t' !!! ip));
        rewrite ?I2; done.
    - destruct Hstart as (c & Hc & C1 & C2 & C3). destruct (idup_ok p sb D P Hsize s None c Hf C1 C2) as (t' & Hdup & Hf' & I1 & I2 & I3).
      exists c, t'. rewrite C3 in *. split.
      + intros e. erewrite bind_Ok by (by apply calm_curproc, (ch_calm _ _ _ _ _ (fa_cache _ _ _ _ _ _ Hf))).
        unfold get_proc. rewrite bind_gets, Hc. apply Hdup.
      + split; cbn [fst snd]; try change (i_inum (inode_at (set k_inodes _ s) c)) with (i_inum (t' !!! c)); rewrite ?I1; done. }
  unfold namex. eapply cwp_bind_ok; [apply Hip|]. apply (namex_loop_ok s par target Hf Hst Hlive _ (ip, path, name)); [done|]. cbn. lia.
Qed.
End dirs.
