(* ===== verification/NameSpec.v ===== *)
(** Path names of the file system: [namex], and with it [namei] and
    [nameiparent], find in the blocks of the disk what the tree of directories
    says. *)

From S2P Require Export DirSpec.

(** The blocks [cview D P] hold a file system whose directories are [T]. *)
Record fs_tree (sb : superblock) (D P : blocks) (T : gmap Z dir) : Prop := {
  ft_size : (size P < NBUF)%nat;
  ft_bytes : ∀ b, bytes_ok (cview D P b);
  ft_iblock : ∀ inum, inum_ok sb inum → 0 <= IBLOCK inum sb < 2147483648;
  ft_tree : tree_ok D P sb T;
}.

(** C6: Path lookup refines the tree of directories.  From a disk whose
    directories are [T], [namex] (and so [namei] and [nameiparent]) returns a
    reference to the inode that the elements of the path lead to in [T], from
    the root or from the current directory; with [nameiparent], to the directory
    of the last element, whose name it copies.  Where [T] has no such path it
    returns 0.  The inode table has one more reference to that inode, or none,
    and every other count is as before; nothing is written to the disk, and no
    more requests are made than the directories have entries. *)
Theorem namex_resolves `{L : Layout} `{V : VirtioDevice} (p : nat) (sb : superblock) (D P : blocks) (T : gmap Z dir)
    (s : kstate) (path : list Z) (par : bool) (name : list Z) (start : Z) :
  fs_tree sb D P T → fsat p sb D P s None → stack_ok p s → (length (live (k_inodes s)) + 2 <= NINODE)%nat →
  length name = 14%nat → starts_at p s path start → named D P sb start →
  cwp p (length (path_elems path) * round_cost) (namex path par name) s
    (λ r s', fsat p sb D P s' None ∧ fmoved p s s' ∧
       match find_path par T start (path_elems path) with
       | Some (inum, last) => ∃ ip, r.1 = Some ip ∧ (ip < NINODE)%nat ∧ i_inum (inode_at s' ip) = inum ∧
           (∀ m, refs (k_inodes s') m = refs (k_inodes s) m + if decide (m = inum) then 1 else 0) ∧
           (∀ n, last = Some n → cstr r.2 = n)
       | None => r.1 = None ∧ ∀ m, refs (k_inodes s') m = refs (k_inodes s) m
       end) (λ D', D' = D).
Proof.
  intros [F1 F2 F3 F4] Hf Hst Hlive Hname Hstart Hn.
  eapply cwp_mono; [by apply namex_ok with (T := T) (start := start) (sb := sb) (P := P)|apply Nat.le_refl| |done].
  intros r s' (H1 & H2 & H3). split; [done|]. split; [done|]. destruct (find_path _ _ _ _) as [[inum last]|]; [|done].
  destruct H3 as (ip & E & [N1 N2 N3 N4] & Hl). by exists ip.
Qed.

(** ** A small disk *)

#[local] Existing Instance layout0.

(** The root directory, inode 1, has a file [hi], inode 2. *)
Definition small_sb : superblock := mk_superblock 270544960 2000 1953 4 31 2 33 46.
Definition small_root : dinode := mk_dinode T_DIR 0 0 1 48 (47 :: replicate NDIRECT 0).
Definition small_file : dinode := mk_dinode T_FILE 0 0 1 5 (48 :: replicate NDIRECT 0).
Definition small_entry (name : list Z) (inum : Z) : list Z := le_bytes 2 inum ++ name ++ replicate (14 - length name) 0.
Definition small_dir : list Z := small_entry [46] 1 ++ small_entry [46; 46] 1 ++ small_entry [104; 105] 2.
Definition small_bytes : list Z := [104; 101; 108; 108; 111].
Definition small_map : list Z := [255; 255; 255; 255; 255; 255; 1].
Definition zero_block : list Z := replicate (Z.to_nat BSIZE) 0.
Definition small_disk : blocks :=
  list_to_map [(33, put_dinode (put_dinode zero_block 1 small_root) 2 small_file);
               (46, splice zero_block 0 small_map); (47, splice zero_block 0 small_dir); (48, splice zero_block 0 small_bytes)].
Definition small_tree : gmap Z dir := {[1 := [([46], 1); ([46; 46], 1); ([104; 105], 2)]]}.

(** A file of one block. *)
Lemma file_rep_one v d b n :
  di_size d = Z.of_nat n → di_addrs d = b :: replicate NDIRECT 0 → 0 < b < 2147483648 → (n <= 1024)%nat →
  (n <= length (v b))%nat → file_rep v d [b] (take n (v b)).
Proof.
  intros H1 H2 Hb Hn Hl. split.
  - rewrite H1, length_take. lia.
  - by apply Nat.leb_le.
  - by constructor.
  - intros k Hk. rewrite H2. destruct k as [|k]; [done|]. change (replicate NDIRECT 0 !!! k = 0).
    by rewrite lookup_total_replicate_2 by lia.
  - rewrite H2. done.
  - cbn. unfold NDIRECT. lia.
  - rewrite H2. done.
  - intros i c Hi. pose proof (lookup_lt_Some _ _ _ Hi) as Hlt. rewrite length_take in Hlt. exists b.
    rewrite Nat.div_small, Nat.mod_small by lia. split; [done|]. apply lookup_take_Some in Hi. apply Hi.
Qed.

Lemma small_view b : cview small_disk ∅ b = default zero_block (small_disk !! b).
Proof. done. Qed.

Lemma small_iblock inum : inum_ok small_sb inum → IBLOCK inum small_sb = 33 ∧ (inum = 1 ∨ inum = 2 ∨ inum = 3).
Proof.
  intros [[H1 H2] _]. change (sb_ninodes small_sb) with 4 in H2. assert (inum = 1 ∨ inum = 2 ∨ inum = 3) as H by lia.
  split; [|done]. by destruct H as [->|[->| ->]].
Qed.

Lemma small_inodes :
  disk_inode small_sb (cview small_disk ∅) 1 = small_root ∧ disk_inode small_sb (cview small_disk ∅) 2 = small_file ∧
  di_type (disk_inode small_sb (cview small_disk ∅) 3) = 0.
Proof. split_and!; vm_compute; reflexivity. Qed.

Lemma small_named inum : inum = 1 ∨ inum = 2 → named small_disk ∅ small_sb inum.
Proof.
  destruct small_inodes as (E1 & E2 & _). intros [-> | ->]; unfold named; rewrite ?E1, ?E2; (split; [split; [split|]; (reflexivity || done)|]); done.
Qed.

Lemma small_bytes_ok b : bytes_ok (cview small_disk ∅ b).
Proof.
  rewrite small_view. destruct (small_disk !! b) as [l|] eqn:E; cbn [default].
  - apply elem_of_list_to_map_2 in E. unfold bytes_ok. repeat (apply elem_of_cons in E as [[= -> ->]|E]);
      [apply (bool_decide_unpack _); vm_compute; exact I..|by apply elem_of_nil in E].
  - apply Forall_replicate. lia.
Qed.

Lemma small_tree_ok : tree_ok small_disk ∅ small_sb small_tree.
Proof.
  destruct small_inodes as (E1 & E2 & E3). split.
  - intros inum d Hd. unfold small_tree in Hd. apply lookup_singleton_Some in Hd as [<- <-]. split.
    + split; [by rewrite E1|]. exists [47], (take 48 (cview small_disk ∅ 47)), 3%nat. split; [|split; [|split]].
      * rewrite E1. by apply file_rep_one; [| | |apply Nat.leb_le..].
      * by vm_compute.
      * by apply Nat.leb_le.
      * by vm_compute.
    + rewrite !Forall_cons, Forall_nil. split_and!; [apply small_named; auto..|done].
  - intros inum (Hi & Ht & _) Hn. destruct (small_iblock inum Hi) as [_ [->|[->| ->]]].
    + done.
    + by rewrite E2.
    + by rewrite E3.
Qed.

Lemma small_fs : fs_tree small_sb small_disk ∅ small_tree.
Proof.
  split; [rewrite map_size_empty; unfold NBUF; lia|apply small_bytes_ok| |apply small_tree_ok].
  intros inum H. destruct (small_iblock inum H) as [-> _]. done.
Qed.

(** A machine with that disk, whose process 0 is in the root directory. *)
Definition small_inode (inum : Z) : inode := inode0 <| i_dev := ROOTDEV |> <| i_inum := inum |> <| i_ref := 1 |>.
Definition small_machine : kstate :=
  (machine small_disk []) <| k_sb := small_sb |> <| k_inodes ::= <[0%nat := small_inode 1]> |>
    <| k_procs ::= <[0%nat := proc0 <| p_state := RUNNING |> <| p_cwd := Some 0%nat |>]> |>.

Lemma small_itab pid inum :
  inum = 1 ∨ inum = 2 → itab small_sb (cview small_disk ∅) pid None (<[0%nat := small_inode inum]> (replicate NINODE inode0)).
Proof.
  intros Hi. set (x := small_inode inum).
  assert (∀ i, (i < NINODE)%nat → <[0%nat := x]> (replicate NINODE inode0) !!! i = if decide (i = 0%nat) then x else inode0) as E.
  { intros [|i] Hlt; [done|]. change (replicate 49 inode0 !!! i = inode0). apply lookup_total_replicate_2. change NINODE with 50%nat in Hlt. lia. }
  split; [done|..].
  - intros i Hlt. rewrite E by done. by case_decide.
  - intros i Hlt. rewrite E by done. case_decide; [|done]. intros _. split; [done|]. apply small_named, Hi.
  - intros i Hlt. rewrite E by done. by case_decide.
  - intros i j Hlt Hj. rewrite !E by done. do 2 case_decide; try done. congruence.
  - intros i Hlt. rewrite E by done. rewrite decide_False by done. by case_decide.
Qed.

Lemma small_proc_calm s : k_x s = k_x quiet → length (k_procs s) = NPROC → p_state (proc_at s 0) = RUNNING → p_chan (proc_at s 0) = None → calm s 0.
Proof. intros Ex Hl H1 H2. destruct quiet_calm as [Q1 Q2 Q3 Q4 Q5 Q6 Q7 Q8]. split; rewrite ?Ex; done. Qed.

Lemma small_cache : cache 0 small_machine small_disk ∅ ∅.
Proof.
  pose proof (machine_cache small_disk [] (NoDup_nil_2) ltac:(simpl; lia) ltac:(constructor)) as [C1 C2 C3 C4 C5 C6 C7 C8].
  split; try done. by apply small_proc_calm.
Qed.

Lemma small_fsat : fsat 0 small_sb small_disk ∅ small_machine None.
Proof. split; [apply small_cache|done|]. apply small_itab. by left. Qed.

(** Looking up [/hi]. *)
Lemma namex_resolves_witness :
  cwp 0 (1 * round_cost) (namex [47; 104; 105; 0] false (replicate 14 0)) small_machine
    (λ r s', fsat 0 small_sb small_disk ∅ s' None ∧ fmoved 0 small_machine s' ∧
       ∃ ip, r.1 = Some ip ∧ (ip < NINODE)%nat ∧ i_inum (inode_at s' ip) = 2 ∧
           (∀ m, refs (k_inodes s') m = refs (k_inodes small_machine) m + if decide (m = 2) then 1 else 0) ∧
           (∀ n, None = Some n → cstr r.2 = n)) (λ D', D' = small_disk).
Proof.
  apply (namex_resolves 0 small_sb small_disk ∅ small_tree small_machine [47; 104; 105; 0] false (replicate 14 0) 1).
  - apply small_fs.
  - apply small_fsat.
  - split; vm_compute; discriminate.
  - apply Nat.leb_le. vm_compute. reflexivity.
  - reflexivity.
  - reflexivity.
  - apply small_named. by left.
Defined.
