(* ===== verification/Pipe.v ===== *)
(** Pipes: kernel/pipe.c ([pipealloc] is in File.v, with the file table it
    allocates from).

    A pipe occupies a page; the pages used as pipes are a heap of their own,
    [k_pipes], indexed by the page's address. *)

From S2P Require Export Fs.

Definition get_pipe (pi : Z) : K pipe := gets (λ s, k_pipes s !!! pi).
Definition upd_pipe (pi : Z) (f : pipe → pipe) : K unit :=
  modify (λ s, s <| k_pipes := <[pi := f (k_pipes s !!! pi)]> (k_pipes s) |>).

(** [data[n % PIPESIZE]] *)
Definition pipe_slot (n : Z) : nat := Z.to_nat (n mod PIPESIZE).

Section pipe.
Context `{L : Layout}.

Definition pipeclose (pi : Z) (writable : bool) : K unit :=
  acquire (Lpipe pi);;
  (if writable then
     upd_pipe pi (λ p, p <| pi_writeopen := 0 |>);; wakeup (ChPipeRead pi)
   else
     upd_pipe pi (λ p, p <| pi_readopen := 0 |>);; wakeup (ChPipeWrite pi));;
  p ← get_pipe pi;
  if (pi_readopen p =? 0) && (pi_writeopen p =? 0) then
    release (Lpipe pi);;
    modify (λ s, s <| k_pipes := delete pi (k_pipes s) |>);;
    kfree pi
  else release (Lpipe pi).

(** [pi->data[pi->nwrite++ % PIPESIZE] = ch] *)
Definition pipe_put (ch : Z) (p : pipe) : pipe :=
  p <| pi_data ::= <[pipe_slot (pi_nwrite p) := ch]> |> <| pi_nwrite ::= λ n, u32 (n + 1) |>.

(** [pi->nwrite == pi->nread + PIPESIZE] *)
Definition pipe_full (p : pipe) : bool := pi_nwrite p =? u32 (pi_nread p + PIPESIZE).

(** A round of the loop of [pipewrite]: it either sleeps or writes a byte.
    [inr (i, true)] is the early return. *)
Definition pipewrite_loop (pi : Z) (pr : nat) (addr n : Z) (i : Z) : K (Z + (Z * bool)) :=
  if n <=? i then mret (inr (i, false)) else
  p ← get_pipe pi;
  stop ← (if pi_readopen p =? 0 then mret true
          else k ← killed pr; mret (negb (k =? 0)));
  if (stop : bool) then release (Lpipe pi);; mret (inr (-1, true)) else
  if pipe_full p then
    wakeup (ChPipeRead pi);;
    sleep (ChPipeWrite pi) (Lpipe pi);;
    mret (inl i)
  else
    proc ← get_proc pr;
    '(bs, r) ← copyin (p_pagetable proc) (u64 (addr + i)) 1;
    if r =? -1 then mret (inr (i, false)) else
    upd_pipe pi (pipe_put (char_at bs));;
    mret (inl (i + 1)).

Definition pipewrite (pi addr n : Z) : K Z :=
  pr ← curproc;
  acquire (Lpipe pi);;
  '(i, returned) ← loop_wait (Z.to_nat n) (pipewrite_loop pi pr addr n) 0;
  if (returned : bool) then mret i else
  wakeup (ChPipeRead pi);;
  release (Lpipe pi);;
  mret i.

(** The wait at the start of [piperead]; [false] when the process is killed. *)
Definition pipe_wait (pi : Z) (pr : nat) : K bool :=
  wait_loop (
    p ← get_pipe pi;
    if (pi_nread p =? pi_nwrite p) && negb (pi_writeopen p =? 0) then
      k ← killed pr;
      if negb (k =? 0) then mret (Some false) else
      sleep (ChPipeRead pi) (Lpipe pi);; mret None
    else mret (Some true)).

Definition piperead_loop (pi : Z) (pr : nat) (addr n : Z) (i : Z) : K (Z + Z) :=
  if n <=? i then mret (inr i) else
  p ← get_pipe pi;
  if pi_nread p =? pi_nwrite p then mret (inr i) else
  let ch := pi_data p !!! pipe_slot (pi_nread p) in
  proc ← get_proc pr;
  r ← copyout (p_pagetable proc) (u64 (addr + i)) [ch];
  if r =? -1 then mret (inr (if i =? 0 then -1 else i)) else
  upd_pipe pi (λ p, p <| pi_nread ::= λ n, u32 (n + 1) |>);;
  mret (inl (i + 1)).

Definition piperead (pi addr n : Z) : K Z :=
  pr ← curproc;
  acquire (Lpipe pi);;
  ok ← pipe_wait pi pr;
  if negb ok then release (Lpipe pi);; mret (-1) else
  i ← loop (S (Z.to_nat n)) (piperead_loop pi pr addr n) 0;
  wakeup (ChPipeWrite pi);;
  release (Lpipe pi);;
  mret i.

End pipe.
