(* ===== verification/PipeSpec.v ===== *)
(** Pipes as bounded queues: [pipewrite] and [piperead] of Pipe.v move bytes
    between the address space of a process and a queue of at most [PIPESIZE]
    bytes. *)

From S2P Require Export Pipe AddressSpace SleepSpec.

(** ** The queue *)

(** The bytes written and not yet read, oldest first.  The counters wrap around
    at 2^32. *)
Definition queue (p : pipe) : list Z :=
  (λ i, pi_data p !!! pipe_slot (pi_nread p + Z.of_nat i)) <$>
    seq 0 (Z.to_nat (u32 (pi_nwrite p - pi_nread p))).

Record pipe_ok (p : pipe) : Prop := {
  po_len : length (pi_data p) = Z.to_nat PIPESIZE;
  po_nread : 0 <= pi_nread p < 4294967296;
  po_nwrite : 0 <= pi_nwrite p < 4294967296;
  po_size : u32 (pi_nwrite p - pi_nread p) <= PIPESIZE;
  po_bytes : bytes_ok (pi_data p);
}.

Lemma length_queue p : length (queue p) = Z.to_nat (u32 (pi_nwrite p - pi_nread p)).
Proof. unfold queue. by rewrite length_fmap, length_seq. Qed.

Lemma slot_lt n : (pipe_slot n < Z.to_nat PIPESIZE)%nat.
Proof. unfold pipe_slot. change PIPESIZE with 512. zlia. Qed.

Lemma slot_u32 n i : pipe_slot (u32 n + i) = pipe_slot (n + i).
Proof. unfold pipe_slot, u32. change PIPESIZE with 512. f_equal. zlia. Qed.

Lemma full_spec p : pipe_ok p → pipe_full p = bool_decide (length (queue p) = Z.to_nat PIPESIZE).
Proof.
  intros [H1 H2 H3 H4 H5]. rewrite length_queue. unfold pipe_full. change PIPESIZE with 512 in *. unfold u32 in *.
  case_bool_decide as E; [apply Z.eqb_eq|apply Z.eqb_neq]; zlia.
Qed.

Lemma empty_spec p : pipe_ok p → (pi_nread p =? pi_nwrite p) = bool_decide (queue p = []).
Proof.
  intros [H1 H2 H3 H4 H5].
  assert (queue p = [] ↔ length (queue p) = 0%nat) as E by (by destruct (queue p)).
  rewrite (bool_decide_ext _ _ E), length_queue. change PIPESIZE with 512 in *. unfold u32 in *.
  case_bool_decide as F; [apply Z.eqb_eq|apply Z.eqb_neq]; zlia.
Qed.

Lemma size_put p : pipe_ok p → pipe_full p = false →
  u32 (u32 (pi_nwrite p + 1) - pi_nread p) = u32 (pi_nwrite p - pi_nread p) + 1 ∧
  u32 (pi_nwrite p - pi_nread p) < 512.
Proof.
  intros [H1 H2 H3 H4 H5] Hf. unfold pipe_full in Hf. apply Z.eqb_neq in Hf.
  change PIPESIZE with 512 in *. unfold u32 in *. zlia.
Qed.

Lemma queue_put ch p :
  pipe_ok p → pipe_full p = false → 0 <= ch < 256 →
  queue (pipe_put ch p) = queue p ++ [ch] ∧ pipe_ok (pipe_put ch p).
Proof.
  intros Hp Hf Hch. destruct (size_put p Hp Hf) as [E Hlt]. pose proof Hp as [H1 H2 H3 H4 H5]. split.
  - unfold queue. simpl. rewrite E, Z2Nat.inj_add by (unfold u32; zlia). rewrite seq_app, fmap_app. simpl. f_equal.
    + apply list_fmap_ext. intros k i Hk. apply lookup_seq in Hk as [-> Hk]. simpl.
      apply list_lookup_total_insert_ne. unfold pipe_slot. change PIPESIZE with 512. unfold u32 in *. zlia.
    + f_equal. replace (pipe_slot (pi_nread p + _)) with (pipe_slot (pi_nwrite p)).
      * apply list_lookup_total_insert_eq. rewrite H1. apply slot_lt.
      * unfold pipe_slot. change PIPESIZE with 512. unfold u32 in *. zlia.
  - split; simpl; [by rewrite length_insert|done|unfold u32; zlia|rewrite E; change PIPESIZE with 512; lia|].
    apply Forall_insert; [done|]. apply Hch.
Qed.

Definition pipe_pop (p : pipe) : pipe := p <| pi_nread ::= λ n, u32 (n + 1) |>.

Lemma queue_pop p :
  pipe_ok p → queue p ≠ [] →
  queue p = pi_data p !!! pipe_slot (pi_nread p) :: queue (pipe_pop p) ∧ pipe_ok (pipe_pop p).
Proof.
  intros Hp Hne. pose proof Hp as [H1 H2 H3 H4 H5].
  assert (pi_nread p ≠ pi_nwrite p) as N.
  { intros E. apply Hne. unfold queue. rewrite E, Z.sub_diag. reflexivity. }
  assert (u32 (pi_nwrite p - u32 (pi_nread p + 1)) = u32 (pi_nwrite p - pi_nread p) - 1 ∧
    1 <= u32 (pi_nwrite p - pi_nread p)) as [E Hpos].
  { change PIPESIZE with 512 in *. unfold u32 in *. zlia. }
  split; [|split; simpl; try done; [unfold u32; zlia|rewrite E; lia]].
  unfold queue. simpl. rewrite E.
  replace (Z.to_nat (u32 (pi_nwrite p - pi_nread p))) with (S (Z.to_nat (u32 (pi_nwrite p - pi_nread p) - 1))) by lia.
  simpl. rewrite Z.add_0_r. f_equal. rewrite <- fmap_S_seq, <- list_fmap_compose. apply list_fmap_ext.
  intros k i _. simpl. f_equal. rewrite slot_u32. f_equal. lia.
Qed.

Section pipe_spec.
Context `{L : Layout}.
Context (pi : Z) (p : nat) (B root : Z).

(** The state with pipe [pp] at [pi]. *)
Definition with_pipe (s : kstate) (pp : pipe) : kstate := s <| k_pipes := <[pi := pp]> (k_pipes s) |>.

Lemma user_ok_pipe s pp T fl : user_ok s T fl B root p → user_ok (with_pipe s pp) T fl B root p.
Proof. intros [[H1 H2 H3 H4 H5] H6 H7 H8 H9 H10]. split; try done. Qed.

Lemma user_bound s T fl : user_ok s T fl B root p → p_sz (proc_at s p) <= B ∧ B <= MAXVA.
Proof.
  intros Hu. split; [apply Hu|]. pose proof (ow_bound _ _ _ _ (user_owns _ _ _ _ _ _ Hu)). lia.
Qed.

(** One byte to or from the process. *)
Lemma copyout_byte s T fl va ch e :
  user_ok s T fl B root p → 0 <= ch < 256 → 0 <= va < p_sz (proc_at s p) →
  (is_mapped (k_mem s) T va = true → is_writable (k_mem s) T va = true) →
  ∃ r m' h' T' fl', copyout root va [ch] s e = Ok r (with_mem s m' h') e ∧
    user_ok (with_mem s m' h') T' fl' B root p ∧ touched (k_mem s) T m' T' B va (va + 1) ∧
    ((r = 0 ∧ view m' T' va = ch) ∨ (r = -1 ∧ (length fl' <= 1)%nat)).
Proof.
  intros Hu Hch Hva Hw. unfold copyout.
  destruct (copyout_loop_view 2 s T fl B root p va [ch] e) as (r & m' & h' & T' & fl' & E & Hu' & Hto & Hr); try done.
  - by constructor; [|constructor].
  - simpl. lia.
  - lia.
  - simpl. lia.
  - intros va' Hva'. simpl in Hva'. by replace va' with va by lia.
  - exists r, m', h', T', fl'. split; [done|]. split; [done|]. split; [done|].
    destruct Hr as [[-> Hv]|Hr]; [left|by right]. split; [done|].
    destruct (Hv 0%nat ch eq_refl) as [Hv0 _]. by rewrite Z.add_0_r in Hv0.
Qed.

Lemma copyin_byte s T fl va e :
  user_ok s T fl B root p → 0 <= va < p_sz (proc_at s p) →
  (is_mapped (k_mem s) T va = true → is_user (k_mem s) T va = true) →
  ∃ bs r m' h' T' fl', copyin root va 1 s e = Ok (bs, r) (with_mem s m' h') e ∧
    user_ok (with_mem s m' h') T' fl' B root p ∧ faulted (k_mem s) T m' T' B ∧
    ((r = 0 ∧ bs = [view (k_mem s) T va]) ∨ (r = -1 ∧ (length fl' <= 1)%nat)).
Proof.
  intros Hu Hva Hw. unfold copyin.
  destruct (copyin_loop_view 2 s T fl B root p va 1 [] e) as ([bs r] & m' & h' & T' & fl' & E & Hu' & Hto & Hr); try done; try lia.
  - intros va' Hva'. by replace va' with va by lia.
  - exists bs, r, m', h', T', fl'. split; [done|]. split; [done|]. split; [done|].
    destruct Hr as [[= -> ->]|Hr]; [left|by right]. split; [done|]. unfold views. simpl. by rewrite Z.add_0_r.
Qed.

(** ** Reading *)

(** What [k] rounds of the loop of [piperead] did; no byte of the process changed
    outside [[addr, hi)]. *)
Record read_post (s : kstate) T (addr hi : Z) (pp : pipe) (k : nat) (pp' : pipe) m' h' T' fl' : Prop := {
  rp_user : user_ok (with_mem (with_pipe s pp') m' h') T' fl' B root p;
  rp_pipe : pipe_ok pp';
  rp_open : pi_writeopen pp' = pi_writeopen pp ∧ pi_readopen pp' = pi_readopen pp;
  rp_queue : queue pp = views m' T' addr k ++ queue pp';
  rp_touch : touched (k_mem s) T m' T' B addr hi;
}.

Definition read_done (s : kstate) T (addr n i : Z) (pp : pipe) (r : Z) (k : nat) (pp' : pipe) m' h' T' fl' : Prop :=
  (r = i + Z.of_nat k ∧ k = Nat.min (Z.to_nat (n - i)) (length (queue pp)) ∧
   read_post s T (addr + i) (addr + i + Z.of_nat k) pp k pp' m' h' T' fl') ∨
  ((length fl' <= 1)%nat ∧ i + Z.of_nat k < n ∧ (r = if i + Z.of_nat k =? 0 then -1 else i + Z.of_nat k) ∧
   read_post s T (addr + i) (addr + i + Z.of_nat k + 1) pp k pp' m' h' T' fl').

Lemma pipe_same s pp : k_pipes s !! pi = Some pp → with_pipe s pp = s.
Proof. intros H. unfold with_pipe. rewrite insert_id by done. by destruct s. Qed.

(** A byte read goes in front of what later rounds read. *)
Lemma read_post_step s T addr hi pp m1 h1 T1 k pp' m' h' T' fl' :
  0 <= addr < B → queue pp ≠ [] → pipe_ok pp → addr + 1 <= hi →
  view m1 T1 addr = pi_data pp !!! pipe_slot (pi_nread pp) → touched (k_mem s) T m1 T1 B addr (addr + 1) →
  read_post (with_pipe (with_mem s m1 h1) (pipe_pop pp)) T1 (addr + 1) hi (pipe_pop pp) k pp' m' h' T' fl' →
  read_post s T addr hi pp (S k) pp' m' h' T' fl'.
Proof.
  intros Ha Hq Hok Hhi Hv Ht [U P O Q Th]. destruct (queue_pop pp Hok Hq) as [E _]. split; [|done|done| |].
  - assert (with_mem (with_pipe (with_pipe (with_mem s m1 h1) (pipe_pop pp)) pp') m' h' =
      with_mem (with_pipe s pp') m' h') as <-; [|done].
    unfold with_mem, with_pipe. simpl. by rewrite insert_insert_eq.
  - rewrite E, Q. change (S k) with (1 + k)%nat. rewrite views_app. simpl. f_equal.
    rewrite <- Hv, Z.add_0_r. symmetry. apply (to_view _ _ _ _ _ _ _ Th); lia.
  - eapply (touched_trans _ _ m1 T1); [exact Ht|exact Th|lia|lia].
Qed.

Lemma read_loop fuel s T fl addr n i pp e :
  user_ok s T fl B root p → k_pipes s !! pi = Some pp → pipe_ok pp →
  0 <= i <= n → (Z.to_nat (n - i) < fuel)%nat → 0 <= addr → addr + n <= p_sz (proc_at s p) →
  (∀ va, addr + i <= va < addr + n → is_mapped (k_mem s) T va = true → is_writable (k_mem s) T va = true) →
  ∃ r k pp' m' h' T' fl',
    loop fuel (piperead_loop pi p addr n) i s e = Ok r (with_mem (with_pipe s pp') m' h') e ∧
    read_done s T addr n i pp r k pp' m' h' T' fl'.
Proof.
  revert s T fl i pp. induction fuel as [|fuel IH]; intros s T fl i pp Hu Hpp Hok Hi Hf Ha Hb Hw; [lia|].
  destruct (user_bound s T fl Hu) as [Hsz HB]. pose proof (pipe_same s pp Hpp) as Hid.
  assert (∀ hi, read_post s T (addr + i) hi pp 0 pp (k_mem s) (k_freelist s) T fl) as Hzero.
  { intros hi. split; rewrite ?Hid, ?with_mem_id; try done. apply touched_refl. }
  cbn [loop].
  assert (n <= i ∨ queue pp = [] → piperead_loop pi p addr n i s e = Ok (inr i) s e) as Hstop.
  { unfold piperead_loop, get_pipe. intros Hor. destruct (Z.leb_spec n i) as [Hle|Hlt]; [done|].
    rewrite bind_gets, (lookup_total_correct _ _ _ Hpp), empty_spec by done.
    destruct Hor as [|Hq]; [lia|]. by rewrite bool_decide_true. }
  destruct (decide (n <= i ∨ queue pp = [])) as [Hor|Hgo].
  { exists i, 0%nat, pp, (k_mem s), (k_freelist s), T, fl. rewrite Hid, with_mem_id.
    erewrite bind_Ok by (by apply Hstop). split; [done|]. left. split; [lia|]. split; [|apply Hzero].
    destruct Hor as [Hle|Hq]; [by replace (Z.to_nat (n - i)) with 0%nat by lia|rewrite Hq; simpl; lia]. }
  clear Hstop. assert (i < n ∧ queue pp ≠ []) as [Hlt Hq] by (split; [lia|tauto]). clear Hgo.
  destruct (queue_pop pp Hok Hq) as [Eq Hok1].
  set (ch := pi_data pp !!! pipe_slot (pi_nread pp)) in *.
  assert (0 <= ch < 256) as Hch.
  { apply (Forall_lookup_1 _ _ (pipe_slot (pi_nread pp)) ch (po_bytes _ Hok)).
    apply list_lookup_lookup_total_lt. rewrite (po_len _ Hok). apply slot_lt. }
  destruct (copyout_byte s T fl (addr + i) ch e) as (r1 & m1 & h1 & T1 & fl1 & E & Hu1 & Ht1 & Hr1); try done;
    [lia|apply Hw; lia|].
  assert (piperead_loop pi p addr n i s e = if r1 =? -1 then Ok (inr (if i =? 0 then -1 else i)) (with_mem s m1 h1) e
    else Ok (inl (i + 1)) (with_pipe (with_mem s m1 h1) (pipe_pop pp)) e) as Hround.
  { unfold piperead_loop, get_pipe, get_proc. rewrite (proj2 (Z.leb_gt _ _)) by done.
    rewrite bind_gets, (lookup_total_correct _ _ _ Hpp), empty_spec, bool_decide_false by done. fold ch.
    rewrite bind_gets, (uo_pt _ _ _ _ _ _ Hu).
    rewrite u64_small by (change MAXVA with 274877906944 in HB; lia). erewrite bind_Ok by exact E.
    destruct (r1 =? -1); [done|]. unfold upd_pipe. rewrite bind_modify. unfold mret, M_ret. f_equal.
    unfold with_pipe, pipe_pop. simpl. by rewrite (lookup_total_correct _ _ _ Hpp). }
  destruct Hr1 as [[-> Hv]|[-> Hfl]]; cbn [Z.eqb Pos.eqb] in Hround; rewrite (bind_Ok _ _ _ _ _ _ _ Hround).
  - set (s1 := with_pipe (with_mem s m1 h1) (pipe_pop pp)).
    destruct (IH s1 T1 fl1 (i + 1) (pipe_pop pp)) as (r & k & pp' & m' & h' & T' & fl' & Hrun & Hd); try done; try lia.
    + by apply user_ok_pipe.
    + unfold s1, with_pipe. simpl. by rewrite lookup_insert_eq.
    + intros va Hva. eapply touched_writable; [exact Ht1|lia|]. intros. apply Hw; [lia|done].
    + exists r, (S k), pp', m', h', T', fl'. split.
      { rewrite Hrun. f_equal. unfold s1, with_mem, with_pipe. simpl. by rewrite insert_insert_eq. }
      unfold read_done in Hd. replace (addr + (i + 1)) with (addr + i + 1) in Hd by lia.
      destruct Hd as [(-> & Hk & Hp)|(Hfl & Hlt' & -> & Hp)]; [left|right].
      * split; [lia|]. split; [rewrite Eq; simpl length; lia|].
        replace (addr + i + Z.of_nat (S k)) with (addr + i + 1 + Z.of_nat k) by lia.
        apply (read_post_step s T (addr + i) _ pp m1 h1 T1); [lia|done|done|lia|exact Hv|exact Ht1|exact Hp].
      * split; [done|]. split; [lia|]. replace (i + Z.of_nat (S k)) with (i + 1 + Z.of_nat k) by lia. split; [done|].
        replace (addr + i + Z.of_nat (S k) + 1) with (addr + i + 1 + Z.of_nat k + 1) by lia.
        apply (read_post_step s T (addr + i) _ pp m1 h1 T1); [lia|done|done|lia|exact Hv|exact Ht1|exact Hp].
  - exists (if i =? 0 then -1 else i), 0%nat, pp, m1, h1, T1, fl1. rewrite Hid. split; [done|].
    right. split; [done|]. split; [lia|]. rewrite Z.add_0_r. split; [done|].
    split; try done; [by rewrite Hid|]. by rewrite Z.add_0_r.
Qed.

(** ** Writing *)

(** What [k] rounds of the loop of [pipewrite] did. *)
Record write_post (s : kstate) T (addr : Z) (pp : pipe) (k : nat) (pp' : pipe) m' h' T' fl' : Prop := {
  wp_user : user_ok (with_mem (with_pipe s pp') m' h') T' fl' B root p;
  wp_pipe : pipe_ok pp';
  wp_open : pi_writeopen pp' = pi_writeopen pp ∧ pi_readopen pp' = pi_readopen pp;
  wp_queue : queue pp' = queue pp ++ views (k_mem s) T addr k;
  wp_fault : faulted (k_mem s) T m' T' B;
}.

(** The writer may write: the read end is open and the process is not killed. *)
Record may_write (s : kstate) (pp : pipe) : Prop := {
  mw_open : pi_readopen pp ≠ 0;
  mw_xwf : xwf (k_x s);
  mw_settled : settled (k_x s);
  mw_lock : lock_free (Lproc p) (k_x s);
  mw_killed : p_killed (proc_at s p) = 0;
}.

Lemma write_post_step s T addr pp m1 h1 T1 k pp' m' h' T' fl' :
  0 <= addr → addr + 1 + Z.of_nat k <= B → pipe_ok pp → pipe_full pp = false → 0 <= view (k_mem s) T addr < 256 →
  faulted (k_mem s) T m1 T1 B →
  let pp1 := pipe_put (view (k_mem s) T addr) pp in
  write_post (with_pipe (with_mem s m1 h1) pp1) T1 (addr + 1) pp1 k pp' m' h' T' fl' →
  write_post s T addr pp (S k) pp' m' h' T' fl'.
Proof.
  intros Ha HB Hok Hf Hv Ht pp1 [U P O Q Th]. destruct (queue_put _ pp Hok Hf Hv) as [E _]. split; [|done|done| |].
  - assert (with_mem (with_pipe (with_pipe (with_mem s m1 h1) pp1) pp') m' h' =
      with_mem (with_pipe s pp') m' h') as <-; [|done].
    unfold with_mem, with_pipe. simpl. by rewrite insert_insert_eq.
  - rewrite Q. unfold pp1. rewrite E, <- app_assoc. f_equal. change (S k) with (1 + k)%nat. rewrite views_app.
    simpl. rewrite Z.add_0_r. f_equal. apply list_fmap_ext. intros j i Hi. apply lookup_seq in Hi as [-> Hi].
    apply (to_view _ _ _ _ _ _ _ Ht); lia.
  - eapply (touched_trans _ _ m1 T1); [exact Ht|exact Th|lia|lia].
Qed.

Lemma view_byte s T fl va : user_ok s T fl B root p → 0 <= view (k_mem s) T va < 256.
Proof.
  intros Hu. unfold view. destruct (is_mapped _ _ _); [|lia]. unfold ubyte.
  apply ld8_range. apply (km_mem _ _ _ (ts_kmem _ _ _ _ _ (uo_spaces _ _ _ _ _ _ Hu))).
Qed.

(** Where the loop is after [k] bytes: done, or at a full pipe. *)
Definition write_done (fuel : nat) (addr n i : Z) (k : nat) (s s' : kstate) (pp' : pipe) fl' (e : env) : Prop :=
  (loop fuel (pipewrite_loop pi p addr n) i s e = Ok (i + Z.of_nat k, false) s' e ∧
   (i + Z.of_nat k = n ∨ (i + Z.of_nat k < n ∧ (length (fl' : list Z) <= 1)%nat))) ∨
  (i + Z.of_nat k < n ∧ length (queue pp') = Z.to_nat PIPESIZE ∧
   ∃ fuel', loop fuel (pipewrite_loop pi p addr n) i s e = loop (S fuel') (pipewrite_loop pi p addr n) (i + Z.of_nat k) s' e).

Lemma write_loop fuel s T fl addr n i pp e :
  user_ok s T fl B root p → k_pipes s !! pi = Some pp → pipe_ok pp → may_write s pp →
  0 <= i <= n → (Z.to_nat (n - i) < fuel)%nat → 0 <= addr → addr + n <= p_sz (proc_at s p) →
  (∀ va, addr + i <= va < addr + n → is_mapped (k_mem s) T va = true → is_user (k_mem s) T va = true) →
  ∃ k pp' m' h' T' fl', write_post s T (addr + i) pp k pp' m' h' T' fl' ∧
    write_done fuel addr n i k s (with_mem (with_pipe s pp') m' h') pp' fl' e.
Proof.
  revert s T fl i pp. induction fuel as [|fuel IH]; intros s T fl i pp Hu Hpp Hok Hw Hi Hf Ha Hb Hus; [lia|].
  destruct (user_bound s T fl Hu) as [Hsz HB]. pose proof (pipe_same s pp Hpp) as Hid.
  assert (write_post s T (addr + i) pp 0 pp (k_mem s) (k_freelist s) T fl) as Hzero.
  { split; rewrite ?Hid, ?with_mem_id; try done; [by rewrite app_nil_r|apply faulted_refl]. }
  destruct (Z.leb_spec n i) as [Hle|Hlt].
  { exists 0%nat, pp, (k_mem s), (k_freelist s), T, fl. rewrite Hid, with_mem_id. split; [done|]. left.
    split; [|left; lia]. cbn [loop]. erewrite bind_Ok.
    2:{ unfold pipewrite_loop. rewrite (proj2 (Z.leb_le _ _)) by done. reflexivity. }
    by rewrite Z.add_0_r. }
  destruct (pipe_full pp) eqn:Hfull.
  { exists 0%nat, pp, (k_mem s), (k_freelist s), T, fl. rewrite Hid, with_mem_id. split; [done|]. right.
    rewrite Z.add_0_r. split; [lia|]. split; [|by exists fuel]. rewrite full_spec in Hfull by done.
    by apply bool_decide_eq_true in Hfull. }
  destruct (copyin_byte s T fl (addr + i) e) as (bs & r1 & m1 & h1 & T1 & fl1 & E & Hu1 & Ht1 & Hr1); try done;
    [lia|apply Hus; lia|].
  assert (pipewrite_loop pi p addr n i s e = if r1 =? -1 then Ok (inr (i, false)) (with_mem s m1 h1) e
    else Ok (inl (i + 1)) (with_pipe (with_mem s m1 h1) (pipe_put (char_at bs) pp)) e) as Hround.
  { destruct Hw as [W1 W2 W3 W4 W5].
    unfold pipewrite_loop, get_pipe, get_proc. rewrite (proj2 (Z.leb_gt _ _)) by done.
    rewrite bind_gets, (lookup_total_correct _ _ _ Hpp), (proj2 (Z.eqb_neq _ _) W1).
    rewrite bind_assoc. erewrite bind_Ok by (by apply killed_ok). rewrite W5, bind_ret, Hfull. cbn [Z.eqb negb].
    rewrite bind_gets, (uo_pt _ _ _ _ _ _ Hu), u64_small by (change MAXVA with 274877906944 in HB; lia).
    erewrite bind_Ok by exact E. cbv beta iota. destruct (r1 =? -1); [done|]. unfold upd_pipe. rewrite bind_modify.
    unfold mret, M_ret. f_equal. unfold with_pipe. simpl. by rewrite (lookup_total_correct _ _ _ Hpp). }
  destruct Hr1 as [[-> ->]|[-> Hfl]]; cbn [Z.eqb Pos.eqb char_at] in Hround.
  - set (ch := view (k_mem s) T (addr + i)) in *. pose proof (view_byte s T fl (addr + i) Hu) as Hch. fold ch in Hch.
    destruct (queue_put ch pp Hok Hfull Hch) as [Eq Hok1].
    set (s1 := with_pipe (with_mem s m1 h1) (pipe_put ch pp)) in *.
    destruct (IH s1 T1 fl1 (i + 1) (pipe_put ch pp)) as (k & pp' & m' & h' & T' & fl' & Hp & Hd); try done; try lia.
    + by apply user_ok_pipe.
    + unfold s1, with_pipe. simpl. by rewrite lookup_insert_eq.
    + by destruct Hw.
    + intros va Hva. eapply touched_user; [exact Ht1|lia|]. intros. apply Hus; [lia|done].
    + replace (addr + (i + 1)) with (addr + i + 1) in Hp by lia.
      assert (with_mem (with_pipe s1 pp') m' h' = with_mem (with_pipe s pp') m' h') as Es.
      { unfold s1, with_mem, with_pipe. simpl. by rewrite insert_insert_eq. }
      exists (S k), pp', m', h', T', fl'. unfold write_done in *. rewrite Es in Hd.
      replace (i + 1 + Z.of_nat k) with (i + Z.of_nat (S k)) in Hd by lia.
      cbn [loop]. rewrite (bind_Ok _ _ _ _ _ _ _ Hround). split; [|exact Hd].
      apply (write_post_step s T (addr + i) pp m1 h1 T1); try done; [lia|].
      destruct Hd as [[_ Hd]|[Hd _]]; lia.
  - exists 0%nat, pp, m1, h1, T1, fl1. rewrite Hid. split.
    + split; rewrite ?Hid; try done. by rewrite app_nil_r.
    + left. cbn [loop]. rewrite (bind_Ok _ _ _ _ _ _ _ Hround), Z.add_0_r. split; [done|]. right. split; [lia|done].
Qed.

(** ** The system calls' side *)

(** Process [p] calls with the pipe [pp] at [pi]; nobody is inside the pipe. *)
Record pipe_user (s : kstate) T (fl : list Z) (pp : pipe) : Prop := {
  pu_calm : calm s p;
  pu_lock : lock_free (Lpipe pi) (k_x s);
  pu_user : user_ok s T fl B root p;
  pu_pipe : k_pipes s !! pi = Some pp;
  pu_ok : pipe_ok pp;
}.

Definition inside (s : kstate) : kstate := s <| k_x := acquired (Lpipe pi) (k_x s) |>.

Lemma user_ok_inside s T fl : calm s p → user_ok s T fl B root p → user_ok (inside s) T fl B root p.
Proof.
  intros Hc [[H1 H2 H3 H4 H5] H6 H7 H8 H9 H10]. pose proof (ca_xwf _ _ Hc) as W. split; try done.
  - split; try done. split; simpl; [by apply xwf_acquired|by apply acquired_settled|].
    apply lock_free_acquired; [done|]. apply (ca_locks _ _ Hc). done.
  - unfold inside. simpl. by rewrite acquired_proc.
Qed.

Lemma user_ok_x s x T fl :
  user_ok s T fl B root p → kready x → c_proc (this_cpu x) = Some p → user_ok (s <| k_x := x |>) T fl B root p.
Proof. intros [[H1 H2 H3 H4 H5] H6 H7 H8 H9 H10] Hk Hx. split; [split|..]; assumption. Qed.

Lemma inside_wakeup s s' chan e :
  calm s p → k_x s' = acquired (Lpipe pi) (k_x s) → k_procs s' = k_procs s →
  wakeup chan s' e = Ok tt (s' <| k_procs := wake chan (Some p) (k_procs s) |>) e.
Proof. intros Hc Hx Hp. rewrite (calm_wakeup s s' p (Lpipe pi)); rewrite ?Hp; try done. apply Hc. Qed.

Lemma inside_release s s' e :
  calm s p → lock_free (Lpipe pi) (k_x s) → k_x s' = acquired (Lpipe pi) (k_x s) →
  release (Lpipe pi) s' e = Ok tt (s' <| k_x := k_x s |>) e.
Proof.
  intros Hc Hl Hx. rewrite (release_after (Lpipe pi) s' (k_x s)) by (done || apply Hc). by rewrite (ca_settled _ _ Hc).
Qed.

(** The end of both calls. *)
Lemma pipe_leave {A} s s' chan (r : A) e :
  calm s p → lock_free (Lpipe pi) (k_x s) → k_x s' = acquired (Lpipe pi) (k_x s) → k_procs s' = k_procs s →
  (wakeup chan;; release (Lpipe pi);; mret r) s' e =
    Ok r (s' <| k_procs := wake chan (Some p) (k_procs s) |> <| k_x := k_x s |>) e.
Proof.
  intros Hc Hl Hx Hp. erewrite bind_Ok by (by apply (inside_wakeup s)).
  by erewrite bind_Ok by (by apply (inside_release s)).
Qed.

(** The state a call returns with. *)
Definition pipe_after (s : kstate) (pp' : pipe) m' h' (chan : channel) : kstate :=
  (with_mem (with_pipe s pp') m' h') <| k_procs := wake chan (Some p) (k_procs s) |>.

Lemma pipe_after_eq s pp' m' h' chan :
  (with_mem (with_pipe (inside s) pp') m' h') <| k_procs := wake chan (Some p) (k_procs (inside s)) |> <| k_x := k_x s |> =
  pipe_after s pp' m' h' chan.
Proof. by destruct s. Qed.

Lemma user_ok_leave s pp' m' h' T' fl' chan :
  calm s p → user_ok (with_mem (with_pipe (inside s) pp') m' h') T' fl' B root p →
  user_ok (pipe_after s pp' m' h' chan) T' fl' B root p.
Proof.
  intros Hc Hu. apply (user_ok_x _ (k_x s)) in Hu; [|split; try apply Hc; done|apply Hc].
  destruct Hu as [[H1 H2 H3 H4 H5] H6 H7 H8 H9 H10].
  assert (proc_at (pipe_after s pp' m' h' chan) p = proc_at s p) as E by apply same_proc_wake.
  split; try done; rewrite ?E; done.
Qed.

(** The caller may go to sleep with the lock of the pipe. *)
Lemma inside_can_sleep s s' :
  calm s p → lock_free (Lpipe pi) (k_x s) → k_x s' = acquired (Lpipe pi) (k_x s) → length (k_procs s') = NPROC →
  can_sleep s' (k_x s) p (Lpipe pi).
Proof.
  intros Hc Hl Hx Hlen. destruct Hc as [H1 H2 H3 H4 H5 H6 H7 H8]. split; try done; [by rewrite Hlen|by apply H8].
Qed.

Lemma inside_killed s s' e :
  calm s p → k_x s' = acquired (Lpipe pi) (k_x s) → killed p s' e = Ok (p_killed (proc_at s' p)) s' e.
Proof.
  intros Hc Hx. pose proof (ca_xwf _ _ Hc). apply killed_ok; rewrite Hx.
  - by apply xwf_acquired.
  - by apply acquired_settled.
  - apply lock_free_acquired; [done|]. apply (ca_locks _ _ Hc). exact (ca_p _ _ Hc).
Qed.

(** What [p] looks like when it sleeps on [chan]. *)
Definition waits_on (chan : channel) (sw : kstate) : Prop :=
  p_state (proc_at sw p) = SLEEPING ∧ p_chan (proc_at sw p) = Some chan ∧ lock_free (Lpipe pi) (k_x sw).

Lemma asleep_waits s s' chan :
  calm s p → lock_free (Lpipe pi) (k_x s) → length (k_procs s') = NPROC → waits_on chan (asleep s' (k_x s) p chan).
Proof.
  intros Hc Hl Hlen. unfold waits_on.
  assert (proc_at (asleep s' (k_x s) p chan) p = (proc_at s' p) <| p_chan := Some chan |> <| p_state := SLEEPING |>) as ->.
  { unfold asleep, proc_at. simpl. apply list_lookup_total_insert_eq. rewrite Hlen. exact (ca_p _ _ Hc). }
  split; [done|]. split; [done|]. by apply lock_free_acquired.
Qed.

Lemma pipe_enter s T fl pp e :
  pipe_user s T fl pp → curproc s e = Ok p s e ∧ acquire (Lpipe pi) s e = Ok tt (inside s) e.
Proof.
  intros [Hc Hl Hu Hpp Hok]. split; [by eapply curproc_ok|]. apply acquire_ok; [exact (ca_xwf _ _ Hc)|done].
Qed.

(** The wait of [piperead]: over at once when there is data or no writer. *)
Lemma pipe_wait_ready s pp e :
  k_pipes s !! pi = Some pp → pipe_ok pp → queue pp ≠ [] ∨ pi_writeopen pp = 0 →
  pipe_wait pi p s e = Ok true s e.
Proof.
  intros Hpp Hok Hor. apply wait_loop_now. unfold get_pipe.
  rewrite bind_gets, (lookup_total_correct _ _ _ Hpp), empty_spec by done.
  destruct Hor as [Hq|Hq]; [by rewrite bool_decide_false|]. rewrite Hq, Z.eqb_refl, andb_false_r. done.
Qed.

Lemma pipe_wait_empty s s' pp e :
  calm s p → lock_free (Lpipe pi) (k_x s) → k_x s' = acquired (Lpipe pi) (k_x s) → length (k_procs s') = NPROC →
  k_pipes s' !! pi = Some pp → pipe_ok pp → queue pp = [] → pi_writeopen pp ≠ 0 →
  (p_killed (proc_at s' p) ≠ 0 → pipe_wait pi p s' e = Ok false s' e) ∧
  (p_killed (proc_at s' p) = 0 → pipe_wait pi p s' [] = Stuck (asleep s' (k_x s) p (ChPipeRead pi))).
Proof.
  intros Hc Hl Hx Hlen Hpp Hok Hq Ho. unfold pipe_wait, get_pipe.
  split; intros Hk; [apply wait_loop_now|apply wait_loop_stuck];
    rewrite bind_gets, (lookup_total_correct _ _ _ Hpp), empty_spec, bool_decide_true, (proj2 (Z.eqb_neq _ _) Ho) by done;
    cbn [andb negb]; erewrite bind_Ok by (by apply (inside_killed s)).
  - by rewrite (proj2 (Z.eqb_neq _ _) Hk).
  - rewrite Hk. cbn [Z.eqb negb]. apply bind_Stuck. apply sleep_stuck. by apply inside_can_sleep.
Qed.

(** The round of [pipewrite] at a full pipe. *)
Lemma write_full s s' pp addr n i fuel :
  calm s p → lock_free (Lpipe pi) (k_x s) → k_x s' = acquired (Lpipe pi) (k_x s) → k_procs s' = k_procs s →
  k_pipes s' !! pi = Some pp → pipe_ok pp → length (queue pp) = Z.to_nat PIPESIZE →
  pi_readopen pp ≠ 0 → p_killed (proc_at s p) = 0 → i < n →
  loop (S fuel) (pipewrite_loop pi p addr n) i s' [] =
    Stuck (asleep (s' <| k_procs := wake (ChPipeRead pi) (Some p) (k_procs s) |>) (k_x s) p (ChPipeWrite pi)).
Proof.
  intros Hc Hl Hx Hps Hpp Hok Hq Ho Hk Hi. cbn [loop]. apply bind_Stuck. unfold pipewrite_loop, get_pipe.
  rewrite (proj2 (Z.leb_gt _ _)) by done.
  rewrite bind_gets, (lookup_total_correct _ _ _ Hpp), (proj2 (Z.eqb_neq _ _) Ho), bind_assoc.
  erewrite bind_Ok by (by apply (inside_killed s)).
  assert (proc_at s' p = proc_at s p) as -> by (unfold proc_at; by rewrite Hps).
  rewrite Hk, bind_ret, full_spec, bool_decide_true by done. cbn [Z.eqb negb].
  erewrite bind_Ok by (by apply (inside_wakeup s)). apply bind_Stuck, sleep_stuck, inside_can_sleep; try done.
  simpl. rewrite length_wake. apply Hc.
Qed.

(** ** Properties *)

(** The process can have [n] bytes written at [addr], or read from there. *)
Definition buffer_ok (perm : memory → gmap (list Z) Z → Z → bool) (s : kstate) T (addr n : Z) : Prop :=
  0 <= n ∧ 0 <= addr ∧ addr + n <= p_sz (proc_at s p) ∧
  ∀ va, addr <= va < addr + n → is_mapped (k_mem s) T va = true → perm (k_mem s) T va = true.

(** What [piperead] gives when it does not wait: [k] bytes left the queue for the
    process, all that were asked for and there, fewer only when memory ran out. *)
Definition read_result (s : kstate) T (addr n : Z) (pp : pipe) (o : outcome kstate Z) (e : env) : Prop :=
  ∃ r k pp' m' h' T' fl',
    o = Ok r (pipe_after s pp' m' h' (ChPipeWrite pi)) e ∧
    user_ok (pipe_after s pp' m' h' (ChPipeWrite pi)) T' fl' B root p ∧
    pipe_ok pp' ∧ queue pp = views m' T' addr k ++ queue pp' ∧
    ((r = Z.of_nat k ∧ k = Nat.min (Z.to_nat n) (length (queue pp)) ∧
      touched (k_mem s) T m' T' B addr (addr + Z.of_nat k)) ∨
     (Z.of_nat k < n ∧ (r = if Z.of_nat k =? 0 then -1 else Z.of_nat k) ∧ (length fl' <= 1)%nat ∧
      touched (k_mem s) T m' T' B addr (addr + Z.of_nat k + 1))).

Lemma piperead_ready s T fl pp addr n e :
  pipe_user s T fl pp → buffer_ok is_writable s T addr n → queue pp ≠ [] ∨ pi_writeopen pp = 0 →
  read_result s T addr n pp (piperead pi addr n s e) e.
Proof.
  intros Hp (Hn & Ha & Hb & Hw) Hor. destruct (pipe_enter s T fl pp e Hp) as [E1 E2].
  destruct Hp as [Hc Hl Hu Hpp Hok]. pose proof (user_ok_inside s T fl Hc Hu) as Hu1.
  destruct (read_loop (S (Z.to_nat n)) (inside s) T fl addr n 0 pp e)
    as (r & k & pp' & m' & h' & T' & fl' & E3 & Hd); try done; try lia; [intros va Hva; apply Hw; lia|].
  unfold read_done in Hd. rewrite !Z.add_0_l, !Z.add_0_r, Z.sub_0_r in Hd.
  exists r, k, pp', m', h', T', fl'. split.
  { unfold piperead. erewrite bind_Ok by exact E1. erewrite bind_Ok by exact E2.
    erewrite bind_Ok by (by apply (pipe_wait_ready _ pp)). cbn [negb]. erewrite bind_Ok by exact E3.
    rewrite (pipe_leave s) by done. by rewrite pipe_after_eq. }
  assert (∃ hi, read_post (inside s) T addr hi pp k pp' m' h' T' fl') as [hi [R1 R2 R3 R4 R5]].
  { destruct Hd as [(_ & _ & Hd)|(_ & _ & _ & Hd)]; by eexists. }
  split; [by apply user_ok_leave|]. split; [done|]. split; [done|].
  destruct Hd as [(-> & Hk & [])|(Hfl & Hlt & -> & [])]; [by left|by right].
Qed.

(** C12: [piperead] is a FIFO's dequeue.  With data in the pipe, or with the write
    end closed, it moves the oldest bytes of the queue, as many as were asked for
    and are there, to the process's buffer and returns their number, 0 at end of
    file; only with memory exhausted does it move fewer (-1 for none).  The rest of
    the queue stays in order.  With an empty pipe that still has a writer it sleeps
    on the pipe's read channel and leaves the lock free, and a killed process gets
    -1 and changes nothing. *)
Theorem piperead_dequeues s T fl pp addr n :
  pipe_user s T fl pp → buffer_ok is_writable s T addr n →
  (queue pp ≠ [] ∨ pi_writeopen pp = 0 → ∀ e, read_result s T addr n pp (piperead pi addr n s e) e) ∧
  (queue pp = [] ∧ pi_writeopen pp ≠ 0 →
     (p_killed (proc_at s p) ≠ 0 → ∀ e, piperead pi addr n s e = Ok (-1) s e) ∧
     (p_killed (proc_at s p) = 0 →
        ∃ sw, piperead pi addr n s [] = Stuck sw ∧ waits_on (ChPipeRead pi) sw ∧ k_pipes sw = k_pipes s)).
Proof.
  intros Hp Hb. split; [intros Hor e; by eapply piperead_ready|]. intros [Hq Ho].
  pose proof Hp as [Hc Hl Hu Hpp Hok].
  assert (length (k_procs (inside s)) = NPROC) as Hlen by (simpl; apply Hc).
  split; intros Hk.
  - intros e. destruct (pipe_enter s T fl pp e Hp) as [E1 E2].
    destruct (pipe_wait_empty s (inside s) pp e) as [Hw _]; try done.
    unfold piperead. erewrite bind_Ok by exact E1. erewrite bind_Ok by exact E2. erewrite bind_Ok by (by apply Hw).
    cbn [negb]. erewrite bind_Ok by (by apply (inside_release s)). unfold mret, M_ret. f_equal. by destruct s.
  - destruct (pipe_enter s T fl pp [] Hp) as [E1 E2].
    destruct (pipe_wait_empty s (inside s) pp []) as [_ Hw]; try done.
    exists (asleep (inside s) (k_x s) p (ChPipeRead pi)). split; [|split; [by apply asleep_waits|done]].
    unfold piperead. erewrite bind_Ok by exact E1. erewrite bind_Ok by exact E2. apply bind_Stuck. by apply Hw.
Qed.

(** What [pipewrite] does while nobody else runs: [k] bytes of the process were
    queued; all [n] of them, fewer only when memory ran out or the pipe is full,
    and then the writer waits. *)
Definition write_result (s : kstate) T (addr n : Z) (pp : pipe) (o : outcome kstate Z) (e : env) : Prop :=
  ∃ k pp' m' h' T' fl',
    pipe_ok pp' ∧ queue pp' = queue pp ++ views (k_mem s) T addr k ∧ faulted (k_mem s) T m' T' B ∧
    ((o = Ok (Z.of_nat k) (pipe_after s pp' m' h' (ChPipeRead pi)) e ∧
      user_ok (pipe_after s pp' m' h' (ChPipeRead pi)) T' fl' B root p ∧
      (Z.of_nat k = n ∨ (Z.of_nat k < n ∧ (length fl' <= 1)%nat))) ∨
     (Z.of_nat k < n ∧ length (queue pp') = Z.to_nat PIPESIZE ∧
      (e = [] → ∃ sw, o = Stuck sw ∧ waits_on (ChPipeWrite pi) sw ∧ k_pipes sw !! pi = Some pp' ∧
                      ∀ q, q ≠ p → proc_at sw q = wake (ChPipeRead pi) (Some p) (k_procs s) !!! q))).

Lemma pipewrite_open s T fl pp addr n e :
  pipe_user s T fl pp → buffer_ok is_user s T addr n → pi_readopen pp ≠ 0 → p_killed (proc_at s p) = 0 →
  write_result s T addr n pp (pipewrite pi addr n s e) e.
Proof.
  intros Hp (Hn & Ha & Hb & Hw) Ho Hk. destruct (pipe_enter s T fl pp e Hp) as [E1 E2].
  destruct Hp as [Hc Hl Hu Hpp Hok]. pose proof (user_ok_inside s T fl Hc Hu) as Hu1.
  pose proof (ca_xwf _ _ Hc) as W.
  destruct (write_loop (S (Z.to_nat n + length e)) (inside s) T fl addr n 0 pp e)
    as (k & pp' & m' & h' & T' & fl' & [W1 W2 W3 W4 W5] & Hd); try done; try lia.
  { split; [done|by apply xwf_acquired|by apply acquired_settled| |done].
    apply lock_free_acquired; [done|]. apply (ca_locks _ _ Hc). exact (ca_p _ _ Hc). }
  { intros va Hva. apply Hw. lia. }
  rewrite Z.add_0_r in W4. exists k, pp', m', h', T', fl'. split; [done|]. split; [done|]. split; [done|].
  unfold write_done in Hd. rewrite !Z.add_0_l in Hd. unfold pipewrite.
  erewrite bind_Ok by exact E1. erewrite bind_Ok by exact E2.
  destruct Hd as [[E3 Hkn]|(Hkn & Hq & fuel & E3)]; [left|right].
  - unfold loop_wait. erewrite bind_Ok by exact E3. cbv beta iota. rewrite (pipe_leave s) by done.
    rewrite pipe_after_eq. split; [done|]. split; [by apply user_ok_leave|done].
  - split; [done|]. split; [done|]. intros ->.
    set (s1 := with_mem (with_pipe (inside s) pp') m' h') in *.
    eexists. split; [apply bind_Stuck; unfold loop_wait; rewrite E3; eapply (write_full s); try done|].
    + unfold s1, with_pipe. simpl. by rewrite lookup_insert_eq.
    + destruct W3 as [_ ->]. done.
    + split; [apply asleep_waits; try done; simpl; rewrite length_wake; apply Hc|].
      split; [unfold s1, with_pipe; simpl; by rewrite lookup_insert_eq|].
      intros q Nq. unfold asleep, proc_at. simpl. by rewrite list_lookup_total_insert_ne.
Qed.

Lemma pipewrite_closed s T fl pp addr n e :
  pipe_user s T fl pp → 0 < n → pi_readopen pp = 0 ∨ p_killed (proc_at s p) ≠ 0 →
  pipewrite pi addr n s e = Ok (-1) s e.
Proof.
  intros Hp Hn Hor. destruct (pipe_enter s T fl pp e Hp) as [E1 E2]. destruct Hp as [Hc Hl Hu Hpp Hok].
  unfold pipewrite. erewrite bind_Ok by exact E1. erewrite bind_Ok by exact E2.
  assert (pipewrite_loop pi p addr n 0 (inside s) e = Ok (inr (-1, true)) s e) as Hround.
  { unfold pipewrite_loop, get_pipe. rewrite (proj2 (Z.leb_gt _ _)) by done.
    rewrite bind_gets, (lookup_total_correct _ _ _ Hpp).
    assert ((if pi_readopen pp =? 0 then mret true else k ← killed p; mret (negb (k =? 0))) (inside s) e =
      Ok true (inside s) e) as Hs.
    { destruct (Z.eqb_spec (pi_readopen pp) 0) as [|No]; [done|]. destruct Hor as [|Hk]; [done|].
      erewrite bind_Ok by (by apply (inside_killed s)).
      change (proc_at (inside s) p) with (proc_at s p). by rewrite (proj2 (Z.eqb_neq _ _) Hk). }
    erewrite bind_Ok by exact Hs. cbv beta iota. erewrite bind_Ok by (by apply (inside_release s)).
    unfold mret, M_ret. f_equal. by destruct s. }
  assert (loop_wait (Z.to_nat n) (pipewrite_loop pi p addr n) 0 (inside s) e = Ok (-1, true) s e) as Hrun.
  { unfold loop_wait. cbn [loop]. by rewrite (bind_Ok _ _ _ _ _ _ _ Hround). }
  by rewrite (bind_Ok _ _ _ _ _ _ _ Hrun).
Qed.

(** C11: [pipewrite] is a FIFO's enqueue that never overwrites unread data.  With the
    read end open it appends the process's bytes to the queue in order, until all
    are queued (then it returns their number) or memory ran out (then the number
    queued so far) or the 512 bytes of the pipe are in use; a writer at a full pipe
    has woken the readers and sleeps on the write channel with the lock free.  With
    the read end closed, or killed, it returns -1 and changes nothing. *)
Theorem pipewrite_enqueues s T fl pp addr n e :
  pipe_user s T fl pp → buffer_ok is_user s T addr n →
  (pi_readopen pp ≠ 0 ∧ p_killed (proc_at s p) = 0 → write_result s T addr n pp (pipewrite pi addr n s e) e) ∧
  (0 < n ∧ (pi_readopen pp = 0 ∨ p_killed (proc_at s p) ≠ 0) → pipewrite pi addr n s e = Ok (-1) s e).
Proof.
  intros Hp Hb. split; [intros [Ho Hk]; by eapply pipewrite_open|intros [Hn Hor]; by eapply pipewrite_closed].
Qed.

End pipe_spec.

(** ** A machine with a pipe *)

#[local] Existing Instance layout0.

(** Process 0 of [toy] runs, and has a pipe of three bytes, the last at index 0. *)
Definition piped_page : Z := toy_page 4.
Definition piped_pipe : pipe :=
  mk_pipe (<[0%nat := 13]> (<[510%nat := 11]> (<[511%nat := 12]> (replicate 512 0)))) 4294967294 1 1 1.
Definition piped : kstate :=
  toy <| k_x := (k_x quiet) <| x_locks ::= <[Lpipe piped_page := mk_spinlock 0 "pipe" None]> |> |>
      <| k_procs ::= <[0%nat := proc0 <| p_state := RUNNING |> <| p_pagetable := toy_page 0 |> <| p_sz := 8192 |>]> |>
      <| k_pipes := {[piped_page := piped_pipe]} |>.

Lemma piped_calm : calm piped 0.
Proof.
  destruct quiet_calm as [H1 H2 H3 H4 H5 H6 H7 H8].
  split; [|by apply settled_locks|reflexivity|reflexivity|exact H5|reflexivity|split; reflexivity|].
  - split; vm_compute; (lia || discriminate).
  - intros lk Hlk. destruct (H8 lk Hlk) as [name E]. exists name.
    change (<[Lpipe piped_page := mk_spinlock 0 "pipe" None]> quiet_locks !! lk = Some (mk_spinlock 0 name None)).
    rewrite lookup_insert_ne; [exact E|]. by intros <-.
Qed.

Lemma piped_user : user_ok piped toy_table toy_free 8192 (toy_page 0) 0.
Proof.
  destruct toy_user as [[H1 H2 H3 H4 H5] H6 H7 H8 H9 H10].
  split; [split; [|assumption..]|assumption|reflexivity|reflexivity|by vm_compute|assumption].
  destruct piped_calm as [C1 C2 C3 C4 C5 C6 C7 C8]. split; [exact C1|exact C2|by apply C8].
Qed.

Lemma piped_ok : pipe_user piped_page 0 8192 (toy_page 0) piped toy_table toy_free piped_pipe.
Proof.
  split; [apply piped_calm|by eexists|apply piped_user|reflexivity|].
  split; [reflexivity|by vm_compute|by vm_compute|by vm_compute|]. apply (bool_decide_unpack _). by vm_compute.
Qed.

Lemma piped_buffer perm n :
  (perm = is_writable ∨ perm = is_user) → 0 <= n <= 8192 → buffer_ok 0 perm piped toy_table 0 n.
Proof.
  intros Hperm Hn. split; [lia|]. split; [lia|]. split; [change (p_sz (proc_at piped 0)) with 8192; lia|].
  intros va Hva Hm. destruct Hperm as [->| ->]; [|apply is_writable_user]; (apply toy_writable; [lia|done]).
Qed.

Lemma piperead_dequeues_witness :
  queue piped_pipe = [11; 12; 13] ∧
  read_result piped_page 0 8192 (toy_page 0) piped toy_table 0 2 piped_pipe (piperead piped_page 0 2 piped []) [].
Proof.
  split; [vm_compute; reflexivity|].
  apply (piperead_dequeues piped_page 0 8192 (toy_page 0) piped toy_table toy_free piped_pipe 0 2);
    [apply piped_ok|apply piped_buffer; [by left|lia]|left; vm_compute; discriminate].
Defined.

(** 600 bytes do not fit. *)
Lemma pipewrite_enqueues_witness :
  write_result piped_page 0 8192 (toy_page 0) piped toy_table 0 600 piped_pipe (pipewrite piped_page 0 600 piped []) [].
Proof.
  apply (pipewrite_enqueues piped_page 0 8192 (toy_page 0) piped toy_table toy_free piped_pipe 0 600 []);
    [apply piped_ok|apply piped_buffer; [by right|lia]|by split].
Defined.
