(* ===== verification/File.v ===== *)
(** The open-file table: kernel/file.c, and [pipealloc] of kernel/pipe.c. *)

From S2P Require Export Pipe Console.

Definition get_file (f : nat) : K file := gets (λ s, file_at s f).

Definition fileinit : K unit := initlock Lftable "ftable".

Definition filealloc : K (option nat) :=
  acquire Lftable;;
  r ← for_break NFILE 0 (λ f,
    x ← get_file f;
    if f_ref x =? 0 then
      upd_file f (λ x, x <| f_ref := 1 |>);;
      release Lftable;;
      mret (Some f)
    else mret None);
  match r with
  | Some f => mret (Some f)
  | None => release Lftable;; mret None
  end.

Definition filedup (f : nat) : K nat :=
  acquire Lftable;;
  x ← get_file f;
  if f_ref x <? 1 then panic "filedup" else
  upd_file f (λ x, x <| f_ref ::= λ n, n + 1 |>);;
  release Lftable;;
  mret f.

Section file.
Context `{L : Layout}.

(** A null inode pointer in a file faults when it is used. *)
Definition file_ip (f : file) : K nat :=
  match f_ip f with Some ip => mret ip | None => panic "kerneltrap" end.

Definition fileclose (f : nat) : K unit :=
  acquire Lftable;;
  x ← get_file f;
  if f_ref x <? 1 then panic "fileclose" else
  upd_file f (λ x, x <| f_ref ::= λ n, n - 1 |>);;
  ff ← get_file f;
  if 0 <? f_ref ff then release Lftable else
  upd_file f (λ x, x <| f_ref := 0 |>);;
  upd_file f (λ x, x <| f_type := FD_NONE |>);;
  release Lftable;;
  match f_type ff with
  | FD_PIPE => pipeclose (f_pipe ff) (negb (f_writable ff =? 0))
  | FD_INODE | FD_DEVICE =>
      begin_op;;
      ip ← file_ip ff;
      iput ip;;
      end_op
  | FD_NONE => mret ()
  end.

(** The offset of the local [st] of [filestat] in the stack page. *)
Definition KS_filestat_st : Z := 32.

Definition filestat (f : nat) (addr : Z) : K Z :=
  p ← curproc;
  x ← get_file f;
  match f_type x with
  | FD_INODE | FD_DEVICE =>
      ilock (f_ip x);;
      st ← kstack_var KS_filestat_st;
      ip ← file_ip x;
      stati ip st;;
      iunlock (f_ip x);;
      pr ← get_proc p;
      bs ← gets (λ s, ldn (k_mem s) st (Z.to_nat sizeof_stat));
      r ← copyout (p_pagetable pr) addr bs;
      if r <? 0 then mret (-1) else mret 0
  | _ => mret (-1)
  end.

(** The entry of [devsw] for a major number, [None] out of range. *)
Definition dev_entry (major : Z) : K (option devsw_t) :=
  if (major <? 0) || (NDEV <=? major) then mret None
  else t ← gets k_devsw; mret (Some (t !!! Z.to_nat major)).

Definition call_dev (d : devfun) (user : bool) (addr n : Z) : K Z :=
  match d with
  | Fconsoleread => consoleread user addr n
  | Fconsolewrite => consolewrite user addr n
  end.

Definition fileread (f : nat) (addr n : Z) : K Z :=
  x ← get_file f;
  if f_readable x =? 0 then mret (-1) else
  match f_type x with
  | FD_PIPE => piperead (f_pipe x) addr n
  | FD_DEVICE =>
      d ← dev_entry (f_major x);
      match d ≫= ds_read with
      | Some d => call_dev d true addr n
      | None => mret (-1)
      end
  | FD_INODE =>
      ilock (f_ip x);;
      x ← get_file f;
      ip ← file_ip x;
      r ← readi ip true addr (f_off x) (u32 n);
      when (0 <? r) (upd_file f (λ x, x <| f_off ::= λ o, u32 (o + r) |>));;
      iunlock (f_ip x);;
      mret r
  | FD_NONE => panic "fileread"
  end.

(** [((MAXOPBLOCKS-1-1-2) / 2) * BSIZE] *)
Definition filewrite_max : Z := (MAXOPBLOCKS - 1 - 1 - 2) / 2 * BSIZE.

(** A round of the loop of [filewrite]; it leaves with [i]. *)
Definition filewrite_loop (f : nat) (addr n : Z) (i : Z) : K (Z + Z) :=
  if n <=? i then mret (inr i) else
  let n1 := Z.min (n - i) filewrite_max in
  begin_op;;
  x ← get_file f;
  ilock (f_ip x);;
  x ← get_file f;
  ip ← file_ip x;
  r ← writei ip true (u64 (addr + i)) (f_off x) n1;
  when (0 <? r) (upd_file f (λ x, x <| f_off ::= λ o, u32 (o + r) |>));;
  iunlock (f_ip x);;
  end_op;;
  if negb (r =? n1) then mret (inr i) else mret (inl (i + r)).

Definition filewrite (f : nat) (addr n : Z) : K Z :=
  x ← get_file f;
  if f_writable x =? 0 then mret (-1) else
  match f_type x with
  | FD_PIPE => pipewrite (f_pipe x) addr n
  | FD_DEVICE =>
      d ← dev_entry (f_major x);
      match d ≫= ds_write with
      | Some d => call_dev d true addr n
      | None => mret (-1)
      end
  | FD_INODE =>
      i ← loop (S (Z.to_nat n)) (filewrite_loop f addr n) 0;
      mret (if i =? n then n else -1)
  | FD_NONE => panic "filewrite"
  end.

(** ** pipealloc *)

(** The bytes of a fresh page are what [kalloc] left there. *)
Definition pipe_at_alloc (m : memory) (pi : Z) : pipe :=
  mk_pipe (ldn m (pi + 24) (Z.to_nat PIPESIZE)) 0 0 1 1.

(** The code at [bad:], which [pipealloc] reaches only with [pi == 0]. *)
Definition pipealloc_bad (f0 f1 : option nat) : K (option (nat * nat)) :=
  match f0 with Some f => fileclose f | None => mret () end;;
  match f1 with Some f => fileclose f | None => mret () end;;
  mret None.

(** The two files on success; [None] is the return value -1. *)
Definition pipealloc : K (option (nat * nat)) :=
  f0 ← filealloc;
  match f0 with
  | None => pipealloc_bad None None
  | Some i0 =>
      f1 ← filealloc;
      match f1 with
      | None => pipealloc_bad (Some i0) None
      | Some i1 =>
          pi ← kalloc;
          if pi =? 0 then pipealloc_bad (Some i0) (Some i1) else
          modify (λ s, s <| k_pipes := <[pi := pipe_at_alloc (k_mem s) pi]> (k_pipes s) |>);;
          initlock (Lpipe pi) "pipe";;
          upd_file i0 (λ x, x <| f_type := FD_PIPE |> <| f_readable := 1 |>
                              <| f_writable := 0 |> <| f_pipe := pi |>);;
          upd_file i1 (λ x, x <| f_type := FD_PIPE |> <| f_readable := 0 |>
                              <| f_writable := 1 |> <| f_pipe := pi |>);;
          mret (Some (i0, i1))
      end
  end.

End file.
