(* ===== verification/FileSpec.v ===== *)
(** Reading an open file: [fileread] of File.v on an inode, into the memory of
    the process. *)

From S2P Require Export NameSpec AddressSpace File.

Section user_read.
Context `{L : Layout} `{V : VirtioDevice}.
Context (p : nat) (B root dst : Z).

Notation cache := (cache p).
Notation cwp := (cwp p).

(** ** The process's memory as a destination *)

(** The process may be given what it does not have yet. *)
Lemma user_ok_ext s s' T fl :
  user_ok s T fl B root p → k_mem s' = k_mem s → k_freelist s' = k_freelist s → k_x s' = k_x s → proc_at s' p = proc_at s p →
  user_ok s' T fl B root p.
Proof.
  intros [[A1 A2 A3 A4 A5] H2 H3 H4 H5 H6] Em Ef Ex Ep. split; rewrite ?Ex, ?Ep; try done. split; rewrite ?Em, ?Ef, ?Ex; done.
Qed.

Section sink.
(** The memory before, and the number of bytes that are asked for. *)
Context (m0 : memory) (T0 : gmap (list Z) Z) (sz : Z) (room : nat).
Context (Hdst : 0 <= dst) (Hroom : dst + Z.of_nat room <= sz) (Hsz : sz <= B).
Context (Hw : ∀ va, dst <= va < dst + Z.of_nat room → is_mapped m0 T0 va = true → is_writable m0 T0 va = true).

Definition user_sink (s : kstate) (got : list Z) : Prop :=
  p_sz (proc_at s p) = sz ∧ ∃ T fl, user_ok s T fl B root p ∧
    touched m0 T0 (k_mem s) T B dst (dst + Z.of_nat room) ∧ views (k_mem s) T dst (length got) = got.

Definition user_short (s : kstate) : Prop :=
  ∃ T fl, user_ok s T fl B root p ∧ touched m0 T0 (k_mem s) T B dst (dst + Z.of_nat room) ∧ (length fl <= 1)%nat.

Lemma user_sink_frame s s' got : framed p s s' → user_sink s got → user_sink s' got.
Proof.
  intros F [Hs (T & fl & Hu & Ht & Hg)]. destruct (framed_mem p _ _ F) as (E1 & E2 & E3). pose proof (fr_proc _ _ _ F) as E4.
  split; [by rewrite E4|]. exists T, fl. rewrite E1. split; [by eapply user_ok_ext|]. done.
Qed.

Lemma user_short_frame s s' : framed p s s' → user_short s → user_short s'.
Proof.
  intros F (T & fl & Hu & Ht & Hl). destruct (framed_mem p _ _ F) as (E1 & E2 & E3). pose proof (fr_proc _ _ _ F) as E4.
  exists T, fl. rewrite E1. split; [by eapply user_ok_ext|]. done.
Qed.

Lemma user_sink_copy s got chunk e :
  user_sink s got → bytes_ok chunk → (length got + length chunk <= room)%nat →
  ∃ r m h, either_copyout true (u64 (dst + Z.of_nat (length got))) chunk s e = Ok r (with_mem s m h) e ∧
    ((r = 0 ∧ user_sink (with_mem s m h) (got ++ chunk)) ∨ (r = -1 ∧ user_short (with_mem s m h))).
Proof.
  intros [Hs (T & fl & Hu & Ht & Hg)] Hok Hl. pose proof (ow_bound _ _ _ _ (user_owns _ _ _ _ _ _ Hu)) as HB.
  assert (MAXVA < 18446744073709551616) as HM by (by unfold MAXVA). rewrite u64_small by lia. set (d := dst + Z.of_nat (length got)).
  destruct (copyout_loop_view (S (length chunk)) s T fl B root p d chunk e) as (r & m & h & T' & fl' & Hrun & Hu' & Hto & Hr);
    [done|done|lia|unfold d; lia|unfold d; lia| |].
  { intros va Hva Hm. eapply touched_writable; [exact Ht|unfold d in Hva; lia| |done]. apply Hw. unfold d in Hva. lia. }
  exists r, m, h. split.
  - unfold either_copyout. erewrite bind_Ok by (by eapply curproc_ok). unfold get_proc. rewrite bind_gets, (uo_pt _ _ _ _ _ _ Hu). exact Hrun.
  - assert (touched m0 T0 m T' B dst (dst + Z.of_nat room)) as Ht' by (eapply touched_trans; [exact Ht|exact Hto|done|unfold d; lia]).
    destruct Hr as [[-> Hv]|[-> Hfl]]; [left|right]; (split; [done|]); [|by exists T', fl'].
    split; [done|]. exists T', fl'. split; [done|]. split; [done|]. change (k_mem (with_mem s m h)) with m.
    rewrite length_app, views_app. f_equal.
    + rewrite <- Hg at 2. apply views_ext. intros i Hi. apply (to_view _ _ _ _ _ _ _ Hto); unfold d; lia.
    + apply views_src. intros i b Hi. by apply Hv.
Qed.
End sink.

(** ** [fileread] *)

Section fileread.
Context (sb : superblock) (D P : blocks).
Context (Hsize : (size P < NBUF)%nat) (Hbytes : ∀ b, bytes_ok (cview D P b)).
Context (Hiblock : ∀ inum, inum_ok sb inum → 0 <= IBLOCK inum sb < 2147483648).

Notation disk_inode := (disk_inode sb (cview D P)).
Notation fsat := (fsat p sb D P).

Lemma imoved_user s s' T fl : imoved p s s' → user_ok s T fl B root p → user_ok s' T fl B root p.
Proof. intros [E Ep] Hu. apply (user_ok_ext s); try done; rewrite E; done. Qed.

Lemma fsat_files s held fs : fsat s held → fsat (s <| k_files := fs |>) held.
Proof. intros [[C1 C2 C3 C4 C5 C6 C7 C8] F2 F3]. split; try done. split; try done. by apply (calm_ext s). Qed.

(** What the process and the open file [f] have after a read of the bytes [want]. *)
Record read_done (s : kstate) (T0 : gmap (list Z) Z) (f : nat) (want : list Z) (held : option nat) (r : Z) (x : file) (s' : kstate) : Prop := {
  rn_fsat : fsat s' held;
  rn_len : length (k_files s') = length (k_files s);
  rn_file : file_at s' f = x;
  rn_user : ∃ T fl, user_ok s' T fl B root p ∧
    (∀ va, 0 <= va < B → ~ (dst <= va < dst + Z.of_nat (length want)) → view (k_mem s') T va = view (k_mem s) T0 va) ∧
    ((r = Z.of_nat (length want) ∧ views (k_mem s') T dst (length want) = want) ∨ (r = -1 ∧ (length fl <= 1)%nat));
}.

(** The bytes, after the inode has been locked. *)
Lemma read_locked s s1 T0 fl0 ip f bs content off n :
  user_ok s T0 fl0 B root p → fsat s1 (Some ip) → imoved p s s1 → (ip < NINODE)%nat →
  file_rep (cview D P) (dinode_of (inode_at s1 ip)) bs content → (length content <= 268 * 1024)%nat →
  0 <= dst → Z.of_nat off + Z.of_nat n < 4294967296 →
  let want := take n (drop off content) in
  dst + Z.of_nat (length want) <= p_sz (proc_at s p) →
  (∀ va, dst <= va < dst + Z.of_nat (length want) → is_mapped (k_mem s) T0 va = true → is_writable (k_mem s) T0 va = true) →
  cwp (2 * span off (length want)) (readi ip true dst (Z.of_nat off) (Z.of_nat n)) s1
    (λ r s2, read_done s T0 f want (Some ip) r (file_at s f) s2) (λ D', D' = D).
Proof.
  intros Hu Hf M Hip Hrep Hmax Hd Hn want Hfit Hw. pose proof Hf as [C1 C2 C3]. pose proof M as [E Ep].
  pose proof (it_lock _ _ _ _ _ C3 ip Hip) as HL. rewrite decide_True in HL by done. destruct HL as (_ & _ & Hr & _).
  destruct (it_dev _ _ _ _ _ C3 ip Hip Hr) as [Hdev _]. pose proof (ow_bound _ _ _ _ (user_owns _ _ _ _ _ _ Hu)) as HB.
  pose proof (uo_sz _ _ _ _ _ _ Hu) as Hsz. assert (MAXVA < 18446744073709551616) as HM by (by unfold MAXVA).
  set (sink := user_sink (k_mem s) T0 (p_sz (proc_at s p)) (length want)). set (short := user_short (k_mem s) T0 (length want)).
  eapply (cwp_mono p _ _ _ _ (read_post p sink short D P s1 want) _ (λ D', D' = D));
    [eapply (readi_ok p true dst (length want)) with (x := inode_at s1 ip)|apply Nat.le_refl| |done]; try done.
  - intros a b got. apply user_sink_frame.
  - intros a b. apply user_short_frame.
  - intros a got chunk e _. by apply user_sink_copy.
  - lia.
  - split; [by rewrite Ep|]. exists T0, fl0. split; [by eapply imoved_user|]. split; [|done]. rewrite E. apply touched_refl.
  - intros r s2 (Hc2 & M2 & Hres). split.
    + by eapply fsat_moved.
    + destruct M2 as [-> _]. rewrite E. done.
    + destruct M2 as [-> _]. rewrite E. done.
    + destruct Hres as [[-> [_ (T & fl & U1 & U2 & U3)]]|[-> (T & fl & U1 & U2 & U3)]]; exists T, fl; (split; [done|]);
        (split; [apply U2|auto]).
Qed.

(** The offset moves by what was read. *)
Definition moved_file (x : file) (r : Z) : file := if 0 <? r then x <| f_off := f_off x + r |> else x.

Lemma read_offset s T0 f want ip r x s2 :
  read_done s T0 f want (Some ip) r x s2 → (f < length (k_files s))%nat → 0 <= f_off x → f_off x + Z.of_nat (length want) < 4294967296 →
  ∃ s3, (∀ e, when (0 <? r) (upd_file f (λ x, x <| f_off ::= λ o, u32 (o + r) |>)) s2 e = Ok tt s3 e) ∧
    read_done s T0 f want (Some ip) r (moved_file x r) s3.
Proof.
  intros [R1 RL R2 (T & fl & U1 & U2 & U3)] Hf Ho Hw. unfold moved_file. destruct (Z.ltb_spec 0 r) as [Hr|Hr].
  - exists (s2 <| k_files := <[f := x <| f_off := f_off x + r |>]> (k_files s2) |>). split.
    + intros e. unfold upd_file, when, modify. cbv beta. rewrite R2.
      assert (x <| f_off ::= λ o, u32 (o + r) |> = x <| f_off := f_off x + r |>) as ->; [|done].
      destruct x. unfold set. cbn in *. rewrite u32_small; [done|]. destruct U3 as [[-> _]|[-> _]]; lia.
    + split; [by apply fsat_files|simpl; by rewrite length_insert|unfold file_at; simpl; by rewrite list_lookup_total_insert_eq by lia|]. exists T, fl. split; [|done].
      by apply (user_ok_ext s2).
  - exists s2. split; [done|]. split; [done|done|done|]. by exists T, fl.
Qed.

Lemma fileread_ok s T0 fl0 ip f bs content off n :
  user_ok s T0 fl0 B root p → fsat s None → (f < length (k_files s))%nat → (ip < NINODE)%nat → 0 < i_ref (inode_at s ip) →
  f_type (file_at s f) = FD_INODE → f_readable (file_at s f) ≠ 0 → f_ip (file_at s f) = Some ip → f_off (file_at s f) = Z.of_nat off →
  di_type (disk_inode (i_inum (inode_at s ip))) ≠ 0 →
  file_rep (cview D P) (disk_inode (i_inum (inode_at s ip))) bs content → (length content <= 268 * 1024)%nat →
  0 <= dst → Z.of_nat off + Z.of_nat n < 4294967296 →
  let want := take n (drop off content) in
  dst + Z.of_nat (length want) <= p_sz (proc_at s p) →
  (∀ va, dst <= va < dst + Z.of_nat (length want) → is_mapped (k_mem s) T0 va = true → is_writable (k_mem s) T0 va = true) →
  cwp (1 + 2 * span off (length want)) (fileread f dst (Z.of_nat n)) s
    (λ r s', read_done s T0 f want None r (moved_file (file_at s f) r) s') (λ D', D' = D).
Proof.
  intros Hu Hf Hlf Hip Href Hty Hrd Hfip Hoff Hity Hrep Hmax Hd Hn want Hfit Hw.
  unfold fileread. eapply cwp_bind_ok; [intros e; reflexivity|]. rewrite (proj2 (Z.eqb_neq _ _) Hrd), Hty, Hfip.
  apply (cwp_bind p 1). eapply ilock_ok; try done. intros s1 Hf1 M1 _ Hd1.
  assert (file_at s1 f = file_at s f ∧ length (k_files s1) = length (k_files s)) as [Ef El] by (destruct M1 as [-> _]; done).
  eapply cwp_bind_ok; [intros e; reflexivity|]. rewrite Ef, Hfip, Hoff. unfold file_ip. rewrite Hfip. eapply cwp_bind_ok; [intros e; reflexivity|].
  rewrite u32_small by lia. replace (2 * span off (length want))%nat with (2 * span off (length want) + 0)%nat by lia. apply cwp_bind.
  eapply cwp_mono; [eapply (read_locked s s1 T0 fl0 ip f bs content off n); rewrite ?Hd1; done|apply Nat.le_refl| |done].
  intros r s2 HR. destruct (read_offset s T0 f want ip r _ s2 HR Hlf) as (s3 & Hup & [R1 R2 R3 (T & fl & U1 & U2 & U3)]).
  { lia. } { assert (length want <= n)%nat by (unfold want; rewrite length_take; lia). lia. }
  eapply cwp_bind_ok; [apply Hup|]. destruct (iunlock_ok p sb D P Hsize s3 ip R1 Hip) as (s4 & Hun & Hf4 & M4 & _).
  eapply cwp_bind_ok; [apply Hun|]. apply cwp_ret. split; [done| | |].
  - destruct M4 as [-> _]. done.
  - destruct M4 as [-> _]. done.
  - exists T, fl. split; [by eapply imoved_user|]. by destruct M4 as [-> _].
Qed.
End fileread.
End user_read.

(** File [f] is open for reading on inode [ip], which has the bytes [content]. *)
Record open_file (sb : superblock) (D P : blocks) (s : kstate) (f ip off : nat) (content : list Z) : Prop := {
  of_index : (f < length (k_files s))%nat;
  of_type : f_type (file_at s f) = FD_INODE;
  of_readable : f_readable (file_at s f) ≠ 0;
  of_ip : f_ip (file_at s f) = Some ip ∧ (ip < NINODE)%nat ∧ 0 < i_ref (inode_at s ip);
  of_off : f_off (file_at s f) = Z.of_nat off;
  of_inode : di_type (disk_inode sb (cview D P) (i_inum (inode_at s ip))) ≠ 0;
  of_content : ∃ bs, file_rep (cview D P) (disk_inode sb (cview D P) (i_inum (inode_at s ip))) bs content;
  of_max : (length content <= 268 * 1024)%nat;
}.

(** C13: Reading an open file.  [fileread] of [n] bytes into memory that the
    process may write returns how many of them the file has from its offset on;
    the process then sees exactly those bytes of the file, its other memory as
    it was, pages still to be allocated included, and the offset has moved past
    them.  If physical memory runs out it returns -1 and the offset stays.  It
    leaves the disk as it is, no buffer and no inode locked, and makes no more
    requests than two for each block of the file that it touches. *)
Theorem fileread_reads `{L : Layout} `{V : VirtioDevice} (p : nat) (B root dst : Z) (sb : superblock) (D P : blocks) (T : gmap Z dir)
    (s : kstate) (T0 : gmap (list Z) Z) (fl0 : list Z) (f ip off n : nat) (content : list Z) :
  fs_tree sb D P T → fsat p sb D P s None → user_ok s T0 fl0 B root p → open_file sb D P s f ip off content →
  Z.of_nat off + Z.of_nat n < 4294967296 →
  let want := take n (drop off content) in
  0 <= dst → dst + Z.of_nat (length want) <= p_sz (proc_at s p) →
  (∀ va, dst <= va < dst + Z.of_nat (length want) → is_mapped (k_mem s) T0 va = true → is_writable (k_mem s) T0 va = true) →
  cwp p (1 + 2 * span off (length want)) (fileread f dst (Z.of_nat n)) s
    (λ r s', fsat p sb D P s' None ∧ ∃ T' fl', user_ok s' T' fl' B root p ∧
       (∀ va, 0 <= va < B → ~ (dst <= va < dst + Z.of_nat (length want)) → view (k_mem s') T' va = view (k_mem s) T0 va) ∧
       ((r = Z.of_nat (length want) ∧ views (k_mem s') T' dst (length want) = want ∧
           file_at s' f = (file_at s f) <| f_off := Z.of_nat (off + length want) |>) ∨
        (r = -1 ∧ (length fl' <= 1)%nat ∧ file_at s' f = file_at s f))) (λ D', D' = D).
Proof.
  intros [F1 F2 F3 F4] Hf Hu [O1 O2 O3 (O4 & O5 & O6) O7 O8 [bs O9] O10] Hn want Hd Hfit Hw.
  eapply cwp_mono; [by eapply (fileread_ok p B root dst sb D P F1 F2 F3 s T0 fl0 ip f bs content off n)|apply Nat.le_refl| |done].
  intros r s' [R1 _ R3 (T' & fl' & U1 & U2 & U3)]. split; [done|]. exists T', fl'. split; [done|]. split; [done|].
  fold want in U3. destruct U3 as [[-> Hv]|[-> Hl]]; [left|by right]. split; [done|]. split; [done|]. rewrite R3. unfold moved_file.
  fold want. destruct (file_at s f). cbn in O7. subst. unfold set. cbn. destruct (Z.ltb_spec 0 (Z.of_nat (length want))).
  - f_equal. lia.
  - f_equal. lia.
Qed.

(** ** A run *)

#[local] Existing Instance layout0.

(** Process 0 has the file [hi] of the small disk open. *)
Definition reader : kstate :=
  small_machine <| k_inodes := <[0%nat := small_inode 2]> (replicate NINODE inode0) |>
    <| k_procs ::= <[0%nat := proc0 <| p_state := RUNNING |> <| p_pagetable := toy_page 0 |> <| p_sz := 8192 |>]> |>
    <| k_files ::= <[0%nat := mk_file FD_INODE 1 1 0 0 (Some 0%nat) 1 0]> |>
    <| k_mem := toy_mem |> <| k_freelist := toy_page 6 |>.

Lemma reader_fsat : fsat 0 small_sb small_disk ∅ reader None.
Proof.
  split; [|done|apply small_itab; by right]. destruct small_cache as [C1 C2 C3 C4 C5 C6 C7 C8].
  split; [by apply small_proc_calm|assumption..].
Qed.

Lemma reader_user : user_ok reader toy_table toy_free 8192 (toy_page 0) 0.
Proof.
  destruct toy_user as [[H1 H2 H3 H4 H5] H6 H7 H8 H9 H10].
  split; [split; [|assumption..]|assumption|reflexivity|reflexivity|by vm_compute|assumption].
  destruct quiet_calm as [C1 C2 C3 C4 C5 C6 C7 C8]. split; [exact C1|exact C2|by apply C8].
Qed.

Lemma reader_open : open_file small_sb small_disk ∅ reader 0 0 1 small_bytes.
Proof.
  destruct small_inodes as (_ & E2 & _). change (disk_inode small_sb (cview small_disk ∅) (i_inum (inode_at reader 0))) with
    (disk_inode small_sb (cview small_disk ∅) 2) in *.
  split; try done; try (by apply Nat.ltb_lt).
  - split; [done|]. split; [by apply Nat.ltb_lt|done].
  - exists [48]. change (file_rep (cview small_disk ∅) (disk_inode small_sb (cview small_disk ∅) 2) [48] (take 5 (cview small_disk ∅ 48))).
    rewrite E2. by apply file_rep_one; [| | |apply Nat.leb_le..].
Qed.

Lemma fileread_reads_witness :
  cwp 0 3 (fileread 0 4094 10) reader
    (λ r s', fsat 0 small_sb small_disk ∅ s' None ∧ ∃ T' fl', user_ok s' T' fl' 8192 (toy_page 0) 0 ∧
       (∀ va, 0 <= va < 8192 → ~ (4094 <= va < 4094 + Z.of_nat 4) → view (k_mem s') T' va = view (k_mem reader) toy_table va) ∧
       ((r = 4 ∧ views (k_mem s') T' 4094 4 = [101; 108; 108; 111] ∧
           file_at s' 0 = (file_at reader 0) <| f_off := 5 |>) ∨
        (r = -1 ∧ (length fl' <= 1)%nat ∧ file_at s' 0 = file_at reader 0))) (λ D', D' = small_disk).
Proof.
  apply (fileread_reads 0 8192 (toy_page 0) 4094 small_sb small_disk ∅ small_tree reader toy_table toy_free 0 0 1 10 small_bytes).
  - apply small_fs.
  - apply reader_fsat.
  - apply reader_user.
  - apply reader_open.
  - reflexivity.
  - discriminate.
  - vm_compute. discriminate.
  - intros va Hva. apply toy_writable. change (4094 <= va < 4094 + 4) in Hva. lia.
Defined.
