(* ===== verification/FileWrite.v ===== *)
(** Writing an open file: [filewrite] of File.v on an inode, from the memory of
    the process to the disk, across power failures. *)

From S2P Require Export FsFiles FileSpec.

(** A chunk touches at most 4 blocks. *)
Lemma chunk_span o k : (k <= 3072)%nat → (span o k <= 4)%nat.
Proof. intros Hk. unfold span. destruct (k =? 0)%nat; [lia|]. ndlia. Qed.

Section file_write.
Context `{L : Layout} `{V : VirtioDevice}.
Context (p : nat) (start : Z) (sb : superblock) (dstart : Z) (Hdl : disk_layout start sb dstart).

Notation cwp := (cwp p).
Notation fs_holds := (fs_holds start sb dstart).
Notation fs_files := (fs_files start sb dstart).

(** ** The memory of the process as a source *)

Section source.
Context (T : gmap (list Z) Z) (fl : list Z) (B root src : Z) (data : list Z).

(** The process sees [data] at [src], in pages that are there. *)
Record user_src (s : kstate) : Prop := {
  us_user : user_ok s T fl B root p;
  us_range : 0 <= src ∧ src + Z.of_nat (length data) <= B;
  us_mapped : ∀ va, src <= va < src + Z.of_nat (length data) → is_user (k_mem s) T va = true;
  us_bytes : ubytes (k_mem s) T src (length data) = data;
}.

Lemma user_src_ext s s' :
  user_src s → k_mem s' = k_mem s → k_freelist s' = k_freelist s → k_x s' = k_x s → proc_at s' p = proc_at s p → user_src s'.
Proof. intros [H1 H2 H3 H4] Em Ef Ex Ep. split; rewrite ?Em; try done. by eapply user_ok_ext. Qed.

Lemma ubytes_part m va n t k : (t + k <= n)%nat → ubytes m T (va + Z.of_nat t) k = take k (drop t (ubytes m T va n)).
Proof.
  intros H. replace n with (t + (k + (n - t - k)))%nat by lia. rewrite !ubytes_app.
  rewrite drop_app_length' by (by rewrite length_ubytes). by rewrite take_app_length' by (by rewrite length_ubytes).
Qed.

Lemma user_src_copy s t k e :
  user_src s → (t + k <= length data)%nat →
  either_copyin true (u64 (src + Z.of_nat t)) (Z.of_nat k) s e = Ok (take k (drop t data), 0) s e.
Proof.
  intros [H1 [H2 H2'] H3 H4] Hk. pose proof (ow_bound _ _ _ _ (user_owns _ _ _ _ _ _ H1)) as HB.
  assert (MAXVA < 18446744073709551616) as HM by (by unfold MAXVA). rewrite u64_small by lia.
  unfold either_copyin. erewrite bind_Ok by (by eapply curproc_ok). unfold get_proc. rewrite bind_gets, (uo_pt _ _ _ _ _ _ H1).
  rewrite (copyin_ok _ T fl B root); [|by eapply user_vm|by eapply user_owns|apply H1|lia|lia|lia|intros; apply H3; lia].
  rewrite Nat2Z.id, (ubytes_part _ _ (length data)) by done. by rewrite H4.
Qed.

Lemma user_src_data s : user_src s → bytes_ok data.
Proof.
  intros [H1 _ _ H4]. pose proof (user_vm _ _ _ _ _ _ H1) as Hv. rewrite <- H4. generalize src, (length data). clear -Hv.
  intros a n. revert a. induction n as [|n IH]; intros a; cbn [ubytes]; constructor; [|apply IH]. unfold ubyte.
  apply ld8_range, (km_mem _ _ _ (vo_kmem _ _ _ Hv)).
Qed.
End source.

(** ** The table of inodes after a write *)

Lemma fsat_wrote D ip data c off s P bs s' P' bs' :
  fsat p sb D P s (Some ip) → (ip < NINODE)%nat → wrote p start D sb dstart ip data c off s P bs s' P' bs' → Cache.cache p s' D P' ∅ →
  fsat p sb D P' s' (Some ip).
Proof.
  intros [C1 C2 C3] Hip W Hc. pose proof (wr_moved _ _ _ _ _ _ _ _ _ _ _ _ _ _ _ W) as M. pose proof (wm_self _ _ _ _ M) as Es.
  pose proof C3 as [I1 I2 I3 I4 I5 I6]. split; [done|by rewrite (wm_eq _ _ _ _ M)|]. rewrite (wm_proc _ _ _ _ M).
  assert (∀ j, i_ref (k_inodes s' !!! j) = i_ref (k_inodes s !!! j) ∧ i_dev (k_inodes s' !!! j) = i_dev (k_inodes s !!! j) ∧
    i_inum (k_inodes s' !!! j) = i_inum (k_inodes s !!! j) ∧ i_valid (k_inodes s' !!! j) = i_valid (k_inodes s !!! j) ∧
    i_lock (k_inodes s' !!! j) = i_lock (k_inodes s !!! j)) as Ef.
  { intros j. destruct (decide (j = ip)) as [->|N]; [|change (k_inodes s' !!! j) with (inode_at s' j); by rewrite (wm_other _ _ _ _ M)].
    change (k_inodes s' !!! ip) with (inode_at s' ip). rewrite Es. done. }
  split.
  - by rewrite (wm_len _ _ _ _ M).
  - intros j Hj. destruct (Ef j) as (-> & _). by apply I2.
  - intros j Hj. destruct (Ef j) as (-> & -> & -> & _). by apply I3.
  - intros j Hj. destruct (Ef j) as (-> & _ & -> & -> & _). intros Hr Hv. specialize (I4 j Hj Hr Hv).
    rewrite (wr_disk _ _ _ _ _ _ _ _ _ _ _ _ _ _ _ W) by (by apply I3). case_decide as E.
    + specialize (I6 ip Hip). rewrite decide_True in I6 by done. destruct I6 as (_ & _ & Hr' & _).
      by rewrite (I5 j ip Hj Hip Hr Hr' E).
    + destruct (decide (j = ip)) as [->|N]; [done|]. rewrite <- I4. change (k_inodes s' !!! j) with (inode_at s' j). by rewrite (wm_other _ _ _ _ M).
  - intros i j Hi Hj. destruct (Ef i) as (-> & _ & -> & _), (Ef j) as (-> & _ & -> & _). by apply I5.
  - intros j Hj. destruct (Ef j) as (-> & _ & _ & -> & ->). by apply I6.
Qed.
(** ** The steps of a chunk *)

Lemma cview_none D : same_fs start (cview D ∅) (blk D).
Proof. intros b _. unfold cview. by rewrite lookup_empty. Qed.

Lemma itab_ext v v' pid held t :
  (∀ i, inum_ok sb i → disk_inode sb v' i = disk_inode sb v i) → itab sb v pid held t → itab sb v' pid held t.
Proof.
  intros E [I1 I2 I3 I4 I5 I6]. split; try done. intros i Hi Hr Hv. rewrite E by (by apply I3). by apply I4.
Qed.

Lemma in_tx_imoved D s s' P H H' n : in_tx p start D s P H n → imoved p s s' → Cache.cache p s' D P H' → in_tx p start D s' P H' n.
Proof.
  intros [C1 (bl & C2 & C3) C4 C5] M Hc. assert (k_log s' = k_log s) as El by (destruct M as [-> _]; done).
  split; [done| |by rewrite El|by rewrite El]. exists bl. split; [|done]. destruct C2 as [A1 A2 A3 A4]. by split; rewrite El.
Qed.

Lemma fsat_log D P s held l : fsat p sb D P s held → fsat p sb D P (s <| k_log := l |>) held.
Proof. intros [F1 F2 F3]. split; [by apply cache_log|done|done]. Qed.

(** The transaction is opened. *)
Lemma open_tx s D :
  idle_log p start s D → fsat p sb D ∅ s None →
  let s1 := s <| k_log ::= opened |> in
  (∀ e, begin_op s e = Ok tt s1 e) ∧ in_tx p start D s1 ∅ ∅ 0 ∧ fsat p sb D ∅ s1 None.
Proof.
  intros [Hs Hc (bl & Hl & Hbl) Ho Hcm He Hlen] [F1 F2 F3] s1. split; [|split].
  - intros e. apply (begin_op_ok p); [apply Hc|]. unfold admits. rewrite Hcm, Ho, (la_n _ _ _ _ Hl). done.
  - split; [by apply cache_log| |simpl; lia|done]. exists bl. split.
    + destruct Hl as [L1 L2 L3 L4]. by split.
    + split; [lia|done|constructor|lia|]. intros bno. rewrite lookup_empty. split; [by intros []|]. intros (i & Hi & _). lia.
  - by apply fsat_log.
Qed.

(** The transaction is closed: what it logged is on the disk, or will be after
    recovery. *)
Lemma close_tx s D P n :
  0 <= start ∧ start + LOGBLOCKS < 2147483648 → hn start D = 0 → length (blk D start) = Z.to_nat BSIZE →
  in_tx p start D s P ∅ n → fsat p sb D P s None → (n < NBUF)%nat →
  cwp (n * 6 + 4) end_op s
    (λ _ s', ∃ D', idle_log p start s' D' ∧ fsat p sb D' ∅ s' None ∧ same_fs start (blk D') (cview D P) ∧ tmoved p s s')
    (old_or_new start (blk D) (cview D P)).
Proof.
  intros Hs Hhn Hhl [C1 (bl & C2 & C3) C4 C5] [F1 F2 F3] Hn. change NBUF with 30%nat in Hn.
  assert (tx start D P n bl) as Htx by (eapply wal_tx; [done| |done|done]; change NBUF with 30%nat; lia).
  eapply cwp_mono; [by apply (end_op_ok p start Hs D P n bl Htx s)|lia| |].
  - intros _ s2 (D' & Hc2 & Hh2 & Hlen2 & Hs2 & El2 & Ef & Ep). assert (tmoved p s s2) as M by (by split).
    pose proof (tmoved_inodes p _ _ M) as Ei. exists D'. split; [|split; [|split; [done|done]]].
    + destruct C2 as [L1 L2 L3 L4]. split; try done; rewrite ?El2; try done. exists bl. split; [split; rewrite El2; done|apply C3].
    + split; [done|by rewrite Ef|]. rewrite Ep, Ei. eapply itab_ext; [|exact F3]. intros i Hi.
      apply (dino_ext start sb dstart Hdl); [|done]. intros b Hb. rewrite cview_none by done. by apply Hs2.
  - intros D' [Hok [Ha|Ha]]; (split; [done|]); [by left|by right].
Qed.
(** ** The loop *)

Section loop.
Context (T : gmap (list Z) Z) (fl : list Z) (B root addr : Z) (data : list Z).
Context (f ip : nat) (inum : Z) (off : nat) (F : gmap Z (list Z)) (c : list Z) (Hc : F !! inum = Some c).
Context (Hip : (ip < NINODE)%nat) (Hoff : (off <= length c)%nat) (Hend : (off + length data <= 268 * 1024)%nat).

(** The blocks of the file in the end. *)
Notation total := ((off + length data + 1023) / 1024)%nat.

(** The files after [i] bytes. *)
Definition files_at (i : nat) : gmap Z (list Z) := <[inum := splice c off (take i data)]> F.

(** The disk has these files, and room for the rest. *)
Definition disk_at (v : Z → list Z) (i : nat) : Prop :=
  ∃ Bs, fs_files v (files_at i) Bs ∧
    has_free sb dstart v ((if di_addrs (disk_inode sb v inum) !!! NDIRECT =? 0 then 1 else 0) + (total - length (Bs inum))).

(** The file [f] is open for writing at offset [o]. *)
Record open_write (s : kstate) (o : nat) : Prop := {
  ow_index : (f < length (k_files s))%nat;
  ow_ip : f_ip (file_at s f) = Some ip;
  ow_off : f_off (file_at s f) = Z.of_nat o;
  ow_ref : 0 < i_ref (inode_at s ip);
  ow_inum : i_inum (inode_at s ip) = inum;
}.

(** The state between chunks. *)
Record chunked (s : kstate) (i : nat) : Prop := {
  ck_src : user_src T fl B root addr data s;
  ck_open : open_write s (off + i);
  ck_disk : ∃ D, idle_log p start s D ∧ fsat p sb D ∅ s None ∧ disk_at (blk D) i;
  ck_i : ∃ j, i = Nat.min (length data) (3072 * j);
}.

(** A file is written up to the end of a chunk after the next recovery. *)
Definition whole_chunks (D' : blocks) : Prop :=
  log_ok start D' ∧ ∃ j, fs_holds (blk (recovered start D')) (files_at (Nat.min (length data) (3072 * j))).

(** The part of the source that a chunk takes. *)
Lemma user_src_part s i k :
  user_src T fl B root addr data s → (i + k <= length data)%nat → user_src T fl B root (addr + Z.of_nat i) (take k (drop i data)) s.
Proof.
  intros [H1 H2 H3 H4] Hk. assert (length (take k (drop i data)) = k) as El by (rewrite length_take, length_drop; lia).
  split; rewrite ?El; [done|lia|intros va Hva; apply H3; lia|]. rewrite (ubytes_part T _ _ (length data)) by lia. by rewrite H4.
Qed.

(** The data of the file before a chunk. *)
Lemma file_state D s i Bs :
  fsat p sb D ∅ s (Some ip) → fs_files (cview D ∅) (files_at i) Bs → i_inum (inode_at s ip) = inum →
  dinode_of (inode_at s ip) = disk_inode sb (cview D ∅) inum →
  fstate start sb dstart (cview D ∅) (dinode_of (inode_at s ip)) (Bs inum) (splice c off (take i data)).
Proof.
  intros Hf HF Hi Hd. pose proof HF as [H1 H2 H3 H4 H5 H6 H7].
  assert (files_at i !! inum = Some (splice c off (take i data))) as Ei by (unfold files_at; by rewrite lookup_insert_eq).
  destruct (H4 inum _ Ei) as [O1 O2 O3 O4 O5]. rewrite Hd. split; [done| |by split]. apply get_dinode_ok. by apply H2, (iblock_out start sb dstart Hdl).
Qed.
(** The bytes of a chunk. *)
Definition chunk_bytes (i : nat) : nat := Nat.min (length data - i) 3072.

(** The disk after a chunk. *)
Lemma disk_after D s i Bs k s' P' bs' :
  i_inum (inode_at s ip) = inum → dinode_of (inode_at s ip) = disk_inode sb (cview D ∅) inum → (i + k <= length data)%nat →
  fs_files (cview D ∅) (files_at i) Bs →
  wrote p start D sb dstart ip (take k (drop i data)) (splice c off (take i data)) (off + i) s ∅ (Bs inum) s' P' bs' →
  has_free sb dstart (cview D P') (table_need ip s' + (total - length bs')) → disk_at (cview D P') (i + k).
Proof.
  intros Hi Hd Hk HF W Hfree. assert (files_at i !! inum = Some (splice c off (take i data))) as Ei by (unfold files_at; by rewrite lookup_insert_eq).
  pose proof (fs_files_wrote start sb dstart Hdl p D ip (take k (drop i data)) (splice c off (take i data)) (off + i) s ∅ (Bs inum) s' P' bs' (files_at i) Bs HF) as Hw.
  rewrite Hi in Hw. specialize (Hw Ei Hd eq_refl W). rewrite splice_more in Hw by (done || lia).
  unfold files_at in Hw at 1. rewrite insert_insert_eq in Hw. exists (blocks_now ip s bs' Bs). split; [exact Hw|].
  rewrite (wr_disk _ _ _ _ _ _ _ _ _ _ _ _ _ _ _ W) by (by apply (fo_inum _ _ _ _ _ _ (ff_file _ _ _ _ _ _ HF _ _ Ei))).
  rewrite decide_True by done. unfold blocks_now. by rewrite decide_True.
Qed.

(** [writei] of a chunk, with the inode locked. *)
Lemma write_locked D s i Bs :
  hn start D = 0 → length (blk D start) = Z.to_nat BSIZE → in_tx p start D s ∅ ∅ 0 → fsat p sb D ∅ s (Some ip) →
  user_src T fl B root addr data s → i_inum (inode_at s ip) = inum → dinode_of (inode_at s ip) = disk_inode sb (cview D ∅) inum →
  fs_files (cview D ∅) (files_at i) Bs → has_free sb dstart (cview D ∅) (table_need ip s + (total - length (Bs inum))) → (i < length data)%nat →
  cwp (write_cost sb * 4 + 1) (writei ip true (addr + Z.of_nat i) (Z.of_nat (off + i)) (Z.of_nat (chunk_bytes i))) s
    (λ r s', r = Z.of_nat (chunk_bytes i) ∧ ∃ P n, in_tx p start D s' P ∅ n ∧ (n <= 25)%nat ∧ fsat p sb D P s' (Some ip) ∧
       disk_at (cview D P) (i + chunk_bytes i) ∧ wmoved p ip s s') (λ D', D' = D).
Proof.
  intros Hhn Hhl Hx Hf Hs Hi Hd HF Hfree Hlt. set (k := chunk_bytes i). assert (0 < k ∧ i + k <= length data ∧ k <= 3072)%nat as (K1 & K2 & K3) by (unfold k, chunk_bytes; lia).
  assert (length (take k (drop i data)) = k) as Ek by (rewrite length_take, length_drop; lia).
  pose proof (file_state D s i Bs Hf HF Hi Hd) as Hst. pose proof (user_src_part s i k Hs K2) as Hs'. pose proof Hf as [C1 C2 C3].
  pose proof (it_lock _ _ _ _ _ C3 ip Hip) as HL. rewrite decide_True in HL by done. destruct HL as (_ & _ & Hr & _).
  destruct (it_dev _ _ _ _ _ C3 ip Hip Hr) as [Hdev Hin]. pose proof (us_range _ _ _ _ _ _ _ Hs) as [R1 R2].
  pose proof (ow_bound _ _ _ _ (user_owns _ _ _ _ _ _ (us_user _ _ _ _ _ _ _ Hs))) as HB. assert (MAXVA < 18446744073709551616) as HM by (by unfold MAXVA).
  pose proof (chunk_span (off + i) k K3) as Hsp. assert (length (splice c off (take i data)) = Nat.max (length c) (off + i)) as Hlc.
  { rewrite length_splice_ext, length_take by done. lia. }
  replace (Z.of_nat k) with (Z.of_nat (length (take k (drop i data)))) by lia.
  eapply cwp_mono; [eapply (writei_ok p start D sb dstart ip Hhn Hhl Hdl true (addr + Z.of_nat i) (take k (drop i data))
    (user_src T fl B root (addr + Z.of_nat i) (take k (drop i data)))) with (c := splice c off (take i data)) (total := total) (n := 0%nat) (P := ∅) (bs := Bs inum)| | |done].
  - intros a b M Ha. apply (user_src_ext _ _ _ _ _ _ a); [done|rewrite (wm_eq _ _ _ _ M); done..|apply (wm_proc _ _ _ _ M)].
  - intros a t m e _ Ha Hm. by apply (user_src_copy T fl B root).
  - by eapply user_src_data.
  - lia.
  - rewrite Ek. lia.
  - rewrite Ek. ndlia.
  - exact Hx.
  - exact C2.
  - exact Hst.
  - exact Hdev.
  - by rewrite (it_len _ _ _ _ _ C3).
  - exact Hin.
  - apply (ff_len _ _ _ _ _ _ HF).
  - exact Hfree.
  - exact Hs'.
  - lia.
  - rewrite Ek. change NBUF with 30%nat. lia.
  - rewrite Ek. apply Nat.add_le_mono_r, Nat.mul_le_mono_l. lia.
  - intros r s' (-> & P' & n' & bs' & X1 & X2 & X3 & X4). rewrite Ek in X2. split; [done|].
    exists P', n'. split; [done|]. split; [lia|]. split; [|split; [|apply X3]].
    + eapply (fsat_wrote D ip); [exact Hf|done|exact X3|apply X1].
    + by eapply disk_after.
Qed.
(** *** The process and the open file *)

Definition ready (s : kstate) (o : nat) : Prop := user_src T fl B root addr data s ∧ open_write s o.

Lemma ready_imoved s s' o : ready s o → imoved p s s' → same_ids (k_inodes s) (k_inodes s') → ready s' o.
Proof.
  intros [H1 [O1 O2 O3 O4 O5]] [E Ep] [_ Hid]. destruct (Hid ip) as [I1 I2]. split.
  - apply (user_src_ext _ _ _ _ _ _ s); [done|rewrite E; done..|done].
  - split; [rewrite E; done..|unfold inode_at; by rewrite I2|unfold inode_at; by rewrite I1].
Qed.

Lemma ready_wmoved s s' o : ready s o → wmoved p ip s s' → ready s' o.
Proof.
  intros [H1 [O1 O2 O3 O4 O5]] [E Ep _ _ Es]. split.
  - apply (user_src_ext _ _ _ _ _ _ s); [done|rewrite E; done..|done].
  - split; [rewrite E; done..|by rewrite Es|by rewrite Es].
Qed.

Lemma ready_tmoved s s' o : ready s o → tmoved p s s' → ready s' o.
Proof. intros H M. by eapply ready_wmoved; [|apply tmoved_wmoved]. Qed.

Lemma ready_opened s o : ready s o → ready (s <| k_log ::= opened |>) o.
Proof. intros H. eapply ready_tmoved; [exact H|]. split; [by destruct s|done]. Qed.

(** The offset moves. *)
Lemma ready_offset s o k :
  ready s o → (o + k <= 268 * 1024)%nat → (0 < k)%nat →
  ∃ s', (∀ e, when (0 <? Z.of_nat k) (upd_file f (λ x, x <| f_off ::= λ o, u32 (o + Z.of_nat k) |>)) s e = Ok tt s' e) ∧ ready s' (o + k) ∧
    (∀ D P held, fsat p sb D P s held → fsat p sb D P s' held) ∧ k_log s' = k_log s.
Proof.
  intros [H1 [O1 O2 O3 O4 O5]] Ho Hk. rewrite (proj2 (Z.ltb_lt _ _)) by lia. set (x := (file_at s f) <| f_off := Z.of_nat (o + k) |>).
  exists (s <| k_files := <[f := x]> (k_files s) |>). split; [|split; [split|split; [|done]]].
  - intros e. unfold upd_file, when, modify. cbv beta. do 4 f_equal. unfold x, set. rewrite O3, u32_small by lia. by rewrite Nat2Z.inj_add.
  - by apply (user_src_ext _ _ _ _ _ _ s).
  - assert (file_at (s <| k_files := <[f := x]> (k_files s) |>) f = x) as Ef by (unfold file_at; simpl; by rewrite list_lookup_total_insert_eq).
    split; rewrite ?Ef; try done. simpl. by rewrite length_insert.
  - intros D P held. apply fsat_files.
Qed.

(** *** A round *)

(** After [writei]: the offset, the lock, and the commit. *)
Lemma finish_chunk {A} D s P n i k (y : A) :
  0 <= start ∧ start + LOGBLOCKS < 2147483648 → hn start D = 0 → length (blk D start) = Z.to_nat BSIZE →
  in_tx p start D s P ∅ n → (n <= 25)%nat → fsat p sb D P s (Some ip) → disk_at (cview D P) (i + k) → ready s (off + i) →
  (0 < k)%nat → (i + k <= length data)%nat → (∃ j, (i + k)%nat = Nat.min (length data) (3072 * j)) →
  cwp 154 (when (0 <? Z.of_nat k) (upd_file f (λ x, x <| f_off ::= λ o, u32 (o + Z.of_nat k) |>));; iunlock (Some ip);; end_op;; mret y) s
    (λ r s', r = y ∧ chunked s' (i + k)) (old_or_new start (blk D) (cview D P)).
Proof.
  intros Hs Hhn Hhl Hx Hn Hf Hd Hr Hk Hik Hj. destruct (ready_offset s (off + i) k Hr) as (s1 & E1 & Hr1 & Hf1 & El1); [lia|done|].
  eapply cwp_bind_ok; [exact E1|]. specialize (Hf1 D P (Some ip) Hf).
  pose proof (in_tx_size p start D Hhn Hhl s P ∅ n Hx ltac:(change NBUF with 30%nat; lia)) as Hsz.
  assert (size P < NBUF)%nat as Hsz' by (change NBUF with 30%nat; lia).
  destruct (iunlock_ok p sb D P Hsz' s1 ip Hf1 Hip) as (s2 & E2 & Hf2 & M2 & Id2). eapply cwp_bind_ok; [exact E2|].
  assert (in_tx p start D s1 P ∅ n) as Hx1.
  { destruct Hx as [C1 (bl & [A1 A2 A3 A4] & C3) C4 C5]. split; [apply Hf1| |by rewrite El1|by rewrite El1]. exists bl. split; [by split; rewrite El1|done]. }
  apply (cwp_bind p 154 0). eapply cwp_mono; [apply (close_tx s2 D P n Hs Hhn Hhl)|lia| |done].
  - eapply in_tx_imoved; [exact Hx1|exact M2|apply Hf2].
  - exact Hf2.
  - change NBUF with 30%nat. lia.
  - intros _ s3 (D' & I1 & I2 & I3 & I4). pose proof (ready_tmoved _ _ _ (ready_imoved _ _ _ Hr1 M2 Id2) I4) as [U O].
    rewrite <- Nat.add_assoc in O. apply cwp_ret. split; [done|]. split; [done|done| |done]. exists D'. split; [done|]. split; [done|]. destruct Hd as (Bs & HF & Hfree).
    exists Bs. split; [by apply (fs_files_ext start sb dstart Hdl (cview D P))|].
    rewrite (dino_ext start sb dstart Hdl (cview D P)); [by apply (free_ext start sb dstart Hdl (cview D P))|done|].
    eapply (fo_inum _ _ _ _ _ _ (ff_file _ _ _ _ _ _ HF inum _ _)). Unshelve. 2: { unfold files_at. by rewrite lookup_insert_eq. }
Qed.
(** The requests of a chunk: the inode, the blocks, and the commit. *)
Definition chunk_cost : nat := 1 + (write_cost sb * 4 + 1 + 154).

Lemma whole_old D i D' :
  hn start D = 0 → length (blk D start) = Z.to_nat BSIZE → disk_at (blk D) i → (∃ j, i = Nat.min (length data) (3072 * j)) → D' = D → whole_chunks D'.
Proof.
  intros Hhn Hhl (Bs & HF & _) [j Hj] ->. split; [by apply log_ok_empty|]. exists j. rewrite recovered_empty by done. exists Bs. by rewrite <- Hj.
Qed.

Lemma whole_either D v i i' D' :
  hn start D = 0 → length (blk D start) = Z.to_nat BSIZE → disk_at (blk D) i → (∃ j, i = Nat.min (length data) (3072 * j)) →
  disk_at v i' → (∃ j, i' = Nat.min (length data) (3072 * j)) → old_or_new start (blk D) v D' → whole_chunks D'.
Proof.
  intros Hhn Hhl (Bs & HF & _) [j Hj] (Bs' & HF' & _) [j' Hj'] [Hok [Ho|Hn]]; (split; [done|]).
  - exists j, Bs. rewrite <- Hj. by apply (fs_files_ext start sb dstart Hdl (blk D)).
  - exists j', Bs'. rewrite <- Hj'. by apply (fs_files_ext start sb dstart Hdl v).
Qed.

Lemma filewrite_round s i :
  chunked s i → (i < length data)%nat →
  cwp chunk_cost (filewrite_loop f addr (Z.of_nat (length data)) (Z.of_nat i)) s
    (λ r s', r = inl (Z.of_nat (i + chunk_bytes i)) ∧ chunked s' (i + chunk_bytes i)) whole_chunks.
Proof.
  intros [Hs Ho (D & Hlog & Hf & Hd) [j Hj]] Hi. set (k := chunk_bytes i).
  assert (0 < k ∧ i + k <= length data)%nat as (K1 & K2) by (unfold k, chunk_bytes; lia).
  assert (∃ j, (i + k)%nat = Nat.min (length data) (3072 * j)) as Hj' by (exists (S j); unfold k, chunk_bytes; lia).
  pose proof (il_hn _ _ _ _ Hlog) as Hhn. pose proof (il_len _ _ _ _ Hlog) as Hhl. pose proof (il_start _ _ _ _ Hlog) as Hst.
  destruct (open_tx s D Hlog Hf) as (E1 & Hx1 & Hf1). set (s1 := s <| k_log ::= opened |>) in *.
  pose proof (ready_opened s (off + i) (conj Hs Ho)) as Hr1. fold s1 in Hr1. pose proof (proj2 Hr1) as [O1 O2 O3 O4 O5].
  unfold filewrite_loop. rewrite (proj2 (Z.leb_gt _ _)) by lia. change filewrite_max with 3072. cbv zeta.
  assert (Z.min (Z.of_nat (length data) - Z.of_nat i) 3072 = Z.of_nat k) as -> by (unfold k, chunk_bytes; lia).
  eapply cwp_bind_ok; [exact E1|]. eapply cwp_bind_ok; [intros e; reflexivity|]. rewrite O2.
  pose proof Hd as (Bs & HF & Hfree). apply (fs_files_ext start sb dstart Hdl _ _ (cview_none D)) in HF.
  assert (files_at i !! inum = Some (splice c off (take i data))) as Ei by (unfold files_at; by rewrite lookup_insert_eq).
  destruct (ff_file _ _ _ _ _ _ HF inum _ Ei) as [G1 G2 _ _ _].
  unfold chunk_cost. apply (cwp_bind p 1). eapply (cwp_mono p 1 _ _ _ _ _ (λ D', D' = D)); [|done|intros a b X; exact X|by intros D'; eapply whole_old; eauto].
  assert (∀ n, inum_ok sb n → 0 <= IBLOCK n sb < 2147483648) as Hib.
  { intros n Hn. pose proof (dl_inode _ _ _ Hdl n Hn). pose proof (dl_size _ _ _ Hdl). pose proof (dl_log _ _ _ Hdl). pose proof (dl_start _ _ _ Hdl). unfold LOGBLOCKS, MAXOPBLOCKS in *. lia. }
  eapply (ilock_ok p sb D ∅); [rewrite map_size_empty; by change NBUF with 30%nat; lia|exact Hib|exact Hf1|done|done|by rewrite O5|].
  intros s2 Hf2 M2 Id2 Hd2. pose proof (ready_imoved _ _ _ Hr1 M2 Id2) as Hr2. rewrite O5 in Hd2.
  pose proof (in_tx_imoved _ _ _ _ _ ∅ _ Hx1 M2 (fa_cache _ _ _ _ _ _ Hf2)) as Hx2. pose proof (proj2 Hr2) as [Q1 Q2 Q3 Q4 Q5].
  eapply cwp_bind_ok; [intros e; reflexivity|]. unfold file_ip. rewrite Q2, Q3. eapply cwp_bind_ok; [intros e; reflexivity|].
  pose proof (us_range _ _ _ _ _ _ _ Hs) as [R1 R2]. pose proof (ow_bound _ _ _ _ (user_owns _ _ _ _ _ _ (us_user _ _ _ _ _ _ _ Hs))) as HB.
  assert (MAXVA < 18446744073709551616) as HM by (by unfold MAXVA). rewrite u64_small by lia. apply (cwp_bind p (write_cost sb * 4 + 1) 154).
  eapply cwp_mono; [apply (write_locked D s2 i Bs Hhn Hhl Hx2 Hf2 (proj1 Hr2) Q5 Hd2 HF)|done| |by intros D'; eapply whole_old; eauto].
  - unfold table_need. rewrite Hd2. apply (free_ext start sb dstart Hdl _ _ (cview_none D)).
    by rewrite (dino_ext start sb dstart Hdl _ _ (cview_none D)) by done.
  - done.
  - fold k. intros r s3 (-> & P & n & Y1 & Y2 & Y3 & Y4 & Y5). rewrite Z.eqb_refl. cbn [negb].
    eapply cwp_mono; [apply (finish_chunk D s3 P n i k _ Hst Hhn Hhl Y1 Y2 Y3 Y4 (ready_wmoved _ _ _ Hr2 Y5) K1 K2 Hj')|done| |].
    + intros r s' [-> H]. split; [|done]. f_equal. lia.
    + intros D'. by apply (whole_either D (cview D P) i (i + k)); [..|exists j| |].
Qed.

(** The chunks that are left. *)
Definition chunks (n : nat) : nat := (n + 3071) / 3072.

Lemma filewrite_loop_ok fuel s i :
  chunked s i → (length data - i < fuel)%nat →
  cwp (chunk_cost * chunks (length data - i)) (loop fuel (filewrite_loop f addr (Z.of_nat (length data))) (Z.of_nat i)) s
    (λ r s', r = Z.of_nat (length data) ∧ chunked s' (length data)) whole_chunks.
Proof.
  revert s i. induction fuel as [|fuel IH]; intros s i Hk Hf; [lia|]. cbn [loop]. destruct (ck_i _ _ Hk) as [j Hj].
  destruct (decide (i = length data)) as [->|Hne].
  - eapply cwp_bind_ok; [intros e; unfold filewrite_loop; by rewrite (proj2 (Z.leb_le _ _)) by lia|]. by apply cwp_return.
  - assert (0 < chunk_bytes i ∧ i + chunk_bytes i <= length data)%nat as (K1 & K2) by (unfold chunk_bytes; lia).
    assert (S (chunks (length data - (i + chunk_bytes i))) <= chunks (length data - i))%nat as Hch.
    { unfold chunks, chunk_bytes. destruct (Nat.le_ge_cases (length data - i) 3072).
      - rewrite Nat.min_l by done. replace (length data - (i + (length data - i)))%nat with 0%nat by lia. apply Nat.div_le_lower_bound; [done|]. change ((0 + 3071) / 3072)%nat with 0%nat. lia.
      - rewrite Nat.min_r by done. replace (length data - i + 3071)%nat with (length data - (i + 3072) + 3071 + 1 * 3072)%nat by lia. rewrite Nat.div_add by done. lia. }
    eapply (cwp_mono p (chunk_cost + chunk_cost * chunks (length data - (i + chunk_bytes i))) _ _ _ _ _ whole_chunks);
      [|rewrite (Nat.add_comm chunk_cost), <- Nat.mul_succ_r; by apply Nat.mul_le_mono_l|intros a b X; exact X|done].
    apply cwp_bind. eapply cwp_mono; [apply (filewrite_round s i Hk); lia|done| |done].
    intros r s1 [-> Hk1]. cbv iota beta. apply IH; [done|lia].
Qed.
(** The blocks of a file cover its contents. *)
Lemma blocks_cover v d bs content : file_rep v d bs content → ((length content + 1023) / 1024 <= length bs)%nat.
Proof.
  intros Hr. destruct (decide (length content = 0)%nat) as [->|N]; [apply Nat.le_0_l|].
  destruct (lookup_lt_is_Some_2 content (length content - 1)) as [x Hx]; [lia|].
  destruct (fr_content _ _ _ _ Hr _ _ Hx) as (b & Hb & _). apply lookup_lt_Some in Hb. ndlia.
Qed.

Lemma chunked_start s D :
  user_src T fl B root addr data s → open_write s off → idle_log p start s D → fsat p sb D ∅ s None → fs_holds (blk D) F →
  has_free sb dstart (blk D) (1 + (total - (length c + 1023) / 1024)) → chunked s 0.
Proof.
  intros H1 H2 H3 H4 [Bs HF] H6. split; [done|by rewrite Nat.add_0_r| |exists 0%nat; by rewrite Nat.mul_0_r, Nat.min_0_r].
  exists D. split; [done|]. split; [done|]. exists Bs. assert (files_at 0 = F) as ->.
  { unfold files_at. rewrite take_0, splice_nil. by apply insert_id. }
  split; [done|]. pose proof (blocks_cover _ _ _ _ (fo_rep _ _ _ _ _ _ (ff_file _ _ _ _ _ _ HF inum c Hc))).
  eapply has_free_le; [exact H6|]. destruct (_ =? 0); lia.
Qed.
End loop.
End file_write.

(** C4: Writing an open file is atomic by chunks and survives power failures.
    On a consistent disk whose files are [F], with enough free blocks,
    [filewrite] of bytes that the process has in its pages returns their number;
    the file then has them at the offset of the open file, which has moved past
    them, every other file is as it was, and the disk is consistent: no block
    belongs to two files, and the bitmap marks the blocks in use.  If the power
    fails at any disk request, recovery finds a consistent disk on which a
    whole number of chunks of [max] bytes, counted from the start, has been
    written, and nothing else has changed. *)
Theorem filewrite_atomic `{L : Layout} `{V : VirtioDevice} (p : nat) (start : Z) (sb : superblock) (dstart : Z) (D : blocks)
    (F : gmap Z (list Z)) (s : kstate) (T : gmap (list Z) Z) (fl : list Z) (B root addr : Z) (data c : list Z) (f ip off : nat) (inum : Z) :
  disk_layout start sb dstart → fs_holds start sb dstart (blk D) F → F !! inum = Some c →
  idle_log p start s D → fsat p sb D ∅ s None → user_src p T fl B root addr data s →
  open_write f ip inum s off → f_type (file_at s f) = FD_INODE → f_writable (file_at s f) ≠ 0 → (ip < NINODE)%nat →
  (off <= length c)%nat → Z.of_nat (off + length data) <= MAXFILE * BSIZE →
  has_free sb dstart (blk D) (1 + ((off + length data + 1023) / 1024 - (length c + 1023) / 1024)) →
  cwp p (chunk_cost sb * chunks (length data)) (filewrite f addr (Z.of_nat (length data))) s
    (λ r s', r = Z.of_nat (length data) ∧ open_write f ip inum s' (off + length data) ∧ user_src p T fl B root addr data s' ∧
       ∃ D', idle_log p start s' D' ∧ fsat p sb D' ∅ s' None ∧ fs_holds start sb dstart (blk D') (<[inum := splice c off data]> F))
    (λ D', log_ok start D' ∧ ∃ j, fs_holds start sb dstart (blk (recovered start D'))
       (<[inum := splice c off (take (j * Z.to_nat filewrite_max) data)]> F)).
Proof.
  intros Hdl HF Hc Hlog Hf Hs Ho Hty Hw Hip Hoff Hend Hfree. change (MAXFILE * BSIZE) with (268 * 1024) in Hend.
  pose proof (chunked_start p start sb dstart T fl B root addr data f ip inum off F c Hc Hip Hoff ltac:(lia) s D Hs Ho Hlog Hf HF Hfree) as Hk.
  unfold filewrite. eapply cwp_bind_ok; [intros e; reflexivity|]. rewrite (proj2 (Z.eqb_neq _ _) Hw), Hty.
  rewrite <- (Nat.add_0_r (chunk_cost sb * chunks (length data))). apply cwp_bind. rewrite Nat2Z.id.
  pose proof (filewrite_loop_ok p start sb dstart Hdl T fl B root addr data f ip inum off F c Hip Hoff ltac:(lia) (S (length data)) s 0 Hk) as Hl.
  rewrite Nat.sub_0_r in Hl. eapply cwp_mono; [apply Hl; lia|done| |].
  - intros r s' [-> [C1 C2 (D' & C3 & C4 & Bs & C5 & _) _]]. rewrite Z.eqb_refl. apply cwp_ret. split; [done|]. split; [done|]. split; [done|].
    exists D'. split; [done|]. split; [done|]. exists Bs. unfold files_at in C5. by rewrite firstn_all in C5.
  - intros D' [Hok (j & Hj)]. split; [done|]. exists j. unfold files_at in Hj. change (Z.to_nat filewrite_max) with 3072%nat. rewrite Nat.mul_comm.
    destruct (Nat.le_ge_cases (length data) (3072 * j)); [rewrite Nat.min_l in Hj by done; rewrite firstn_all in Hj; by rewrite take_ge|].
    by rewrite Nat.min_r in Hj.
Qed.

(** ** The blocks that a chunk logs *)

(** They are the blocks of the bitmap, the indirect block, the block of the inode,
    and the data. *)
Lemma logged_size p start D sb dstart ip data c off s bs s' P' bs' :
  0 <= dstart - sb_bmapstart sb → wrote p start D sb dstart ip data c off s ∅ bs s' P' bs' →
  (size P' <= Z.to_nat (dstart - sb_bmapstart sb) + 2 + ((off + length data + 1023) / 1024 - off / 1024))%nat.
Proof.
  intros Hm W. set (lo := (off / 1024)%nat). set (hi := ((off + length data + 1023) / 1024)%nat).
  set (l := seqZ (sb_bmapstart sb) (dstart - sb_bmapstart sb) ++ [di_addrs (dinode_of (inode_at s' ip)) !!! NDIRECT; IBLOCK (i_inum (inode_at s ip)) sb] ++
            take (hi - lo) (drop lo bs')).
  assert (elements (dom P') ⊆+ l) as Hl%submseteq_length.
  { apply NoDup_submseteq; [apply NoDup_elements|]. intros b Hb%elem_of_elements%elem_of_dom. unfold l. rewrite !elem_of_app, elem_of_seqZ, !elem_of_cons.
    destruct (wr_logged _ _ _ _ _ _ _ _ _ _ _ _ _ _ _ W b Hb) as [[? H]|[->|[H|[[-> _]|(i & Hi & Hb')]]]]; [by rewrite lookup_empty in H|auto|left; lia|auto|].
    right. right. apply list_elem_of_lookup. exists (i - lo)%nat. fold lo hi in Hi. rewrite lookup_take_lt, lookup_drop by lia.
    by replace (lo + (i - lo))%nat with i by lia. }
  rewrite <- size_dom. unfold size at 1, set_size. simpl. etrans; [exact Hl|]. unfold l. rewrite !length_app, length_seqZ. cbn [length].
  pose proof (length_take (drop lo bs') (hi - lo)). fold lo hi. lia.
Qed.

(** C17: The budget of a transaction.  On a disk whose bitmap has at most 4
    blocks, [writei] of up to [max] bytes, the chunk that [filewrite] gives it,
    logs at most MAXOPBLOCKS blocks, what [begin_op] has reserved; it returns the
    number of bytes, and the file has them. *)
Theorem writei_budget `{L : Layout} `{V : VirtioDevice} (p : nat) (start : Z) (sb : superblock) (dstart : Z) (D : blocks)
    (s : kstate) (T : gmap (list Z) Z) (fl : list Z) (B root addr : Z) (data c bs : list Z) (ip off : nat) :
  disk_layout start sb dstart → dstart - sb_bmapstart sb <= 4 → hn start D = 0 → length (blk D start) = Z.to_nat BSIZE →
  in_tx p start D s ∅ ∅ 0 → k_sb s = sb → fstate start sb dstart (cview D ∅) (dinode_of (inode_at s ip)) bs c →
  i_dev (inode_at s ip) = ROOTDEV → (ip < length (k_inodes s))%nat → inum_ok sb (i_inum (inode_at s ip)) →
  (∀ i, inum_ok sb i → length (cview D ∅ (IBLOCK i sb)) = Z.to_nat BSIZE) → user_src p T fl B root addr data s →
  (off <= length c)%nat → Z.of_nat (off + length data) <= MAXFILE * BSIZE → Z.of_nat (length data) <= filewrite_max →
  has_free sb dstart (cview D ∅) (table_need ip s + ((off + length data + 1023) / 1024 - length bs)) →
  cwp p (write_cost sb * span off (length data) + 1) (writei ip true addr (Z.of_nat off) (Z.of_nat (length data))) s
    (λ r s', r = Z.of_nat (length data) ∧ 0 <= l_n (k_log s') <= MAXOPBLOCKS ∧
       ∃ P' n' bs', in_tx p start D s' P' ∅ n' ∧ fstate start sb dstart (cview D P') (dinode_of (inode_at s' ip)) bs' (splice c off data))
    (λ D', D' = D).
Proof.
  intros Hdl Hbm Hhn Hhl Hx Hsb Hst Hdev Hip Hin Hlen Hs Hoff Hend Hmax Hfree. change (MAXFILE * BSIZE) with (268 * 1024) in Hend.
  change filewrite_max with 3072 in Hmax. pose proof (us_range _ _ _ _ _ _ _ _ Hs) as [R1 R2].
  pose proof (ow_bound _ _ _ _ (user_owns _ _ _ _ _ _ (us_user _ _ _ _ _ _ _ _ Hs))) as HB. assert (MAXVA < 18446744073709551616) as HM by (by unfold MAXVA).
  pose proof (chunk_span off (length data) ltac:(lia)) as Hsp. pose proof (dl_size _ _ _ Hdl) as (L1 & L2 & L3).
  eapply cwp_mono; [eapply (writei_ok p start D sb dstart ip Hhn Hhl Hdl true addr data (user_src p T fl B root addr data)) with (c := c)
    (total := ((off + length data + 1023) / 1024)%nat) (n := 0%nat) (P := ∅) (bs := bs)|done| |done]; try done.
  - intros a b M Ha. apply (user_src_ext _ _ _ _ _ _ _ a); [done|rewrite (wm_eq _ _ _ _ M); done..|apply (wm_proc _ _ _ _ M)].
  - intros a t m e _ Ha Hm. by apply (user_src_copy p T fl B root).
  - by eapply user_src_data.
  - lia.
  - lia.
  - change NBUF with 30%nat. lia.
  - intros r s' (-> & P' & n' & bs' & X1 & X2 & X3 & _). split; [done|]. split.
    + pose proof (in_tx_size p start D Hhn Hhl s' P' ∅ n' X1 ltac:(change NBUF with 30%nat; lia)) as Hsz.
      pose proof (logged_size p start D sb dstart ip data c off s bs s' P' bs' ltac:(lia) X3) as Hl.
      destruct (op_log _ _ _ _ _ _ _ X1) as (bl & [_ _ En _] & _). rewrite En. change MAXOPBLOCKS with 10.
      assert ((off + length data + 1023) / 1024 - off / 1024 <= 4)%nat by ndlia. lia.
    + exists P', n', bs'. split; [done|apply X3].
Qed.

(** ** A run *)

#[local] Existing Instance layout0.

(** The files of the small disk. *)
Definition small_files : gmap Z (list Z) := {[1 := take 48 (blk small_disk 47); 2 := small_bytes]}.
Definition small_blocks (i : Z) : list Z := if i =? 1 then [47] else [48].

Lemma small_layout : disk_layout 2 small_sb 47.
Proof.
  split; [done|done| | |done].
  - intros inum H. by destruct (small_iblock inum H) as [-> _].
  - intros b Hb. change (sb_size small_sb) with 2000 in Hb. unfold BBLOCK. change BPB with 8192. change (sb_bmapstart small_sb) with 46.
    rewrite Z.div_small by lia. done.
Qed.

Lemma small_bblock b : 0 <= b < 2000 → BBLOCK b small_sb = 46.
Proof. intros Hb. destruct (dl_bmap _ _ _ small_layout b Hb) as [-> _]. change BPB with 8192. by rewrite Z.div_small by lia. Qed.

Lemma small_used b : 0 <= b < 2000 → used small_sb (blk small_disk) b = (b <? 49).
Proof.
  intros Hb. unfold used. rewrite small_bblock by done. change BPB with 8192. rewrite Z.mod_small by lia.
  assert (Forall (λ b, bit_of (blk small_disk 46) b = (b <? 49)) (seqZ 0 2000)) as H by (apply (bool_decide_unpack _); vm_compute; exact I).
  rewrite Forall_forall in H. apply H, elem_of_seqZ. lia.
Qed.

(** A file of one block. *)
Lemma small_one i b n ty :
  inum_ok small_sb i → disk_inode small_sb (blk small_disk) i = mk_dinode ty 0 0 1 (Z.of_nat n) (b :: replicate NDIRECT 0) → ty ≠ 0 →
  47 <= b < 49 → length (blk small_disk b) = 1024%nat → (n <= 1024)%nat →
  file_of small_sb 47 (blk small_disk) i [b] (take n (blk small_disk b)) ∧ owned (disk_inode small_sb (blk small_disk) i) [b] = [b].
Proof.
  intros Hi E Ht Hb Hl Hn. assert (owned (disk_inode small_sb (blk small_disk) i) [b] = [b]) as Eo by (rewrite E; reflexivity).
  split; [|exact Eo]. split; [exact Hi|rewrite E; exact Ht| |rewrite Eo; apply NoDup_singleton|].
  - rewrite E. apply file_rep_one; [reflexivity|reflexivity|lia|exact Hn|lia].
  - rewrite Eo. intros x ->%list_elem_of_singleton. split; [change (sb_size small_sb) with 2000; lia|]. split; [|exact Hl].
    rewrite small_used by lia. apply Z.ltb_lt. lia.
Qed.

Lemma small_file_of i c :
  small_files !! i = Some c →
  (i = 1 ∨ i = 2) ∧ file_of small_sb 47 (blk small_disk) i (small_blocks i) c ∧ owned (disk_inode small_sb (blk small_disk) i) (small_blocks i) = small_blocks i.
Proof.
  destruct small_inodes as (E1 & E2 & _). unfold small_files. intros [[<- <-]|[_ [<- <-]%lookup_singleton_Some]]%lookup_insert_Some.
  - split; [by left|]. apply (small_one 1 47 48 T_DIR); [done|exact E1|done|lia|by vm_compute|by apply Nat.leb_le].
  - split; [by right|]. apply (small_one 2 48 5 T_FILE); [done|exact E2|done|lia|by vm_compute|by apply Nat.leb_le].
Qed.

Lemma small_holds : fs_holds 2 small_sb 47 (blk small_disk) small_files.
Proof.
  exists small_blocks. split.
  - split; [|intros b Hb; rewrite small_used by lia; apply Z.ltb_lt; lia]. intros b Hb. rewrite small_bblock by done. by vm_compute.
  - intros b _. apply (small_bytes_ok b).
  - intros i Hi. destruct (small_iblock i Hi) as [-> _]. by vm_compute.
  - intros i c H. by apply small_file_of.
  - intros i Hi Ht. destruct small_inodes as (_ & _ & E3). destruct (small_iblock i Hi) as [_ [->|[->| ->]]]; [by eexists|by eexists|]. by destruct Ht.
  - intros i j b [ci Hi] [cj Hj]. apply small_file_of in Hi as (Hi & _ & ->), Hj as (Hj & _ & ->). unfold small_blocks.
    destruct Hi as [-> | ->], Hj as [-> | ->]; cbn; try done; intros ->%list_elem_of_singleton Hx%list_elem_of_singleton; discriminate.
  - intros b Hb Hu. change (sb_size small_sb) with 2000 in Hb. rewrite small_used in Hu by lia. apply Z.ltb_lt in Hu.
    assert (b = 47 ∨ b = 48) as [-> | ->] by lia; [exists 1|exists 2]; (split; [by eexists|]).
    + destruct (small_file_of 1 (take 48 (blk small_disk 47)) eq_refl) as (_ & _ & ->). by apply list_elem_of_singleton.
    + destruct (small_file_of 2 small_bytes eq_refl) as (_ & _ & ->). by apply list_elem_of_singleton.
Qed.

(** Process 0 has the file [hi] open for writing at offset 1. *)
Definition scribe : kstate :=
  reader <| k_log := wal_log |> <| k_files ::= <[0%nat := mk_file FD_INODE 1 1 1 0 (Some 0%nat) 1 0]> |>.

Lemma scribe_fsat : fsat 0 small_sb small_disk ∅ scribe None.
Proof. apply fsat_files, fsat_log, reader_fsat. Qed.

Lemma scribe_idle : idle_log 0 2 scribe small_disk.
Proof.
  split; try done; [apply (fa_cache _ _ _ _ _ _ scribe_fsat)|]. exists (replicate (Z.to_nat LOGBLOCKS) 0). by repeat split.
Qed.

Lemma scribe_src : user_src 0 toy_table toy_free 8192 (toy_page 0) 100 [0; 0; 0] scribe.
Proof.
  split.
  - by apply (user_ok_ext 0 8192 (toy_page 0) reader); [apply reader_user|..].
  - done.
  - intros va Hva. change (100 <= va < 100 + 3) in Hva. unfold is_user, is_mapped. change (k_mem scribe) with toy_mem.
    rewrite toy_leaf by lia. rewrite (proj2 (Z.ltb_lt va 4096)) by lia. by vm_compute.
  - by vm_compute.
Qed.

Lemma filewrite_atomic_witness :
  cwp 0 (chunk_cost small_sb * 1) (filewrite 0 100 3) scribe
    (λ r s', r = 3 ∧ open_write 0 0 2 s' 4 ∧ user_src 0 toy_table toy_free 8192 (toy_page 0) 100 [0; 0; 0] s' ∧
       ∃ D', idle_log 0 2 s' D' ∧ fsat 0 small_sb D' ∅ s' None ∧ fs_holds 2 small_sb 47 (blk D') (<[2 := [104; 0; 0; 0; 111]]> small_files))
    (λ D', log_ok 2 D' ∧ ∃ j, fs_holds 2 small_sb 47 (blk (recovered 2 D'))
       (<[2 := splice small_bytes 1 (take (j * Z.to_nat filewrite_max) [0; 0; 0])]> small_files)).
Proof.
  apply (filewrite_atomic 0 2 small_sb 47 small_disk small_files scribe toy_table toy_free 8192 (toy_page 0) 100 [0; 0; 0] small_bytes 0 0 1 2).
  - apply small_layout.
  - apply small_holds.
  - reflexivity.
  - apply scribe_idle.
  - apply scribe_fsat.
  - apply scribe_src.
  - split; [by apply Nat.ltb_lt|reflexivity..].
  - reflexivity.
  - discriminate.
  - by apply Nat.ltb_lt.
  - by apply Nat.leb_le.
  - by vm_compute.
  - exists [49]. split; [apply NoDup_singleton|]. split; [by apply Nat.leb_le|]. constructor; [|constructor]. split; [done|by rewrite small_used].
Defined.

(** The same after [begin_op] and [ilock]. *)
Definition scribe_inode : inode :=
  (small_inode 2) <| i_valid := 1 |> <| i_type := T_FILE |> <| i_nlink := 1 |> <| i_size := 5 |> <| i_addrs := 48 :: replicate NDIRECT 0 |>.
Definition scribe_tx : kstate := scribe <| k_log ::= opened |> <| k_inodes := <[0%nat := scribe_inode]> (replicate NINODE inode0) |>.

Lemma scribe_in_tx : in_tx 0 2 small_disk scribe_tx ∅ ∅ 0.
Proof. apply in_tx_inodes. by destruct (open_tx 0 2 small_sb scribe small_disk scribe_idle scribe_fsat) as (_ & H & _). Qed.

Lemma small_fstate : fstate 2 small_sb 47 (cview small_disk ∅) small_file [48] small_bytes.
Proof.
  destruct small_holds as [Bs [H1 H2 H3 _ _ _ _]]. destruct (small_file_of 2 small_bytes eq_refl) as (_ & [_ _ O3 O4 O5] & _).
  destruct small_inodes as (_ & E2 & _). change (disk_inode small_sb (blk small_disk) 2) with (disk_inode small_sb (cview small_disk ∅) 2) in *.
  rewrite E2 in *. split; [exact O3| |by split]. rewrite <- E2. apply get_dinode_ok, small_bytes_ok.
Qed.

Lemma writei_budget_witness :
  cwp 0 (write_cost small_sb * 1 + 1) (writei 0 true 100 4 3) scribe_tx
    (λ r s', r = 3 ∧ 0 <= l_n (k_log s') <= MAXOPBLOCKS ∧
       ∃ P' n' bs', in_tx 0 2 small_disk s' P' ∅ n' ∧
         fstate 2 small_sb 47 (cview small_disk P') (dinode_of (inode_at s' 0)) bs' [104; 101; 108; 108; 0; 0; 0])
    (λ D', D' = small_disk).
Proof.
  apply (writei_budget 0 2 small_sb 47 small_disk scribe_tx toy_table toy_free 8192 (toy_page 0) 100 [0; 0; 0] small_bytes [48] 0 4).
  - apply small_layout.
  - discriminate.
  - reflexivity.
  - reflexivity.
  - apply scribe_in_tx.
  - reflexivity.
  - apply small_fstate.
  - reflexivity.
  - by apply Nat.ltb_lt.
  - done.
  - intros i Hi. destruct (small_iblock i Hi) as [-> _]. by vm_compute.
  - by apply (user_src_ext 0 _ _ _ _ _ _ scribe); [apply scribe_src|..].
  - by apply Nat.leb_le.
  - by vm_compute.
  - by vm_compute.
  - exists [49]. split; [apply NoDup_singleton|]. split; [by apply Nat.leb_le|]. constructor; [|constructor]. split; [done|exact (small_used 49 ltac:(lia))].
Defined.
