(* ===== verification/Proc.v ===== *)
(** Processes: the part of kernel/proc.c that creates and destroys them
    ([allocproc] to [kwait]; scheduling is in Sched.v and [forkret] in Trap.v). *)

From S2P Require Export File.

Section proc.
Context `{L : Layout}.

(** ** User page tables *)

Definition proc_pagetable (p : nat) : K Z :=
  pagetable ← uvmcreate;
  if pagetable =? 0 then mret 0 else
  r ← mappages pagetable TRAMPOLINE PGSIZE trampoline (Z.lor PTE_R PTE_X);
  if r <? 0 then uvmfree pagetable 0;; mret 0 else
  pr ← get_proc p;
  r ← mappages pagetable TRAPFRAME PGSIZE (p_trapframe pr) (Z.lor PTE_R PTE_W);
  if r <? 0 then
    uvmunmap pagetable TRAMPOLINE 1 false;;
    uvmfree pagetable 0;;
    mret 0
  else mret pagetable.

Definition proc_freepagetable (pagetable sz : Z) : K unit :=
  uvmunmap pagetable TRAMPOLINE 1 false;;
  uvmunmap pagetable TRAPFRAME 1 false;;
  uvmfree pagetable sz.

(** ** Creation *)

Definition freeproc (p : nat) : K unit :=
  pr ← get_proc p;
  when (negb (p_trapframe pr =? 0)) (kfree (p_trapframe pr));;
  upd_proc p (λ x, x <| p_trapframe := 0 |>);;
  pr ← get_proc p;
  when (negb (p_pagetable pr =? 0)) (proc_freepagetable (p_pagetable pr) (p_sz pr));;
  upd_proc p (λ x, x <| p_pagetable := 0 |> <| p_sz := 0 |> <| p_pid := 0 |>
                     <| p_parent := None |> <| p_name ::= <[0%nat := 0]> |>
                     <| p_chan := None |> <| p_killed := 0 |> <| p_xstate := 0 |>
                     <| p_state := UNUSED |>).

(** The code after the label [found:]; the process's lock is held. *)
Definition allocproc_found (p : nat) : K (option nat) :=
  pid ← allocpid;
  upd_proc p (λ x, x <| p_pid := pid |>);;
  upd_proc p (λ x, x <| p_state := USED |>);;
  tf ← kalloc;
  upd_proc p (λ x, x <| p_trapframe := tf |>);;
  if tf =? 0 then freeproc p;; release (Lproc p);; mret None else
  pt ← proc_pagetable p;
  upd_proc p (λ x, x <| p_pagetable := pt |>);;
  if pt =? 0 then freeproc p;; release (Lproc p);; mret None else
  upd_proc p (λ x, x <| p_context := context0 |>);;
  upd_proc p (λ x, x <| p_context ::= λ c, c <| ctx_ra := forkret_addr |> |>);;
  upd_proc p (λ x, x <| p_context ::= λ c, c <| ctx_sp := u64 (p_kstack x + PGSIZE) |> |>);;
  mret (Some p).

(** The process found is returned with its lock held. *)
Definition allocproc : K (option nat) :=
  r ← for_break NPROC 0 (λ p,
    acquire (Lproc p);;
    pr ← get_proc p;
    if decide (p_state pr = UNUSED) then mret (Some p)
    else release (Lproc p);; mret None);
  match r with
  | None => mret None
  | Some p => allocproc_found p
  end.

Definition userinit : K unit :=
  r ← allocproc;
  modify (λ s, s <| k_initproc := r |>);;
  match r with
  | None => panic "kerneltrap"
  | Some p =>
      ip ← namei (bytes_of "/");
      upd_proc p (λ x, x <| p_cwd := ip |>);;
      upd_proc p (λ x, x <| p_state := RUNNABLE |>);;
      release (Lproc p)
  end.

(** [n] is an int; [sz + n] is 64-bit arithmetic. *)
Definition growproc (n : Z) : K Z :=
  p ← curproc;
  pr ← get_proc p;
  let sz := p_sz pr in
  let grown (sz : Z) := upd_proc p (λ x, x <| p_sz := sz |>);; mret 0 in
  if 0 <? n then
    if TRAPFRAME <? u64 (sz + n) then mret (-1) else
    sz ← uvmalloc (p_pagetable pr) sz (u64 (sz + n)) PTE_W;
    if sz =? 0 then mret (-1) else grown sz
  else if n <? 0 then
    sz ← uvmdealloc (p_pagetable pr) sz (u64 (sz + n));
    grown sz
  else grown sz.

(** The loop that duplicates open files, and the rest of [kfork]. *)
Definition kfork_files (p np : nat) : K unit :=
  for_each NOFILE 0 (λ i,
    pr ← get_proc p;
    match p_ofile pr !!! i with
    | Some f =>
        f ← filedup f;
        upd_proc np (λ x, x <| p_ofile ::= <[i := Some f]> |>)
    | None => mret ()
    end).

Definition kfork : K Z :=
  p ← curproc;
  r ← allocproc;
  match r with
  | None => mret (-1)
  | Some np =>
      pr ← get_proc p;
      npr ← get_proc np;
      r ← uvmcopy (p_pagetable pr) (p_pagetable npr) (p_sz pr);
      if r <? 0 then freeproc np;; release (Lproc np);; mret (-1) else
      upd_proc np (λ x, x <| p_sz := p_sz pr |>);;
      upd_mem (λ m, stn m (p_trapframe npr) (ldn m (p_trapframe pr) (Z.to_nat TF_size)));;
      store64 (p_trapframe npr + TF_a0) 0;;
      kfork_files p np;;
      cwd ← match p_cwd pr with Some ip => idup ip | None => panic "kerneltrap" end;
      upd_proc np (λ x, x <| p_cwd := Some cwd |>);;
      upd_proc np (λ x, x <| p_name ::= λ n, safestrcpy n (p_name pr) 16 |>);;
      npr ← get_proc np;
      let pid := p_pid npr in
      release (Lproc np);;
      acquire Lwait;;
      upd_proc np (λ x, x <| p_parent := Some p |>);;
      release Lwait;;
      acquire (Lproc np);;
      upd_proc np (λ x, x <| p_state := RUNNABLE |>);;
      release (Lproc np);;
      mret pid
  end.

(** ** Exit and wait *)

(** Nothing sleeps on a null channel. *)
Definition wakeup_proc (p : option nat) : K unit :=
  match p with Some p => wakeup (ChProc p) | None => mret () end.

Definition reparent (p : nat) : K unit :=
  for_each NPROC 0 (λ pp,
    x ← get_proc pp;
    when (bool_decide (p_parent x = Some p)) (
      init ← gets k_initproc;
      upd_proc pp (λ x, x <| p_parent := init |>);;
      wakeup_proc init)).

Definition kexit_files (p : nat) : K unit :=
  for_each NOFILE 0 (λ fd,
    pr ← get_proc p;
    match p_ofile pr !!! fd with
    | Some f =>
        fileclose f;;
        upd_proc p (λ x, x <| p_ofile ::= <[fd := None]> |>)
    | None => mret ()
    end).

(** An exiting process is never run again: [sched] does not return to it. *)
Definition kexit (status : Z) : K unit :=
  p ← curproc;
  init ← gets k_initproc;
  if decide (init = Some p) then panic "init exiting" else
  kexit_files p;;
  begin_op;;
  pr ← get_proc p;
  match p_cwd pr with Some ip => iput ip | None => panic "kerneltrap" end;;
  end_op;;
  upd_proc p (λ x, x <| p_cwd := None |>);;
  acquire Lwait;;
  reparent p;;
  pr ← get_proc p;
  wakeup_proc (p_parent pr);;
  acquire (Lproc p);;
  upd_proc p (λ x, x <| p_xstate := status |>);;
  upd_proc p (λ x, x <| p_state := ZOMBIE |>);;
  release Lwait;;
  sched;;
  panic "zombie exit".

(** The scan of [kwait] from entry [pp]: [inl] is the value returned, [inr] is
    [havekids]. *)
Fixpoint kwait_scan (p : nat) (addr : Z) (n pp : nat) (havekids : bool) : K (Z + bool) :=
  match n with
  | O => mret (inr havekids)
  | S n' =>
      x ← get_proc pp;
      if decide (p_parent x = Some p) then
        acquire (Lproc pp);;
        x ← get_proc pp;
        if decide (p_state x = ZOMBIE) then
          let pid := p_pid x in
          pr ← get_proc p;
          r ← (if addr =? 0 then mret 0
               else copyout (p_pagetable pr) addr (le_bytes 4 (p_xstate x)));
          if r <? 0 then release (Lproc pp);; release Lwait;; mret (inl (-1)) else
          freeproc pp;;
          release (Lproc pp);;
          release Lwait;;
          mret (inl pid)
        else
          release (Lproc pp);;
          kwait_scan p addr n' (S pp) true
      else kwait_scan p addr n' (S pp) havekids
  end.

Definition kwait (addr : Z) : K Z :=
  p ← curproc;
  acquire Lwait;;
  wait_loop (
    r ← kwait_scan p addr NPROC 0 false;
    match r with
    | inl v => mret (Some v)
    | inr havekids =>
        stop ← (if negb havekids then mret true
                else k ← killed p; mret (negb (k =? 0)));
        if (stop : bool) then release Lwait;; mret (Some (-1)) else
        sleep (ChProc p) Lwait;; mret None
    end).

End proc.
