(* ===== verification/ProcSpace.v ===== *)
(** The address space of a process from its creation to its release:
    [proc_pagetable] and [proc_freepagetable] of Proc.v. *)

From S2P Require Export Proc AddressSpace.

Section proc_space.
Context `{L : Layout}.

Implicit Types T : gmap (list Z) Z.

(** ** Steps of one address space *)

(** The table [T] and the free pages [fl] become [T'] and [fl']: no page is lost
    and none outside them is touched. *)
Record sstep (s : kstate) T (fl : list Z) (B : Z) (m' : memory) (h' : Z) T' (fl' : list Z) : Prop := {
  ss_vm : vm_ok (with_mem s m' h') T' fl';
  ss_owns : owns m' T' fl' B;
  ss_leak : no_leak (k_mem s) T fl m' T' fl' B;
  ss_spared : spared (k_mem s) T fl m' T' fl' B;
}.

Lemma sstep_trans s T1 f1 B m2 h2 T2 f2 m3 h3 T3 f3 :
  sstep s T1 f1 B m2 h2 T2 f2 → sstep (with_mem s m2 h2) T2 f2 B m3 h3 T3 f3 →
  sstep s T1 f1 B m3 h3 T3 f3.
Proof.
  intros [A1 A2 A3 A4] [B1 B2 B3 B4]. change (k_mem (with_mem s m2 h2)) with m2 in *.
  split; [done|done| |by eapply spared_trans]. intros q Hq. by apply B3, A3.
Qed.

Lemma owns_unmapped m T fl B :
  0 <= B <= MAXVA → (∀ va, 0 <= va < B → is_mapped m T va = false) → owns m T fl B.
Proof.
  intros HB Hn. split; [done|..]; intros va; intros; exfalso;
    (assert (is_mapped m T va = false) by (by apply Hn); congruence).
Qed.

(** A step that writes only the table, and nothing below [B]. *)
Lemma sstep_frame s T fl B m' h' T' fl' :
  vm_ok s T fl → owns (k_mem s) T fl B → vm_ok (with_mem s m' h') T' fl' →
  extends T fl T' fl' → frame T' (k_mem s) m' →
  (∀ va, 0 <= va < B → leaf m' T' va = leaf (k_mem s) T va) → sstep s T fl B m' h' T' fl'.
Proof.
  intros Hv Ho Hv' (Hsub & new & -> & Hnew & Hin) Hf Hl.
  assert (∀ va, 0 <= va < B → is_mapped m' T' va = is_mapped (k_mem s) T va ∧
    frame_of m' T' va = frame_of (k_mem s) T va) as Hlf.
  { intros va Hva. unfold is_mapped, frame_of. by rewrite Hl. }
  split; [done| | |].
  - destruct Ho as [O0 O1 O2 O3 O4]. split; [done|..].
    + intros va Hva. destruct (Hlf va Hva) as [-> ->]. by apply O1.
    + intros va Hva. destruct (Hlf va Hva) as [-> ->]. intros Hm. by apply O2, not_elem_of_app in Hm as [_ ?].
    + intros va π Hva. destruct (Hlf va Hva) as [-> ->]. intros Hm Hπ.
      destruct (Hnew _ _ Hπ) as [?|?]; [by eapply O3|]. by apply O2, not_elem_of_app in Hm as [? _].
    + intros va va' Hva Hva'. destruct (Hlf va Hva) as [-> ->], (Hlf va' Hva') as [-> ->]. by apply O4.
  - intros q [[Hq|Hq]%elem_of_app|[[π Hq]|(va & Hva & Hm & Hq)]]; [right; left; by apply Hin|by left| |].
    + right. left. exists π. by eapply lookup_weaken.
    + right. right. exists va. destruct (Hlf va Hva) as [-> ->]. done.
  - intros q Hq [Nn Nf]%not_elem_of_app Hh.
    assert (∀ π, T' !! π ≠ Some q) as HT.
    { intros π E. destruct (Hnew _ _ E); [apply Hh; left; eauto|done]. }
    split_and!; [done| |].
    + intros [[π E]|(va & Hva & Hm & E)]; [by apply (HT π)|]. apply Hh. right. exists va.
      by destruct (Hlf va Hva) as [<- <-].
    + intros a Ha. eapply frame_page; [exact Hf| |exact Hq|exact HT|done].
      apply (pt_page _ _ (vo_pt _ _ _ Hv')).
Qed.

(** [mappages] of one page above [B]. *)
Lemma map_high s T fl B root va pa perm e :
  vm_ok s T fl → owns (k_mem s) T fl B → T !! [] = Some root → B <= va → va mod 4096 = 0 →
  va + 4096 <= MAXVA → 0 <= pa → pa + 4096 <= 2 ^ 56 → 0 <= perm < 1024 →
  is_mapped (k_mem s) T va = false →
  ∃ r m' h' T' fl', mappages root va PGSIZE pa perm s e = Ok r (with_mem s m' h') e ∧
    sstep s T fl B m' h' T' fl' ∧ T ⊆ T' ∧
    ((r = 0 ∧ ∀ va', 0 <= va' < MAXVA → leaf m' T' va' =
        if decide (va <= va' < va + 4096) then mk_pte pa perm else leaf (k_mem s) T va') ∨
     (r = -1 ∧ ∀ va', 0 <= va' < MAXVA → leaf m' T' va' = leaf (k_mem s) T va')).
Proof.
  intros Hv Ho Hr HB Al Hmax Hpa Hpm Hperm Hun. pose proof (ow_bound _ _ _ _ Ho) as HBM.
  destruct (mappages_ok s T fl root va PGSIZE pa perm e) as
    (r & m' & h' & T' & fl' & k & Hrun & Hv' & Hext & Hfr & Hmap & Hres); try done;
    [change PGSIZE with 4096; lia..| |].
  { intros va' Hva'. rewrite (leaf_page _ _ va' va) by (change PGSIZE with 4096 in Hva'; zlia). exact Hun. }
  change PGSIZE with 4096 in Hres. exists r, m', h', T', fl'. split; [done|]. split; [|split; [apply Hext|]].
  - apply sstep_frame; try done. intros va' Hva'. rewrite Hmap by lia. rewrite decide_False; [done|lia].
  - destruct Hres as [[-> Hk]|(-> & Hk0 & Hk & _)]; [left|right]; (split; [done|]); intros va' Hva';
      rewrite Hmap by done.
    + assert (k = 1) as -> by lia. rewrite Z.mul_1_l. case_decide; [|done]. f_equal. zlia.
    + rewrite decide_False; [done|lia].
Qed.

(** [uvmunmap] of one page above [B], without freeing it. *)
Lemma unmap_high s T fl B root va e :
  vm_ok s T fl → owns (k_mem s) T fl B → T !! [] = Some root → B <= va → va mod 4096 = 0 →
  va + 4096 <= MAXVA →
  ∃ m' h', uvmunmap root va 1 false s e = Ok tt (with_mem s m' h') e ∧
    sstep s T fl B m' h' T fl ∧
    (∀ va', 0 <= va' < MAXVA → leaf m' T va' =
       if decide (va <= va' < va + 4096 ∧ is_mapped (k_mem s) T va' = true) then 0
       else leaf (k_mem s) T va').
Proof.
  intros Hv Ho Hr HB Al Hmax. pose proof (ow_bound _ _ _ _ Ho) as HBM.
  assert (∃ m' h', uvmunmap_page root false va s e = Ok tt (with_mem s m' h') e ∧
    vm_ok (with_mem s m' h') T fl ∧ frame T (k_mem s) m' ∧
    ∀ va', 0 <= va' < MAXVA → leaf m' T va' =
      if decide (va <= va' < va + 4096 ∧ is_mapped (k_mem s) T va' = true) then 0
      else leaf (k_mem s) T va') as (m' & h' & Hrun & Hv' & Hf & Hl).
  { assert (is_mapped (k_mem s) T va = false → ∀ va', 0 <= va' < MAXVA → leaf (k_mem s) T va' =
      if decide (va <= va' < va + 4096 ∧ is_mapped (k_mem s) T va' = true) then 0
      else leaf (k_mem s) T va') as Hsame.
    { intros Hun va' Hva'. rewrite decide_False; [done|]. intros [Hin Hm]. unfold is_mapped in *.
      rewrite (leaf_page _ _ va' va) in Hm by zlia. congruence. }
    unfold uvmunmap_page. erewrite bind_Ok by (eapply walk_noalloc; eauto; lia).
    destruct (T !! [PX 1 va; PX 2 va]) as [q|] eqn:Hq.
    2:{ exists (k_mem s), (k_freelist s). rewrite with_mem_id. split_and!; try done.
        apply Hsame. unfold is_mapped, leaf. by rewrite Hq. }
    rewrite (proj2 (Z.eqb_neq _ _)) by (by eapply leaf_addr_nonzero).
    unfold load64. rewrite bind_gets.
    assert (ld64 (k_mem s) (q + 8 * PX 0 va) = leaf (k_mem s) T va) as -> by (unfold leaf; by rewrite Hq).
    destruct (has (leaf (k_mem s) T va) PTE_V) eqn:Hm; cbn [negb].
    2:{ exists (k_mem s), (k_freelist s). rewrite with_mem_id. split_and!; try done. by apply Hsame. }
    destruct (vm_set_leaf s T fl va q 0 Hv Hq) as (Hv1 & Hf1 & Hl1); [lia..|].
    eexists _, (k_freelist s). split; [reflexivity|]. split_and!; [done|done|].
    intros va' Hva'. rewrite Hl1 by done. apply decide_ext. split; [intros E|intros [? _]; zlia].
    split; [zlia|]. unfold is_mapped. by rewrite (leaf_page _ _ va' va) by lia. }
  exists m', h'. split_and!; [|apply sstep_frame; try done; [apply extends_refl|]|done].
  - unfold uvmunmap. change (va mod PGSIZE) with (va mod 4096). rewrite Al. cbn [negb Z.eqb].
    change (1 * PGSIZE) with 4096. change MAXVA with 274877906944 in *. change PGSIZE with 4096.
    rewrite u64_small by lia. change (S (Z.to_nat 1)) with 2%nat. cbn [loop].
    rewrite (proj2 (Z.ltb_lt va _)) by lia. rewrite bind_assoc. erewrite bind_Ok by exact Hrun.
    rewrite bind_ret, u64_small by lia. by rewrite (proj2 (Z.ltb_ge _ _)) by lia.
  - intros va' Hva'. rewrite Hl by lia. rewrite decide_False; [done|lia].
Qed.

(** [uvmfree] of a space with nothing mapped above its size. *)
Lemma uvmfree_space s T fl B root sz e :
  vm_ok s T fl → owns (k_mem s) T fl B → T !! [] = Some root → 0 <= sz <= B → PGROUNDUP sz <= B →
  (∀ va, PGROUNDUP sz <= va < MAXVA → is_mapped (k_mem s) T va = false) →
  ∃ m' h' fl', uvmfree root sz s e = Ok tt (with_mem s m' h') e ∧ sstep s T fl B m' h' ∅ fl'.
Proof.
  intros Hv Ho Hr Hsz HB Hhigh.
  destruct (uvmfree_ok s T fl B root sz e) as (m' & h' & Hrun & Hm & Hout); try done.
  pose proof (ow_bound _ _ _ _ Ho) as HB'. eexists m', h', _. split; [done|].
  assert (0 <= PGROUNDUP sz ∧ PGROUNDUP sz mod 4096 = 0) as [Hup0 Hup1]
    by (change MAXVA with 274877906944 in HB'; rewrite PGROUNDUP_spec by lia; zlia).
  assert (∀ q, held (k_mem s) T B q ↔ q ∈ table_pages T ∨
    q ∈ frames (k_mem s) T 0 (Z.to_nat (PGROUNDUP sz / 4096))) as Hheld.
  { intros q. rewrite elem_of_frames. split.
    - intros [[π Hq]|(va & Hva & Hvm & <-)]; [left; by eapply elem_of_table_pages; [apply Hv|]|right].
      assert (va < PGROUNDUP sz).
      { destruct (decide (va < PGROUNDUP sz)); [done|]. rewrite Hhigh in Hvm by lia. done. }
      exists (va / 4096). unfold is_mapped, frame_of in *.
      rewrite (leaf_page _ _ (0 + va / 4096 * 4096) va) by zlia. split; [zlia|done].
    - intros [[l Hl]%subtree_path|(j & Hj & H1 & H2)]; [left; eauto|right].
      exists (0 + j * 4096). split; [zlia|done]. }
  split.
  - split; [apply Hv|exact Hm|split; try done; [by intros i π []..|by intros π []]|done].
  - apply owns_unmapped; [done|]. done.
  - intros q Hq. left. rewrite Hheld in Hq. rewrite !elem_of_app, !elem_of_reverse. tauto.
  - intros q [Aq Rq] Hfl Hh. split_and!.
    + rewrite !elem_of_app, !elem_of_reverse. rewrite Hheld in Hh. tauto.
    + intros [[π []%lookup_empty_Some]|(va & _ & ? & _)]. done.
    + intros a Ha. apply Hout.
      * intros (π & x & Hx & Hax). destruct (pt_page _ _ (vo_pt _ _ _ Hv) _ _ Hx) as [Ax _].
        assert (x = q) as -> by (change PGSIZE with 4096 in *; zlia). apply Hh. left. eauto.
      * intros va Hva Hvm Hax. destruct (ow_page _ _ _ _ Ho va Hva Hvm) as [Ax _].
        apply Hh. right. exists va. split; [exact Hva|]. split; [exact Hvm|]. change PGSIZE with 4096 in *. zlia.
Qed.

(** [uvmcreate]: a table with an empty root page. *)
Lemma create_space s p fl B e :
  kready (k_x s) → kmem_inv (k_mem s) (k_freelist s) (p :: fl) → 0 <= B <= MAXVA →
  ∃ m' h', uvmcreate s e = Ok p (with_mem s m' h') e ∧ page_ok p ∧
    sstep s ∅ (p :: fl) B m' h' {[ [] := p ]} fl ∧ ∀ va, leaf m' {[ [] := p ]} va = 0.
Proof.
  intros Hk Hm HB. destruct (kalloc_inv s p fl e Hk Hm) as (m1 & h1 & Hrun & Hm1 & Hs1 & _).
  pose proof (km_pages _ _ _ Hm) as [Hp _]%Forall_cons. pose proof (km_nodup _ _ _ Hm) as [Hni _]%NoDup_cons.
  set (m2 := memset m1 p 0 PGSIZE). assert (same_except p m1 m2) as Hs2 by apply same_except_memset.
  assert (∀ π q, ({[ [] := p ]} : gmap (list Z) Z) !! π = Some q → [] = π ∧ p = q) as HT
    by (intros π q; apply lookup_singleton_Some).
  assert (∀ va, leaf m2 {[ [] := p ]} va = 0) as Hl.
  { intros va. unfold leaf. by rewrite lookup_singleton_ne. }
  exists m2, h1. split_and!; [|done| |done].
  - unfold uvmcreate. erewrite bind_Ok by exact Hrun. pose proof (page_ok_nonzero p Hp).
    by rewrite (proj2 (Z.eqb_neq p 0)) by lia.
  - split.
    + split; [done| | |by intros π q [_ <-]%HT].
      * eapply (kmem_inv_outside [p]); [apply memset_ok, Hm1|by apply outside_same_except| | |exact Hm1];
          by intros q ->%list_elem_of_singleton.
      * split; [by intros π q [_ <-]%HT|by intros π1 π2 q [<- _]%HT [<- _]%HT|
                by intros i π [q [? _]%HT]|by intros i π [q [? _]%HT]|by intros π [q [<- _]%HT]; simpl; lia|].
        intros π q i [<- <-]%HT _ Hi. rewrite lookup_singleton_ne by done. by apply ld64_zero_page.
    + apply owns_unmapped; [done|]. intros va _. unfold is_mapped. by rewrite Hl.
    + intros q [[->|Hq]%elem_of_cons|[[π []%lookup_empty_Some]|(va & _ & ? & _)]]; [|by left|done].
      right. left. by exists [].
    + intros q [Aq Rq] [Np Nf]%not_elem_of_cons _. split_and!; [done| |].
      * intros [[π [_ E]%HT]|(va & _ & Hvm & _)]; [congruence|]. unfold is_mapped in Hvm. by rewrite Hl in Hvm.
      * intros a Ha. destruct Hp as [Ap _]. rewrite Hs2, Hs1; [done|..];
          (destruct (page_disjoint p q Ap Aq); [done|lia..]).
Qed.

(** ** The page table of a process *)

(** From [B] up: the trampoline at the top, the trap frame [tf] below it, and
    nothing else. *)
Definition high_leaves (m : memory) T (B tf : Z) : Prop :=
  ∀ va, B <= va < MAXVA →
    if decide (TRAMPOLINE <= va) then leaf m T va = mk_pte trampoline (Z.lor PTE_R PTE_X)
    else if decide (TRAPFRAME <= va) then leaf m T va = mk_pte tf (Z.lor PTE_R PTE_W)
    else is_mapped m T va = false.

Lemma high_leaves_ext m m' T T' B B' tf :
  B <= B' → (∀ va, B' <= va < MAXVA → leaf m' T' va = leaf m T va) →
  high_leaves m T B tf → high_leaves m' T' B' tf.
Proof.
  intros HB Hl Hh va Hva. specialize (Hh va ltac:(lia)). unfold is_mapped in *. by rewrite Hl.
Qed.

Lemma trampoline_pa : 0 <= trampoline ∧ trampoline + 4096 <= 2 ^ 56.
Proof.
  pose proof trampoline_range as [H1 H2]. pose proof end_range as [_ H3].
  change KERNBASE with 2147483648 in H1. change PHYSTOP with 2281701376 in H3.
  change (2 ^ 56) with 72057594037927936. lia.
Qed.

Lemma page_pa p : page_ok p → 0 <= p ∧ p + 4096 <= 2 ^ 56.
Proof.
  intros [_ [H1 H2]]. pose proof end_range as [H3 _]. change KERNBASE with 2147483648 in H3.
  change PHYSTOP with 2281701376 in H2. change (2 ^ 56) with 72057594037927936. lia.
Qed.

(** [proc_freepagetable] gives back every page of the space but the trap frame's. *)
Lemma proc_freepagetable_ok s T fl B root sz tf e :
  vm_ok s T fl → owns (k_mem s) T fl B → T !! [] = Some root → 0 <= sz <= B → PGROUNDUP sz <= B →
  B <= TRAPFRAME → high_leaves (k_mem s) T (PGROUNDUP sz) tf →
  ∃ m' h' fl', proc_freepagetable root sz s e = Ok tt (with_mem s m' h') e ∧ sstep s T fl B m' h' ∅ fl'.
Proof.
  intros Hv Ho Hr Hsz HB HBT Hh. unfold proc_freepagetable.
  change TRAPFRAME with 274877898752 in *. change TRAMPOLINE with 274877902848 in *.
  destruct (unmap_high s T fl B root 274877902848 e) as (m1 & h1 & Hrun1 & Hs1 & Hl1);
    [exact Hv|exact Ho|exact Hr|lia|reflexivity|change MAXVA with 274877906944; lia|].
  erewrite bind_Ok by exact Hrun1.
  destruct (unmap_high (with_mem s m1 h1) T fl B root 274877898752 e) as (m2 & h2 & Hrun2 & Hs2 & Hl2);
    [apply Hs1|apply Hs1|exact Hr|lia|reflexivity|change MAXVA with 274877906944; lia|].
  erewrite bind_Ok by exact Hrun2. rewrite with_mem_twice in *.
  pose proof (sstep_trans _ _ _ _ _ _ _ _ _ _ _ _ Hs1 Hs2) as Hs12.
  destruct (uvmfree_space (with_mem s m2 h2) T fl B root sz e) as (m3 & h3 & fl' & Hrun3 & Hs3);
    [apply Hs12|apply Hs12|exact Hr|exact Hsz|exact HB| |].
  - intros va Hva. change (k_mem (with_mem s m1 h1)) with m1 in Hl2. change (k_mem (with_mem s m2 h2)) with m2.
    assert (0 <= PGROUNDUP sz) by (pose proof (ow_bound _ _ _ _ Ho) as HB';
      change MAXVA with 274877906944 in HB'; rewrite PGROUNDUP_spec by lia; zlia).
    unfold is_mapped in *. rewrite Hl2, Hl1 by lia. change MAXVA with 274877906944 in Hva.
    destruct (decide (274877902848 <= va)) as [H1|H1]; [|destruct (decide (274877898752 <= va)) as [H2|H2]].
    + case_decide; [done|]. case_decide as H3; [done|]. destruct (has _ _) eqn:E; [|done].
      destruct H3. split; [lia|done].
    + rewrite (decide_False (P := 274877902848 <= va < _ ∧ _)) by lia. case_decide as H3; [done|].
      destruct (has _ _) eqn:E; [|done]. destruct H3. split; [lia|done].
    + rewrite !decide_False by (intros [? _]; lia). specialize (Hh va ltac:(change MAXVA with 274877906944; lia)).
      by rewrite !decide_False in Hh.
  - exists m3, h3, fl'. split; [exact Hrun3|]. eapply sstep_trans; [exact Hs12|exact Hs3].
Qed.

Lemma empty_vm s fl : kready (k_x s) → kmem_inv (k_mem s) (k_freelist s) fl → vm_ok s ∅ fl.
Proof. intros Hk Hm. split; [done|done|split; try done; [by intros i π []..|by intros π []]|done]. Qed.

(** The second mapping of [proc_pagetable], with the trampoline in place. *)
Lemma map_trapframe s T fl B root p e :
  vm_ok s T fl → owns (k_mem s) T fl B → T !! [] = Some root → page_ok root → 0 <= B <= TRAPFRAME →
  page_ok (p_trapframe (proc_at s p)) →
  (∀ va, 0 <= va < MAXVA → leaf (k_mem s) T va =
     if decide (TRAMPOLINE <= va) then mk_pte trampoline (Z.lor PTE_R PTE_X) else 0) →
  ∃ r m' h' T' fl', (pr ← get_proc p;
      r ← mappages root TRAPFRAME PGSIZE (p_trapframe pr) (Z.lor PTE_R PTE_W);
      if r <? 0 then uvmunmap root TRAMPOLINE 1 false;; uvmfree root 0;; mret 0 else mret root) s e =
      Ok r (with_mem s m' h') e ∧ sstep s T fl B m' h' T' fl' ∧
    ((r = 0 ∧ T' = ∅) ∨
     (page_ok r ∧ T' !! [] = Some r ∧ high_leaves m' T' 0 (p_trapframe (proc_at s p)))).
Proof.
  intros Hv Ho Hr Hroot HB Htf Hl. change TRAPFRAME with 274877898752 in *.
  change TRAMPOLINE with 274877902848 in *.
  assert (274877898752 < MAXVA) as HMAX by (change MAXVA with 274877906944; lia).
  unfold get_proc. rewrite bind_gets.
  set (tf := p_trapframe (proc_at s p)) in *.
  destruct (map_high s T fl B root 274877898752 tf (Z.lor PTE_R PTE_W) e)
    as (r3 & m3 & h3 & T3 & fl3 & Hrun3 & Hs3 & Hsub3 & Hr3);
    [exact Hv|exact Ho|exact Hr|lia|reflexivity|change MAXVA with 274877906944; lia|
     by apply page_pa|by apply page_pa|by vm_compute| |].
  { unfold is_mapped. simpl. by rewrite Hl, decide_False by lia. }
  erewrite bind_Ok by exact Hrun3.
  assert (T3 !! [] = Some root) as Hrt3 by (by eapply lookup_weaken).
  destruct Hr3 as [[-> Hl3]|[-> Hl3]]; cbn [Z.ltb Z.compare].
  - exists root, m3, h3, T3, fl3. split_and!; [done|done|]. right. split_and!; [done..|].
    intros va Hva. unfold is_mapped. rewrite Hl3, Hl by done. change TRAMPOLINE with 274877902848.
    change TRAPFRAME with 274877898752. change MAXVA with 274877906944 in Hva.
    repeat case_decide; (done || lia).
  - destruct (unmap_high (with_mem s m3 h3) T3 fl3 B root 274877902848 e) as (m4 & h4 & Hrun4 & Hs4 & Hl4);
      [apply Hs3|apply Hs3|exact Hrt3|lia|reflexivity|change MAXVA with 274877906944; lia|].
    erewrite bind_Ok by exact Hrun4. rewrite with_mem_twice in *.
    pose proof (sstep_trans _ _ _ _ _ _ _ _ _ _ _ _ Hs3 Hs4) as Hs34.
    destruct (uvmfree_space (with_mem s m4 h4) T3 fl3 B root 0 e) as (m5 & h5 & fl5 & Hrun5 & Hs5);
      [apply Hs34|apply Hs34|exact Hrt3|lia|change (PGROUNDUP 0) with 0; lia| |].
    { intros va Hva. change (PGROUNDUP 0) with 0 in Hva. change (k_mem (with_mem s m3 h3)) with m3 in Hl4.
      unfold is_mapped in *. simpl. rewrite Hl4 by done. case_decide as Hd; [done|].
      destruct (decide (274877902848 <= va)) as [Hge|Hlt].
      - destruct (has (leaf m3 T3 va) PTE_V) eqn:E; [|done]. destruct Hd.
        split; [change MAXVA with 274877906944 in Hva; lia|done].
      - by rewrite Hl3, Hl, decide_False by lia. }
    exists 0, m5, h5, ∅, fl5. split_and!; [by erewrite bind_Ok by exact Hrun5| |by left].
    by eapply sstep_trans.
Qed.

(** [proc_pagetable] makes such a table, or gives back what it took. *)
Lemma proc_pagetable_ok s fl B p e :
  kready (k_x s) → kmem_inv (k_mem s) (k_freelist s) fl → 0 <= B <= TRAPFRAME →
  page_ok (p_trapframe (proc_at s p)) →
  ∃ r m' h' T' fl', proc_pagetable p s e = Ok r (with_mem s m' h') e ∧ sstep s ∅ fl B m' h' T' fl' ∧
    ((r = 0 ∧ T' = ∅) ∨
     (page_ok r ∧ T' !! [] = Some r ∧ high_leaves m' T' 0 (p_trapframe (proc_at s p)))).
Proof.
  intros Hk Hm HB Htf. unfold proc_pagetable. change TRAPFRAME with 274877898752 in *.
  assert (274877898752 < MAXVA) as HMAX by (change MAXVA with 274877906944; lia).
  destruct fl as [|root fl].
  { exists 0, (k_mem s), (k_freelist s), ∅, []. rewrite with_mem_id. unfold uvmcreate.
    split_and!; [|split|by left].
    - rewrite bind_assoc. by erewrite bind_Ok by (by apply kalloc_empty).
    - rewrite with_mem_id. by apply empty_vm.
    - by apply owns_unmapped; [lia|].
    - by intros q.
    - apply spared_refl. }
  destruct (create_space s root fl B e Hk Hm) as (m1 & h1 & Hrun1 & Hroot & Hs1 & Hl1); [lia|].
  erewrite bind_Ok by exact Hrun1. pose proof (page_ok_nonzero root Hroot).
  rewrite (proj2 (Z.eqb_neq root 0)) by lia.
  set (T1 := {[ [] := root ]}) in *. assert (T1 !! [] = Some root) as Hr1 by done.
  change TRAMPOLINE with 274877902848.
  destruct (map_high (with_mem s m1 h1) T1 fl B root 274877902848 trampoline (Z.lor PTE_R PTE_X) e)
    as (r2 & m2 & h2 & T2 & fl2 & Hrun2 & Hs2 & Hsub2 & Hr2);
    [apply Hs1|apply Hs1|exact Hr1|lia|reflexivity|change MAXVA with 274877906944; lia|
     apply trampoline_pa|apply trampoline_pa|by vm_compute|unfold is_mapped; simpl; by rewrite Hl1|].
  erewrite bind_Ok by exact Hrun2. rewrite with_mem_twice in *.
  pose proof (sstep_trans _ _ _ _ _ _ _ _ _ _ _ _ Hs1 Hs2) as Hs12.
  assert (T2 !! [] = Some root) as Hrt2 by (by eapply lookup_weaken).
  change (k_mem (with_mem s m1 h1)) with m1 in *. destruct Hr2 as [[-> Hl2]|[-> Hl2]]; cbn [Z.ltb Z.compare].
  2:{ destruct (uvmfree_space (with_mem s m2 h2) T2 fl2 B root 0 e) as (m3 & h3 & fl3 & Hrun3 & Hs3);
        [apply Hs12|apply Hs12|exact Hrt2|lia|change (PGROUNDUP 0) with 0; lia| |].
      { intros va Hva. change (PGROUNDUP 0) with 0 in Hva. unfold is_mapped. simpl. by rewrite Hl2, Hl1. }
      exists 0, m3, h3, ∅, fl3. split_and!; [by erewrite bind_Ok by exact Hrun3| |by left].
      by eapply sstep_trans. }
  destruct (map_trapframe (with_mem s m2 h2) T2 fl2 B root p e) as (r & m3 & h3 & T3 & fl3 & Hrun3 & Hs3 & Hr3);
    [apply Hs12|apply Hs12|done|done|done|done| |].
  { intros va Hva. simpl. rewrite Hl2, Hl1 by done. change TRAMPOLINE with 274877902848.
    change MAXVA with 274877906944 in Hva. repeat case_decide; (done || lia). }
  exists r, m3, h3, T3, fl3. split_and!; [exact Hrun3|by eapply sstep_trans|done].
Qed.

End proc_space.
