(* ===== verification/ProcSlot.v ===== *)
(** Process slots: what [freeproc] and [allocproc] of Proc.v do to the process
    table and to memory. *)

From S2P Require Export ProcSpace SchedSpec.

(** ** The kernel around one slot *)

(** The state [s] with the machine [x], memory [m], free list [h], the slot [np]
    holding [c], the next pid [n], and the tables of files and inodes. *)
Definition world (s : kstate) (np : nat) (x : xstate) (m : memory) (h : Z) (c : proc) (n : Z)
    (fs : list file) (ins : list inode) : kstate :=
  s <| k_x := x |> <| k_mem := m |> <| k_freelist := h |> <| k_procs := <[np := c]> (k_procs s) |>
    <| k_nextpid := n |> <| k_files := fs |> <| k_inodes := ins |>.

Section world.
Context (s : kstate) (np : nat) (Hnp : (np < length (k_procs s))%nat).

Lemma world_intro x :
  s <| k_x := x |> = world s np x (k_mem s) (k_freelist s) (proc_at s np) (k_nextpid s)
    (k_files s) (k_inodes s).
Proof.
  unfold world, proc_at. rewrite list_insert_id by (by apply list_lookup_lookup_total_lt).
  by destruct s.
Qed.

Lemma world_mem x m h c n fs ins m' h' :
  with_mem (world s np x m h c n fs ins) m' h' = world s np x m' h' c n fs ins.
Proof. reflexivity. Qed.

Lemma world_child x m h c n fs ins : proc_at (world s np x m h c n fs ins) np = c.
Proof. unfold proc_at. simpl. by apply list_lookup_total_insert_eq. Qed.

Lemma world_other x m h c n fs ins q : q ≠ np → proc_at (world s np x m h c n fs ins) q = proc_at s q.
Proof. intros H. unfold proc_at. simpl. by apply list_lookup_total_insert_ne. Qed.

Lemma bind_child {A} (k : proc → K A) x m h c n fs ins e :
  (get_proc np ≫= k) (world s np x m h c n fs ins) e = k c (world s np x m h c n fs ins) e.
Proof. unfold get_proc. by rewrite bind_gets, world_child. Qed.

Lemma bind_other {A} (k : proc → K A) x m h c n fs ins q e :
  q ≠ np → (get_proc q ≫= k) (world s np x m h c n fs ins) e = k (proc_at s q) (world s np x m h c n fs ins) e.
Proof. intros H. unfold get_proc. by rewrite bind_gets, world_other. Qed.

Lemma upd_child f x m h c n fs ins e :
  upd_proc np f (world s np x m h c n fs ins) e = Ok tt (world s np x m h (f c) n fs ins) e.
Proof.
  unfold upd_proc, modify. rewrite world_child.
  change (k_procs (world s np x m h c n fs ins)) with (<[np := c]> (k_procs s)).
  by rewrite list_insert_insert_eq.
Qed.

Lemma bind_upd_child {A} (k : unit → K A) f x m h c n fs ins e :
  (upd_proc np f ≫= k) (world s np x m h c n fs ins) e = k tt (world s np x m h (f c) n fs ins) e.
Proof. by erewrite bind_Ok by apply upd_child. Qed.

Lemma bind_mem {A} (k : unit → K A) f x m h c n fs ins e :
  (upd_mem f ≫= k) (world s np x m h c n fs ins) e = k tt (world s np x (f m) h c n fs ins) e.
Proof. unfold upd_mem. by rewrite bind_modify. Qed.

Lemma bind_acquire {A} (k : unit → K A) lk x m h c n fs ins e :
  xwf x → lock_free lk x →
  (acquire lk ≫= k) (world s np x m h c n fs ins) e = k tt (world s np (acquired lk x) m h c n fs ins) e.
Proof. intros W F. by erewrite bind_Ok by (by apply acquire_ok). Qed.

(** Releasing a lock taken in a settled state. *)
Lemma release_world lk x m h c n fs ins e :
  xwf x → settled x → lock_free lk x →
  release lk (world s np (acquired lk x) m h c n fs ins) e = Ok tt (world s np x m h c n fs ins) e.
Proof. intros W St F. erewrite release_after; [|reflexivity|done..]. by rewrite St. Qed.

Lemma bind_release {A} (k : unit → K A) lk x m h c n fs ins e :
  xwf x → settled x → lock_free lk x →
  (release lk ≫= k) (world s np (acquired lk x) m h c n fs ins) e = k tt (world s np x m h c n fs ins) e.
Proof. intros. by erewrite bind_Ok by (by apply release_world). Qed.

End world.

Section slots.
Context `{L : Layout}.

Implicit Types T : gmap (list Z) Z.

Lemma vm_ok_ext s s' T fl :
  k_x s' = k_x s → k_mem s' = k_mem s → k_freelist s' = k_freelist s → vm_ok s T fl → vm_ok s' T fl.
Proof. intros E1 E2 E3 [H1 H2 H3 H4]. split; by rewrite ?E1, ?E2, ?E3. Qed.

(** ** freeproc *)

(** The slot after [freeproc]. *)
Definition freed (c : proc) : proc :=
  c <| p_trapframe := 0 |> <| p_pagetable := 0 |> <| p_sz := 0 |> <| p_pid := 0 |>
    <| p_parent := None |> <| p_name ::= <[0%nat := 0]> |> <| p_chan := None |>
    <| p_killed := 0 |> <| p_xstate := 0 |> <| p_state := UNUSED |>.

(** The trap frame page of a slot, if it has one. *)
Definition frame_pages (c : proc) : list Z :=
  if p_trapframe c =? 0 then [] else [p_trapframe c].

(** The memory that a slot owns: a trap frame page, and a page table [T] with
    pages mapped up to its size. *)
Record slot_ok (m : memory) (c : proc) T (fl : list Z) (B : Z) : Prop := {
  so_frame : ∀ q, q ∈ frame_pages c → page_ok q ∧ q ∉ fl ∧ ~ held m T B q;
  so_table : (p_pagetable c = 0 ∧ T = ∅) ∨
    (p_pagetable c ≠ 0 ∧ T !! [] = Some (p_pagetable c) ∧
     high_leaves m T (PGROUNDUP (p_sz c)) (p_trapframe c));
  so_sz : 0 <= p_sz c <= B ∧ PGROUNDUP (p_sz c) <= B ∧ B <= TRAPFRAME;
}.

(** Giving back a page that the space does not use. *)
Lemma kfree_step s T fl B p e :
  vm_ok s T fl → owns (k_mem s) T fl B → page_ok p → p ∉ fl → ~ held (k_mem s) T B p →
  ∃ m', kfree p s e = Ok tt (with_mem s m' p) e ∧ sstep s T (p :: fl) B m' p T (p :: fl) ∧
    ∀ va, leaf m' T va = leaf (k_mem s) T va.
Proof.
  intros Hv Ho Hp Hfl Hh.
  destruct (ts_kfree s ∅ T fl B p e) as (m' & Hrun & Hts & Hl & _ & Hs); try done;
    [by apply ts_single|apply held_none|].
  assert (∀ va, leaf m' T va = leaf (k_mem s) T va) as Hl' by (intros; apply Hl; by right).
  exists m'. split_and!; [done| |done]. split.
  - by eapply ts_vm_new.
  - apply Hts.
  - intros q [Hq|Hq]; [by left|right]. by rewrite (held_leaf (k_mem s)).
  - by apply (spared_page _ _ _ _ _ _ p); [left|..].
Qed.

Lemma freeproc_ok s np x m h c n fs ins T fl B e :
  (np < length (k_procs s))%nat → vm_ok (world s np x m h c n fs ins) T fl → owns m T fl B →
  slot_ok m c T fl B →
  ∃ m' h' fl', freeproc np (world s np x m h c n fs ins) e =
      Ok tt (world s np x m' h' (freed c) n fs ins) e ∧
    sstep (world s np x m h c n fs ins) T (frame_pages c ++ fl) B m' h' ∅ fl'.
Proof.
  intros Hnp Hv Ho [Hfr Ht (Hsz & Hup & HB)]. unfold freeproc. rewrite bind_child by done.
  set (w := world s np x m h c n fs ins) in *.
  assert (∃ m1 h1, when (negb (p_trapframe c =? 0)) (kfree (p_trapframe c)) w e =
      Ok tt (world s np x m1 h1 c n fs ins) e ∧
    sstep w T (frame_pages c ++ fl) B m1 h1 T (frame_pages c ++ fl) ∧
    ∀ va, leaf m1 T va = leaf m T va) as (m1 & h1 & Hrun1 & Hs1 & Hl1).
  { unfold frame_pages in *. destruct (Z.eqb_spec (p_trapframe c) 0) as [E|N]; cbn [negb when].
    - exists m, h. split_and!; [done| |done]. split; [done|done|by intros q|apply spared_refl].
    - destruct (Hfr (p_trapframe c)) as (Hp & Hf & Hh); [by left|].
      destruct (kfree_step w T fl B (p_trapframe c) e) as (m1 & Hrun & Hs & Hl); try done.
      exists m1, (p_trapframe c). split_and!; done. }
  erewrite bind_Ok by exact Hrun1. rewrite bind_upd_child by done. rewrite bind_child by done.
  set (c1 := c <| p_trapframe := 0 |>). set (w1 := world s np x m1 h1 c1 n fs ins).
  change (p_pagetable c1) with (p_pagetable c). change (p_sz c1) with (p_sz c).
  assert (∃ m2 h2 fl', when (negb (p_pagetable c =? 0)) (proc_freepagetable (p_pagetable c) (p_sz c)) w1 e =
      Ok tt (world s np x m2 h2 c1 n fs ins) e ∧
    sstep w T (frame_pages c ++ fl) B m2 h2 ∅ fl') as (m2 & h2 & fl' & Hrun2 & Hs2).
  { destruct Ht as [[-> ->]|(N & Hr & Hh)]; cbn [Z.eqb negb when].
    - exists m1, h1, (frame_pages c ++ fl). split; [done|exact Hs1].
    - rewrite (proj2 (Z.eqb_neq _ _)) by done. cbn [negb when].
      destruct (proc_freepagetable_ok w1 T (frame_pages c ++ fl) B (p_pagetable c) (p_sz c) (p_trapframe c) e)
        as (m2 & h2 & fl' & Hrun & Hs); try done.
      + eapply vm_ok_ext; [..|apply Hs1]; done.
      + apply Hs1.
      + by eapply high_leaves_ext; [..|exact Hh].
      + exists m2, h2, fl'. split; [exact Hrun|]. destruct Hs as [V O K S].
        eapply sstep_trans; [exact Hs1|]. split; [|done..]. eapply vm_ok_ext; [..|exact V]; done. }
  erewrite bind_Ok by exact Hrun2. rewrite upd_child by done.
  exists m2, h2, fl'. split; [reflexivity|exact Hs2].
Qed.

(** ** allocproc *)

(** The machine state in which processes are created. *)
Record proc_ready (x : xstate) : Prop := {
  pr_xwf : xwf x;
  pr_settled : settled x;
  pr_kmem : lock_free Lkmem x;
  pr_pid : lock_free Lpid x;
  pr_procs : ∀ q, (q < NPROC)%nat → lock_free (Lproc q) x;
}.

Lemma ready_held x q : proc_ready x → kready (acquired (Lproc q) x).
Proof.
  intros [W St F _ _]. split; [by apply xwf_acquired|by apply acquired_settled|].
  by apply lock_free_acquired.
Qed.

(** The first unused slot among [n] from [i]. *)
Fixpoint find_unused (ps : list proc) (n i : nat) : option nat :=
  match n with
  | O => None
  | S n' => if decide (p_state (ps !!! i) = UNUSED) then Some i else find_unused ps n' (S i)
  end.

Lemma find_unused_spec ps n i :
  match find_unused ps n i with
  | Some q => (i <= q < i + n)%nat ∧ p_state (ps !!! q) = UNUSED ∧
      ∀ j, (i <= j < q)%nat → p_state (ps !!! j) ≠ UNUSED
  | None => ∀ j, (i <= j < i + n)%nat → p_state (ps !!! j) ≠ UNUSED
  end.
Proof.
  revert i. induction n as [|n IH]; intros i; cbn [find_unused]; [lia|].
  case_decide as E; [split_and!; (done || lia)|]. specialize (IH (S i)).
  destruct (find_unused ps n (S i)) as [q|].
  - destruct IH as (H1 & H2 & H3). split_and!; [lia|lia|done|]. intros j Hj.
    destruct (decide (j = i)) as [->|]; [done|]. apply H3. lia.
  - intros j Hj. destruct (decide (j = i)) as [->|]; [done|]. apply IH. lia.
Qed.

(** The loop of [allocproc]. *)
Lemma allocproc_scan s n i e :
  proc_ready (k_x s) → (i + n = NPROC)%nat →
  for_break n i (λ p, acquire (Lproc p);; pr ← get_proc p;
    if decide (p_state pr = UNUSED) then mret (Some p) else release (Lproc p);; mret None) s e =
  Ok (find_unused (k_procs s) n i)
    (match find_unused (k_procs s) n i with
     | Some q => s <| k_x := acquired (Lproc q) (k_x s) |> | None => s end) e.
Proof.
  intros Hr. pose proof Hr as [W St _ _ F]. revert i. induction n as [|n IH]; intros i Hi;
    cbn [for_break find_unused]; [done|]. rewrite bind_assoc.
  erewrite bind_Ok by (apply acquire_ok; [done|apply F; lia]). unfold get_proc. rewrite bind_assoc, bind_gets.
  change (proc_at (s <| k_x ::= acquired (Lproc i) |>) i) with (k_procs s !!! i).
  case_decide as E; [by rewrite bind_ret|]. rewrite bind_assoc.
  erewrite bind_Ok by (eapply release_after; [reflexivity|done|apply F; lia]).
  rewrite bind_ret, <- IH by lia. rewrite St. f_equal. by destruct s.
Qed.

Lemma bind_allocpid {A} s np x m h c n fs ins (k : Z → K A) e :
  xwf x → settled x → lock_free Lpid x →
  (allocpid ≫= k) (world s np x m h c n fs ins) e = k n (world s np x m h c (i32 (n + 1)) fs ins) e.
Proof.
  intros W St F. unfold allocpid. rewrite bind_assoc, bind_acquire by done.
  rewrite bind_assoc, bind_gets, bind_assoc, bind_modify, bind_assoc.
  change (set k_nextpid (λ n, i32 (n + 1)) (world s np (acquired Lpid x) m h c n fs ins))
    with (world s np (acquired Lpid x) m h c (i32 (n + 1)) fs ins).
  by rewrite bind_release, bind_ret.
Qed.

(** The slot that [allocproc] returns. *)
Definition new_proc (c : proc) (pid tf pt : Z) : proc :=
  c <| p_pid := pid |> <| p_state := USED |> <| p_trapframe := tf |> <| p_pagetable := pt |>
    <| p_context := context0 <| ctx_ra := forkret_addr |> <| ctx_sp := u64 (p_kstack c + PGSIZE) |> |>.

(** Pages go from the free list to the slot, and nowhere else. *)
Record slot_step (m : memory) (fl : list Z) (s' : kstate) (c : proc) T (fl' : list Z) (B : Z) : Prop := {
  sl_vm : vm_ok s' T fl';
  sl_owns : owns (k_mem s') T fl' B;
  sl_slot : slot_ok (k_mem s') c T fl' B;
  sl_leak : no_leak m ∅ fl (k_mem s') T (frame_pages c ++ fl') B;
  sl_spared : spared m ∅ fl (k_mem s') T (frame_pages c ++ fl') B;
}.

(** A slot without memory. *)
Lemma slot_empty m c fl B :
  p_trapframe c = 0 → p_pagetable c = 0 → p_sz c = 0 → 0 <= B <= TRAPFRAME → slot_ok m c ∅ fl B.
Proof.
  intros E1 E2 E3 HB. split; [|by left|rewrite E3; change (PGROUNDUP 0) with 0; lia].
  unfold frame_pages. rewrite E1. by intros q ?%elem_of_nil.
Qed.

Lemma TRAPFRAME_max B : B <= TRAPFRAME → B <= MAXVA.
Proof. change TRAPFRAME with 274877898752. change MAXVA with 274877906944. lia. Qed.

(** Giving a slot up: everything it took is free again. *)
Lemma drop_slot {A} (r : A) s np x m0 fl0 m h c n fs ins T fl B e :
  (np < length (k_procs s))%nat → (np < NPROC)%nat → proc_ready x →
  slot_step m0 fl0 (world s np (acquired (Lproc np) x) m h c n fs ins) c T fl B →
  ∃ m' h' fl', (freeproc np;; release (Lproc np);; mret r)
      (world s np (acquired (Lproc np) x) m h c n fs ins) e =
      Ok r (world s np x m' h' (freed c) n fs ins) e ∧
    slot_step m0 fl0 (world s np x m' h' (freed c) n fs ins) (freed c) ∅ fl' B.
Proof.
  intros Hlen Hnp Hr [Hv Ho Hs Hlk Hsp].
  destruct (freeproc_ok s np (acquired (Lproc np) x) m h c n fs ins T fl B e)
    as (m' & h' & fl' & Hrun & [Hv' Ho' Hlk' Hsp']); try done.
  pose proof Hr as [W St Fk _ Fp]. exists m', h', fl'. split.
  - erewrite bind_Ok by exact Hrun. by rewrite bind_release by auto.
  - split; [|exact Ho'| | |].
    + apply empty_vm; [by split|apply Hv'].
    + pose proof (so_sz _ _ _ _ _ Hs). apply slot_empty; [done..|lia].
    + intros q Hq. by apply Hlk', Hlk.
    + by eapply spared_trans.
Qed.

(** After [kalloc] has given the trap frame page. *)
Lemma frame_step m m1 tf fl B c m' T' fl' :
  page_ok tf → tf ∉ fl → same_except tf m m1 → p_trapframe c = tf → p_trapframe c ≠ 0 →
  no_leak m1 ∅ fl m' T' fl' B → spared m1 ∅ fl m' T' fl' B →
  (tf ∉ fl' ∧ ~ held m' T' B tf) ∧
  no_leak m ∅ (tf :: fl) m' T' (frame_pages c ++ fl') B ∧
  spared m ∅ (tf :: fl) m' T' (frame_pages c ++ fl') B.
Proof.
  intros Hp Hni Hs Etf Hnz Hlk Hsp. unfold frame_pages. rewrite (proj2 (Z.eqb_neq _ _)), Etf by done.
  cbn [app]. split; [|split].
  - destruct (Hsp tf Hp Hni) as (? & ? & _); [apply held_none|done].
  - intros q [[->|Hq]%elem_of_cons|[]%held_none]; [left; by left|].
    destruct (Hlk q) as [?|?]; [by left|left; by right|by right].
  - intros q Hq [Nq Hfl]%not_elem_of_cons _. destruct (Hsp q Hq Hfl) as (F & N & E); [apply held_none|].
    split_and!; [by apply not_elem_of_cons|done|]. intros a Ha. rewrite E by done. apply Hs.
    destruct Hp as [Ap _], Hq as [Aq _]. destruct (page_disjoint tf q Ap Aq); [done|lia..].
Qed.

(** A slot with its trap frame page, after [proc_pagetable] has run. *)
Lemma new_slot s' m m1 tf fl B c T' fl' :
  page_ok tf → tf ∉ fl → same_except tf m m1 → p_trapframe c = tf → p_sz c = 0 → 0 <= B <= TRAPFRAME →
  vm_ok s' T' fl' → owns (k_mem s') T' fl' B →
  no_leak m1 ∅ fl (k_mem s') T' fl' B → spared m1 ∅ fl (k_mem s') T' fl' B →
  (p_pagetable c = 0 ∧ T' = ∅) ∨
    (p_pagetable c ≠ 0 ∧ T' !! [] = Some (p_pagetable c) ∧ high_leaves (k_mem s') T' 0 tf) →
  slot_step m (tf :: fl) s' c T' fl' B.
Proof.
  intros Hp Hni Hs Ec Es HB V O K S Ht. pose proof (page_ok_nonzero tf Hp) as Hnz.
  destruct (frame_step m m1 tf fl B c (k_mem s') T' fl') as (Hin & Hlk & Hsp); try done; [lia|].
  split; [done|done| |done|done]. split; rewrite ?Es, ?Ec; [|exact Ht|change (PGROUNDUP 0) with 0; lia].
  intros q. unfold frame_pages. rewrite Ec, (proj2 (Z.eqb_neq tf 0)) by lia.
  by intros ->%list_elem_of_singleton.
Qed.

Lemma allocproc_found_ok s np x m h c n fs ins fl B e :
  (np < length (k_procs s))%nat → (np < NPROC)%nat → proc_ready x → kmem_inv m h fl →
  0 <= B <= TRAPFRAME → p_trapframe c = 0 → p_pagetable c = 0 → p_sz c = 0 →
  (∃ m' h' fl', let w := world s np x m' h' (freed c) (i32 (n + 1)) fs ins in
    allocproc_found np (world s np (acquired (Lproc np) x) m h c n fs ins) e = Ok None w e ∧
    slot_step m fl w (freed c) ∅ fl' B) ∨
  (∃ m' h' tf pt T' fl',
    let c' := new_proc c n tf pt in
    let w := world s np (acquired (Lproc np) x) m' h' c' (i32 (n + 1)) fs ins in
    allocproc_found np (world s np (acquired (Lproc np) x) m h c n fs ins) e = Ok (Some np) w e ∧
    tf ≠ 0 ∧ pt ≠ 0 ∧ slot_step m fl w c' T' fl' B).
Proof.
  intros Hlen Hnp Hr Hm HB Etf Ept Esz. pose proof (ready_held x np Hr) as Hk.
  pose proof Hr as [W St Fk Fpid Fp]. pose proof (TRAPFRAME_max B) as HBM.
  unfold allocproc_found. rewrite bind_allocpid;
    [|apply Hk|apply Hk|by apply lock_free_acquired].
  rewrite !bind_upd_child by done. set (c1 := c <| p_pid := n |> <| p_state := USED |>).
  set (w1 := world s np (acquired (Lproc np) x) m h c1 (i32 (n + 1)) fs ins).
  destruct fl as [|tf fl].
  { left. erewrite bind_Ok by (apply kalloc_empty; [exact Hk|exact Hm]). unfold w1. rewrite bind_upd_child by done.
    cbn [Z.eqb]. destruct (drop_slot (None : option nat) s np x m [] m h (c1 <| p_trapframe := 0 |>) (i32 (n + 1)) fs ins ∅ [] B e)
      as (m' & h' & fl' & Hrun & Hs); try done.
    - split; [by apply empty_vm|by apply owns_unmapped; [lia|]|by apply slot_empty|by intros q|].
      apply spared_refl.
    - by exists m', h', fl'. }
  destruct (kalloc_inv w1 tf fl e Hk Hm) as (m1 & h1 & Hrun1 & Hm1 & Hs1 & _).
  pose proof (km_pages _ _ _ Hm) as [Hp _]%Forall_cons. pose proof (km_nodup _ _ _ Hm) as [Hni _]%NoDup_cons.
  pose proof (page_ok_nonzero tf Hp) as Hnz. erewrite bind_Ok by exact Hrun1.
  unfold w1. rewrite world_mem, bind_upd_child by done. rewrite (proj2 (Z.eqb_neq tf 0)) by lia.
  set (c2 := c1 <| p_trapframe := tf |>). set (w2 := world s np (acquired (Lproc np) x) m1 h1 c2 (i32 (n + 1)) fs ins).
  assert (proc_at w2 np = c2) as Ec2 by (by apply world_child).
  destruct (proc_pagetable_ok w2 fl B np e Hk Hm1 HB) as (pt & m2 & h2 & T' & fl' & Hrun2 & [V O K S] & Hpt);
    [by rewrite Ec2|]. rewrite Ec2 in Hpt. change (p_trapframe c2) with tf in Hpt.
  erewrite bind_Ok by exact Hrun2. unfold w2. rewrite world_mem, bind_upd_child by done.
  assert (∀ c', p_trapframe c' = tf → p_sz c' = 0 → (p_pagetable c' = 0 ∧ T' = ∅) ∨
    (p_pagetable c' ≠ 0 ∧ T' !! [] = Some (p_pagetable c') ∧ high_leaves m2 T' 0 tf) →
    slot_step m (tf :: fl) (world s np (acquired (Lproc np) x) m2 h2 c' (i32 (n + 1)) fs ins) c' T' fl' B) as Hss.
  { intros c' Ec' Es Ht. eapply new_slot; try done. eapply vm_ok_ext; [..|exact V]; done. }
  destruct Hpt as [[-> ->]|(Hpg & Hroot & Hhl)].
  - left. cbn [Z.eqb]. destruct (drop_slot (None : option nat) s np x m (tf :: fl) m2 h2 (c2 <| p_pagetable := 0 |>)
      (i32 (n + 1)) fs ins ∅ fl' B e) as (m' & h' & fl'' & Hrun & Hs); try done.
    + apply Hss; [done|done|by left].
    + by exists m', h', fl''.
  - right. pose proof (page_ok_nonzero pt Hpg). rewrite (proj2 (Z.eqb_neq pt 0)) by lia.
    rewrite !bind_upd_child by done. exists m2, h2, tf, pt, T', fl'. split_and!; [done|lia|lia|].
    apply Hss; [done|done|]. right. split; [simpl; lia|done].
Qed.

End slots.
