(* ===== verification/ForkSpec.v ===== *)
(** [kfork] of Proc.v: the child is a copy of its parent, or nothing has changed. *)

From S2P Require Export ProcSlot SleepSpec.

Section fork.
Context `{L : Layout}.

Implicit Types T : gmap (list Z) Z.

(** ** The two address spaces *)

Lemma two_spaces_ext s s' To Tn fl B :
  kready (k_x s') → k_mem s' = k_mem s → k_freelist s' = k_freelist s →
  two_spaces s To Tn fl B → two_spaces s' To Tn fl B.
Proof. intros Hk E1 E2 [H1 H2 H3 H4 H5]. split; rewrite ?E1, ?E2; done. Qed.

Lemma two_spaces_sym s To Tn fl B : two_spaces s To Tn fl B → two_spaces s Tn To fl B.
Proof. intros [H1 H2 H3 H4 H5]. split; [done..|]. intros q Hq Hq'. by apply (H5 q). Qed.

(** The parent next to a child that took its pages from the free list. *)
Lemma fork_spaces s T fl B w c Tn fl' :
  two_spaces s T ∅ fl B → slot_step (k_mem s) fl w c Tn fl' B →
  two_spaces w T Tn fl' B ∧ (∀ va, leaf (k_mem w) T va = leaf (k_mem s) T va) ∧
  same_space (k_mem s) T (k_mem w) T B ∧ (∀ q, q ∈ frame_pages c → ~ held (k_mem w) T B q).
Proof.
  intros Hts [Hv Ho Hs _ Hsp].
  destruct (ts_step s T ∅ fl B (k_mem w) (k_freelist w) Tn fl') as (Hts' & Hl & Hu); [done| |apply Hv|..].
  { intros q Hq Hf Hh. destruct (Hsp q Hq Hf Hh) as ([_ ?]%not_elem_of_app & ? & ?). done. }
  { split; [apply Hv|exact Ho|apply Hv]. }
  split_and!; [|done|by split|].
  - eapply two_spaces_ext; [apply Hv|..|exact Hts']; done.
  - intros q Hq. rewrite (held_leaf (k_mem s)) by done. intros Hh.
    destruct (held_ok _ _ _ _ _ (ts_old _ _ _ _ _ Hts) Hh) as [Hp Hf].
    destruct (Hsp q Hp Hf) as ([? _]%not_elem_of_app & _); [apply held_none|done].
Qed.

(** The child's slot after [uvmcopy]. *)
Lemma slot_copy m0 fl0 w c Tn fl B To m2 h2 Tn2 fl2 w' c' :
  slot_step m0 fl0 w c Tn fl B → cstep w To Tn fl B m2 h2 Tn2 fl2 → p_sz c = 0 → p_pagetable c ≠ 0 →
  kready (k_x w') → k_mem w' = m2 → k_freelist w' = h2 →
  p_trapframe c' = p_trapframe c → p_pagetable c' = p_pagetable c →
  (p_sz c' = 0 ∧ (∀ va, 0 <= va < B → is_mapped m2 Tn2 va = false)) ∨
    (0 <= p_sz c' <= B ∧ PGROUNDUP (p_sz c') = B) →
  slot_step m0 fl0 w' c' Tn2 fl2 B.
Proof.
  intros [Hv Ho [Hf Ht (_ & _ & HBT)] Hlk Hsp] [Cts _ Clk Csub Chi Csp] Es Ept Hk <- <- Etf Ept' Hsz.
  pose proof (ow_bound _ _ _ _ Ho) as HB.
  assert (frame_pages c' = frame_pages c) as Efp by (unfold frame_pages; by rewrite Etf).
  destruct Ht as [[? _]|(_ & Hroot & Hh)]; [done|]. rewrite Es in Hh. change (PGROUNDUP 0) with 0 in Hh.
  assert (0 <= PGROUNDUP (p_sz c') <= B ∧ 0 <= p_sz c' <= B) as [HR HR'].
  { destruct Hsz as [[-> _]|[? ->]]; [change (PGROUNDUP 0) with 0; lia|lia]. }
  split; rewrite ?Efp.
  - destruct (ts_vm_new _ _ _ _ _ Cts) as [_ V2 V3 V4]. by split.
  - apply Cts.
  - split.
    + rewrite Efp. intros q Hq. destruct (Hf q Hq) as (Hp & Hfl & Hn).
      destruct (Csp q Hp Hfl Hn) as (? & ? & _). done.
    + right. rewrite Ept', Etf. split_and!; [done|by eapply lookup_weaken|].
      destruct Hsz as [[-> Hun]|[_ ->]]; [|eapply high_leaves_ext; [|done|exact Hh]; lia].
      intros va Hva. change (PGROUNDUP 0) with 0 in Hva. destruct (decide (va < B)).
      * change TRAPFRAME with 274877898752 in *. change TRAMPOLINE with 274877902848.
        rewrite !decide_False by lia. apply Hun. lia.
      * specialize (Hh va Hva). unfold is_mapped in *. by rewrite Chi by lia.
    + lia.
  - intros q Hq. destruct (Hlk q Hq) as [[?|?]%elem_of_app|?]; [left; apply elem_of_app; by left|..];
      (destruct (Clk q) as [?|?]; [auto|left; apply elem_of_app; by right|by right]).
  - intros q Hq Hfl Hn. destruct (Hsp q Hq Hfl Hn) as ([N1 N2]%not_elem_of_app & N3 & E).
    destruct (Csp q Hq N2 N3) as (F & N & E'). split_and!; [by apply not_elem_of_app|done|].
    intros a Ha. by rewrite E', E.
Qed.

(** ** The trap frame *)

(** [*(np->trapframe) = *(p->trapframe); np->trapframe->a0 = 0] *)
Definition frame_copy (m : memory) (tf ptf : Z) : memory :=
  st64 (stn m tf (ldn m ptf (Z.to_nat TF_size))) (tf + TF_a0) 0.

Lemma frame_copy_ok m tf ptf : mem_ok m → mem_ok (frame_copy m tf ptf).
Proof. intros H. apply st64_ok. by apply stn_ok. Qed.

Lemma frame_copy_except m tf ptf : same_except tf m (frame_copy m tf ptf).
Proof.
  intros a Ha. change PGSIZE with 4096 in Ha. unfold frame_copy, st64.
  rewrite !ld8_stn_ne; [done|rewrite length_ldn|rewrite length_le_bytes]; unfold TF_size, TF_a0; lia.
Qed.

(** Every saved register is the parent's, but [a0], which is 0. *)
Lemma frame_copy_regs m tf ptf off :
  mem_ok m → 0 <= off → off + 8 <= TF_size → off mod 8 = 0 →
  ld64 (frame_copy m tf ptf) (tf + off) = if decide (off = TF_a0) then 0 else ld64 m (ptf + off).
Proof.
  intros Hm H0 H1 Al. unfold frame_copy. case_decide as E.
  - subst off. by rewrite ld64_st64_eq.
  - unfold TF_size, TF_a0 in *. rewrite ld64_st64_ne by zlia. unfold ld64. f_equal.
    apply list_eq. intros i. destruct (decide (i < 8)%nat) as [Hi|Hi].
    + rewrite !lookup_ldn by done. rewrite ld8_stn, length_ldn, decide_True by lia. f_equal.
      rewrite (list_lookup_total_correct _ _ (ld8 m (ptf + Z.of_nat (Z.to_nat (off + Z.of_nat i))))).
      * replace (ptf + Z.of_nat (Z.to_nat (off + Z.of_nat i))) with (ptf + off + Z.of_nat i) by lia.
        apply u8_small. by apply ld8_range.
      * replace (tf + off + Z.of_nat i - tf) with (off + Z.of_nat i) by lia. apply lookup_ldn. lia.
    + rewrite !lookup_ge_None_2 by (rewrite length_ldn; lia). done.
Qed.

(** A write to the trap frame page of the child changes nothing else. *)
Lemma frame_write m0 fl0 w c To Tn fl B m' w' :
  slot_step m0 fl0 w c Tn fl B → two_spaces w To Tn fl B → p_trapframe c ≠ 0 →
  (∀ q, q ∈ frame_pages c → ~ held (k_mem w) To B q) →
  same_except (p_trapframe c) (k_mem w) m' → mem_ok m' →
  kready (k_x w') → k_mem w' = m' → k_freelist w' = k_freelist w →
  two_spaces w' To Tn fl B ∧ slot_step m0 fl0 w' c Tn fl B ∧
  (∀ T va, T = To ∨ T = Tn → leaf m' T va = leaf (k_mem w) T va) ∧
  (∀ T va, T = To ∨ T = Tn → 0 <= va < B → is_mapped (k_mem w) T va = true →
     ubyte m' T va = ubyte (k_mem w) T va).
Proof.
  intros [Hv Ho [Hf Ht Hz] Hlk Hsp] Hts Hnz Hto Hs Hok Hk <- Efl. set (tf := p_trapframe c) in *.
  assert (tf ∈ frame_pages c) as Htf.
  { unfold frame_pages. rewrite (proj2 (Z.eqb_neq _ _)) by done. by left. }
  destruct (Hf tf Htf) as (Hp & Hfl & Hn).
  destruct (ts_write w To Tn fl B tf (k_mem w')) as (Hts' & Hl & Hu); try done; [by apply Hto|].
  assert (two_spaces w' To Tn fl B) as Hts2 by (eapply two_spaces_ext; [..|exact Hts']; done).
  assert (∀ va, leaf (k_mem w') Tn va = leaf (k_mem w) Tn va) as Hln by (intros; apply Hl; by right).
  split_and!; [done| |done|done]. split.
  - by eapply ts_vm_new.
  - apply Hts2.
  - split; [|destruct Ht as [?|(? & ? & ?)]; [by left|right]|done].
    + intros q Hq. rewrite (held_leaf (k_mem w)) by done. by apply Hf.
    + split_and!; [done..|]. by eapply high_leaves_ext; [..|done].
  - intros q Hq. rewrite (held_leaf (k_mem w)) by done. by apply Hlk.
  - intros q Hq Hqf Hqn. destruct (Hsp q Hq Hqf Hqn) as (N1 & N2 & E).
    split_and!; [done|by rewrite (held_leaf (k_mem w))|]. intros a Ha. rewrite <- E by done. apply Hs.
    assert (tf ≠ q) as N by (intros <-; apply N1, elem_of_app; by left).
    destruct Hp as [Ap _], Hq as [Aq _]. destruct (page_disjoint tf q Ap Aq N); lia.
Qed.

Lemma copied_ext m m' To Tn B :
  (∀ T va, T = To ∨ T = Tn → leaf m' T va = leaf m T va) →
  (∀ T va, T = To ∨ T = Tn → 0 <= va < B → is_mapped m T va = true → ubyte m' T va = ubyte m T va) →
  copied m To Tn B B → copied m' To Tn B B.
Proof.
  intros Hl Hu [H1 H2 H3 H4]. unfold is_mapped in *. split; unfold is_mapped; intros va Hva.
  - rewrite !Hl by auto. by apply H1.
  - rewrite !Hl by auto. by apply H2.
  - rewrite !Hl by auto. intros Hm. rewrite !Hu by (auto; by rewrite H1). by apply H3.
  - lia.
Qed.

(** ** Open files *)

(** How many of the descriptors [fds] refer to file [f]. *)
Definition refs (f : nat) (fds : list (option nat)) : nat := length (filter (λ o, o = Some f) fds).

(** The table of files with one more reference for each descriptor. *)
Definition dup_files (fds : list (option nat)) (fs : list file) : list file :=
  imap (λ f x, x <| f_ref ::= λ n, n + Z.of_nat (refs f fds) |>) fs.

Lemma refs_snoc f fds o : refs f (fds ++ [o]) = (refs f fds + if decide (o = Some f) then 1 else 0)%nat.
Proof.
  unfold refs. rewrite filter_app, length_app. f_equal. rewrite filter_cons, filter_nil. by case_decide.
Qed.

Lemma dup_files_nil fs : dup_files [] fs = fs.
Proof.
  apply list_eq. intros i. unfold dup_files. rewrite list_lookup_imap.
  destruct (fs !! i) as [x|]; [|done]. simpl. f_equal. change (Z.of_nat (refs i [])) with 0.
  destruct x. unfold set. simpl. f_equal. lia.
Qed.

Lemma dup_files_none fds fs : dup_files (fds ++ [None]) fs = dup_files fds fs.
Proof.
  apply list_eq. intros i. unfold dup_files. rewrite !list_lookup_imap, refs_snoc, decide_False by done.
  by rewrite Nat.add_0_r.
Qed.

Lemma dup_files_some fds fs f :
  (f < length fs)%nat →
  dup_files (fds ++ [Some f]) fs =
    <[f := (dup_files fds fs !!! f) <| f_ref ::= λ n, n + 1 |>]> (dup_files fds fs).
Proof.
  intros Hf. destruct (lookup_lt_is_Some_2 fs f Hf) as [x Hx].
  assert (dup_files fds fs !! f = Some (x <| f_ref ::= λ n, n + Z.of_nat (refs f fds) |>)) as Hd
    by (unfold dup_files; by rewrite list_lookup_imap, Hx).
  rewrite (list_lookup_total_correct _ _ _ Hd). apply list_eq. intros i.
  destruct (decide (i = f)) as [->|Ne].
  - rewrite list_lookup_insert_eq by (by apply lookup_lt_Some in Hd).
    unfold dup_files. rewrite list_lookup_imap, Hx, refs_snoc, decide_True by done. simpl. f_equal.
    destruct x. unfold set. simpl. f_equal. lia.
  - rewrite list_lookup_insert_ne by done. unfold dup_files.
    rewrite !list_lookup_imap, refs_snoc, decide_False by congruence. by rewrite Nat.add_0_r.
Qed.

Lemma dup_files_at fds fs f :
  (f < length fs)%nat →
  dup_files fds fs !!! f = (fs !!! f) <| f_ref ::= λ n, n + Z.of_nat (refs f fds) |>.
Proof.
  intros Hf. destruct (lookup_lt_is_Some_2 fs f Hf) as [x Hx]. apply list_lookup_total_correct.
  unfold dup_files. by rewrite list_lookup_imap, Hx, (list_lookup_total_correct _ _ _ Hx).
Qed.

Lemma bind_filedup {A} (k : nat → K A) f s np x m h c n fs ins e :
  xwf x → settled x → lock_free Lftable x → 1 <= f_ref (fs !!! f) →
  (filedup f ≫= k) (world s np x m h c n fs ins) e =
    k f (world s np x m h c n (<[f := (fs !!! f) <| f_ref ::= λ n, n + 1 |>]> fs) ins) e.
Proof.
  intros W St F Hr. unfold filedup. rewrite bind_assoc, bind_acquire by done.
  unfold get_file, upd_file. rewrite bind_assoc, bind_gets.
  change (file_at (world s np (acquired Lftable x) m h c n fs ins) f) with (fs !!! f).
  rewrite (proj2 (Z.ltb_ge _ _)) by lia. rewrite bind_assoc, bind_modify, bind_assoc.
  change (_ <| k_files := _ |>) with (world s np (acquired Lftable x) m h c n
    (<[f := (fs !!! f) <| f_ref ::= λ n, n + 1 |>]> fs) ins).
  by rewrite bind_release, bind_ret by done.
Qed.

(** [for(i = 0; i < NOFILE; i++) if(p->ofile[i]) np->ofile[i] = filedup(p->ofile[i]);] *)
Lemma kfork_files_ok s p np x m h c n ins e :
  let fds := p_ofile (proc_at s p) in let fs := k_files s in
  (np < length (k_procs s))%nat → p ≠ np → xwf x → settled x → lock_free Lftable x →
  length fds = NOFILE → p_ofile c = replicate NOFILE None →
  (∀ f, Some f ∈ fds → (f < length fs)%nat ∧ 1 <= f_ref (fs !!! f)) →
  kfork_files p np (world s np x m h c n fs ins) e =
    Ok tt (world s np x m h (c <| p_ofile := fds |>) n (dup_files fds fs) ins) e.
Proof.
  intros fds fs Hnp Hne W St F Hlen Hc Hok. unfold kfork_files.
  assert (∀ k i, (i + k = NOFILE)%nat → for_each k i (λ i, pr ← get_proc p;
      match p_ofile pr !!! i with
      | Some f => f ← filedup f; upd_proc np (λ x, x <| p_ofile ::= <[i := Some f]> |>)
      | None => mret () end)
    (world s np x m h (c <| p_ofile := take i fds ++ drop i (p_ofile c) |>) n (dup_files (take i fds) fs) ins) e =
    Ok tt (world s np x m h (c <| p_ofile := fds |>) n (dup_files fds fs) ins) e) as H.
  { induction k as [|k IH]; intros i Hi; cbn [for_each].
    - rewrite !take_ge, drop_ge, app_nil_r by (rewrite ?Hc, ?length_replicate; lia). done.
    - destruct (lookup_lt_is_Some_2 fds i) as [o Ho]; [lia|].
      assert (∀ o', take i fds ++ o' :: drop (S i) (p_ofile c) = (take i fds ++ [o']) ++ drop (S i) (p_ofile c)) as Eo
        by (intros; by rewrite <- app_assoc).
      assert (drop i (p_ofile c) = None :: drop (S i) (p_ofile c)) as Ed.
      { apply drop_S. rewrite Hc. apply lookup_replicate_2. lia. }
      rewrite bind_assoc, bind_other by done. fold fds. rewrite (list_lookup_total_correct _ _ _ Ho).
      specialize (IH (S i) ltac:(lia)). rewrite (take_S_r _ _ _ Ho) in IH. destruct o as [f|].
      + destruct (Hok f) as [Hf Hr]; [by eapply list_elem_of_lookup_2|].
        rewrite bind_assoc, bind_filedup; [|done..|].
        2:{ rewrite dup_files_at by done. simpl. lia. }
        rewrite bind_upd_child by done. rewrite <- IH, dup_files_some, <- Eo by done.
        assert (<[i := Some f]> (take i fds ++ drop i (p_ofile c)) = take i fds ++ Some f :: drop (S i) (p_ofile c)) as <-.
        { assert (length (take i fds) = i) as Ht by (rewrite length_take; lia).
          by rewrite Ed, insert_app_r_alt, Ht, Nat.sub_diag by lia. }
        reflexivity.
      + rewrite bind_ret, <- IH, dup_files_none. by rewrite Ed, Eo. }
  rewrite <- (H NOFILE 0%nat) by done. simpl. rewrite dup_files_nil. by destruct c.
Qed.

(** ** kfork *)

(** One more reference to an inode. *)
Definition dup_inode (ip : nat) (ins : list inode) : list inode :=
  <[ip := (ins !!! ip) <| i_ref ::= λ n, n + 1 |>]> ins.

Lemma bind_idup {A} (k : nat → K A) ip s np x m h c n fs ins e :
  xwf x → settled x → lock_free Litable x →
  (idup ip ≫= k) (world s np x m h c n fs ins) e = k ip (world s np x m h c n fs (dup_inode ip ins)) e.
Proof.
  intros W St F. unfold idup. rewrite bind_assoc, bind_acquire by done.
  unfold upd_inode. rewrite bind_assoc, bind_modify, bind_assoc.
  change (_ <| k_inodes := _ |>) with (world s np (acquired Litable x) m h c n fs (dup_inode ip ins)).
  by rewrite bind_release, bind_ret by done.
Qed.

(** The machine state in which [kfork] runs. *)
Record fork_ready (x : xstate) : Prop := {
  fr_procs : proc_ready x;
  fr_ftable : lock_free Lftable x;
  fr_itable : lock_free Litable x;
  fr_wait : lock_free Lwait x;
}.

(** The slot [c] made a copy of the process [pr], number [p]. *)
Definition child (c pr : proc) (p : nat) : proc :=
  c <| p_sz := p_sz pr |> <| p_ofile := p_ofile pr |> <| p_cwd := p_cwd pr |>
    <| p_name ::= λ n, safestrcpy n (p_name pr) 16 |> <| p_parent := Some p |> <| p_state := RUNNABLE |>.

(** [kfork] once the memory is copied. *)
Lemma kfork_rest s p np x m h c n ip e :
  let pr := proc_at s p in
  (np < length (k_procs s))%nat → (np < NPROC)%nat → p ≠ np → fork_ready x →
  length (p_ofile pr) = NOFILE → p_ofile c = replicate NOFILE None →
  (∀ f, Some f ∈ p_ofile pr → (f < length (k_files s))%nat ∧ 1 <= f_ref (k_files s !!! f)) →
  p_cwd pr = Some ip →
  (upd_proc np (λ x, x <| p_sz := p_sz pr |>);;
   upd_mem (λ m, stn m (p_trapframe c) (ldn m (p_trapframe pr) (Z.to_nat TF_size)));;
   store64 (p_trapframe c + TF_a0) 0;;
   kfork_files p np;;
   cwd ← match p_cwd pr with Some ip => idup ip | None => panic "kerneltrap" end;
   upd_proc np (λ x, x <| p_cwd := Some cwd |>);;
   upd_proc np (λ x, x <| p_name ::= λ n, safestrcpy n (p_name pr) 16 |>);;
   npr ← get_proc np;
   let pid := p_pid npr in
   release (Lproc np);;
   acquire Lwait;;
   upd_proc np (λ x, x <| p_parent := Some p |>);;
   release Lwait;;
   acquire (Lproc np);;
   upd_proc np (λ x, x <| p_state := RUNNABLE |>);;
   release (Lproc np);;
   mret pid) (world s np (acquired (Lproc np) x) m h c n (k_files s) (k_inodes s)) e =
  Ok (p_pid c) (world s np x (frame_copy m (p_trapframe c) (p_trapframe pr)) h (child c pr p) n
    (dup_files (p_ofile pr) (k_files s)) (dup_inode ip (k_inodes s))) e.
Proof.
  intros pr Hlen Hnp Hne [Hpr Ff Fi Fw] Hl Hc Hok Hcwd. pose proof Hpr as [W St _ _ Fp].
  pose proof (xwf_acquired (Lproc np) x W) as W1. pose proof (acquired_settled (Lproc np) x W) as St1.
  unfold store64. rewrite bind_upd_child, !bind_mem by done.
  erewrite bind_Ok by (apply kfork_files_ok; try done; by apply lock_free_acquired).
  fold pr. rewrite Hcwd, bind_idup by (done || by apply lock_free_acquired).
  rewrite !bind_upd_child, bind_child by done. cbv zeta.
  rewrite bind_release, bind_acquire by auto. rewrite bind_upd_child, bind_release by auto.
  rewrite bind_acquire, bind_upd_child, bind_release by auto. unfold child. by rewrite Hcwd.
Qed.


(** What [kfork] relies on: the parent [p] runs in the address space [T] of size
    [B], its trap frame is a page of its own, unused slots have no memory and no
    files, and every open file is counted. *)
Record can_fork (s : kstate) T (fl : list Z) (B root : Z) (p ip : nat) : Prop := {
  cf_user : user_ok s T fl B root p;
  cf_calm : calm s p;
  cf_sz : 0 <= p_sz (proc_at s p);
  cf_up : PGROUNDUP (p_sz (proc_at s p)) = B;
  cf_max : B <= TRAPFRAME;
  cf_frame : page_ok (p_trapframe (proc_at s p)) ∧ p_trapframe (proc_at s p) ∉ fl ∧
    ~ held (k_mem s) T B (p_trapframe (proc_at s p));
  cf_unused : ∀ q, (q < NPROC)%nat → p_state (proc_at s q) = UNUSED →
    p_trapframe (proc_at s q) = 0 ∧ p_pagetable (proc_at s q) = 0 ∧ p_sz (proc_at s q) = 0 ∧
    p_ofile (proc_at s q) = replicate NOFILE None;
  cf_ofile : length (p_ofile (proc_at s p)) = NOFILE;
  cf_files : ∀ f, Some f ∈ p_ofile (proc_at s p) →
    (f < length (k_files s))%nat ∧ 1 <= f_ref (k_files s !!! f);
  cf_cwd : p_cwd (proc_at s p) = Some ip;
}.

Lemma calm_fork s p : calm s p → fork_ready (k_x s).
Proof.
  intros Hc. pose proof (ca_locks _ _ Hc) as F.
  split; [split; [apply Hc|apply Hc|by apply F|by apply F|intros q Hq; by apply F]|by apply F..].
Qed.

Lemma cf_ready s T fl B root p ip : can_fork s T fl B root p ip → fork_ready (k_x s).
Proof. intros Hc. by eapply calm_fork, Hc. Qed.

Lemma cf_len s T fl B root p ip : can_fork s T fl B root p ip → length (k_procs s) = NPROC.
Proof. intros Hc. by eapply ca_len, Hc. Qed.

Lemma cf_used s T fl B root p ip : can_fork s T fl B root p ip → p_state (proc_at s p) ≠ UNUSED.
Proof. intros Hc. by destruct (ca_run _ _ (cf_calm _ _ _ _ _ _ _ Hc)) as [-> _]. Qed.

(** [kfork] failed: the parent, the free pages and the files are as before; an
    unused slot may have been cleared again. *)
Record unforked (s : kstate) T (fl : list Z) (B root : Z) (p : nat) (s' : kstate) (fl' : list Z) : Prop := {
  uf_user : user_ok s' T fl' B root p;
  uf_same : same_space (k_mem s) T (k_mem s') T B;
  uf_free : ∀ q, q ∈ fl' ↔ q ∈ fl;
  uf_procs : ∀ q, proc_at s' q = proc_at s q ∨
    (p_state (proc_at s q) = UNUSED ∧ ∃ ctx, proc_at s' q = (freed (proc_at s q)) <| p_context := ctx |>);
  uf_rest : s' = s <| k_mem := k_mem s' |> <| k_freelist := k_freelist s' |>
                   <| k_procs := k_procs s' |> <| k_nextpid := k_nextpid s' |>;
}.

(** [kfork] succeeded: slot [np] is a copy of the parent in the space [T']. *)
Record forked (s : kstate) T (fl : list Z) (B root : Z) (p ip : nat)
    (s' : kstate) (np : nat) T' (fl' : list Z) : Prop := {
  fo_user : user_ok s' T fl' B root p;
  fo_same : same_space (k_mem s) T (k_mem s') T B;
  fo_spaces : two_spaces s' T T' fl' B;
  fo_copy : copied (k_mem s') T T' B B;
  fo_root : T' !! [] = Some (p_pagetable (proc_at s' np));
  fo_slot : slot_step (k_mem s) fl s' (proc_at s' np) T' fl' B;
  fo_regs : ∀ off, 0 <= off → off + 8 <= TF_size → off mod 8 = 0 →
    ld64 (k_mem s') (p_trapframe (proc_at s' np) + off) =
    if decide (off = TF_a0) then 0 else ld64 (k_mem s) (p_trapframe (proc_at s p) + off);
  fo_child : ∃ tf pt,
    proc_at s' np = child (new_proc (proc_at s np) (k_nextpid s) tf pt) (proc_at s p) p;
  fo_others : ∀ q, q ≠ np → proc_at s' q = proc_at s q;
  fo_files : k_files s' = dup_files (p_ofile (proc_at s p)) (k_files s);
  fo_inodes : k_inodes s' = dup_inode ip (k_inodes s);
  fo_rest : s' = s <| k_mem := k_mem s' |> <| k_freelist := k_freelist s' |>
                   <| k_procs := k_procs s' |> <| k_nextpid := k_nextpid s' |>
                   <| k_files := k_files s' |> <| k_inodes := k_inodes s' |>;
}.

Lemma user_world s T fl B root p w fl' To :
  user_ok s T fl B root p → two_spaces w T To fl' B → k_x w = k_x s → proc_at w p = proc_at s p →
  user_ok w T fl' B root p.
Proof.
  intros [_ H2 H3 H4 H5 H6] Hts Ex Ep. split; rewrite ?Ep, ?Ex; try done.
  apply ts_single; [by eapply ts_vm_old|apply Hts].
Qed.

Lemma unforked_world s T fl B root p ip np m' h' c n fl' :
  can_fork s T fl B root p ip → find_unused (k_procs s) NPROC 0 = Some np →
  freed c = (freed (proc_at s np)) <| p_context := p_context c |> →
  let w := world s np (k_x s) m' h' (freed c) n (k_files s) (k_inodes s) in
  slot_step (k_mem s) fl w (freed c) ∅ fl' B → unforked s T fl B root p w fl'.
Proof.
  intros Hc Hf Ec w Hs. pose proof (find_unused_spec (k_procs s) NPROC 0) as Hu. rewrite Hf in Hu.
  destruct Hu as (Hnp & Hst & _). assert (np < length (k_procs s))%nat by (rewrite (cf_len _ _ _ _ _ _ _ Hc); lia).
  assert (p ≠ np) as Hne by (intros ->; by apply (cf_used _ _ _ _ _ _ _ Hc)).
  destruct (fork_spaces s T fl B w (freed c) ∅ fl') as (Hts & _ & Hsame & _);
    [apply two_spaces_sym, Hc|done|].
  pose proof Hs as [Hv _ _ Hlk Hsp]. change (frame_pages (freed c) ++ fl') with fl' in *. split.
  - eapply user_world; [apply Hc|exact Hts|done|by apply world_other].
  - done.
  - intros q. split.
    + intros Hq. destruct (decide (q ∈ fl)) as [|N]; [done|]. exfalso.
      pose proof (km_pages _ _ _ (vo_kmem _ _ _ Hv)) as Hpg. rewrite Forall_forall in Hpg.
      destruct (Hsp q (Hpg q Hq) N) as [? _]; [apply held_none|done].
    + intros Hq. destruct (Hlk q) as [?|[]%held_none]; [by left|done].
  - intros q. destruct (decide (q = np)) as [->|N]; [right|left; by apply world_other].
    split; [done|]. exists (p_context c). rewrite <- Ec. by apply world_child.
  - reflexivity.
Qed.

Lemma forked_world s T fl B root p ip np x1 m1 h1 tf pt n Tn fl1 m2 h2 Tn2 fl2 :
  can_fork s T fl B root p ip → find_unused (k_procs s) NPROC 0 = Some np → tf ≠ 0 → pt ≠ 0 →
  let c1 := new_proc (proc_at s np) (k_nextpid s) tf pt in
  let w1 := world s np x1 m1 h1 c1 n (k_files s) (k_inodes s) in
  slot_step (k_mem s) fl w1 c1 Tn fl1 B → cstep w1 T Tn fl1 B m2 h2 Tn2 fl2 → copied m2 T Tn2 B B →
  forked s T fl B root p ip
    (world s np (k_x s) (frame_copy m2 tf (p_trapframe (proc_at s p))) h2 (child c1 (proc_at s p) p) n
       (dup_files (p_ofile (proc_at s p)) (k_files s)) (dup_inode ip (k_inodes s))) np Tn2 fl2.
Proof.
  intros Hc Hf Htf Hpt c1 w1 Hs1 Hcs Hcp. pose proof (find_unused_spec (k_procs s) NPROC 0) as Hu.
  rewrite Hf in Hu. destruct Hu as (Hnp & Hst & _).
  assert (np < length (k_procs s))%nat as Hlen by (rewrite (cf_len _ _ _ _ _ _ _ Hc); lia).
  assert (p ≠ np) as Hne by (intros ->; by apply (cf_used _ _ _ _ _ _ _ Hc)).
  destruct (cf_unused _ _ _ _ _ _ _ Hc np) as (_ & _ & Hsz & _); [lia|done|].
  pose proof (cf_user _ _ _ _ _ _ _ Hc) as Huser. pose proof (uo_sz _ _ _ _ _ _ Huser) as HszB.
  set (pr := proc_at s p) in *. set (c2 := child c1 pr p). set (fs := dup_files _ _). set (ins := dup_inode _ _).
  set (w2 := world s np (k_x s) m2 h2 c2 n fs ins). set (m3 := frame_copy m2 tf (p_trapframe pr)).
  set (w' := world s np (k_x s) m3 h2 c2 n fs ins).
  assert (slot_step (k_mem s) fl w2 c2 Tn2 fl2 B) as Hs2.
  { eapply (slot_copy _ _ w1 c1 Tn fl1 B T m2 h2); try done; [apply Huser|]. right.
    split; [split; [apply Hc|done]|apply Hc]. }
  destruct (fork_spaces s T fl B w2 c2 Tn2 fl2) as (Hts2 & Hl2 & Hsame2 & Hnh);
    [apply two_spaces_sym, Huser|done|].
  pose proof (km_mem _ _ _ (ts_kmem _ _ _ _ _ Hts2)) as Hmem.
  destruct (frame_write (k_mem s) fl w2 c2 T Tn2 fl2 B m3 w') as (Hts' & Hs' & Hl' & Hu'); try done;
    [apply frame_copy_except|by apply frame_copy_ok|apply Huser|].
  assert (proc_at w' np = c2) as Ec by (by apply world_child).
  split; rewrite ?Ec.
  - eapply user_world; [exact Huser|exact Hts'|done|by apply world_other].
  - eapply same_space_trans; [exact Hsame2|]. split; intros; [apply Hl'|apply Hu']; auto.
  - done.
  - by eapply copied_ext.
  - destruct (so_table _ _ _ _ _ (sl_slot _ _ _ _ _ _ _ Hs')) as [[? _]|(_ & ? & _)]; done.
  - done.
  - intros off H0 H1 Al. change (k_mem w') with m3. change (p_trapframe c2) with tf.
    unfold m3. rewrite frame_copy_regs by done. case_decide; [done|].
    destruct (cf_frame _ _ _ _ _ _ _ Hc) as (Hp & Hfl & _).
    destruct (sl_spared _ _ _ _ _ _ _ Hs2 _ Hp Hfl) as (_ & _ & E); [apply held_none|].
    unfold ld64. f_equal. apply ldn_ext. intros a Ha. apply E. unfold TF_size in H1.
    change PGSIZE with 4096. unfold pr in Ha. lia.
  - by exists tf, pt.
  - intros q Hq. by apply world_other.
  - done.
  - done.
  - reflexivity.
Qed.

(** [allocproc] from a state in which [kfork] can run. *)
Lemma fork_alloc s T fl B root p ip e :
  can_fork s T fl B root p ip →
  (∃ s' fl', allocproc s e = Ok None s' e ∧ unforked s T fl B root p s' fl') ∨
  (∃ np m1 h1 tf pt T1 fl1, find_unused (k_procs s) NPROC 0 = Some np ∧
    let c1 := new_proc (proc_at s np) (k_nextpid s) tf pt in
    let w1 := world s np (acquired (Lproc np) (k_x s)) m1 h1 c1 (i32 (k_nextpid s + 1)) (k_files s) (k_inodes s) in
    allocproc s e = Ok (Some np) w1 e ∧ tf ≠ 0 ∧ pt ≠ 0 ∧ slot_step (k_mem s) fl w1 c1 T1 fl1 B).
Proof.
  intros Hc. pose proof (cf_ready _ _ _ _ _ _ _ Hc) as [Hpr _ _ _]. pose proof (cf_user _ _ _ _ _ _ _ Hc) as Hu.
  unfold allocproc. erewrite bind_Ok by (by apply allocproc_scan).
  pose proof (find_unused_spec (k_procs s) NPROC 0) as Hfu.
  destruct (find_unused (k_procs s) NPROC 0) as [np|] eqn:Hf.
  2:{ left. exists s, fl. split; [done|]. split; [done|done|done|by left|by destruct s]. }
  destruct Hfu as (Hnp & Hst & _).
  assert (np < length (k_procs s))%nat as Hlen by (rewrite (cf_len _ _ _ _ _ _ _ Hc); lia).
  destruct (cf_unused _ _ _ _ _ _ _ Hc np) as (E1 & E2 & E3 & _); [lia|done|].
  rewrite world_intro with (np := np) by done.
  pose proof (ow_bound _ _ _ _ (user_owns _ _ _ _ _ _ Hu)) as HB. pose proof (cf_max _ _ _ _ _ _ _ Hc).
  destruct (allocproc_found_ok s np (k_x s) (k_mem s) (k_freelist s) (proc_at s np) (k_nextpid s) (k_files s)
    (k_inodes s) fl B e) as [(m' & h' & fl' & Hrun & Hs)|(m' & h' & tf & pt & T' & fl' & Hrun & Htf & Hpt & Hs)];
    try done; [lia|apply (user_vm _ _ _ _ _ _ Hu)|lia|..].
  - left. eexists _, fl'. split; [exact Hrun|]. eapply unforked_world; [done|done|by destruct (proc_at s np)|done].
  - right. exists np, m', h', tf, pt, T', fl'. done.
Qed.

(** C5: [kfork] copies the calling process or leaves everything as it was.  On
    success it returns the pid given to the first unused slot; the child has the
    parent's pages with the same contents and permissions in an address space that
    shares nothing with the parent's, the parent's registers with [a0 = 0], its
    open files and directory (each with one more reference), name and size; it is
    runnable, and no other process has changed.  When there is no slot or no
    memory, it returns -1 and every page taken is free again. *)
Theorem kfork_clones s T fl B root p ip e :
  can_fork s T fl B root p ip →
  ∃ r s', kfork s e = Ok r s' e ∧
    ((r = -1 ∧ ∃ fl', unforked s T fl B root p s' fl') ∨
     (r = k_nextpid s ∧ ∃ np T' fl', find_unused (k_procs s) NPROC 0 = Some np ∧
        forked s T fl B root p ip s' np T' fl')).
Proof.
  intros Hc. pose proof (cf_user _ _ _ _ _ _ _ Hc) as Hu. unfold kfork.
  erewrite bind_Ok by (by eapply curproc_ok).
  destruct (fork_alloc s T fl B root p ip e Hc) as
    [(s' & fl' & Hrun & Huf)|(np & m1 & h1 & tf & pt & T1 & fl1 & Hf & Hrun & Htf & Hpt & Hs1)];
    (erewrite bind_Ok by exact Hrun); [by eauto 10|].
  pose proof (find_unused_spec (k_procs s) NPROC 0) as Hfu. rewrite Hf in Hfu. destruct Hfu as (Hnp & Hst & _).
  assert (np < length (k_procs s))%nat as Hlen by (rewrite (cf_len _ _ _ _ _ _ _ Hc); lia).
  assert (p ≠ np) as Hne by (intros ->; by apply (cf_used _ _ _ _ _ _ _ Hc)).
  destruct (cf_unused _ _ _ _ _ _ _ Hc np) as (_ & _ & Hsz & Hof); [lia|done|].
  rewrite bind_other, bind_child by done. set (pr := proc_at s p) in *.
  set (c1 := new_proc _ _ _ _) in *. set (w1 := world _ _ _ _ _ _ _ _ _) in *.
  destruct (fork_spaces s T fl B w1 c1 T1 fl1) as (Hts1 & _ & _ & _); [apply two_spaces_sym, Hu|done|].
  destruct (so_table _ _ _ _ _ (sl_slot _ _ _ _ _ _ _ Hs1)) as [[? _]|(_ & Hr1 & Hhl)]; [done|].
  destruct (uvmcopy_ok w1 T T1 fl1 B root pt (p_sz pr) e) as (r & m2 & h2 & T2 & fl2 & Hrun2 & Hcs & Hr);
    [done|apply Hu|done|split; [apply Hc|apply Hu]|apply Hc| |].
  { intros va Hva. change (p_sz c1) with (p_sz (proc_at s np)) in Hhl. rewrite Hsz in Hhl.
    pose proof (cf_max _ _ _ _ _ _ _ Hc) as HB. change TRAPFRAME with 274877898752 in HB.
    specialize (Hhl va ltac:(change (PGROUNDUP 0) with 0; change MAXVA with 274877906944; lia)).
    change TRAPFRAME with 274877898752 in Hhl. change TRAMPOLINE with 274877902848 in Hhl.
    by rewrite !decide_False in Hhl by lia. }
  rewrite (uo_pt _ _ _ _ _ _ Hu : p_pagetable pr = root). change (p_pagetable c1) with pt.
  erewrite bind_Ok by exact Hrun2. unfold w1. rewrite world_mem.
  destruct Hr as [[-> Hcp]|[-> Hun]]; cbn [Z.ltb Z.compare].
  - change (p_trapframe c1) with tf. eexists _, _. split.
    { apply (kfork_rest s p np (k_x s) m2 h2 c1); try done; [lia|by eapply cf_ready|apply Hc..]. }
    right. split; [done|]. exists np, T2, fl2. split; [done|]. by eapply forked_world.
  - destruct (drop_slot (-1) s np (k_x s) (k_mem s) fl m2 h2 c1 (i32 (k_nextpid s + 1)) (k_files s)
      (k_inodes s) T2 fl2 B e) as (m' & h' & fl' & Hrun3 & Hs3);
      [done|lia|apply (cf_ready _ _ _ _ _ _ _ Hc)| |].
    { eapply (slot_copy _ _ w1 c1 T1 fl1 B T m2 h2); try done; [apply (sl_vm _ _ _ _ _ _ _ Hs1)|].
      left. split; [exact Hsz|exact Hun]. }
    exists (-1). eexists. split; [exact Hrun3|]. left. split; [done|]. exists fl'.
    eapply unforked_world; [done|done|reflexivity|done].
Qed.

End fork.

(** ** A machine in which process 0 forks *)

#[local] Existing Instance layout0.

(** The process of the concrete machine of AddressSpace.v, with a trap frame, an
    open file and a directory, and nine free pages. *)
Definition fork_free : list Z := toy_page <$> seqZ 6 9.

Definition fork_mem : memory :=
  foldr (λ k m, st64 m (toy_page k) (toy_page (k + 1))) toy_mem (seqZ 8 6).

Definition forker : kstate :=
  quiet <| k_mem := fork_mem |> <| k_freelist := toy_page 6 |>
        <| k_files ::= <[0%nat := file0 <| f_ref := 1 |>]> |>
        <| k_procs ::= <[0%nat := proc0 <| p_state := RUNNING |> <| p_pagetable := toy_page 0 |>
             <| p_sz := 8192 |> <| p_trapframe := toy_page 4 |> <| p_cwd := Some 0%nat |>
             <| p_ofile ::= <[0%nat := Some 0%nat]> |>]> |>.

Lemma fork_page_ok k : 0 <= k < 100 → page_ok (toy_page k).
Proof.
  intros Hk. unfold page_ok, toy_page. split; [zlia|]. change PHYSTOP with 2281701376.
  assert (end_ <= 2147635200) by (vm_compute; discriminate). lia.
Qed.

Lemma fork_mem_page k a :
  k < 8 ∨ 13 < k → toy_page k <= a < toy_page k + 4096 → ld8 fork_mem a = ld8 toy_mem a.
Proof.
  intros Hk Ha. unfold fork_mem. change (seqZ 8 6) with [8; 9; 10; 11; 12; 13]. cbn [foldr].
  unfold toy_page, st64 in *. rewrite !ld8_stn_ne by (rewrite length_le_bytes; lia). done.
Qed.

Lemma toy_held q : held toy_mem toy_table 8192 q → ∃ j, 0 <= j < 4 ∧ q = toy_page j.
Proof.
  intros [[π [[_ ->]|[[_ ->]|[_ ->]]]%toy_table_cases]|(va & Hva & [_ E]%toy_mapped & <-)]; [..|done].
  - by exists 0.
  - by exists 1.
  - by exists 2.
  - by exists 3.
Qed.

Lemma fork_space :
  space fork_mem toy_table fork_free 8192 ∧ ∀ va, leaf fork_mem toy_table va = leaf toy_mem toy_table va.
Proof.
  destruct (space_agree toy_mem fork_mem toy_table toy_free fork_free 8192) as (Hs & Hl & _); [..|done].
  - split; [apply toy_rep|apply toy_owns|apply toy_vm].
  - intros q Hq Hin. unfold fork_free in Hin. apply list_elem_of_fmap in Hin as (k & -> & Hk%elem_of_seqZ).
    apply toy_held in Hq as (j & Hj & E). unfold toy_page in E. lia.
  - intros q a Hq Ha. apply toy_held in Hq as (j & Hj & ->). apply (fork_mem_page j); [lia|exact Ha].
Qed.

Lemma forker_calm : calm forker 0.
Proof. destruct quiet_calm as [H1 H2 H3 H4 H5 H6 H7 H8]. by split. Qed.

Lemma forker_kmem : kmem_inv (k_mem forker) (k_freelist forker) fork_free.
Proof.
  split.
  - change (mem_ok fork_mem). unfold fork_mem. change (seqZ 8 6) with [8; 9; 10; 11; 12; 13]. cbn [foldr].
    do 6 apply st64_ok. apply toy_mem_ok.
  - by vm_compute.
  - apply Forall_forall. intros q (k & -> & Hk%elem_of_seqZ)%list_elem_of_fmap. apply fork_page_ok. lia.
  - apply (bool_decide_unpack _). by vm_compute.
Qed.

Lemma forker_can : can_fork forker toy_table fork_free 8192 (toy_page 0) 0 0.
Proof.
  assert (vm_ok forker toy_table fork_free) as Hv.
  { split; [by destruct (calm_fork forker 0 forker_calm) as [[W St F _ _] _ _ _]; split|apply forker_kmem|apply fork_space|apply fork_space]. }
  split.
  - split; [apply ts_single; [done|apply fork_space]|by vm_compute|by vm_compute|by vm_compute|by vm_compute|done].
  - apply forker_calm.
  - by vm_compute.
  - by vm_compute.
  - by vm_compute.
  - split_and!; [by apply fork_page_ok| |].
    + apply (bool_decide_unpack _). by vm_compute.
    + change (k_mem forker) with fork_mem. rewrite (held_leaf toy_mem) by apply fork_space.
      intros (j & Hj & E)%toy_held. change (toy_page 4 = toy_page j) in E. unfold toy_page in E. lia.
  - intros q Hq. destruct q as [|q]; [by vm_compute|intros _].
    assert (proc_at forker (S q) = proc0) as ->; [|by vm_compute].
    unfold proc_at. change (k_procs forker) with (proc_at forker 0 :: replicate 63 proc0).
    apply (lookup_total_replicate_2 63). unfold NPROC in Hq. lia.
  - by vm_compute.
  - intros f Hf. change (p_ofile (proc_at forker 0)) with (Some 0%nat :: replicate 15 None) in Hf.
    apply elem_of_cons in Hf as [[= ->]|[? _]%elem_of_replicate]; [|done].
    split; [change (k_files forker) with (<[0%nat := file0 <| f_ref := 1 |>]> (replicate NFILE file0));
            rewrite length_insert, length_replicate; unfold NFILE; lia|by vm_compute].
  - by vm_compute.
Qed.

(** Process 0 forks, and there is room: the child is process 1 with pid 1. *)
Lemma kfork_clones_witness :
  ∃ s', kfork forker [] = Ok 1 s' [] ∧ ∃ np T' fl', find_unused (k_procs forker) NPROC 0 = Some np ∧
    forked forker toy_table fork_free 8192 (toy_page 0) 0 0 s' np T' fl'.
Proof.
  assert (match kfork forker [] with Ok r _ _ => Some r | _ => None end = Some 1) as H
    by (vm_compute; reflexivity).
  destruct (kfork_clones forker toy_table fork_free 8192 (toy_page 0) 0 0 [] forker_can)
    as (r & s' & Hrun & Hr).
  rewrite Hrun in H. injection H as ->. exists s'. split; [exact Hrun|].
  destruct Hr as [[E _]|[_ Hf]]; [discriminate E|exact Hf].
Defined.
