(* ===== verification/Asm.v ===== *)
(** The assembly of the kernel: trampoline.S, swtch.S, kernelvec.S and entry.S.
    Each fragment is the list of its instructions; an instruction changes the
    registers, the control registers and memory, which supervisor code reaches
    through the page table that [satp] selects. *)

From S2P Require Export ProcSpace.

Module Asm.

(** ** The machine *)

Inductive reg :=
| ra | sp | gp | tp | t0 | t1 | t2 | s0 | s1 | a0 | a1 | a2 | a3 | a4 | a5 | a6 | a7
| s2 | s3 | s4 | s5 | s6 | s7 | s8 | s9 | s10 | s11 | t3 | t4 | t5 | t6.
#[global] Instance reg_eq_dec : EqDecision reg.
Proof. solve_decision. Defined.

Inductive csreg := sscratch | satp | sepc | mhartid.
#[global] Instance csreg_eq_dec : EqDecision csreg.
Proof. solve_decision. Defined.

Record mach := mk_mach {
  m_reg : reg → Z;
  m_csr : csreg → Z;
  m_mem : memory;
  m_pc : Z;  (* where control goes at the end of the fragment *)
}.
#[global] Instance eta_mach : Eta mach := λ s, mk_mach (m_reg s) (m_csr s) (m_mem s) (m_pc s).

Definition upd {A} `{EqDecision A} (f : A → Z) (r : A) (v : Z) : A → Z :=
  λ r', if decide (r' = r) then v else f r'.
Lemma upd_eq {A} `{EqDecision A} (f : A → Z) r v : upd f r v r = v.
Proof. unfold upd. by rewrite decide_True. Qed.
Lemma upd_ne {A} `{EqDecision A} (f : A → Z) r v r' : r' ≠ r → upd f r v r' = f r'.
Proof. intros. unfold upd. by rewrite decide_False. Qed.

Definition put (s : mach) (r : reg) (v : Z) : mach := s <| m_reg := upd (m_reg s) r v |>.

(** ** Address translation in supervisor mode *)

Inductive access := Load | Store.

(** A leaf entry that supervisor code may use: the permission, and not PTE_U. *)
Definition allows (acc : access) (pte : Z) : bool :=
  has pte (match acc with Load => PTE_R | Store => PTE_W end) && negb (has pte PTE_U).

(** The walk from the table at [a]; an entry with a permission is a leaf. *)
Fixpoint sv39_walk (m : memory) (acc : access) (va : Z) (level : nat) (a : Z) : option Z :=
  let pte := ld64 m (a + 8 * PX (Z.of_nat level) va) in
  if negb (has pte PTE_V) then None else
  if has pte (Z.lor (Z.lor PTE_R PTE_W) PTE_X) then
    let size := 2 ^ PXSHIFT (Z.of_nat level) in
    if allows acc pte && (PTE2PA pte mod size =? 0) then Some (PTE2PA pte + va mod size) else None
  else match level with O => None | S l => sv39_walk m acc va l (PTE2PA pte) end.

(** Mode 0 is no translation, mode 8 is Sv39. *)
Definition translate (m : memory) (satp : Z) (acc : access) (va : Z) : option Z :=
  if satp / 2 ^ 60 =? 0 then Some va
  else if negb (satp / 2 ^ 60 =? 8) then None
  else if (va <? MAXVA) || (2 ^ 64 - MAXVA <=? va) then
    sv39_walk m acc va 2 (satp mod 2 ^ 44 * 4096)
  else None.

(** ** Instructions *)

Inductive instr :=
| sd (rs : reg) (off : Z) (base : reg)
| ld (rd : reg) (off : Z) (base : reg)
| li (rd : reg) (v : Z)
| la (rd : reg) (symbol : Z)
| addi (rd rs : reg) (imm : Z)
| add (rd rs1 rs2 : reg)
| mul (rd rs1 rs2 : reg)
| csrw (c : csreg) (rs : reg)
| csrr (rd : reg) (c : csreg)
| sfence_vma
| jalr (rs : reg) (link : Z)
| call (target link : Z)
| ret
| sret.

(** [None] is a page fault. *)
Definition exec (i : instr) (s : mach) : option mach :=
  match i with
  | sd rs off base =>
      pa ← translate (m_mem s) (m_csr s satp) Store (u64 (m_reg s base + off));
      Some (s <| m_mem := st64 (m_mem s) pa (m_reg s rs) |>)
  | ld rd off base =>
      pa ← translate (m_mem s) (m_csr s satp) Load (u64 (m_reg s base + off));
      Some (put s rd (ld64 (m_mem s) pa))
  | li rd v | la rd v => Some (put s rd v)
  | addi rd rs imm => Some (put s rd (u64 (m_reg s rs + imm)))
  | add rd rs1 rs2 => Some (put s rd (u64 (m_reg s rs1 + m_reg s rs2)))
  | mul rd rs1 rs2 => Some (put s rd (u64 (m_reg s rs1 * m_reg s rs2)))
  | csrw c rs => Some (s <| m_csr := upd (m_csr s) c (m_reg s rs) |>)
  | csrr rd c => Some (put s rd (m_csr s c))
  | sfence_vma => Some s
  | jalr rs link => Some ((put s ra link) <| m_pc := m_reg s rs |>)
  | call target link => Some ((put s ra link) <| m_pc := target |>)
  | ret => Some (s <| m_pc := m_reg s ra |>)
  | sret => Some (s <| m_pc := m_csr s sepc |>)
  end.

Fixpoint run (code : list instr) (s : mach) : option mach :=
  match code with
  | [] => Some s
  | i :: rest => s' ← exec i s; run rest s'
  end.

(** ** The fragments *)

Section code.
Context `{L : Layout}.

(** The return address of [jalr t0]: [userret] follows it. *)
Definition userret_va : Z := TRAMPOLINE + (userret - trampoline).

Definition uservec_code : list instr := [
  csrw sscratch a0;
  li a0 TRAPFRAME;
  sd ra 40 a0; sd sp 48 a0; sd gp 56 a0; sd tp 64 a0; sd t0 72 a0; sd t1 80 a0; sd t2 88 a0;
  sd s0 96 a0; sd s1 104 a0; sd a1 120 a0; sd a2 128 a0; sd a3 136 a0; sd a4 144 a0; sd a5 152 a0;
  sd a6 160 a0; sd a7 168 a0; sd s2 176 a0; sd s3 184 a0; sd s4 192 a0; sd s5 200 a0; sd s6 208 a0;
  sd s7 216 a0; sd s8 224 a0; sd s9 232 a0; sd s10 240 a0; sd s11 248 a0; sd t3 256 a0; sd t4 264 a0;
  sd t5 272 a0; sd t6 280 a0;
  csrr t0 sscratch; sd t0 112 a0;
  ld sp 8 a0; ld tp 32 a0; ld t0 16 a0; ld t1 0 a0;
  sfence_vma; csrw satp t1; sfence_vma;
  jalr t0 userret_va].

Definition userret_code : list instr := [
  sfence_vma; csrw satp a0; sfence_vma;
  li a0 TRAPFRAME;
  ld ra 40 a0; ld sp 48 a0; ld gp 56 a0; ld tp 64 a0; ld t0 72 a0; ld t1 80 a0; ld t2 88 a0;
  ld s0 96 a0; ld s1 104 a0; ld a1 120 a0; ld a2 128 a0; ld a3 136 a0; ld a4 144 a0; ld a5 152 a0;
  ld a6 160 a0; ld a7 168 a0; ld s2 176 a0; ld s3 184 a0; ld s4 192 a0; ld s5 200 a0; ld s6 208 a0;
  ld s7 216 a0; ld s8 224 a0; ld s9 232 a0; ld s10 240 a0; ld s11 248 a0; ld t3 256 a0; ld t4 264 a0;
  ld t5 272 a0; ld t6 280 a0;
  ld a0 112 a0;
  sret].

Definition swtch_code : list instr := [
  sd ra 0 a0; sd sp 8 a0; sd s0 16 a0; sd s1 24 a0; sd s2 32 a0; sd s3 40 a0; sd s4 48 a0;
  sd s5 56 a0; sd s6 64 a0; sd s7 72 a0; sd s8 80 a0; sd s9 88 a0; sd s10 96 a0; sd s11 104 a0;
  ld ra 0 a1; ld sp 8 a1; ld s0 16 a1; ld s1 24 a1; ld s2 32 a1; ld s3 40 a1; ld s4 48 a1;
  ld s5 56 a1; ld s6 64 a1; ld s7 72 a1; ld s8 80 a1; ld s9 88 a1; ld s10 96 a1; ld s11 104 a1;
  ret].

(** [kernelvec] up to the call of [kerneltrap] at [kerneltrap_addr], which
    returns to [link] ... *)
Definition kernelvec_enter (kerneltrap_addr link : Z) : list instr := [
  addi sp sp (-256);
  sd ra 0 sp; sd gp 16 sp; sd tp 24 sp; sd t0 32 sp; sd t1 40 sp; sd t2 48 sp; sd a0 72 sp;
  sd a1 80 sp; sd a2 88 sp; sd a3 96 sp; sd a4 104 sp; sd a5 112 sp; sd a6 120 sp; sd a7 128 sp;
  sd t3 216 sp; sd t4 224 sp; sd t5 232 sp; sd t6 240 sp;
  call kerneltrap_addr link].

(** ... and from there on. *)
Definition kernelvec_leave : list instr := [
  ld ra 0 sp; ld gp 16 sp; ld t0 32 sp; ld t1 40 sp; ld t2 48 sp; ld a0 72 sp; ld a1 80 sp;
  ld a2 88 sp; ld a3 96 sp; ld a4 104 sp; ld a5 112 sp; ld a6 120 sp; ld a7 128 sp; ld t3 216 sp;
  ld t4 224 sp; ld t5 232 sp; ld t6 240 sp;
  addi sp sp 256;
  sret].

(** [stack0] is the address of the stacks, [start_addr] that of [start]. *)
Definition entry_code (stack0 start_addr link : Z) : list instr := [
  la sp stack0; li a0 (1024 * 4); csrr a1 mhartid; addi a1 a1 1; mul a0 a0 a1; add sp sp a0;
  call start_addr link].

End code.

(** ** Runs of saves and of restores *)

Lemma run_app c1 c2 s s' : run c1 s = Some s' → run (c1 ++ c2) s = run c2 s'.
Proof.
  revert s. induction c1 as [|i c1 IH]; intros s; cbn [run app]; [by intros [= ->]|].
  destruct (exec i s); simpl; [apply IH|done].
Qed.

(** The [n] bytes at the virtual address [va] are the [n] bytes at [pa], and
    writing to them does not change that. *)
Definition window (m : memory) (satp va pa n : Z) : Prop :=
  0 <= va ∧ va + n <= 2 ^ 64 ∧
  ∀ m', (∀ a, ~ (pa <= a < pa + n) → ld8 m' a = ld8 m a) →
    ∀ acc off, 0 <= off < n → off mod 8 = 0 → translate m' satp acc (va + off) = Some (pa + off).

Lemma window_write m m' satp va pa n :
  window m satp va pa n → (∀ a, ~ (pa <= a < pa + n) → ld8 m' a = ld8 m a) → window m' satp va pa n.
Proof.
  intros (H1 & H2 & H3) Hm. split_and!; [done|done|]. intros m'' Hm''. apply H3. intros a Ha.
  by rewrite Hm'', Hm.
Qed.

(** Register [r] goes to offset [off]; slots at distance [d] in an area of [n] bytes. *)
Definition slots := list (reg * Z).
Definition fits (d n : Z) (l : slots) : Prop :=
  Forall (λ '(_, off), 0 <= d + off ∧ d + off + 8 <= n ∧ (d + off) mod 8 = 0) l.

Definition saved (pa : Z) (f : reg → Z) (l : slots) (m : memory) : memory :=
  foldl (λ m '(r, off), st64 m (pa + off) (f r)) m l.
Definition loaded (pa : Z) (m : memory) (l : slots) (f : reg → Z) : reg → Z :=
  foldl (λ f '(r, off), upd f r (ld64 m (pa + off))) f l.

Lemma window_at m satp va pa n acc off :
  window m satp va pa n → 0 <= off → off + 8 <= n → off mod 8 = 0 →
  translate m satp acc (u64 (va + off)) = Some (pa + off).
Proof.
  intros (H1 & H2 & H3) H4 H5 H6. change (2 ^ 64) with 18446744073709551616 in H2.
  rewrite u64_small by lia. apply H3; [done|lia|done].
Qed.

Lemma st64_outside m a v x : x < a ∨ a + 8 <= x → ld8 (st64 m a v) x = ld8 m x.
Proof. intros H. unfold st64. apply ld8_stn_ne. rewrite length_le_bytes. lia. Qed.

Lemma saved_range pa f l m lo hi a :
  Forall (λ '(_, off), lo <= off ∧ off + 8 <= hi) l → ~ (pa + lo <= a < pa + hi) →
  ld8 (saved pa f l m) a = ld8 m a.
Proof.
  intros Hl Ha. revert m. induction l as [|[r off] l IH]; intros m; [done|].
  apply Forall_cons in Hl as [[H1 H2] Hl]. cbn [saved foldl]. fold (saved pa f l (st64 m (pa + off) (f r))).
  rewrite IH by done. apply st64_outside. lia.
Qed.

Lemma saved_outside pa f l m d n a :
  fits d n l → ~ (pa <= a < pa + n) → ld8 (saved (pa + d) f l m) a = ld8 m a.
Proof.
  intros Hl Ha. apply (saved_range _ _ _ _ (- d) (n - d)); [|lia]. eapply Forall_impl; [exact Hl|].
  intros [r off] (? & ? & _). lia.
Qed.

Lemma run_saves base l s va pa d n :
  window (m_mem s) (m_csr s satp) va pa n → m_reg s base = va + d → fits d n l →
  run ((λ '(r, off), sd r off base) <$> l) s = Some (s <| m_mem := saved (pa + d) (m_reg s) l (m_mem s) |>).
Proof.
  intros Hw Hb Hl. revert s Hw Hb. induction l as [|[r off] l IH]; intros s Hw Hb; cbn [run fmap list_fmap].
  { by destruct s. }
  apply Forall_cons in Hl as [(H1 & H2 & H3) Hl]. cbn [exec]. rewrite Hb, <- Z.add_assoc.
  rewrite (window_at _ _ va pa n) by done. cbn [mbind option_bind]. rewrite Z.add_assoc.
  rewrite IH; [done|done| |done]. apply (window_write (m_mem s)); [done|]. intros a Ha.
  apply st64_outside. lia.
Qed.

Lemma run_loads base l s va pa d n :
  window (m_mem s) (m_csr s satp) va pa n → m_reg s base = va + d → fits d n l → base ∉ l.*1 →
  run ((λ '(r, off), ld r off base) <$> l) s = Some (s <| m_reg := loaded (pa + d) (m_mem s) l (m_reg s) |>).
Proof.
  intros Hw Hb Hl Hn. revert s Hw Hb. induction l as [|[r off] l IH]; intros s Hw Hb; cbn [run fmap list_fmap].
  { by destruct s. }
  apply Forall_cons in Hl as [(H1 & H2 & H3) Hl]. apply not_elem_of_cons in Hn as [Hr Hn].
  cbn [exec]. rewrite Hb, <- Z.add_assoc, (window_at _ _ va pa n) by done. cbn [mbind option_bind].
  rewrite Z.add_assoc.
  rewrite IH; [done|done|done|done|]. unfold put. simpl. by rewrite upd_ne.
Qed.

(** Other words of the area are kept; each register is found in its slot. *)
Lemma saved_other pa f l m d n off :
  fits d n l → off ∉ l.*2 → (d + off) mod 8 = 0 → ld64 (saved pa f l m) (pa + off) = ld64 m (pa + off).
Proof.
  intros Hl Hn Ho. revert m. induction l as [|[r' off'] l IH]; intros m; [done|].
  apply not_elem_of_cons in Hn as [Hne Hn]. simpl in Hne. apply Forall_cons in Hl as [(_ & _ & H) Hl].
  cbn [saved foldl]. fold (saved pa f l (st64 m (pa + off') (f r'))). rewrite IH by done.
  apply ld64_st64_ne. zlia.
Qed.

Lemma saved_at pa f l m d n r off :
  NoDup (l.*2) → fits d n l → (r, off) ∈ l → 0 <= f r < 2 ^ 64 → ld64 (saved pa f l m) (pa + off) = f r.
Proof.
  intros Hnd Hl Hin Hf. change (2 ^ 64) with 18446744073709551616 in Hf.
  revert m. induction l as [|[r' off'] l IH]; intros m; [by apply elem_of_nil in Hin|].
  apply NoDup_cons in Hnd as [Hni Hnd]. apply Forall_cons in Hl as [(_ & _ & H) Hl].
  cbn [saved foldl]. fold (saved pa f l (st64 m (pa + off') (f r'))).
  apply elem_of_cons in Hin as [[= -> ->]|Hin]; [|by apply IH].
  rewrite (saved_other _ _ _ _ d n) by done. by rewrite ld64_st64_eq, u64_small.
Qed.

Lemma loaded_other pa m l f r : r ∉ l.*1 → loaded pa m l f r = f r.
Proof.
  revert f. induction l as [|[r' off'] l IH]; intros f Hn; [done|]. apply not_elem_of_cons in Hn as [Hne Hn].
  cbn [loaded foldl]. fold (loaded pa m l (upd f r' (ld64 m (pa + off')))). rewrite IH by done.
  by apply upd_ne.
Qed.

Lemma loaded_at pa m l f r off :
  NoDup (l.*1) → (r, off) ∈ l → loaded pa m l f r = ld64 m (pa + off).
Proof.
  intros Hnd. revert f. induction l as [|[r' off'] l IH]; intros f Hin; [by apply elem_of_nil in Hin|].
  apply NoDup_cons in Hnd as [Hni Hnd].
  cbn [loaded foldl]. fold (loaded pa m l (upd f r' (ld64 m (pa + off')))).
  apply elem_of_cons in Hin as [[= -> ->]|Hin]; [|by apply IH].
  rewrite loaded_other by done. apply upd_eq.
Qed.

(** ** Traps from user space *)

Section trampoline.
Context `{L : Layout}.

Implicit Types T : gmap (list Z) Z.

Lemma MAKE_SATP_spec root : page_ok root → MAKE_SATP root / 2 ^ 60 = 8 ∧ MAKE_SATP root mod 2 ^ 44 * 4096 = root.
Proof.
  intros [Al [H1 H2]]. pose proof end_range as [H3 _]. change KERNBASE with 2147483648 in H3.
  change PHYSTOP with 2281701376 in H2. unfold MAKE_SATP, SATP_SV39.
  rewrite Z.shiftr_div_pow2 by lia. change (2 ^ 12) with 4096.
  change (Z.shiftl 8 60) with (8 * 2 ^ 60).
  rewrite (lor_add_disjoint 8 _ 60) by (change (2 ^ 60) with 1152921504606846976; zlia || lia).
  change (2 ^ 60) with 1152921504606846976. change (2 ^ 44) with 17592186044416. split; zlia.
Qed.

(** A page mapped for reading and writing by the kernel alone, outside the table
    itself, is a window. *)
Lemma window_page m T root va pa :
  pt_rep m T → T !! [] = Some root → 0 <= va → va mod 4096 = 0 → va + 4096 <= MAXVA → page_ok pa →
  leaf m T va = mk_pte pa (Z.lor PTE_R PTE_W) → (∀ π, T !! π ≠ Some pa) →
  window m (MAKE_SATP root) va pa 4096.
Proof.
  intros Ht Hr H0 Al Hmax Hpa Hl Hne. change MAXVA with 274877906944 in *.
  split_and!; [done|change (2 ^ 64) with 18446744073709551616; lia|]. intros m' Hm' acc off Hoff _.
  destruct (MAKE_SATP_spec root) as [E1 E2]; [by eapply (pt_page _ _ Ht)|].
  unfold translate. rewrite E1, E2. cbn [Z.eqb Pos.eqb negb].
  change MAXVA with 274877906944. rewrite (proj2 (Z.ltb_lt _ _)) by lia. cbn [orb].
  assert (∀ l, 0 <= l → PX l (va + off) = PX l va) as HPX.
  { intros l Hl0. apply PX_same; change MAXVA with 274877906944; (lia || zlia). }
  assert (∀ π q i, T !! π = Some q → 0 <= i < 512 → ld64 m' (q + 8 * i) = ld64 m (q + 8 * i)) as Hag.
  { intros π q i Hq Hi. destruct (pt_page _ _ Ht _ _ Hq) as [Aq _], Hpa as [Ap _].
    assert (pa ≠ q) as N by (intros ->; by eapply Hne). unfold ld64. f_equal. apply ldn_ext.
    intros x Hx. apply Hm'. destruct (page_disjoint pa q Ap Aq N); change PGSIZE with 4096 in *; lia. }
  assert (∀ l, 0 <= l → 0 <= PX l (va + off) < 512) as HPXR by (intros; apply PX_range).
  destruct (T !! [PX 1 va; PX 2 va]) as [q0|] eqn:Hq0.
  2:{ exfalso. unfold leaf in Hl. rewrite Hq0 in Hl. pose proof (mk_pte_valid pa 6 Hpa) as Hv.
      change (Z.lor PTE_R PTE_W) with 6 in Hl. rewrite <- Hl in Hv. by specialize (Hv ltac:(lia)). }
  destruct (pt_closed _ _ Ht (PX 1 va) [PX 2 va]) as [q1 Hq1]; [eauto|].
  pose proof (pt_page _ _ Ht _ _ Hq1) as P1. pose proof (pt_page _ _ Ht _ _ Hq0) as P0.
  cbn [sv39_walk]. rewrite !HPX by lia.
  change (Z.of_nat 2) with 2. change (Z.of_nat 1) with 1. change (Z.of_nat 0) with 0.
  rewrite (Hag [] root), (pt_entry _ _ Ht [] root), Hq1 by (done || apply PX_range || simpl; lia).
  rewrite has_child, child_not_leaf, child_PA by done. cbn [negb].
  rewrite (Hag [PX 2 va] q1), (pt_entry _ _ Ht [PX 2 va] q1), Hq0 by (done || apply PX_range || simpl; lia).
  rewrite has_child, child_not_leaf, child_PA by done. cbn [negb].
  rewrite (Hag _ q0) by (exact Hq0 || apply PX_range).
  assert (ld64 m (q0 + 8 * PX 0 va) = mk_pte pa (Z.lor PTE_R PTE_W)) as ->
    by (rewrite <- Hl; unfold leaf; by rewrite Hq0).
  rewrite mk_pte_valid, mk_pte_PA by (done || by vm_compute). cbn [negb]. unfold allows, has.
  assert (∀ f, 0 <= f < 1024 → Z.land (mk_pte pa (Z.lor PTE_R PTE_W)) f = Z.land 7 f) as Hf.
  { intros f Hf. by rewrite land_flag, mk_pte_flags. }
  rewrite (Hf (Z.lor (Z.lor PTE_R PTE_W) PTE_X)), (Hf PTE_U) by (by vm_compute).
  change (2 ^ PXSHIFT 0) with 4096. destruct Hpa as [Ap _]. rewrite Ap.
  assert ((va + off) mod 4096 = off) as -> by zlia.
  by destruct acc; [rewrite (Hf PTE_R)|rewrite (Hf PTE_W)].
Qed.

(** Where [uservec] keeps the user registers (struct trapframe). *)
Definition frame_slots : slots :=
  [(ra, 40); (sp, 48); (gp, 56); (tp, 64); (t0, 72); (t1, 80); (t2, 88); (s0, 96); (s1, 104);
   (a1, 120); (a2, 128); (a3, 136); (a4, 144); (a5, 152); (a6, 160); (a7, 168); (s2, 176); (s3, 184);
   (s4, 192); (s5, 200); (s6, 208); (s7, 216); (s8, 224); (s9, 232); (s10, 240); (s11, 248);
   (t3, 256); (t4, 264); (t5, 272); (t6, 280)].

Lemma frame_slots_fit : fits 0 4096 frame_slots.
Proof. apply (bool_decide_unpack _). by vm_compute. Qed.
Lemma frame_slots_range : Forall (λ '(_, off), 40 <= off ∧ off + 8 <= 288) frame_slots.
Proof. apply (bool_decide_unpack _). by vm_compute. Qed.
Lemma frame_slots_offs : NoDup (frame_slots.*2).
Proof. apply (bool_decide_unpack _). by vm_compute. Qed.
Lemma frame_slots_regs : NoDup (frame_slots.*1).
Proof. apply (bool_decide_unpack _). by vm_compute. Qed.

Lemma frame_slots_spec r off :
  (r, off) ∈ frame_slots → off ≠ 112 ∧ 40 <= off ∧ off + 8 <= 288 ∧ off mod 8 = 0 ∧ r ≠ a0.
Proof.
  assert (Forall (λ '(r, off), off ≠ 112 ∧ 40 <= off ∧ off + 8 <= 288 ∧ off mod 8 = 0 ∧ r ≠ a0) frame_slots) as H
    by (apply (bool_decide_unpack _); by vm_compute).
  rewrite Forall_forall in H. apply (H (r, off)).
Qed.

(** Every register has a slot. *)
Lemma frame_slots_all r : ∃ off, (r, off) ∈ (a0, 112) :: frame_slots.
Proof. destruct r; eexists; by repeat (left || right). Qed.

(** The page table of a process, with its trap frame page [tf]. *)
Record user_table (m : memory) T (root tf : Z) : Prop := {
  ut_rep : pt_rep m T;
  ut_root : T !! [] = Some root;
  ut_leaf : leaf m T TRAPFRAME = mk_pte tf (Z.lor PTE_R PTE_W);
  ut_page : page_ok tf;
  ut_out : ∀ π, T !! π ≠ Some tf;
}.

Lemma user_window m T root tf : user_table m T root tf → window m (MAKE_SATP root) TRAPFRAME tf 4096.
Proof. intros [H1 H2 H3 H4 H5]. by eapply window_page. Qed.

(** The page table that [proc_pagetable] makes is such a table. *)
Lemma proc_user_table s fl B m' h' T' fl' root tf :
  sstep s ∅ fl B m' h' T' fl' → T' !! [] = Some root → high_leaves m' T' 0 tf → page_ok tf → tf ∉ fl →
  user_table m' T' root tf.
Proof.
  intros [Hv _ _ Hsp] Hr Hh Hp Hfl. split; [apply Hv|done| |done|].
  - change TRAPFRAME with 274877898752. change MAXVA with 274877906944 in Hh.
    specialize (Hh 274877898752 ltac:(change MAXVA with 274877906944; lia)).
    change TRAPFRAME with 274877898752 in Hh. change TRAMPOLINE with 274877902848 in Hh.
    by rewrite decide_False, decide_True in Hh by lia.
  - intros π E. destruct (Hsp tf Hp Hfl) as (_ & N & _); [apply held_none|]. apply N. left. eauto.
Qed.

Definition regs_ok (f : reg → Z) : Prop := ∀ r, 0 <= f r < 2 ^ 64.

(** The state in which [uservec] calls [usertrap]. *)
Record entered (s s' : mach) (tf : Z) : Prop := {
  en_regs : ∀ r off, (r, off) ∈ (a0, 112) :: frame_slots → ld64 (m_mem s') (tf + off) = m_reg s r;
  en_mem : ∀ a, ~ (tf + 40 <= a < tf + 288) → ld8 (m_mem s') a = ld8 (m_mem s) a;
  en_sp : m_reg s' sp = ld64 (m_mem s) (tf + TF_kernel_sp);
  en_tp : m_reg s' tp = ld64 (m_mem s) (tf + TF_kernel_hartid);
  en_satp : m_csr s' satp = ld64 (m_mem s) (tf + TF_kernel_satp);
  en_pc : m_pc s' = ld64 (m_mem s) (tf + TF_kernel_trap);
  en_ra : m_reg s' ra = userret_va;
}.

Lemma uservec_ok s T root tf :
  user_table (m_mem s) T root tf → m_csr s satp = MAKE_SATP root → regs_ok (m_reg s) →
  ∃ s', run uservec_code s = Some s' ∧ entered s s' tf.
Proof.
  intros Hu Hsatp Hok. pose proof (user_window _ _ _ _ Hu) as Hw.
  set (u1 := (put s a0 TRAPFRAME) <| m_csr := upd (m_csr s) sscratch (m_reg s a0) |>).
  set (m2 := saved tf (m_reg u1) frame_slots (m_mem s)).
  assert (window m2 (MAKE_SATP root) TRAPFRAME tf 4096) as Hw2.
  { apply (window_write (m_mem s)); [done|]. intros a Ha. 
    apply (saved_range _ _ _ _ 40 288); [apply frame_slots_range|lia]. }
  set (m3 := st64 m2 (tf + 112) (m_reg s a0)).
  assert (window m3 (MAKE_SATP root) TRAPFRAME tf 4096) as Hw3.
  { apply (window_write m2); [done|]. intros a Ha. apply st64_outside. lia. }
  set (kslots := [(sp, 8); (tp, 32); (t0, 16); (t1, 0)] : slots).
  set (u3 := put (u1 <| m_mem := m3 |>) t0 (m_reg s a0)).
  set (f4 := loaded tf m3 kslots (m_reg u3)).
  change uservec_code with ([csrw sscratch a0; li a0 TRAPFRAME] ++ ((λ '(r, off), sd r off a0) <$> frame_slots) ++
    [csrr t0 sscratch; sd t0 112 a0] ++ ((λ '(r, off), ld r off a0) <$> kslots) ++
    [sfence_vma; csrw satp t1; sfence_vma; jalr t0 userret_va]).
  assert (run ([csrw sscratch a0; li a0 TRAPFRAME]) s = Some u1) as R1 by reflexivity.
  assert (run ((λ '(r, off), sd r off a0) <$> frame_slots) u1 = Some (u1 <| m_mem := m2 |>)) as R2.
  { rewrite (run_saves a0 frame_slots u1 TRAPFRAME tf 0 4096); [by rewrite Z.add_0_r| |done|apply frame_slots_fit].
    change (m_mem u1) with (m_mem s).
    change (m_csr u1 satp) with (m_csr s satp). by rewrite Hsatp. }
  assert (run [csrr t0 sscratch; sd t0 112 a0] (u1 <| m_mem := m2 |>) = Some u3) as R3.
  { set (u2 := put (u1 <| m_mem := m2 |>) t0 (m_reg s a0)).
    change (run [sd t0 112 a0] u2 = Some u3). cbn [run exec]. change (m_mem u2) with m2.
    change (m_csr u2 satp) with (m_csr s satp). change (m_reg u2 a0) with TRAPFRAME. rewrite Hsatp.
    by rewrite (window_at _ _ TRAPFRAME tf 4096) by (done || lia). }
  assert (run ((λ '(r, off), ld r off a0) <$> kslots) u3 = Some (u3 <| m_reg := f4 |>)) as R4.
  { rewrite (run_loads a0 kslots u3 TRAPFRAME tf 0 4096); [by rewrite Z.add_0_r| |done|apply (bool_decide_unpack _); by vm_compute..].
    change (m_mem u3) with m3.
    change (m_csr u3 satp) with (m_csr s satp). by rewrite Hsatp. }
  rewrite (run_app _ _ _ _ R1), (run_app _ _ _ _ R2), (run_app _ _ _ _ R3), (run_app _ _ _ _ R4).
  eexists. split; [reflexivity|].
  assert (∀ off, off ∉ 112 :: frame_slots.*2 → off mod 8 = 0 → ld64 m3 (tf + off) = ld64 (m_mem s) (tf + off)) as Hk.
  { intros off [N1 N2]%not_elem_of_cons Al. unfold m3. rewrite ld64_st64_ne by zlia.
    by eapply saved_other; [apply frame_slots_fit|..]. }
  assert (∀ r off, (r, off) ∈ kslots → f4 r = ld64 (m_mem s) (tf + off)) as Hf4.
  { intros r off Hin. unfold f4. rewrite (loaded_at _ _ _ _ _ off); [|apply (bool_decide_unpack _); by vm_compute|done].
    repeat (apply elem_of_cons in Hin as [[= -> ->]|Hin]); try (apply Hk; [apply (bool_decide_unpack _); by vm_compute|done]).
    by apply elem_of_nil in Hin. }
  split.
  - change (m_mem _) with m3. intros r off [[= -> ->]|Hin]%elem_of_cons; unfold m3.
    + rewrite ld64_st64_eq. apply u64_small, Hok.
    + assert (off ≠ 112 ∧ off mod 8 = 0 ∧ r ≠ a0) as (N & Al & Nr).
      { apply frame_slots_spec in Hin. tauto. }
      assert (m_reg u1 r = m_reg s r) as Er by (by apply upd_ne).
      unfold m2. rewrite ld64_st64_ne, (saved_at _ _ _ _ 0 4096 r); [done|apply frame_slots_offs|apply frame_slots_fit|done| |zlia].
      rewrite Er. apply Hok.
  - intros a Ha. change (ld8 m3 a = ld8 (m_mem s) a). unfold m3. rewrite st64_outside by lia.
    by apply (saved_range _ _ _ _ 40 288); [apply frame_slots_range|].
  - apply (Hf4 sp 8). by repeat (left || right).
  - apply (Hf4 tp 32). by repeat (left || right).
  - apply (Hf4 t1 0). by repeat (left || right).
  - apply (Hf4 t0 16). by repeat (left || right).
  - done.
Qed.

Lemma userret_ok k T root tf :
  user_table (m_mem k) T root tf → m_reg k a0 = MAKE_SATP root →
  ∃ s', run userret_code k = Some s' ∧
    (∀ r off, (r, off) ∈ (a0, 112) :: frame_slots → m_reg s' r = ld64 (m_mem k) (tf + off)) ∧
    m_csr s' satp = MAKE_SATP root ∧ m_mem s' = m_mem k ∧ m_pc s' = m_csr k sepc.
Proof.
  intros Hu Ha0. pose proof (user_window _ _ _ _ Hu) as Hw.
  set (u1 := (put k a0 TRAPFRAME) <| m_csr := upd (m_csr k) satp (m_reg k a0) |>).
  assert (m_csr u1 satp = MAKE_SATP root) as Hsatp by done.
  set (f2 := loaded tf (m_mem k) frame_slots (m_reg u1)).
  change userret_code with ([sfence_vma; csrw satp a0; sfence_vma; li a0 TRAPFRAME] ++
    ((λ '(r, off), ld r off a0) <$> frame_slots) ++ [ld a0 112 a0; sret]).
  assert (run [sfence_vma; csrw satp a0; sfence_vma; li a0 TRAPFRAME] k = Some u1) as R1 by reflexivity.
  assert (run ((λ '(r, off), ld r off a0) <$> frame_slots) u1 = Some (u1 <| m_reg := f2 |>)) as R2.
  { rewrite (run_loads a0 frame_slots u1 TRAPFRAME tf 0 4096);
      [by rewrite Z.add_0_r| |done|apply frame_slots_fit|apply (bool_decide_unpack _); by vm_compute].
    change (m_mem u1) with (m_mem k). by rewrite Hsatp. }
  rewrite (run_app _ _ _ _ R1), (run_app _ _ _ _ R2). set (u2 := u1 <| m_reg := f2 |>).
  cbn [run exec]. change (m_mem u2) with (m_mem k). change (m_csr u2 satp) with (m_csr u1 satp).
  change (m_reg u2 a0) with (f2 a0). rewrite Hsatp.
  assert (f2 a0 = TRAPFRAME) as -> by (apply loaded_other, (bool_decide_unpack _); by vm_compute).
  rewrite (window_at _ _ TRAPFRAME tf 4096) by (done || lia). cbn [mbind option_bind].
  eexists. split; [reflexivity|]. split_and!; [|done..].
  intros r off [[= -> ->]|Hin]%elem_of_cons; [done|]. destruct (frame_slots_spec r off Hin) as (_ & _ & _ & _ & Nr).
  simpl. rewrite upd_ne by done. by apply loaded_at; [apply frame_slots_regs|].
Qed.

(** C15: a trap from user space and the return from it are transparent.  With the
    trap frame page mapped at TRAPFRAME, [uservec] saves the 31 user registers in
    it without a page fault, changes no other memory, and enters the kernel on its
    own stack and page table with the hart number in [tp]; whenever the kernel
    later runs [userret] with the process's page table and the saved registers as
    they were, every register is back and the process goes on at [sepc]. *)
Theorem trap_roundtrip s T root tf :
  user_table (m_mem s) T root tf → m_csr s satp = MAKE_SATP root → regs_ok (m_reg s) →
  ∃ s', run uservec_code s = Some s' ∧ entered s s' tf ∧
    ∀ k T', user_table (m_mem k) T' root tf → m_reg k a0 = MAKE_SATP root →
      (∀ a, tf + 40 <= a < tf + 288 → ld8 (m_mem k) a = ld8 (m_mem s') a) →
      ∃ u, run userret_code k = Some u ∧ (∀ r, m_reg u r = m_reg s r) ∧
        m_csr u satp = m_csr s satp ∧ m_mem u = m_mem k ∧ m_pc u = m_csr k sepc.
Proof.
  intros Hu Hsatp Hok. destruct (uservec_ok s T root tf Hu Hsatp Hok) as (s' & Hrun & Hen).
  exists s'. split_and!; [done|done|]. intros k T' Hk Ha0 Hsame.
  destruct (userret_ok k T' root tf Hk Ha0) as (u & Hret & Hr & Hs & Hm & Hpc).
  exists u. split_and!; [done| |by rewrite Hsatp|done|done]. intros r.
  destruct (frame_slots_all r) as [off Hin]. rewrite (Hr r off Hin), <- (en_regs _ _ _ Hen r off Hin).
  unfold ld64. f_equal. apply ldn_ext. intros a Ha. apply Hsame.
  apply elem_of_cons in Hin as [[= _ ->]|(_ & ? & ? & _)%frame_slots_spec]; lia.
Qed.

End trampoline.

(** ** The context switch *)

(** struct context *)
Definition context_slots : slots :=
  [(ra, 0); (sp, 8); (s0, 16); (s1, 24); (s2, 32); (s3, 40); (s4, 48); (s5, 56); (s6, 64);
   (s7, 72); (s8, 80); (s9, 88); (s10, 96); (s11, 104)].

Lemma context_slots_spec r off : (r, off) ∈ context_slots → 0 <= off ∧ off + 8 <= 112 ∧ off mod 8 = 0.
Proof.
  assert (Forall (λ '(_, off), 0 <= off ∧ off + 8 <= 112 ∧ off mod 8 = 0) context_slots) as H
    by (apply (bool_decide_unpack _); by vm_compute).
  rewrite Forall_forall in H. apply (H (r, off)).
Qed.

(** A context inside kernel memory, which is mapped to itself. *)
Definition context_in (lo n c : Z) : Prop := lo <= c ∧ c + 112 <= lo + n ∧ (c - lo) mod 8 = 0.

Lemma context_fits lo n c : context_in lo n c → fits (c - lo) n context_slots.
Proof.
  intros (H1 & H2 & H3). apply Forall_forall. intros [r off] (? & ? & ?)%context_slots_spec. zlia.
Qed.

(** One switch: the callee-saved registers go to [old] and come from [new]. *)
Record switched (s s' : mach) (old new : Z) : Prop := {
  sw_save : ∀ r off, (r, off) ∈ context_slots → ld64 (m_mem s') (old + off) = m_reg s r;
  sw_load : ∀ r off, (r, off) ∈ context_slots → m_reg s' r = ld64 (m_mem s) (new + off);
  sw_keep : ∀ r, r ∉ context_slots.*1 → m_reg s' r = m_reg s r;
  sw_mem : ∀ a, ~ (old <= a < old + 112) → ld8 (m_mem s') a = ld8 (m_mem s) a;
  sw_csr : m_csr s' = m_csr s;
  sw_pc : m_pc s' = ld64 (m_mem s) new;
}.

Lemma swtch_ok s lo n old new :
  window (m_mem s) (m_csr s satp) lo lo n → context_in lo n old → context_in lo n new →
  old + 112 <= new ∨ new + 112 <= old → m_reg s a0 = old → m_reg s a1 = new → regs_ok (m_reg s) →
  ∃ s', run swtch_code s = Some s' ∧ switched s s' old new.
Proof.
  intros Hw Ho Hn Hd Ea0 Ea1 Hok.
  assert (lo + (old - lo) = old ∧ lo + (new - lo) = new) as [Eo En] by lia.
  set (m2 := saved old (m_reg s) context_slots (m_mem s)). set (f2 := loaded new m2 context_slots (m_reg s)).
  assert (∀ a, ~ (old <= a < old + 112) → ld8 m2 a = ld8 (m_mem s) a) as Hm2.
  { intros a Ha. apply (saved_range _ _ _ _ 0 112); [|lia]. apply Forall_forall.
    intros [r off] (? & ? & _)%context_slots_spec. lia. }
  change swtch_code with (((λ '(r, off), sd r off a0) <$> context_slots) ++
    ((λ '(r, off), ld r off a1) <$> context_slots) ++ [ret]).
  assert (run ((λ '(r, off), sd r off a0) <$> context_slots) s = Some (s <| m_mem := m2 |>)) as R1.
  { rewrite (run_saves a0 context_slots s lo lo (old - lo) n); [by rewrite Eo|done|lia|by apply context_fits]. }
  assert (run ((λ '(r, off), ld r off a1) <$> context_slots) (s <| m_mem := m2 |>) =
    Some (s <| m_mem := m2 |> <| m_reg := f2 |>)) as R2.
  { rewrite (run_loads a1 context_slots (s <| m_mem := m2 |>) lo lo (new - lo) n); [by rewrite En| |simpl; lia|by apply context_fits|].
    - apply (window_write (m_mem s)); [done|]. intros a Ha. apply Hm2. unfold context_in in Ho. lia.
    - apply (bool_decide_unpack _). by vm_compute. }
  rewrite (run_app _ _ _ _ R1), (run_app _ _ _ _ R2). eexists. split; [reflexivity|].
  assert (∀ r off, (r, off) ∈ context_slots → f2 r = ld64 (m_mem s) (new + off)) as Hf2.
  { intros r off Hin. unfold f2. rewrite (loaded_at _ _ _ _ _ off); [|apply (bool_decide_unpack _); by vm_compute|done].
    destruct (context_slots_spec r off Hin) as (? & ? & _). unfold ld64. f_equal. apply ldn_ext.
    intros a Ha. apply Hm2. lia. }
  split; [|done| |done|done|].
  - intros r off Hin. change (ld64 m2 (old + off) = m_reg s r). unfold m2.
    apply (saved_at _ _ _ _ 0 112); [apply (bool_decide_unpack _); by vm_compute..|done|apply Hok].
  - intros r Hr. by apply loaded_other.
  - change (f2 ra = ld64 (m_mem s) new). rewrite (Hf2 ra 0) by (by left). by rewrite Z.add_0_r.
Qed.

(** C16: [swtch] is a coroutine switch.  The call that saves its registers in
    [old] goes on where the context [new] was saved, with the callee-saved
    registers of [new]; the next [swtch] into [old], from whatever thread, hart
    and stack, returns to the first caller with its callee-saved registers, if
    the saved context is as it was left. *)
Theorem swtch_resumes s lo n old new :
  window (m_mem s) (m_csr s satp) lo lo n → context_in lo n old → context_in lo n new →
  old + 112 <= new ∨ new + 112 <= old → m_reg s a0 = old → m_reg s a1 = new → regs_ok (m_reg s) →
  ∃ s', run swtch_code s = Some s' ∧ switched s s' old new ∧
    ∀ k from, window (m_mem k) (m_csr k satp) lo lo n → context_in lo n from →
      from + 112 <= old ∨ old + 112 <= from → m_reg k a0 = from → m_reg k a1 = old → regs_ok (m_reg k) →
      (∀ a, old <= a < old + 112 → ld8 (m_mem k) a = ld8 (m_mem s') a) →
      ∃ u, run swtch_code k = Some u ∧ m_pc u = m_reg s ra ∧
        ∀ r, r ∈ context_slots.*1 → m_reg u r = m_reg s r.
Proof.
  intros Hw Ho Hn Hd Ea0 Ea1 Hok.
  destruct (swtch_ok s lo n old new) as (s' & Hrun & Hs); try done.
  exists s'. split_and!; [done|done|]. intros k from Hwk Hf Hdk Eka0 Eka1 Hokk Hsame.
  destruct (swtch_ok k lo n from old) as (u & Hrunk & Hu); try done.
  assert (∀ r off, (r, off) ∈ context_slots → ld64 (m_mem k) (old + off) = m_reg s r) as Hv.
  { intros r off Hin. rewrite <- (sw_save _ _ _ _ Hs r off Hin). unfold ld64. f_equal. apply ldn_ext.
    intros a Ha. apply Hsame. apply context_slots_spec in Hin. lia. }
  exists u. split_and!; [done| |].
  - rewrite (sw_pc _ _ _ _ Hu), <- (Hv ra 0) by (by left). by rewrite Z.add_0_r.
  - intros r ([r' off] & -> & Hin)%list_elem_of_fmap. cbn [fst]. by rewrite (sw_load _ _ _ _ Hu r' off Hin), (Hv r' off).
Qed.

(** ** Traps in the kernel *)

Definition kernel_slots : slots :=
  [(ra, 0); (gp, 16); (tp, 24); (t0, 32); (t1, 40); (t2, 48); (a0, 72); (a1, 80); (a2, 88); (a3, 96);
   (a4, 104); (a5, 112); (a6, 120); (a7, 128); (t3, 216); (t4, 224); (t5, 232); (t6, 240)].
Definition callee_saved : list reg := [s0; s1; s2; s3; s4; s5; s6; s7; s8; s9; s10; s11].

(** What is restored: all but [tp]. *)
Definition restored_slots : slots := filter (λ '(r, _), r ≠ tp) kernel_slots.

Lemma kernel_slots_fit : fits 0 256 kernel_slots ∧ fits 0 256 restored_slots.
Proof. split; apply (bool_decide_unpack _); by vm_compute. Qed.

Lemma kernel_regs r : r ≠ tp → r = sp ∨ r ∈ callee_saved ∨ ∃ off, (r, off) ∈ restored_slots ∧ (r, off) ∈ kernel_slots.
Proof.
  intros Hr. destruct r; try done;
    first [by left | by right; left; repeat (left || right) | right; right; eexists; split; by repeat (left || right)].
Qed.

Lemma callee_kept r : r ∈ callee_saved → r ≠ sp ∧ r ∉ restored_slots.*1.
Proof.
  assert (Forall (λ r, r ≠ sp ∧ r ∉ restored_slots.*1) callee_saved) as H
    by (apply (bool_decide_unpack _); by vm_compute).
  rewrite Forall_forall in H. apply H.
Qed.

(** The state in which [kernelvec] calls [kerneltrap]: the frame is the 256 bytes
    at [pa], below the stack pointer. *)
Record interrupted (s s' : mach) (pa : Z) : Prop := {
  in_save : ∀ r off, (r, off) ∈ kernel_slots → ld64 (m_mem s') (pa + off) = m_reg s r;
  in_sp : m_reg s' sp = m_reg s sp - 256;
  in_keep : ∀ r, r ∈ callee_saved → m_reg s' r = m_reg s r;
  in_mem : ∀ a, ~ (pa <= a < pa + 256) → ld8 (m_mem s') a = ld8 (m_mem s) a;
  in_csr : m_csr s' = m_csr s;
}.

Lemma kernelvec_enter_ok s pa kerneltrap_addr link :
  256 <= m_reg s sp → window (m_mem s) (m_csr s satp) (m_reg s sp - 256) pa 256 → regs_ok (m_reg s) →
  ∃ s', run (kernelvec_enter kerneltrap_addr link) s = Some s' ∧ interrupted s s' pa ∧
    m_pc s' = kerneltrap_addr ∧ m_reg s' ra = link.
Proof.
  intros Hsp Hw Hok. pose proof (Hok sp) as Hsp2. change (2 ^ 64) with 18446744073709551616 in Hsp2.
  set (b := m_reg s sp - 256) in *.
  set (u1 := put s sp b). set (m2 := saved pa (m_reg u1) kernel_slots (m_mem s)).
  change (kernelvec_enter kerneltrap_addr link) with ([addi sp sp (-256)] ++
    ((λ '(r, off), sd r off sp) <$> kernel_slots) ++ [call kerneltrap_addr link]).
  assert (run [addi sp sp (-256)] s = Some u1) as R1.
  { cbn [run exec mbind option_bind]. by rewrite u64_small by lia. }
  assert (run ((λ '(r, off), sd r off sp) <$> kernel_slots) u1 = Some (u1 <| m_mem := m2 |>)) as R2.
  { rewrite (run_saves sp kernel_slots u1 b pa 0 256);
      [by rewrite Z.add_0_r|done|change (b = b + 0); lia|apply kernel_slots_fit]. }
  rewrite (run_app _ _ _ _ R1), (run_app _ _ _ _ R2). eexists. split; [reflexivity|].
  split_and!; [split|done|done].
  - intros r off Hin. change (ld64 m2 (pa + off) = m_reg s r). unfold m2.
    assert (m_reg u1 r = m_reg s r) as Er.
    { repeat (apply elem_of_cons in Hin as [[= -> ->]|Hin]; [done|]). by apply elem_of_nil in Hin. }
    rewrite (saved_at _ _ _ _ 0 256 r); [done|apply (bool_decide_unpack _); by vm_compute|
      apply kernel_slots_fit|done|rewrite Er; apply Hok].
  - done.
  - intros r Hr. repeat (apply elem_of_cons in Hr as [->|Hr]; [done|]). by apply elem_of_nil in Hr.
  - intros a Ha. change (ld8 m2 a = ld8 (m_mem s) a). unfold m2. rewrite <- (Z.add_0_r pa).
    eapply saved_outside; [apply kernel_slots_fit|done].
  - done.
Qed.

Lemma kernelvec_leave_ok k pa :
  window (m_mem k) (m_csr k satp) (m_reg k sp) pa 256 → 0 <= m_reg k sp → m_reg k sp + 256 < 2 ^ 64 →
  ∃ u, run kernelvec_leave k = Some u ∧ m_pc u = m_csr k sepc ∧ m_mem u = m_mem k ∧
    m_reg u sp = m_reg k sp + 256 ∧
    (∀ r off, (r, off) ∈ restored_slots → m_reg u r = ld64 (m_mem k) (pa + off)) ∧
    (∀ r, r ≠ sp → r ∉ restored_slots.*1 → m_reg u r = m_reg k r).
Proof.
  intros Hw H0 Hmax. change (2 ^ 64) with 18446744073709551616 in Hmax.
  set (f2 := loaded pa (m_mem k) restored_slots (m_reg k)).
  change kernelvec_leave with (((λ '(r, off), ld r off sp) <$> restored_slots) ++ [addi sp sp 256; sret]).
  assert (sp ∉ restored_slots.*1) as Hsp by (apply (bool_decide_unpack _); by vm_compute).
  assert (run ((λ '(r, off), ld r off sp) <$> restored_slots) k = Some (k <| m_reg := f2 |>)) as R3.
  { rewrite (run_loads sp restored_slots k (m_reg k sp) pa 0 256);
      [by rewrite Z.add_0_r|done|lia|apply kernel_slots_fit|done]. }
  rewrite (run_app _ _ _ _ R3). eexists. split; [reflexivity|]. split_and!; [done|done|..].
  - change (u64 (f2 sp + 256) = m_reg k sp + 256). unfold f2. rewrite loaded_other by done.
    by rewrite u64_small by lia.
  - intros r off Hin. assert (r ≠ sp) as Hr by (intros ->; apply Hsp, list_elem_of_fmap; by exists (sp, off)).
    change (upd f2 sp (u64 (f2 sp + 256)) r = ld64 (m_mem k) (pa + off)). rewrite upd_ne by done.
    apply loaded_at; [apply (bool_decide_unpack _); by vm_compute|done].
  - intros r Hr Hn. change (upd f2 sp (u64 (f2 sp + 256)) r = m_reg k r).
    rewrite upd_ne by done. by apply loaded_other.
Qed.

(** C21: [kernelvec] is transparent to the kernel code that a trap interrupts: its
    registers are saved below its stack pointer; when [kerneltrap] has returned,
    as a C function does, with [sp] and the callee-saved registers as they were
    and the frame unchanged, every register but [tp] (the hart may be another
    one) is back. *)
Theorem kernelvec_transparent s pa kerneltrap_addr link :
  256 <= m_reg s sp → window (m_mem s) (m_csr s satp) (m_reg s sp - 256) pa 256 → regs_ok (m_reg s) →
  ∃ s', run (kernelvec_enter kerneltrap_addr link) s = Some s' ∧ interrupted s s' pa ∧
    m_pc s' = kerneltrap_addr ∧ m_reg s' ra = link ∧
    ∀ k, window (m_mem k) (m_csr k satp) (m_reg k sp) pa 256 →
      m_reg k sp = m_reg s' sp → (∀ r, r ∈ callee_saved → m_reg k r = m_reg s' r) →
      (∀ a, pa <= a < pa + 256 → ld8 (m_mem k) a = ld8 (m_mem s') a) →
      ∃ u, run kernelvec_leave k = Some u ∧ m_pc u = m_csr k sepc ∧ m_mem u = m_mem k ∧
        m_reg u tp = m_reg k tp ∧ ∀ r, r ≠ tp → m_reg u r = m_reg s r.
Proof.
  intros Hsp Hw Hok.
  destruct (kernelvec_enter_ok s pa kerneltrap_addr link) as (s' & Hrun & [I1 I2 I3 I4 I5] & Hpc & Hra); try done.
  exists s'. split_and!; [done|by split|done|done|]. intros k Hwk Eks Hkc Hkm. pose proof (Hok sp) as Hsp2.
  destruct (kernelvec_leave_ok k pa) as (u & Hu & U1 & U2 & U3 & U4 & U5); [done|lia..|].
  exists u. split_and!; [done|done|done|apply U5; [done|apply (bool_decide_unpack _); by vm_compute]|].
  intros r Hr. destruct (kernel_regs r Hr) as [->|[Hc|(off & Hin & Hin')]]; [lia| |].
  - destruct (callee_kept r Hc) as [N1 N2]. rewrite U5, Hkc by done. by apply I3.
  - rewrite (U4 r off Hin), <- (I1 r off Hin'). unfold ld64. f_equal. apply ldn_ext. intros a Ha.
    apply Hkm. destruct kernel_slots_fit as [Hf _]. unfold fits in Hf. rewrite Forall_forall in Hf.
    specialize (Hf _ Hin'). simpl in Hf. lia.
Qed.

(** [entry.S]: each hart has its own page of [stack0]. *)
Lemma entry_stack s stack0 start_addr link :
  0 <= m_csr s mhartid < 8 → 0 <= stack0 < PHYSTOP →
  ∃ s', run (entry_code stack0 start_addr link) s = Some s' ∧ m_pc s' = start_addr ∧
    m_reg s' sp = stack0 + (m_csr s mhartid + 1) * 4096.
Proof.
  intros Hh Hs. change PHYSTOP with 2281701376 in Hs. eexists. split; [reflexivity|]. split; [done|].
  change (u64 (stack0 + u64 (4096 * u64 (m_csr s mhartid + 1))) = stack0 + (m_csr s mhartid + 1) * 4096).
  rewrite (u64_small (m_csr s mhartid + 1)), (u64_small (4096 * _)), u64_small by lia. lia.
Qed.

(** ** Concrete machines *)

#[local] Existing Instance layout0.

(** A process table slot with a trap frame, and six free pages. *)
Definition trap_kernel : kstate :=
  toy <| k_mem := foldr (λ k m, st64 m (toy_page k) (toy_page (k + 1))) ∅ (seqZ 6 5) |>
      <| k_procs ::= <[0%nat := proc0 <| p_trapframe := toy_page 4 |>]> |>.
Definition trap_free : list Z := toy_page <$> seqZ 6 6.

(** A machine whose registers are their numbers. *)
Definition trap_mach (m : memory) (satp_ : Z) : mach :=
  mk_mach (λ r, match r with ra => 1 | sp => 4096 | a0 => 10 | a1 => 512 | _ => 17 end)
    (λ c, match c with satp => satp_ | _ => 0 end) m 0.

Lemma trap_regs_ok m x : regs_ok (m_reg (trap_mach m x)).
Proof. intros r. destruct r; split; by vm_compute. Qed.

Lemma trap_kmem : kmem_inv (k_mem trap_kernel) (k_freelist trap_kernel) trap_free.
Proof.
  split.
  - change (mem_ok (foldr (λ k m, st64 m (toy_page k) (toy_page (k + 1))) ∅ [6; 7; 8; 9; 10])).
    cbn [foldr]. repeat apply st64_ok. apply map_Forall_empty.
  - by vm_compute.
  - repeat constructor; vm_compute; (discriminate || done).
  - apply (bool_decide_unpack _). by vm_compute.
Qed.

(** The page table is the one that [proc_pagetable] builds. *)
Lemma trap_roundtrip_witness :
  ∃ m T root s', user_table m T root (toy_page 4) ∧
    run uservec_code (trap_mach m (MAKE_SATP root)) = Some s' ∧
    entered (trap_mach m (MAKE_SATP root)) s' (toy_page 4) ∧
    ∀ k T', user_table (m_mem k) T' root (toy_page 4) → m_reg k a0 = MAKE_SATP root →
      (∀ a, toy_page 4 + 40 <= a < toy_page 4 + 288 → ld8 (m_mem k) a = ld8 (m_mem s') a) →
      ∃ u, run userret_code k = Some u ∧ (∀ r, m_reg u r = m_reg (trap_mach m (MAKE_SATP root)) r) ∧
        m_csr u satp = m_csr (trap_mach m (MAKE_SATP root)) satp ∧ m_mem u = m_mem k ∧ m_pc u = m_csr k sepc.
Proof.
  assert (p_trapframe (proc_at trap_kernel 0) = toy_page 4) as Etf by (vm_compute; reflexivity).
  assert (k_x trap_kernel = k_x toy) as Ex by (vm_compute; reflexivity).
  assert (page_ok (toy_page 4)) as Hp4 by (apply toy_page_ok; lia).
  destruct (proc_pagetable_ok trap_kernel trap_free 0 0 [])
    as (r & m' & h' & T' & fl' & Hrun & Hs & Hr);
    [rewrite Ex; exact toy_ready|exact trap_kmem|by vm_compute|rewrite Etf; exact Hp4|]. rewrite Etf in Hr.
  assert (match proc_pagetable 0 trap_kernel [] with Ok r _ _ => Some (r =? 0) | _ => None end = Some false) as H
    by (vm_compute; reflexivity).
  rewrite Hrun in H. destruct Hr as [[-> _]|(Hp & Hroot & Hh)]; [discriminate H|]. clear H.
  assert (user_table m' T' r (toy_page 4)) as Hu.
  { eapply proc_user_table; [exact Hs|exact Hroot|exact Hh|exact Hp4|].
    apply (bool_decide_unpack _). by vm_compute. }
  destruct (trap_roundtrip (trap_mach m' (MAKE_SATP r)) T' r (toy_page 4) Hu eq_refl (trap_regs_ok _ _))
    as (s' & H1 & H2 & H3).
  exists m', T', r, s'. exact (conj Hu (conj H1 (conj H2 H3))).
Defined.

(** Before paging is on, every address is its own. *)
Lemma window_bare m lo n : 0 <= lo → lo + n <= 2 ^ 64 → window m 0 lo lo n.
Proof. intros H1 H2. split_and!; [done|done|]. by intros m' _ acc off Hoff _. Qed.

Lemma swtch_resumes_witness :
  let s := trap_mach ∅ 0 in
  ∃ s', run swtch_code (put s a0 256) = Some s' ∧ switched (put s a0 256) s' 256 512 ∧
    ∀ k from, window (m_mem k) (m_csr k satp) 0 0 4096 → context_in 0 4096 from →
      from + 112 <= 256 ∨ 256 + 112 <= from → m_reg k a0 = from → m_reg k a1 = 256 → regs_ok (m_reg k) →
      (∀ a, 256 <= a < 256 + 112 → ld8 (m_mem k) a = ld8 (m_mem s') a) →
      ∃ u, run swtch_code k = Some u ∧ m_pc u = m_reg (put s a0 256) ra ∧
        ∀ r, r ∈ context_slots.*1 → m_reg u r = m_reg (put s a0 256) r.
Proof.
  intros s. apply swtch_resumes; [by apply window_bare|done|done|by left|done|done|].
  intros r. destruct r; split; by vm_compute.
Defined.

Lemma kernelvec_transparent_witness :
  let s := trap_mach ∅ 0 in
  ∃ s', run (kernelvec_enter 77 88) s = Some s' ∧ interrupted s s' 3840 ∧ m_pc s' = 77 ∧ m_reg s' ra = 88 ∧
    ∀ k, window (m_mem k) (m_csr k satp) (m_reg k sp) 3840 256 →
      m_reg k sp = m_reg s' sp → (∀ r, r ∈ callee_saved → m_reg k r = m_reg s' r) →
      (∀ a, 3840 <= a < 3840 + 256 → ld8 (m_mem k) a = ld8 (m_mem s') a) →
      ∃ u, run kernelvec_leave k = Some u ∧ m_pc u = m_csr k sepc ∧ m_mem u = m_mem k ∧
        m_reg u tp = m_reg k tp ∧ ∀ r, r ≠ tp → m_reg u r = m_reg s r.
Proof.
  intros s. apply kernelvec_transparent; [by vm_compute|by apply window_bare|apply trap_regs_ok].
Defined.

End Asm.
