(* ===== verification/Exec.v ===== *)
(** Program loading: kernel/exec.c with the formats of kernel/elf.h. *)

From S2P Require Export Proc.

Definition ELF_MAGIC : Z := 1179403647.
Definition ELF_PROG_LOAD : Z := 1.
Definition sizeof_elfhdr : Z := 64.
Definition sizeof_proghdr : Z := 56.

Definition get64 (l : list Z) (off : nat) : Z := le_val (take 8 (drop off l)).

(** struct elfhdr, the fields exec reads *)
Definition elf_magic (bs : list Z) : Z := get32 bs 0.
Definition elf_entry (bs : list Z) : Z := get64 bs 24.
Definition elf_phoff (bs : list Z) : Z := get64 bs 32.
Definition elf_phnum (bs : list Z) : Z := get16 bs 56.

(** struct proghdr *)
Record proghdr := mk_proghdr {
  ph_type : Z;
  ph_flags : Z;
  ph_off : Z;
  ph_vaddr : Z;
  ph_paddr : Z;
  ph_filesz : Z;
  ph_memsz : Z;
  ph_align : Z;
}.
Definition get_proghdr (bs : list Z) : proghdr :=
  mk_proghdr (get32 bs 0) (get32 bs 4) (get64 bs 8) (get64 bs 16) (get64 bs 24)
    (get64 bs 32) (get64 bs 40) (get64 bs 48).

Definition flags2perm (flags : Z) : Z :=
  let perm := if negb (Z.land flags 1 =? 0) then PTE_X else 0 in
  if negb (Z.land flags 2 =? 0) then Z.lor perm PTE_W else perm.

(** The program name: what follows the last slash. *)
Fixpoint last_elem (s last : list Z) : list Z :=
  match s with
  | [] => last
  | c :: s' => if c =? 0 then last else last_elem s' (if c =? 47 then s' else last)
  end.

Section exec.
Context `{L : Layout}.

(** [i] and [sz] are uints, [va] a uint64. *)
Definition loadseg (pagetable va : Z) (ip : nat) (offset sz : Z) : K Z :=
  loop (S (S (Z.to_nat (sz / PGSIZE)))) (λ i,
    if sz <=? i then mret (inr 0) else
    pa ← walkaddr pagetable (u64 (va + i));
    if pa =? 0 then panic "loadseg: address should exist" else
    let n := if sz - i <? PGSIZE then sz - i else PGSIZE in
    r ← readi ip false pa (u32 (offset + i)) n;
    if negb (r =? n) then mret (inr (-1)) else
    mret (inl (u32 (i + PGSIZE)))) 0.

(** Offsets of the locals [elf] and [ph] in the stack page. *)
Definition KS_exec_elf : Z := 64.
Definition KS_exec_ph : Z := 128.

(** [bad:] with the values of [pagetable], [sz] and [ip] there. *)
Definition exec_bad (pagetable sz : Z) (ip : option nat) : K Z :=
  when (negb (pagetable =? 0)) (proc_freepagetable pagetable sz);;
  match ip with
  | Some ip => iunlockput ip;; end_op
  | None => mret ()
  end;;
  mret (-1).

(** Reading [n] bytes of [ip] at [off] into a local; [None] when short. *)
Definition read_local (ip : nat) (ks off n : Z) : K (option (list Z)) :=
  a ← kstack_var ks;
  r ← readi ip false a off n;
  if negb (r =? n) then mret None else
  bs ← gets (λ s, ldn (k_mem s) a (Z.to_nat n));
  mret (Some bs).

(** The loop over the program headers, from header [i] at [off]: the size of
    the image, and whether it was loaded. *)
Fixpoint load_segments (pagetable : Z) (ip : nat) (n : nat) (off sz : Z) : K (Z * bool) :=
  match n with
  | O => mret (sz, true)
  | S n' =>
      r ← read_local ip KS_exec_ph (u32 off) sizeof_proghdr;
      match r with
      | None => mret (sz, false)
      | Some bs =>
          let ph := get_proghdr bs in
          let off' := i32 (off + sizeof_proghdr) in
          if negb (ph_type ph =? ELF_PROG_LOAD) then
            load_segments pagetable ip n' off' sz
          else if ph_memsz ph <? ph_filesz ph then mret (sz, false)
          else if u64 (ph_vaddr ph + ph_memsz ph) <? ph_vaddr ph then mret (sz, false)
          else if negb (ph_vaddr ph mod PGSIZE =? 0) then mret (sz, false)
          else
            sz1 ← uvmalloc pagetable sz (u64 (ph_vaddr ph + ph_memsz ph))
                    (flags2perm (ph_flags ph));
            if sz1 =? 0 then mret (sz, false) else
            r ← loadseg pagetable (ph_vaddr ph) ip (u32 (ph_off ph)) (u32 (ph_filesz ph));
            if r <? 0 then mret (sz1, false) else
            load_segments pagetable ip n' off' sz1
      end
  end.

(** Pushing the argument strings: the stack pointer and [ustack] afterwards,
    [None] on [goto bad]. *)
Fixpoint push_args (pagetable stackbase : Z) (argv : list (list Z)) (sp : Z) (ustack : list Z)
    : K (option (Z * list Z)) :=
  match argv with
  | [] => mret (Some (sp, ustack))
  | a :: argv' =>
      if MAXARG <=? Z.of_nat (length ustack) then mret None else
      let sp := u64 (sp - (strlen a + 1)) in
      let sp := sp - sp mod 16 in
      if sp <? stackbase then mret None else
      r ← copyout pagetable sp (cstr a ++ [0]);
      if r <? 0 then mret None else
      push_args pagetable stackbase argv' sp (ustack ++ [sp])
  end.

(** From the stack to the commit, for the image of size [sz] in [pagetable]. *)
Definition exec_finish (path : list Z) (argv : list (list Z)) (pagetable entry sz : Z) : K Z :=
  p ← curproc;
  pr ← get_proc p;
  let oldsz := p_sz pr in
  let sz := PGROUNDUP sz in
  sz1 ← uvmalloc pagetable sz (u64 (sz + (USERSTACK + 1) * PGSIZE)) PTE_W;
  if sz1 =? 0 then exec_bad pagetable sz None else
  let sz := sz1 in
  uvmclear pagetable (u64 (sz - (USERSTACK + 1) * PGSIZE));;
  let sp := sz in
  let stackbase := u64 (sp - USERSTACK * PGSIZE) in
  r ← push_args pagetable stackbase argv sp [];
  match r with
  | None => exec_bad pagetable sz None
  | Some (sp', ustack) =>
      let argc := Z.of_nat (length ustack) in
      let sp := u64 (sp' - (argc + 1) * 8) in
      let sp := sp - sp mod 16 in
      if sp <? stackbase then exec_bad pagetable sz None else
      r ← copyout pagetable sp (concat (le_bytes 8 <$> (ustack ++ [0])));
      if r <? 0 then exec_bad pagetable sz None else
      store64 (p_trapframe pr + TF_a1) sp;;
      upd_proc p (λ x, x <| p_name ::= λ n, safestrcpy n (last_elem path path) 16 |>);;
      let oldpagetable := p_pagetable pr in
      upd_proc p (λ x, x <| p_pagetable := pagetable |>);;
      upd_proc p (λ x, x <| p_sz := sz |>);;
      store64 (p_trapframe pr + TF_epc) entry;;
      store64 (p_trapframe pr + TF_sp) sp;;
      proc_freepagetable oldpagetable oldsz;;
      mret (i32 argc)
  end.

Definition kexec (path : list Z) (argv : list (list Z)) : K Z :=
  p ← curproc;
  begin_op;;
  r ← namei path;
  match r with
  | None => end_op;; mret (-1)
  | Some ip =>
      ilock (Some ip);;
      r ← read_local ip KS_exec_elf 0 sizeof_elfhdr;
      match r with
      | None => exec_bad 0 0 (Some ip)
      | Some elf =>
          if negb (elf_magic elf =? ELF_MAGIC) then exec_bad 0 0 (Some ip) else
          pagetable ← proc_pagetable p;
          if pagetable =? 0 then exec_bad 0 0 (Some ip) else
          '(sz, ok) ← load_segments pagetable ip (Z.to_nat (elf_phnum elf))
                        (i32 (elf_phoff elf)) 0;
          if negb ok then exec_bad pagetable sz (Some ip) else
          iunlockput ip;;
          end_op;;
          exec_finish path argv pagetable (elf_entry elf) sz
      end
  end.

End exec.
