(* ===== verification/Syscall.v ===== *)
(** System call arguments and the process system calls: kernel/syscall.c (the
    table itself is in Trap.v) and kernel/sysproc.c. *)

From S2P Require Export Exec.

Section syscall.
Context `{L : Layout}.

(** ** Fetching arguments *)

(** The word fetched; [None] is the return value -1. *)
Definition fetchaddr (addr : Z) : K (option Z) :=
  p ← curproc;
  pr ← get_proc p;
  if (p_sz pr <=? addr) || (p_sz pr <? u64 (addr + 8)) then mret None else
  '(bs, r) ← copyin (p_pagetable pr) addr 8;
  if negb (r =? 0) then mret None else mret (Some (le_val bs)).

(** The bytes stored in [buf] and the return value. *)
Definition fetchstr (addr max : Z) : K (list Z * Z) :=
  p ← curproc;
  pr ← get_proc p;
  '(buf, r) ← copyinstr (p_pagetable pr) addr max;
  if r <? 0 then mret (buf, -1) else mret (buf, strlen buf).

Definition argraw (n : Z) : K Z :=
  p ← curproc;
  pr ← get_proc p;
  let tf := p_trapframe pr in
  if n =? 0 then load64 (tf + TF_a0)
  else if n =? 1 then load64 (tf + TF_a1)
  else if n =? 2 then load64 (tf + TF_a2)
  else if n =? 3 then load64 (tf + TF_a3)
  else if n =? 4 then load64 (tf + TF_a4)
  else if n =? 5 then load64 (tf + TF_a5)
  else panic "argraw".

Definition argint (n : Z) : K Z := v ← argraw n; mret (i32 v).
Definition argaddr (n : Z) : K Z := argraw n.
Definition argstr (n max : Z) : K (list Z * Z) := addr ← argaddr n; fetchstr addr max.

(** ** sysproc.c *)

(** System calls return 64-bit values; an int is sign-extended. *)
Definition sys_exit : K Z :=
  n ← argint 0;
  kexit n;;
  mret 0.

Definition sys_getpid : K Z :=
  p ← curproc;
  pr ← get_proc p;
  mret (u64 (p_pid pr)).

Definition sys_fork : K Z := r ← kfork; mret (u64 r).

Definition sys_wait : K Z :=
  p ← argaddr 0;
  r ← kwait p;
  mret (u64 r).

Definition sys_sbrk : K Z :=
  n ← argint 0;
  t ← argint 1;
  p ← curproc;
  pr ← get_proc p;
  let addr := p_sz pr in
  if (t =? SBRK_EAGER) || (n <? 0) then
    r ← growproc n;
    if r <? 0 then mret (u64 (-1)) else mret addr
  else
    if u64 (addr + n) <? addr then mret (u64 (-1)) else
    if TRAPFRAME <? u64 (addr + n) then mret (u64 (-1)) else
    p ← curproc;
    upd_proc p (λ x, x <| p_sz ::= λ sz, u64 (sz + n) |>);;
    mret addr.

(** [ticks - ticks0 < n] compares uints. *)
Definition sys_pause : K Z :=
  n ← argint 0;
  let n := if n <? 0 then 0 else n in
  acquire Lticks;;
  ticks0 ← gets k_ticks;
  wait_loop (
    ticks ← gets k_ticks;
    if u32 (ticks - ticks0) <? n then
      p ← curproc;
      k ← killed p;
      if negb (k =? 0) then release Lticks;; mret (Some (u64 (-1))) else
      sleep ChTicks Lticks;; mret None
    else release Lticks;; mret (Some 0)).

Definition sys_kill : K Z :=
  pid ← argint 0;
  r ← kkill pid;
  mret (u64 r).

Definition sys_uptime : K Z :=
  acquire Lticks;;
  xticks ← gets k_ticks;
  release Lticks;;
  mret xticks.

End syscall.
