(* ===== verification/Sysfile.v ===== *)
(** File system calls: kernel/sysfile.c. *)

From S2P Require Export Syscall.

(** The return value -1 as a 64-bit value. *)
Definition minus1 : Z := u64 (-1).

Section sysfile.
Context `{L : Layout}.

(** The descriptor and the file; [None] is the return value -1. *)
Definition argfd (n : Z) : K (option (Z * nat)) :=
  fd ← argint n;
  if (fd <? 0) || (Z.of_nat NOFILE <=? fd) then mret None else
  p ← curproc;
  pr ← get_proc p;
  match p_ofile pr !!! Z.to_nat fd with
  | None => mret None
  | Some f => mret (Some (fd, f))
  end.

Definition fdalloc (f : nat) : K Z :=
  p ← curproc;
  r ← for_break NOFILE 0 (λ fd,
    pr ← get_proc p;
    match p_ofile pr !!! fd with
    | None =>
        upd_proc p (λ x, x <| p_ofile ::= <[fd := Some f]> |>);;
        mret (Some (Z.of_nat fd))
    | Some _ => mret None
    end);
  mret (default (-1) r).

Definition sys_dup : K Z :=
  r ← argfd 0;
  match r with
  | None => mret minus1
  | Some (_, f) =>
      fd ← fdalloc f;
      if fd <? 0 then mret minus1 else
      filedup f;;
      mret (u64 fd)
  end.

Definition sys_read : K Z :=
  p ← argaddr 1;
  n ← argint 2;
  r ← argfd 0;
  match r with
  | None => mret minus1
  | Some (_, f) => r ← fileread f p n; mret (u64 r)
  end.

Definition sys_write : K Z :=
  p ← argaddr 1;
  n ← argint 2;
  r ← argfd 0;
  match r with
  | None => mret minus1
  | Some (_, f) => r ← filewrite f p n; mret (u64 r)
  end.

Definition sys_close : K Z :=
  r ← argfd 0;
  match r with
  | None => mret minus1
  | Some (fd, f) =>
      p ← curproc;
      upd_proc p (λ x, x <| p_ofile ::= <[Z.to_nat fd := None]> |>);;
      fileclose f;;
      mret 0
  end.

Definition sys_fstat : K Z :=
  st ← argaddr 1;
  r ← argfd 0;
  match r with
  | None => mret minus1
  | Some (_, f) => r ← filestat f st; mret (u64 r)
  end.

(** [ip->nlink += d] for a short, then [iupdate(ip)] *)
Definition add_nlink (ip : nat) (d : Z) : K unit :=
  upd_inode ip (λ i, i <| i_nlink ::= λ n, i16 (n + d) |>);;
  iupdate ip.

(** [bad:] of [sys_link] *)
Definition sys_link_bad (ip : nat) : K Z :=
  ilock (Some ip);;
  add_nlink ip (-1);;
  iunlockput ip;;
  end_op;;
  mret minus1.

(** The initial contents of a local [name]. *)
Definition name0 : list Z := replicate (Z.to_nat DIRSIZ) 0.

Definition sys_link : K Z :=
  '(old, r) ← argstr 0 MAXPATH;
  if r <? 0 then mret minus1 else
  '(new, r) ← argstr 1 MAXPATH;
  if r <? 0 then mret minus1 else
  begin_op;;
  r ← namei old;
  match r with
  | None => end_op;; mret minus1
  | Some ip =>
      ilock (Some ip);;
      i ← get_inode ip;
      if i_type i =? T_DIR then iunlockput ip;; end_op;; mret minus1 else
      add_nlink ip 1;;
      iunlock (Some ip);;
      '(r, name) ← nameiparent new name0;
      match r with
      | None => sys_link_bad ip
      | Some dp =>
          ilock (Some dp);;
          d ← get_inode dp;
          i ← get_inode ip;
          failed ← (if negb (i_dev d =? i_dev i) then mret true
                    else r ← dirlink dp name (i_inum i); mret (r <? 0));
          if (failed : bool) then iunlockput dp;; sys_link_bad ip else
          iunlockput dp;;
          iput ip;;
          end_op;;
          mret 0
      end
  end.

(** Offsets of the locals [de] of [isdirempty] and [sys_unlink]. *)
Definition KS_isdirempty_de : Z := 192.
Definition KS_unlink_de : Z := 208.

Definition isdirempty (dp : nat) : K bool :=
  i ← get_inode dp;
  loop (S (S (Z.to_nat (i_size i / sizeof_dirent)))) (λ off,
    i ← get_inode dp;
    if i_size i <=? off then mret (inr true) else
    de ← kstack_var KS_isdirempty_de;
    r ← readi dp false de off sizeof_dirent;
    if negb (r =? sizeof_dirent) then panic "isdirempty: readi" else
    bs ← gets (λ s, ldn (k_mem s) de (Z.to_nat sizeof_dirent));
    if negb (de_inum bs =? 0) then mret (inr false) else
    mret (inl (u32 (off + sizeof_dirent)))) (2 * sizeof_dirent).

Definition sys_unlink : K Z :=
  '(path, r) ← argstr 0 MAXPATH;
  if r <? 0 then mret minus1 else
  begin_op;;
  '(r, name) ← nameiparent path name0;
  match r with
  | None => end_op;; mret minus1
  | Some dp =>
      ilock (Some dp);;
      let bad := iunlockput dp;; end_op;; mret minus1 in
      if (namecmp name (bytes_of ".") =? 0) || (namecmp name (bytes_of "..") =? 0)
      then bad else
      r ← dirlookup dp name;
      match r with
      | None => bad
      | Some (ip, off) =>
          ilock (Some ip);;
          i ← get_inode ip;
          if i_nlink i <? 1 then panic "unlink: nlink < 1" else
          empty ← (if i_type i =? T_DIR then isdirempty ip else mret true);
          if negb empty then iunlockput ip;; bad else
          de ← kstack_var KS_unlink_de;
          upd_mem (λ m, memset m de 0 sizeof_dirent);;
          r ← writei dp false de off sizeof_dirent;
          if negb (r =? sizeof_dirent) then panic "unlink: writei" else
          i ← get_inode ip;
          when (i_type i =? T_DIR) (add_nlink dp (-1));;
          iunlockput dp;;
          add_nlink ip (-1);;
          iunlockput ip;;
          end_op;;
          mret 0
      end
  end.

(** [fail:] of [create] *)
Definition create_fail (ip dp : nat) : K (option nat) :=
  upd_inode ip (λ i, i <| i_nlink := 0 |>);;
  iupdate ip;;
  iunlockput ip;;
  iunlockput dp;;
  mret None.

(** The inode is returned locked. *)
Definition create (path : list Z) (type major minor : Z) : K (option nat) :=
  '(r, name) ← nameiparent path name0;
  match r with
  | None => mret None
  | Some dp =>
      ilock (Some dp);;
      r ← dirlookup dp name;
      match r with
      | Some (ip, _) =>
          iunlockput dp;;
          ilock (Some ip);;
          i ← get_inode ip;
          if (type =? T_FILE) && ((i_type i =? T_FILE) || (i_type i =? T_DEVICE))
          then mret (Some ip)
          else iunlockput ip;; mret None
      | None =>
          d ← get_inode dp;
          r ← ialloc (i_dev d) type;
          match r with
          | None => iunlockput dp;; mret None
          | Some ip =>
              ilock (Some ip);;
              upd_inode ip (λ i, i <| i_major := major |> <| i_minor := minor |>
                                   <| i_nlink := 1 |>);;
              iupdate ip;;
              i ← get_inode ip;
              ok ← (
                if type =? T_DIR then
                  r ← dirlink ip (bytes_of ".") (i_inum i);
                  if r <? 0 then mret false else
                  r ← dirlink ip (bytes_of "..") (i_inum d);
                  mret (negb (r <? 0))
                else mret true);
              if negb ok then create_fail ip dp else
              r ← dirlink dp name (i_inum i);
              if r <? 0 then create_fail ip dp else
              when (type =? T_DIR) (add_nlink dp 1);;
              iunlockput dp;;
              mret (Some ip)
          end
      end
  end.

(** The inode [sys_open] opens, locked; [None] when it fails, with the
    transaction ended. *)
Definition open_inode (path : list Z) (omode : Z) : K (option nat) :=
  if negb (Z.land omode O_CREATE =? 0) then
    r ← create path T_FILE 0 0;
    match r with
    | None => end_op;; mret None
    | Some ip => mret (Some ip)
    end
  else
    r ← namei path;
    match r with
    | None => end_op;; mret None
    | Some ip =>
        ilock (Some ip);;
        i ← get_inode ip;
        if (i_type i =? T_DIR) && negb (omode =? O_RDONLY) then
          iunlockput ip;; end_op;; mret None
        else mret (Some ip)
    end.

Definition sys_open : K Z :=
  omode ← argint 1;
  '(path, n) ← argstr 0 MAXPATH;
  if n <? 0 then mret minus1 else
  begin_op;;
  r ← open_inode path omode;
  match r with
  | None => mret minus1
  | Some ip =>
      i ← get_inode ip;
      let bad := iunlockput ip;; end_op;; mret minus1 in
      if (i_type i =? T_DEVICE) && ((i_major i <? 0) || (NDEV <=? i_major i)) then bad else
      r ← filealloc;
      match r with
      | None => bad
      | Some f =>
          fd ← fdalloc f;
          if fd <? 0 then fileclose f;; bad else
          (if i_type i =? T_DEVICE then
             upd_file f (λ x, x <| f_type := FD_DEVICE |> <| f_major := i_major i |>)
           else upd_file f (λ x, x <| f_type := FD_INODE |> <| f_off := 0 |>));;
          upd_file f (λ x, x
            <| f_ip := Some ip |>
            <| f_readable := b2z (Z.land omode O_WRONLY =? 0) |>
            <| f_writable := b2z (negb (Z.land omode O_WRONLY =? 0)
                                  || negb (Z.land omode O_RDWR =? 0)) |>);;
          when (negb (Z.land omode O_TRUNC =? 0) && (i_type i =? T_FILE)) (itrunc ip);;
          iunlock (Some ip);;
          end_op;;
          mret (u64 fd)
      end
  end.

(** [create] for a path argument, then the common end of [sys_mkdir] and
    [sys_mknod]. *)
Definition make_node (type major minor : Z) : K Z :=
  '(path, r) ← argstr 0 MAXPATH;
  if r <? 0 then end_op;; mret minus1 else
  r ← create path type major minor;
  match r with
  | None => end_op;; mret minus1
  | Some ip => iunlockput ip;; end_op;; mret 0
  end.

Definition sys_mkdir : K Z :=
  begin_op;;
  make_node T_DIR 0 0.

Definition sys_mknod : K Z :=
  begin_op;;
  major ← argint 1;
  minor ← argint 2;
  make_node T_DEVICE (i16 major) (i16 minor).

Definition sys_chdir : K Z :=
  p ← curproc;
  begin_op;;
  '(path, r) ← argstr 0 MAXPATH;
  if r <? 0 then end_op;; mret minus1 else
  r ← namei path;
  match r with
  | None => end_op;; mret minus1
  | Some ip =>
      ilock (Some ip);;
      i ← get_inode ip;
      if negb (i_type i =? T_DIR) then iunlockput ip;; end_op;; mret minus1 else
      iunlock (Some ip);;
      pr ← get_proc p;
      match p_cwd pr with Some c => iput c | None => panic "kerneltrap" end;;
      end_op;;
      upd_proc p (λ x, x <| p_cwd := Some ip |>);;
      mret 0
  end.

(** [for(i = 0; i < NELEM(argv) && argv[i] != 0; i++) kfree(argv[i])] *)
Fixpoint free_args (argv : list Z) : K unit :=
  match argv with
  | [] => mret ()
  | a :: argv' => kfree a;; free_args argv'
  end.

(** The loop that fetches the arguments, from index [length argv]; [n] more
    entries fit.  The pages allocated, and whether all was fetched. *)
Fixpoint fetch_args (uargv : Z) (n : nat) (argv : list Z) : K (list Z * bool) :=
  match n with
  | O => mret (argv, false)
  | S n' =>
      r ← fetchaddr (u64 (uargv + 8 * Z.of_nat (length argv)));
      match r with
      | None => mret (argv, false)
      | Some uarg =>
          if uarg =? 0 then mret (argv, true) else
          a ← kalloc;
          if a =? 0 then mret (argv, false) else
          '(bs, r) ← fetchstr uarg PGSIZE;
          upd_mem (λ m, stn m a bs);;
          if r <? 0 then mret (argv ++ [a], false) else
          fetch_args uargv n' (argv ++ [a])
      end
  end.

Definition sys_exec : K Z :=
  uargv ← argaddr 1;
  '(path, r) ← argstr 0 MAXPATH;
  if r <? 0 then mret minus1 else
  '(argv, ok) ← fetch_args uargv (Z.to_nat MAXARG) [];
  if negb ok then free_args argv;; mret minus1 else
  strs ← gets (λ s, (λ a, ldn (k_mem s) a (Z.to_nat PGSIZE)) <$> argv);
  ret ← kexec path strs;
  free_args argv;;
  mret (u64 ret).

Definition sys_pipe : K Z :=
  p ← curproc;
  fdarray ← argaddr 0;
  r ← pipealloc;
  match r with
  | None => mret minus1
  | Some (rf, wf) =>
      let drop (fd : Z) := upd_proc p (λ x, x <| p_ofile ::= <[Z.to_nat fd := None]> |>) in
      let bad := fileclose rf;; fileclose wf;; mret minus1 in
      fd0 ← fdalloc rf;
      if fd0 <? 0 then bad else
      fd1 ← fdalloc wf;
      if fd1 <? 0 then drop fd0;; bad else
      pr ← get_proc p;
      r ← copyout (p_pagetable pr) fdarray (le_bytes 4 fd0);
      failed ← (if r <? 0 then mret true
                else r ← copyout (p_pagetable pr) (u64 (fdarray + 4)) (le_bytes 4 fd1);
                     mret (r <? 0));
      if (failed : bool) then drop fd0;; drop fd1;; bad else
      mret 0
  end.

End sysfile.
