(* ===== verification/Trap.v ===== *)
(** Traps, interrupts and start-up: the system call table of kernel/syscall.c,
    kernel/trap.c, kernel/plic.c, [forkret] of kernel/proc.c, kernel/start.c and
    kernel/main.c. *)

From S2P Require Export Sysfile.

Section trap.
Context `{L : Layout}.

(** ** System call dispatch *)

Definition syscalls (num : Z) : option (K Z) :=
  if num =? 1 then Some sys_fork
  else if num =? 2 then Some sys_exit
  else if num =? 3 then Some sys_wait
  else if num =? 4 then Some sys_pipe
  else if num =? 5 then Some sys_read
  else if num =? 6 then Some sys_kill
  else if num =? 7 then Some sys_exec
  else if num =? 8 then Some sys_fstat
  else if num =? 9 then Some sys_chdir
  else if num =? 10 then Some sys_dup
  else if num =? 11 then Some sys_getpid
  else if num =? 12 then Some sys_sbrk
  else if num =? 13 then Some sys_pause
  else if num =? 14 then Some sys_uptime
  else if num =? 15 then Some sys_open
  else if num =? 16 then Some sys_write
  else if num =? 17 then Some sys_mknod
  else if num =? 18 then Some sys_unlink
  else if num =? 19 then Some sys_link
  else if num =? 20 then Some sys_mkdir
  else if num =? 21 then Some sys_close
  else None.

Definition syscall : K unit :=
  p ← curproc;
  pr ← get_proc p;
  a7 ← load64 (p_trapframe pr + TF_a7);
  let num := i32 a7 in
  match syscalls num with
  | Some f =>
      r ← f;
      pr ← get_proc p;
      store64 (p_trapframe pr + TF_a0) r
  | None =>
      printf ("%d %s: unknown sys call %d" +:+ nl)
        [VWord (p_pid pr); VStr (p_name pr); VWord num];;
      store64 (p_trapframe pr + TF_a0) minus1
  end.

(** ** The interrupt controller *)

Definition plic_write (a v : Z) : K unit :=
  modify (λ s, s <| k_plic ::= λ p, p <| pl_writes ::= λ l, l ++ [(a, u32 v)] |> |>).

Definition plicinit : K unit :=
  plic_write (PLIC + UART0_IRQ * 4) 1;;
  plic_write (PLIC + VIRTIO0_IRQ * 4) 1.

Definition plicinithart : K unit :=
  hart ← cpuid;
  plic_write (PLIC_SENABLE hart) (Z.lor (Z.shiftl 1 UART0_IRQ) (Z.shiftl 1 VIRTIO0_IRQ));;
  plic_write (PLIC_SPRIORITY hart) 0.

(** Reading the claim register hands out a pending request, 0 if there is none. *)
Definition plic_claim : K Z :=
  hart ← cpuid;
  p ← gets k_plic;
  modify (λ s, s <| k_plic ::= λ p, p <| pl_pending ::= @tl Z |> |>);;
  mret (hd 0 (pl_pending p)).

Definition plic_complete (irq : Z) : K unit :=
  hart ← cpuid;
  plic_write (PLIC_SCLAIM hart) irq.

(** ** Device interrupts *)

Definition clockintr : K unit :=
  id ← cpuid;
  when (id =? 0) (
    acquire Lticks;;
    modify (λ s, s <| k_ticks ::= λ t, u32 (t + 1) |>);;
    wakeup ChTicks;;
    release Lticks);;
  t ← r_time;
  w_stimecmp (u64 (t + 1000000)).

Definition devintr : K Z :=
  scause ← r_scause;
  if scause =? 9223372036854775817 then
    irq ← plic_claim;
    (if irq =? UART0_IRQ then uartintr
     else if irq =? VIRTIO0_IRQ then virtio_disk_intr
     else when (negb (irq =? 0)) (
       printf ("unexpected interrupt irq=%d" +:+ nl) [VWord irq];; mret ()));;
    when (negb (irq =? 0)) (plic_complete irq);;
    mret 1
  else if scause =? 9223372036854775813 then
    clockintr;;
    mret 2
  else mret 0.

(** ** Traps *)

Definition trapinit : K unit := initlock Lticks "time".
Definition trapinithart : K unit := w_stvec kernelvec.

Definition prepare_return : K unit :=
  p ← curproc;
  intr_off;;
  w_stvec (u64 (TRAMPOLINE + (uservec - trampoline)));;
  pr ← get_proc p;
  let tf := p_trapframe pr in
  ksatp ← r_satp;
  store64 (tf + TF_kernel_satp) ksatp;;
  store64 (tf + TF_kernel_sp) (p_kstack pr + PGSIZE);;
  store64 (tf + TF_kernel_trap) usertrap_addr;;
  hart ← r_tp;
  store64 (tf + TF_kernel_hartid) hart;;
  x ← r_sstatus;
  w_sstatus (Z.lor (Z.land x (Z.lnot SSTATUS_SPP)) SSTATUS_SPIE);;
  epc ← load64 (tf + TF_epc);
  w_sepc epc.

(** A page fault on a lazily allocated page, handled. *)
Definition lazy_fault (p : nat) : K bool :=
  cause ← r_scause;
  if (cause =? 15) || (cause =? 13) then
    pr ← get_proc p;
    va ← r_stval;
    r ← vmfault (p_pagetable pr) va (cause =? 13);
    mret (negb (r =? 0))
  else mret false.

Definition usertrap : K Z :=
  st ← r_sstatus;
  if negb (Z.land st SSTATUS_SPP =? 0) then panic "usertrap: not from user mode" else
  w_stvec kernelvec;;
  p ← curproc;
  pr ← get_proc p;
  epc ← r_sepc;
  store64 (p_trapframe pr + TF_epc) epc;;
  cause ← r_scause;
  which_dev ← (
    if cause =? 8 then
      k ← killed p;
      when (negb (k =? 0)) (kexit (-1));;
      store64 (p_trapframe pr + TF_epc) (u64 (epc + 4));;
      intr_on;;
      syscall;;
      mret 0
    else
      dev ← devintr;
      if negb (dev =? 0) then mret dev else
      ok ← lazy_fault p;
      if (ok : bool) then mret 0 else
      cause ← r_scause;
      printf ("usertrap(): unexpected scause 0x%lx pid=%d" +:+ nl)
        [VWord cause; VWord (p_pid pr)];;
      epc ← r_sepc;
      va ← r_stval;
      printf ("            sepc=0x%lx stval=0x%lx" +:+ nl) [VWord epc; VWord va];;
      setkilled p;;
      mret 0);
  k ← killed p;
  when (negb (k =? 0)) (kexit (-1));;
  when (which_dev =? 2) yield;;
  prepare_return;;
  pr ← get_proc p;
  mret (MAKE_SATP (p_pagetable pr)).

Definition kerneltrap : K unit :=
  epc ← r_sepc;
  st ← r_sstatus;
  cause ← r_scause;
  if Z.land st SSTATUS_SPP =? 0 then panic "kerneltrap: not from supervisor mode" else
  i ← intr_get;
  if (i : bool) then panic "kerneltrap: interrupts enabled" else
  which_dev ← devintr;
  if which_dev =? 0 then
    epc ← r_sepc;
    va ← r_stval;
    printf ("scause=0x%lx sepc=0x%lx stval=0x%lx" +:+ nl) [VWord cause; VWord epc; VWord va];;
    panic "kerneltrap"
  else
  (if which_dev =? 2 then
     p ← myproc;
     match p with Some _ => yield | None => mret () end
   else mret ());;
  w_sepc epc;;
  w_sstatus st.

(** A process's first return to user space; the result is the page table that
    [userret] switches to. *)
Definition forkret : K Z :=
  p ← curproc;
  release (Lproc p);;
  first ← gets k_first;
  when (negb (first =? 0)) (
    fsinit ROOTDEV;;
    modify (λ s, s <| k_first := 0 |>);;
    r ← kexec (bytes_of "/init") [bytes_of "/init"];
    pr ← get_proc p;
    store64 (p_trapframe pr + TF_a0) (u64 r);;
    a0 ← load64 (p_trapframe pr + TF_a0);
    if a0 =? minus1 then panic "exec" else mret ());;
  prepare_return;;
  pr ← get_proc p;
  mret (MAKE_SATP (p_pagetable pr)).

(** ** Start-up *)

Definition timerinit : K unit :=
  x ← r_mie;
  w_mie (Z.lor x MIE_STIE);;
  x ← r_menvcfg;
  w_menvcfg (Z.lor x (Z.shiftl 1 63));;
  x ← r_mcounteren;
  w_mcounteren (Z.lor x 2);;
  t ← r_time;
  w_stimecmp (u64 (t + 1000000)).

(** The final [mret] jumps to [mepc] in the mode [mstatus] says. *)
Definition start : K unit :=
  x ← r_mstatus;
  w_mstatus (Z.lor (Z.land x (Z.lnot MSTATUS_MPP_MASK)) MSTATUS_MPP_S);;
  w_mepc main_addr;;
  w_satp 0;;
  w_medeleg 65535;;
  w_mideleg 65535;;
  x ← r_sie;
  w_sie (Z.lor (Z.lor x SIE_SEIE) SIE_STIE);;
  w_pmpaddr0 18014398509481983;;
  w_pmpcfg0 15;;
  timerinit;;
  id ← r_mhartid;
  w_tp (i32 id).

(** [main] up to its call of [scheduler], which [rounds] bounds. *)
Definition main (rounds : nat) : K unit :=
  id ← cpuid;
  (if id =? 0 then
     consoleinit;;
     printfinit;;
     printf nl [];;
     printf ("xv6 kernel is booting" +:+ nl) [];;
     printf nl [];;
     kinit;;
     kvminit;;
     kvminithart;;
     procinit;;
     trapinit;;
     trapinithart;;
     plicinit;;
     plicinithart;;
     binit;;
     iinit;;
     fileinit;;
     virtio_disk_init;;
     userinit;;
     modify (λ s, s <| k_started := 1 |>)
   else
     wait_loop (
       st ← gets k_started;
       if st =? 0 then interfere;; mret None else mret (Some ()));;
     id ← cpuid;
     printf ("hart %d starting" +:+ nl) [VWord id];;
     kvminithart;;
     trapinithart;;
     plicinithart);;
  scheduler rounds.

End trap.
