(* ===== verification/User.v ===== *)
(** User processes and their system calls: the stubs that user/usys.pl generates,
    declared in user/user.h.

    A user program runs in the monad of Monad.v on the memory of its process.  A
    stub records the call, with the strings and buffers that the kernel reads
    from the process, and waits: the next element of the environment is the
    kernel's answer, which may change the process's memory and sets the return
    value.  [exit] never returns.  The trace lists the calls that have returned,
    the last one last. *)

From S2P Require Export Monad Machine CString.

Inductive call :=
| CFork
| CExit (status : Z)
| CWait (addr : Z)
| CPipe (addr : Z)
| CRead (fd addr n : Z)
| CWrite (fd : Z) (bs : list Z)
| CClose (fd : Z)
| CKill (pid : Z)
| CExec (path : list Z) (argv : list (list Z))
| COpen (path : list Z) (mode : Z)
| CMknod (path : list Z) (major minor : Z)
| CUnlink (path : list Z)
| CFstat (fd addr : Z)
| CLink (old new : list Z)
| CMkdir (path : list Z)
| CChdir (path : list Z)
| CDup (fd : Z)
| CGetpid
| CSbrk (n how : Z)
| CPause (n : Z)
| CUptime.

Record ustate := mk_ustate {
  us_mem : memory;
  us_call : call;               (** the call that waits for its answer *)
  us_ret : Z;                   (** the register a0 *)
  us_trace : list (call * Z);
}.
#[global] Instance eta_ustate : Eta ustate := λ s, mk_ustate (us_mem s) (us_call s) (us_ret s) (us_trace s).

Abbreviation U := (M ustate).

(** ** Memory of the process *)

Definition uld8 (a : Z) : U Z := gets (λ s, ld8 (us_mem s) a).
Definition uld32 (a : Z) : U Z := gets (λ s, ld32 (us_mem s) a).
Definition uld64 (a : Z) : U Z := gets (λ s, ld64 (us_mem s) a).
Definition upd_mem (f : memory → memory) : U unit := modify (λ s, s <| us_mem ::= f |>).
Definition ust8 (a v : Z) : U unit := upd_mem (λ m, st8 m a v).
Definition ust32 (a v : Z) : U unit := upd_mem (λ m, st32 m a v).
Definition ust64 (a v : Z) : U unit := upd_mem (λ m, st64 m a v).

(** More than any C string in [m] has: of [S (size m)] addresses one was never
    written and holds a NUL. *)
Definition str_fuel (m : memory) : nat := S (size m).

(** The C string at [a]. *)
Fixpoint cstring_loop (fuel : nat) (m : memory) (a : Z) : list Z :=
  match fuel with
  | O => []
  | S fuel' => if ld8 m a =? 0 then [] else ld8 m a :: cstring_loop fuel' m (a + 1)
  end.
Definition cstring (m : memory) (a : Z) : list Z := cstring_loop (str_fuel m) m a.

(** The strings of an argument vector, up to the null pointer. *)
Fixpoint argv_strings (n : nat) (m : memory) (a : Z) : list (list Z) :=
  match n with
  | O => []
  | S n' => if ld64 m a =? 0 then [] else cstring m (ld64 m a) :: argv_strings n' m (a + 8)
  end.

(** ** The stubs *)

Definition ecall (c : call) : U Z :=
  modify (λ s, s <| us_call := c |>);;
  interfere;;
  r ← gets us_ret;
  modify (λ s, s <| us_trace ::= λ t, t ++ [(c, r)] |>);;
  mret r.

(** A stub declared to return [int]. *)
Definition ecall_int (c : call) : U Z := r ← ecall c; mret (i32 r).

Definition on_mem (f : memory → call) : U Z := m ← gets us_mem; ecall_int (f m).

Definition fork : U Z := ecall_int CFork.
Definition exit {A} (status : Z) : U A := modify (λ s, s <| us_call := CExit status |>);; stuck.
Definition wait (addr : Z) : U Z := ecall_int (CWait addr).
Definition pipe (p : Z) : U Z := ecall_int (CPipe p).
Definition read (fd addr n : Z) : U Z := ecall_int (CRead fd addr n).
Definition write (fd addr n : Z) : U Z := on_mem (λ m, CWrite fd (ldn m addr (Z.to_nat n))).
Definition close (fd : Z) : U Z := ecall_int (CClose fd).
Definition kill (pid : Z) : U Z := ecall_int (CKill pid).
Definition exec (path argv : Z) : U Z :=
  on_mem (λ m, CExec (cstring m path) (argv_strings (Z.to_nat MAXARG) m argv)).
Definition open (path mode : Z) : U Z := on_mem (λ m, COpen (cstring m path) mode).
Definition mknod (path major minor : Z) : U Z := on_mem (λ m, CMknod (cstring m path) major minor).
Definition unlink (path : Z) : U Z := on_mem (λ m, CUnlink (cstring m path)).
Definition fstat (fd st : Z) : U Z := ecall_int (CFstat fd st).
Definition link (old new : Z) : U Z := on_mem (λ m, CLink (cstring m old) (cstring m new)).
Definition mkdir (path : Z) : U Z := on_mem (λ m, CMkdir (cstring m path)).
Definition chdir (path : Z) : U Z := on_mem (λ m, CChdir (cstring m path)).
Definition dup (fd : Z) : U Z := ecall_int (CDup fd).
Definition getpid : U Z := ecall_int CGetpid.
Definition sys_sbrk (n how : Z) : U Z := ecall (CSbrk n how).
Definition pause (n : Z) : U Z := ecall_int (CPause n).
Definition uptime : U Z := ecall_int CUptime.

(** Calls with a string literal: the linker's address of it is not modelled. *)
Definition write_lit (fd : Z) (lit : string) : U Z := ecall_int (CWrite fd (bytes_of lit)).
Definition open_lit (lit : string) (mode : Z) : U Z := ecall_int (COpen (bytes_of lit) mode).

(** ** C strings in memory *)

(** [bs] is the string at [a]. *)
Definition str_at (m : memory) (a : Z) (bs : list Z) : Prop :=
  ldn m a (length bs) = bs ∧ Forall (λ c, c ≠ 0) bs ∧ ld8 m (a + Z.of_nat (length bs)) = 0.

Lemma str_at_cons m a c bs :
  str_at m a (c :: bs) ↔ ld8 m a = c ∧ c ≠ 0 ∧ str_at m (a + 1) bs.
Proof.
  unfold str_at. cbn [length ldn]. rewrite Forall_cons.
  replace (a + Z.of_nat (S (length bs))) with (a + 1 + Z.of_nat (length bs)) by lia.
  split; [intros ([= H1 H2] & [H3 H4] & H5); by rewrite H1, H2|intros (-> & H & -> & H2 & H3); by auto].
Qed.

Lemma str_at_ext m m' a bs :
  str_at m a bs → (∀ x, a <= x <= a + Z.of_nat (length bs) → ld8 m' x = ld8 m x) → str_at m' a bs.
Proof.
  intros (H1 & H2 & H3) E. split; [|split; [done|]].
  - rewrite <- H1 at 2. apply ldn_ext. intros x Hx. apply E. lia.
  - rewrite E by lia. done.
Qed.

Lemma str_at_app m a l r : str_at m a (l ++ r) → str_at m (a + Z.of_nat (length l)) r.
Proof.
  revert a. induction l as [|c l IH]; intros a H; cbn [app length] in *; [by rewrite Z.add_0_r|].
  apply str_at_cons in H as (_ & _ & H). replace (a + Z.of_nat (S (length l))) with (a + 1 + Z.of_nat (length l)) by lia.
  by apply IH.
Qed.

Lemma str_at_prefix m a l r : str_at m a (l ++ r) → ldn m a (length l) = l ∧ Forall (λ c, c ≠ 0) l.
Proof.
  revert a. induction l as [|c l IH]; intros a H; cbn [app length ldn] in *; [done|].
  apply str_at_cons in H as (-> & Hc & H). destruct (IH _ H) as [-> F]. split; [done|by constructor].
Qed.

Lemma str_at_lookup m a bs i c : str_at m a bs → bs !! i = Some c → ld8 m (a + Z.of_nat i) = c ∧ c ≠ 0.
Proof.
  intros (H1 & H2 & _) Hi. split; [|by eapply Forall_lookup_1 in H2].
  rewrite <- H1 in Hi. rewrite lookup_ldn in Hi by (by apply lookup_lt_Some in Hi; rewrite length_ldn in Hi). by simplify_eq.
Qed.

(** Consecutive non-zero bytes are at addresses that were written. *)
Lemma nonzero_fuel m a n : (∀ i, (i < n)%nat → ld8 m (a + Z.of_nat i) ≠ 0) → (n <= size m)%nat.
Proof.
  intros H. rewrite <- size_dom.
  assert (size (list_to_set ((λ i, a + Z.of_nat i) <$> seq 0 n) : gset Z) = n) as <-.
  { rewrite size_list_to_set; [by rewrite length_fmap, length_seq|]. apply NoDup_fmap_2; [intros ???; lia|apply NoDup_seq]. }
  apply subseteq_size. intros x Hx. apply elem_of_list_to_set, list_elem_of_fmap in Hx as (i & -> & Hi).
  apply elem_of_seq in Hi. apply elem_of_dom. specialize (H i ltac:(lia)). unfold ld8 in H.
  destruct (m !! _); [by eexists|done].
Qed.

Lemma str_at_fuel m a bs : str_at m a bs → (length bs < str_fuel m)%nat.
Proof.
  intros (H1 & H2 & _). unfold str_fuel. apply Nat.lt_succ_r, (nonzero_fuel m a). intros i Hi.
  rewrite Forall_lookup in H2. apply (H2 i). rewrite <- H1. by apply lookup_ldn.
Qed.

Lemma cstring_loop_at fuel m a bs : str_at m a bs → (length bs < fuel)%nat → cstring_loop fuel m a = bs.
Proof.
  revert a bs. induction fuel as [|fuel IH]; intros a bs Hs Hf; [lia|]. cbn [cstring_loop]. destruct bs as [|c bs].
  - destruct Hs as (_ & _ & H). simpl in H. rewrite Z.add_0_r in H. by rewrite H.
  - apply str_at_cons in Hs as (-> & Hc & Hs). rewrite (proj2 (Z.eqb_neq _ _) Hc). f_equal. apply IH; [done|].
    simpl in Hf. lia.
Qed.

Lemma cstring_at m a bs : str_at m a bs → cstring m a = bs.
Proof. intros H. apply cstring_loop_at; [done|by eapply str_at_fuel]. Qed.

(** Every address holds a string. *)
Lemma str_at_cstring m a : str_at m a (cstring m a).
Proof.
  unfold cstring. assert (∀ fuel b, (∃ i, (i < fuel)%nat ∧ ld8 m (b + Z.of_nat i) = 0) →
    str_at m b (cstring_loop fuel m b)) as H.
  { induction fuel as [|fuel IH]; intros b (i & Hi & Hz); [lia|]. cbn [cstring_loop].
    destruct (Z.eqb_spec (ld8 m b) 0) as [E|N].
    - split; [done|]. split; [done|]. simpl. by rewrite Z.add_0_r.
    - apply str_at_cons. split; [done|]. split; [done|]. apply IH. destruct i as [|i].
      + by rewrite Z.add_0_r in Hz.
      + exists i. split; [lia|]. by replace (b + 1 + Z.of_nat i) with (b + Z.of_nat (S i)) by lia. }
  apply H. destruct (decide (Exists (λ i, ld8 m (a + Z.of_nat i) = 0) (seq 0 (str_fuel m)))) as [He|Hn].
  - apply Exists_exists in He as (i & Hi & Hz). apply elem_of_seq in Hi. exists i. split; [lia|done].
  - exfalso. assert (str_fuel m <= size m)%nat; [|unfold str_fuel in *; lia].
    apply (nonzero_fuel m a). intros i Hi Hz. apply Hn, Exists_exists. exists i. split; [|done].
    apply elem_of_seq. lia.
Qed.

(** ** Answers of the kernel *)

Lemma ecall_step (c : call) s f e :
  let s1 := f (s <| us_call := c |>) in
  ecall c s (f :: e) = Ok (us_ret s1) (s1 <| us_trace ::= λ t, t ++ [(c, us_ret s1)] |>) e.
Proof. done. Qed.

(** The bytes that the calls of a trace have read from [fd], and written to it. *)
Fixpoint bytes_read (fd : Z) (t : list (call * Z)) : nat :=
  match t with
  | [] => 0
  | (CRead fd' _ _, r) :: t' => (if fd' =? fd then Z.to_nat r else 0) + bytes_read fd t'
  | _ :: t' => bytes_read fd t'
  end.

Fixpoint outputs (fd : Z) (t : list (call * Z)) : list (list Z) :=
  match t with
  | [] => []
  | (CWrite fd' bs, _) :: t' => if fd' =? fd then bs :: outputs fd t' else outputs fd t'
  | _ :: t' => outputs fd t'
  end.

Lemma bytes_read_app fd t1 t2 : bytes_read fd (t1 ++ t2) = (bytes_read fd t1 + bytes_read fd t2)%nat.
Proof. induction t1 as [|[[] r] t1 IH]; cbn [app bytes_read]; lia. Qed.

Lemma outputs_app fd t1 t2 : outputs fd (t1 ++ t2) = outputs fd t1 ++ outputs fd t2.
Proof.
  induction t1 as [|[[] r] t1 IH]; cbn [app outputs]; try done.
  destruct (_ =? _); [simpl; by rewrite IH|done].
Qed.

(** An answer of a kernel for which [fd] is a file with the given contents, read
    from the start: a [read] stores the next bytes, as many as the kernel likes
    but at least one if there are any and some were asked for. *)
Definition file_answer (fd : Z) (content : list Z) (f : ustate → ustate) : Prop :=
  ∀ s, us_trace (f s) = us_trace s ∧
    match us_call s with
    | CRead fd' a n =>
        fd' = fd →
        let rest := drop (bytes_read fd (us_trace s)) content in
        ∃ k, us_ret (f s) = Z.of_nat k ∧ us_mem (f s) = stn (us_mem s) a (take k rest) ∧
          (k <= length rest)%nat ∧ Z.of_nat k <= Z.max 0 n ∧ (k = 0%nat → n <= 0 ∨ rest = [])
    | CWrite _ _ => us_mem (f s) = us_mem s
    | _ => True
    end.

(** A kernel that gives at most [chunk] bytes at a time. *)
Definition serve (fd : Z) (content : list Z) (chunk : nat) (s : ustate) : ustate :=
  match us_call s with
  | CRead fd' a n =>
      let bs := take (Nat.min chunk (Z.to_nat n)) (drop (bytes_read fd (us_trace s)) content) in
      s <| us_mem ::= λ m, stn m a bs |> <| us_ret := Z.of_nat (length bs) |>
  | CWrite _ bs => s <| us_ret := Z.of_nat (length bs) |>
  | _ => s <| us_ret := 0 |>
  end.

Lemma serve_answer fd content chunk : (0 < chunk)%nat → file_answer fd content (serve fd content chunk).
Proof.
  intros Hc s. unfold serve. destruct (us_call s); simpl; try done. split; [done|]. intros _.
  set (rest := drop _ _). exists (length (take (Nat.min chunk (Z.to_nat n)) rest)).
  rewrite length_take. split; [done|]. split.
  { f_equal. destruct (Nat.min_spec (Nat.min chunk (Z.to_nat n)) (length rest)) as [[_ ->]|[? ->]]; [done|].
    by rewrite !take_ge by lia. }
  split; [lia|]. split; [lia|]. intros H0. destruct rest; [by right|]. left. simpl in H0. lia.
Qed.
