(* ===== verification/Ulib.v ===== *)
(** The user library: user/ulib.c.

    Functions that only look at memory are functions of the memory; the others
    run in the process.  The addresses of local variables whose address is
    taken are given by the compiler ([UserStack]). *)

From S2P Require Export User.

(** Where the compiler puts the local variables of user programs. *)
Class UserStack := {
  var_c : Z;        (** a [char] *)
  var_p : Z;        (** an [int[2]] *)
  var_st : Z;       (** a [struct stat] *)
  var_de : Z;       (** a [struct dirent] *)
  var_buf : Z;      (** the buffer of [ls] *)
}.

(** ** Strings *)

Definition strcpy (s t : Z) : U unit :=
  m ← gets us_mem;
  loop (str_fuel m) (λ '(s, t),
    c ← uld8 t; ust8 s c;;
    mret (if c =? 0 then inr () else inl (s + 1, t + 1))) (s, t).

Fixpoint strcmp_loop (fuel : nat) (m : memory) (p q : Z) : Z :=
  match fuel with
  | O => 0
  | S fuel' =>
      if negb (ld8 m p =? 0) && (ld8 m p =? ld8 m q) then strcmp_loop fuel' m (p + 1) (q + 1)
      else ld8 m p - ld8 m q
  end.
Definition strcmp (m : memory) (p q : Z) : Z := strcmp_loop (str_fuel m) m p q.

Fixpoint strlen_loop (fuel : nat) (m : memory) (s n : Z) : Z :=
  match fuel with
  | O => n
  | S fuel' => if ld8 m (s + n) =? 0 then n else strlen_loop fuel' m s (n + 1)
  end.
Definition strlen (m : memory) (s : Z) : Z := strlen_loop (str_fuel m) m s 0.

(** A null pointer is 0. *)
Fixpoint strchr_loop (fuel : nat) (m : memory) (s c : Z) : Z :=
  match fuel with
  | O => 0
  | S fuel' =>
      if ld8 m s =? 0 then 0 else if ld8 m s =? c then s else strchr_loop fuel' m (s + 1) c
  end.
Definition strchr (m : memory) (s c : Z) : Z := strchr_loop (str_fuel m) m s c.

(** [strchr] in a string literal, as a truth value. *)
Definition in_lit (lit : list Z) (c : Z) : bool := existsb (λ d, d =? c) lit.

Fixpoint atoi_loop (fuel : nat) (m : memory) (s n : Z) : Z :=
  match fuel with
  | O => n
  | S fuel' =>
      if (48 <=? ld8 m s) && (ld8 m s <=? 57)
      then atoi_loop fuel' m (s + 1) (i32 (i32 (n * 10) + ld8 m s - 48)) else n
  end.
Definition atoi (m : memory) (s : Z) : Z := atoi_loop (str_fuel m) m s 0.

(** ** Memory *)

Definition memset (m : memory) (dst c n : Z) : memory := memset_loop m dst c 0 (Z.to_nat n).

Definition memmove (m : memory) (vdst vsrc n : Z) : memory :=
  if vsrc >? vdst then copy_forward m vdst vsrc (Z.to_nat n)
  else copy_backward m (vdst + n) (vsrc + n) (Z.to_nat n).

Definition memcmp (m : memory) (s1 s2 n : Z) : Z := memcmp_loop m s1 s2 (Z.to_nat n).

Definition memcpy (m : memory) (dst src n : Z) : memory := memmove m dst src n.

(** ** System calls *)

Section calls.
Context `{UserStack}.

(** One round of the loop of [gets]. *)
Definition gets_round (buf max i : Z) : U (Z + Z) :=
  if negb (i + 1 <? max) then mret (inr i) else
  cc ← read 0 var_c 1;
  if cc <? 1 then mret (inr i) else
  c ← uld8 var_c;
  ust8 (buf + i) c;;
  mret (if (c =? 10) || (c =? 13) then inr (i + 1) else inl (i + 1)).

Definition gets_ (buf max : Z) : U unit :=
  i ← loop_wait 0 (gets_round buf max) 0;
  ust8 (buf + i) 0.

Definition stat_ (n st : Z) : U Z :=
  fd ← open n O_RDONLY;
  if fd <? 0 then mret (-1) else
  r ← fstat fd st;
  close fd;;
  mret r.

Definition sbrk (n : Z) : U Z := sys_sbrk n SBRK_EAGER.
Definition sbrklazy (n : Z) : U Z := sys_sbrk n SBRK_LAZY.

End calls.

(** The entry point: [exit(main(argc, argv))]. *)
Definition start (main : Z → Z → U Z) (argc argv : Z) : U unit :=
  r ← main argc argv;
  exit r.

(** ** Strings in memory *)

Lemma strlen_loop_at fuel m s n bs :
  str_at m (s + n) bs → (length bs < fuel)%nat → strlen_loop fuel m s n = n + Z.of_nat (length bs).
Proof.
  revert n bs. induction fuel as [|fuel IH]; intros n bs Hs Hf; [lia|]. cbn [strlen_loop]. destruct bs as [|c bs].
  - destruct Hs as (_ & _ & Hz). simpl in Hz. rewrite Z.add_0_r in Hz. rewrite Hz. simpl. lia.
  - apply str_at_cons in Hs as (-> & Hc & Hs). rewrite (proj2 (Z.eqb_neq _ _) Hc).
    rewrite (IH _ bs); [simpl; lia|by rewrite Z.add_assoc|simpl in Hf; lia].
Qed.

Lemma strlen_at m s bs : str_at m s bs → strlen m s = Z.of_nat (length bs).
Proof.
  intros H. unfold strlen. rewrite (strlen_loop_at _ _ _ _ bs); [lia|by rewrite Z.add_0_r|by eapply str_at_fuel].
Qed.

Lemma strlen_cstring m s : strlen m s = Z.of_nat (length (cstring m s)).
Proof. apply strlen_at, str_at_cstring. Qed.

Lemma strchr_loop_at fuel m s c l d :
  (c ∉ l) → (str_at m s l ∧ d = None ∨ ∃ r, str_at m s (l ++ c :: r) ∧ d = Some r) → (length l < fuel)%nat →
  strchr_loop fuel m s c = if d is Some _ then s + Z.of_nat (length l) else 0.
Proof.
  revert s l. induction fuel as [|fuel IH]; intros s l Hc Hs Hf; [lia|]. cbn [strchr_loop]. destruct l as [|x l].
  - destruct Hs as [[(_ & _ & Hz) ->]|(r & Hs & ->)].
    + simpl in Hz. rewrite Z.add_0_r in Hz. by rewrite Hz.
    + apply str_at_cons in Hs as (-> & Hn & _). rewrite (proj2 (Z.eqb_neq _ _) Hn), Z.eqb_refl. simpl. lia.
  - apply not_elem_of_cons in Hc as [Hx Hc].
    assert (ld8 m s = x ∧ x ≠ 0 ∧ (str_at m (s + 1) l ∧ d = None ∨ ∃ r, str_at m (s + 1) (l ++ c :: r) ∧ d = Some r))
      as (-> & Hn & Hs').
    { destruct Hs as [[Hs ->]|(r & Hs & ->)]; apply str_at_cons in Hs as (? & ? & Hs); eauto 10. }
    rewrite (proj2 (Z.eqb_neq _ _) Hn), (proj2 (Z.eqb_neq x c)) by done. rewrite (IH _ l) by (done || simpl in Hf; lia).
    destruct d; [simpl; lia|done].
Qed.

Lemma strchr_none m s c bs : str_at m s bs → c ∉ bs → strchr m s c = 0.
Proof. intros Hs Hc. apply (strchr_loop_at _ _ _ _ bs None); [done|by left|by eapply str_at_fuel]. Qed.

Lemma strchr_some m s c l r : str_at m s (l ++ c :: r) → c ∉ l → strchr m s c = s + Z.of_nat (length l).
Proof.
  intros Hs Hc. apply (strchr_loop_at _ _ _ _ l (Some r)); [done|right; by exists r|].
  apply str_at_fuel in Hs. rewrite length_app in Hs. lia.
Qed.

(** The comparison of two strings: the difference of the first characters that
    differ, the end of a string counting as 0. *)
Fixpoint str_diff (p q : list Z) : Z :=
  match p, q with
  | c :: p', d :: q' => if c =? d then str_diff p' q' else c - d
  | c :: _, [] => c
  | [], d :: _ => - d
  | [], [] => 0
  end.

Lemma strcmp_loop_at fuel m p q bs cs :
  str_at m p bs → str_at m q cs → (length bs < fuel)%nat → strcmp_loop fuel m p q = str_diff bs cs.
Proof.
  revert p q bs cs. induction fuel as [|fuel IH]; intros p q bs cs Hp Hq Hf; [lia|]. cbn [strcmp_loop].
  assert (ld8 m q = match cs with [] => 0 | d :: _ => d end) as Eq.
  { destruct cs as [|d cs]; [destruct Hq as (_ & _ & Hz); simpl in Hz; by rewrite Z.add_0_r in Hz|].
    by apply str_at_cons in Hq as [-> _]. }
  destruct bs as [|c bs].
  - destruct Hp as (_ & _ & Hz). simpl in Hz. rewrite Z.add_0_r in Hz. rewrite Hz, Eq. simpl. by destruct cs.
  - apply str_at_cons in Hp as (-> & Hc & Hp). rewrite (proj2 (Z.eqb_neq _ _) Hc), Eq. cbn [negb andb].
    destruct cs as [|d cs]; [rewrite (proj2 (Z.eqb_neq _ _) Hc); simpl; lia|]. cbn [str_diff].
    destruct (Z.eqb_spec c d) as [->|]; [|done]. apply str_at_cons in Hq as (_ & _ & Hq).
    apply IH; [done|done|simpl in Hf; lia].
Qed.

Lemma strcmp_cstring m p q : strcmp m p q = str_diff (cstring m p) (cstring m q).
Proof.
  pose proof (str_at_cstring m p) as Hp. pose proof (str_at_cstring m q) as Hq.
  apply strcmp_loop_at; [done|done|by eapply str_at_fuel].
Qed.

Lemma str_diff_zero p q : Forall (λ c, c ≠ 0) p → Forall (λ c, c ≠ 0) q → str_diff p q = 0 ↔ p = q.
Proof.
  intros Hp. revert q. induction Hp as [|c p Hc Hp IH]; intros q Hq.
  - destruct Hq as [|d q Hd Hq]; [done|]. simpl. split; [lia|done].
  - destruct Hq as [|d q Hd Hq]; simpl; [done|]. destruct (Z.eqb_spec c d) as [->|N].
    + rewrite IH by done. split; [by intros ->|by intros [= ->]].
    + split; [lia|congruence].
Qed.

(** ** Copying *)

Lemma ld8_umemmove m dst src n x :
  mem_ok m → 0 <= n →
  ld8 (memmove m dst src n) x = if decide (dst <= x < dst + n) then ld8 m (src + (x - dst)) else ld8 m x.
Proof.
  intros Hm Hn. unfold memmove. destruct (Z.gtb_spec src dst).
  - rewrite ld8_copy_forward by (done || lia). by rewrite Z2Nat.id.
  - rewrite ld8_copy_backward, Z2Nat.id by (done || lia). repeat case_decide; first [lia|f_equal; lia|done].
Qed.

(** The two [memmove]s agree.  The kernel copies backwards only when the
    destination overlaps the end of the source, the user library whenever the
    source is not above the destination; both, and [memcpy], give the same
    memory, the one obtained by copying through a temporary buffer. *)
Theorem memmove_agree (m : memory) (dst src n : Z) :
  mem_ok m → 0 <= n →
  memmove m dst src n ≡ₘ stn m dst (ldn m src (Z.to_nat n)) ∧
  memmove m dst src n ≡ₘ CString.memmove m dst src n ∧
  memcpy m dst src n ≡ₘ CString.memcpy m dst src n.
Proof.
  intros Hm Hn. assert (memmove m dst src n ≡ₘ CString.memmove m dst src n) as E.
  { intros x. by rewrite ld8_umemmove, ld8_memmove. }
  split; [|by split]. intros x. rewrite E. by apply memmove_equiv.
Qed.

Lemma memmove_agree_witness :
  let m := stn ∅ 100 [1; 2; 3; 4] in
  memmove m 102 100 4 ≡ₘ stn m 102 [1; 2; 3; 4] ∧ memmove m 102 100 4 ≡ₘ CString.memmove m 102 100 4 ∧
  memcpy m 102 100 4 ≡ₘ CString.memcpy m 102 100 4.
Proof.
  intros m. apply (memmove_agree m 102 100 4); [|lia]. apply stn_ok. apply map_Forall_empty.
Defined.
