(* ===== verification/Uprintf.v ===== *)
(** Formatted output of user programs: user/printf.c.

    Each character is a [write] of its own.  The bytes are those of the kernel's
    [printf] but for the case of the hexadecimal digits. *)

From S2P Require Export PrintfSpec Ulib.

Definition udigits : list Z := bytes_of "0123456789ABCDEF".

Definition putc (fd c : Z) : U unit := ecall_int (CWrite fd [u8 c]);; mret ().

(** [putc] for each character of a list. *)
Fixpoint put_chars (fd : Z) (l : list Z) : U unit :=
  match l with
  | [] => mret ()
  | c :: l' => putc fd c;; put_chars fd l'
  end.

(** The digits go to [buf] least significant first and out from its end. *)
Definition uprintint (fd xx base : Z) (sgn : bool) : U unit :=
  put_chars fd (reverse (printint_buf udigits xx base sgn)).

Definition uprintptr (fd x : Z) : U unit :=
  putc fd 48;;
  putc fd 120;;
  put_chars fd (ptr_digits 16 udigits x).

(** One directive: [f] starts after the ['%']; how many more format characters it
    takes, and the arguments left. *)
Definition udirective (fd : Z) (f : list Z) (ap : list varg) : U (nat * list varg) :=
  let c0 := char_at f in
  let c1 := if c0 =? 0 then 0 else char_at (tl f) in
  let c2 := if c1 =? 0 then 0 else char_at (tl (tl f)) in
  let w := va_word ap in
  let done (m : U unit) (n : nat) := m;; mret (n, tl ap) in
  if c0 =? ch "d" then done (uprintint fd (i32 w) 10 true) 0%nat
  else if (c0 =? ch "l") && (c1 =? ch "d") then done (uprintint fd (i64 w) 10 true) 1%nat
  else if (c0 =? ch "l") && (c1 =? ch "l") && (c2 =? ch "d") then
    done (uprintint fd (i64 w) 10 true) 2%nat
  else if c0 =? ch "u" then done (uprintint fd (u32 w) 10 false) 0%nat
  else if (c0 =? ch "l") && (c1 =? ch "u") then done (uprintint fd (i64 w) 10 false) 1%nat
  else if (c0 =? ch "l") && (c1 =? ch "l") && (c2 =? ch "u") then
    done (uprintint fd (i64 w) 10 false) 2%nat
  else if c0 =? ch "x" then done (uprintint fd (u32 w) 16 false) 0%nat
  else if (c0 =? ch "l") && (c1 =? ch "x") then done (uprintint fd (i64 w) 16 false) 1%nat
  else if (c0 =? ch "l") && (c1 =? ch "l") && (c2 =? ch "x") then
    done (uprintint fd (i64 w) 16 false) 2%nat
  else if c0 =? ch "p" then done (uprintptr fd (u64 w)) 0%nat
  else if c0 =? ch "c" then done (putc fd (u32 w)) 0%nat
  else if c0 =? ch "s" then done (put_chars fd (va_str ap)) 0%nat
  else if c0 =? ch "%" then putc fd (ch "%");; mret (0%nat, ap)
  else putc fd (ch "%");; putc fd c0;; mret (0%nat, ap).

(** The loop of [vprintf]; [pct] is [state == '%'].  Every round consumes a
    character of the format. *)
Fixpoint vprintf_loop (fuel : nat) (fd : Z) (f : list Z) (pct : bool) (ap : list varg) : U unit :=
  match fuel with
  | O => mret ()
  | S fuel' =>
      let c0 := char_at f in
      if c0 =? 0 then mret () else
      if pct then
        '(n, ap') ← udirective fd f ap;
        vprintf_loop fuel' fd (drop (S n) f) false ap'
      else if c0 =? ch "%" then vprintf_loop fuel' fd (tl f) true ap
      else putc fd c0;; vprintf_loop fuel' fd (tl f) false ap
  end.

Definition vprintf (fd : Z) (fmt : string) (ap : list varg) : U unit :=
  vprintf_loop (S (length (bytes_of fmt))) fd (bytes_of fmt) false ap.

Definition fprintf (fd : Z) (fmt : string) (ap : list varg) : U unit := vprintf fd fmt ap.
Definition uprintf (fmt : string) (ap : list varg) : U unit := vprintf 1 fmt ap.

(** ** What is printed *)

Lemma put_chars_app fd l1 l2 s e : put_chars fd (l1 ++ l2) s e = (put_chars fd l1;; put_chars fd l2) s e.
Proof.
  revert s e. induction l1 as [|c l1 IH]; intros s e; [done|]. cbn [put_chars app].
  rewrite bind_assoc. unfold mbind, M_bind. destruct (putc fd c s e); [|done..]. apply IH.
Qed.

Lemma putc_u8 fd c d s e : u8 c = u8 d → putc fd c s e = putc fd d s e.
Proof. unfold putc. by intros ->. Qed.

Lemma udirective_eq fd f ap s e :
  char_at f ≠ 0 →
  ∃ n ap', (fdirective udigits f ap).2 = Some (n, ap') ∧
    udirective fd f ap s e = (put_chars fd (fdirective udigits f ap).1;; mret (n, ap')) s e.
Proof.
  intros Hc. unfold udirective, fdirective.
  rewrite (proj2 (Z.eqb_neq (char_at f) 0) Hc).
  repeat match goal with |- context [if ?c then _ else _] =>
    match goal with |- ∃ n ap', _ ∧ (if c then _ else _) _ _ = _ => destruct c end end.
  all: eexists _, _; split; [reflexivity|]; cbn [fst snd].
  all: try done.
  all: cbn [put_chars app]; rewrite ?bind_assoc; try (apply bind_ext; intros [] ??; rewrite ?bind_assoc, ?bind_ret; done).
  unfold mbind, M_bind at 1 2. rewrite (putc_u8 fd (u32 (va_word ap)) (i32 (va_word ap))); [done|mach].
Qed.

Lemma vprintf_loop_eq n fuel fuel' fd f ap s e :
  (length f <= n)%nat → (length f < fuel)%nat → (length f < fuel')%nat →
  vprintf_loop fuel fd f false ap s e = put_chars fd (format udigits fuel' f ap) s e.
Proof.
  revert fuel fuel' f ap s e. induction n as [n IH] using lt_wf_ind. intros fuel fuel' f ap s e Hn Hf Hf'.
  destruct fuel as [|fuel]; [lia|]. destruct fuel' as [|fuel']; [lia|]. cbn [vprintf_loop format].
  destruct f as [|c f]; [done|]. cbn [char_at hd tl length] in *. destruct (Z.eqb_spec c 0) as [|Hc]; [done|].
  destruct (Z.eqb_spec c (ch "%")) as [|Hp]; cbn [negb].
  - destruct fuel as [|fuel]; [lia|]. cbn [vprintf_loop]. destruct (Z.eqb_spec (char_at f) 0) as [Ez|Hz].
    + unfold fdirective. rewrite Ez. done.
    + destruct (udirective_eq fd f ap s e Hz) as (k & ap' & E1 & E2).
      destruct (fdirective udigits f ap) as [out r]. simpl in E1, E2. subst r.
      rewrite put_chars_app. unfold mbind, M_bind at 1 2. rewrite E2. unfold mbind, M_bind.
      destruct (put_chars fd out s e) as [[] s' e'| |]; [|done..]. simpl.
      destruct f as [|d f]; [done|]. cbn [drop length] in *.
      apply (IH (length (drop k f))); rewrite ?length_drop; lia.
  - cbn [put_chars]. apply bind_ext. intros _ s' e'. apply (IH (length f)); lia.
Qed.

(** The characters of a call of [printf]. *)
Definition uprinted (fmt : string) (ap : list varg) : list Z :=
  format udigits (S (length (bytes_of fmt))) (bytes_of fmt) ap.

(** [fprintf] and [printf] of user programs write exactly the characters that
    the format and the arguments stand for, in order and one [write] each, for
    every format and every list of arguments; the format language is the
    kernel's. *)
Theorem vprintf_prints (fd : Z) (fmt : string) (ap : list varg) (s : ustate) (e : list (ustate → ustate)) :
  fprintf fd fmt ap s e = put_chars fd (uprinted fmt ap) s e ∧
  uprintf fmt ap s e = put_chars 1 (uprinted fmt ap) s e.
Proof. split; apply (vprintf_loop_eq (length (bytes_of fmt))); lia. Qed.
