(* ===== verification/Grep.v ===== *)
(** The pattern search: user/grep.c.

    The matcher works on C strings, as lists of their characters; [grep] works on
    its buffer in the memory of the process. *)

From S2P Require Export Uprintf.

(** ** The matcher *)

(** [matchstar(c, re, text)], where [here] is [matchhere(re, .)]. *)
Fixpoint matchstar (c : Z) (here : list Z → bool) (text : list Z) : bool :=
  here text ||
  match text with
  | [] => false
  | t :: text' => ((t =? c) || (c =? ch ".")) && matchstar c here text'
  end.

Fixpoint matchhere (re text : list Z) : bool :=
  match re with
  | [] => true
  | c :: re1 =>
      let rest :=
        if (c =? ch "$") && bool_decide (re1 = []) then bool_decide (text = []) else
        match text with
        | [] => false
        | t :: text' => ((c =? ch ".") || (c =? t)) && matchhere re1 text'
        end in
      match re1 with
      | d :: re2 => if d =? ch "*" then matchstar c (matchhere re2) text else rest
      | [] => rest
      end
  end.

(** The loop of [match]: the text and each of its suffixes. *)
Fixpoint match_from (re text : list Z) : bool :=
  matchhere re text ||
  match text with
  | [] => false
  | _ :: text' => match_from re text'
  end.

Definition match_ (re text : list Z) : bool :=
  match re with
  | c :: re1 => if c =? ch "^" then matchhere re1 text else match_from re text
  | [] => match_from re text
  end.

(** ** The program *)

Section grep.
(** The address of [buf]. *)
Context (buf : Z).

Definition sizeof_buf : Z := 1024.

(** [while((q = strchr(p, '\n')) != 0)] *)
Definition grep_line (pattern p : Z) : U (Z + Z) :=
  m ← gets us_mem;
  let q := strchr m p 10 in
  if q =? 0 then mret (inr p) else
  ust8 q 0;;
  m ← gets us_mem;
  (if match_ (cstring m pattern) (cstring m p) then
     ust8 q 10;;
     write 1 p (q + 1 - p);;
     mret ()
   else mret ());;
  mret (inl (q + 1)).

Definition grep_lines (pattern p : Z) : U Z :=
  m ← gets us_mem;
  loop (str_fuel m) (grep_line pattern) p.

Definition grep_round (pattern fd m : Z) : U (Z + unit) :=
  n ← read fd (buf + m) (i32 (u64 (sizeof_buf - m - 1)));
  if n <=? 0 then mret (inr ()) else
  let m := m + n in
  ust8 (buf + m) 0;;
  p ← grep_lines pattern buf;
  if m >? 0 then
    let m := m - (p - buf) in
    upd_mem (λ mem, memmove mem buf p m);;
    mret (inl m)
  else mret (inl m).

Definition grep (pattern fd : Z) : U unit := loop_wait 0 (grep_round pattern fd) 0.

(** [for(i = 2; i < argc; i++)] *)
Definition grep_file (pattern argv : Z) (i : nat) : U unit :=
  arg ← uld64 (argv + 8 * Z.of_nat i);
  fd ← open arg O_RDONLY;
  if fd <? 0 then
    m ← gets us_mem;
    uprintf ("grep: cannot open %s" +:+ nl) [VStr (cstring m arg)];;
    exit 1
  else
    grep pattern fd;;
    close fd;;
    mret ().

Definition grep_main (argc argv : Z) : U Z :=
  if argc <=? 1 then
    fprintf 2 ("usage: grep pattern [file ...]" +:+ nl) [];;
    exit 1
  else
  pattern ← uld64 (argv + 8);
  if argc <=? 2 then
    grep pattern 0;;
    exit 0
  else
    for_each (Z.to_nat (argc - 2)) 2 (grep_file pattern argv);;
    exit 0.

End grep.

(** ** What a pattern means *)

(** A pattern is a sequence of items, each a character or a repeated character,
    ['.'] standing for any character, with a flag for a final ['$']. *)
Inductive item := One (c : Z) | Many (c : Z).

Definition stands_for (c t : Z) : Prop := c = ch "." ∨ c = t.

Fixpoint items (re : list Z) : list item * bool :=
  match re with
  | [] => ([], false)
  | c :: re1 =>
      match re1 with
      | [] => if c =? ch "$" then ([], true) else ([One c], false)
      | d :: re2 =>
          if d =? ch "*" then (Many c :: (items re2).1, (items re2).2)
          else (One c :: (items re1).1, (items re1).2)
      end
  end.

(** The words of a sequence of items. *)
Inductive word : list item → list Z → Prop :=
| word_nil : word [] []
| word_one c t its w : stands_for c t → word its w → word (One c :: its) (t :: w)
| word_many c pre its w : Forall (stands_for c) pre → word its w → word (Many c :: its) (pre ++ w).

(** The pattern, without its ['^'], stands for a prefix of [text], all of it with
    a final ['$']. *)
Definition stands_at (re text : list Z) : Prop :=
  ∃ w rest, text = w ++ rest ∧ word (items re).1 w ∧ ((items re).2 = true → rest = []).

Definition stands_in (re text : list Z) : Prop :=
  match re with
  | c :: re1 => if c =? ch "^" then stands_at re1 text else ∃ pre text', text = pre ++ text' ∧ stands_at re text'
  | [] => True
  end.

Lemma matchstar_true c here text :
  matchstar c here text = true ↔ ∃ pre rest, text = pre ++ rest ∧ Forall (stands_for c) pre ∧ here rest = true.
Proof.
  induction text as [|t text IH]; cbn [matchstar].
  - rewrite orb_false_r. split; [intros H; by exists [], []|]. intros (pre & rest & E & _ & H). by destruct pre, rest.
  - rewrite orb_true_iff, andb_true_iff, orb_true_iff, !Z.eqb_eq, IH. split.
    + intros [H|[Hc (pre & rest & -> & F & H)]]; [by exists [], (t :: text)|].
      exists (t :: pre), rest. split; [done|]. split; [|done]. constructor; [|done]. unfold stands_for.
      destruct Hc; auto.
    + intros (pre & rest & E & F & H). destruct F as [|x pre Hx F]; [left; by rewrite E|].
      injection E as -> ->. right. split; [destruct Hx; auto|]. by exists pre, rest.
Qed.

Lemma stands_at_nil text : stands_at [] text.
Proof. exists [], text. split; [done|]. split; [constructor|done]. Qed.

Lemma stands_at_many c re text :
  stands_at (c :: ch "*" :: re) text ↔
  ∃ pre rest, text = pre ++ rest ∧ Forall (stands_for c) pre ∧ stands_at re rest.
Proof.
  unfold stands_at. cbn [items]. rewrite Z.eqb_refl. cbn [fst snd]. split.
  - intros (w & rest & -> & Hw & He). inversion Hw as [| |? pre ? w' F Hw']; subst.
    exists pre, (w' ++ rest). split; [by rewrite app_assoc|]. split; [done|]. by exists w', rest.
  - intros (pre & ? & -> & F & w & rest & -> & Hw & He). exists (pre ++ w), rest.
    split; [by rewrite app_assoc|]. split; [by constructor|done].
Qed.

Lemma stands_at_end text : stands_at [ch "$"] text ↔ text = [].
Proof.
  unfold stands_at. simpl. split.
  - intros (w & rest & -> & Hw & He). inversion Hw. by rewrite He.
  - intros ->. exists [], []. split; [done|]. split; [constructor|done].
Qed.

Lemma stands_at_one c re text :
  char_at re ≠ ch "*" → ¬ (c = ch "$" ∧ re = []) →
  stands_at (c :: re) text ↔ ∃ t text', text = t :: text' ∧ stands_for c t ∧ stands_at re text'.
Proof.
  intros Hstar Hend. assert (items (c :: re) = (One c :: (items re).1, (items re).2)) as E.
  { cbn [items]. destruct re as [|d re].
    - destruct (Z.eqb_spec c (ch "$")); [by destruct Hend|done].
    - simpl in Hstar. by rewrite (proj2 (Z.eqb_neq _ _) Hstar). }
  unfold stands_at. rewrite E. cbn [fst snd]. split.
  - intros (w & rest & -> & Hw & He). inversion Hw as [|? t ? w' Ht Hw'|]; subst.
    exists t, (w' ++ rest). split; [done|]. split; [done|]. by exists w', rest.
  - intros (t & ? & -> & Ht & w & rest & -> & Hw & He). exists (t :: w), rest.
    split; [done|]. split; [by constructor|done].
Qed.

Lemma matchhere_one c re text :
  char_at re ≠ ch "*" → ¬ (c = ch "$" ∧ re = []) →
  matchhere (c :: re) text =
    match text with [] => false | t :: text' => ((c =? ch ".") || (c =? t)) && matchhere re text' end.
Proof.
  intros Hstar Hend. cbn [matchhere].
  assert ((c =? ch "$") && bool_decide (re = []) = false) as ->.
  { apply andb_false_iff. destruct (Z.eqb_spec c (ch "$")); [|by left]. right. apply bool_decide_eq_false.
    intros ->. by destruct Hend. }
  destruct re as [|d re]; [done|]. simpl in Hstar. by rewrite (proj2 (Z.eqb_neq _ _) Hstar).
Qed.

Lemma matchhere_true re text : matchhere re text = true ↔ stands_at re text.
Proof.
  remember (length re) as n eqn:Hn. revert re text Hn. induction n as [n IH] using lt_wf_ind. intros re text ->.
  destruct re as [|c re]; [split; [intros _; apply stands_at_nil|done]|].
  destruct (decide (char_at re = ch "*")) as [Hs|Hs].
  - destruct re as [|d re]; [done|]. simpl in Hs. subst d. rewrite stands_at_many. cbn [matchhere].
    rewrite Z.eqb_refl, matchstar_true. by setoid_rewrite (IH (length re) ltac:(simpl; lia) re _ eq_refl).
  - destruct (decide (c = ch "$" ∧ re = [])) as [[-> ->]|Hd].
    + rewrite stands_at_end. simpl. by rewrite bool_decide_eq_true.
    + rewrite matchhere_one, stands_at_one by done. destruct text as [|t text].
      * split; [done|]. by intros (t & text' & ? & _).
      * rewrite andb_true_iff, orb_true_iff, !Z.eqb_eq, (IH (length re) ltac:(simpl; lia) re text eq_refl).
        unfold stands_for. split; [intros [? ?]; by exists t, text|]. by intros (? & ? & [= <- <-] & ? & ?).
Qed.

Lemma match_from_true re text :
  match_from re text = true ↔ ∃ pre text', text = pre ++ text' ∧ stands_at re text'.
Proof.
  induction text as [|t text IH]; cbn [match_from].
  - rewrite orb_false_r, matchhere_true. split; [intros H; by exists [], []|].
    intros (pre & text' & E & H). by destruct pre, text'.
  - rewrite orb_true_iff, matchhere_true, IH. split.
    + intros [H|(pre & text' & -> & H)]; [by exists [], (t :: text)|by exists (t :: pre), text'].
    + intros ([|x pre] & text' & E & H); simpl in E; [left; by subst|]. injection E as -> ->. right.
      by exists pre, text'.
Qed.

(** C36: The matcher decides the pattern language.  For every pattern and every
    text, [match] is true exactly when some part of the text, at its start with
    ['^'] and up to its end with ['$'], is a word of the sequence of characters,
    ['.']s and starred characters that the pattern spells out. *)
Theorem match_decides (re text : list Z) : match_ re text = true ↔ stands_in re text.
Proof.
  unfold match_, stands_in. destruct re as [|c re].
  - split; [done|]. intros _. apply match_from_true. exists [], text. split; [done|]. apply stands_at_nil.
  - destruct (c =? ch "^"); [apply matchhere_true|apply match_from_true].
Qed.
