(* ===== verification/GrepSpec.v ===== *)
(** What [grep] prints: the lines of its input that match, whole and in order,
    however the kernel cuts the input into pieces. *)

From S2P Require Export Grep.

(** ** Lines *)

(** The complete lines of [data], the first of which starts with [cur], and what
    follows the last newline. *)
Fixpoint lines_from (cur data : list Z) : list (list Z) :=
  match data with
  | [] => []
  | c :: d => if c =? 10 then cur :: lines_from [] d else lines_from (cur ++ [c]) d
  end.
Fixpoint tail_from (cur data : list Z) : list Z :=
  match data with
  | [] => cur
  | c :: d => if c =? 10 then tail_from [] d else tail_from (cur ++ [c]) d
  end.

Lemma lines_from_app cur d1 d2 :
  lines_from cur (d1 ++ d2) = lines_from cur d1 ++ lines_from (tail_from cur d1) d2.
Proof.
  revert cur. induction d1 as [|c d1 IH]; intros cur; [done|]. cbn [app lines_from tail_from].
  destruct (c =? 10); [cbn [app]; by rewrite IH|apply IH].
Qed.

Lemma lines_from_plain cur l : 10 ∉ l → lines_from cur l = [] ∧ tail_from cur l = cur ++ l.
Proof.
  revert cur. induction l as [|c l IH]; intros cur H; cbn [lines_from tail_from]; [by rewrite app_nil_r|].
  apply not_elem_of_cons in H as [Hc H]. rewrite (proj2 (Z.eqb_neq c 10)) by done.
  destruct (IH (cur ++ [c]) H) as [-> ->]. by rewrite <- app_assoc.
Qed.

Lemma lines_from_line l d : 10 ∉ l → lines_from [] (l ++ 10 :: d) = l :: lines_from [] d ∧ tail_from [] (l ++ 10 :: d) = tail_from [] d.
Proof.
  intros H. assert (∀ cur, lines_from cur (l ++ 10 :: d) = (cur ++ l) :: lines_from [] d ∧
    tail_from cur (l ++ 10 :: d) = tail_from [] d) as G; [|apply G].
  induction l as [|c l IH]; intros cur; cbn [app lines_from tail_from]; [by rewrite app_nil_r|].
  apply not_elem_of_cons in H as [Hc H]. rewrite (proj2 (Z.eqb_neq c 10)) by done.
  destruct (IH H (cur ++ [c])) as [-> ->]. by rewrite <- app_assoc.
Qed.

Lemma first_line (d : list Z) : 10 ∉ d ∨ ∃ l r, d = l ++ 10 :: r ∧ 10 ∉ l.
Proof.
  induction d as [|c d IH]; [left; set_solver|]. destruct (decide (c = 10)) as [->|Hc].
  - right. exists [], d. split; [done|]. set_solver.
  - destruct IH as [H|(l & r & -> & H)]; [left; by apply not_elem_of_cons|].
    right. exists (c :: l), r. split; [done|]. by apply not_elem_of_cons.
Qed.

Lemma tail_from_suffix d : ∃ l, d = l ++ tail_from [] d.
Proof.
  remember (length d) as n eqn:Hn. revert d Hn. induction n as [n IH] using lt_wf_ind. intros d ->.
  destruct (first_line d) as [H|(l & r & -> & H)].
  - exists []. by rewrite (proj2 (lines_from_plain [] d H)).
  - destruct (IH (length r) ltac:(rewrite length_app; simpl; lia) r eq_refl) as [k Hk].
    exists (l ++ 10 :: k). rewrite (proj2 (lines_from_line l r H)), <- app_assoc. simpl. by rewrite <- Hk.
Qed.

Lemma tail_from_no_nl d : 10 ∉ tail_from [] d.
Proof.
  remember (length d) as n eqn:Hn. revert d Hn. induction n as [n IH] using lt_wf_ind. intros d ->.
  destruct (first_line d) as [H|(l & r & -> & H)].
  - by rewrite (proj2 (lines_from_plain [] d H)).
  - rewrite (proj2 (lines_from_line l r H)). apply (IH (length r)); [rewrite length_app; simpl; lia|done].
Qed.

(** A first line that is too long. *)
Lemma lines_from_long cur d n : Forall (λ l, (length l < n)%nat) (lines_from cur d) → (n <= length cur)%nat → lines_from cur d = [].
Proof.
  revert cur. induction d as [|c d IH]; intros cur F Hn; [done|]. cbn [lines_from] in *. destruct (c =? 10).
  - inversion F. lia.
  - apply IH; [done|]. rewrite length_app. lia.
Qed.

(** The lines that [grep] prints. *)
Definition selected (re : list Z) (ls : list (list Z)) : list (list Z) :=
  (λ l, l ++ [10]) <$> filter (λ l, match_ re l = true) ls.

Lemma selected_app re l1 l2 : selected re (l1 ++ l2) = selected re l1 ++ selected re l2.
Proof. unfold selected. by rewrite filter_app, fmap_app. Qed.

(** ** The calls *)

Section spec.
Context (buf fd pat : Z) (content re : list Z).

Lemma write_step fd' a n s f e :
  file_answer fd content f →
  ∃ r s', write fd' a n s (f :: e) = Ok r s' e ∧ us_mem s' = us_mem s ∧
    bytes_read fd (us_trace s') = bytes_read fd (us_trace s) ∧
    outputs fd' (us_trace s') = outputs fd' (us_trace s) ++ [ldn (us_mem s) a (Z.to_nat n)].
Proof.
  intros Hf. set (c := CWrite fd' (ldn (us_mem s) a (Z.to_nat n))).
  destruct (Hf (s <| us_call := c |>)) as [Ht Hm].
  unfold write, on_mem, ecall_int. rewrite bind_gets. fold c. erewrite bind_Ok by apply ecall_step.
  set (s1 := f _) in *. simpl in Ht, Hm.
  eexists _, _. split; [reflexivity|]. simpl. rewrite Ht. split; [done|].
  rewrite bytes_read_app, outputs_app. simpl. rewrite Z.eqb_refl. split; [lia|done].
Qed.

Lemma read_step a n s f e :
  file_answer fd content f → n < 2147483648 →
  let rest := drop (bytes_read fd (us_trace s)) content in
  ∃ k s', read fd a n s (f :: e) = Ok (Z.of_nat k) s' e ∧ us_mem s' = stn (us_mem s) a (take k rest) ∧
    bytes_read fd (us_trace s') = (bytes_read fd (us_trace s) + k)%nat ∧
    (∀ fd', outputs fd' (us_trace s') = outputs fd' (us_trace s)) ∧
    (k <= length rest)%nat ∧ Z.of_nat k <= Z.max 0 n ∧ (k = 0%nat → n <= 0 ∨ rest = []).
Proof.
  intros Hf Hn rest. destruct (Hf (s <| us_call := CRead fd a n |>)) as [Ht Hm].
  unfold read, ecall_int. erewrite bind_Ok by apply ecall_step. set (s1 := f _) in *. simpl in Ht, Hm.
  destruct (Hm eq_refl) as (k & Hr & Hmem & Hk1 & Hk2 & Hk3). exists k. rewrite Hr.
  eexists. split; [unfold mret, M_ret; by rewrite i32_small by lia|]. simpl. rewrite Ht.
  split; [done|]. rewrite bytes_read_app. simpl. rewrite Z.eqb_refl. split; [lia|].
  split; [|done]. intros fd'. by rewrite outputs_app, app_nil_r.
Qed.

(** ** Lines in the buffer *)

(** The string of the pattern is apart from [[a, b)]. *)
Definition pattern_apart (m : memory) (a b : Z) : Prop :=
  str_at m pat re ∧ (pat + Z.of_nat (length re) < a ∨ b <= pat).

Lemma pattern_ext m m' a b :
  pattern_apart m a b → (∀ x, x < a ∨ b <= x → ld8 m' x = ld8 m x) → pattern_apart m' a b.
Proof.
  intros [Hs Hd] E. split; [|done]. eapply str_at_ext; [done|]. intros x Hx. apply E. lia.
Qed.

(** A round at a complete line. *)
Lemma grep_line_ok p l d s e :
  0 < p → str_at (us_mem s) p (l ++ 10 :: d) → 10 ∉ l →
  pattern_apart (us_mem s) p (p + Z.of_nat (length (l ++ 10 :: d))) →
  Forall (file_answer fd content) e → (1 <= length e)%nat →
  ∃ s' e', grep_line pat p s e = Ok (inl (p + Z.of_nat (length l) + 1)) s' e' ∧
    (∀ x, x ≠ p + Z.of_nat (length l) → ld8 (us_mem s') x = ld8 (us_mem s) x) ∧
    (mem_ok (us_mem s) → mem_ok (us_mem s')) ∧
    bytes_read fd (us_trace s') = bytes_read fd (us_trace s) ∧
    outputs 1 (us_trace s') = outputs 1 (us_trace s) ++ selected re [l] ∧
    Forall (file_answer fd content) e' ∧ (length e <= S (length e'))%nat.
Proof.
  intros Hp Hs Hl Hpat Hf He. set (q := p + Z.of_nat (length l)).
  assert (strchr (us_mem s) p 10 = q) as Hq by (by eapply strchr_some).
  set (m1 := st8 (us_mem s) q 0).
  assert (∀ x, x ≠ q → ld8 m1 x = ld8 (us_mem s) x) as E1.
  { intros x Hx. unfold m1. by rewrite ld8_st8, decide_False. }
  assert (cstring m1 pat = re) as C1.
  { apply cstring_at. eapply pattern_ext in Hpat; [apply Hpat|]. intros x Hx. apply E1. unfold q.
    rewrite length_app in Hx. simpl in Hx. lia. }
  assert (ldn (us_mem s) p (length l) = l ∧ Forall (λ c, c ≠ 0) l) as [D1 D2] by (by eapply str_at_prefix).
  assert (cstring m1 p = l) as C2.
  { apply cstring_at. split; [|split; [done|unfold m1; by rewrite ld8_st8, decide_True]].
    rewrite <- D1 at 2. apply ldn_ext. intros x Hx. apply E1. unfold q. lia. }
  unfold grep_line. rewrite bind_gets, Hq, (proj2 (Z.eqb_neq q 0)) by (unfold q; lia).
  unfold ust8, upd_mem. rewrite bind_modify, bind_gets. change (us_mem (s <| us_mem ::= _ |>)) with m1.
  rewrite C1, C2. destruct (match_ re l) eqn:Em.
  - destruct e as [|f e]; [simpl in He; lia|]. apply Forall_cons in Hf as [Hf Hf'].
    rewrite bind_assoc, bind_modify, bind_assoc.
    match goal with |- context [(write 1 p _ ≫= _) ?st (f :: e)] => set (s2 := st) end.
    destruct (write_step 1 p (q + 1 - p) s2 f e Hf) as (r & s' & Hw & Hm & Hb & Ho).
    erewrite bind_Ok by exact Hw. rewrite bind_ret. eexists _, _. split; [reflexivity|].
    assert (us_mem s2 = st8 m1 q 10) as Es2 by done.
    assert (∀ x, ld8 (us_mem s2) x = ld8 (us_mem s) x) as E2.
    { intros x. rewrite Es2, ld8_st8. case_decide as Hx; [|by apply E1]. subst x. unfold u8. simpl.
      symmetry. apply (str_at_lookup _ _ _ (length l) 10) in Hs as [Hs _]; [done|]. apply list_lookup_middle. done. }
    rewrite Hm. split; [intros x _; apply E2|]. split; [intros ?; by apply st8_ok, st8_ok|].
    split; [done|]. split; [|split; [done|simpl; lia]]. rewrite Ho. f_equal.
    unfold selected. rewrite filter_cons_True by done. simpl. f_equal.
    replace (Z.to_nat (q + 1 - p)) with (length (l ++ [10])) by (rewrite length_app; unfold q; simpl; lia).
    replace (l ++ 10 :: d) with ((l ++ [10]) ++ d) in Hs by (by rewrite <- app_assoc).
    transitivity (ldn (us_mem s) p (length (l ++ [10]))); [by apply ldn_ext|]. by eapply str_at_prefix.
  - rewrite bind_ret. exists (s <| us_mem := m1 |>), e. split; [reflexivity|].
    split; [done|]. split; [intros ?; by apply st8_ok|]. split; [done|].
    split; [|split; [done|lia]]. unfold selected. rewrite filter_cons_False by (by rewrite Em). simpl.
    by rewrite app_nil_r.
Qed.

(** What happened between two states, except to memory. *)
Record progress (s s' : ustate) (e e' : list (ustate → ustate)) (ls : list (list Z)) : Prop := {
  pr_ok : mem_ok (us_mem s) → mem_ok (us_mem s');
  pr_read : bytes_read fd (us_trace s') = bytes_read fd (us_trace s);
  pr_out : outputs 1 (us_trace s') = outputs 1 (us_trace s) ++ selected re ls;
  pr_env : Forall (file_answer fd content) e';
  pr_len : (length e <= length ls + length e')%nat;
}.

Lemma progress_trans s1 s2 s3 e1 e2 e3 l1 l2 :
  progress s1 s2 e1 e2 l1 → progress s2 s3 e2 e3 l2 → progress s1 s3 e1 e3 (l1 ++ l2).
Proof.
  intros [A1 A2 A3 A4 A5] [B1 B2 B3 B4 B5]. split; [auto|congruence| |done|rewrite length_app; lia].
  by rewrite B3, A3, selected_app, app_assoc.
Qed.

Lemma grep_lines_ok fuel p data s e :
  0 < p → str_at (us_mem s) p data → pattern_apart (us_mem s) p (p + Z.of_nat (length data)) →
  Forall (file_answer fd content) e → (length (lines_from [] data) <= length e)%nat →
  (length (lines_from [] data) < fuel)%nat →
  let p' := p + Z.of_nat (length data) - Z.of_nat (length (tail_from [] data)) in
  ∃ s' e', loop fuel (grep_line pat) p s e = Ok p' s' e' ∧
    (∀ x, x < p ∨ p' <= x → ld8 (us_mem s') x = ld8 (us_mem s) x) ∧
    progress s s' e e' (lines_from [] data).
Proof.
  revert p data s e. induction fuel as [|fuel IH]; intros p data s e Hp Hs Hpat Hf He Hfuel; [lia|].
  cbn [loop]. destruct (first_line data) as [H|(l & d & -> & H)].
  - destruct (lines_from_plain [] data H) as [-> ->]. exists s, e. split; [|split; [done|]].
    + erewrite bind_Ok; [|unfold grep_line; rewrite bind_gets, (strchr_none _ _ _ data) by done; reflexivity].
      unfold mret, M_ret. f_equal. simpl. lia.
    + split; try done. by rewrite app_nil_r.
  - destruct (lines_from_line l d H) as [E1 E2]. rewrite E1, E2 in *. cbn [length] in *.
    destruct (grep_line_ok p l d s e) as (s1 & e1 & Hr & Hm & Hok & Hb & Ho & Hf1 & He1); try done; [lia|].
    rewrite (bind_Ok _ _ _ _ _ _ _ Hr). cbn beta iota. rewrite length_app in *. cbn [length] in *.
    set (p1 := p + Z.of_nat (length l) + 1) in *.
    assert (str_at (us_mem s1) p1 d) as Hs1.
    { replace (l ++ 10 :: d) with ((l ++ [10]) ++ d) in Hs by (by rewrite <- app_assoc).
      apply str_at_app in Hs. rewrite length_app in Hs. cbn [length] in Hs.
      replace p1 with (p + Z.of_nat (length l + 1)) by lia. eapply str_at_ext; [done|].
      intros x Hx. apply Hm. lia. }
    destruct (IH p1 d s1 e1) as (s' & e' & Hr' & Hm' & Hp'); try done; try lia.
    + destruct Hpat as [Hpt Hap]. split; [|lia]. eapply str_at_ext; [done|]. intros x Hx. apply Hm. lia.
    + exists s', e'. split; [rewrite Hr'; f_equal; lia|]. split.
      * pose proof (tail_from_suffix d) as [pre Hd]. apply (f_equal length) in Hd. rewrite length_app in Hd.
        intros x Hx. rewrite Hm' by lia. apply Hm. lia.
      * apply (progress_trans s s1 s' e e1 e' [l]); [|done]. by split.
Qed.

(** ** The whole input *)

Context (Hbuf : 0 < buf).
Context (Hcontent : Forall (λ c, 0 < c < 256) content).

(** [part] is at the start of the buffer when a round begins. *)
Record at_round (s : ustate) (part : list Z) : Prop := {
  ar_ok : mem_ok (us_mem s);
  ar_part : ldn (us_mem s) buf (length part) = part;
  ar_chars : Forall (λ c, c ≠ 0) part;
  ar_no_nl : 10 ∉ part;
  ar_len : (length part <= 1023)%nat;
  ar_pat : pattern_apart (us_mem s) buf (buf + 1024);
}.

Lemma nonzero_chars l : Forall (λ c, 0 < c < 256) l → Forall (λ c, c ≠ 0) l.
Proof. intros H. eapply Forall_impl; [exact H|]. simpl. lia. Qed.

(** The buffer after a [read] of [chunk] and the NUL. *)
Lemma buffer_filled s m1 part chunk :
  at_round s part → Forall (λ c, 0 < c < 256) chunk → (length part + length chunk <= 1023)%nat →
  m1 = st8 (stn (us_mem s) (buf + Z.of_nat (length part)) chunk) (buf + Z.of_nat (length part) + Z.of_nat (length chunk)) 0 →
  mem_ok m1 ∧ str_at m1 buf (part ++ chunk) ∧ pattern_apart m1 buf (buf + 1024).
Proof.
  intros [H1 H2 H3 H4 H5 H6] Hc Hlen ->. set (b := buf + Z.of_nat (length part)).
  split; [by apply st8_ok, stn_ok|]. split.
  - split; [|split; [by apply Forall_app; split; [|apply nonzero_chars]|]].
    + rewrite length_app, ldn_app. fold b. f_equal.
      * rewrite <- H2 at 2. apply ldn_ext. intros x Hx. rewrite ld8_st8, decide_False by lia. apply ld8_stn_ne. lia.
      * etransitivity; [|apply (ldn_stn_eq (us_mem s) b chunk)].
        -- apply ldn_ext. intros x Hx. by rewrite ld8_st8, decide_False by lia.
        -- eapply Forall_impl; [exact Hc|]. simpl. lia.
    + rewrite length_app, ld8_st8, decide_True; [done|lia].
  - eapply pattern_ext; [done|]. intros x Hx. rewrite ld8_st8, decide_False by lia. apply ld8_stn_ne. lia.
Qed.

(** Moving the unfinished line to the front. *)
Lemma buffer_moved s1 s2 data p :
  mem_ok (us_mem s1) → str_at (us_mem s1) buf data → (length data <= 1023)%nat →
  pattern_apart (us_mem s1) buf (buf + 1024) →
  p = buf + Z.of_nat (length data) - Z.of_nat (length (tail_from [] data)) →
  mem_ok (us_mem s2) → (∀ x, x < buf ∨ p <= x → ld8 (us_mem s2) x = ld8 (us_mem s1) x) →
  at_round (s2 <| us_mem ::= λ m, memmove m buf p (Z.of_nat (length (tail_from [] data))) |>) (tail_from [] data).
Proof.
  intros H1 H2 H3 H4 -> H5 H6. set (tl := tail_from [] data) in *. destruct (tail_from_suffix data) as [pre Hd].
  fold tl in Hd. assert (length data = length pre + length tl)%nat as Hl by (rewrite Hd at 1; apply length_app).
  split; simpl.
  - unfold memmove. destruct (_ >? _); [by apply copy_forward_ok|by apply copy_backward_ok].
  - rewrite Hd in H2. apply str_at_app in H2. destruct H2 as (E & _ & _).
    transitivity (ldn (us_mem s1) (buf + Z.of_nat (length pre)) (length tl)); [|exact E].
    apply list_eq. intros i. destruct (decide (i < length tl)%nat) as [Hi|Hi].
    + rewrite !lookup_ldn by done. f_equal. rewrite ld8_umemmove, decide_True by (done || lia).
      rewrite H6 by lia. f_equal. lia.
    + by rewrite !lookup_ge_None_2 by (rewrite length_ldn; lia).
  - rewrite Hd in H2. destruct H2 as (_ & F & _). by apply Forall_app in F as [_ F].
  - apply tail_from_no_nl.
  - lia.
  - eapply pattern_ext; [done|]. intros x Hx. rewrite ld8_umemmove, decide_False by (done || lia). apply H6. lia.
Qed.

Lemma grep_round_ok s part chunk e e1 s1 :
  at_round s part →
  let rest := drop (bytes_read fd (us_trace s)) content in
  read fd (buf + Z.of_nat (length part)) (1023 - Z.of_nat (length part)) s e = Ok (Z.of_nat (length chunk)) s1 e1 →
  us_mem s1 = stn (us_mem s) (buf + Z.of_nat (length part)) chunk → chunk ≠ [] →
  Forall (λ c, 0 < c < 256) chunk → (length part + length chunk <= 1023)%nat →
  Forall (file_answer fd content) e1 → (length (lines_from part chunk) <= length e1)%nat →
  ∃ s2 e2, grep_round buf pat fd (Z.of_nat (length part)) s e = Ok (inl (Z.of_nat (length (tail_from part chunk)))) s2 e2 ∧
    at_round s2 (tail_from part chunk) ∧ progress s1 s2 e1 e2 (lines_from part chunk).
Proof.
  intros Hat rest Hrd Hm1 Hne Hc Hlen Hf He.
  assert (lines_from [] (part ++ chunk) = lines_from part chunk ∧ tail_from [] (part ++ chunk) = tail_from part chunk)
    as [El Et].
  { assert (∀ cur, lines_from cur (part ++ chunk) = lines_from (cur ++ part) chunk ∧
      tail_from cur (part ++ chunk) = tail_from (cur ++ part) chunk) as G; [|apply (G [])].
    pose proof (ar_no_nl _ _ Hat) as Hnl. clear -Hnl. induction part as [|c part IH]; intros cur; [by rewrite app_nil_r|].
    apply not_elem_of_cons in Hnl as [Hc Hnl]. cbn [app lines_from tail_from]. rewrite (proj2 (Z.eqb_neq c 10)) by done.
    replace (cur ++ c :: part) with ((cur ++ [c]) ++ part) by (by rewrite <- app_assoc). by apply IH. }
  set (mm := Z.of_nat (length part) + Z.of_nat (length chunk)).
  set (s1' := s1 <| us_mem ::= λ m, st8 m (buf + mm) 0 |>).
  destruct (buffer_filled s (us_mem s1') part chunk) as (K1 & K2 & K3); try done.
  { unfold s1', mm. simpl. rewrite Hm1. f_equal. lia. }
  assert (0 < length chunk)%nat as Hpos by (destruct chunk; [done|simpl; lia]).
  destruct (grep_lines_ok (str_fuel (us_mem s1')) buf (part ++ chunk) s1' e1) as (s2 & e2 & Hr & Hmem & Hp);
    rewrite ?El in *; try done.
  { destruct K3 as [? ?]. split; [done|]. rewrite length_app. lia. }
  { apply str_at_fuel in K2. eapply Nat.le_lt_trans; [|exact K2]. rewrite <- El. clear.
    generalize (part ++ chunk). intros d. generalize (@nil Z). induction d as [|c d IH]; intros cur; [done|].
    cbn [lines_from length]. destruct (c =? 10); [simpl; specialize (IH []); lia|]. etransitivity; [apply IH|lia]. }
  rewrite Et in *. set (p := buf + _ - _) in *.
  eexists _, e2. split.
  - unfold grep_round. change (i32 (u64 (sizeof_buf - Z.of_nat (length part) - 1))) with
      (i32 (u64 (1024 - Z.of_nat (length part) - 1))).
    replace (i32 (u64 (1024 - Z.of_nat (length part) - 1))) with (1023 - Z.of_nat (length part)) by mach.
    erewrite bind_Ok by exact Hrd. rewrite (proj2 (Z.leb_gt _ _)) by lia.
    unfold ust8, upd_mem. rewrite bind_modify. fold mm. fold s1'. unfold grep_lines. rewrite bind_assoc, bind_gets.
    erewrite bind_Ok by exact Hr. cbv beta iota zeta.
    rewrite (proj2 (Z.gtb_gt mm 0)) by (unfold mm; lia). rewrite bind_modify.
    replace (mm - (p - buf)) with (Z.of_nat (length (tail_from part chunk))); [reflexivity|].
    unfold p, mm. rewrite length_app. lia.
  - destruct Hp as [P1 P2 P3 P4 P5]. apply and_wlog_r; [|intros Hat2; split; [intros _; apply Hat2|done..]].
    rewrite <- Et. eapply (buffer_moved s1' s2 (part ++ chunk)); try done; [rewrite length_app; lia|by rewrite Et|by apply P1].
Qed.

Lemma grep_loop_ok fuel part s e :
  at_round s part → Forall (file_answer fd content) e →
  let rest := drop (bytes_read fd (us_trace s)) content in
  Forall (λ l, (length l < 1023)%nat) (lines_from part rest) →
  (length rest + length (lines_from part rest) < length e)%nat → (length rest < fuel)%nat →
  ∃ s' e', loop fuel (grep_round buf pat fd) (Z.of_nat (length part)) s e = Ok tt s' e' ∧
    outputs 1 (us_trace s') = outputs 1 (us_trace s) ++ selected re (lines_from part rest).
Proof.
  revert part s e. induction fuel as [|fuel IH]; intros part s e Hat Hf rest Hl He Hfuel; [lia|].
  destruct e as [|f e]; [simpl in He; lia|]. apply Forall_cons in Hf as [Hf1 Hf].
  pose proof (ar_len _ _ Hat) as Hpl.
  destruct (read_step (buf + Z.of_nat (length part)) (1023 - Z.of_nat (length part)) s f e) as
    (k & s1 & Hrd & Hm & Hb & Ho & Hk1 & Hk2 & Hk3); [done|lia|]. fold rest in Hm, Hk1, Hk3. cbn [loop].
  destruct (decide (k = 0%nat)) as [->|Hk].
  - assert (lines_from part rest = []) as ->.
    { destruct (Hk3 eq_refl) as [Hz| ->]; [|done]. eapply lines_from_long; [done|lia]. }
    exists s1, e. split.
    + erewrite bind_Ok; [|unfold grep_round].
      2:{ replace (i32 _) with (1023 - Z.of_nat (length part)) by (unfold sizeof_buf; mach).
          erewrite bind_Ok by exact Hrd. reflexivity. }
      done.
    + by rewrite Ho, app_nil_r.
  - assert (length (take k rest) = k) as Hlen by (rewrite length_take; lia).
    assert (lines_from part rest = lines_from part (take k rest) ++ lines_from (tail_from part (take k rest)) (drop k rest)) as Eapp
      by (by rewrite <- lines_from_app, take_drop).
    rewrite Eapp in Hl, He |- *. apply Forall_app in Hl as [_ Hl]. rewrite length_app in He. cbn [length] in He.
    destruct (grep_round_ok s part (take k rest) (f :: e) e s1) as (s2 & e2 & Hr & Hat2 & [P1 P2 P3 P4 P5]);
      try done; rewrite ?Hlen in *; try done; try lia.
    { intros E. rewrite E in Hlen. simpl in Hlen. lia. }
    { apply Forall_take, Forall_drop, Hcontent. }
    rewrite (bind_Ok _ _ _ _ _ _ _ Hr).
    assert (drop (bytes_read fd (us_trace s2)) content = drop k rest) as Erest.
    { rewrite P2, Hb. unfold rest. by rewrite drop_drop. }
    destruct (IH (tail_from part (take k rest)) s2 e2) as (s' & e' & Hr' & Ho'); try done.
    { by rewrite Erest. }
    { rewrite Erest, length_drop. lia. }
    { rewrite Erest, length_drop. lia. }
    exists s', e'. split; [exact Hr'|]. by rewrite Ho', P3, Ho, Erest, selected_app, app_assoc.
Qed.

End spec.

(** C35: [grep] prints the matching lines.  Let [fd] be a file whose contents the
    kernel delivers in pieces of any size, with no NUL and no line longer than
    1022 characters.  Then [grep] returns, and what it writes to standard output
    is exactly the complete lines in which the pattern occurs, each with its
    newline, one [write] per line and in the order of the file. *)
Theorem grep_filters (buf fd pat : Z) (content re : list Z) (s : ustate) (e : list (ustate → ustate)) :
  0 < buf → mem_ok (us_mem s) → str_at (us_mem s) pat re →
  pat + Z.of_nat (length re) < buf ∨ buf + 1024 <= pat →
  Forall (λ c, 0 < c < 256) content → Forall (λ l, (length l < 1023)%nat) (lines_from [] content) →
  bytes_read fd (us_trace s) = 0%nat → Forall (file_answer fd content) e →
  (length content + length (lines_from [] content) < length e)%nat →
  ∃ s' e', grep buf pat fd s e = Ok tt s' e' ∧
    outputs 1 (us_trace s') = outputs 1 (us_trace s) ++
      ((λ l, l ++ [10]) <$> filter (λ l, match_ re l = true) (lines_from [] content)).
Proof.
  intros Hbuf Hm Hpat Hd Hc Hl Hb Hf He. unfold grep, loop_wait.
  destruct (grep_loop_ok buf fd pat content re Hbuf Hc (S (0 + length e)) [] s e) as (s' & e' & Hr & Ho);
    rewrite ?Hb, ?drop_0; try done; [|lia|].
  - split; try done; [set_solver|simpl; lia].
  - exists s', e'. split; [exact Hr|]. by rewrite Ho, Hb, drop_0.
Qed.

(** Three lines and a rest, read four bytes at a time. *)
Definition grep_input : list Z := bytes_of "abc" ++ [10] ++ bytes_of "xyz" ++ [10] ++ bytes_of "xbbz" ++ [10] ++ bytes_of "b".
Definition grep_demo : ustate := mk_ustate (stn ∅ 100 (bytes_of "xb*z$" ++ [0])) CFork 0 [].

Lemma grep_filters_witness :
  ∃ s' e', grep 4096 100 3 grep_demo (replicate 40 (serve 3 grep_input 4)) = Ok tt s' e' ∧
    outputs 1 (us_trace s') = [bytes_of "xbbz" ++ [10]].
Proof.
  apply (grep_filters 4096 3 100 grep_input (bytes_of "xb*z$") grep_demo (replicate 40 (serve 3 grep_input 4)));
    [lia| | | | | |reflexivity| |].
  - apply stn_ok. apply map_Forall_empty.
  - split; [reflexivity|]. split; [|reflexivity]. repeat constructor; discriminate.
  - left. simpl. lia.
  - repeat constructor; vm_compute; done.
  - vm_compute. repeat constructor.
  - apply Forall_replicate. apply serve_answer. lia.
  - vm_compute. lia.
Defined.
