(* ===== verification/Commands.v ===== *)
(** The small user programs: user/cat.c, echo.c, wc.c, kill.c, ln.c, rm.c,
    mkdir.c, ls.c, init.c and zombie.c.

    A program takes [argc] and the address [argv] of its argument vector; the
    addresses of its static buffers, and of the variables whose address is taken,
    are parameters.  [loop_wait] bounds loops each round of which makes a system
    call by the answers that are left. *)

From S2P Require Export Uprintf.

(** [argv[i]] *)
Definition arg_at (argv : Z) (i : nat) : U Z := uld64 (argv + 8 * Z.of_nat i).
(** The string [argv[i]], as [printf] sees it. *)
Definition arg_str (a : Z) : U varg := gets (λ s, VStr (cstring (us_mem s) a)).

(** [for(i = 1; i < argc; i++) body(argv[i])] *)
Definition each_arg (argc argv : Z) (body : nat → Z → U unit) : U unit :=
  for_each (Z.to_nat (argc - 1)) 1 (λ i, a ← arg_at argv i; body i a).

(** ** cat *)

Section cat.
Context (buf : Z).

Definition cat_round (fd : Z) : U (unit + Z) :=
  n ← read fd buf 512;
  if n <=? 0 then mret (inr n) else
  r ← write 1 buf n;
  if negb (r =? n) then
    fprintf 2 ("cat: write error" +:+ nl) [];;
    exit 1
  else mret (inl ()).

Definition cat (fd : Z) : U unit :=
  n ← loop_wait 0 (λ _, cat_round fd) ();
  if n <? 0 then
    fprintf 2 ("cat: read error" +:+ nl) [];;
    exit 1
  else mret ().

Definition cat_main (argc argv : Z) : U Z :=
  if argc <=? 1 then cat 0;; exit 0 else
  each_arg argc argv (λ _ a,
    fd ← open a O_RDONLY;
    if fd <? 0 then
      v ← arg_str a;
      fprintf 2 ("cat: cannot open %s" +:+ nl) [v];;
      exit 1
    else
      cat fd;;
      close fd;;
      mret ());;
  exit 0.
End cat.

(** ** echo *)

Definition echo_main (argc argv : Z) : U Z :=
  each_arg argc argv (λ i a,
    m ← gets us_mem;
    write 1 a (strlen m a);;
    (if Z.of_nat i + 1 <? argc then write_lit 1 " " else write_lit 1 nl);;
    mret ());;
  exit 0.

(** ** wc *)

(** [l], [w], [c] and [inword] *)
Record counts := mk_counts { wc_l : Z; wc_w : Z; wc_c : Z; wc_inword : bool }.
#[global] Instance eta_counts : Eta counts := λ s, mk_counts (wc_l s) (wc_w s) (wc_c s) (wc_inword s).

(** [" \r\t\n\v"] *)
Definition wc_blanks : list Z := [32; 13; 9; 10; 11].

(** The body of the inner loop. *)
Definition wc_char (s : counts) (c : Z) : counts :=
  let s := s <| wc_c ::= λ n, i32 (n + 1) |> in
  let s := if c =? 10 then s <| wc_l ::= λ n, i32 (n + 1) |> else s in
  if in_lit wc_blanks c then s <| wc_inword := false |>
  else if negb (wc_inword s) then s <| wc_w ::= λ n, i32 (n + 1) |> <| wc_inword := true |>
  else s.

Section wc.
Context (buf : Z).

Definition wc_round (fd : Z) (s : counts) : U (counts + counts * Z) :=
  n ← read fd buf 512;
  if n <=? 0 then mret (inr (s, n)) else
  m ← gets us_mem;
  mret (inl (foldl wc_char s (ldn m buf (Z.to_nat n)))).

(** [name] is looked at when it is printed. *)
Definition wc (fd : Z) (name : U varg) : U unit :=
  '(s, n) ← loop_wait 0 (wc_round fd) (mk_counts 0 0 0 false);
  if n <? 0 then
    uprintf ("wc: read error" +:+ nl) [];;
    exit 1
  else
    v ← name;
    uprintf ("%d %d %d %s" +:+ nl) [VWord (wc_l s); VWord (wc_w s); VWord (wc_c s); v].

Definition wc_main (argc argv : Z) : U Z :=
  if argc <=? 1 then wc 0 (mret (VStr []));; exit 0 else
  each_arg argc argv (λ _ a,
    fd ← open a O_RDONLY;
    if fd <? 0 then
      v ← arg_str a;
      uprintf ("wc: cannot open %s" +:+ nl) [v];;
      exit 1
    else
      wc fd (arg_str a);;
      close fd;;
      mret ());;
  exit 0.
End wc.

(** ** kill, ln, rm, mkdir *)

Definition kill_main (argc argv : Z) : U Z :=
  if argc <? 2 then
    fprintf 2 ("usage: kill pid..." +:+ nl) [];;
    exit 1
  else
  each_arg argc argv (λ _ a, m ← gets us_mem; kill (atoi m a);; mret ());;
  exit 0.

Definition ln_main (argc argv : Z) : U Z :=
  if negb (argc =? 3) then
    fprintf 2 ("Usage: ln old new" +:+ nl) [];;
    exit 1
  else
  old ← arg_at argv 1;
  new ← arg_at argv 2;
  r ← link old new;
  when (r <? 0) (
    v1 ← arg_str old;
    v2 ← arg_str new;
    fprintf 2 ("link %s %s: failed" +:+ nl) [v1; v2]);;
  exit 0.

(** [for(i = 1; i < argc; i++) if(f(argv[i]) < 0){ fprintf(2, msg, argv[i]); break; }] *)
Definition until_fails (argc argv : Z) (f : Z → U Z) (msg : string) : U unit :=
  for_break (Z.to_nat (argc - 1)) 1 (λ i,
    a ← arg_at argv i;
    r ← f a;
    if r <? 0 then
      v ← arg_str a;
      fprintf 2 msg [v];;
      mret (Some ())
    else mret None);;
  mret ().

Definition rm_main (argc argv : Z) : U Z :=
  if argc <? 2 then
    fprintf 2 ("Usage: rm files..." +:+ nl) [];;
    exit 1
  else
  until_fails argc argv unlink ("rm: %s failed to delete" +:+ nl);;
  exit 0.

Definition mkdir_main (argc argv : Z) : U Z :=
  if argc <? 2 then
    fprintf 2 ("Usage: mkdir files..." +:+ nl) [];;
    exit 1
  else
  until_fails argc argv mkdir ("mkdir: %s failed to create" +:+ nl);;
  exit 0.

(** ** ls *)

(** The fields of the [struct stat] at [st]. *)
Definition stat_type (m : memory) (st : Z) : Z := i16 (le_val (ldn m (st + 8) 2)).
Definition stat_ino (m : memory) (st : Z) : Z := ld32 m (st + 4).
Definition stat_size (m : memory) (st : Z) : Z := ld64 m (st + 16).

Section ls.
Context `{UserStack}.
(** The static buffer of [fmtname]. *)
Context (fmtbuf : Z).

(** [for(p=path+strlen(path); p >= path && *p != '/'; p--)], from [path + n] *)
Fixpoint last_slash (m : memory) (path : Z) (n : nat) : Z :=
  let p := path + Z.of_nat n in
  if ld8 m p =? ch "/" then p else
  match n with O => path - 1 | S n' => last_slash m path n' end.

Definition fmtname (path : Z) : U Z :=
  m ← gets us_mem;
  let p := last_slash m path (Z.to_nat (strlen m path)) + 1 in
  if DIRSIZ <=? strlen m p then mret p else
  upd_mem (λ m, memmove m fmtbuf p (strlen m p));;
  upd_mem (λ m, memset m (fmtbuf + strlen m p) (ch " ") (DIRSIZ - strlen m p));;
  ust8 (fmtbuf + DIRSIZ) 0;;
  mret fmtbuf.

(** [printf("%s %d %d %d\n", fmtname(path), st.type, st.ino, (int) st.size)] *)
Definition ls_print (path : Z) : U unit :=
  p ← fmtname path;
  v ← arg_str p;
  m ← gets us_mem;
  uprintf ("%s %d %d %d" +:+ nl)
    [v; VWord (stat_type m var_st); VWord (stat_ino m var_st); VWord (i32 (stat_size m var_st))].

(** [sizeof(struct dirent)] *)
Definition sizeof_de : Z := 16.

(** [while(read(fd, &de, sizeof(de)) == sizeof(de))] *)
Definition ls_entry (fd p : Z) : U (unit + unit) :=
  n ← read fd var_de sizeof_de;
  if negb (n =? sizeof_de) then mret (inr ()) else
  m ← gets us_mem;
  if le_val (ldn m var_de 2) =? 0 then mret (inl ()) else
  upd_mem (λ m, memmove m p (var_de + 2) DIRSIZ);;
  ust8 (p + DIRSIZ) 0;;
  r ← stat_ var_buf var_st;
  if r <? 0 then
    v ← arg_str var_buf;
    uprintf ("ls: cannot stat %s" +:+ nl) [v];;
    mret (inl ())
  else
    ls_print var_buf;;
    mret (inl ()).

Definition ls (path : Z) : U unit :=
  fd ← open path O_RDONLY;
  if fd <? 0 then
    v ← arg_str path;
    fprintf 2 ("ls: cannot open %s" +:+ nl) [v]
  else
  r ← fstat fd var_st;
  if r <? 0 then
    v ← arg_str path;
    fprintf 2 ("ls: cannot stat %s" +:+ nl) [v];;
    close fd;;
    mret ()
  else
  m ← gets us_mem;
  let type := stat_type m var_st in
  (if (type =? T_DEVICE) || (type =? T_FILE) then ls_print path
   else if type =? T_DIR then
     if 512 <? strlen m path + 1 + DIRSIZ + 1 then uprintf ("ls: path too long" +:+ nl) [] else
     strcpy var_buf path;;
     m ← gets us_mem;
     let p := var_buf + strlen m var_buf in
     ust8 p (ch "/");;
     loop_wait 0 (λ _, ls_entry fd (p + 1)) ()
   else mret ());;
  close fd;;
  mret ().

(** [dot] is the address of the literal ["."]. *)
Definition ls_main (dot argc argv : Z) : U Z :=
  if argc <? 2 then ls dot;; exit 0 else
  each_arg argc argv (λ _ a, ls a);;
  exit 0.
End ls.

(** ** init *)

(** The major number of the console. *)
Definition CONSOLE : Z := 1.

(** The loop around [wait]. *)
Definition init_wait (pid : Z) : U (unit + unit) :=
  wpid ← wait 0;
  if wpid =? pid then mret (inr ()) else
  if wpid <? 0 then
    uprintf ("init: wait returned an error" +:+ nl) [];;
    exit 1
  else mret (inl ()).

Definition init_round : U (unit + Z) :=
  uprintf ("init: starting sh" +:+ nl) [];;
  pid ← fork;
  if pid <? 0 then
    uprintf ("init: fork failed" +:+ nl) [];;
    exit 1
  else if pid =? 0 then
    ecall_int (CExec (bytes_of "sh") [bytes_of "sh"]);;
    uprintf ("init: exec sh failed" +:+ nl) [];;
    exit 1
  else
    loop_wait 0 (λ _, init_wait pid) ();;
    mret (inl ()).

Definition init_main : U Z :=
  r ← open_lit "console" O_RDWR;
  when (r <? 0) (
    ecall_int (CMknod (bytes_of "console") CONSOLE 0);;
    open_lit "console" O_RDWR;;
    mret ());;
  dup 0;;
  dup 0;;
  loop_wait 0 (λ _, init_round) ().

(** ** zombie *)

Definition zombie_main : U Z :=
  r ← fork;
  when (0 <? r) (pause 5;; mret ());;
  exit 0.
