(* ===== verification/Stress.v ===== *)
(** The programs that exercise the kernel: user/forktest.c, dorphan.c, forphan.c,
    logstress.c, stressfs.c and grind.c. *)

From S2P Require Export Commands.

(** ** forktest *)

Definition forktest_N : Z := 1000.

(** [print] of a string literal. *)
Definition print (lit : string) : U unit := write_lit 1 lit;; mret ().

(** [for(n=0; n<N; n++)]: the number of children. *)
Definition forktest_fork (n : Z) : U (Z + Z) :=
  if negb (n <? forktest_N) then mret (inr n) else
  pid ← fork;
  if pid <? 0 then mret (inr n) else
  if pid =? 0 then exit 0 else mret (inl (n + 1)).

(** [for(; n > 0; n--)] *)
Definition forktest_wait (n : Z) : U (Z + unit) :=
  if negb (0 <? n) then mret (inr ()) else
  r ← wait 0;
  if r <? 0 then
    print ("wait stopped early" +:+ nl);;
    exit 1
  else mret (inl (n - 1)).

Definition forktest : U unit :=
  print ("fork test" +:+ nl);;
  n ← loop (S (Z.to_nat forktest_N)) forktest_fork 0;
  (if n =? forktest_N then
     print ("fork claimed to work N times!" +:+ nl);;
     exit 1
   else mret ());;
  loop (S (Z.to_nat forktest_N)) forktest_wait n;;
  r ← wait 0;
  (if negb (r =? -1) then
     print ("wait got too many" +:+ nl);;
     exit 1
   else mret ());;
  print ("fork test OK" +:+ nl).

Definition forktest_main : U Z := forktest;; exit 0.

(** ** dorphan and forphan *)

(** [for(;;) pause(1000)] *)
Definition sit_around : U Z := loop_wait 0 (λ _ : unit, pause 1000;; mret (inl ())) ().

(** [printf(msg, argv[0]); exit(1)] *)
Definition complain (argv : Z) (msg : string) : U unit :=
  a ← arg_at argv 0;
  v ← arg_str a;
  uprintf msg [v];;
  exit 1.

Definition dorphan_main (argc argv : Z) : U Z :=
  r ← ecall_int (CMkdir (bytes_of "dd"));
  when (negb (r =? 0)) (complain argv ("%s: mkdir dd failed" +:+ nl));;
  r ← ecall_int (CChdir (bytes_of "dd"));
  when (negb (r =? 0)) (complain argv ("%s: chdir dd failed" +:+ nl));;
  r ← ecall_int (CUnlink (bytes_of "../dd"));
  when (r <? 0) (complain argv ("%s: unlink failed" +:+ nl));;
  uprintf ("wait for kill and reclaim" +:+ nl) [];;
  sit_around.

Section forphan.
Context `{UserStack}.

Definition forphan_main (argc argv : Z) : U Z :=
  fd ← open_lit "file0" (Z.lor O_CREATE O_WRONLY);
  when (fd <? 0) (complain argv ("%s: open failed" +:+ nl));;
  r ← fstat fd var_st;
  when (r <? 0) (
    a ← arg_at argv 0;
    v ← arg_str a;
    fprintf 2 ("%s: cannot stat %s" +:+ nl) [v; VStr (bytes_of "ff")];;
    exit 1);;
  r ← ecall_int (CUnlink (bytes_of "file0"));
  when (r <? 0) (complain argv ("%s: unlink failed" +:+ nl));;
  r ← open_lit "file0" O_RDONLY;
  when (negb (r =? -1)) (complain argv ("%s: open successed" +:+ nl));;
  m ← gets us_mem;
  uprintf ("wait for kill and reclaim %d" +:+ nl) [VWord (stat_ino m var_st)];;
  sit_around.
End forphan.

(** ** logstress *)

Section logstress.
(** The addresses of [buf], which has [BUFSZ] bytes, and of [xstatus]. *)
Context (buf xstatus : Z).

Definition BUFSZ : Z := 500.
Definition logstress_N : nat := 250.
Definition SZ : Z := 2000.

(** The child for file [i]. *)
Definition logstress_child (argv : Z) (i : nat) : U unit :=
  a ← arg_at argv i;
  fd ← open a (Z.lor O_CREATE O_RDWR);
  (if fd <? 0 then
     a0 ← arg_at argv 0;
     v0 ← arg_str a0;
     v ← arg_str a;
     uprintf ("%s: create %s failed" +:+ nl) [v0; v];;
     exit 1
   else mret ());;
  upd_mem (λ m, memset m buf (ch "0" + Z.of_nat i) SZ);;
  for_each logstress_N 0 (λ _,
    n ← write fd buf SZ;
    when (negb (n =? SZ)) (
      uprintf ("write failed %d" +:+ nl) [VWord n];;
      exit 1));;
  exit 0.

Definition logstress_main (argc argv : Z) : U Z :=
  for_each (Z.to_nat (argc - 1)) 1 (λ i,
    pid1 ← fork;
    when (pid1 <? 0) (complain argv ("%s: fork failed" +:+ nl));;
    when (pid1 =? 0) (logstress_child argv i));;
  for_each (Z.to_nat (argc - 1)) 1 (λ _,
    wait xstatus;;
    m ← gets us_mem;
    let st := i32 (ld32 m xstatus) in
    when (negb (st =? 0)) (exit st));;
  mret 0.
End logstress.

(** ** stressfs *)

Section stressfs.
(** The addresses of [path] and [data]. *)
Context (path data : Z).

(** [for(i = 0; i < 4; i++) if(fork() > 0) break;] *)
Definition stressfs_forks (i : Z) : U (Z + Z) :=
  if negb (i <? 4) then mret (inr i) else
  pid ← fork;
  if 0 <? pid then mret (inr i) else mret (inl (i + 1)).

Definition stressfs_main : U Z :=
  upd_mem (λ m, stn m path (bytes_of "stressfs0" ++ [0]));;
  uprintf ("stressfs starting" +:+ nl) [];;
  upd_mem (λ m, memset m data (ch "a") 512);;
  i ← loop 5 stressfs_forks 0;
  uprintf ("write %d" +:+ nl) [VWord i];;
  upd_mem (λ m, st8 m (path + 8) (ld8 m (path + 8) + i));;
  fd ← open path (Z.lor O_CREATE O_RDWR);
  for_each 20 0 (λ _, write fd data 512;; mret ());;
  close fd;;
  uprintf ("read" +:+ nl) [];;
  fd ← open path O_RDONLY;
  for_each 20 0 (λ _, read fd data 512;; mret ());;
  close fd;;
  wait 0;;
  exit 0.
End stressfs.


(** ** grind *)

(** *** The generator *)

(** [do_rand]: the new value of [*ctx] and the result; [ctx] is an unsigned long,
    [hi], [lo] and [x] are longs. *)
Definition do_rand (ctx : Z) : Z * Z :=
  let x := ctx mod 0x7ffffffe + 1 in
  let hi := x / 127773 in
  let lo := x mod 127773 in
  let x := i64 (16807 * lo - 2836 * hi) in
  let x := if x <? 0 then i64 (x + 0x7fffffff) else x in
  let x := i64 (x - 1) in
  (u64 x, i32 x).

(** *** The calls *)

Section grind.
Context `{UserStack}.
(** The addresses of [rand_next], of the static [buf] of [go], and of the local
    variables [fds], [aa], [bb], [c], [buf], [st1] and [st2]. *)
Context (rand_next buf fds aa bb c buf4 st1 st2 : Z).

Definition rand : U Z :=
  x ← uld64 rand_next;
  let '(x, r) := do_rand x in
  ust64 rand_next x;;
  mret r.

Definition mkdir_ (path : string) : U Z := ecall_int (CMkdir (bytes_of path)).
Definition chdir_ (path : string) : U Z := ecall_int (CChdir (bytes_of path)).
Definition unlink_ (path : string) : U Z := ecall_int (CUnlink (bytes_of path)).
Definition link_ (old new : string) : U Z := ecall_int (CLink (bytes_of old) (bytes_of new)).
(** [open(path, O_CREATE|O_RDWR)] *)
Definition create_ (path : string) : U Z := open_lit path (Z.lor O_CREATE O_RDWR).

(** [printf(msg); exit(1)], under a condition. *)
Definition fatal (b : bool) (msg : string) : U unit :=
  if b then uprintf (msg +:+ nl) [];; exit 1 else mret ().
(** The same to the standard error, with a status. *)
Definition efatal (b : bool) (msg : string) (status : Z) : U unit :=
  if b then fprintf 2 (msg +:+ nl) [];; exit status else mret ().

(** [pid = fork(); if(pid == 0){ child } else if(pid < 0){ ... exit(1); }] *)
Definition fork_child (child : U unit) : U Z :=
  pid ← fork;
  (if pid =? 0 then child else fatal (pid <? 0) "grind: fork failed");;
  mret pid.

(** An element of an array of descriptors. *)
Definition fd_of (a : Z) (i : Z) : U Z := x ← uld32 (a + 4 * i); mret (i32 x).

(** [what == 21] *)
Definition grind_file : U unit :=
  unlink_ "c";;
  fd1 ← create_ "c";
  fatal (fd1 <? 0) "grind: create c failed";;
  r ← write_lit fd1 "x";
  fatal (negb (r =? 1)) "grind: write c failed";;
  r ← fstat fd1 var_st;
  fatal (negb (r =? 0)) "grind: fstat failed";;
  m ← gets us_mem;
  (if negb (stat_size m var_st =? 1) then
     uprintf ("grind: fstat reports wrong size %d" +:+ nl) [VWord (i32 (stat_size m var_st))];;
     exit 1
   else mret ());;
  (if 200 <? stat_ino m var_st then
     uprintf ("grind: fstat reports crazy i-number %d" +:+ nl) [VWord (stat_ino m var_st)];;
     exit 1
   else mret ());;
  close fd1;;
  unlink_ "c";;
  mret ().

(** [what == 19] *)
Definition grind_pipe : U unit :=
  r ← pipe fds;
  fatal (r <? 0) "grind: pipe failed";;
  fork_child (
    fork;;
    fork;;
    w ← fd_of fds 1;
    r ← write_lit w "x";
    when (negb (r =? 1)) (uprintf ("grind: pipe write failed" +:+ nl) []);;
    rd ← fd_of fds 0;
    r ← read rd c 1;
    when (negb (r =? 1)) (uprintf ("grind: pipe read failed" +:+ nl) []);;
    exit 0);;
  x ← fd_of fds 0;
  close x;;
  x ← fd_of fds 1;
  close x;;
  wait 0;;
  mret ().

(** [close(a[i])] *)
Definition close_fd (a i : Z) : U unit := x ← fd_of a i; close x;; mret ().

(** The children of [what == 22]: [echo hi] and [cat]. *)
Definition grind_echo : U unit :=
  close_fd bb 0;;
  close_fd bb 1;;
  close_fd aa 0;;
  close 1;;
  x ← fd_of aa 1;
  r ← dup x;
  efatal (negb (r =? 1)) "grind: dup failed" 1;;
  close_fd aa 1;;
  ecall_int (CExec (bytes_of "grindir/../echo") [bytes_of "echo"; bytes_of "hi"]);;
  efatal true "grind: echo: not found" 2.

Definition grind_cat : U unit :=
  close_fd aa 1;;
  close_fd bb 0;;
  close 0;;
  x ← fd_of aa 0;
  r ← dup x;
  efatal (negb (r =? 0)) "grind: dup failed" 4;;
  close_fd aa 0;;
  close 1;;
  x ← fd_of bb 1;
  r ← dup x;
  efatal (negb (r =? 1)) "grind: dup failed" 5;;
  close_fd bb 1;;
  ecall_int (CExec (bytes_of "/cat") [bytes_of "cat"]);;
  efatal true "grind: cat: not found" 6.

(** [what == 22]: [echo hi | cat] *)
Definition grind_pipeline : U unit :=
  r ← pipe aa;
  efatal (r <? 0) "grind: pipe failed" 1;;
  r ← pipe bb;
  efatal (r <? 0) "grind: pipe failed" 1;;
  pid1 ← fork;
  (if pid1 =? 0 then grind_echo else efatal (pid1 <? 0) "grind: fork failed" 3);;
  pid2 ← fork;
  (if pid2 =? 0 then grind_cat else efatal (pid2 <? 0) "grind: fork failed" 7);;
  close_fd aa 0;;
  close_fd aa 1;;
  close_fd bb 1;;
  upd_mem (λ m, stn m buf4 [0; 0; 0; 0]);;
  x ← fd_of bb 0;
  read x (buf4 + 0) 1;;
  x ← fd_of bb 0;
  read x (buf4 + 1) 1;;
  x ← fd_of bb 0;
  read x (buf4 + 2) 1;;
  close_fd bb 0;;
  wait st1;;
  wait st2;;
  m ← gets us_mem;
  let v1 := i32 (ld32 m st1) in
  let v2 := i32 (ld32 m st2) in
  let b := cstring m buf4 in
  if negb (v1 =? 0) || negb (v2 =? 0) || negb (bool_decide (b = bytes_of "hi" ++ [10])) then
    uprintf (String.append "grind: exec pipeline failed %d %d " (String (Ascii.ascii_of_nat 34)
      (String.append "%s" (String (Ascii.ascii_of_nat 34) nl)))) [VWord v1; VWord v2; VStr b];;
    exit 1
  else mret ().

(** *** The loop *)

(** [if(what == 1) ... else if(what == 22) ...]: the new value of [fd]. *)
Definition grind_step (what break0 fd : Z) : U Z :=
  match what with
  | 1 => x ← create_ "grindir/../a"; close x;; mret fd
  | 2 => x ← create_ "grindir/../grindir/../b"; close x;; mret fd
  | 3 => unlink_ "grindir/../a";; mret fd
  | 4 =>
      r ← chdir_ "grindir";
      fatal (negb (r =? 0)) "grind: chdir grindir failed";;
      unlink_ "../b";;
      chdir_ "/";;
      mret fd
  | 5 => close fd;; create_ "/grindir/../a"
  | 6 => close fd;; create_ "/./grindir/./../b"
  | 7 => write fd buf 999;; mret fd
  | 8 => read fd buf 999;; mret fd
  | 9 => mkdir_ "grindir/../a";; x ← create_ "a/../a/./a"; close x;; unlink_ "a/a";; mret fd
  | 10 => mkdir_ "/../b";; x ← create_ "grindir/../b/b"; close x;; unlink_ "b/b";; mret fd
  | 11 => unlink_ "b";; link_ "../grindir/./../a" "../b";; mret fd
  | 12 => unlink_ "../grindir/../a";; link_ ".././b" "/grindir/../a";; mret fd
  | 13 => fork_child (exit 0);; wait 0;; mret fd
  | 14 => fork_child (fork;; fork;; exit 0);; wait 0;; mret fd
  | 15 => sbrk 6011;; mret fd
  | 16 =>
      b ← sbrk 0;
      when (break0 <? b) (b ← sbrk 0; sbrk (i32 (- (b - break0)));; mret ());;
      mret fd
  | 17 =>
      pid ← fork_child (x ← create_ "a"; close x;; exit 0);
      r ← chdir_ "../grindir/..";
      fatal (negb (r =? 0)) "grind: chdir failed";;
      kill pid;;
      wait 0;;
      mret fd
  | 18 => fork_child (x ← getpid; kill x;; exit 0);; wait 0;; mret fd
  | 19 => grind_pipe;; mret fd
  | 20 =>
      fork_child (
        unlink_ "a";;
        mkdir_ "a";;
        chdir_ "a";;
        unlink_ "../a";;
        create_ "x";;
        unlink_ "x";;
        exit 0);;
      wait 0;;
      mret fd
  | 21 => grind_file;; mret fd
  | 22 => grind_pipeline;; mret fd
  | _ => mret fd
  end.

(** A round of [while(1)], with [fd] and [iters].  A round in which [what] is 0
    makes no call; [quiet] bounds the number of those. *)
Definition go_round (which_child break0 : Z) (x : Z * Z) : U (Z * Z + unit) :=
  let '(fd, iters) := x in
  let iters := u64 (iters + 1) in
  when (iters mod 500 =? 0) (write_lit 1 (if negb (which_child =? 0) then "B" else "A");; mret ());;
  r ← rand;
  fd ← grind_step (Z.rem r 23) break0 fd;
  mret (inl (fd, iters)).

Definition go (quiet : nat) (which_child : Z) : U unit :=
  break0 ← sbrk 0;
  mkdir_ "grindir";;
  r ← chdir_ "grindir";
  fatal (negb (r =? 0)) "grind: chdir grindir failed";;
  chdir_ "/";;
  loop_wait quiet (go_round which_child break0) (-1, 0).

(** [rand_next ^= n] *)
Definition stir (n : Z) : U unit := x ← uld64 rand_next; ust64 rand_next (Z.lxor x n).

Definition iter (quiet : nat) : U unit :=
  unlink_ "a";;
  unlink_ "b";;
  pid1 ← fork;
  fatal (pid1 <? 0) "grind: fork failed";;
  when (pid1 =? 0) (stir 31;; go quiet 0;; exit 0);;
  pid2 ← fork;
  fatal (pid2 <? 0) "grind: fork failed";;
  when (pid2 =? 0) (stir 7177;; go quiet 1;; exit 0);;
  ust32 st1 (-1);;
  wait st1;;
  m ← gets us_mem;
  when (negb (i32 (ld32 m st1) =? 0)) (kill pid1;; kill pid2;; mret ());;
  ust32 st2 (-1);;
  wait st2;;
  exit 0.

Definition grind_round (quiet : nat) : U (unit + Z) :=
  pid ← fork;
  when (pid =? 0) (iter quiet;; exit 0);;
  when (0 <? pid) (wait 0;; mret ());;
  pause 20;;
  x ← uld64 rand_next;
  ust64 rand_next (u64 (x + 1));;
  mret (inl ()).

Definition grind_main (quiet : nat) : U Z := loop_wait 0 (λ _, grind_round quiet) ().
End grind.
