(* ===== verification/CommandsSpec.v ===== *)
(** What [cat], [echo] and [wc] print, however the kernel cuts their input into
    pieces, and the random numbers of [grind]. *)

From S2P Require Export GrepSpec Stress.

(** ** Copying *)

(** An answer of a kernel that writes everything it is given. *)
Definition full_write (f : ustate → ustate) : Prop :=
  ∀ s, match us_call s with CWrite _ bs => us_ret (f s) = Z.of_nat (length bs) | _ => True end.

Lemma serve_full fd content chunk : full_write (serve fd content chunk).
Proof. intros s. unfold serve. by destruct (us_call s). Qed.

Section files.
Context (fd : Z) (content : list Z).

(** A [write] that is complete. *)
Lemma write_complete fd' a n s f e :
  file_answer fd content f → full_write f → 0 <= n < 2147483648 →
  ∃ s', write fd' a n s (f :: e) = Ok n s' e ∧ us_mem s' = us_mem s ∧
    bytes_read fd (us_trace s') = bytes_read fd (us_trace s) ∧
    outputs fd' (us_trace s') = outputs fd' (us_trace s) ++ [ldn (us_mem s) a (Z.to_nat n)].
Proof.
  intros Hf Hw Hn. destruct (write_step fd content fd' a n s f e Hf) as (r & s' & E & Hm & Hb & Ho).
  exists s'. split; [|done]. rewrite E. f_equal. clear -E Hw Hn.
  unfold write, on_mem, ecall_int in E. rewrite bind_gets in E. erewrite bind_Ok in E by apply ecall_step.
  specialize (Hw (s <| us_call := CWrite fd' (ldn (us_mem s) a (Z.to_nat n)) |>)). cbn in Hw. injection E as <- _.
  cbn. rewrite Hw, length_ldn, i32_small by lia. lia.
Qed.

(** What is left to read. *)
Definition unread (s : ustate) : list Z := drop (bytes_read fd (us_trace s)) content.

Lemma cat_loop_ok buf fuel s e :
  Forall (file_answer fd content) e → Forall full_write e → bytes_ok content →
  (2 * length (unread s) < length e)%nat → (length (unread s) < fuel)%nat →
  ∃ s' e', loop fuel (λ _, cat_round buf fd) () s e = Ok 0 s' e' ∧
    concat (outputs 1 (us_trace s')) = concat (outputs 1 (us_trace s)) ++ unread s.
Proof.
  revert s e. induction fuel as [|fuel IH]; intros s e Hf Hw Hc He Hfu; [lia|]. cbn [loop].
  destruct e as [|f e]; [simpl in He; lia|]. apply Forall_cons in Hf as [Hf1 Hf]. apply Forall_cons in Hw as [_ Hw].
  destruct (read_step fd content buf 512 s f e Hf1 ltac:(lia)) as (k & s1 & Hr & Hm & Hb & Ho & K1 & K2 & K3).
  fold (unread s) in *. assert (unread s1 = drop k (unread s)) as Eu by (unfold unread; by rewrite Hb, drop_drop).
  destruct k as [|k].
  - destruct (K3 eq_refl) as [?|E0]; [lia|]. exists s1, e. split; [|by rewrite Ho, E0, app_nil_r].
    assert (cat_round buf fd s (f :: e) = Ok (inr 0) s1 e) as H by (unfold cat_round; by erewrite bind_Ok by exact Hr).
    by erewrite bind_Ok by exact H.
  - destruct e as [|g e]; [simpl in He; lia|]. apply Forall_cons in Hf as [Hg Hf]. apply Forall_cons in Hw as [Hw1 Hw].
    destruct (write_complete 1 buf (Z.of_nat (S k)) s1 g e Hg Hw1 ltac:(lia)) as (s2 & Hwr & Hm2 & Hb2 & Ho2).
    assert (unread s2 = drop (S k) (unread s)) as Eu2 by (unfold unread in *; by rewrite Hb2).
    destruct (IH s2 e) as (s' & e' & Hrun & Hout); try done.
    { rewrite Eu2, length_drop. simpl in He. lia. } { rewrite Eu2, length_drop. lia. }
    exists s', e'. split.
    + assert (cat_round buf fd s (f :: g :: e) = Ok (inl ()) s2 e) as H.
      { unfold cat_round. erewrite bind_Ok by exact Hr. rewrite (proj2 (Z.leb_gt _ _)) by lia.
        erewrite bind_Ok by exact Hwr. by rewrite Z.eqb_refl. }
      by erewrite bind_Ok by exact H.
    + rewrite Hout, Ho2, Ho, concat_app. cbn [concat]. rewrite app_nil_r, <- app_assoc. f_equal. rewrite Eu2, Hm.
      assert (length (take (S k) (unread s)) = S k) as Hl by (rewrite length_take; lia).
      replace (Z.to_nat (Z.of_nat (S k))) with (length (take (S k) (unread s))) by lia.
      rewrite ldn_stn_eq; [apply take_drop|]. apply Forall_take. by apply Forall_drop.
Qed.
End files.

(** [cat] copies: of a file that the kernel gives in pieces of any size, [cat]
    writes exactly the bytes to its standard output, in order, and returns. *)
Theorem cat_copies (buf fd : Z) (content : list Z) (s : ustate) (e : list (ustate → ustate)) :
  bytes_ok content → bytes_read fd (us_trace s) = 0%nat → Forall (file_answer fd content) e → Forall full_write e →
  (2 * length content < length e)%nat →
  ∃ s' e', cat buf fd s e = Ok tt s' e' ∧
    concat (outputs 1 (us_trace s')) = concat (outputs 1 (us_trace s)) ++ content.
Proof.
  intros Hc Hb Hf Hw He. assert (unread fd content s = content) as Eu by (unfold unread; by rewrite Hb).
  destruct (cat_loop_ok fd content buf (S (0 + length e)) s e) as (s' & e' & Hr & Ho); rewrite ?Eu; try done; [lia|].
  exists s', e'. rewrite Ho, Eu. split; [|done]. unfold cat, loop_wait. by erewrite bind_Ok by exact Hr.
Qed.

Lemma cat_copies_witness :
  ∃ s' e', cat 4096 3 grep_demo (replicate 40 (serve 3 grep_input 4)) = Ok tt s' e' ∧
    concat (outputs 1 (us_trace s')) = grep_input.
Proof.
  apply (cat_copies 4096 3 grep_input grep_demo (replicate 40 (serve 3 grep_input 4))).
  - apply (bool_decide_unpack _). vm_compute. exact I.
  - reflexivity.
  - apply Forall_replicate, serve_answer. lia.
  - apply Forall_replicate, serve_full.
  - vm_compute. lia.
Defined.

(** ** Counting *)

Definition blank (c : Z) : bool := in_lit wc_blanks c.

(** The pieces between blanks, of which the words are those that are not empty. *)
Fixpoint pieces (data : list Z) : list (list Z) :=
  match data with
  | [] => [[]]
  | c :: d =>
      if blank c then [] :: pieces d
      else match pieces d with w :: ws => (c :: w) :: ws | [] => [[c]] end
  end.
Definition text_words (data : list Z) : list (list Z) := filter (λ w, w ≠ []) (pieces data).
Definition text_lines (data : list Z) : nat := length (filter (λ c, c = 10) data).

(** The words of [data] that begin in it, if a word is open before it. *)
Definition new_words (inword : bool) (data : list Z) : nat :=
  match pieces data with
  | [] => 0
  | w :: ws => (if inword then 0 else if decide (w = []) then 0 else 1) + length (filter (λ w, w ≠ []) ws)
  end.

Lemma new_words_all data : new_words false data = length (text_words data).
Proof.
  unfold new_words, text_words. destruct (pieces data) as [|w ws]; [done|]. rewrite filter_cons.
  destruct (decide (w = [])) as [->|H]; [rewrite decide_False by (by intros [])|rewrite decide_True by done]; done.
Qed.

Lemma new_words_nil inword : new_words inword [] = 0%nat.
Proof. by destruct inword. Qed.

Lemma new_words_cons inword c d :
  new_words inword (c :: d) =
  ((if blank c then 0 else if inword then 0 else 1) + new_words (negb (blank c)) d)%nat.
Proof.
  unfold new_words. cbn [pieces]. destruct (blank c); cbn [negb].
  - rewrite (decide_True (P := ([] : list Z) = [])) by done. destruct (pieces d) as [|w ws]; [by destruct inword|]. rewrite filter_cons.
    destruct (decide (w = [])) as [->|H]; [rewrite (decide_False (P := ([] : list Z) ≠ [])) by (by intros [])|rewrite (decide_True (P := w ≠ [])) by done];
      destruct inword; cbn [length]; lia.
  - destruct (pieces d) as [|w ws]; rewrite decide_False by done; destruct inword; cbn [length filter list_filter]; lia.
Qed.

Lemma wc_fold st data :
  0 <= wc_l st <= wc_c st → 0 <= wc_w st <= wc_c st → wc_c st + Z.of_nat (length data) < 2147483648 →
  let st' := foldl wc_char st data in
  wc_l st' = wc_l st + Z.of_nat (text_lines data) ∧ wc_w st' = wc_w st + Z.of_nat (new_words (wc_inword st) data) ∧
  wc_c st' = wc_c st + Z.of_nat (length data).
Proof.
  revert st. induction data as [|c d IH]; intros [l w n inw] Hl Hw Hn; cbn [wc_l wc_w wc_c wc_inword] in *.
  { cbn [foldl length wc_l wc_w wc_c wc_inword]. rewrite new_words_nil. change (text_lines []) with 0%nat. lia. }
  cbn [foldl length] in *. rewrite new_words_cons. unfold text_lines. rewrite filter_cons.
  assert (wc_char (mk_counts l w n inw) c =
    mk_counts (if c =? 10 then l + 1 else l) (if blank c then w else if inw then w else w + 1) (n + 1) (negb (blank c))) as ->.
  { unfold wc_char, blank, set. destruct (c =? 10), (in_lit wc_blanks c), inw; cbn; by rewrite !i32_small by lia. }
  destruct (IH (mk_counts (if c =? 10 then l + 1 else l) (if blank c then w else if inw then w else w + 1) (n + 1) (negb (blank c))))
    as (E1 & E2 & E3); cbn [wc_l wc_w wc_c wc_inword].
  - destruct (c =? 10); lia.
  - destruct (blank c), inw; lia.
  - lia.
  - rewrite E1, E2, E3. cbn [wc_l wc_w wc_c wc_inword]. fold (text_lines d). destruct (Z.eqb_spec c 10) as [->|Hc10].
    + rewrite decide_True by done. cbn [length]. fold (text_lines d). destruct (blank 10), inw; lia.
    + rewrite decide_False by done. fold (text_lines d). destruct (blank c), inw; lia.
Qed.

Section wc.
Context (fd : Z) (content : list Z).

Lemma wc_loop_ok buf fuel st s e :
  Forall (file_answer fd content) e → bytes_ok content →
  (length (unread fd content s) < length e)%nat → (length (unread fd content s) < fuel)%nat →
  ∃ s' e', loop fuel (wc_round buf fd) st s e = Ok (foldl wc_char st (unread fd content s), 0) s' e' ∧
    outputs 1 (us_trace s') = outputs 1 (us_trace s) ∧ Forall (file_answer fd content) e' ∧
    (length e <= S (length (unread fd content s)) + length e')%nat ∧
    (∀ x, x < buf ∨ buf + 512 <= x → ld8 (us_mem s') x = ld8 (us_mem s) x).
Proof.
  revert st s e. induction fuel as [|fuel IH]; intros st s e Hf Hc He Hfu; [lia|]. cbn [loop].
  destruct e as [|f e]; [simpl in He; lia|]. apply Forall_cons in Hf as [Hf1 Hf].
  destruct (read_step fd content buf 512 s f e Hf1 ltac:(lia)) as (k & s1 & Hr & Hm & Hb & Ho & K1 & K2 & K3).
  fold (unread fd content s) in *. set (u := unread fd content s) in *.
  assert (unread fd content s1 = drop k u) as Eu by (unfold u, unread; by rewrite Hb, drop_drop).
  assert (∀ x, x < buf ∨ buf + 512 <= x → ld8 (us_mem s1) x = ld8 (us_mem s) x) as Hm1.
  { intros x Hx. rewrite Hm. apply ld8_stn_ne. rewrite length_take. lia. }
  destruct k as [|k].
  - destruct (K3 eq_refl) as [?|E0]; [lia|]. exists s1, e. rewrite E0. cbn [foldl length].
    assert (wc_round buf fd st s (f :: e) = Ok (inr (st, 0)) s1 e) as H by (unfold wc_round; by erewrite bind_Ok by exact Hr).
    erewrite bind_Ok by exact H. split_and!; try done.
  - assert (length (take (S k) u) = S k) as Hl by (rewrite length_take; lia).
    assert (wc_round buf fd st s (f :: e) = Ok (inl (foldl wc_char st (take (S k) u))) s1 e) as H.
    { unfold wc_round. erewrite bind_Ok by exact Hr. rewrite (proj2 (Z.leb_gt _ _)) by lia. rewrite bind_gets, Hm.
      pose proof (ldn_stn_eq (us_mem s) buf (take (S k) u)) as E. rewrite Hl in E. rewrite Nat2Z.id, E; [done|].
      apply Forall_take. by apply Forall_drop. }
    erewrite bind_Ok by exact H.
    destruct (IH (foldl wc_char st (take (S k) u)) s1 e) as (s' & e' & Hrun & Hout & Hf' & Hle & Hmem); try done.
    { rewrite Eu, length_drop. simpl in He. lia. } { rewrite Eu, length_drop. lia. }
    exists s', e'. rewrite Eu in *. rewrite <- foldl_app, take_drop in Hrun. split_and!; try done.
    + by rewrite Hout.
    + rewrite length_drop in Hle. simpl. lia.
    + intros x Hx. rewrite Hmem by done. by apply Hm1.
Qed.

Lemma put_chars_outputs l s e :
  Forall (file_answer fd content) e → (length l <= length e)%nat →
  ∃ s' e', put_chars 1 l s e = Ok tt s' e' ∧ outputs 1 (us_trace s') = outputs 1 (us_trace s) ++ ((λ c, [u8 c]) <$> l).
Proof.
  revert s e. induction l as [|c l IH]; intros s e Hf He.
  { exists s, e. split; [done|]. by rewrite app_nil_r. }
  destruct e as [|f e]; [simpl in He; lia|]. apply Forall_cons in Hf as [Hf1 Hf].
  destruct (Hf1 (s <| us_call := CWrite 1 [u8 c] |>)) as [Ht _]. cbn [put_chars].
  assert (∃ s1, putc 1 c s (f :: e) = Ok tt s1 e ∧ us_trace s1 = us_trace s ++ [(CWrite 1 [u8 c], us_ret (f (s <| us_call := CWrite 1 [u8 c] |>)))])
    as (s1 & E1 & Et).
  { unfold putc, ecall_int. rewrite bind_assoc. erewrite bind_Ok by apply ecall_step. eexists. split; [reflexivity|]. cbn. by rewrite Ht. }
  erewrite bind_Ok by exact E1. destruct (IH s1 e Hf ltac:(simpl in He; lia)) as (s' & e' & E & Ho). exists s', e'. split; [done|].
  rewrite Ho, Et, outputs_app. cbn [outputs Z.eqb Pos.eqb]. by rewrite <- app_assoc.
Qed.
End wc.

(** What [wc] prints about a file. *)
Definition wc_report (content name : list Z) : list Z :=
  uprinted ("%d %d %d %s" +:+ nl)
    [VWord (Z.of_nat (text_lines content)); VWord (Z.of_nat (length (text_words content))); VWord (Z.of_nat (length content)); VStr name].

(** C39: [wc] counts: for a file shorter than 2^31 bytes that the kernel gives in
    pieces of any size, [wc] prints the number of its newlines, of its words (the
    longest pieces without blanks) and of its bytes, and the name. *)
Theorem wc_counts (buf fd a : Z) (content name : list Z) (s : ustate) (e : list (ustate → ustate)) :
  bytes_ok content → Z.of_nat (length content) < 2147483648 → bytes_read fd (us_trace s) = 0%nat →
  str_at (us_mem s) a name → a + Z.of_nat (length name) < buf ∨ buf + 512 <= a →
  Forall (file_answer fd content) e → (S (length content) + length (wc_report content name) <= length e)%nat →
  ∃ s' e', wc buf fd (arg_str a) s e = Ok tt s' e' ∧
    outputs 1 (us_trace s') = outputs 1 (us_trace s) ++ ((λ c, [u8 c]) <$> wc_report content name).
Proof.
  intros Hc Hn Hb Hs Ha Hf He. assert (unread fd content s = content) as Eu by (unfold unread; by rewrite Hb).
  set (st := mk_counts 0 0 0 false).
  destruct (wc_loop_ok fd content buf (S (0 + length e)) st s e) as (s1 & e1 & Hr & Ho & Hf1 & Hle & Hm); rewrite ?Eu; try done; [lia|lia|].
  rewrite Eu in *. destruct (wc_fold st content) as (E1 & E2 & E3); [done|done|done|]. cbn [st wc_l wc_w wc_c wc_inword] in E1, E2, E3.
  rewrite new_words_all in E2. unfold wc, loop_wait. erewrite bind_Ok by exact Hr. cbv iota beta. rewrite (Z.ltb_irrefl 0).
  unfold arg_str. rewrite bind_gets. assert (cstring (us_mem s1) a = name) as ->.
  { apply cstring_at. eapply str_at_ext; [exact Hs|]. intros x Hx. apply Hm. lia. }
  destruct (put_chars_outputs fd content (wc_report content name) s1 e1 Hf1 ltac:(lia)) as (s' & e' & E & Ho').
  exists s', e'. rewrite Ho', Ho. split; [|done]. rewrite <- E, E1, E2, E3, !Z.add_0_l.
  apply (vprintf_loop_eq (length (bytes_of ("%d %d %d %s" +:+ nl)))); lia.
Qed.

Definition wc_demo : ustate := mk_ustate (stn ∅ 100 (bytes_of "f" ++ [0])) CFork 0 [].
Definition wc_input : list Z := bytes_of "two words" ++ [10; 9; 32] ++ bytes_of "one" ++ [10; 11].

Lemma wc_counts_witness :
  ∃ s' e', wc 4096 3 (arg_str 100) wc_demo (replicate 40 (serve 3 wc_input 4)) = Ok tt s' e' ∧
    outputs 1 (us_trace s') = (λ c, [u8 c]) <$> bytes_of "2 3 17 f" ++ [10].
Proof.
  apply (wc_counts 4096 3 100 wc_input (bytes_of "f") wc_demo (replicate 40 (serve 3 wc_input 4))).
  - apply (bool_decide_unpack _). vm_compute. exact I.
  - reflexivity.
  - reflexivity.
  - split; [reflexivity|]. split; [|reflexivity]. repeat constructor; discriminate.
  - left. reflexivity.
  - apply Forall_replicate, serve_answer. lia.
  - vm_compute. lia.
Defined.

(** ** Random numbers *)

Lemma i64_small z : -9223372036854775808 <= z < 9223372036854775808 → i64 z = z.
Proof. intros. unfold i64. rewrite Z.mod_small; lia. Qed.

(** The generator of [grind] computes the next value of the sequence of Park
    and Miller: with the seed moved to 1 ... 2^31-2, the value is 7^5 times the
    seed modulo 2^31-1, moved back to 0 ... 2^31-3.  No step overflows, and the
    result is never negative, so that [rand() % 23] is a valid case. *)
Theorem do_rand_minstd (ctx : Z) :
  0 <= ctx →
  let x := ctx mod 2147483646 + 1 in
  let y := (16807 * x) mod 2147483647 in
  do_rand ctx = (y - 1, y - 1) ∧ 1 <= y <= 2147483646 ∧ 0 <= Z.rem (do_rand ctx).2 23 < 23.
Proof.
  intros Hctx x y. assert (1 <= x <= 2147483646) as Hx by (unfold x; zlia).
  pose proof (Z.div_mod x 127773 ltac:(lia)) as Ex. pose proof (Z.mod_pos_bound x 127773 ltac:(lia)) as Hlo.
  set (hi := x / 127773) in *. set (lo := x mod 127773) in *. set (z := 16807 * lo - 2836 * hi).
  assert (0 <= hi <= 16807) as Hhi by lia.
  assert (16807 * x = z + hi * 2147483647) as Ez by (unfold z; lia).
  assert (y ≠ 0) as Hy0.
  { unfold y. intros H. apply Z.mod_divide in H; [|lia]. apply Z.gauss in H; [|done]. apply Z.divide_pos_le in H; lia. }
  assert (y = if z <? 0 then z + 2147483647 else z) as Ey.
  { unfold y. rewrite Ez, Z.mod_add by lia. destruct (Z.ltb_spec z 0); [|by rewrite Z.mod_small by (unfold z in *; lia)].
    symmetry. apply (Z.mod_unique z 2147483647 (-1)); unfold z in *; lia. }
  assert (1 <= y <= 2147483646) as Hy.
  { pose proof (Z.mod_pos_bound (16807 * x) 2147483647 ltac:(lia)) as H. fold y in H. lia. }
  assert (do_rand ctx = (y - 1, y - 1)) as E.
  { unfold do_rand. change 0x7ffffffe with 2147483646. fold x hi lo. assert (i64 (16807 * lo - 2836 * hi) = z) as -> by (rewrite i64_small; unfold z; lia).
    assert ((if z <? 0 then i64 (z + 2147483647) else z) = y) as ->.
    { rewrite Ey. destruct (Z.ltb_spec z 0); [|done]. rewrite i64_small by (unfold z in *; lia). done. }
    rewrite (i64_small (y - 1)) by lia. rewrite u64_small, i32_small by lia. done. }
  rewrite E. split; [done|]. split; [done|]. cbn [snd]. rewrite Z.rem_mod_nonneg by lia. apply Z.mod_pos_bound. lia.
Qed.

Lemma do_rand_minstd_witness : do_rand 1 = (33613, 33613) ∧ 0 <= Z.rem (do_rand 1).2 23 < 23.
Proof.
  destruct (do_rand_minstd 1 ltac:(lia)) as (E & _ & H). split; [exact E|exact H].
Defined.

(** ** The buffer of logstress *)

(** [memset] of [SZ] bytes writes past the end of [buf], which has [BUFSZ]. *)
Lemma logstress_overruns (m : memory) (buf : Z) (i : nat) (x : Z) :
  (i < 200)%nat → buf + BUFSZ <= x < buf + SZ → ld8 (memset m buf (ch "0" + Z.of_nat i) SZ) x = ch "0" + Z.of_nat i.
Proof.
  intros Hi Hx. change BUFSZ with 500 in Hx. change SZ with 2000 in *. unfold memset. rewrite ld8_memset_loop, decide_True by lia.
  change (ch "0") with 48. unfold u8. apply Z.mod_small. lia.
Qed.
