(* ===== verification/Umalloc.v ===== *)
(** The memory allocator of user programs: user/umalloc.c.

    A [Header] is 16 bytes: the pointer at offset 0, the size, in headers, at
    offset 8.  The free blocks, with the empty block [base], form a circular
    list in order of their addresses, of which [freep] points to some element. *)

From S2P Require Export Ulib.

Definition sizeof_header : Z := 16.

Section umalloc.
(** The addresses of the static variables [base] and [freep]. *)
Context (base freep : Z).

Definition hdr_ptr (p : Z) : U Z := uld64 p.
Definition hdr_size (p : Z) : U Z := uld32 (p + 8).
Definition set_ptr (p v : Z) : U unit := ust64 p v.
Definition set_size (p v : Z) : U unit := ust32 (p + 8) (u32 v).

(** [for(p = freep; !(bp > p && bp < p->s.ptr); p = p->s.ptr)] *)
Definition free_round (bp p : Z) : U (Z + Z) :=
  next ← hdr_ptr p;
  mret (if (p <? bp) && (bp <? next) then inr p else
        if (next <=? p) && ((p <? bp) || (bp <? next)) then inr p else inl next).

Definition free (ap : Z) : U unit :=
  let bp := ap - sizeof_header in
  m ← gets us_mem;
  p0 ← uld64 freep;
  p ← loop (str_fuel m) (free_round bp) p0;
  bsize ← hdr_size bp;
  next ← hdr_ptr p;
  (if bp + sizeof_header * bsize =? next then
     nsize ← hdr_size next;
     set_size bp (bsize + nsize);;
     nnext ← hdr_ptr next;
     set_ptr bp nnext
   else set_ptr bp next);;
  psize ← hdr_size p;
  (if p + sizeof_header * psize =? bp then
     bsize ← hdr_size bp;
     set_size p (psize + bsize);;
     bnext ← hdr_ptr bp;
     set_ptr p bnext
   else set_ptr p bp);;
  ust64 freep p.

(** The 64-bit product is passed as an [int]. *)
Definition morecore (nu : Z) : U Z :=
  let nu := if nu <? 4096 then 4096 else nu in
  p ← sbrk (i32 (nu * sizeof_header));
  if p =? u64 (-1) then mret 0 else
  set_size p nu;;
  free (p + sizeof_header);;
  uld64 freep.

Definition units (nbytes : Z) : Z := u32 ((nbytes + sizeof_header - 1) / sizeof_header + 1).

(** A round of the loop of [malloc] at [(prevp, p)]. *)
Definition malloc_round (nunits : Z) (x : Z * Z) : U (Z * Z + Z) :=
  let '(prevp, p) := x in
  size ← hdr_size p;
  if nunits <=? size then
    r ← (if size =? nunits then
           next ← hdr_ptr p;
           set_ptr prevp next;;
           mret p
         else
           set_size p (size - nunits);;
           let p := p + sizeof_header * u32 (size - nunits) in
           set_size p nunits;;
           mret p);
    ust64 freep prevp;;
    mret (inr (r + sizeof_header))
  else
    fp ← uld64 freep;
    if p =? fp then
      p ← morecore nunits;
      if p =? 0 then mret (inr 0) else
      next ← hdr_ptr p;
      mret (inl (p, next))
    else
      next ← hdr_ptr p;
      mret (inl (p, next)).

(** Each walk around the list takes at most as many rounds as there are bytes in
    memory; between two walks [morecore] waits for the kernel. *)
Definition malloc (nbytes : Z) : U Z :=
  let nunits := units nbytes in
  m ← gets us_mem;
  fp ← uld64 freep;
  prevp ← (if fp =? 0 then
             ust64 freep base;; set_ptr base base;; set_size base 0;; mret base
           else mret fp);
  p ← hdr_ptr prevp;
  loop_wait (2 * (2 + str_fuel m)) (malloc_round nunits) (prevp, p).

End umalloc.
