(* ===== verification/UmallocSpec.v ===== *)
(** The allocator of Umalloc.v keeps its heap: the free list stays a sorted
    circular list, and free and allocated blocks are disjoint and keep their
    contents. *)

From S2P Require Export Umalloc.

(** ** Words in memory *)

Lemma ld32_st32_eq m a v : ld32 (st32 m a v) a = u32 v.
Proof.
  unfold ld32, st32. pose proof (ldn_stn_eq m a (le_bytes 4 v) (le_bytes_ok 4 v)) as H.
  rewrite length_le_bytes in H. rewrite H, le_val_bytes. done.
Qed.

Lemma ld8_st64_ne m a v x : x < a ∨ a + 8 <= x → ld8 (st64 m a v) x = ld8 m x.
Proof. intros H. apply ld8_stn_ne. rewrite length_le_bytes. lia. Qed.
Lemma ld8_st32_ne m a v x : x < a ∨ a + 4 <= x → ld8 (st32 m a v) x = ld8 m x.
Proof. intros H. apply ld8_stn_ne. rewrite length_le_bytes. lia. Qed.

Lemma ld64_ext m m' a : (∀ x, a <= x < a + 8 → ld8 m' x = ld8 m x) → ld64 m' a = ld64 m a.
Proof. intros H. unfold ld64. f_equal. by apply ldn_ext. Qed.
Lemma ld32_ext m m' a : (∀ x, a <= x < a + 4 → ld8 m' x = ld8 m x) → ld32 m' a = ld32 m a.
Proof. intros H. unfold ld32. f_equal. by apply ldn_ext. Qed.

(** Resolve reads of a word after writes of others. *)
Ltac words :=
  repeat first
    [ rewrite ld64_st64_eq | rewrite ld32_st32_eq
    | rewrite (ld64_ext _ (st64 _ _ _)) by (intros; apply ld8_st64_ne; lia)
    | rewrite (ld64_ext _ (st32 _ _ _)) by (intros; apply ld8_st32_ne; lia)
    | rewrite (ld32_ext _ (st64 _ _ _)) by (intros; apply ld8_st64_ne; lia)
    | rewrite (ld32_ext _ (st32 _ _ _)) by (intros; apply ld8_st32_ne; lia)
    | rewrite ld8_st64_ne by lia | rewrite ld8_st32_ne by lia ].

(** ** The free list *)

(** The bytes of a free block: at least its header. *)
Definition ext (n : Z) : Z := 16 * Z.max 1 n.

Definition first (l : list (Z * Z)) (nxt : Z) : Z :=
  match l with [] => nxt | (a, _) :: _ => a end.

(** The headers of [l] are linked in this order, the last one to [nxt]. *)
Fixpoint chain (m : memory) (l : list (Z * Z)) (nxt : Z) : Prop :=
  match l with
  | [] => True
  | (a, n) :: l' => ld64 m a = first l' nxt ∧ ld32 m (a + 8) = n ∧ chain m l' nxt
  end.

(** No block of [l] ends where the next one starts: neighbours are merged. *)
Fixpoint separated (l : list (Z * Z)) (nxt : Z) : Prop :=
  match l with
  | [] => True
  | (a, n) :: l' => a + 16 * n ≠ first l' nxt ∧ separated l' nxt
  end.

(** The blocks of [l] follow each other between [lo] and [hi]. *)
Fixpoint ordered (lo : Z) (l : list (Z * Z)) (hi : Z) : Prop :=
  match l with
  | [] => lo <= hi
  | (a, n) :: l' => lo <= a ∧ 0 <= n ∧ ordered (a + ext n) l' hi
  end.

Lemma first_app l1 l2 nxt : first (l1 ++ l2) nxt = first l1 (first l2 nxt).
Proof. by destruct l1 as [|[]]. Qed.

Lemma separated_app l1 l2 nxt : separated (l1 ++ l2) nxt ↔ separated l1 (first l2 nxt) ∧ separated l2 nxt.
Proof. induction l1 as [|[a n] l1 IH]; simpl; [tauto|]. rewrite IH, first_app. tauto. Qed.

Lemma chain_app m l1 l2 nxt : chain m (l1 ++ l2) nxt ↔ chain m l1 (first l2 nxt) ∧ chain m l2 nxt.
Proof.
  induction l1 as [|[a n] l1 IH]; cbn [app chain]; [tauto|]. rewrite IH, first_app. tauto.
Qed.

Lemma ordered_app lo l1 l2 hi : ordered lo (l1 ++ l2) hi ↔ ∃ mid, ordered lo l1 mid ∧ ordered mid l2 hi.
Proof.
  revert lo. induction l1 as [|[a n] l1 IH]; intros lo; cbn [app ordered].
  - split; [intros H; by exists lo|]. intros (mid & H1 & H2). destruct l2 as [|[a n] l2]; simpl in *; [lia|].
    destruct H2. split; [lia|done].
  - rewrite IH. split; [intros (H1 & H2 & mid & H3 & H4); exists mid; auto|]. intros (mid & (H1 & H2 & H3) & H4). eauto.
Qed.

Lemma ordered_le lo l hi : ordered lo l hi → lo <= hi.
Proof.
  revert lo. induction l as [|[a n] l IH]; intros lo; cbn [ordered]; [done|]. intros (H1 & H2 & H3%IH). unfold ext in *. lia.
Qed.

Lemma ordered_elem lo l hi a n : ordered lo l hi → (a, n) ∈ l → lo <= a ∧ 0 <= n ∧ a + ext n <= hi.
Proof.
  revert lo. induction l as [|[b k] l IH]; intros lo H Hin; [by apply not_elem_of_nil in Hin|].
  cbn [ordered] in H. destruct H as (H1 & H2 & H3). apply elem_of_cons in Hin as [[= -> ->]|Hin].
  - apply ordered_le in H3. lia.
  - destruct (IH _ H3 Hin) as (? & ? & ?). unfold ext in *. lia.
Qed.

Lemma ordered_mono lo lo' l hi : lo' <= lo → ordered lo l hi → ordered lo' l hi.
Proof. destruct l as [|[a n] l]; simpl; [lia|]. intros H (? & ? & ?). split; [lia|done]. Qed.

Lemma ordered_hi lo l hi hi' : hi <= hi' → ordered lo l hi → ordered lo l hi'.
Proof. revert lo. induction l as [|[a n] l IH]; intros lo; simpl; [lia|]. intros H (? & ? & ?). auto. Qed.

(** The headers of [l] are the same in both memories. *)
Definition same_headers (m m' : memory) (l : list (Z * Z)) : Prop :=
  ∀ a n x, (a, n) ∈ l → a <= x < a + 16 → ld8 m' x = ld8 m x.

Lemma chain_same m m' l nxt : same_headers m m' l → chain m l nxt → chain m' l nxt.
Proof.
  induction l as [|[a n] l IH]; intros Hs; cbn [chain]; [done|]. intros (H1 & H2 & H3).
  assert (∀ x, a <= x < a + 16 → ld8 m' x = ld8 m x) as E by (intros x Hx; eapply Hs; [by left|done]).
  split; [|split].
  - rewrite <- H1. apply ld64_ext. intros x Hx. apply E. lia.
  - rewrite <- H2. apply ld32_ext. intros x Hx. apply E. lia.
  - apply IH; [|done]. intros b k x Hin. apply (Hs b k). by right.
Qed.

(** A list of free blocks is no longer than memory has bytes. *)
Lemma chain_fuel m l nxt lo hi :
  0 < lo → 0 < nxt → chain m l nxt → ordered lo l hi → (length l <= size m)%nat.
Proof.
  intros Hlo Hn Hc Ho. rewrite <- size_dom.
  assert (∃ X : gset Z, X ⊆ dom m ∧ (length l <= size X)%nat ∧ ∀ x, x ∈ X → lo <= x < hi) as (X & H1 & H2 & _).
  2:{ etransitivity; [done|]. by apply subseteq_size. }
  revert lo Hlo Ho. induction l as [|[a n] l IH]; intros lo Hlo Ho.
  { exists ∅. split; [set_solver|]. split; [simpl; lia|set_solver]. }
  cbn [chain ordered] in *. destruct Hc as (Hp & _ & Hc). destruct Ho as (Ha & Hnn & Ho).
  pose proof (ordered_le _ _ _ Ho) as Hle.
  destruct (IH Hc (a + ext n)) as (X & HX & Hlen & Hr); [unfold ext; lia|done|].
  assert (∃ x, a <= x < a + 8 ∧ ld8 m x ≠ 0) as (x & Hx & Hz).
  { destruct (decide (Forall (λ i, ld8 m (a + i) = 0) (seqZ 0 8))) as [F|F].
    - exfalso. assert (ld64 m a = 0) as E.
      { unfold ld64. replace (ldn m a 8) with (replicate 8 0); [done|]. apply list_eq. intros i.
        destruct (decide (i < 8)%nat) as [Hi|Hi].
        - rewrite lookup_ldn, lookup_replicate_2 by done. f_equal. symmetry. rewrite Forall_forall in F. apply F.
          apply elem_of_seqZ. lia.
        - by rewrite !lookup_ge_None_2 by (rewrite ?length_ldn, ?length_replicate; lia). }
      rewrite E in Hp. destruct l as [|[b k] l]; simpl in *; [lia|]. unfold ext in Ho. lia.
    - apply not_Forall_Exists in F; [|apply _]. apply Exists_exists in F as (i & Hi & Hz). apply elem_of_seqZ in Hi.
      exists (a + i). split; [lia|done]. }
  exists ({[x]} ∪ X). split; [|split].
  - apply union_subseteq. split; [|done]. apply singleton_subseteq_l, elem_of_dom. unfold ld8 in Hz.
    destruct (m !! x); [by eexists|done].
  - rewrite size_union, size_singleton; [simpl; lia|]. intros y Hy1 Hy2. apply elem_of_singleton in Hy1 as ->.
    apply Hr in Hy2. unfold ext in Hy2. lia.
  - intros y Hy. apply elem_of_union in Hy as [->%elem_of_singleton|Hy]; [unfold ext in *; lia|].
    apply Hr in Hy. unfold ext in *. lia.
Qed.

(** ** The heap *)

Section heap.
Context (base freep : Z) (Hvar : 0 < freep ∧ freep + 8 <= base).

(** The block of [n] headers at [h] meets no free block. *)
Definition apart (nodes : list (Z * Z)) (h n : Z) : Prop :=
  ∀ a k, (a, k) ∈ nodes → a + ext k <= h ∨ h + 16 * n <= a.

(** A block in use, with its size in its header. *)
Record block (m : memory) (nodes : list (Z * Z)) (hi h n : Z) : Prop := {
  bl_pos : 1 <= n;
  bl_lo : base <= h;
  bl_hi : h + 16 * n <= hi;
  bl_size : ld32 m (h + 8) = n;
  bl_apart : apart nodes h n;
}.

Definition disjoint_from (alloc : gmap Z Z) (h n : Z) : Prop :=
  ∀ h' n', alloc !! h' = Some n' → h + 16 * n <= h' ∨ h' + 16 * n' <= h.

(** The free blocks [nodes], [base] first, and the blocks in use [alloc], below
    [hi].  Sizes are 32-bit: 64 GB are more than the machine has. *)
Record heap (m : memory) (nodes : list (Z * Z)) (alloc : gmap Z Z) (hi : Z) : Prop := {
  hp_head : ∃ l, nodes = (base, 0) :: l ∧ Forall (λ b, 1 <= b.2) l;
  hp_order : ordered base nodes hi;
  hp_chain : chain m nodes base;
  hp_freep : ∃ n, (ld64 m freep, n) ∈ nodes;
  hp_hi : hi <= 68719476736;
  hp_alloc : ∀ h n, alloc !! h = Some n → block m nodes hi h n;
  hp_disj : ∀ h n, alloc !! h = Some n → disjoint_from (delete h alloc) h n;
}.

(** The units on the free list. *)
Definition free_units (nodes : list (Z * Z)) : Z := foldr (λ b t, b.2 + t) 0 nodes.

Lemma free_units_app l1 l2 : free_units (l1 ++ l2) = free_units l1 + free_units l2.
Proof. induction l1 as [|b l1 IH]; simpl; [done|]. unfold free_units in *. simpl. rewrite IH. lia. Qed.

(** Where a block belongs in the list. *)
Lemma insertion lo nodes hi h n a0 k0 l0 :
  nodes = (a0, k0) :: l0 → a0 + ext k0 <= h → 1 <= n → ordered lo nodes hi → apart nodes h n → h + 16 * n <= hi →
  ∃ L p pn R, nodes = L ++ (p, pn) :: R ∧ p + ext pn <= h ∧ ordered (h + 16 * n) R hi.
Proof.
  revert lo a0 k0 l0. induction nodes as [|b nodes IH]; intros lo a0 k0 l0 E Ha Hn Ho Hap Hhi; [done|].
  injection E as -> ->. cbn [ordered] in Ho. destruct Ho as (Ho1 & Ho2 & Ho3).
  destruct l0 as [|[a1 k1] l1].
  - exists [], a0, k0, []. split; [done|]. split; [done|]. simpl. lia.
  - destruct (Hap a1 k1) as [H1|H1]; [right; by left| |].
    + destruct (IH (a0 + ext k0) a1 k1 l1) as (L & p & pn & R & -> & H2 & H3); try done.
      { intros a k Hin. apply Hap. by right. }
      exists ((a0, k0) :: L), p, pn, R. by split.
    + exists [], a0, k0, ((a1, k1) :: l1). split; [done|]. split; [done|]. cbn [ordered] in *.
      destruct Ho3 as (? & ? & ?). split; [lia|done].
Qed.

(** ** Finding the place *)

Lemma free_round_eq bp p s e :
  free_round bp p s e =
    Ok (let next := ld64 (us_mem s) p in
        if (p <? bp) && (bp <? next) then inr p else
        if (next <=? p) && ((p <? bp) || (bp <? next)) then inr p else inl next) s e.
Proof. done. Qed.

Section walk.
Context (s : ustate) (e : list (ustate → ustate)) (h : Z).

(** From a node before the place. *)
Lemma walk_up L p pn R fuel :
  chain (us_mem s) (L ++ (p, pn) :: R) base → ordered base (L ++ (p, pn) :: R) 68719476736 →
  p < h → (∀ a k, (a, k) ∈ R → h < a) → base <= p → (length L < fuel)%nat →
  loop fuel (free_round h) (first (L ++ (p, pn) :: R) base) s e = Ok p s e.
Proof.
  intros Hc Ho Hp HR Hb. assert (∃ lo, ordered lo (L ++ (p, pn) :: R) 68719476736) as [lo Ho'] by (by eexists).
  clear Ho. revert lo Ho' fuel. induction L as [|[a n] L IH]; intros lo Ho fuel Hf; (destruct fuel as [|fuel]; [simpl in Hf; lia|]);
    cbn [loop app first]; rewrite (bind_Ok _ _ _ _ _ _ _ (free_round_eq _ _ _ _)); cbv zeta; cbn [app chain ordered] in *;
    destruct Hc as (E & _ & Hc); rewrite E.
  - destruct R as [|[a2 n2] R]; cbn [first].
    + rewrite (proj2 (Z.ltb_lt p h)), (proj2 (Z.ltb_ge h base)), (proj2 (Z.leb_le base p)) by lia. done.
    + assert (h < a2) by (apply (HR a2 n2); by left).
      rewrite (proj2 (Z.ltb_lt p h)), (proj2 (Z.ltb_lt h a2)) by lia. done.
  - destruct Ho as (H1 & H2 & Ho). set (nx := first (L ++ (p, pn) :: R) base) in *.
    assert (a < nx ∧ nx <= p) as [Hn1 Hn2].
    { unfold nx. destruct L as [|[b k] L]; cbn [app first ordered] in *.
      - destruct Ho. unfold ext in *. lia.
      - destruct Ho as (? & ? & Ho). assert ((p, pn) ∈ L ++ (p, pn) :: R) as Hin by (apply elem_of_app; right; by left).
        destruct (ordered_elem _ _ _ _ _ Ho Hin). unfold ext in *. lia. }
    rewrite (proj2 (Z.ltb_ge h nx)), andb_false_r, (proj2 (Z.leb_gt nx a)) by lia. cbn [andb].
    apply (IH Hc _ Ho). simpl in Hf. lia.
Qed.

(** From a node after the place: to the end of the list, and from [base] on. *)
Lemma walk_round R1 R2 fuel A p :
  (∀ fuel, (A < fuel)%nat → loop fuel (free_round h) base s e = Ok p s e) →
  chain (us_mem s) (R1 ++ R2) base → ordered h (R1 ++ R2) 68719476736 → base < h → R2 ≠ [] →
  (length R2 + A < fuel)%nat →
  loop fuel (free_round h) (first R2 base) s e = Ok p s e.
Proof.
  intros Hbase Hc Ho Hb. apply chain_app in Hc as [_ Hc]. apply ordered_app in Ho as (lo & Ho1%ordered_le & Ho2).
  clear R1. revert lo Ho1 Ho2 fuel. induction R2 as [|[a n] R2 IH]; intros lo Ho1 Ho2 fuel Hne Hf; [done|].
  destruct fuel as [|fuel]; [simpl in Hf; lia|]. cbn [loop first].
  rewrite (bind_Ok _ _ _ _ _ _ _ (free_round_eq _ _ _ _)). cbv zeta. cbn [chain ordered] in *.
  destruct Hc as (E & _ & Hc). destruct Ho2 as (H1 & H2 & Ho2). rewrite E.
  rewrite (proj2 (Z.ltb_ge a h)) by lia. cbn [andb orb]. destruct R2 as [|[a2 n2] R2].
  - cbn [first]. rewrite (proj2 (Z.ltb_ge h base)), andb_false_r by lia. apply Hbase. simpl in Hf. lia.
  - cbn [first]. assert (a < a2) as Hlt by (simpl in Ho2; unfold ext in *; lia).
    rewrite (proj2 (Z.leb_gt a2 a)) by lia. cbn [andb].
    apply (IH Hc (a + ext n)); [unfold ext in *; lia|done|done|simpl in *; lia].
Qed.

End walk.

Lemma free_finds s e nodes alloc hi L p pn R h n :
  heap (us_mem s) nodes alloc hi → nodes = L ++ (p, pn) :: R → p + ext pn <= h → 1 <= n → ordered (h + 16 * n) R hi →
  loop (str_fuel (us_mem s)) (free_round h) (ld64 (us_mem s) freep) s e = Ok p s e.
Proof.
  intros [Hhd Ho Hc [k Hfp] Hhi _ _] E Hp Hn HR. pose proof (chain_fuel _ nodes base base hi ltac:(lia) ltac:(lia) Hc Ho) as Hfuel.
  apply (ordered_hi _ _ _ 68719476736) in Ho; [|lia]. rewrite E in Hfuel. rewrite length_app in Hfuel. cbn [length] in Hfuel.
  assert (base <= p ∧ 0 <= pn) as [Hbp Hpn].
  { destruct (ordered_elem _ _ _ p pn Ho) as (? & ? & _); [rewrite E; apply elem_of_app; right; by left|lia]. }
  assert (∀ a j, (a, j) ∈ R → h < a) as HRa.
  { intros a j Hin. destruct (ordered_elem _ _ _ a j HR Hin). lia. }
  assert (∀ L1 L2 fuel, L = L1 ++ L2 → (length L2 < fuel)%nat →
    loop fuel (free_round h) (first (L2 ++ (p, pn) :: R) base) s e = Ok p s e) as Hup.
  { intros L1 L2 fuel EL Hf. apply (walk_up s e h L2 p pn R); try done; [| |unfold ext in Hp; lia].
    - rewrite E, EL, <- app_assoc in Hc. by apply chain_app in Hc as [_ Hc].
    - rewrite E, EL, <- app_assoc in Ho. apply ordered_app in Ho as (mid & Ho1%ordered_le & Ho2). by apply (ordered_mono mid). }
  rewrite E in Hfp. apply elem_of_app in Hfp as [Hin|Hin]; [|apply elem_of_cons in Hin as [[= E1 E2]|Hin]].
  - apply list_elem_of_split in Hin as (L1 & L2 & EL).
    apply (Hup L1 ((ld64 (us_mem s) freep, k) :: L2) (str_fuel (us_mem s)) EL). unfold str_fuel.
    rewrite EL, length_app in Hfuel. cbn [length] in *. lia.
  - rewrite E1. apply (Hup L [] (str_fuel (us_mem s))); [by rewrite app_nil_r|]. unfold str_fuel. simpl. lia.
  - apply list_elem_of_split in Hin as (R1 & R2 & ER).
    apply (walk_round s e h R1 ((ld64 (us_mem s) freep, k) :: R2) (str_fuel (us_mem s)) (length L) p); try done.
    + intros fuel Hf. specialize (Hup [] L fuel eq_refl Hf). destruct Hhd as (l & El & _).
      rewrite <- E, El in Hup. exact Hup.
    + rewrite <- ER. rewrite E in Hc. apply chain_app in Hc as [_ Hc]. by destruct Hc as (_ & _ & Hc).
    + rewrite <- ER. eapply ordered_mono; [|eapply ordered_hi; [|exact HR]]; lia.
    + unfold ext in Hp. lia.
    + unfold str_fuel. rewrite ER, length_app in Hfuel. cbn [length] in *. lia.
Qed.

(** ** Linking the block in *)

Definition with_umem (s : ustate) (m : memory) : ustate := s <| us_mem := m |>.

(** The first half of [free]: the block takes over its right neighbour. *)
Lemma free_right s e p h n R {A} (k : U A) :
  ld32 (us_mem s) (h + 8) = n → chain (us_mem s) R base → ld64 (us_mem s) p = first R base →
  1 <= n → base < h → ordered (h + 16 * n) R 68719476736 →
  ∃ m1 n1 R1,
    (bsize ← hdr_size h; next ← hdr_ptr p;
     (if h + sizeof_header * bsize =? next then
        nsize ← hdr_size next; set_size h (bsize + nsize);; nnext ← hdr_ptr next; set_ptr h nnext
      else set_ptr h next);; k) s e = k (with_umem s m1) e ∧
    ld64 m1 h = first R1 base ∧ ld32 m1 (h + 8) = n1 ∧ (∀ x, x < h ∨ h + 16 <= x → ld8 m1 x = ld8 (us_mem s) x) ∧
    (R1 = R ∧ n1 = n ∨ ∃ a2 n2, R = (a2, n2) :: R1 ∧ h + 16 * n = a2 ∧ n1 = n + n2) ∧
    (R1 = R → h + 16 * n ≠ first R base).
Proof.
  intros Hn Hc Hp Hpos Hb Ho. unfold hdr_size, hdr_ptr, uld32, uld64, set_size, set_ptr, ust32, ust64, upd_mem.
  rewrite !bind_gets, Hn, Hp. unfold sizeof_header. destruct (Z.eqb_spec (h + 16 * n) (first R base)) as [E|NE].
  - destruct R as [|[a2 n2] R2]; simpl in E; [lia|]. cbn [first chain ordered] in *. destruct Hc as (C1 & C2 & C3).
    destruct Ho as (O1 & O2 & O3).
    rewrite bind_assoc, bind_gets, bind_assoc, bind_modify, bind_assoc, bind_gets, bind_modify. simpl.
    set (m0 := st32 (us_mem s) (h + 8) (u32 (n + ld32 (us_mem s) (a2 + 8)))).
    exists (st64 m0 h (ld64 m0 a2)), (n + n2), R2. split; [done|].
    assert (n2 < 4294967296 ∧ n + n2 < 4294967296) as [Hs1 Hs2].
    { pose proof (ordered_le _ _ _ O3). unfold ext in *. lia. }
    assert (first R2 base < 18446744073709551616 ∧ 0 <= first R2 base) as [F1 F2].
    { pose proof (ordered_le _ _ _ O3). unfold ext in *. destruct R2 as [|[a3 n3] R3]; cbn [first]; [lia|].
      cbn [ordered] in O3. destruct O3 as (? & ? & O3%ordered_le). unfold ext in *. lia. }
    assert (ld64 m0 a2 = first R2 base) as E0 by (unfold m0; by words).
    split; [words; rewrite E0; by apply u64_small|]. split.
    { words. unfold m0. words. rewrite C2, !u32_small by (rewrite ?u32_small; lia). done. }
    split; [intros x Hx; words; unfold m0; by words|]. split; [right; by exists a2, n2|].
    intros HR%(f_equal length). simpl in HR. lia.
  - rewrite bind_modify. exists (st64 (us_mem s) h (first R base)), n, R. split; [done|].
    assert (0 <= first R base < 18446744073709551616) as F1.
    { destruct R as [|[a3 n3] R3]; cbn [first ordered] in *; [lia|]. destruct Ho as (? & ? & Ho%ordered_le).
      unfold ext in *. lia. }
    split; [words; by apply u64_small|]. split; [by words|]. split; [intros x Hx; by words|]. split; [by left|done].
Qed.

(** The second half: its left neighbour takes the block over, or links to it. *)
Lemma free_left s e p pn h n1 nx :
  ld32 (us_mem s) (p + 8) = pn → ld32 (us_mem s) (h + 8) = n1 → ld64 (us_mem s) h = nx →
  base <= p → p + ext pn <= h → 0 <= pn → 0 <= n1 → h + 16 * n1 <= 68719476736 → 0 <= nx < 18446744073709551616 →
  ∃ m2,
    (psize ← hdr_size p;
     (if p + sizeof_header * psize =? h then
        bsize ← hdr_size h; set_size p (psize + bsize);; bnext ← hdr_ptr h; set_ptr p bnext
      else set_ptr p h);; ust64 freep p) s e = Ok tt (with_umem s m2) e ∧
    ld64 m2 freep = p ∧
    (∀ x, (x < p ∨ p + 16 <= x) → (x < freep ∨ freep + 8 <= x) → ld8 m2 x = ld8 (us_mem s) x) ∧
    (p + 16 * pn = h ∧ ld64 m2 p = nx ∧ ld32 m2 (p + 8) = pn + n1 ∨
     p + 16 * pn ≠ h ∧ ld64 m2 p = h ∧ ld32 m2 (p + 8) = pn).
Proof.
  intros Hp Hh Hx Hb Hph Hpn Hn1 Htop Hnx. unfold hdr_size, hdr_ptr, uld32, uld64, set_size, set_ptr, ust32, ust64, upd_mem.
  rewrite bind_gets, Hp. unfold sizeof_header, ext in *. destruct (Z.eqb_spec (p + 16 * pn) h) as [E|NE].
  - rewrite bind_assoc, bind_gets, bind_assoc, bind_modify, bind_assoc, bind_gets, bind_modify. simpl. rewrite Hh.
    set (m0 := st32 (us_mem s) (p + 8) (u32 (pn + n1))).
    assert (ld64 m0 h = nx) as E0 by (unfold m0; by words).
    exists (st64 (st64 m0 p (ld64 m0 h)) freep p). split; [done|]. rewrite E0.
    split; [words; apply u64_small; lia|]. split; [intros x Hx1 Hx2; unfold m0; by words|].
    left. split; [done|]. split; [words; by apply u64_small|]. words. unfold m0. words.
    rewrite !u32_small by (rewrite ?u32_small; lia). done.
  - rewrite bind_modify. exists (st64 (st64 (us_mem s) p h) freep p). split; [done|].
    split; [words; apply u64_small; lia|]. split; [intros x Hx1 Hx2; by words|].
    right. split; [done|]. split; [words; apply u64_small; lia|by words].
Qed.

(** What [free] changes: [freep] and headers. *)
Definition only_headers (m m' : memory) (nodes : list (Z * Z)) (h : Z) : Prop :=
  ∀ x, (x < freep ∨ freep + 8 <= x) → (x < h ∨ h + 16 <= x) →
    (∀ a k, (a, k) ∈ nodes → x < a ∨ a + 16 <= x) → ld8 m' x = ld8 m x.

(** The second half of [free]. *)
Definition free_tail (p h : Z) : U unit :=
  psize ← hdr_size p;
  (if p + sizeof_header * psize =? h then
     bsize ← hdr_size h; set_size p (psize + bsize);; bnext ← hdr_ptr h; set_ptr p bnext
   else set_ptr p h);; ust64 freep p.

(** The place of the block, the blocks after it and its new size, and the memory
    [m1] after the first half. *)
Record placed (m m1 : memory) (nodes : list (Z * Z)) (hi h n : Z) L (p pn : Z) R (n1 : Z) R1 : Prop := {
  pl_nodes : nodes = L ++ (p, pn) :: R;
  pl_p : base <= p ∧ p + ext pn <= h;
  pl_pn : 0 <= pn ∧ ld32 m (p + 8) = pn;
  pl_R : ordered (h + 16 * n) R hi;
  pl_R1 : R1 = R ∧ n1 = n ∨ ∃ a2 n2, R = (a2, n2) :: R1 ∧ h + 16 * n = a2 ∧ 0 <= n2 ∧ n1 = n + n2;
  pl_ptr : ld64 m1 h = first R1 base;
  pl_size : ld32 m1 (h + 8) = n1;
  pl_same : ∀ x, x < h ∨ h + 16 <= x → ld8 m1 x = ld8 m x;
  pl_gap : R1 = R → h + 16 * n ≠ first R base;
}.

Lemma free_first s e nodes alloc hi h n :
  heap (us_mem s) nodes alloc hi → block (us_mem s) nodes hi h n →
  ∃ m1 L p pn R n1 R1, placed (us_mem s) m1 nodes hi h n L p pn R n1 R1 ∧
    free freep (h + 16) s e = free_tail p h (with_umem s m1) e.
Proof.
  intros Hh [B1 B2 B3 B4 B5]. pose proof Hh as [(l & El & _) Ho Hc _ Hhi _ _].
  assert (base + 16 <= h) as Hbh.
  { destruct (B5 base 0) as [H|H]; [rewrite El; by left|unfold ext in H; lia|lia]. }
  destruct (insertion base nodes hi h n base 0 l) as (L & p & pn & R & E & Hp & HR); try done.
  pose proof (free_finds s e nodes alloc hi L p pn R h n Hh E Hp B1 HR) as Hfind.
  assert (base <= p ∧ 0 <= pn) as [Hbp Hpn].
  { destruct (ordered_elem _ _ _ p pn Ho) as (? & ? & _); [rewrite E; apply elem_of_app; right; by left|lia]. }
  rewrite E in Hc. apply chain_app in Hc as [_ Hc]. cbn [chain] in Hc. destruct Hc as (C1 & C2 & C3).
  pose proof (ordered_hi _ _ _ 68719476736 Hhi HR) as HR'.
  destruct (free_right s e p h n R (free_tail p h)) as (m1 & n1 & R1 & Ef & F1 & F2 & F3 & F4 & F5); try done; [lia|].
  exists m1, L, p, pn, R, n1, R1. split.
  - split; try done. destruct F4 as [F4|(a2 & n2 & F4 & F6 & F7)]; [by left|right]. exists a2, n2.
    rewrite F4 in HR. cbn [ordered] in HR. by destruct HR as (_ & ? & _).
  - unfold free. cbv zeta. replace (h + 16 - sizeof_header) with h by (unfold sizeof_header; lia).
    rewrite bind_gets. unfold uld64 at 1. rewrite bind_gets. erewrite bind_Ok by exact Hfind. exact Ef.
Qed.

(** The list after [free]. *)
Definition relinked L (p pn h n1 : Z) (R1 : list (Z * Z)) : list (Z * Z) :=
  if p + 16 * pn =? h then L ++ (p, pn + n1) :: R1 else L ++ (p, pn) :: (h, n1) :: R1.

Lemma placed_bounds m m1 nodes hi h n L p pn R n1 R1 :
  placed m m1 nodes hi h n L p pn R n1 R1 → 1 <= n → hi <= 68719476736 →
  n <= n1 ∧ ordered (h + 16 * n1) R1 hi ∧ h + 16 * n1 <= hi ∧ 0 <= first R1 base < 18446744073709551616.
Proof.
  intros [_ [P1 P2] _ P4 P5 _ _ _ _] Hn Hhi.
  assert (n <= n1 ∧ ordered (h + 16 * n1) R1 hi) as [H1 H2].
  { destruct P5 as [[-> ->]|(a2 & n2 & -> & H1 & H2 & ->)]; [by split|]. split; [lia|]. cbn [ordered] in P4.
    destruct P4 as (_ & _ & P4). eapply ordered_mono; [|done]. unfold ext. lia. }
  split; [done|]. split; [done|]. pose proof (ordered_le _ _ _ H2). split; [done|].
  destruct R1 as [|[a3 n3] R3]; cbn [first]; [unfold ext in *; lia|]. cbn [ordered] in H2.
  destruct H2 as (? & ? & H2%ordered_le). unfold ext in *. lia.
Qed.

Lemma free_run s e nodes alloc hi h n :
  heap (us_mem s) nodes alloc hi → block (us_mem s) nodes hi h n →
  ∃ m1 m2 L p pn R n1 R1, placed (us_mem s) m1 nodes hi h n L p pn R n1 R1 ∧
    free freep (h + 16) s e = Ok tt (with_umem s m2) e ∧ ld64 m2 freep = p ∧
    (∀ x, x < p ∨ p + 16 <= x → x < freep ∨ freep + 8 <= x → ld8 m2 x = ld8 m1 x) ∧
    (p + 16 * pn = h ∧ ld64 m2 p = first R1 base ∧ ld32 m2 (p + 8) = pn + n1 ∨
     p + 16 * pn ≠ h ∧ ld64 m2 p = h ∧ ld32 m2 (p + 8) = pn).
Proof.
  intros Hh Hb. destruct (free_first s e nodes alloc hi h n Hh Hb) as (m1 & L & p & pn & R & n1 & R1 & Hp & E).
  destruct (placed_bounds _ _ _ _ _ _ _ _ _ _ _ _ Hp (bl_pos _ _ _ _ _ Hb) (hp_hi _ _ _ _ Hh)) as (G1 & _ & G2 & G3).
  pose proof (bl_pos _ _ _ _ _ Hb). pose proof (hp_hi _ _ _ _ Hh). pose proof Hp as [P1 [P2 P2'] [P3 P3'] P4 P5 P6 P7 P8 _].
  destruct (free_left (with_umem s m1) e p pn h n1 (first R1 base)) as (m2 & E2 & K1 & K2 & K3); try done; try lia.
  { simpl. rewrite (ld32_ext (us_mem s)); [done|]. intros x Hx. apply P8. unfold ext in *. lia. }
  exists m1, m2, L, p, pn, R, n1, R1. split; [done|]. split; [by rewrite E|]. done.
Qed.

Lemma in_relinked L p pn h n1 R1 a k :
  (a, k) ∈ relinked L p pn h n1 R1 →
  (a, k) ∈ L ∨ (a, k) ∈ R1 ∨
  (p + 16 * pn = h ∧ a = p ∧ k = pn + n1) ∨ (p + 16 * pn ≠ h ∧ (a = p ∧ k = pn ∨ a = h ∧ k = n1)).
Proof.
  unfold relinked. destruct (Z.eqb_spec (p + 16 * pn) h); rewrite elem_of_app, !elem_of_cons; naive_solver.
Qed.

Lemma relinked_order m m1 nodes hi h n L p pn R n1 R1 :
  placed m m1 nodes hi h n L p pn R n1 R1 → 1 <= n → hi <= 68719476736 → ordered base nodes hi →
  ordered base (relinked L p pn h n1 R1) hi.
Proof.
  intros Hp Hn Hhi Ho. destruct (placed_bounds _ _ _ _ _ _ _ _ _ _ _ _ Hp Hn Hhi) as (G1 & G2 & G3 & _).
  destruct Hp as [-> [P1 P2] [P3 _] _ _ _ _ _ _]. apply ordered_app in Ho as (mid & Ho1 & Ho2). cbn [ordered] in Ho2.
  destruct Ho2 as (Hmid & _ & _). unfold relinked. unfold ext in *. destruct (Z.eqb_spec (p + 16 * pn) h) as [E|E].
  - apply ordered_app. exists mid. split; [done|]. cbn [ordered]. split; [done|]. split; [lia|].
    eapply ordered_mono; [|exact G2]. unfold ext. lia.
  - apply ordered_app. exists mid. split; [done|]. cbn [ordered]. split; [done|]. split; [lia|].
    split; [unfold ext; lia|]. split; [lia|]. eapply ordered_mono; [|exact G2]. unfold ext. lia.
Qed.

(** Every node of the old list lies below or above the place. *)
Lemma placed_sides m m1 nodes hi h n L p pn R n1 R1 :
  placed m m1 nodes hi h n L p pn R n1 R1 → 1 <= n → hi <= 68719476736 → ordered base nodes hi →
  (∀ a k, (a, k) ∈ L → base <= a ∧ a + 16 <= a + ext k <= p) ∧
  (∀ a k, (a, k) ∈ R1 → h + 16 * n1 <= a ∧ (a, k) ∈ R).
Proof.
  intros Hp Hn Hhi Ho. destruct (placed_bounds _ _ _ _ _ _ _ _ _ _ _ _ Hp Hn Hhi) as (_ & G2 & _ & _).
  destruct Hp as [-> _ _ _ P5 _ _ _ _]. apply ordered_app in Ho as (mid & Ho1 & Ho2). cbn [ordered] in Ho2. split.
  - intros a k Hin. destruct (ordered_elem _ _ _ _ _ Ho1 Hin) as (? & ? & ?). unfold ext in *. lia.
  - intros a k Hin. destruct (ordered_elem _ _ _ _ _ G2 Hin) as (? & _ & _). split; [done|].
    destruct P5 as [[-> _]|(a2 & n2 & -> & _)]; [done|by right].
Qed.

Lemma relinked_chain s m1 m2 nodes hi h n L p pn R n1 R1 :
  placed (us_mem s) m1 nodes hi h n L p pn R n1 R1 → 1 <= n → hi <= 68719476736 → ordered base nodes hi →
  chain (us_mem s) nodes base →
  (∀ x, x < p ∨ p + 16 <= x → x < freep ∨ freep + 8 <= x → ld8 m2 x = ld8 m1 x) →
  (p + 16 * pn = h ∧ ld64 m2 p = first R1 base ∧ ld32 m2 (p + 8) = pn + n1 ∨
   p + 16 * pn ≠ h ∧ ld64 m2 p = h ∧ ld32 m2 (p + 8) = pn) →
  chain m2 (relinked L p pn h n1 R1) base.
Proof.
  intros Hp Hn Hhi Ho Hc K2 K3. destruct (placed_sides _ _ _ _ _ _ _ _ _ _ _ _ Hp Hn Hhi Ho) as [S1 S2].
  destruct (placed_bounds _ _ _ _ _ _ _ _ _ _ _ _ Hp Hn Hhi) as (G1 & G2 & G3 & _).
  destruct Hp as [E [P1 P2] [P3 _] _ P5 P6 P7 P8 _]. rewrite E in Hc. apply chain_app in Hc as [Hc1 Hc2].
  cbn [first chain] in Hc1, Hc2. destruct Hc2 as (_ & _ & Hc2). unfold ext in P2.
  assert (chain m2 L p) as HL.
  { eapply chain_same; [|exact Hc1]. intros a k x Hin Hx. destruct (S1 a k Hin) as (? & ?). rewrite K2 by lia. apply P8. lia. }
  assert (chain m2 R1 base) as HR.
  { assert (chain (us_mem s) R1 base) as Hc3.
    { destruct P5 as [[-> _]|(a2 & n2 & -> & _)]; [done|]. by destruct Hc2 as (_ & _ & ?). }
    eapply chain_same; [|exact Hc3]. intros a k x Hin Hx. destruct (S2 a k Hin) as [? _]. rewrite K2 by lia. apply P8. lia. }
  unfold relinked. destruct K3 as [(K3 & K4 & K5)|(K3 & K4 & K5)].
  - rewrite (proj2 (Z.eqb_eq _ _) K3). apply chain_app. by split.
  - rewrite (proj2 (Z.eqb_neq _ _) K3). apply chain_app. split; [done|]. cbn [chain first]. split; [done|]. split; [done|].
    split; [|split; [|done]].
    + rewrite <- P6. apply ld64_ext. intros x Hx. apply K2; lia.
    + rewrite <- P7. apply ld32_ext. intros x Hx. apply K2; lia.
Qed.

Lemma relinked_head m m1 nodes hi h n L p pn R n1 R1 l :
  placed m m1 nodes hi h n L p pn R n1 R1 → 1 <= n → hi <= 68719476736 →
  nodes = (base, 0) :: l → Forall (λ b, 1 <= b.2) l →
  ∃ l', relinked L p pn h n1 R1 = (base, 0) :: l' ∧ Forall (λ b, 1 <= b.2) l'.
Proof.
  intros Hp Hn Hhi El Hl. destruct (placed_bounds _ _ _ _ _ _ _ _ _ _ _ _ Hp Hn Hhi) as (G1 & _ & _ & _).
  destruct Hp as [E [P1 P2] [P3 _] _ P5 _ _ _ _]. rewrite E in El. unfold relinked, ext in *.
  assert (Forall (λ b, 1 <= b.2) R → Forall (λ b, 1 <= b.2) R1) as HR.
  { destruct P5 as [[-> _]|(a2 & n2 & -> & _)]; [done|]. by inversion 1. }
  destruct L as [|b L]; simpl in El; injection El; intros.
  - subst. rewrite (proj2 (Z.eqb_neq _ _)) by lia. eexists. split; [reflexivity|]. constructor; [simpl; lia|auto].
  - subst. apply Forall_app in Hl as [Hl1 Hl2]. inversion Hl2; subst. simpl in *.
    destruct (_ =? _); (eexists; split; [reflexivity|]); apply Forall_app; (split; [done|]);
      repeat constructor; simpl; auto; lia.
Qed.

Lemma relinked_units m m1 nodes hi h n L p pn R n1 R1 :
  placed m m1 nodes hi h n L p pn R n1 R1 → free_units (relinked L p pn h n1 R1) = free_units nodes + n.
Proof.
  intros [-> _ _ _ P5 _ _ _ _]. unfold relinked. rewrite free_units_app.
  destruct (_ =? _); rewrite free_units_app; unfold free_units at 2 4; simpl; fold (free_units R) (free_units R1).
  all: destruct P5 as [[-> ->]|(a2 & n2 & -> & _ & _ & ->)]; unfold free_units; simpl; lia.
Qed.

Lemma relinked_separated m m1 nodes hi h n L p pn R n1 R1 :
  placed m m1 nodes hi h n L p pn R n1 R1 → separated nodes base → separated (relinked L p pn h n1 R1) base.
Proof.
  intros [-> _ _ _ P5 _ _ _ P9] (H1 & H2 & H3)%separated_app. cbn [first] in *.
  assert (h + 16 * n1 ≠ first R1 base ∧ separated R1 base) as [H4 H5].
  { destruct P5 as [[-> ->]|(a2 & n2 & -> & E & _ & ->)]; [auto|]. destruct H3 as [H3 H5]. split; [lia|done]. }
  unfold relinked. destruct (Z.eqb_spec (p + 16 * pn) h); apply separated_app; cbn [first separated]; repeat split; auto; lia.
Qed.

(** A free or an allocated block is not where [free] writes. *)
Lemma block_kept m m2 nodes nodes' hi h n h' n' :
  block m nodes hi h' n' → only_headers m m2 nodes h → h + 16 * n <= h' ∨ h' + 16 * n' <= h → 1 <= n →
  apart nodes' h' n' → block m2 nodes' hi h' n' ∧ ∀ x, h' <= x < h' + 16 * n' → ld8 m2 x = ld8 m x.
Proof.
  intros [B1 B2 B3 B4 B5] Hoh Hd Hn Hap.
  assert (∀ x, h' <= x < h' + 16 * n' → ld8 m2 x = ld8 m x) as E.
  { intros x Hx. apply Hoh; [lia|lia|]. intros a k Hin. destruct (B5 a k Hin); unfold ext in *; lia. }
  split; [|done]. split; try done. rewrite <- B4. apply ld32_ext. intros x Hx. apply E. lia.
Qed.

Lemma free_block s e nodes alloc hi h n :
  heap (us_mem s) nodes alloc hi → block (us_mem s) nodes hi h n → disjoint_from alloc h n →
  ∃ m2 nodes', free freep (h + 16) s e = Ok tt (with_umem s m2) e ∧ heap m2 nodes' alloc hi ∧
    only_headers (us_mem s) m2 nodes h ∧ free_units nodes' = free_units nodes + n ∧
    (separated nodes base → separated nodes' base) ∧
    (length nodes' <= S (length nodes))%nat ∧ ∃ a k, (a, k) ∈ nodes' ∧ n <= k.
Proof.
  intros Hh Hb Hd. destruct (free_run s e nodes alloc hi h n Hh Hb) as
    (m1 & m2 & L & p & pn & R & n1 & R1 & Hp & Ef & K1 & K2 & K3).
  destruct Hh as [(l & El & Hl) Ho Hc _ Hhi Ha Hdj]. pose proof (bl_pos _ _ _ _ _ Hb) as Hn.
  destruct (placed_bounds _ _ _ _ _ _ _ _ _ _ _ _ Hp Hn Hhi) as (G1 & _ & _ & _).
  destruct (placed_sides _ _ _ _ _ _ _ _ _ _ _ _ Hp Hn Hhi Ho) as [S1 S2].
  pose proof Hp as [E [P1 P2] [P3 _] _ P5 _ _ P8 _].
  assert (only_headers (us_mem s) m2 nodes h) as Hoh.
  { intros x Hx1 Hx2 Hx3. rewrite K2; [by apply P8| |done]. apply (Hx3 p pn). rewrite E. apply elem_of_app. right. by left. }
  assert ((p, pn) ∈ nodes) as Hpin by (rewrite E; apply elem_of_app; right; by left).
  assert (∀ h' n', alloc !! h' = Some n' → apart (relinked L p pn h n1 R1) h' n') as Hap.
  { intros h' n' Hin a k Hk. pose proof (Ha _ _ Hin) as [B1 B2 B3 B4 B5]. pose proof (Hd _ _ Hin) as Hdh.
    assert (p + ext pn <= h' ∨ h' + 16 * n' <= p) as Hd1 by (by apply B5).
    assert (h + 16 * n1 <= h' ∨ h' + 16 * n' <= h) as Hd2.
    { destruct P5 as [[_ ->]|(a2 & n2 & ER & H1 & H2 & ->)]; [lia|].
      destruct (B5 a2 n2) as [H3|H3]; [rewrite E, ER; apply elem_of_app; right; right; by left|unfold ext in H3; lia|lia]. }
    apply in_relinked in Hk as [Hk|[Hk|[(Hm & -> & ->)|(Hm & [[-> ->]|[-> ->]])]]]; unfold ext in *.
    - apply B5. rewrite E. apply elem_of_app. by left.
    - apply B5. rewrite E. apply elem_of_app. right. right. by apply S2.
    - lia.
    - done.
    - lia. }
  exists m2, (relinked L p pn h n1 R1). split; [done|]. split; [|split; [done|split; [by eapply relinked_units|split; [by eapply relinked_separated|split]]]].
  - split; try done.
    + by eapply relinked_head.
    + by eapply relinked_order.
    + by eapply (relinked_chain s).
    + rewrite K1. unfold relinked. destruct (_ =? _); eexists; apply elem_of_app; right; by left.
    + intros h' n' Hin. eapply block_kept; [by apply Ha|done|by apply Hd|done|by apply Hap].
  - assert (length R1 <= length R)%nat by (destruct P5 as [[-> _]|(a2 & n2 & -> & _)]; simpl; lia).
    rewrite E. unfold relinked. destruct (_ =? _); rewrite !length_app; simpl; lia.
  - unfold relinked. destruct (_ =? _).
    + exists p, (pn + n1). split; [apply elem_of_app; right; by left|lia].
    + exists h, n1. split; [apply elem_of_app; right; right; by left|lia].
Qed.

(** ** malloc *)

(** The bytes of the blocks in use are the same. *)
Definition kept (m m' : memory) (alloc : gmap Z Z) : Prop :=
  ∀ h n x, alloc !! h = Some n → h <= x < h + 16 * n → ld8 m' x = ld8 m x.

(** A call that carved the block [h] of [nu] units from a free block. *)
Definition carved (nu : Z) (s : ustate) (nodes : list (Z * Z)) (alloc : gmap Z Z) (hi : Z)
    (o : outcome ustate Z) (e : list (ustate → ustate)) : Prop :=
  ∃ h m' nodes', o = Ok (h + 16) (with_umem s m') e ∧ alloc !! h = None ∧ heap m' nodes' (<[h := nu]> alloc) hi ∧
    kept (us_mem s) m' alloc ∧ free_units nodes' = free_units nodes - nu ∧ ∃ a k, (a, k) ∈ nodes ∧ nu <= k.

(** A block cut from the free block [(a, k)] keeps the heap. *)
Lemma heap_carve m m' nodes nodes' alloc hi a k h nu L q qn R :
  heap m nodes alloc hi → nodes = L ++ (q, qn) :: (a, k) :: R → 1 <= nu <= k → h = a + 16 * (k - nu) →
  nodes' = L ++ (q, qn) :: (if k =? nu then R else (a, k - nu) :: R) →
  chain m' nodes' base → ld64 m' freep = q → ld32 m' (h + 8) = nu →
  (∀ x, x < freep ∨ freep + 8 <= x → (∀ b j, (b, j) ∈ nodes → x < b ∨ b + ext j <= x) → ld8 m' x = ld8 m x) →
  alloc !! h = None ∧ heap m' nodes' (<[h := nu]> alloc) hi ∧ kept m m' alloc.
Proof.
  intros [(l & El & Hl) Ho Hc Hf Hhi Ha Hdj] E Hnu -> En Hc' Hf' Hs' Hfr. set (h := a + 16 * (k - nu)) in *.
  assert ((a, k) ∈ nodes) as Hin by (rewrite E; apply elem_of_app; right; right; by left).
  pose proof (ordered_elem _ _ _ _ _ Ho Hin) as (O1 & O2 & O3).
  assert (∀ h' n', alloc !! h' = Some n' → h + 16 * nu <= h' ∨ h' + 16 * n' <= h) as Hd.
  { intros h' n' H'. destruct (Ha _ _ H') as [B1 B2 B3 B4 B5]. destruct (B5 _ _ Hin); unfold ext in *; lia. }
  assert (∀ h' n', alloc !! h' = Some n' → ∀ x, h' <= x < h' + 16 * n' → ld8 m' x = ld8 m x) as Hk.
  { intros h' n' H' x Hx. destruct (Ha _ _ H') as [B1 B2 B3 B4 B5]. apply Hfr; [lia|]. intros b j Hb.
    destruct (B5 _ _ Hb); unfold ext in *; lia. }
  assert (∀ b j, (b, j) ∈ nodes' → (∃ j', (b, j') ∈ nodes ∧ ext j <= ext j') ∧ (b + ext j <= h ∨ h + 16 * nu <= b)) as Hsub.
  { rewrite E in Ho. apply ordered_app in Ho as (mid & Ho1 & Ho2). cbn [ordered] in Ho2. destruct Ho2 as (Q1 & Q2 & Q3 & Q4 & Q5).
    intros b j Hb. rewrite En in Hb. apply elem_of_app in Hb as [Hb|Hb]; [|apply elem_of_cons in Hb as [[= -> ->]|Hb]].
    - split; [exists j; split; [rewrite E; apply elem_of_app; by left|lia]|]. destruct (ordered_elem _ _ _ _ _ Ho1 Hb). unfold ext in *. lia.
    - split; [exists qn; split; [rewrite E; apply elem_of_app; right; by left|lia]|]. unfold ext in *. lia.
    - assert ((b, j) ∈ R ∨ k ≠ nu ∧ b = a ∧ j = k - nu) as [HbR|(Hne & -> & ->)].
      { revert Hb. destruct (Z.eqb_spec k nu); intros Hb; [by left|]. apply elem_of_cons in Hb as [[= -> ->]|?]; auto. }
      + split; [exists j; split; [rewrite E; apply elem_of_app; right; right; by right|lia]|].
        destruct (ordered_elem _ _ _ _ _ Q5 HbR). unfold ext in *. lia.
      + split; [exists k; split; [done|unfold ext; lia]|]. unfold ext in *. lia. }
  assert (alloc !! h = None) as Hnone.
  { destruct (alloc !! h) as [n'|] eqn:H'; [|done]. destruct (Ha _ _ H'). destruct (Hd _ _ H'); lia. }
  split; [done|]. split; [|intros h' n' x H' Hx; by apply (Hk h' n')]. split; try done.
  - assert (Forall (λ c, 1 <= c.2) R → Forall (λ c, 1 <= c.2) (if k =? nu then R else (a, k - nu) :: R)) as HR.
    { intros HR. destruct (Z.eqb_spec k nu); [done|]. constructor; [simpl; lia|done]. }
    rewrite E in El. rewrite En. destruct L as [|b L]; simpl in El.
    + injection El as -> -> <-. apply Forall_cons in Hl as [_ Hl]. eauto.
    + injection El as -> <-. apply Forall_app in Hl as [Hl1 Hl2]. apply Forall_cons in Hl2 as [Hl2 Hl3].
      apply Forall_cons in Hl3 as [_ Hl3]. eexists. split; [reflexivity|]. apply Forall_app. split; [done|].
      constructor; auto.
  - rewrite E in Ho. apply ordered_app in Ho as (mid & Ho1 & Ho2). rewrite En. apply ordered_app. exists mid. split; [done|].
    cbn [ordered] in *. destruct Ho2 as (Q1 & Q2 & Q3 & Q4 & Q5). split; [done|]. split; [done|].
    destruct (Z.eqb_spec k nu); [eapply ordered_mono; [|exact Q5]; unfold ext in *; lia|]. cbn [ordered].
    split; [done|]. split; [lia|]. eapply ordered_mono; [|exact Q5]. unfold ext. lia.
  - rewrite Hf', En. exists qn. apply elem_of_app. right. by left.
  - intros h' n'. rewrite lookup_insert_Some. intros [[<- <-]|[Hne H']].
    + split; [lia|unfold h; lia|unfold h, ext in *; lia|done|]. intros b j Hb. by apply Hsub.
    + destruct (Ha _ _ H') as [B1 B2 B3 B4 B5]. split; try done.
      * rewrite <- B4. apply ld32_ext. intros x Hx. apply (Hk h' n' H'). lia.
      * intros b j Hb. destruct (Hsub b j Hb) as [(j' & Hj & Hle) _]. destruct (B5 _ _ Hj); lia.
  - intros h' n' H1 h2 n2 H2. apply lookup_delete_Some in H2 as [Hne H2]. rewrite lookup_insert_Some in H1, H2.
    destruct H1 as [[<- <-]|[Hne1 H1]], H2 as [[<- <-]|[Hne2 H2]]; [done|by apply Hd|destruct (Hd _ _ H1); lia|].
    apply (Hdj h' n' H1 h2 n2). by apply lookup_delete_Some.
Qed.

(** The memory after a block was cut from [(a, k)], the successor of [q]. *)
Definition carve_mem (m : memory) (q a k nu nx : Z) : memory :=
  if k =? nu then st64 (st64 m q nx) freep q
  else st64 (st32 (st32 m (a + 8) (u32 (k - nu))) (a + 16 * (k - nu) + 8) (u32 nu)) freep q.

Lemma carve_run s e q a k nu nx fuel :
  ld32 (us_mem s) (a + 8) = k → ld64 (us_mem s) a = nx → 1 <= nu <= k → k < 4294967296 →
  loop (S fuel) (malloc_round freep nu) (q, a) s e =
    Ok (a + 16 * (k - nu) + 16) (with_umem s (carve_mem (us_mem s) q a k nu nx)) e.
Proof.
  intros C4 C3 Hnu Hk. cbn [loop].
  unfold malloc_round, hdr_size, hdr_ptr, set_size, set_ptr, ust64, ust32, uld64, uld32, upd_mem.
  rewrite bind_assoc, bind_gets, C4, (proj2 (Z.leb_le nu k)) by lia. unfold carve_mem, sizeof_header.
  destruct (Z.eqb_spec k nu) as [->|Hne]; unfold mbind, M_bind, gets, modify, mret, M_ret, with_umem, set; simpl.
  - rewrite C3. f_equal. lia.
  - by rewrite (u32_small (k - nu)) by lia.
Qed.

(** The list in the new memory. *)
Lemma carve_chain m L q qn a k nu R hi :
  chain m (L ++ (q, qn) :: (a, k) :: R) base → ordered base (L ++ (q, qn) :: (a, k) :: R) hi → hi <= 68719476736 → 1 <= nu <= k →
  let m' := carve_mem m q a k nu (first R base) in
  chain m' (L ++ (q, qn) :: (if k =? nu then R else (a, k - nu) :: R)) base ∧ ld64 m' freep = q ∧
  ld32 m' (a + 16 * (k - nu) + 8) = nu ∧
  (∀ x, x < freep ∨ freep + 8 <= x → x < q ∨ q + ext qn <= x → x < a ∨ a + ext k <= x → ld8 m' x = ld8 m x).
Proof.
  intros Hc Ho Hhi Hnu m'. apply ordered_app in Ho as (mid & Ho1 & Ho2). cbn [ordered] in Ho2.
  destruct Ho2 as (Q1 & Q2 & Q3 & _ & Q5). pose proof (ordered_le _ _ _ Ho1) as Hmid. pose proof (ordered_le _ _ _ Q5) as Hak.
  apply chain_app in Hc as [Hc1 Hc2]. cbn [first chain] in Hc1, Hc2. destruct Hc2 as (C1 & C2 & C3 & C4 & C5).
  assert (0 <= first R base < 18446744073709551616) as HR.
  { unfold ext in *. destruct R as [|[a3 n3] R3]; cbn [first ordered] in *; [lia|]. destruct Q5 as (? & ? & Q5%ordered_le). unfold ext in *. lia. }
  assert (∀ x, x < freep ∨ freep + 8 <= x → x < q ∨ q + 8 <= x → x < a + 8 ∨ a + 16 * k <= x → ld8 m' x = ld8 m x) as Hfr.
  { intros x X1 X2 X3. unfold m', carve_mem. destruct (Z.eqb_spec k nu); by words. }
  assert (same_headers m m' L ∧ same_headers m m' R) as [SL SR].
  { split; intros b j x Hb Hx; apply Hfr.
    1-3: destruct (ordered_elem _ _ _ _ _ Ho1 Hb) as (? & ? & ?); unfold ext in *; lia.
    1-3: destruct (ordered_elem _ _ _ _ _ Q5 Hb) as (? & ? & ?); unfold ext in *; lia. }
  unfold ext in *. split; [|split; [|split]].
  - apply chain_app. cbn [first]. split; [by eapply chain_same|]. unfold m', carve_mem in *.
    destruct (Z.eqb_spec k nu); cbn [chain first].
    + split; [words; by apply u64_small|]. split; [by words|]. by eapply chain_same.
    + split; [by words|]. split; [by words|]. split; [by words|]. split; [words; by rewrite (u32_small (k - nu)), u32_small by lia|]. by eapply chain_same.
  - unfold m', carve_mem. destruct (k =? nu); words; apply u64_small; lia.
  - unfold m', carve_mem. destruct (Z.eqb_spec k nu) as [->|Hne].
    + replace (a + 16 * (nu - nu) + 8) with (a + 8) by lia. words. done.
    + words. by rewrite (u32_small nu), u32_small by lia.
  - intros x X1 X2 X3. apply Hfr; lia.
Qed.

Lemma malloc_fits s e nodes alloc hi L q qn a k R nu fuel :
  heap (us_mem s) nodes alloc hi → nodes = L ++ (q, qn) :: (a, k) :: R → 1 <= nu <= k →
  carved nu s nodes alloc hi (loop (S fuel) (malloc_round freep nu) (q, a) s e) e.
Proof.
  intros Hh E Hnu. pose proof Hh as [_ Ho Hc _ Hhi _ _].
  assert ((a, k) ∈ nodes ∧ (q, qn) ∈ nodes) as [Hin Hqin]
    by (rewrite E; split; apply elem_of_app; right; [right|]; by left).
  pose proof (ordered_elem _ _ _ _ _ Ho Hin) as (O1 & O2 & O3). unfold ext in O3. rewrite E in Ho, Hc.
  destruct (carve_chain _ _ _ _ _ _ nu _ _ Hc Ho Hhi Hnu) as (K1 & K2 & K3 & K4).
  apply chain_app in Hc as [_ Hc2]. cbn [first chain] in Hc2. destruct Hc2 as (_ & _ & C3 & C4 & _).
  eexists _, _, _. split; [apply carve_run; [done|done|lia|lia]|].
  destruct (heap_carve (us_mem s) (carve_mem (us_mem s) q a k nu (first R base)) nodes
    (L ++ (q, qn) :: (if k =? nu then R else (a, k - nu) :: R)) alloc hi a k (a + 16 * (k - nu)) nu L q qn R) as (H1 & H2 & H3); try done.
  { intros x X1 X2. apply K4; [done|by apply X2|by apply X2]. }
  split; [done|]. split; [exact H2|]. split; [done|]. split; [|exists a, k; split; [done|lia]]. rewrite E, !free_units_app. unfold free_units at 2 4. simpl.
  destruct (Z.eqb_spec k nu); simpl; lia.
Qed.

(** ** The search *)

Lemma malloc_skip s e q a k nu fuel :
  ld32 (us_mem s) (a + 8) = k → k < nu → a ≠ ld64 (us_mem s) freep →
  loop (S fuel) (malloc_round freep nu) (q, a) s e = loop fuel (malloc_round freep nu) (a, ld64 (us_mem s) a) s e.
Proof.
  intros Hk Hlt Hne. cbn [loop].
  assert (malloc_round freep nu (q, a) s e = Ok (inl (a, ld64 (us_mem s) a)) s e) as Hr.
  { unfold malloc_round, hdr_size, hdr_ptr, uld32, uld64.
    by rewrite bind_gets, Hk, (proj2 (Z.leb_gt nu k)), bind_gets, (proj2 (Z.eqb_neq _ _) Hne) by done. }
  by rewrite (bind_Ok _ _ _ _ _ _ _ Hr).
Qed.

(** [prev] is the last node of [A]. *)
Definition ends_with (A : list (Z * Z)) (prev : Z) : Prop := A = [] ∨ ∃ A' n, A = A' ++ [(prev, n)].

Section search.
Context (s : ustate) (e : list (ustate → ustate)) (nodes : list (Z * Z)) (alloc : gmap Z Z) (hi nu : Z).
Context (Hheap : heap (us_mem s) nodes alloc hi) (Hnu : 1 <= nu).

Abbreviation search := (λ fuel x, loop fuel (malloc_round freep nu) x s e).

Lemma node_size A a k B : nodes = A ++ (a, k) :: B → ld32 (us_mem s) (a + 8) = k ∧ ld64 (us_mem s) a = first B base.
Proof.
  intros E. pose proof (hp_chain _ _ _ _ Hheap) as Hc. rewrite E in Hc. apply chain_app in Hc as [_ Hc].
  by destruct Hc as (? & ? & _).
Qed.

Lemma node_fits A a k B prev fuel :
  nodes = A ++ (a, k) :: B → ends_with A prev → nu <= k → carved nu s nodes alloc hi (search (S fuel) (prev, a)) e.
Proof.
  intros E HA Hk. destruct HA as [->|(A' & n & ->)].
  - destruct (hp_head _ _ _ _ Hheap) as (l & El & _). rewrite E in El. injection El as _ ->. lia.
  - rewrite <- app_assoc in E. eapply malloc_fits; [done|exact E|lia].
Qed.

Lemma scan S : ∀ A B prev fuel,
  nodes = A ++ S ++ B → ends_with A prev → (∀ a k, (a, k) ∈ S → a ≠ ld64 (us_mem s) freep) →
  carved nu s nodes alloc hi (search (length S + fuel)%nat (prev, first (S ++ B) base)) e ∨
  ((∀ a k, (a, k) ∈ S → k < nu) ∧ ∃ prev', ends_with (A ++ S) prev' ∧
    search (length S + fuel)%nat (prev, first (S ++ B) base) = search fuel (prev', first B base)).
Proof.
  induction S as [|[a k] S IH]; intros A B prev fuel E HA HS.
  - right. split; [set_solver|]. exists prev. by rewrite app_nil_r.
  - cbn [length Nat.add app first] in *. destruct (decide (nu <= k)) as [Hk|Hk]; [left; by eapply node_fits|].
    destruct (node_size A a k (S ++ B) E) as [E1 E2].
    rewrite (malloc_skip s e prev a k) by (done || lia || (apply (HS a k); by left)). rewrite E2.
    destruct (IH (A ++ [(a, k)]) B a fuel) as [Hc|(Hsm & prev' & He & Hr)].
    + by rewrite <- app_assoc.
    + right. by exists A, k.
    + intros b j Hb. apply (HS b j). by right.
    + by left.
    + right. split; [intros b j [[= -> ->]|Hb]%elem_of_cons; [lia|by eapply Hsm]|].
      exists prev'. split; [by rewrite <- app_assoc in He|done].
Qed.

(** What [malloc] does when nothing fits. *)
Definition grow : U (Z * Z + Z) :=
  p ← morecore freep nu;
  if p =? 0 then mret (inr 0) else
  next ← hdr_ptr p;
  mret (inl (p, next)).

Lemma search_walk fuel :
  carved nu s nodes alloc hi (search (length nodes + fuel)%nat (ld64 (us_mem s) freep, ld64 (us_mem s) (ld64 (us_mem s) freep))) e ∨
  ((∀ a k, (a, k) ∈ nodes → k < nu) ∧
   search (length nodes + fuel)%nat (ld64 (us_mem s) freep, ld64 (us_mem s) (ld64 (us_mem s) freep)) =
     (r ← grow; match r with inl x => loop fuel (malloc_round freep nu) x | inr a => mret a end) s e).
Proof.
  destruct (hp_freep _ _ _ _ Hheap) as [fn Hin]. set (fp := ld64 (us_mem s) freep) in *.
  apply list_elem_of_split in Hin as (A & B & E). destruct (node_size A fp fn B E) as [F1 F2].
  assert (∀ a k, (a, k) ∈ A ++ B → a ≠ fp) as Hne.
  { pose proof (hp_order _ _ _ _ Hheap) as Ho. rewrite E in Ho. apply ordered_app in Ho as (mid & Ho1 & Ho2).
    cbn [ordered] in Ho2. destruct Ho2 as (? & ? & Ho2). intros a k Hk. apply elem_of_app in Hk as [Hk|Hk].
    - destruct (ordered_elem _ _ _ _ _ Ho1 Hk). unfold ext in *. lia.
    - destruct (ordered_elem _ _ _ _ _ Ho2 Hk). unfold ext in *. lia. }
  replace (length nodes + fuel)%nat with (length B + (length A + S fuel))%nat
    by (rewrite E, length_app; simpl; lia).
  rewrite F2. destruct (scan B (A ++ [(fp, fn)]) [] fp (length A + S fuel)%nat) as [Hc|(HB & prev1 & _ & Hr1)].
  { by rewrite app_nil_r, <- app_assoc. }
  { right. by exists A, fn. }
  { intros a k Hk. apply (Hne a k), elem_of_app. by right. }
  { left. by rewrite app_nil_r in Hc. }
  rewrite app_nil_r in Hr1. rewrite Hr1. cbn [first].
  assert (first (A ++ (fp, fn) :: B) base = base) as Eb.
  { rewrite <- E. by destruct (hp_head _ _ _ _ Hheap) as (l & -> & _). }
  destruct (scan A [] ((fp, fn) :: B) prev1 (S fuel)) as [Hc|(HA & prev2 & He & Hr2)]; rewrite ?Eb in *; [done|by left| |by left|].
  { intros a k Hk. apply (Hne a k), elem_of_app. by left. }
  rewrite Hr2. cbn [first]. destruct (decide (nu <= fn)) as [Hk|Hk]; [left; by eapply node_fits|].
  right. split.
  { intros a k Hk'. rewrite E in Hk'. apply elem_of_app in Hk' as [?|[[= -> ->]|?]%elem_of_cons]; [by eapply HA|lia|by eapply HB]. }
  cbn [loop]. assert (malloc_round freep nu (prev2, fp) s e = grow s e) as Hr.
  { unfold malloc_round, hdr_size, uld32, uld64. rewrite bind_gets, F1, (proj2 (Z.leb_gt nu fn)), bind_gets by lia.
    fold fp. by rewrite Z.eqb_refl. }
  unfold mbind, M_bind. by rewrite Hr.
Qed.

End search.

(** ** Growing the heap *)

(** The kernel refuses, or gives [n] new bytes above [hi]. *)
Definition sbrk_answer (hi : Z) (f : ustate → ustate) : Prop :=
  ∀ s n how, us_call s = CSbrk n how →
    us_ret (f s) = u64 (-1) ∧ us_mem (f s) = us_mem s ∨
    hi <= us_ret (f s) ∧ us_ret (f s) + n <= 68719476736 ∧
    ∀ x, x < us_ret (f s) ∨ us_ret (f s) + n <= x → ld8 (us_mem (f s)) x = ld8 (us_mem s) x.

Lemma heap_ext m m' nodes alloc hi hi' :
  heap m nodes alloc hi → hi <= hi' <= 68719476736 → (∀ x, x < hi → ld8 m' x = ld8 m x) → heap m' nodes alloc hi'.
Proof.
  intros [Hh Ho Hc [k Hf] Hhi Ha Hd] Hhi' E. pose proof (ordered_le _ _ _ Ho) as Hb. split; try done.
  - by eapply ordered_hi; [|done]; lia.
  - eapply chain_same; [|done]. intros a n x Hin Hx. destruct (ordered_elem _ _ _ _ _ Ho Hin) as (? & ? & ?).
    apply E. unfold ext in *. lia.
  - exists k. rewrite (ld64_ext m); [done|]. intros x Hx. apply E. lia.
  - lia.
  - intros h n Hin. destruct (Ha h n Hin) as [B1 B2 B3 B4 B5]. split; try done; [lia|].
    rewrite <- B4. apply ld32_ext. intros x Hx. apply E. lia.
Qed.

Lemma more_ok s f e nodes alloc hi nu :
  heap (us_mem s) nodes alloc hi → 1 <= nu → nu * 16 < 2147483648 → sbrk_answer hi f →
  ∃ s', (grow nu s (f :: e) = Ok (inr 0) s' e ∧ us_mem s' = us_mem s ∧ us_ret s' = u64 (-1)) ∨
    ∃ nodes' hi', let fp := ld64 (us_mem s') freep in
      grow nu s (f :: e) = Ok (inl (fp, ld64 (us_mem s') fp)) s' e ∧ heap (us_mem s') nodes' alloc hi' ∧
      kept (us_mem s) (us_mem s') alloc ∧ (length nodes' <= S (length nodes))%nat ∧ ∃ a k, (a, k) ∈ nodes' ∧ nu <= k.
Proof.
  intros Hh Hnu Hbig Hf. set (nu' := if nu <? 4096 then 4096 else nu).
  assert (nu <= nu' ∧ 4096 <= nu' ∧ nu' * 16 < 2147483648) as (N1 & N2 & N3).
  { unfold nu'. destruct (Z.ltb_spec nu 4096); lia. }
  set (c := CSbrk (i32 (nu' * 16)) SBRK_EAGER). specialize (Hf (s <| us_call := c |>) _ _ eq_refl).
  rewrite (i32_small (nu' * 16)) in Hf by lia. set (s1 := f (s <| us_call := c |>)) in *. simpl in Hf.
  set (s2 := s1 <| us_trace ::= λ t, t ++ [(c, us_ret s1)] |>).
  assert (∀ B (k : Z → U B), (sbrk (i32 (nu' * 16)) ≫= k) s (f :: e) = k (us_ret s1) s2 e) as Hcall by done.
  assert (grow nu s (f :: e) = (if us_ret s1 =? u64 (-1) then mret (inr 0) else
     set_size (us_ret s1) nu';; free freep (us_ret s1 + 16);;
     p ← uld64 freep; if p =? 0 then mret (inr 0) else next ← hdr_ptr p; mret (inl (p, next))) s2 e) as Hg.
  { unfold grow, morecore. fold nu'. unfold sizeof_header at 1. rewrite bind_assoc, Hcall.
    destruct (us_ret s1 =? u64 (-1)); [done|]. rewrite !bind_assoc. apply bind_ext. intros [] ? ?. by rewrite bind_assoc. }
  rewrite Hg. destruct Hf as [[Hr Hm]|(Hr & Htop & Hm)].
  { exists s2. left. rewrite Hr. split; [done|]. split; [exact Hm|exact Hr]. }
  set (a := us_ret s1) in *.
  rewrite (proj2 (Z.eqb_neq a (u64 (-1)))) by (unfold u64; change (-1 mod 18446744073709551616) with 18446744073709551615; lia).
  unfold set_size, ust32, upd_mem. rewrite bind_modify.
  set (s3 := s2 <| us_mem ::= λ m, st32 m (a + 8) (u32 nu') |>).
  pose proof (ordered_le _ _ _ (hp_order _ _ _ _ Hh)) as Hbh.
  assert (∀ x, x < hi → ld8 (us_mem s3) x = ld8 (us_mem s) x) as Hsame.
  { intros x Hx. unfold s3. simpl. words. apply Hm. lia. }
  assert (heap (us_mem s3) nodes alloc (a + nu' * 16)) as Hh3 by (eapply heap_ext; [done|lia|done]).
  assert (block (us_mem s3) nodes (a + nu' * 16) a nu') as Hb3.
  { split; try lia.
    - unfold s3. simpl. words. by rewrite (u32_small nu'), u32_small by lia.
    - intros b k Hin. destruct (ordered_elem _ _ _ _ _ (hp_order _ _ _ _ Hh) Hin) as (? & ? & ?). lia. }
  assert (disjoint_from alloc a nu') as Hd3.
  { intros h n Hin. destruct (hp_alloc _ _ _ _ Hh h n Hin). lia. }
  destruct (free_block s3 e nodes alloc (a + nu' * 16) a nu' Hh3 Hb3 Hd3) as (m4 & nodes' & Ef & Hh4 & Hoh & _ & _ & Hlen & b & k & Hin & Hk).
  exists (with_umem s3 m4). right. exists nodes', (a + nu' * 16). cbv zeta. change (us_mem (with_umem s3 m4)) with m4. split; [|split; [done|]].
  - erewrite bind_Ok by exact Ef. unfold uld64, hdr_ptr. rewrite bind_gets. change (us_mem (with_umem s3 m4)) with m4.
    rewrite (proj2 (Z.eqb_neq _ _)); [done|]. destruct (hp_freep _ _ _ _ Hh4) as [j Hj].
    destruct (ordered_elem _ _ _ _ _ (hp_order _ _ _ _ Hh4) Hj). lia.
  - split; [|split; [done|exists b, k; split; [done|lia]]]. intros h n x Hin' Hx.
    destruct (hp_alloc _ _ _ _ Hh h n Hin') as [B1 B2 B3 B4 B5].
    rewrite Hoh; [apply Hsame; lia|lia|lia|]. intros b' k' Hb'. destruct (B5 _ _ Hb'); unfold ext in *; lia.
Qed.

(** ** Properties *)

(** A heap, or no heap yet. *)
Definition usable (m : memory) (nodes : list (Z * Z)) (alloc : gmap Z Z) (hi : Z) : Prop :=
  heap m nodes alloc hi ∨
  (ld64 m freep = 0 ∧ nodes = [(base, 0)] ∧ alloc = ∅ ∧ base + 16 <= hi <= 68719476736).

(** The start of [malloc]. *)
Definition malloc_init : U Z :=
  fp ← uld64 freep;
  if fp =? 0 then ust64 freep base;; set_ptr base base;; set_size base 0;; mret base else mret fp.

Lemma init_ok s e nodes alloc hi :
  usable (us_mem s) nodes alloc hi →
  ∃ m', malloc_init s e = Ok (ld64 m' freep) (with_umem s m') e ∧ heap m' nodes alloc hi ∧ kept (us_mem s) m' alloc ∧
    (length nodes <= S (size (us_mem s)))%nat.
Proof.
  unfold malloc_init, uld64. rewrite bind_gets. intros [Hh|(H0 & -> & -> & Hhi)].
  - exists (us_mem s). destruct (hp_freep _ _ _ _ Hh) as [k Hk]. pose proof (hp_order _ _ _ _ Hh) as Ho.
    destruct (ordered_elem _ _ _ _ _ Ho Hk) as [Hb _]. rewrite (proj2 (Z.eqb_neq _ _)) by lia.
    split; [unfold with_umem; by destruct s|]. split; [done|]. split; [done|].
    pose proof (chain_fuel _ nodes base base hi ltac:(lia) ltac:(lia) (hp_chain _ _ _ _ Hh) Ho). lia.
  - rewrite H0. cbn [Z.eqb]. unfold ust64, set_ptr, set_size, ust64, ust32, upd_mem. rewrite !bind_modify.
    exists (st32 (st64 (st64 (us_mem s) freep base) base base) (base + 8) (u32 0)). split.
    { unfold mret, M_ret. f_equal. words. symmetry. apply u64_small. lia. }
    split; [|split; [by intros ? ? ? ?%lookup_empty_Some|simpl; lia]]. split.
    + by exists [].
    + simpl. unfold ext. lia.
    + simpl. words. rewrite u64_small by lia. by rewrite !u32_small.
    + exists 0. words. rewrite u64_small by lia. by left.
    + lia.
    + by intros ? ? ?%lookup_empty_Some.
    + by intros ? ? ?%lookup_empty_Some.
Qed.

Lemma units_bounds nbytes : 0 <= nbytes <= 2147483616 →
  1 <= units nbytes ∧ units nbytes * 16 < 2147483648 ∧ nbytes <= 16 * (units nbytes - 1) < nbytes + 16.
Proof.
  intros H. unfold units, sizeof_header. rewrite u32_small by zlia. zlia.
Qed.

Lemma kept_trans m1 m2 m3 alloc : kept m1 m2 alloc → kept m2 m3 alloc → kept m1 m3 alloc.
Proof. intros H1 H2 h n x Hin Hx. rewrite (H2 h n) by done. by apply (H1 h n). Qed.

(** [malloc] starts its search at [freep]. *)
Lemma malloc_starts s e nodes alloc hi nbytes :
  usable (us_mem s) nodes alloc hi →
  ∃ m1, let s1 := with_umem s m1 in
    heap m1 nodes alloc hi ∧ kept (us_mem s) m1 alloc ∧
    ∃ fuel, malloc base freep nbytes s e =
      loop (length nodes + (S (length nodes) + fuel)) (malloc_round freep (units nbytes))
        (ld64 m1 freep, ld64 m1 (ld64 m1 freep)) s1 e.
Proof.
  intros Hus. destruct (init_ok s e nodes alloc hi Hus) as (m1 & Hi & Hh & Hk1 & Hlen). exists m1.
  split; [done|]. split; [done|]. set (F := (2 * (2 + str_fuel (us_mem s)) + length e)%nat).
  exists (S F - length nodes - S (length nodes))%nat.
  replace (length nodes + _)%nat with (S F) by (unfold F, str_fuel in *; lia).
  unfold malloc. rewrite bind_gets.
  transitivity ((prevp ← malloc_init; p ← hdr_ptr prevp;
    loop_wait (2 * (2 + str_fuel (us_mem s))) (malloc_round freep (units nbytes)) (prevp, p)) s e).
  { unfold malloc_init. by rewrite bind_assoc. }
  by rewrite (bind_Ok _ _ _ _ _ _ _ Hi).
Qed.

(** C33: [malloc] hands out memory of its own.  From a heap with free blocks [nodes]
    and blocks in use [alloc], or before the first call, and for up to 2 GB, it
    returns either 0, after the kernel refused more memory, with the same heap; or
    a block of at least the bytes asked for that is disjoint from every block in
    use, with a heap that has this block in use as well.  No byte of a block in
    use changes. *)
Theorem malloc_allocates s f e nodes alloc hi nbytes :
  usable (us_mem s) nodes alloc hi → 0 <= nbytes <= 2147483616 → sbrk_answer hi f →
  ∃ r s' e' nodes' hi', malloc base freep nbytes s (f :: e) = Ok r s' e' ∧ kept (us_mem s) (us_mem s') alloc ∧
    ((r = 0 ∧ us_ret s' = u64 (-1) ∧ heap (us_mem s') nodes' alloc hi') ∨
     (alloc !! (r - 16) = None ∧ nbytes <= 16 * (units nbytes - 1) ∧
      heap (us_mem s') nodes' (<[r - 16 := units nbytes]> alloc) hi')).
Proof.
  intros Hus Hnb Hf. destruct (units_bounds nbytes Hnb) as (N1 & N2 & N3). set (nu := units nbytes) in *.
  destruct (malloc_starts s (f :: e) nodes alloc hi nbytes Hus) as (m1 & Hh & Hk1 & F & Hm). fold nu in Hm.
  set (s1 := with_umem s m1) in *. rewrite Hm. change m1 with (us_mem s1) in Hh |- *.
  destruct (search_walk s1 (f :: e) nodes alloc hi nu Hh N1 (S (length nodes) + F)%nat) as
    [(h & m' & nodes' & -> & Hnone & Hh' & Hk' & _)|[Hsm ->]].
  { exists (h + 16), (with_umem s1 m'), (f :: e), nodes', hi. split; [done|]. split; [by eapply kept_trans|].
    right. replace (h + 16 - 16) with h by lia. split; [done|]. split; [lia|exact Hh']. }
  destruct (more_ok s1 f e nodes alloc hi nu Hh N1 N2 Hf) as (s2 & [(Hg & Hmem & Hret)|(nodes2 & hi2 & Hg & Hh2 & Hk2 & Hlen2 & a & k & Hin & Hfit)]);
    rewrite (bind_Ok _ _ _ _ _ _ _ Hg).
  { exists 0, s2, e, nodes, hi. rewrite Hmem. split; [done|]. split; [exact Hk1|]. by left. }
  replace (S (length nodes) + F)%nat with (length nodes2 + (S (length nodes) + F - length nodes2))%nat by lia.
  destruct (search_walk s2 e nodes2 alloc hi2 nu Hh2 N1 (S (length nodes) + F - length nodes2)%nat) as
    [(h & m' & nodes' & -> & Hnone & Hh' & Hk' & _)|[Hsm2 _]].
  - exists (h + 16), (with_umem s2 m'), e, nodes', hi2. split; [done|].
    split; [eapply kept_trans; [exact Hk1|]; eapply kept_trans; [exact Hk2|exact Hk']|].
    right. replace (h + 16 - 16) with h by lia. split; [done|]. split; [lia|exact Hh'].
  - pose proof (Hsm2 a k Hin). lia.
Qed.

(** C34: [free] returns a block to the heap.  Called with a block in use, it returns,
    and the block's memory is on the free list; the list stays sorted and
    circular, no memory is lost, and no byte of another block in use changes.
    Neighbours are merged: if no free block ended where another one starts, none
    does afterwards. *)
Theorem free_releases s e nodes alloc hi h n :
  heap (us_mem s) nodes alloc hi → alloc !! h = Some n →
  ∃ m' nodes', free freep (h + 16) s e = Ok tt (with_umem s m') e ∧ heap m' nodes' (delete h alloc) hi ∧
    kept (us_mem s) m' (delete h alloc) ∧ free_units nodes' = free_units nodes + n ∧
    (separated nodes base → separated nodes' base).
Proof.
  intros Hh Hin. pose proof Hh as [H1 H2 H3 H4 H5 H6 H7].
  assert (heap (us_mem s) nodes (delete h alloc) hi) as Hh'.
  { split; try done.
    - intros h' n' [_ Hin']%lookup_delete_Some. by apply H6.
    - intros h' n' [_ Hin']%lookup_delete_Some h2 n2 [? [? Hin2]%lookup_delete_Some]%lookup_delete_Some.
      apply (H7 h' n' Hin'). by apply lookup_delete_Some. }
  destruct (free_block s e nodes (delete h alloc) hi h n Hh' (H6 h n Hin) (H7 h n Hin)) as (m' & nodes' & Ef & Hh2 & Hoh & Hu & Hs & _).
  exists m', nodes'. split; [done|]. split; [done|]. split; [|by split].
  intros h' n' x Hin' Hx. pose proof (H7 h n Hin h' n' Hin'). apply lookup_delete_Some in Hin' as [_ Hin'].
  destruct (H6 _ _ Hin') as [B1 B2 B3 B4 B5]. pose proof (bl_pos _ _ _ _ _ (H6 h n Hin)).
  apply Hoh; [lia|lia|]. intros b k Hb. destruct (B5 _ _ Hb); unfold ext in *; lia.
Qed.

(** C40: A request of more than 2 GB asks the kernel for too little.  The number of
    bytes passed to [sbrk] is computed in 64 bits but is an [int]: it is at most
    16, or negative, while the header of the new block gets the full size. *)
Theorem malloc_huge_wraps s nodes alloc hi nbytes :
  usable (us_mem s) nodes alloc hi → 2147483616 < nbytes < 4294967296 →
  (∀ a k, (a, k) ∈ nodes → k < units nbytes) →
  ∃ s' n, malloc base freep nbytes s [] = Stuck s' ∧ us_call s' = CSbrk n SBRK_EAGER ∧
    n <= 16 < 2147483616 ∧ 134217728 <= units nbytes.
Proof.
  intros Hus Hnb Hsmall. assert (134217728 <= units nbytes <= 268435457) as Hu.
  { unfold units, sizeof_header. rewrite u32_small by zlia. zlia. }
  destruct (malloc_starts s [] nodes alloc hi nbytes Hus) as (m1 & Hh & _ & F & Hm). rewrite Hm.
  set (s1 := with_umem s m1) in *. change m1 with (us_mem s1) in Hh |- *.
  destruct (search_walk s1 [] nodes alloc hi (units nbytes) Hh ltac:(lia) (S (length nodes) + F)%nat) as
    [(h & m' & nodes' & _ & _ & _ & _ & _ & a & k & Hin & Hk)|[_ ->]]; [specialize (Hsmall a k Hin); lia|].
  set (n := i32 (units nbytes * 16)). exists (s1 <| us_call := CSbrk n SBRK_EAGER |>), n.
  split; [|split; [done|split; [unfold n; mach|lia]]].
  unfold grow, morecore. rewrite (proj2 (Z.ltb_ge (units nbytes) 4096)) by lia. done.
Qed.

End heap.

(** ** Witnesses *)

(** A kernel that gives up to 2 GB from 1 MB on. *)
Definition heap_answer (s : ustate) : ustate :=
  match us_call s with
  | CSbrk n _ => s <| us_ret := if n <? 2147483648 then 1048576 else u64 (-1) |>
  | _ => s
  end.

Lemma heap_answer_ok : sbrk_answer 8192 heap_answer.
Proof.
  intros s n how Hc. unfold heap_answer. rewrite Hc. destruct (Z.ltb_spec n 2147483648); simpl; [right|by left].
  split; [lia|]. split; [lia|done].
Qed.

(** The variables at 4096 and 4112; no heap yet. *)
Definition no_heap : ustate := mk_ustate ∅ CFork 0 [].

Lemma no_heap_usable : usable 4112 4096 (us_mem no_heap) [(4112, 0)] ∅ 8192.
Proof. right. split; [reflexivity|]. split; [done|]. split; [done|lia]. Qed.

Lemma malloc_allocates_witness :
  ∃ r s' e' nodes' hi', malloc 4112 4096 100 no_heap [heap_answer] = Ok r s' e' ∧ kept (us_mem no_heap) (us_mem s') ∅ ∧
    ((r = 0 ∧ us_ret s' = u64 (-1) ∧ heap 4112 4096 (us_mem s') nodes' ∅ hi') ∨
     ((∅ : gmap Z Z) !! (r - 16) = None ∧ 100 <= 16 * (units 100 - 1) ∧
      heap 4112 4096 (us_mem s') nodes' (<[r - 16 := units 100]> ∅) hi')).
Proof.
  apply (malloc_allocates 4112 4096 ltac:(lia) no_heap heap_answer [] [(4112, 0)] ∅ 8192 100);
    [apply no_heap_usable|lia|apply heap_answer_ok].
Defined.

Lemma malloc_huge_wraps_witness :
  ∃ s' n, malloc 4112 4096 4294967295 no_heap [] = Stuck s' ∧ us_call s' = CSbrk n SBRK_EAGER ∧
    n <= 16 < 2147483616 ∧ 134217728 <= units 4294967295.
Proof.
  apply (malloc_huge_wraps 4112 4096 ltac:(lia) no_heap [(4112, 0)] ∅ 8192 4294967295); [apply no_heap_usable|lia|].
  intros a k Hin. apply list_elem_of_singleton in Hin as [= -> ->]. vm_compute. reflexivity.
Defined.

(** A heap with one block in use, of three units. *)
Definition small_heap : memory := st32 (st32 (st64 (st64 ∅ 4096 4112) 4112 4112) 4120 0) 4208 3.

Lemma small_heap_ok : heap 4112 4096 small_heap [(4112, 0)] {[4200 := 3]} 8192.
Proof.
  split.
  - by exists [].
  - simpl. unfold ext. lia.
  - by vm_compute.
  - exists 0. apply (bool_decide_unpack _). by vm_compute.
  - lia.
  - intros h n [<- <-]%lookup_singleton_Some. split; [lia|lia|lia|reflexivity|].
    intros a k [= -> ->]%list_elem_of_singleton. unfold ext. lia.
  - intros h n [<- <-]%lookup_singleton_Some h' n' Hin. by rewrite delete_singleton_eq in Hin.
Qed.

Lemma free_releases_witness :
  let s := mk_ustate small_heap CFork 0 [] in
  ∃ m' nodes', free 4096 4216 s [] = Ok tt (with_umem s m') [] ∧ heap 4112 4096 m' nodes' (delete 4200 {[4200 := 3]}) 8192 ∧
    kept small_heap m' (delete 4200 {[4200 := 3]}) ∧ free_units nodes' = 0 + 3 ∧
    (separated [(4112, 0)] 4112 → separated nodes' 4112).
Proof.
  intros s. apply (free_releases 4112 4096 ltac:(lia) s [] [(4112, 0)] {[4200 := 3]} 8192 4200 3);
    [apply small_heap_ok|apply lookup_singleton_eq].
Defined.
