(* ===== verification/Sh.v ===== *)
(** The shell: user/sh.c.

    While a command line is parsed the buffer does not change, and a [char *] into
    it is the list of the characters from the pointer to the end [es] of the
    line: [gettoken] and [peek] move along this list.  Parsed commands are trees
    with such pointers; their nodes are the structures that the constructors
    allocate.  [nulterminate] and [runcmd] turn the pointers back into addresses. *)

From S2P Require Export Uprintf.

(** ** Commands *)

(** A word of the line: where it starts and where it ends. *)
Definition slice : Type := list Z * list Z.

Inductive cmd :=
| EXEC (argv : list slice)
| REDIR (c : cmd) (file : slice) (mode fd : Z)
| PIPE (left right : cmd)
| LIST (left right : cmd)
| BACK (c : cmd).

Definition MAXARGS : nat := 10.

(** ** Tokens *)

Definition whitespace : list Z := [32; 9; 13; 10; 11].
Definition symbols : list Z := bytes_of "<|>&;()".

(** [while(s < es && strchr(whitespace, *s)) s++] *)
Fixpoint skip_space (s : list Z) : list Z :=
  match s with
  | c :: s' => if in_lit whitespace c then skip_space s' else s
  | [] => []
  end.

(** [while(s < es && !strchr(whitespace, *s) && !strchr(symbols, *s)) s++] *)
Fixpoint skip_word (s : list Z) : list Z :=
  match s with
  | c :: s' => if in_lit whitespace c || in_lit symbols c then s else skip_word s'
  | [] => []
  end.

(** The token, its start and its end, and the rest of the line. *)
Definition gettoken (s : list Z) : Z * slice * list Z :=
  let q := skip_space s in
  let '(ret, eq) :=
    match q with
    | [] => (0, [])
    | c :: r =>
        if in_lit (bytes_of "|();&<") c then (c, r) else
        if c =? ch ">" then
          if char_at r =? ch ">" then (ch "+", tl r) else (ch ">", r)
        else (ch "a", skip_word q)
    end in
  (ret, (q, eq), skip_space eq).

Definition peek (s : list Z) (toks : string) : bool * list Z :=
  let s := skip_space s in
  (match s with [] => false | c :: _ => in_lit (bytes_of toks) c end, s).

(** ** The parser *)

(** A command and the rest of the line; a call of [panic]; or no fuel. *)
Inductive presult (A : Type) := POk (a : A) (s : list Z) | PPanic (msg : string) | PFuel.
Arguments POk {A} a s.
Arguments PPanic {A} msg.
Arguments PFuel {A}.

Definition pbind {A B} (r : presult A) (k : A → list Z → presult B) : presult B :=
  match r with
  | POk a s => k a s
  | PPanic msg => PPanic msg
  | PFuel => PFuel
  end.

(** The redirections around a command, the first one innermost. *)
Definition redirect : Type := slice * Z * Z.
Definition redircmd (c : cmd) (r : redirect) : cmd := let '(file, mode, fd) := r in REDIR c file mode fd.

(** [parseredirs] from [s]; what it adds around the command. *)
Fixpoint parseredirs (fuel : nat) (s : list Z) : presult (list redirect) :=
  match fuel with
  | O => PFuel
  | S fuel' =>
      let '(found, s) := peek s "<>" in
      if negb found then POk [] s else
      let '(tok, _, s) := gettoken s in
      let '(tok2, file, s) := gettoken s in
      if negb (tok2 =? ch "a") then PPanic "missing file for redirection" else
      let r :=
        if tok =? ch "<" then [(file, O_RDONLY, 0)]
        else if tok =? ch ">" then [(file, Z.lor (Z.lor O_WRONLY O_CREATE) O_TRUNC, 1)]
        else if tok =? ch "+" then [(file, Z.lor O_WRONLY O_CREATE, 1)]
        else [] in
      pbind (parseredirs fuel' s) (λ rs s, POk (r ++ rs) s)
  end.

(** The loop of [parseexec]: the arguments after the first [argc] and the
    redirections among them. *)
Fixpoint parseargs (fuel argc : nat) (s : list Z) : presult (list slice * list redirect) :=
  match fuel with
  | O => PFuel
  | S fuel' =>
      let '(found, s) := peek s "|)&;" in
      if found then POk ([], []) s else
      let '(tok, arg, s) := gettoken s in
      if tok =? 0 then POk ([], []) s else
      if negb (tok =? ch "a") then PPanic "syntax" else
      if (MAXARGS <=? S argc)%nat then PPanic "too many args" else
      pbind (parseredirs fuel' s) (λ rs s,
      pbind (parseargs fuel' (S argc) s) (λ '(args, rs') s,
      POk (arg :: args, rs ++ rs') s))
  end.

(** [while(peek(ps, es, "&"))] *)
Fixpoint parseback (fuel : nat) (c : cmd) (s : list Z) : presult cmd :=
  match fuel with
  | O => PFuel
  | S fuel' =>
      let '(found, s) := peek s "&" in
      if found then parseback fuel' (BACK c) (gettoken s).2 else POk c s
  end.

Fixpoint parseline (fuel : nat) (s : list Z) : presult cmd :=
  match fuel with
  | O => PFuel
  | S fuel' =>
      pbind (parsepipe fuel' s) (λ c s,
      pbind (parseback fuel' c s) (λ c s,
      let '(found, s) := peek s ";" in
      if found then pbind (parseline fuel' (gettoken s).2) (λ r s, POk (LIST c r) s)
      else POk c s))
  end
with parsepipe (fuel : nat) (s : list Z) : presult cmd :=
  match fuel with
  | O => PFuel
  | S fuel' =>
      pbind (parseexec fuel' s) (λ c s,
      let '(found, s) := peek s "|" in
      if found then pbind (parsepipe fuel' (gettoken s).2) (λ r s, POk (PIPE c r) s)
      else POk c s)
  end
with parseexec (fuel : nat) (s : list Z) : presult cmd :=
  match fuel with
  | O => PFuel
  | S fuel' =>
      let '(found, s) := peek s "(" in
      if found then parseblock fuel' s else
      pbind (parseredirs fuel' s) (λ rs s,
      pbind (parseargs fuel' 0 s) (λ '(args, rs') s,
      POk (foldl redircmd (EXEC args) (rs ++ rs')) s))
  end
with parseblock (fuel : nat) (s : list Z) : presult cmd :=
  match fuel with
  | O => PFuel
  | S fuel' =>
      let '(found, s) := peek s "(" in
      if negb found then PPanic "parseblock" else
      pbind (parseline fuel' (gettoken s).2) (λ c s,
      let '(found, s) := peek s ")" in
      if negb found then PPanic "syntax - missing )" else
      pbind (parseredirs fuel' (gettoken s).2) (λ rs s,
      POk (foldl redircmd c rs) s))
  end.

(** Four calls per character and a few more. *)
Definition parse_fuel (s : list Z) : nat := 8 + 4 * length s.

(** ** Running a command *)

Definition sh_panic {A} (msg : string) : U A :=
  fprintf 2 ("%s" +:+ nl) [VStr (bytes_of msg)];;
  exit 1.

Definition fork1 : U Z :=
  pid ← fork;
  if pid =? -1 then sh_panic "fork" else mret pid.

Section sh.
Context `{UserStack}.
(** The end of the line. *)
Context (es : Z).

(** The address of a pointer into the line. *)
Definition addr_of (s : list Z) : Z := es - Z.of_nat (length s).

Fixpoint nulterminate (c : cmd) : U unit :=
  match c with
  | EXEC argv => foldr (λ arg k, ust8 (addr_of arg.2) 0;; k) (mret ()) argv
  | REDIR c file _ _ => nulterminate c;; ust8 (addr_of file.2) 0
  | PIPE l r => nulterminate l;; nulterminate r
  | LIST l r => nulterminate l;; nulterminate r
  | BACK c => nulterminate c
  end.

(** The string of a word, once terminated. *)
Definition string_of (w : slice) : U (list Z) := m ← gets us_mem; mret (cstring m (addr_of w.1)).

Definition exec_argv (argv : list slice) : U Z :=
  m ← gets us_mem;
  let args := (λ w : slice, cstring m (addr_of w.1)) <$> argv in
  ecall_int (CExec (hd [] args) args).

Definition pipe_fd (i : Z) : U Z := r ← uld32 (var_p + 4 * i); mret (i32 r).

Fixpoint runcmd (c : cmd) : U unit :=
  match c with
  | EXEC argv =>
      match argv with
      | [] => exit 1
      | w :: _ =>
          exec_argv argv;;
          name ← string_of w;
          fprintf 2 ("exec %s failed" +:+ nl) [VStr name]
      end
  | REDIR c file mode fd =>
      close fd;;
      name ← string_of file;
      r ← ecall_int (COpen name mode);
      if r <? 0 then
        fprintf 2 ("open %s failed" +:+ nl) [VStr name];;
        exit 1
      else runcmd c
  | LIST l r =>
      pid ← fork1;
      when (pid =? 0) (runcmd l);;
      wait 0;;
      runcmd r
  | PIPE l r =>
      ok ← pipe var_p;
      when (ok <? 0) (sh_panic "pipe");;
      pid ← fork1;
      when (pid =? 0)
        (close 1;; p1 ← pipe_fd 1; dup p1;; p0 ← pipe_fd 0; close p0;; p1 ← pipe_fd 1; close p1;; runcmd l);;
      pid ← fork1;
      when (pid =? 0)
        (close 0;; p0 ← pipe_fd 0; dup p0;; p0 ← pipe_fd 0; close p0;; p1 ← pipe_fd 1; close p1;; runcmd r);;
      p0 ← pipe_fd 0; close p0;;
      p1 ← pipe_fd 1; close p1;;
      wait 0;;
      wait 0;;
      mret ()
  | BACK c =>
      pid ← fork1;
      when (pid =? 0) (runcmd c)
  end;;
  exit 0.

End sh.

(** ** The main loop *)

Section main.
Context `{UserStack}.

(** The command, and the end of its line. *)
Definition parsecmd (s : Z) : U (cmd * Z) :=
  m ← gets us_mem;
  let es := s + strlen m s in
  let text := cstring m s in
  match parseline (parse_fuel text) text with
  | PFuel => stuck
  | PPanic msg => sh_panic msg
  | POk c rest =>
      let '(_, rest) := peek rest "" in
      match rest with
      | [] => nulterminate es c;; mret (c, es)
      | _ => fprintf 2 ("leftovers: %s" +:+ nl) [VStr rest];; sh_panic "syntax"
      end
  end.

Definition getcmd (buf nbuf : Z) : U Z :=
  write_lit 2 "$ ";;
  upd_mem (λ m, memset m buf 0 nbuf);;
  gets_ buf nbuf;;
  c ← uld8 buf;
  mret (if c =? 0 then -1 else 0).

(** [while((fd = open("console", O_RDWR)) >= 0)] *)
Definition open_consoles : U unit :=
  wait_loop (
    fd ← open_lit "console" O_RDWR;
    if fd <? 0 then mret (Some ()) else
    if 3 <=? fd then close fd;; mret (Some ()) else mret None).

Fixpoint skip_blanks (fuel : nat) (m : memory) (cmd : Z) : Z :=
  match fuel with
  | O => cmd
  | S fuel' => if (ld8 m cmd =? 32) || (ld8 m cmd =? 9) then skip_blanks fuel' m (cmd + 1) else cmd
  end.

Definition sh_round (buf : Z) : U (option unit) :=
  r ← getcmd buf 100;
  if r <? 0 then mret (Some ()) else
  m ← gets us_mem;
  let cmd := skip_blanks (str_fuel m) m buf in
  if ld8 m cmd =? 10 then mret None else
  if (ld8 m cmd =? ch "c") && (ld8 m (cmd + 1) =? ch "d") && (ld8 m (cmd + 2) =? ch " ") then
    ust8 (cmd + strlen m cmd - 1) 0;;
    r ← chdir (cmd + 3);
    m ← gets us_mem;
    (if r <? 0 then fprintf 2 ("cannot cd %s" +:+ nl) [VStr (cstring m (cmd + 3))] else mret ());;
    mret None
  else
    pid ← fork1;
    when (pid =? 0) ('(c, es) ← parsecmd cmd; runcmd es c);;
    wait 0;;
    mret None.

Definition sh_main (buf : Z) : U unit :=
  open_consoles;;
  wait_loop (sh_round buf);;
  exit 0.

End main.
