(* ===== verification/ShSpec.v ===== *)
(** The parser of the shell: it returns on every line, and it reads back what a
    printer of commands writes. *)

From S2P Require Export Sh.

#[global] Arguments in_lit : simpl never.

(** ** Progress *)

Lemma skip_space_le s : (length (skip_space s) <= length s)%nat.
Proof. induction s as [|c s IH]; cbn [skip_space]; [done|]. destruct (in_lit whitespace c); cbn [length] in *; lia. Qed.

Lemma skip_space_head s : match skip_space s with [] => True | c :: _ => in_lit whitespace c = false end.
Proof. induction s as [|c s IH]; cbn [skip_space]; [done|]. destruct (in_lit whitespace c) eqn:E; done. Qed.

Lemma skip_space_idem s : skip_space (skip_space s) = skip_space s.
Proof.
  pose proof (skip_space_head s) as H. destruct (skip_space s) as [|c r]; [done|]. cbn [skip_space]. by rewrite H.
Qed.

Lemma skip_word_le s : (length (skip_word s) <= length s)%nat.
Proof.
  induction s as [|c s IH]; cbn [skip_word]; [done|].
  destruct (in_lit whitespace c || in_lit symbols c); cbn [length] in *; lia.
Qed.

Lemma peek_le s toks : (length (peek s toks).2 <= length s)%nat.
Proof. apply skip_space_le. Qed.

(** The symbols are those that [gettoken] knows. *)
Lemma symbols_tokens c : in_lit symbols c = in_lit (bytes_of "|();&<") c || (c =? ch ">").
Proof.
  rewrite (Z.eqb_sym c). change (ch ">") with 62. unfold in_lit.
  change symbols with [60; 124; 62; 38; 59; 40; 41]. change (bytes_of "|();&<") with [124; 40; 41; 59; 38; 60].
  cbn [existsb]. repeat match goal with |- context [?a =? c] => destruct (a =? c) end; reflexivity.
Qed.

(** A token takes at least one character, unless there is none. *)
Lemma gettoken_lt s : skip_space s ≠ [] → (length (gettoken s).2 < length s)%nat.
Proof.
  intros Hne. unfold gettoken. pose proof (skip_space_le s) as H. pose proof (skip_space_head s) as Hh.
  destruct (skip_space s) as [|c r]; [done|]. cbn [length] in H.
  assert (∀ l : list Z, (length l <= length r)%nat → (length (skip_space l) < length s)%nat) as Hl.
  { intros l Hlen. pose proof (skip_space_le l). lia. }
  destruct (in_lit (bytes_of "|();&<") c) eqn:E1; [by apply Hl|]. destruct (c =? ch ">") eqn:E2.
  - destruct (char_at r =? ch ">"); apply Hl; [destruct r; simpl; lia|done].
  - apply Hl. cbn [skip_word]. rewrite symbols_tokens, Hh, E1, E2. cbn [orb]. apply skip_word_le.
Qed.

Lemma gettoken_le s : (length (gettoken s).2 <= length s)%nat.
Proof.
  destruct (decide (skip_space s = [])) as [E|N]; [|by apply Nat.lt_le_incl, gettoken_lt].
  unfold gettoken. rewrite E. simpl. lia.
Qed.

Lemma peek_found s toks :
  (peek s toks).1 = true → (length (gettoken (peek s toks).2).2 < length s)%nat.
Proof.
  unfold peek. cbn [fst snd]. intros Hf. pose proof (skip_space_le s).
  eapply Nat.lt_le_trans; [apply gettoken_lt|done]. rewrite skip_space_idem. by destruct (skip_space s).
Qed.

(** A token other than 0 was there. *)
Lemma gettoken_some s : (gettoken s).1.1 ≠ 0 → (length (gettoken s).2 < length s)%nat.
Proof.
  intros Hne. apply gettoken_lt. intros E. apply Hne. unfold gettoken. by rewrite E.
Qed.

(** ** Termination *)

(** A parse that returns, with no more of the line left than [n]. *)
Definition returns {A} (n : nat) (r : presult A) : Prop :=
  match r with
  | POk _ s => (length s <= n)%nat
  | PPanic _ => True
  | PFuel => False
  end.

Lemma returns_bind {A B} n k (r : presult A) (f : A → list Z → presult B) :
  returns n r → (∀ a s, (length s <= n)%nat → returns k (f a s)) → returns k (pbind r f).
Proof. destruct r; simpl; auto. Qed.

Lemma returns_mono {A} n k (r : presult A) : returns n r → (n <= k)%nat → returns k r.
Proof. destruct r; simpl; auto with lia. Qed.

Lemma parseredirs_returns fuel s : (length s < fuel)%nat → returns (length s) (parseredirs fuel s).
Proof.
  revert s. induction fuel as [|fuel IH]; intros s Hf; [lia|]. cbn [parseredirs].
  pose proof (peek_le s "<>") as Hp. pose proof (peek_found s "<>") as Hpf.
  destruct (peek s "<>") as [found s1]. cbn [fst snd] in *. destruct found; cbn [negb]; [|done].
  specialize (Hpf eq_refl). destruct (gettoken s1) as [[tok w] s2]. cbn [snd] in Hpf.
  pose proof (gettoken_le s2) as H2. destruct (gettoken s2) as [[tok2 w2] s3]. cbn [snd] in H2.
  destruct (negb (tok2 =? ch "a")); [done|].
  eapply (returns_bind (length s3)); [apply IH; lia|]. intros rs s4 H4. simpl. lia.
Qed.

Lemma parseargs_returns fuel argc s : (length s < fuel)%nat → returns (length s) (parseargs fuel argc s).
Proof.
  revert argc s. induction fuel as [|fuel IH]; intros argc s Hf; [lia|]. cbn [parseargs].
  pose proof (peek_le s "|)&;") as Hp. destruct (peek s "|)&;") as [found s1]. cbn [fst snd] in *.
  destruct found; [done|]. pose proof (gettoken_le s1) as H1. pose proof (gettoken_some s1) as H1'.
  destruct (gettoken s1) as [[tok w] s2]. cbn [fst snd] in *. destruct (Z.eqb_spec tok 0) as [|Ht]; [simpl; lia|].
  specialize (H1' Ht). destruct (negb (tok =? ch "a")); [done|]. destruct (MAXARGS <=? S argc)%nat; [done|].
  eapply (returns_bind (length s2)); [apply parseredirs_returns; lia|]. intros rs s3 H3.
  eapply (returns_bind (length s3)); [apply IH; lia|]. intros [args rs'] s4 H4. simpl. lia.
Qed.

Lemma parseback_returns fuel c s : (length s < fuel)%nat → returns (length s) (parseback fuel c s).
Proof.
  revert c s. induction fuel as [|fuel IH]; intros c s Hf; [lia|]. cbn [parseback].
  pose proof (peek_le s "&") as Hp. pose proof (peek_found s "&") as Hpf.
  destruct (peek s "&") as [found s1]. cbn [fst snd] in *. destruct found; [|done].
  specialize (Hpf eq_refl). eapply returns_mono; [apply IH; lia|lia].
Qed.

(** The fuel of each function, by what is left of the line. *)
Lemma parsers_return fuel :
  (∀ s, (4 * length s + 7 < fuel)%nat → returns (length s) (parseline fuel s)) ∧
  (∀ s, (4 * length s + 6 < fuel)%nat → returns (length s) (parsepipe fuel s)) ∧
  (∀ s, (4 * length s + 5 < fuel)%nat → returns (length s) (parseexec fuel s)) ∧
  (∀ s, (4 * length s + 4 < fuel)%nat → returns (length s) (parseblock fuel s)).
Proof.
  induction fuel as [|fuel (IL & IP & IE & IB)]; [split_and!; intros; lia|]. split_and!; intros s Hf; cbn [parseline parsepipe parseexec parseblock].
  - eapply (returns_bind (length s)); [apply IP; lia|]. intros c s1 H1.
    eapply (returns_bind (length s1)); [apply parseback_returns; lia|]. intros c2 s2 H2.
    pose proof (peek_le s2 ";") as Hp. pose proof (peek_found s2 ";") as Hpf. destruct (peek s2 ";") as [found s3].
    cbn [fst snd] in *. destruct found; [|simpl; lia]. specialize (Hpf eq_refl).
    eapply returns_bind; [apply IL; lia|]. intros r s4 H4. simpl. lia.
  - eapply (returns_bind (length s)); [apply IE; lia|]. intros c s1 H1.
    pose proof (peek_le s1 "|") as Hp. pose proof (peek_found s1 "|") as Hpf. destruct (peek s1 "|") as [found s3].
    cbn [fst snd] in *. destruct found; [|simpl; lia]. specialize (Hpf eq_refl).
    eapply returns_bind; [apply IP; lia|]. intros r s4 H4. simpl. lia.
  - pose proof (peek_le s "(") as Hp. destruct (peek s "(") as [found s1]. cbn [fst snd] in *.
    destruct found; [eapply returns_mono; [apply IB; lia|lia]|].
    eapply (returns_bind (length s1)); [apply parseredirs_returns; lia|]. intros rs s2 H2.
    eapply (returns_bind (length s2)); [apply parseargs_returns; lia|]. intros [args rs'] s3 H3. simpl. lia.
  - pose proof (peek_found s "(") as Hpf. destruct (peek s "(") as [found s1]. cbn [fst snd] in *.
    destruct found; cbn [negb]; [|done]. specialize (Hpf eq_refl).
    eapply returns_bind; [apply IL; lia|]. intros c s2 H2.
    pose proof (peek_found s2 ")") as Hpf2. destruct (peek s2 ")") as [found s3]. cbn [fst snd] in *.
    destruct found; cbn [negb]; [|done]. specialize (Hpf2 eq_refl).
    eapply returns_bind; [apply parseredirs_returns; lia|]. intros rs s4 H4. simpl. lia.
Qed.

(** C38: The parser returns on every line.  Whatever the characters of the line, the
    recursive descent ends, with a command or with a call of [panic]: it never
    runs out of the fuel that [parsecmd] gives it, four calls per character. *)
Theorem parser_terminates (text : list Z) :
  (∃ c rest, parseline (parse_fuel text) text = POk c rest ∧ (length rest <= length text)%nat) ∨
  (∃ msg, parseline (parse_fuel text) text = PPanic msg).
Proof.
  destruct (parsers_return (parse_fuel text)) as [H _]. specialize (H text ltac:(unfold parse_fuel; lia)).
  destruct (parseline (parse_fuel text) text) as [c rest|msg|]; simpl in H; [left|right|done]; eauto.
Qed.

(** ** Words *)

Definition separator (c : Z) : bool := in_lit whitespace c || in_lit symbols c.
Definition word_char (c : Z) : Prop := separator c = false.
Definition at_separator (s : list Z) : Prop := match s with [] => True | c :: _ => separator c = true end.

(** [w] is a word of the line [text] that ends at a separator. *)
Definition good_slice (text : list Z) (w : slice) : Prop :=
  ∃ u v, text = u ++ w.1 ∧ w.1 = v ++ w.2 ∧ v ≠ [] ∧ Forall word_char v ∧ at_separator w.2.

(** The characters of a word. *)
Definition slice_text (w : slice) : list Z := take (length w.1 - length w.2) w.1.

Lemma slice_text_app v r : slice_text (v ++ r, r) = v.
Proof. unfold slice_text. simpl. by rewrite length_app, Nat.add_sub, take_app_length. Qed.

Lemma skip_space_suffix s : skip_space s `suffix_of` s.
Proof.
  induction s as [|c s IH]; cbn [skip_space]; [done|]. destruct (in_lit whitespace c); [by apply suffix_cons_r|done].
Qed.

Lemma skip_word_split s : ∃ v, s = v ++ skip_word s ∧ Forall word_char v ∧ at_separator (skip_word s).
Proof.
  induction s as [|c s IH]; cbn [skip_word]; [by exists []|].
  destruct (in_lit whitespace c || in_lit symbols c) eqn:E; [by exists []|].
  destruct IH as (v & H1 & H2 & H3). exists (c :: v). split; [simpl; by f_equal|]. split; [by constructor|done].
Qed.

Lemma gettoken_suffix s : (gettoken s).2 `suffix_of` s.
Proof.
  unfold gettoken. pose proof (skip_space_suffix s) as Hq. destruct (skip_space s) as [|c r]; [simpl; by etransitivity; [|apply suffix_nil]|].
  assert (∀ l : list Z, l `suffix_of` c :: r → skip_space l `suffix_of` s) as Hl.
  { intros l H. etransitivity; [apply skip_space_suffix|by etransitivity]. }
  destruct (in_lit _ c); [apply Hl; by apply suffix_cons_r|]. destruct (c =? ch ">").
  - destruct (char_at r =? ch ">"); apply Hl; [|by apply suffix_cons_r].
    destruct r as [|d r]; [apply suffix_nil|]. simpl. by apply suffix_cons_r, suffix_cons_r.
  - apply Hl. destruct (skip_word_split (c :: r)) as (v & E & _). rewrite E at 2. by apply suffix_app_r.
Qed.

Lemma gettoken_good s : (gettoken s).1.1 = ch "a" → good_slice s (gettoken s).1.2.
Proof.
  unfold gettoken. pose proof (skip_space_suffix s) as [u Hu]. pose proof (skip_space_head s) as Hh.
  destruct (skip_space s) as [|c r]; [done|]. destruct (in_lit (bytes_of "|();&<") c) eqn:E1.
  { simpl. intros ->. done. }
  destruct (c =? ch ">") eqn:E2; [by destruct (char_at r =? ch ">")|]. intros _. cbn [fst snd].
  destruct (skip_word_split (c :: r)) as (v & E & F & Hsep). exists u, v. split; [done|]. split; [done|].
  split; [|done]. intros ->. cbn [skip_word] in *. rewrite symbols_tokens, Hh, E1, E2 in *. cbn [orb app] in *.
  apply (f_equal length) in E. pose proof (skip_word_le r). simpl in E. lia.
Qed.

Lemma good_suffix s text w : good_slice s w → s `suffix_of` text → good_slice text w.
Proof. intros (u & v & -> & H) [k ->]. exists (k ++ u), v. by rewrite app_assoc. Qed.

(** ** The words of a command *)

Fixpoint slices (c : cmd) : list slice :=
  match c with
  | EXEC argv => argv
  | REDIR c file _ _ => slices c ++ [file]
  | PIPE l r | LIST l r => slices l ++ slices r
  | BACK c => slices c
  end.

Lemma slices_redirs c rs : slices (foldl redircmd c rs) = slices c ++ rs.*1.*1.
Proof.
  revert c. induction rs as [|[[f m] d] rs IH]; intros c; simpl; [by rewrite app_nil_r|]. rewrite IH. simpl.
  by rewrite <- app_assoc.
Qed.

(** A parse of [s] that gives words of [s]. *)
Definition gives {A} (s : list Z) (ws : A → list slice) (r : presult A) : Prop :=
  match r with
  | POk a s' => s' `suffix_of` s ∧ Forall (good_slice s) (ws a)
  | _ => True
  end.

Lemma gives_bind {A B} s ws (r : presult A) (f : A → list Z → presult B) ws' :
  gives s ws r → (∀ a s', s' `suffix_of` s → Forall (good_slice s) (ws a) → gives s ws' (f a s')) → gives s ws' (pbind r f).
Proof. destruct r; simpl; [intros [? ?] Hf; by apply Hf|done..]. Qed.

Lemma gives_suffix {A} s text (ws : A → list slice) r : gives s ws r → s `suffix_of` text → gives text ws r.
Proof.
  destruct r; simpl; [|done..]. intros [H1 H2] H3. split; [by etransitivity|].
  eapply Forall_impl; [done|]. intros w Hw. by eapply good_suffix.
Qed.

Lemma peek_suffix s toks : (peek s toks).2 `suffix_of` s.
Proof. apply skip_space_suffix. Qed.

Lemma peek_gettoken_suffix s toks : (gettoken (peek s toks).2).2 `suffix_of` s.
Proof. etransitivity; [apply gettoken_suffix|apply peek_suffix]. Qed.

Lemma parseredirs_gives fuel s : gives s (λ rs : list redirect, rs.*1.*1) (parseredirs fuel s).
Proof.
  revert s. induction fuel as [|fuel IH]; intros s; [done|]. cbn [parseredirs].
  pose proof (peek_suffix s "<>") as Hp. destruct (peek s "<>") as [found s1]. cbn [fst snd] in *.
  destruct found; cbn [negb]; [|done]. pose proof (gettoken_suffix s1) as H1. destruct (gettoken s1) as [[tok w] s2].
  pose proof (gettoken_suffix s2) as H2. pose proof (gettoken_good s2) as G2. destruct (gettoken s2) as [[tok2 w2] s3].
  cbn [fst snd] in *. destruct (Z.eqb_spec tok2 (ch "a")) as [E|]; cbn [negb]; [|done].
  assert (s2 `suffix_of` s) as S2 by (by etransitivity). assert (s3 `suffix_of` s) as S3 by (by etransitivity).
  eapply gives_bind; [eapply gives_suffix; [apply IH|done]|]. intros rs s4 S4 F. simpl. split; [done|].
  rewrite !fmap_app. apply Forall_app. split; [|done]. specialize (G2 E).
  destruct (tok =? ch "<"); [|destruct (tok =? ch ">"); [|destruct (tok =? ch "+"); [|constructor]]];
    (constructor; [by eapply good_suffix|constructor]).
Qed.

Lemma parseargs_gives fuel argc s :
  gives s (λ x : list slice * list redirect, x.1 ++ x.2.*1.*1) (parseargs fuel argc s).
Proof.
  revert argc s. induction fuel as [|fuel IH]; intros argc s; [done|]. cbn [parseargs].
  pose proof (peek_suffix s "|)&;") as Hp. destruct (peek s "|)&;") as [found s1]. cbn [fst snd] in *.
  destruct found; [by split|]. pose proof (gettoken_suffix s1) as H1. pose proof (gettoken_good s1) as G1.
  destruct (gettoken s1) as [[tok w] s2]. cbn [fst snd] in *. assert (s2 `suffix_of` s) as S2 by (by etransitivity).
  destruct (tok =? 0); [by split|]. destruct (Z.eqb_spec tok (ch "a")) as [E|]; cbn [negb]; [|done].
  destruct (MAXARGS <=? S argc)%nat; [done|].
  eapply gives_bind; [eapply gives_suffix; [apply parseredirs_gives|done]|]. intros rs s3 S3 F.
  eapply gives_bind; [eapply gives_suffix; [apply IH|done]|]. intros [args rs'] s4 S4 F4. simpl in *.
  split; [done|]. constructor; [eapply good_suffix; [by apply G1|done]|]. rewrite !fmap_app.
  apply Forall_app in F4 as [F4 F5]. by repeat (apply Forall_app; split).
Qed.

Lemma parseback_gives fuel s0 c s :
  s `suffix_of` s0 → Forall (good_slice s0) (slices c) → gives s0 slices (parseback fuel c s).
Proof.
  revert c s. induction fuel as [|fuel IH]; intros c s Hs Hc; [done|]. cbn [parseback].
  pose proof (peek_suffix s "&") as Hp. pose proof (peek_gettoken_suffix s "&") as Hg.
  destruct (peek s "&") as [found s1]. cbn [fst snd] in *.
  destruct found; [apply IH; [by etransitivity|done]|]. split; [by etransitivity|done].
Qed.

(** Everything that the parser calls a word is one. *)
Lemma parsers_give fuel :
  (∀ s, gives s slices (parseline fuel s)) ∧ (∀ s, gives s slices (parsepipe fuel s)) ∧
  (∀ s, gives s slices (parseexec fuel s)) ∧ (∀ s, gives s slices (parseblock fuel s)).
Proof.
  induction fuel as [|fuel (IL & IP & IE & IB)]; [done|]. split_and!; intros s; cbn [parseline parsepipe parseexec parseblock].
  - eapply gives_bind; [apply IP|]. intros c s1 S1 F1. eapply gives_bind; [by apply parseback_gives|]. intros c2 s2 S2 F2.
    pose proof (peek_suffix s2 ";") as Hp. pose proof (peek_gettoken_suffix s2 ";") as Hg. destruct (peek s2 ";") as [found s3].
    cbn [fst snd] in *. destruct found; [|split; [by etransitivity|done]].
    eapply gives_bind; [eapply gives_suffix; [apply IL|by etransitivity]|]. intros r s4 S4 F4. split; [done|]. by apply Forall_app.
  - eapply gives_bind; [apply IE|]. intros c s1 S1 F1.
    pose proof (peek_suffix s1 "|") as Hp. pose proof (peek_gettoken_suffix s1 "|") as Hg. destruct (peek s1 "|") as [found s3].
    cbn [fst snd] in *. destruct found; [|split; [by etransitivity|done]].
    eapply gives_bind; [eapply gives_suffix; [apply IP|by etransitivity]|]. intros r s4 S4 F4. split; [done|]. by apply Forall_app.
  - pose proof (peek_suffix s "(") as Hp. destruct (peek s "(") as [found s1]. cbn [fst snd] in *.
    destruct found; [eapply gives_suffix; [apply IB|done]|].
    eapply gives_bind; [eapply gives_suffix; [apply parseredirs_gives|done]|]. intros rs s2 S2 F2.
    eapply gives_bind; [eapply gives_suffix; [apply parseargs_gives|done]|]. intros [args rs'] s3 S3 F3. simpl in *.
    split; [done|]. rewrite slices_redirs, !fmap_app. simpl. apply Forall_app in F3 as [? ?]. by repeat (apply Forall_app; split).
  - pose proof (peek_gettoken_suffix s "(") as Hg. destruct (peek s "(") as [found s1]. cbn [fst snd] in *.
    destruct found; cbn [negb]; [|done]. eapply gives_bind; [eapply gives_suffix; [apply IL|done]|]. intros c s2 S2 F2.
    pose proof (peek_gettoken_suffix s2 ")") as Hg2. destruct (peek s2 ")") as [found s3]. cbn [fst snd] in *.
    destruct found; cbn [negb]; [|done].
    eapply gives_bind; [eapply gives_suffix; [apply parseredirs_gives|by etransitivity]|]. intros rs s4 S4 F4. split; [done|].
    rewrite slices_redirs. by apply Forall_app.
Qed.

(** ** Terminating the words *)

Definition nul_mem (es : Z) (m : memory) (ws : list slice) : memory :=
  foldl (λ m w, st8 m (addr_of es w.2) 0) m ws.

Lemma nulterminate_run es c s e :
  nulterminate es c s e = Ok tt (s <| us_mem ::= λ m, nul_mem es m (slices c) |>) e.
Proof.
  revert s e. unfold nul_mem. induction c as [argv|c IH file mode fd|l IHl r IHr|l IHl r IHr|c IH]; intros s e; cbn [nulterminate slices].
  - revert s e. induction argv as [|w argv IH]; intros s e; cbn [foldr]; [simpl; by destruct s|]. erewrite bind_Ok by reflexivity.
    by rewrite IH.
  - erewrite bind_Ok by apply IH. unfold ust8, upd_mem, modify. f_equal. unfold set. simpl. by rewrite foldl_app.
  - erewrite bind_Ok by apply IHl. rewrite IHr. f_equal. unfold set. simpl. by rewrite foldl_app.
  - erewrite bind_Ok by apply IHl. rewrite IHr. f_equal. unfold set. simpl. by rewrite foldl_app.
  - apply IH.
Qed.

Lemma ld8_nul_mem es m ws x :
  ld8 (nul_mem es m ws) x = if bool_decide (x ∈ addr_of es <$> ws.*2) then 0 else ld8 m x.
Proof.
  unfold nul_mem. revert m. induction ws as [|w ws IH]; intros m; simpl; [done|].
  rewrite IH, ld8_st8. destruct (decide (addr_of es w.2 = x)) as [E|N].
  - rewrite (bool_decide_true (x ∈ _ :: _)) by (apply elem_of_cons; by left). by case_bool_decide.
  - assert ((x ∈ addr_of es w.2 :: (addr_of es <$> ws.*2)) ↔ x ∈ addr_of es <$> ws.*2) as Hi by (rewrite elem_of_cons; naive_solver).
    by rewrite (bool_decide_ext _ _ Hi).
Qed.

Section strings.
Context (m : memory) (s0 es : Z) (text : list Z).
Context (Htext : str_at m s0 text) (Hes : es = s0 + Z.of_nat (length text)).

Lemma suffix_addr u v : text = u ++ v → addr_of es v = s0 + Z.of_nat (length u).
Proof. intros E. unfold addr_of. rewrite Hes, E, length_app. lia. Qed.

(** No NUL is written inside a word. *)
Lemma word_intact w w' u v i :
  text = u ++ w.1 → w.1 = v ++ w.2 → Forall word_char v → (i < length v)%nat → good_slice text w' →
  addr_of es w'.2 ≠ addr_of es w.1 + Z.of_nat i.
Proof.
  intros E1 E2 F Hi (u' & v' & E3 & E4 & _ & _ & Hsep) Ha.
  rewrite E4, app_assoc in E3. rewrite (suffix_addr _ _ E1), (suffix_addr _ _ E3) in Ha.
  assert (text !! (length u + i)%nat = v !! i) as L1.
  { rewrite E1, E2, lookup_app_r by lia. rewrite lookup_app_l by lia. f_equal. lia. }
  destruct (lookup_lt_is_Some_2 v i Hi) as [c Hc]. rewrite Forall_lookup in F. specialize (F _ _ Hc). rewrite Hc in L1.
  assert (text !! (length u + i)%nat = w'.2 !! 0%nat) as L2.
  { rewrite E3, lookup_app_r by (rewrite length_app in *; lia). f_equal. rewrite length_app in *. lia. }
  rewrite L1 in L2. destruct w'.2 as [|d r]; [done|]. simpl in L2. injection L2 as ->. simpl in Hsep. unfold word_char in F.
  congruence.
Qed.

Lemma words_in_memory ws w :
  Forall (good_slice text) ws → w ∈ ws → cstring (nul_mem es m ws) (addr_of es w.1) = slice_text w.
Proof.
  intros Hws Hin. rewrite Forall_forall in Hws. pose proof (Hws w Hin) as (u & v & E1 & E2 & Hne & F & _).
  assert (slice_text w = v) as ->.
  { destruct w as [q r]. simpl in *. subst q. apply slice_text_app. }
  apply cstring_at. pose proof (suffix_addr _ _ E1) as Ea.
  rewrite E1, E2 in Htext. apply str_at_app in Htext. rewrite <- Ea in Htext. apply str_at_prefix in Htext as [H1 H2].
  split; [|split; [done|]].
  - rewrite <- H1 at 2. apply ldn_ext. intros x Hx. rewrite ld8_nul_mem, bool_decide_false; [done|].
    intros Hx'. apply list_elem_of_fmap in Hx' as (r & -> & Hr). apply list_elem_of_fmap in Hr as (w' & -> & Hw').
    apply (word_intact w w' u v (Z.to_nat (addr_of es w'.2 - addr_of es w.1))); try done; [lia|by apply Hws|lia].
  - rewrite ld8_nul_mem, bool_decide_true; [done|]. apply list_elem_of_fmap. exists w.2. split.
    + unfold addr_of. rewrite E2, length_app. lia.
    + apply list_elem_of_fmap. by exists w.
Qed.

End strings.

(** ** Printing commands *)

(** A command with its words as strings. *)
Inductive tree :=
| TExec (args : list (list Z))
| TRedir (t : tree) (file : list Z) (mode fd : Z)
| TPipe (left right : tree)
| TList (left right : tree)
| TBack (t : tree).

Definition is_word (w : list Z) : Prop := w ≠ [] ∧ Forall (λ c, word_char c ∧ 0 < c < 256) w.

(** The redirections that the shell knows, with their symbols. *)
Definition redir_symbol (mode fd : Z) : list Z :=
  if fd =? 0 then bytes_of "<" else if mode =? 1537 then bytes_of ">" else bytes_of ">>".
Definition redir_ok (mode fd : Z) : Prop :=
  (mode, fd) = (O_RDONLY, 0) ∨ (mode, fd) = (1537, 1) ∨ (mode, fd) = (513, 1).

Fixpoint tree_ok (t : tree) : Prop :=
  match t with
  | TExec args => (length args < MAXARGS)%nat ∧ Forall is_word args
  | TRedir t file mode fd => tree_ok t ∧ is_word file ∧ redir_ok mode fd
  | TPipe l r | TList l r => tree_ok l ∧ tree_ok r
  | TBack t => tree_ok t
  end.

Definition paren (b : bool) (s : list Z) : list Z := if b then bytes_of "(" ++ s ++ bytes_of ")" else s.

(** [lvl] is where the text stands: 0 for a line, 1 for what may be followed by
    ['&'], 2 for a pipeline, 3 for one of its commands.  Parentheses are put
    where the grammar needs them. *)
Fixpoint print (lvl : nat) (t : tree) : list Z :=
  match t with
  | TExec args => args ≫= λ w, 32 :: w
  | TRedir t file mode fd => print 3 t ++ [32] ++ redir_symbol mode fd ++ [32] ++ file
  | TPipe l r => paren (2 <? lvl)%nat (print 3 l ++ bytes_of " |" ++ print 2 r)
  | TBack t => paren (1 <? lvl)%nat (print 1 t ++ bytes_of " &")
  | TList l r => paren (0 <? lvl)%nat (print 1 l ++ bytes_of " ;" ++ print 0 r)
  end.

(** The tree of a parsed command. *)
Fixpoint erase (c : cmd) : tree :=
  match c with
  | EXEC argv => TExec (slice_text <$> argv)
  | REDIR c file mode fd => TRedir (erase c) (slice_text file) mode fd
  | PIPE l r => TPipe (erase l) (erase r)
  | LIST l r => TList (erase l) (erase r)
  | BACK c => TBack (erase c)
  end.

(** ** Tokens of printed text *)

(** After blanks, [s] is at its end or at one of [toks]. *)
Definition follow (toks : string) (s : list Z) : Prop :=
  match skip_space s with [] => True | c :: _ => in_lit (bytes_of toks) c = true end.

Lemma peek_space s toks : peek (32 :: s) toks = peek s toks.
Proof. done. Qed.

Lemma peek_skip s toks : peek (skip_space s) toks = peek s toks.
Proof. unfold peek. by rewrite skip_space_idem. Qed.

Lemma gettoken_skip s : gettoken (skip_space s) = gettoken s.
Proof. unfold gettoken. by rewrite skip_space_idem. Qed.

Lemma word_head w r : is_word w → ∃ c w', w = c :: w' ∧ in_lit whitespace c = false ∧ in_lit symbols c = false ∧ skip_space (w ++ r) = w ++ r.
Proof.
  intros [Hne F]. destruct w as [|c w]; [done|]. apply Forall_cons in F as [[Hc _] _]. unfold word_char, separator in Hc.
  apply orb_false_iff in Hc as [H1 H2]. exists c, w. split; [done|]. split; [done|]. split; [done|]. simpl. by rewrite H1.
Qed.

Lemma skip_word_app w r : is_word w → at_separator r → skip_word (w ++ r) = r.
Proof.
  intros [_ F] Hr. induction F as [|c w [Hc _] F IH]; simpl.
  - destruct r as [|c r]; [done|]. simpl in *. unfold separator in Hr. by rewrite Hr.
  - unfold word_char, separator in Hc. by rewrite Hc.
Qed.

Lemma gettoken_word w r : is_word w → at_separator r → gettoken (w ++ r) = (ch "a", (w ++ r, r), skip_space r).
Proof.
  intros Hw Hr. destruct (word_head w r Hw) as (c & w' & E & H1 & H2 & Hs). pose proof (skip_word_app w r Hw Hr) as Hk.
  unfold gettoken. rewrite Hs. rewrite symbols_tokens in H2. apply orb_false_iff in H2 as [H2 H3].
  rewrite E in *. cbn [app] in *. by rewrite H2, H3, Hk.
Qed.

(** A peek for symbols does not find a word. *)
Lemma peek_word w r toks :
  is_word w → (∀ c, in_lit (bytes_of toks) c = true → in_lit symbols c = true) → peek (w ++ r) toks = (false, w ++ r).
Proof.
  intros Hw Ht. destruct (word_head w r Hw) as (c & w' & E & H1 & H2 & Hs). unfold peek. rewrite Hs.
  rewrite E in *. cbn [app]. destruct (in_lit (bytes_of toks) c) eqn:Ec; [|done]. rewrite (Ht c Ec) in H2. done.
Qed.

Lemma peek_follow toks toks' s :
  follow toks s → (∀ c, in_lit (bytes_of toks) c = true → in_lit (bytes_of toks') c = false) → peek s toks' = (false, skip_space s).
Proof. unfold follow, peek. intros Hf Hd. destruct (skip_space s) as [|c r]; [done|]. by rewrite (Hd c Hf). Qed.

(** Facts about finitely many characters. *)
Ltac chars :=
  let c := fresh "c" in intros c; unfold in_lit; simpl bytes_of; cbn [existsb symbols];
  repeat match goal with |- context [?a =? c] => destruct (Z.eqb_spec a c); [subst; vm_compute; (done || congruence)|] end; done.

Lemma follow_separator toks s :
  follow toks s → (∀ c, in_lit (bytes_of toks) c = true → in_lit symbols c = true) → at_separator s.
Proof.
  unfold follow, at_separator. intros Hf Ht. destruct s as [|c s]; [done|]. cbn [skip_space] in Hf. unfold separator.
  destruct (in_lit whitespace c); [done|]. by rewrite (Ht c Hf).
Qed.

Lemma skip_space_word w r : is_word w → skip_space (32 :: w ++ r) = w ++ r.
Proof. intros Hw. destruct (word_head w r Hw) as (_ & _ & _ & _ & _ & Hs). exact Hs. Qed.

(** ** Redirections *)

Abbreviation tredir := (list Z * Z * Z)%type.
Definition redir_text (r : tredir) : list Z := [32] ++ redir_symbol r.1.2 r.2 ++ [32] ++ r.1.1.
Definition redirs_text (rs : list tredir) : list Z := rs ≫= redir_text.
Definition tredir_ok (r : tredir) : Prop := is_word r.1.1 ∧ redir_ok r.1.2 r.2.
Definition erase_redir (r : redirect) : tredir := (slice_text r.1.1, r.1.2, r.2).

Lemma gettoken_redir file mode fd r :
  redir_ok mode fd → is_word file →
  ∃ tok w, peek (redir_text (file, mode, fd) ++ r) "<>" = (true, redir_symbol mode fd ++ 32 :: file ++ r) ∧
    gettoken (redir_symbol mode fd ++ 32 :: file ++ r) = (tok, w, file ++ r) ∧
    ∀ f : slice, (if tok =? ch "<" then [(f, O_RDONLY, 0)]
        else if tok =? ch ">" then [(f, Z.lor (Z.lor O_WRONLY O_CREATE) O_TRUNC, 1)]
        else if tok =? ch "+" then [(f, Z.lor O_WRONLY O_CREATE, 1)] else []) = [(f, mode, fd)].
Proof.
  intros Hr Hw. pose proof (skip_space_word file r Hw) as Hs.
  destruct Hr as [[= -> ->]|[[= -> ->]|[= -> ->]]]; unfold redir_text; cbn [fst snd];
    [change (redir_symbol O_RDONLY 0) with [60]|change (redir_symbol 1537 1) with [62]|change (redir_symbol 513 1) with [62; 62]];
    cbn [app]; rewrite <- ?app_assoc.
  - exists (ch "<"). eexists. split; [reflexivity|]. split; [|done].
    unfold gettoken. change (skip_space (60 :: 32 :: file ++ r)) with (60 :: 32 :: file ++ r).
    cbv beta iota. replace (in_lit _ 60) with true by reflexivity. by rewrite Hs.
  - exists (ch ">"). eexists. split; [reflexivity|]. split; [|done].
    unfold gettoken. change (skip_space (62 :: 32 :: file ++ r)) with (62 :: 32 :: file ++ r).
    cbv beta iota. replace (in_lit _ 62) with false by reflexivity. replace (62 =? ch ">") with true by reflexivity. cbn [char_at hd].
    replace (32 =? ch ">") with false by reflexivity. by rewrite Hs.
  - exists (ch "+"). eexists. split; [reflexivity|]. split; [|done].
    unfold gettoken. change (skip_space (62 :: 62 :: 32 :: file ++ r)) with (62 :: 62 :: 32 :: file ++ r).
    cbv beta iota. replace (in_lit _ 62) with false by reflexivity. replace (62 =? ch ">") with true by reflexivity. cbn [char_at hd].
    replace (62 =? ch ">") with true by reflexivity. cbn [tl]. by rewrite Hs.
Qed.

Lemma redirs_separator rs rest : follow "|)&;" rest → at_separator (redirs_text rs ++ rest).
Proof.
  intros Hf. destruct rs as [|r rs]; [|done]. eapply follow_separator; [exact Hf|]. chars.
Qed.

Lemma parseredirs_skip fuel s : parseredirs fuel (skip_space s) = parseredirs fuel s.
Proof. destruct fuel; [done|]. cbn [parseredirs]. by rewrite peek_skip. Qed.

Lemma parseredirs_text fuel rs rest :
  Forall tredir_ok rs → follow "|)&;" rest → (length (redirs_text rs ++ rest) < fuel)%nat →
  ∃ xs, parseredirs fuel (redirs_text rs ++ rest) = POk xs (skip_space rest) ∧ erase_redir <$> xs = rs.
Proof.
  intros Hrs Hf. revert fuel. induction Hrs as [|[[file mode] fd] rs [Hw Hr] Hrs IH]; intros fuel Hfuel.
  - destruct fuel as [|fuel]; [lia|]. exists []. split; [|done]. cbn [redirs_text app mbind list_bind parseredirs].
    by rewrite (peek_follow "|)&;" "<>" rest Hf) by chars.
  - simpl in Hw, Hr. destruct fuel as [|fuel]; [lia|].
    change (redirs_text ((file, mode, fd) :: rs) ++ rest) with ((redir_text (file, mode, fd) ++ redirs_text rs) ++ rest) in *.
    rewrite <- app_assoc in *.
    destruct (gettoken_redir file mode fd (redirs_text rs ++ rest) Hr Hw) as (tok & w & E1 & E2 & E3).
    destruct (IH fuel) as (xs & E4 & E5).
    { rewrite length_app in Hfuel. unfold redir_text in Hfuel. simpl in Hfuel. lia. }
    exists (((file ++ redirs_text rs ++ rest, redirs_text rs ++ rest), mode, fd) :: xs). split.
    + cbn [parseredirs]. rewrite E1. cbn [negb]. rewrite E2.
      rewrite (gettoken_word file) by (done || by apply redirs_separator). rewrite Z.eqb_refl. cbn [negb].
      rewrite E3, parseredirs_skip, E4. done.
    + rewrite fmap_cons, E5. unfold erase_redir at 1. cbn [fst snd]. by rewrite slice_text_app.
Qed.

(** ** Arguments *)

Definition args_text (args : list (list Z)) : list Z := args ≫= λ w, 32 :: w.

Lemma parseargs_skip fuel argc s : parseargs fuel argc (skip_space s) = parseargs fuel argc s.
Proof. destruct fuel; [done|]. cbn [parseargs]. by rewrite peek_skip. Qed.

Lemma parseargs_end fuel argc rest :
  follow "|)&;" rest → parseargs (S fuel) argc rest = POk ([], []) (skip_space rest).
Proof.
  unfold follow. intros Hf. cbn [parseargs]. unfold peek, gettoken. rewrite skip_space_idem.
  destruct (skip_space rest) as [|c r]; [done|]. by rewrite Hf.
Qed.

Lemma args_separator args rs rest : follow "|)&;" rest → at_separator (args_text args ++ redirs_text rs ++ rest).
Proof. intros Hf. destruct args as [|w args]; [by apply redirs_separator|done]. Qed.

(** Between two arguments there is no redirection. *)
Lemma parseredirs_word fuel w r : is_word w → parseredirs (S fuel) (32 :: w ++ r) = POk [] (w ++ r).
Proof. intros Hw. cbn [parseredirs]. by rewrite peek_space, (peek_word w r "<>") by (done || chars). Qed.

Lemma parseargs_text fuel argc args rs rest :
  Forall is_word args → Forall tredir_ok rs → follow "|)&;" rest → (argc + length args < MAXARGS)%nat →
  (length (args_text args ++ redirs_text rs ++ rest) < fuel)%nat → args ≠ [] ∨ rs = [] →
  ∃ xs ys, parseargs fuel argc (args_text args ++ redirs_text rs ++ rest) = POk (xs, ys) (skip_space rest) ∧
    slice_text <$> xs = args ∧ erase_redir <$> ys = rs.
Proof.
  intros Ha Hrs Hf. revert fuel argc. induction Ha as [|w args Hw Ha IH]; intros fuel argc Hn Hfuel Hor.
  - destruct Hor as [| ->]; [done|]. destruct fuel as [|fuel]; [lia|]. exists [], []. split; [by apply parseargs_end|done].
  - destruct fuel as [|fuel]; [lia|].
    change (args_text (w :: args) ++ redirs_text rs ++ rest) with ((32 :: w ++ args_text args) ++ redirs_text rs ++ rest) in *.
    cbn [app] in *. rewrite <- app_assoc in *. set (tail := args_text args ++ redirs_text rs ++ rest) in *.
    assert (length tail < fuel)%nat as Hft by (cbn [length] in Hfuel; rewrite length_app in Hfuel; lia).
    cbn [length] in Hn. set (arg := (w ++ tail, tail)).
    assert (parseargs (S fuel) argc (32 :: w ++ tail) =
      pbind (parseredirs fuel tail) (λ rs s, pbind (parseargs fuel (S argc) s) (λ '(args, rs') s, POk (arg :: args, rs ++ rs') s))) as Hstep.
    { cbn [parseargs]. rewrite peek_space, (peek_word w tail "|)&;") by (done || chars).
      rewrite gettoken_word by (done || by apply args_separator). change (ch "a" =? 0) with false. rewrite Z.eqb_refl. cbn [negb].
      rewrite (proj2 (Nat.leb_gt _ _)) by lia. by rewrite parseredirs_skip. }
    rewrite Hstep. destruct args as [|w2 args].
    + destruct (parseredirs_text fuel rs rest) as (ys & E1 & E2); try done. exists [arg], ys.
      unfold tail. cbn [args_text mbind list_bind app]. rewrite E1. cbn [pbind].
      destruct fuel as [|fuel]; [lia|]. rewrite parseargs_skip, parseargs_end by done. cbn [pbind]. rewrite app_nil_r.
      split; [done|]. split; [|done]. simpl. unfold arg. by rewrite slice_text_app.
    + destruct (IH fuel (S argc)) as (xs & ys & E1 & E2 & E3); [lia|done|by left|]. exists (arg :: xs), ys.
      assert (parseredirs fuel tail = POk [] (skip_space tail)) as ->.
      { unfold tail. apply Forall_cons in Ha as [Hw2 _]. destruct fuel as [|fuel]; [lia|].
        change (args_text (w2 :: args) ++ redirs_text rs ++ rest) with ((32 :: w2 ++ args_text args) ++ redirs_text rs ++ rest).
        cbn [app]. rewrite <- app_assoc, skip_space_word by done. by apply parseredirs_word. }
      cbn [pbind]. rewrite parseargs_skip, E1. cbn [pbind]. split; [done|]. split; [|done].
      rewrite fmap_cons, E2. unfold arg. by rewrite slice_text_app.
Qed.

(** ** Symbols *)

Definition is_sym (c : Z) : Prop := c ∈ [124; 40; 41; 59; 38].

Lemma peek_sym c s toks : is_sym c → peek (c :: s) toks = (in_lit (bytes_of toks) c, c :: s).
Proof.
  intros Hc. unfold is_sym in Hc. unfold peek. assert (skip_space (c :: s) = c :: s) as ->; [|done].
  repeat (apply elem_of_cons in Hc as [->|Hc]; [reflexivity|]). by apply not_elem_of_nil in Hc.
Qed.

Lemma gettoken_sym c s : is_sym c → (gettoken (c :: s)).2 = skip_space s.
Proof.
  intros Hc. unfold is_sym in Hc. repeat (apply elem_of_cons in Hc as [->|Hc]; [reflexivity|]). by apply not_elem_of_nil in Hc.
Qed.

Lemma parse_skip fuel s :
  parseexec fuel (skip_space s) = parseexec fuel s ∧ parsepipe fuel (skip_space s) = parsepipe fuel s ∧
  parseline fuel (skip_space s) = parseline fuel s.
Proof.
  assert (∀ fuel, parseexec fuel (skip_space s) = parseexec fuel s) as He.
  { intros [|f]; [done|]. cbn [parseexec]. by rewrite peek_skip. }
  assert (∀ fuel, parsepipe fuel (skip_space s) = parsepipe fuel s) as Hp.
  { intros [|f]; [done|]. cbn [parsepipe]. by rewrite He. }
  split; [done|]. split; [done|]. destruct fuel as [|f]; [done|]. cbn [parseline]. by rewrite Hp.
Qed.

(** ** The levels of the grammar *)

(** Text [txt] before [rest] is parsed as [t]. *)
Definition parses (p : nat → list Z → presult cmd) (b : nat) (toks : string) (txt : list Z) (t : tree) : Prop :=
  ∀ fuel rest, follow toks rest → (4 * length (txt ++ rest) + b < fuel)%nat →
    ∃ c, p fuel (txt ++ rest) = POk c (skip_space rest) ∧ erase c = t.

Definition line_ok (t : tree) : Prop := parses parseline 7 ")" (print 0 t) t.
Definition pipe_ok (t : tree) : Prop := parses parsepipe 6 "&;)" (print 2 t) t.
Definition exec_ok (t : tree) : Prop := parses parseexec 5 "|)&;" (print 3 t) t.

(** [n] times [" &"] *)
Fixpoint amps (n : nat) : list Z := match n with O => [] | S n' => 32 :: 38 :: amps n' end.

Definition back_ok (t : tree) : Prop :=
  ∀ n fuel rest, follow ";)" rest → (4 * length (print 1 t ++ amps n ++ rest) + 6 < fuel)%nat →
    ∃ c, pbind (parsepipe fuel (print 1 t ++ amps n ++ rest)) (parseback fuel) = POk (Nat.iter n BACK c) (skip_space rest) ∧
      erase c = t.

Lemma iter_back n c : Nat.iter n BACK (BACK c) = Nat.iter (S n) BACK c.
Proof. induction n as [|n IH]; simpl; [done|]. by rewrite IH. Qed.

Lemma parseback_skip fuel c s : parseback fuel c (skip_space s) = parseback fuel c s.
Proof. destruct fuel; [done|]. cbn [parseback]. by rewrite peek_skip. Qed.

Lemma parseback_amps n fuel c rest :
  follow ";)" rest → (length (amps n ++ rest) < fuel)%nat →
  parseback fuel c (amps n ++ rest) = POk (Nat.iter n BACK c) (skip_space rest).
Proof.
  intros Hf. revert fuel c. induction n as [|n IH]; intros fuel c Hfuel; (destruct fuel as [|fuel]; [lia|]); cbn [parseback amps app].
  - by rewrite (peek_follow ";)" "&" rest Hf) by chars.
  - cbn [amps app length] in Hfuel. rewrite peek_space, peek_sym by (unfold is_sym; set_solver).
    replace (in_lit _ 38) with true by reflexivity. rewrite gettoken_sym by (unfold is_sym; set_solver).
    rewrite parseback_skip, IH by lia. by rewrite iter_back.
Qed.

Lemma follow_amps n rest : follow ";)" rest → follow "&;)" (amps n ++ rest).
Proof.
  intros Hf. destruct n as [|n]; [|reflexivity]. unfold follow in *. cbn [amps app]. destruct (skip_space rest) as [|c r]; [done|].
  revert Hf. generalize c. chars.
Qed.

Lemma back_from_pipe t : pipe_ok t → print 1 t = print 2 t → back_ok t.
Proof.
  intros Hp E n fuel rest Hf Hfuel. rewrite E in *.
  destruct (Hp fuel (amps n ++ rest)) as (c & E1 & E2); [by apply follow_amps|done|].
  exists c. rewrite E1. cbn [pbind]. rewrite parseback_skip. split; [|done]. apply parseback_amps; [done|].
  rewrite length_app in Hfuel. lia.
Qed.

Lemma back_from_back t : back_ok t → back_ok (TBack t).
Proof.
  intros Hb n fuel rest Hf Hfuel. change (print 1 (TBack t)) with (print 1 t ++ [32; 38]) in *. rewrite <- app_assoc in *.
  destruct (Hb (S n) fuel rest Hf Hfuel) as (c & E1 & E2). exists (BACK c). rewrite iter_back. split; [exact E1|]. simpl. by rewrite E2.
Qed.

Lemma line_from_back t : back_ok t → print 0 t = print 1 t → line_ok t.
Proof.
  intros Hb E fuel rest Hf Hfuel. rewrite E in *. destruct fuel as [|fuel]; [lia|].
  destruct (Hb 0%nat fuel rest) as (c & E1 & E2); [|simpl; lia|].
  { unfold follow in *. destruct (skip_space rest) as [|c r]; [done|]. revert Hf. generalize c. chars. }
  exists c. split; [|done]. cbn [parseline]. cbn [amps app] in E1. simpl in E1.
  destruct (parsepipe fuel (print 1 t ++ rest)) as [c1 s1| |]; cbn [pbind] in *; [|done..]. rewrite E1. cbn [pbind].
  rewrite peek_skip, (peek_follow ")" ";" rest Hf) by chars. done.
Qed.

Lemma line_from_list l r : back_ok l → line_ok r → line_ok (TList l r).
Proof.
  intros Hl Hr fuel rest Hf Hfuel. destruct fuel as [|fuel]; [lia|].
  change (print 0 (TList l r)) with (print 1 l ++ [32; 59] ++ print 0 r) in *. rewrite <- !app_assoc in *. cbn [app] in *.
  destruct (Hl 0%nat fuel (32 :: 59 :: print 0 r ++ rest)) as (c & E1 & E2); [reflexivity|simpl; lia|]. cbn [amps app Nat.iter] in E1.
  destruct (Hr fuel rest Hf) as (c2 & E3 & E4).
  { rewrite !length_app in *. cbn [length] in *. rewrite length_app in *. lia. }
  exists (LIST c c2). split; [|simpl; by rewrite E2, E4]. cbn [parseline].
  destruct (parsepipe fuel (print 1 l ++ 32 :: 59 :: print 0 r ++ rest)) as [c1 s1| |]; cbn [pbind] in *; [|done..].
  rewrite E1. cbn [pbind]. rewrite peek_skip, peek_space, peek_sym by (unfold is_sym; set_solver).
  replace (in_lit _ 59) with true by reflexivity. rewrite gettoken_sym by (unfold is_sym; set_solver).
  destruct (parse_skip fuel (print 0 r ++ rest)) as (_ & _ & ->). by rewrite E3.
Qed.

Lemma follow_weaken toks toks' rest :
  follow toks rest → (∀ c, in_lit (bytes_of toks) c = true → in_lit (bytes_of toks') c = true) → follow toks' rest.
Proof. unfold follow. intros Hf Ht. destruct (skip_space rest) as [|c r]; [done|]. by apply Ht. Qed.

Lemma pipe_from_exec t : exec_ok t → print 2 t = print 3 t → pipe_ok t.
Proof.
  intros He E fuel rest Hf Hfuel. rewrite E in *. destruct fuel as [|fuel]; [lia|].
  destruct (He fuel rest) as (c & E1 & E2); [eapply follow_weaken; [done|chars]|lia|].
  exists c. split; [|done]. cbn [parsepipe]. rewrite E1. cbn [pbind]. rewrite peek_skip, (peek_follow "&;)" "|" rest Hf) by chars. done.
Qed.

Lemma pipe_from_pipe l r : exec_ok l → pipe_ok r → pipe_ok (TPipe l r).
Proof.
  intros Hl Hr fuel rest Hf Hfuel. destruct fuel as [|fuel]; [lia|].
  change (print 2 (TPipe l r)) with (print 3 l ++ [32; 124] ++ print 2 r) in *. rewrite <- !app_assoc in *. cbn [app] in *.
  destruct (Hl fuel (32 :: 124 :: print 2 r ++ rest)) as (c & E1 & E2); [reflexivity|lia|].
  destruct (Hr fuel rest Hf) as (c2 & E3 & E4).
  { rewrite !length_app in *. cbn [length] in *. rewrite length_app in *. lia. }
  exists (PIPE c c2). split; [|simpl; by rewrite E2, E4]. cbn [parsepipe]. rewrite E1. cbn [pbind].
  rewrite peek_skip, peek_space, peek_sym by (unfold is_sym; set_solver).
  replace (in_lit _ 124) with true by reflexivity. rewrite gettoken_sym by (unfold is_sym; set_solver).
  destruct (parse_skip fuel (print 2 r ++ rest)) as (_ & -> & _). by rewrite E3.
Qed.

(** A command is a core with redirections around it. *)
Fixpoint core (t : tree) : tree := match t with TRedir t _ _ _ => core t | _ => t end.
Fixpoint redirs (t : tree) : list tredir := match t with TRedir t f m d => redirs t ++ [(f, m, d)] | _ => [] end.
Definition add_redir (t : tree) (r : tredir) : tree := TRedir t r.1.1 r.1.2 r.2.

Lemma core_redirs t : t = foldl add_redir (core t) (redirs t).
Proof. induction t; simpl; try done. rewrite foldl_app. simpl. by rewrite <- IHt. Qed.

Lemma print_core t : print 3 t = print 3 (core t) ++ redirs_text (redirs t).
Proof.
  induction t; cbn [core redirs]; rewrite ?app_nil_r; try done. unfold redirs_text. rewrite bind_app. cbn [print].
  rewrite IHt, <- app_assoc. unfold redirs_text, redir_text. simpl. by rewrite app_nil_r.
Qed.

Lemma core_ok t : tree_ok t → tree_ok (core t) ∧ Forall tredir_ok (redirs t).
Proof.
  induction t; cbn [core redirs tree_ok]; try done. intros (H1 & H2 & H3). destruct (IHt H1) as [I1 I2].
  split; [done|]. apply Forall_app. split; [done|]. by constructor.
Qed.

Lemma erase_redirs c rs : erase (foldl redircmd c rs) = foldl add_redir (erase c) (erase_redir <$> rs).
Proof.
  revert c. induction rs as [|[[f m] d] rs IH]; intros c; [done|]. cbn [foldl fmap list_fmap]. by rewrite IH.
Qed.

(** A command that is not in parentheses. *)
Lemma peek_args args rs rest :
  Forall is_word args → Forall tredir_ok rs → follow "|)&;" rest →
  let txt := args_text args ++ redirs_text rs ++ rest in peek txt "(" = (false, skip_space txt).
Proof.
  intros Ha Hrs Hf txt. unfold txt. destruct args as [|w args].
  - cbn [args_text mbind list_bind app]. destruct rs as [|[[f m] d] rs].
    + apply (peek_follow "|)&;" "(" rest Hf). chars.
    + apply Forall_cons in Hrs as [[_ Hr] _]. simpl in Hr. destruct Hr as [[= -> ->]|[[= -> ->]|[= -> ->]]]; reflexivity.
  - apply Forall_cons in Ha as [Hw _].
    change (args_text (w :: args) ++ redirs_text rs ++ rest) with ((32 :: w ++ args_text args) ++ redirs_text rs ++ rest).
    cbn [app]. rewrite <- app_assoc, peek_space, (peek_word w) by (done || chars). by rewrite skip_space_word.
Qed.

Lemma parse_args_redirs fuel args rs rest :
  Forall is_word args → Forall tredir_ok rs → follow "|)&;" rest → (length args < MAXARGS)%nat →
  let txt := args_text args ++ redirs_text rs ++ rest in
  (length txt < fuel)%nat →
  ∃ c, pbind (parseredirs fuel txt) (λ rs s, pbind (parseargs fuel 0 s) (λ '(a, rs') s,
      POk (foldl redircmd (EXEC a) (rs ++ rs')) s)) = POk c (skip_space rest) ∧ erase c = foldl add_redir (TExec args) rs.
Proof.
  intros Ha Hrs Hf Hn txt Hfuel. destruct args as [|w args].
  - destruct (parseredirs_text fuel rs rest) as (ys & E1 & E2); [done|done|exact Hfuel|].
    exists (foldl redircmd (EXEC []) (ys ++ [])). unfold txt. cbn [args_text mbind list_bind app]. rewrite E1. cbn [pbind].
    destruct fuel as [|fuel]; [lia|]. rewrite parseargs_skip, parseargs_end by done. split; [done|].
    by rewrite erase_redirs, app_nil_r, E2.
  - destruct (parseargs_text fuel 0 (w :: args) rs rest) as (xs & zs & E1 & E2 & E3); try done; [by left|].
    exists (foldl redircmd (EXEC xs) zs). assert (parseredirs fuel txt = POk [] (skip_space txt)) as ->.
    { unfold txt. apply Forall_cons in Ha as [Hw _]. destruct fuel as [|fuel]; [lia|].
      change (args_text (w :: args) ++ redirs_text rs ++ rest) with ((32 :: w ++ args_text args) ++ redirs_text rs ++ rest).
      cbn [app]. rewrite <- app_assoc, skip_space_word by done. by apply parseredirs_word. }
    cbn [pbind]. rewrite parseargs_skip. unfold txt. rewrite E1. split; [done|]. rewrite erase_redirs, E3. simpl. by rewrite <- E2.
Qed.

Lemma exec_simple t args : tree_ok t → core t = TExec args → exec_ok t.
Proof.
  intros Ht Ec fuel rest Hf Hfuel. destruct (core_ok t Ht) as [Hc Hrs]. rewrite Ec in Hc. destruct Hc as [Hn Ha].
  pose proof (print_core t) as Ep. pose proof (core_redirs t) as Et. rewrite Ec in Ep, Et. rewrite Ep in *.
  change (print 3 (TExec args)) with (args_text args) in *. rewrite <- app_assoc in *. destruct fuel as [|fuel]; [lia|].
  destruct (parse_args_redirs fuel args (redirs t) rest) as (c & E1 & E2); try done; [lia|].
  exists c. split; [|by rewrite E2]. cbn [parseexec]. rewrite peek_args by done. cbv iota beta. rewrite parseredirs_skip. exact E1.
Qed.

(** A command in parentheses. *)
Lemma exec_block t : tree_ok t → line_ok (core t) → print 3 (core t) = 40 :: print 0 (core t) ++ [41] → exec_ok t.
Proof.
  intros Ht Hl E3 fuel rest Hf Hfuel. destruct (core_ok t Ht) as [_ Hrs]. pose proof (core_redirs t) as Et.
  rewrite print_core, E3 in Hfuel. rewrite print_core, E3. cbn [app] in *. rewrite <- !app_assoc in *. cbn [app] in *.
  set (tl1 := redirs_text (redirs t) ++ rest) in *. destruct fuel as [|[|fuel]]; [lia..|].
  destruct (Hl fuel (41 :: tl1)) as (c & E1 & E2); [reflexivity|cbn [length] in Hfuel; lia|].
  destruct (parseredirs_text fuel (redirs t) rest) as (xs & E4 & E5); [done|done| |].
  { fold tl1. cbn [length] in Hfuel. rewrite length_app in Hfuel. cbn [length] in Hfuel. lia. }
  exists (foldl redircmd c xs). split; [|by rewrite erase_redirs, E2, E5].
  cbn [parseexec]. rewrite peek_sym by (unfold is_sym; set_solver). replace (in_lit _ 40) with true by reflexivity. cbv iota beta.
  cbn [parseblock]. rewrite peek_sym by (unfold is_sym; set_solver). replace (in_lit _ 40) with true by reflexivity. cbn [negb].
  rewrite gettoken_sym by (unfold is_sym; set_solver). destruct (parse_skip fuel (print 0 (core t) ++ 41 :: tl1)) as (_ & _ & ->).
  rewrite E1. cbn [pbind]. rewrite peek_skip, peek_sym by (unfold is_sym; set_solver).
  replace (in_lit _ 41) with true by reflexivity. cbn [negb]. rewrite gettoken_sym by (unfold is_sym; set_solver).
  rewrite parseredirs_skip. unfold tl1. by rewrite E4.
Qed.

(** ** All levels *)

Definition all_ok (t : tree) : Prop := line_ok t ∧ back_ok t ∧ pipe_ok t ∧ exec_ok t.

Lemma all_ok_exec t : exec_ok t → print 0 t = print 3 t → print 1 t = print 3 t → print 2 t = print 3 t → all_ok t.
Proof.
  intros He E0 E1 E2. assert (pipe_ok t) as Hp by (by apply pipe_from_exec).
  assert (back_ok t) as Hb by (apply back_from_pipe; [done|congruence]).
  split; [apply line_from_back; [done|congruence]|done].
Qed.

Lemma tree_all_ok t : tree_ok t → all_ok t ∧ line_ok (core t).
Proof.
  induction t as [args|t IH file mode fd|l IHl r IHr|l IHl r IHr|t IH]; intros Ht.
  - assert (all_ok (TExec args)) as Ha by (apply all_ok_exec; [by eapply exec_simple|done..]). split; [done|apply Ha].
  - destruct (IH (proj1 Ht)) as [_ Hc]. split; [|exact Hc]. apply all_ok_exec; [|done..].
    destruct (core t) as [args| | | |] eqn:Ec.
    + by eapply (exec_simple _ args).
    + exfalso. clear -Ec. revert Ec. induction t; simpl; done.
    + apply exec_block; simpl; rewrite ?Ec; done.
    + apply exec_block; simpl; rewrite ?Ec; done.
    + apply exec_block; simpl; rewrite ?Ec; done.
  - destruct Ht as [Hl Hr]. destruct (IHl Hl) as [(_ & _ & _ & El) _]. destruct (IHr Hr) as [(_ & _ & Pr & _) _].
    assert (pipe_ok (TPipe l r)) as Hp by (by apply pipe_from_pipe).
    assert (back_ok (TPipe l r)) as Hb by (by apply back_from_pipe).
    assert (line_ok (TPipe l r)) as Hli by (by apply line_from_back). split; [|done]. split_and!; try done. by apply exec_block.
  - destruct Ht as [Hl Hr]. destruct (IHl Hl) as [(_ & Bl & _) _]. destruct (IHr Hr) as [(Lr & _) _].
    assert (line_ok (TList l r)) as Hli by (by apply line_from_list).
    assert (exec_ok (TList l r)) as He by (by apply exec_block). split; [|done].
    assert (pipe_ok (TList l r)) as Hp by (by apply pipe_from_exec). split_and!; try done. by apply back_from_pipe.
  - destruct (IH Ht) as [(_ & Bt & _) _]. assert (back_ok (TBack t)) as Hb by (by apply back_from_back).
    assert (line_ok (TBack t)) as Hli by (by apply line_from_back).
    assert (exec_ok (TBack t)) as He by (by apply exec_block). split; [|done]. split_and!; try done. by apply pipe_from_exec.
Qed.

(** ** Commands in memory *)

(** The tree of a command whose words are the strings in memory. *)
Fixpoint tree_in (m : memory) (es : Z) (c : cmd) : tree :=
  match c with
  | EXEC argv => TExec ((λ w : slice, cstring m (addr_of es w.1)) <$> argv)
  | REDIR c file mode fd => TRedir (tree_in m es c) (cstring m (addr_of es file.1)) mode fd
  | PIPE l r => TPipe (tree_in m es l) (tree_in m es r)
  | LIST l r => TList (tree_in m es l) (tree_in m es r)
  | BACK c => TBack (tree_in m es c)
  end.

Lemma tree_in_erase m es c :
  (∀ w, w ∈ slices c → cstring m (addr_of es w.1) = slice_text w) → tree_in m es c = erase c.
Proof.
  induction c as [argv|c IH file mode fd|l IHl r IHr|l IHl r IHr|c IH]; cbn [slices tree_in erase]; intros H.
  - f_equal. apply list_fmap_ext. intros i w Hw. apply H. by eapply list_elem_of_lookup_2.
  - f_equal; [apply IH; intros w Hw; apply H, elem_of_app; by left|]. apply H, elem_of_app. right. by left.
  - f_equal; [apply IHl|apply IHr]; intros w Hw; apply H, elem_of_app; auto.
  - f_equal; [apply IHl|apply IHr]; intros w Hw; apply H, elem_of_app; auto.
  - f_equal. by apply IH.
Qed.

(** C32: What is printed is parsed.  Take any command: up to nine words each, any
    redirections, pipelines, lists, background commands and groups, nested in any
    way.  Written out with its parentheses and followed by blanks, it is parsed by
    [parsecmd] into a command whose words, NUL-terminated in the line itself, are
    the words of the original, in the same structure. *)
Theorem print_parse (t : tree) (blanks : list Z) (a : Z) (s : ustate) (e : list (ustate → ustate)) :
  tree_ok t → skip_space blanks = [] → str_at (us_mem s) a (print 0 t ++ blanks) →
  ∃ c es m', parsecmd a s e = Ok (c, es) (s <| us_mem := m' |>) e ∧ tree_in m' es c = t.
Proof.
  intros Ht Hb Hs. set (text := print 0 t ++ blanks) in *. destruct (tree_all_ok t Ht) as [[Hl _] _].
  destruct (Hl (parse_fuel text) blanks) as (c & Hp & He).
  { unfold follow. by rewrite Hb. }
  { fold text. unfold parse_fuel. lia. }
  fold text in Hp. rewrite Hb in Hp.
  destruct (parsers_give (parse_fuel text)) as [Hg _]. specialize (Hg text). rewrite Hp in Hg. destruct Hg as [_ Hg].
  set (es := a + Z.of_nat (length text)). exists c, es, (nul_mem es (us_mem s) (slices c)). split.
  - unfold parsecmd. rewrite bind_gets, (cstring_at _ _ _ Hs), (strlen_at _ _ _ Hs), Hp. fold es. cbv iota beta.
    change (peek [] "") with (false, @nil Z). cbv iota beta. by erewrite bind_Ok by apply nulterminate_run.
  - rewrite tree_in_erase; [done|]. intros w Hw. by apply (words_in_memory (us_mem s) a es text).
Qed.

(** [(cat < in | grep x >> out) ; echo done &] *)
Definition sample_tree : tree :=
  TList (TPipe (TRedir (TExec [bytes_of "cat"]) (bytes_of "in") 0 0)
               (TRedir (TExec [bytes_of "grep"; bytes_of "x"]) (bytes_of "out") 513 1))
        (TBack (TExec [bytes_of "echo"; bytes_of "done"])).

Lemma print_parse_witness :
  let text := print 0 sample_tree ++ [10] in
  let s := mk_ustate (stn ∅ 4096 (text ++ [0])) CFork 0 [] in
  ∃ c es m', parsecmd 4096 s [] = Ok (c, es) (s <| us_mem := m' |>) [] ∧ tree_in m' es c = sample_tree.
Proof.
  intros text s. apply (print_parse sample_tree [10] 4096 s []).
  - simpl. unfold MAXARGS, is_word, redir_ok.
    repeat split; try (simpl; lia); try done; try (by left); try (by right; right);
      repeat constructor; vm_compute; reflexivity || discriminate.
  - reflexivity.
  - split; [vm_compute; reflexivity|]. split; [|vm_compute; reflexivity].
    apply (bool_decide_unpack _). vm_compute. exact I.
Defined.
